(* ===== verification/_CoqProject ===== *)
-Q . S2P
Prelude.v
PyFloat.v
PyTime.v
Regex.v
Json.v
Crypto.v
Protocol.v
ConnectCode.v
PyRegex.v
PyVal.v
StateFile.v
StateFileFacts.v
JsonCut.v
Jsonl.v
Buffer.v
Compaction.v
Chunks.v
ChunkFacts.v
Extract.v
Pipeline.v
PipelineFacts.v
ReportFacts.v
CatchUp.v
Rollover.v
RolloverFacts.v
CloseFacts.v
PassFacts.v
Throttle.v
WriteGuard.v
Pending.v
PendingFacts.v
Writes.v
Commits.v
LinkStore.v
DevRelay.v
World.v
Session.v
Pairing.v
Transport.v
Gate.v
Relationship.v
Consolidate.v
ConsolidateFacts.v
SessionEngine.v
Tick.v
Views.v
