(* ===== verification/Prelude.v ===== *)
(** * A verification development of companion-emergence

    ** The program

    companion-emergence is a Python program that keeps one long-lived persona on
    a machine: a bridge process serves the chat, a supervisor thread runs its
    background work, a tool server answers the model's tool calls, and all of
    them keep the persona's state in JSON files and SQLite databases.  Personas
    of different machines talk through the "kindled link", a peer-to-peer
    messaging stack over an untrusted relay.  Paths below are under [src/].

    This development models six parts of it, each down to single statements:

    - the peer link ([brain/kindled_link/], [relay/dev_relay.py]);
    - the throttle that gives chat priority over background model calls
      ([brain/bridge/cli_throttle.py]);
    - file writes the persona proposes and the user approves
      ([brain/files/], [brain/tools/impls/propose_write.py]);
    - state files: atomic saves, backups, healing, JSON lines
      ([brain/utils/atomic_write.py], [brain/health/json_io.py],
      [brain/health/jsonl_reader.py]);
    - a chat's files: its buffer and archive, compaction, rollover
      ([brain/ingest/buffer.py], [brain/chat/compaction.py],
      [brain/chat/rollover.py]);
    - the extraction of memories from a chat ([brain/ingest/ingest_utils.py],
      [extract.py], [types.py], [pipeline.py], [commit.py], [soul_queue.py]);
    - the queue of memory candidates ([brain/memory/pending.py]) and the gate that
      works it off ([brain/engines/consolidation.py]).

    How they interact: the peer link's tick ([Tick]) runs in the supervisor
    loop; each modelled call to a model goes through the daily caps of the
    link's store, and background runners take their slot from the throttle.  The
    pending-write store saves each card with [write_json] and serialises its
    updates with a lock, so [Writes] takes one save as one step; [StateFile]
    shows what one save is made of and that it is all or nothing, which is what
    that step relies on.  The link keeps its cadence and relationship files
    through the same module.  A chat's buffer and archive are JSON lines files:
    [Buffer] takes one append, rewrite or deletion as one operation on a file's
    records and proves that [Jsonl]'s bytes implement it.  An extraction pass reads
    the rows after the buffer's cursor and moves the cursor; what it moves past,
    compaction and rollover may fold and remove, so the cursor is the contract
    between them: [Compaction] shows that only rows before it leave the buffer, and
    [PipelineFacts] that it moves only past rows whose memories are in.  A rollover
    asks [Pipeline.extraction_allows_rollover] first.

    ** Files, and the code they model

    Foundations, shared by all parts:
    - [Prelude]: the error and state-error monads, their notations and rewriting
      rules ([bind_run]), the tactics and hint databases, list lemmas.
    - [PyFloat], [PyTime], [Regex], [PyRegex], [Json], [PyVal], [Crypto]: the parts of Python's
      language and standard library the code uses: binary64 arithmetic,
      datetimes and ISO text, regular expressions, the json module with UTF-8,
      conversions, hexadecimal and SHA-256.  Numbers are unbounded as Python's
      integers are; floats are IEEE 754 values computed exactly; a string is a list of
      code points and bytes are a list of numbers.  [Crypto] also has the
      interface of the [cryptography] package: operations as a class, its
      documented laws as another, and an instance that satisfies them.

    The peer link, bottom up:
    - [Protocol]: [identity.py], [protocol.py], [codec.py] (with [Json]):
      identities, signatures, key derivation, nonces, envelopes.
    - [ConnectCode]: [connect_code.py].
    - [LinkStore]: [store.py]; record [db], one definition per method of
      [KindledLinkStore], with the method's name.
    - [World]: what a process of the link runs in (database, JSON files, a trace
      of effects, an environment that answers from the whole trace and may kill
      the process at any call), with [audit.py], [relay_client.py] and the file
      helpers.
    - [Session] [session.py]; [Pairing] [pairing.py]; [Transport]
      [transport.py]; [Gate] [gate.py] and [privacy_gate.py]; [Relationship]
      [relationship.py] and [cadence.py]; [SessionEngine] [session_engine.py] and
      [peer_prompt.py]; [Tick] [tick.py] and its call in
      [brain/bridge/supervisor.py]; [Views] [views.py].  The gate is an interface:
      [SessionEngine] is proved for every gate, and [PrivacyGate] and
      [DenyAllGate] are instances.
    - [DevRelay]: [relay/dev_relay.py], a state machine over requests.

    The concurrent parts.  In each, the code's shared state is a record, a
    process is a program point (an inductive type whose constructors name the
    function and the statement reached, with its local variables), one step is
    what the code does atomically (under its lock, or one access to a file),
    and a run is any list of moves: start a process, let it take a step with
    given readings of the outside, kill it.
    - [Throttle]: the module's globals are the record [throttle]; each [with _lock]
      section is one operation, the functions compose them, [thread_step]
      interleaves them; [sem_step] is the abstract semaphore.
    - [WriteGuard]: [write_guard.py].  [Writes]: [pending.py], [commit.py],
      [audit.py], [propose_write.py]; the record [disk] holds cards, files, audit
      rows and memories.  [Commits]: the theorems.
    - [StateFile]: [atomic_write.py], [json_io.py]; the record [dir] is one state
      file with everything beside it.  [StateFileFacts]: the theorems.
    - [Jsonl]: the JSON lines half of [json_io.py] and [jsonl_reader.py]; a file is
      its bytes, and an append may be cut short anywhere.  [JsonCut]: what the
      parser does on a text that was cut.
    - [Buffer]: [buffer.py]; the record [conv] is every file of one session.
      [Compaction]: [compaction.py]; a pass is a function from what it read to a
      [plan] (the rows to archive, the new summary row).  [Rollover]: the passes,
      [rollover.py] and the compaction lock as threads on the sessions; a program
      point is a [place].  [RolloverFacts], [PassFacts]: the theorems.
    - [Chunks]: the chunker of [ingest_utils.py] and the transcript lines of
      [extract.py], with the theorems on its output; [ChunkFacts]: chunking a part.
      [Extract]: [types.py] and [parse_extraction].  [Pipeline]: the passes; the
      record [ingest] is one session's files, the persona's files a pass writes, the
      report and the trace of accesses, an operation is a program of the state-error
      monad over it, and the class [Outside] answers every access from the trace, so
      that one theorem covers every environment and a death at any access.
      [PipelineFacts] (the trace), [ReportFacts] (the report), [CatchUp] (passes
      that nothing disturbs), [CloseFacts] (setting aside, closing, the rollover's
      gate): the theorems.
    - [Pending]: [memory/pending.py] on the four files of the queue, every access of
      which may fail, stop part way or be where the process dies (the class
      [PendingDisk]); the system of producers and gate runs is a list of [op]s.
      [PendingFacts]: its theorems.  [Consolidate]: [engines/consolidation.py] and
      [utils/failure_scope.py], a run of the gate as a program over the queue, its
      batch, its counters and the trace of its accesses, which the class [GateWorld]
      answers; [ConsolidateFacts]: its theorems.

    ** What the theorems show

    - Peer link, inbound: an accepted message has a valid signature of the paired
      peer over what was stored, decrypts under the session's key and raises the
      high-water mark, so a replay is refused; polling keeps the store well
      formed and never moves a session backwards; blocked peers are not read.
    - Peer link, outbound: nothing is sent but what a gate cleared for that very
      payload after session, pacing and cap checks; with the privacy gate it
      holds no pattern the pre-filter refuses; daily caps hold over whole ticks
      in every environment; nonces never repeat under one key.
    - Handshake and pairing: both ends derive the same key in opposite roles; an
      invite is accepted only with its signature, before its expiry, once; the
      consent machine's transitions are the only ones.
    - Relay: its caps hold over all request sequences, mail is removed only by
      its owner, a nonce authorises one request.
    - Throttle: the threads refine a counting semaphore in which replies have
      priority; a reply-start callback runs at most once and is never missed;
      waiting ends; a failing idle check never lets background work start.
    - Guarded writes: an accepted target is outside every protected location; in
      every interleaving a card's content is put in its file by one process only;
      an undisturbed approval changes the file exactly as the card says; an
      interrupted commit is resolved by the repair pass as what the file shows.
    - State files: in every interleaving, with crashes and faults anywhere, the live file
      and each backup are whole files that somebody saved; a save moves the chain
      by one; a failed save changes nothing; a heal installs the newest valid
      backup and keeps the corrupt bytes; no reader gets data that fails its check.
    - JSON lines: a file of appends, any of them cut short, reads back as the
      finished records and nothing else; the reader that scans backwards in chunks
      agrees with the one that reads forwards; reading from the last position
      misses and repeats nothing.
    - A chat's files: in every interleaving of passes and rollovers, with faults,
      cut appends, kills and wrongly reaped locks, every turn that was ingested is
      in some session's buffer or in an archive; a pass takes out only extracted,
      unprotected turns, and only once they are archived; repeated passes drain a
      backlog in order; section sizes are capped; the lock excludes while nobody
      reaps it, and does not when somebody does; a pass alone is its sequential
      reading.
    - The candidate queue: whatever fails and wherever the process dies, a candidate or
      request that was reported as queued waits until the gate settles it; a claim gives
      out exactly what waits; an undisturbed round leaves nothing behind.  A run of the
      gate, in every environment, settles an entry only for a reason its trace shows
      and loses nothing else; failing items never end it with an exception.
    - Extraction: the chunks of a run of rows are all of it in order, cut only where
      time stamps separate; what is sent fits the limit and says everything; the rest
      after a chunk is chunked as before; a normalized item is well formed.  In every
      environment the cursor moves only past rows whose items are stored or found
      stored; setting a failing chunk aside and closing a session lose no row
      wherever they stop; a rollover is allowed only by a pass that took all that
      waited; reports add up.  When nothing fails, passes of one chunk work a
      backlog off, as one pass to the end does.
    - The relationship state, float budgets and caps stay in range; JSON,
      connect codes, envelopes and time stamps round-trip.

    Theorems that state a defect (their comments say so) show what the code does
    where it differs from its comments; the rest hold of the code as it is.

    ** Bounds and fuel

    Loops over data are structural recursions.  A few have fuel: the relay
    client's loop has its three attempts; the JSON parser twice the length of the
    text and two, which the round-trip theorem shows is enough for what the code
    writes; the regular-expression star the rest of the text, enough by the
    exactness of [search]; SHA-256's block loop the number of words, of which each
    round takes sixteen; an integer's digits its binary length and one; a float's
    shortest digits seventeen, and its decimal exponent the 700 powers from
    10^-330, the whole range of binary64.  The systems of concurrent processes
    take no fuel: a run is a list of moves of any length, and liveness is stated
    by the amount of work left; a pass that runs alone ends within ten accesses.
    The cutting of a line into parts has the line's length as fuel, each part taking
    at least one character; the attempts of an extraction are counted down from
    [max_retries + 1].

    ** Not modelled

    SQLite itself (a transaction is atomic), the HTTP stack, the operating system
    beyond the accesses described, power loss and [fsync], file modes, Windows'
    retry loops, logging (except the throttle's rate limit, which decides what
    is reported), prompt wording that lives in data files, the chat process's
    registry lock (so the model has more interleavings of rollovers and turns
    than the program), the interpreter's recursion limit (a deeply nested JSON text
    raises there), the backfills of the extraction, and the similarity search it
    compares items with.  In [Rollover] the outcome of the final extraction is an
    argument: [Pipeline] and [Rollover] model the same files at different grain,
    accesses of one pass and steps of many threads.  Path
    resolution, randomness, clocks, models and the relay are arguments.  The
    desktop application, the bridge's HTTP
    server, the chat engine, memory and search, and the other background engines are
    not modelled. *)

From stdpp Require Export base gmap strings list list_numbers fin_maps sorting.
From Stdlib Require String Ascii.
From Stdlib Require Export ZArith Lia.

(** ** Python text and bytes

    A Python [str] is a list of Unicode code points and a Python [bytes] a list
    of numbers below 256.  [u "..."] writes an ASCII literal of the source. *)
Abbreviation pystr := (list N).
Abbreviation pybytes := (list N).

Definition u (s : string) : pystr := map Ascii.N_of_ascii (String.list_ascii_of_string s).
Arguments u : simpl never.

Definition byte_ok (b : N) : Prop := (b < 256)%N.

(** Python's [str.startswith]. *)
Fixpoint starts_with (p s : pystr) : bool :=
  match p, s with
  | [], _ => true
  | x :: p', y :: s' => bool_decide (x = y) && starts_with p' s'
  | _ :: _, [] => false
  end.

(** Python's [p in s] on strings (substring search). *)
Fixpoint substring_of (p s : pystr) : bool :=
  starts_with p s ||
  match s with
  | [] => false
  | _ :: s' => substring_of p s'
  end.

(** Python's [sep.join(parts)]. *)
Fixpoint py_join (sep : pystr) (parts : list pystr) : pystr :=
  match parts with
  | [] => []
  | [p] => p
  | p :: rest => p ++ sep ++ py_join sep rest
  end.

(** Lexicographic order on strings, as Python and SQLite's BINARY collation
    compare them (code point order). *)
Fixpoint str_ltb (a b : pystr) : bool :=
  match a, b with
  | [], [] => false
  | [], _ :: _ => true
  | _ :: _, [] => false
  | x :: a', y :: b' => (x <? y)%N || ((x =? y)%N && str_ltb a' b')
  end.

Definition str_leb (a b : pystr) : bool := negb (str_ltb b a).

(** ** Exceptions

    The exception classes the modelled code raises or catches.  [Crash] is the
    death of the process (a kill, power loss): it is not an [Exception], so no
    handler of the code catches it. *)
Inductive exn :=
| KeyError
| ValueError
| TypeError
| AttributeError
| IndexError
| OverflowError
| OSError
| UnicodeError
| JSONDecodeError
| IntegrityError            (* sqlite3.IntegrityError *)
| ProgrammingError          (* sqlite3: a value of an unsupported type was bound *)
| ConsentTransitionError (msg : pystr)
| InviteError (msg : pystr)
| ConnectCodeError (msg : pystr)
| RelayUnavailableError (msg : pystr)
| ProviderError
| AssertionError
| ThrottleDeferred           (* a model call refused as "not now" *)
| ShutdownDeferred           (* the same, because the bridge is stopping *)
| HTTPException (status : Z)   (* FastAPI's, raised by the relay *)
| OperationalError           (* sqlite3: locked, busy, full, I/O *)
| ServiceCallFailed          (* a model call that failed for any reason *)
| UnusableClassifierReply (reply : pystr)
| Crash.

#[export] Instance exn_eq_dec : EqDecision exn.
Proof. solve_decision. Defined.

(** [except Exception]: everything but the death of the process. *)
Definition is_Exception (e : exn) : bool :=
  match e with Crash => false | _ => true end.

(** [except ValueError], with the subclasses of [ValueError]. *)
Definition is_ValueError (e : exn) : bool :=
  match e with
  | ValueError | UnicodeError | JSONDecodeError
  | ConsentTransitionError _ | InviteError _ | ConnectCodeError _ => true
  | _ => false
  end.

Inductive res (A : Type) :=
| Ok (a : A)
| Err (e : exn).
Arguments Ok {A} a.
Arguments Err {A} e.

#[export] Instance res_ret : MRet res := @Ok.
#[export] Instance res_bind : MBind res := fun A B k m =>
  match m with Ok a => k a | Err e => Err e end.

(** [None] as a raised exception. *)
Definition or_raise {A} (e : exn) (o : option A) : res A :=
  match o with Some a => Ok a | None => Err e end.

(** ** The state and exception monad

    A Python function that mutates shared state: it returns or raises, and in
    both cases leaves the state it reached behind. *)
Definition M (S A : Type) : Type := S -> res A * S.

#[export] Instance M_ret {S} : MRet (M S) := fun A a s => (Ok a, s).
#[export] Instance M_bind {S} : MBind (M S) := fun A B k m s =>
  match m s with
  | (Ok a, s') => k a s'
  | (Err e, s') => (Err e, s')
  end.

Section monad.
Context {S : Type}.

Definition raise {A} (e : exn) : M S A := fun s => (Err e, s).
Definition get : M S S := fun s => (Ok s, s).
Definition gets {A} (f : S -> A) : M S A := fun s => (Ok (f s), s).
Definition modify (f : S -> S) : M S unit := fun s => (Ok tt, f s).

(** [try: m  except: h]; [h e = None] means the clause does not match [e]. *)
Definition catch {A} (m : M S A) (h : exn -> option (M S A)) : M S A := fun s =>
  match m s with
  | (Err e, s') => match h e with Some k => k s' | None => (Err e, s') end
  | r => r
  end.

Definition of_res {A} (r : res A) : M S A := fun s => (r, s).
Definition of_option {A} (e : exn) (o : option A) : M S A :=
  match o with Some a => mret a | None => raise e end.

(** [for x in xs: f x]. *)
Fixpoint for_each {A} (xs : list A) (f : A -> M S unit) : M S unit :=
  match xs with
  | [] => mret tt
  | x :: xs' => f x ≫= fun _ => for_each xs' f
  end.

(** A loop that threads an accumulator of local variables. *)
Fixpoint fold_each {A B} (xs : list A) (b : B) (f : B -> A -> M S B) : M S B :=
  match xs with
  | [] => mret b
  | x :: xs' => f b x ≫= fun b' => fold_each xs' b' f
  end.

End monad.

(** Run an operation of a component on the part of a larger state it owns. *)
Definition zoom {W S A} (proj : W -> S) (upd : S -> W -> W) (m : M S A) : M W A :=
  fun w => let '(r, s) := m (proj w) in (r, upd s w).

Declare Scope py_scope.
Delimit Scope py_scope with py.
Open Scope py_scope.

(** ** Preservation of a relation between the states before and after *)
Definition pres {S A} (R : S -> S -> Prop) (m : M S A) : Prop :=
  forall s, R s (m s).2.

Create HintDb pres discriminated.
Create Rewrite HintDb py.

Section pres.
Context {S : Type} (R : S -> S -> Prop) `{!PreOrder R}.

Lemma pres_ret {A} (a : A) : pres R (mret a).
Proof. intros s. reflexivity. Qed.

Lemma pres_raise {A} e : pres R (@raise S A e).
Proof. intros s. reflexivity. Qed.

Lemma pres_get : pres R get.
Proof. intros s. reflexivity. Qed.

Lemma pres_gets {A} (f : S -> A) : pres R (gets f).
Proof. intros s. reflexivity. Qed.

Lemma pres_of_res {A} (r : res A) : pres R (of_res r).
Proof. intros s. reflexivity. Qed.

Lemma pres_of_option {A} e (o : option A) : pres R (of_option e o).
Proof. intros s. destruct o; reflexivity. Qed.

Lemma pres_modify f : (forall s, R s (f s)) -> pres R (modify f).
Proof. intros Hf s. apply Hf. Qed.

Lemma pres_bind {A B} (m : M S A) (k : A -> M S B) :
  pres R m -> (forall a, pres R (k a)) -> pres R (m ≫= k).
Proof.
  intros Hm Hk s. specialize (Hm s). unfold mbind, M_bind.
  destruct (m s) as [[a|e] s']; simpl in *; [|done].
  etrans; [exact Hm|]. apply Hk.
Qed.

Lemma pres_catch {A} (m : M S A) h :
  pres R m -> (forall e k, h e = Some k -> pres R k) -> pres R (catch m h).
Proof.
  intros Hm Hh s. specialize (Hm s). unfold catch.
  destruct (m s) as [[a|e] s']; simpl in *; [done|].
  destruct (h e) eqn:He; simpl; [|done].
  etrans; [exact Hm|]. eapply Hh; eauto.
Qed.

Lemma pres_for_each {A} (xs : list A) f :
  (forall x, pres R (f x)) -> pres R (for_each xs f).
Proof.
  intros Hf. induction xs as [|x xs IH]; simpl.
  - apply pres_ret.
  - apply pres_bind; [apply Hf|done].
Qed.

Lemma pres_fold_each {A B} (xs : list A) (b : B) f :
  (forall b x, pres R (f b x)) -> pres R (fold_each xs b f).
Proof.
  intros Hf. revert b. induction xs as [|x xs IH]; intros b; simpl.
  - apply pres_ret.
  - apply pres_bind; [apply Hf|intros b'; apply IH].
Qed.

Lemma pres_zoom {W A} (Q : W -> W -> Prop) (proj : W -> S) upd (m : M S A) :
  pres R m ->
  (forall w s', R (proj w) s' -> Q w (upd s' w)) ->
  pres Q (zoom proj upd m).
Proof.
  intros Hm HQ w. specialize (Hm (proj w)). unfold zoom.
  destruct (m (proj w)) as [r s']. simpl in *. by apply HQ.
Qed.

End pres.

#[export] Hint Resolve pres_ret pres_raise pres_get pres_gets pres_of_res
  pres_of_option pres_bind pres_catch pres_for_each pres_fold_each : pres.
#[export] Hint Extern 2 (PreOrder _) => typeclasses eauto : pres.

(** An invariant as a relation: what held before holds after. *)
Definition keeps {S} (P : S -> Prop) (s s' : S) : Prop := P s -> P s'.

#[export] Instance keeps_preorder {S} (P : S -> Prop) : PreOrder (keeps P).
Proof. split; [intros s H; exact H | intros s1 s2 s3 H1 H2 H; auto]. Qed.

Lemma bind_run {S A B} (m : M S A) (k : A -> M S B) s :
  (m ≫= k) s = match m s with (Ok a, s') => k a s' | (Err e, s') => (Err e, s') end.
Proof. reflexivity. Qed.

Lemma for_each_step {S A} (x : A) xs (f : A -> M S unit) s s' :
  f x s = (Ok tt, s') -> for_each (x :: xs) f s = for_each xs f s'.
Proof. intros Hx. cbn [for_each]. unfold mbind, M_bind. by rewrite Hx. Qed.

Lemma catch_all_unit {S} (m : M S unit) s :
  catch m (fun _ => Some (mret tt)) s = (Ok tt, (m s).2).
Proof. unfold catch. by destruct (m s) as [[[]|] s']. Qed.

(** Equality as a relation: the operation only reads. *)
Lemma pres_bind_ro {S A B} (m : M S A) (k : A -> M S B) :
  pres eq m -> (forall a, pres eq (k a)) -> pres eq (m ≫= k).
Proof. apply pres_bind. split; [intros ?; done | intros ???; congruence]. Qed.

(** ** Tactics *)

(** Evaluate the monadic plumbing of a goal or hypothesis. *)
Ltac munfold :=
  unfold mbind, M_bind, mret, M_ret, res_bind, res_ret, raise, get, gets, modify, catch, of_res,
    of_option, zoom in *; simpl in *.

(** Split the structure of a program that must preserve a relation. *)
Ltac pres_step :=
  lazymatch goal with
  | |- pres _ (mret _) => apply pres_ret; typeclasses eauto
  | |- pres _ (raise _) => apply pres_raise; typeclasses eauto
  | |- pres _ get => apply pres_get; typeclasses eauto
  | |- pres _ (gets _) => apply pres_gets; typeclasses eauto
  | |- pres _ (of_res _) => apply pres_of_res; typeclasses eauto
  | |- pres _ (of_option _ _) => apply pres_of_option; typeclasses eauto
  | |- pres _ (_ ≫= _) => apply pres_bind; [typeclasses eauto | | intros ?]
  | |- pres _ (for_each _ _) => apply pres_for_each; [typeclasses eauto | intros ?]
  | |- pres _ (fold_each _ _ _) =>
      apply pres_fold_each; [typeclasses eauto | intros ? ?]
  | |- pres _ (catch _ _) =>
      apply pres_catch; [typeclasses eauto | | intros ? ? ?]
  | |- pres _ (match ?x with _ => _ end) => destruct x
  | |- pres _ (let _ := _ in _) => cbv zeta
  end.

Ltac pres_auto :=
  repeat first
    [ progress simplify_eq
    | solve [ eauto 2 with pres ]
    | pres_step ].

(** ** Lists and options the components share *)

Definition py_last {A} (l : list A) : option A := last l.

Lemma substring_of_app a p b : substring_of p (a ++ p ++ b) = true.
Proof.
  assert (starts_with p (p ++ b) = true) as Hs.
  { induction p as [|x p IH]; simpl; [done|]. by rewrite bool_decide_eq_true_2. }
  induction a as [|x a IH]; simpl.
  - destruct (p ++ b); simpl; by rewrite Hs.
  - rewrite IH. by rewrite orb_true_r.
Qed.

Lemma starts_with_spec p s : starts_with p s = true <-> exists t, s = p ++ t.
Proof.
  revert s. induction p as [|x p IH]; intros s; simpl.
  - split; [eauto|done].
  - destruct s as [|y s]; simpl.
    + split; [done|]. intros [t Ht]. done.
    + rewrite andb_true_iff, bool_decide_eq_true, IH. split.
      * intros [-> [t ->]]. by exists t.
      * intros [t Ht]. simplify_eq. split; [done|by exists t].
Qed.

Lemma substring_of_spec p s :
  substring_of p s = true <-> exists a b, s = a ++ p ++ b.
Proof.
  split.
  - induction s as [|x s IH]; simpl; rewrite orb_true_iff, starts_with_spec.
    + intros [[t Ht]|?]; [|done]. by exists [], t.
    + intros [[t Ht]|H].
      * by exists [], t.
      * destruct (IH H) as (a & b & ->). by exists (x :: a), b.
  - intros (a & b & ->). apply substring_of_app.
Qed.

Lemma str_ltb_irrefl a : str_ltb a a = false.
Proof.
  induction a as [|x a IH]; simpl; [done|].
  rewrite N.ltb_irrefl, N.eqb_refl. done.
Qed.

Lemma str_ltb_trans a b c :
  str_ltb a b = true -> str_ltb b c = true -> str_ltb a c = true.
Proof.
  revert b c. induction a as [|x a IH]; intros [|y b] [|z c]; simpl; try done.
  rewrite !orb_true_iff, !andb_true_iff, !N.ltb_lt, !N.eqb_eq.
  intros [H1|[-> H1]] [H2|[-> H2]]; [left; lia|by left|by left|].
  right. eauto.
Qed.

Lemma str_ltb_total a b : str_ltb a b = false -> str_ltb b a = false -> a = b.
Proof.
  revert b. induction a as [|x a IH]; intros [|y b]; simpl; try done.
  rewrite !orb_false_iff, !andb_false_iff, !N.ltb_ge, !N.eqb_neq.
  intros [H1 H2] [H3 H4]. assert (x = y) as -> by lia. f_equal.
  apply IH; [by destruct H2|by destruct H4].
Qed.

#[export] Hint Rewrite andb_true_iff orb_true_iff negb_true_iff
  Z.leb_le Z.ltb_lt N.leb_le N.ltb_lt N.eqb_eq Z.eqb_eq Nat.leb_le Nat.ltb_lt
  bool_decide_eq_true : py.
