(* ===== verification/PyFloat.v ===== *)
(** Python [float]: IEEE 754 binary64, computed exactly with the Standard
    Library's [SpecFloat] (53 bits of precision, exponents up to 1024).  Holds
    the arithmetic and comparisons the modelled code uses, Python's [min]/[max]
    on floats, the conversion of decimal literals, and order lemmas. *)
From S2P Require Import Prelude.
From Stdlib Require Import Floats.SpecFloat.

Abbreviation float := spec_float.

Definition fadd : float -> float -> float := SFadd 53 1024.
Definition fsub : float -> float -> float := SFsub 53 1024.
Definition fmul : float -> float -> float := SFmul 53 1024.
Definition fdiv : float -> float -> float := SFdiv 53 1024.

(** [float(z)] for an [int] in range, rounded to nearest even. *)
Definition fofZ (z : Z) : float := binary_normalize 53 1024 z 0 false.

(** An exact integer as a (not normalised) operand of a division. *)
Definition fexact (z : Z) : float :=
  match z with
  | Z0 => S754_zero false
  | Zpos p => S754_finite false p 0
  | Zneg p => S754_finite true p 0
  end.

(** [int / int]: correctly rounded true division. *)
Definition fdivZ (a b : Z) : float := fdiv (fexact a) (fexact b).

Definition ndigits (z : Z) : Z := Z.log2 (Z.abs z) * 30103 / 100000.

(** The literal [m * 10^e], correctly rounded, as [float("...")] reads it. *)
Definition fdec (m e : Z) : float :=
  if (m =? 0)%Z then S754_zero false
  else if (400 <? e + ndigits m)%Z then S754_infinity (m <? 0)%Z
  else if (e + ndigits m <? -400)%Z then S754_zero (m <? 0)%Z
  else if (0 <=? e)%Z then binary_normalize 53 1024 (m * 10 ^ e) 0 false
  else fdivZ m (10 ^ (- e)).

Definition flt (a b : float) : bool :=
  match SFcompare a b with Some Lt => true | _ => false end.
Definition fle (a b : float) : bool :=
  match SFcompare a b with Some Lt | Some Eq => true | _ => false end.
Definition feq (a b : float) : bool :=
  match SFcompare a b with Some Eq => true | _ => false end.
Definition fabs : float -> float := SFabs.

Definition is_finite (f : float) : bool :=
  match f with S754_zero _ | S754_finite _ _ _ => true | _ => false end.

Definition f0 : float := S754_zero false.
Definition f1 : float := fofZ 1.

(** Python's [max(a, b)] and [min(a, b)]: the first argument unless the second
    compares strictly better (so a NaN second argument is never taken). *)
Definition pymax (a b : float) : float := if flt a b then b else a.
Definition pymin (a b : float) : float := if flt b a then b else a.

(** [int(f)]: truncation; infinities and NaN raise. *)
Definition int_of_float (f : float) : res Z :=
  match f with
  | S754_zero _ => Ok 0%Z
  | S754_infinity _ => Err OverflowError
  | S754_nan => Err ValueError
  | S754_finite s m e =>
      let z := if (0 <=? e)%Z then (Zpos m * 2 ^ e)%Z else (Zpos m / 2 ^ (- e))%Z in
      Ok (if s then (- z)%Z else z)
  end.

(** ** Order *)

Lemma flt_fle a b : flt a b = true -> fle a b = true.
Proof. unfold flt, fle. by destruct (SFcompare a b) as [[]|]. Qed.

Lemma fle_refl a : a <> S754_nan -> fle a a = true.
Proof.
  intros Hn. unfold fle. destruct a as [s|s| |s m e]; try done; simpl.
  - by destruct s.
  - destruct s; by rewrite ?Z.compare_refl, ?Pos.compare_cont_refl.
Qed.

(** The order of two floats is the order of a lexicographic key. *)
Definition fkey (a : float) : option (Z * Z * Z) :=
  match a with
  | S754_nan => None
  | S754_infinity true => Some (-2, 0, 0)%Z
  | S754_finite true m e => Some (-1, - e, - Zpos m)%Z
  | S754_zero _ => Some (0, 0, 0)%Z
  | S754_finite false m e => Some (1, e, Zpos m)%Z
  | S754_infinity false => Some (2, 0, 0)%Z
  end.

Definition key_cmp (a b : Z * Z * Z) : comparison :=
  let '(x1, y1, z1) := a in let '(x2, y2, z2) := b in
  match (x1 ?= x2)%Z with
  | Eq => match (y1 ?= y2)%Z with Eq => (z1 ?= z2)%Z | c => c end
  | c => c
  end.

Lemma SFcompare_key a b :
  SFcompare a b =
  match fkey a, fkey b with Some k1, Some k2 => Some (key_cmp k1 k2) | _, _ => None end.
Proof.
  destruct a as [[]|[]| |[] m e], b as [[]|[]| |[] m' e']; try done; simpl.
  rewrite Z.compare_opp, (Z.compare_antisym e e'), (Pos.compare_cont_spec).
  by destruct (Z.compare e e'), (Pos.compare m m').
Qed.

Definition key_le (k1 k2 : Z * Z * Z) : Prop := key_cmp k1 k2 <> Gt.
Definition key_lt (k1 k2 : Z * Z * Z) : Prop := key_cmp k1 k2 = Lt.

Lemma flt_spec a b :
  flt a b = true <-> exists k1 k2, fkey a = Some k1 /\ fkey b = Some k2 /\ key_lt k1 k2.
Proof.
  unfold flt, key_lt. rewrite SFcompare_key. split.
  - destruct (fkey a) as [k1|], (fkey b) as [k2|]; try done.
    destruct (key_cmp k1 k2) eqn:E; try done. eauto.
  - intros (k1 & k2 & -> & -> & ->). done.
Qed.

Lemma fle_spec a b :
  fle a b = true <-> exists k1 k2, fkey a = Some k1 /\ fkey b = Some k2 /\ key_le k1 k2.
Proof.
  unfold fle, key_le. rewrite SFcompare_key. split.
  - destruct (fkey a) as [k1|], (fkey b) as [k2|]; try done.
    intros H. exists k1, k2. split_and!; [done..|]. by destruct (key_cmp k1 k2).
  - intros (k1 & k2 & -> & -> & H). by destruct (key_cmp k1 k2).
Qed.

Ltac key_lia :=
  unfold key_le, key_lt, key_cmp in *;
  repeat match goal with
  | H : context [Z.compare ?x ?y] |- _ => destruct (Z.compare_spec x y)
  | |- context [Z.compare ?x ?y] => destruct (Z.compare_spec x y)
  end; try done; try lia.

Lemma key_le_trans k1 k2 k3 : key_le k1 k2 -> key_le k2 k3 -> key_le k1 k3.
Proof. destruct k1 as [[??]?], k2 as [[??]?], k3 as [[??]?]. intros. key_lia. Qed.

Lemma key_lt_le_trans k1 k2 k3 : key_lt k1 k2 -> key_le k2 k3 -> key_lt k1 k3.
Proof. destruct k1 as [[??]?], k2 as [[??]?], k3 as [[??]?]. intros. key_lia. Qed.

Lemma key_le_lt_trans k1 k2 k3 : key_le k1 k2 -> key_lt k2 k3 -> key_lt k1 k3.
Proof. destruct k1 as [[??]?], k2 as [[??]?], k3 as [[??]?]. intros. key_lia. Qed.

Lemma key_le_total k1 k2 : key_le k1 k2 \/ key_lt k2 k1.
Proof.
  destruct k1 as [[x1 y1] z1], k2 as [[x2 y2] z2]. unfold key_le, key_lt, key_cmp.
  rewrite (Z.compare_antisym x1 x2), (Z.compare_antisym y1 y2), (Z.compare_antisym z1 z2).
  destruct (x1 ?= x2)%Z, (y1 ?= y2)%Z, (z1 ?= z2)%Z; simpl; auto.
Qed.

Lemma key_lt_le k1 k2 : key_lt k1 k2 -> key_le k1 k2.
Proof. unfold key_lt, key_le. congruence. Qed.

Lemma fkey_some a : a <> S754_nan -> is_Some (fkey a).
Proof. destruct a as [[]|[]| |[]]; intros; try done; eauto. Qed.

Ltac fkeys :=
  repeat match goal with
  | H : flt _ _ = true |- _ => apply flt_spec in H as (? & ? & ? & ? & ?)
  | H : fle _ _ = true |- _ => apply fle_spec in H as (? & ? & ? & ? & ?)
  end; simplify_eq.

Lemma fle_trans a b c : fle a b = true -> fle b c = true -> fle a c = true.
Proof. intros. fkeys. apply fle_spec. eauto 6 using key_le_trans. Qed.

Lemma flt_le_trans a b c : flt a b = true -> fle b c = true -> flt a c = true.
Proof. intros. fkeys. apply flt_spec. eauto 6 using key_lt_le_trans. Qed.

Lemma fle_lt_trans a b c : fle a b = true -> flt b c = true -> flt a c = true.
Proof. intros. fkeys. apply flt_spec. eauto 6 using key_le_lt_trans. Qed.

Lemma fle_not_nan_r a b : fle a b = true -> b <> S754_nan.
Proof. intros (k1 & k2 & _ & H & _)%fle_spec ->. done. Qed.

Lemma fle_not_nan_l a b : fle a b = true -> a <> S754_nan.
Proof. intros (k1 & k2 & H & _ & _)%fle_spec ->. done. Qed.

Lemma fle_total a b : a <> S754_nan -> b <> S754_nan -> flt a b = false -> fle b a = true.
Proof.
  intros Ha Hb Hlt.
  destruct (fkey_some a Ha) as [k1 H1], (fkey_some b Hb) as [k2 H2].
  destruct (key_le_total k2 k1).
  - apply fle_spec. eauto 6.
  - assert (flt a b = true) by (apply flt_spec; eauto 6). congruence.
Qed.

(** [max(lo, x)] is at least [lo], whatever [x] is, NaN included. *)
Lemma pymax_lo lo x : lo <> S754_nan -> fle lo (pymax lo x) = true.
Proof.
  intros Hlo. unfold pymax. destruct (flt lo x) eqn:E.
  - by apply flt_fle.
  - by apply fle_refl.
Qed.

Lemma pymin_hi hi x : hi <> S754_nan -> fle (pymin hi x) hi = true.
Proof.
  intros Hhi. unfold pymin. destruct (flt x hi) eqn:E.
  - by apply flt_fle.
  - by apply fle_refl.
Qed.

(** [max(lo, min(hi, x))] clamps into [lo, hi]; a NaN becomes [hi]. *)
Definition pyclamp (lo hi x : float) : float := pymax lo (pymin hi x).

Lemma pyclamp_range lo hi x :
  lo <> S754_nan -> hi <> S754_nan -> fle lo hi = true ->
  fle lo (pyclamp lo hi x) = true /\ fle (pyclamp lo hi x) hi = true.
Proof.
  intros Hlo Hhi Hle. split; [by apply pymax_lo|].
  unfold pyclamp, pymax. destruct (flt lo (pymin hi x)); [by apply pymin_hi|done].
Qed.

Lemma pymin_max_range lo hi x :
  lo <> S754_nan -> hi <> S754_nan -> fle lo hi = true ->
  fle lo (pymin hi (pymax lo x)) = true /\ fle (pymin hi (pymax lo x)) hi = true.
Proof.
  intros Hlo Hhi Hle. split; [|by apply pymin_hi].
  unfold pymin. destruct (flt (pymax lo x) hi); [by apply pymax_lo|done].
Qed.
