(* ===== verification/PyTime.v ===== *)
(** Python [datetime]: the proleptic Gregorian calendar, [isoformat],
    [strftime]/[strptime] with the source's formats, and [fromisoformat].  An
    aware UTC datetime is the number of microseconds since 0001-01-01T00:00:00.
    The theorems: dates are converted without loss, ISO text round-trips, and
    comparing two stored UTC stamps as text compares the instants (what the
    SQL of [brain/kindled_link/store.py] relies on). *)
From S2P Require Import Prelude PyFloat.

#[local] Ltac Zify.zify_post_hook ::= Z.to_euclidean_division_equations.

(** ** Calendar *)
Definition is_leap (y : Z) : bool :=
  (y mod 4 =? 0)%Z && (negb (y mod 100 =? 0)%Z || (y mod 400 =? 0)%Z).

Definition days_before_year (y : Z) : Z :=
  ((y - 1) * 365 + (y - 1) / 4 - (y - 1) / 100 + (y - 1) / 400)%Z.

Definition days_in_month (y m : Z) : Z :=
  if (m =? 2)%Z then (if is_leap y then 29 else 28)%Z
  else if (m =? 4)%Z || (m =? 6)%Z || (m =? 9)%Z || (m =? 11)%Z then 30%Z else 31%Z.

Definition days_before_month (y m : Z) : Z :=
  let f := if is_leap y then 1%Z else 0%Z in
  if (m =? 1)%Z then 0%Z else if (m =? 2)%Z then 31%Z
  else if (m =? 3)%Z then (59 + f)%Z else if (m =? 4)%Z then (90 + f)%Z
  else if (m =? 5)%Z then (120 + f)%Z else if (m =? 6)%Z then (151 + f)%Z
  else if (m =? 7)%Z then (181 + f)%Z else if (m =? 8)%Z then (212 + f)%Z
  else if (m =? 9)%Z then (243 + f)%Z else if (m =? 10)%Z then (273 + f)%Z
  else if (m =? 11)%Z then (304 + f)%Z else (334 + f)%Z.

(** Days since 0001-01-01. *)
Definition ymd_day (y m d : Z) : Z :=
  (days_before_year y + days_before_month y m + d - 1)%Z.

Definition date_ok (y m d : Z) : bool :=
  ((1 <=? y) && (y <=? 9999) && (1 <=? m) && (m <=? 12) && (1 <=? d)
   && (d <=? days_in_month y m))%Z.

(** The year of a day number and the day within it. *)
Definition day_year (n : Z) : Z * Z :=
  let r := (n mod 146097)%Z in
  let c := Z.min 3 (r / 36524) in
  let r1 := (r - c * 36524)%Z in
  let r2 := (r1 mod 1461)%Z in
  let e := Z.min 3 (r2 / 365) in
  ((n / 146097 * 400 + c * 100 + r1 / 1461 * 4 + e + 1)%Z, (r2 - e * 365)%Z).

Definition year_month (y r : Z) : Z :=
  let f := if is_leap y then 1%Z else 0%Z in
  if (r <? 31)%Z then 1%Z else if (r <? 59 + f)%Z then 2%Z
  else if (r <? 90 + f)%Z then 3%Z else if (r <? 120 + f)%Z then 4%Z
  else if (r <? 151 + f)%Z then 5%Z else if (r <? 181 + f)%Z then 6%Z
  else if (r <? 212 + f)%Z then 7%Z else if (r <? 243 + f)%Z then 8%Z
  else if (r <? 273 + f)%Z then 9%Z else if (r <? 304 + f)%Z then 10%Z
  else if (r <? 334 + f)%Z then 11%Z else 12%Z.

Definition day_ymd (n : Z) : Z * Z * Z :=
  let '(y, r) := day_year n in
  let m := year_month y r in
  (y, m, (r - days_before_month y m + 1)%Z).

(** ** Instants *)
Definition usec : Z := 1.
Definition sec : Z := 1000000.
Definition minute : Z := 60000000.
Definition hour : Z := 3600000000.
Definition day : Z := 86400000000.

(** The instants a [datetime] can hold: years 1 to 9999. *)
Definition dt_max : Z := (3652059 * day)%Z.
Definition dt_ok (t : Z) : Prop := (0 <= t < dt_max)%Z.

(** Year, month, day, hour, minute, second, microsecond. *)
Definition dt_fields (t : Z) : Z * Z * Z * (Z * Z * Z * Z) :=
  let r := (t mod day)%Z in
  (day_ymd (t / day), (r / hour, r / minute mod 60, r / sec mod 60, r mod sec))%Z.

Definition dt_of (y m d h mi s us : Z) : Z :=
  (ymd_day y m d * day + h * hour + mi * minute + s * sec + us)%Z.

(** ** Text *)
Definition dig (n : Z) : N := (48 + Z.to_N (n mod 10))%N.
Definition pad2 (n : Z) : pystr := [dig (n / 10); dig n].
Definition pad4 (n : Z) : pystr := pad2 (n / 100) ++ pad2 (n mod 100).
Definition pad6 (n : Z) : pystr := pad2 (n / 10000) ++ pad4 (n mod 10000).

(** [dt.strftime("%Y-%m-%d")]. *)
Definition date_str (t : Z) : pystr :=
  let '(y, m, d) := day_ymd (t / day) in pad4 y ++ 45%N :: pad2 m ++ 45%N :: pad2 d.

(** [dt.isoformat()] of an aware UTC datetime: no fraction when it is zero. *)
Definition isoformat (t : Z) : pystr :=
  let '(y, m, d, (h, mi, s, us)) := dt_fields t in
  pad4 y ++ 45%N :: pad2 m ++ 45%N :: pad2 d ++ 84%N :: pad2 h ++ 58%N :: pad2 mi
    ++ 58%N :: pad2 s ++ (if (us =? 0)%Z then [] else 46%N :: pad6 us) ++ u "+00:00".

(** [dt.strftime("%Y-%m-%dT%H:%M:%SZ")]: the wire format, whole seconds. *)
Definition iso_z (t : Z) : pystr :=
  let '(y, m, d, (h, mi, s, _)) := dt_fields t in
  pad4 y ++ 45%N :: pad2 m ++ 45%N :: pad2 d ++ 84%N :: pad2 h ++ 58%N :: pad2 mi
    ++ 58%N :: pad2 s ++ [90%N].

(** ** Reading *)

(** A datetime that is naive ([None]) or aware of a UTC offset. *)
Record pydt := { wall : Z; offset : option Z }.

(** [a - b] and [a < b] on two datetimes, the second being aware UTC: mixing a
    naive one raises [TypeError]. *)
Definition instant (d : pydt) : res Z :=
  match offset d with Some o => Ok (wall d - o)%Z | None => Err TypeError end.

Definition digz (c : N) : option Z :=
  if ((48 <=? c) && (c <=? 57))%N then Some (Z.of_N c - 48)%Z else None.

Definition num2 (a b : N) : option Z :=
  x ← digz a; y ← digz b; Some (10 * x + y)%Z.

Definition num4 (a b c d : N) : option Z :=
  x ← num2 a b; y ← num2 c d; Some (100 * x + y)%Z.

Definition in_range (lo hi x : Z) : option Z :=
  if ((lo <=? x) && (x <=? hi))%Z then Some x else None.

(** The UTC offset suffix of the extended format: none, [Z] or [+HH:MM]. *)
Definition read_offset (s : pystr) : option (option Z) :=
  match s with
  | [] => Some None
  | [c] => if (c =? 90)%N then Some (Some 0%Z) else None
  | [sg; h1; h2; c; m1; m2] =>
      if (c =? 58)%N then
        h ← num2 h1 h2; m ← num2 m1 m2;
        h ← in_range 0 23 h; m ← in_range 0 59 m;
        let o := (h * hour + m * minute)%Z in
        if (sg =? 43)%N then Some (Some o)
        else if (sg =? 45)%N then Some (Some (- o)%Z) else None
      else None
  | _ => None
  end.

Definition read_frac (s : pystr) : option (Z * pystr) :=
  match s with
  | p :: a :: b :: c :: d :: e :: f :: r =>
      if (p =? 46)%N then
        match num2 a b, num4 c d e f with
        | Some x, Some y => Some (10000 * x + y, r)%Z
        | _, _ => Some (0%Z, s)
        end
      else Some (0%Z, s)
  | _ => Some (0%Z, s)
  end.

(** The form [YYYY-MM-DD?HH:MM:SS[.ffffff][offset]] that [isoformat] writes. *)
Definition read_iso (s : pystr) : option pydt :=
  match s with
  | y1 :: y2 :: y3 :: y4 :: d1 :: m1 :: m2 :: d2 :: a1 :: a2 :: _ ::
    h1 :: h2 :: c1 :: i1 :: i2 :: c2 :: s1 :: s2 :: r =>
      if ((d1 =? 45) && (d2 =? 45) && (c1 =? 58) && (c2 =? 58))%N then
        y ← num4 y1 y2 y3 y4; m ← num2 m1 m2; d ← num2 a1 a2;
        h ← num2 h1 h2; mi ← num2 i1 i2; s ← num2 s1 s2;
        if date_ok y m d then
          h ← in_range 0 23 h; mi ← in_range 0 59 mi; s ← in_range 0 59 s;
          '(us, r) ← read_frac r; o ← read_offset r;
          Some {| wall := dt_of y m d h mi s us; offset := o |}
        else None
      else None
  | _ => None
  end.

Definition first_some {A} (a b : option A) : option A :=
  match a with Some _ => a | None => b end.

(** What the interpreter's Unicode database says of the code points beyond
    ASCII, and how [fromisoformat] reads the ISO 8601 forms [isoformat] never
    writes: the parameters of the model of the Standard Library. *)
Class PyLib := {
  digit_hi : N -> option Z;          (* unicodedata.decimal *)
  space_hi : N -> bool;              (* str.isspace *)
  word_hi : N -> bool;               (* str.isalnum *)
  printable_hi : N -> bool;          (* str.isprintable *)
  nfc : pystr -> pystr;              (* unicodedata.normalize("NFC", _) *)
  casefold : pystr -> pystr;         (* str.casefold *)
  container_repr : pystr -> pystr;   (* repr() of a list or dict, from its JSON text *)
  fromiso_other : pystr -> option pydt;
}.

(** An ASCII-only library, for concrete runs. *)
Definition ascii_lower (c : N) : N := if ((65 <=? c) && (c <=? 90))%N then (c + 32)%N else c.

Definition ascii_pylib : PyLib := {|
  digit_hi _ := None; space_hi _ := false; word_hi _ := false; printable_hi _ := true; nfc s := s;
  casefold := map ascii_lower; container_repr s := s; fromiso_other _ := None |}.

Definition digit_of `{PyLib} (c : N) : option Z :=
  if (c <? 128)%N then digz c else digit_hi c.

(** [datetime.fromisoformat(s)]. *)
Definition fromisoformat `{PyLib} (s : pystr) : res pydt :=
  match first_some (read_iso s) (fromiso_other s) with
  | Some d => Ok d
  | None => Err ValueError
  end.

(** [timedelta.total_seconds()]: the quotient of two integers, as a float. *)
Definition total_seconds (us : Z) : float := fdivZ us 1000000.

(** [brain/utils/time.py: parse_iso_utc], then [lenient_utc] on a string: any
    stored timestamp as an aware UTC datetime, or [None]; a naive one is UTC. *)
Definition ends_with (c : N) (s : pystr) : bool :=
  match last s with Some x => (x =? c)%N | None => false end.

Definition parse_iso_utc `{PyLib} (s : pystr) : res pydt :=
  let s := if ends_with 90 s then take (length s - 1) s ++ u "+00:00" else s in
  match fromisoformat s with
  | Ok d => Ok {| wall := wall d; offset := Some (default 0%Z (offset d)) |}
  | Err e => Err e
  end.

Definition lenient_utc `{PyLib} (s : pystr) : option Z :=
  match parse_iso_utc s with
  | Ok d => let t := (wall d - default 0 (offset d))%Z in
            if ((0 <=? t) && (t <? dt_max))%Z then Some t else None
  | Err _ => None
  end.

(** [iso_utc]: the [Z] suffix instead of the offset. *)
Definition iso_utc (t : Z) : pystr :=
  let s := isoformat t in take (length s - 6) s ++ u "Z".

Section strptime.
Context `{PyLib}.

Definition chr_in (lo hi c : N) : option Z :=
  if ((lo <=? c) && (c <=? hi))%N then digz c else None.

(** [xy] then a literal, or [x] then the literal. *)
Definition field (two : N -> N -> option Z) (one : N -> option Z) (lit : N -> bool)
    (s : pystr) : option (Z * pystr) :=
  match s with
  | a :: c :: r =>
      match (match r with b :: r' => if lit b then (x ← two a c; Some (x, r')) else None
             | [] => None end) with
      | Some p => Some p
      | None => if lit c then (x ← one a; Some (x, r)) else None
      end
  | _ => None
  end.

Definition tens (a : option Z) (b : option Z) : option Z :=
  x ← a; y ← b; Some (10 * x + y)%Z.

Definition month2 (a b : N) : option Z :=
  first_some (tens (chr_in 49 49 a) (chr_in 48 50 b)) (tens (chr_in 48 48 a) (chr_in 49 57 b)).
Definition day2 (a b : N) : option Z :=
  first_some (tens (chr_in 51 51 a) (chr_in 48 49 b))
    (first_some (tens (chr_in 49 50 a) (digit_of b))
      (first_some (tens (chr_in 48 48 a) (chr_in 49 57 b))
        (if (a =? 32)%N then chr_in 49 57 b else None))).
Definition hour2 (a b : N) : option Z :=
  first_some (tens (chr_in 50 50 a) (chr_in 48 51 b)) (tens (chr_in 48 49 a) (digit_of b)).
Definition min2 (a b : N) : option Z := tens (chr_in 48 53 a) (digit_of b).
Definition sec2 (a b : N) : option Z :=
  first_some (tens (chr_in 54 54 a) (chr_in 48 49 b)) (min2 a b).

(** [datetime.strptime(s, "%Y-%m-%dT%H:%M:%SZ")], read as UTC; [None] is the
    [ValueError].  [strptime] ignores case and [\d] takes any decimal digit. *)
Definition strptime_z (s : pystr) : option Z :=
  match s with
  | y1 :: y2 :: y3 :: y4 :: c :: s =>
      y ← tens (tens (tens (digit_of y1) (digit_of y2)) (digit_of y3)) (digit_of y4);
      if negb (c =? 45)%N then None else
      '(m, s) ← field month2 (chr_in 49 57) (N.eqb 45) s;
      '(d, s) ← field day2 (chr_in 49 57) (fun c => (c =? 84) || (c =? 116))%N s;
      '(h, s) ← field hour2 digit_of (N.eqb 58) s;
      '(mi, s) ← field min2 digit_of (N.eqb 58) s;
      '(se, s) ← field sec2 digit_of (fun c => (c =? 90) || (c =? 122))%N s;
      match s with
      | [] => if date_ok y m d && (se <=? 59)%Z then Some (dt_of y m d h mi se 0) else None
      | _ => None
      end
  | _ => None
  end.
End strptime.

(** ** Calendar correctness *)

Ltac zbool :=
  repeat match goal with
  | |- context [(?a <? ?b)%Z] => destruct (Z.ltb_spec a b)
  | |- context [(?a <=? ?b)%Z] => destruct (Z.leb_spec a b)
  | |- context [(?a =? ?b)%Z] => destruct (Z.eqb_spec a b)
  end; simpl.

(** The year of a day, with the position of the day in it. *)
Lemma day_year_spec n :
  let '(y, r) := day_year n in
  (days_before_year y + r = n /\ 0 <= r < 365 + (if is_leap y then 1 else 0))%Z.
Proof.
  unfold day_year, days_before_year, is_leap.
  pose proof (Z.div_mod n 146097 ltac:(lia)) as Hn.
  pose proof (Z.mod_pos_bound n 146097 ltac:(lia)) as Hr.
  set (a := (n / 146097)%Z) in *. set (r := (n mod 146097)%Z) in *. clearbody a r.
  assert (exists c, c = Z.min 3 (r / 36524) /\ 0 <= c <= 3 /\
    0 <= r - c * 36524 <= 36524 /\ (r - c * 36524 = 36524 -> c = 3))%Z as (c & <- & Hc & Hr1 & Hr1').
  { eexists. split; [done|]. lia. }
  set (r1 := (r - c * 36524)%Z) in *.
  assert (r = r1 + c * 36524)%Z as Er by lia. clearbody r1.
  pose proof (Z.div_mod r1 1461 ltac:(lia)) as H1.
  pose proof (Z.mod_pos_bound r1 1461 ltac:(lia)) as Hb.
  set (d := (r1 / 1461)%Z) in *. set (r2 := (r1 mod 1461)%Z) in *. clearbody d r2.
  assert (exists e, e = Z.min 3 (r2 / 365) /\ 0 <= e <= 3 /\
    0 <= r2 - e * 365 <= 365 /\ (r2 - e * 365 = 365 -> e = 3))%Z as (e & <- & He & Hr2 & Hr2').
  { eexists. split; [done|]. lia. }
  assert (0 <= d <= 24)%Z as Hd by lia.
  replace (a * 400 + c * 100 + d * 4 + e + 1 - 1)%Z with (a * 400 + c * 100 + d * 4 + e)%Z by lia.
  assert ((a * 400 + c * 100 + d * 4 + e) / 4 = a * 100 + c * 25 + d)%Z as -> by lia.
  assert ((a * 400 + c * 100 + d * 4 + e) / 100 = a * 4 + c)%Z as -> by lia.
  assert ((a * 400 + c * 100 + d * 4 + e) / 400 = a)%Z as -> by lia.
  split; [lia|].
  split; [lia|].
  assert ((a * 400 + c * 100 + d * 4 + e + 1) mod 4 = (e + 1) mod 4)%Z as -> by lia.
  assert ((a * 400 + c * 100 + d * 4 + e + 1) mod 100 = (d * 4 + e + 1) mod 100)%Z as -> by lia.
  assert ((a * 400 + c * 100 + d * 4 + e + 1) mod 400 = (c * 100 + d * 4 + e + 1) mod 400)%Z as -> by lia.
  zbool; lia.
Qed.

Lemma year_month_spec y r :
  (0 <= r < 365 + (if is_leap y then 1 else 0))%Z ->
  let m := year_month y r in
  (1 <= m <= 12 /\ days_before_month y m <= r /\
   r < days_before_month y m + days_in_month y m)%Z.
Proof.
  intros Hr. unfold year_month, days_before_month, days_in_month.
  destruct (is_leap y); zbool; lia.
Qed.

(** Reading a day number's date back gives the day number, in every range. *)
Lemma ymd_day_ymd n : let '(y, m, d) := day_ymd n in ymd_day y m d = n.
Proof.
  unfold day_ymd. pose proof (day_year_spec n) as H.
  destruct (day_year n) as [y r]. destruct H as [H Hr].
  unfold ymd_day. lia.
Qed.

Lemma day_ymd_valid n : (0 <= n < 3652059)%Z ->
  let '(y, m, d) := day_ymd n in date_ok y m d = true.
Proof.
  intros Hn. unfold day_ymd. pose proof (day_year_spec n) as H.
  destruct (day_year n) as [y r]. destruct H as [H Hr].
  pose proof (year_month_spec y r Hr) as (Hm & Hlo & Hhi). unfold date_ok.
  assert (1 <= y <= 9999)%Z.
  { unfold days_before_year in H. destruct (is_leap y); lia. }
  rewrite !andb_true_iff, !Z.leb_le. lia.
Qed.

Lemma days_before_year_mono y y' :
  (y < y')%Z ->
  (days_before_year y + 365 + (if is_leap y then 1 else 0) <= days_before_year y')%Z.
Proof.
  intros Hy. unfold days_before_year, is_leap.
  assert (y / 400 * 97 <= y' / 400 * 97)%Z by lia.
  assert (exists q c d e, y = q * 400 + c * 100 + d * 4 + e /\ 0 <= c <= 3 /\ 0 <= d <= 24 /\ 0 <= e <= 3)%Z
    as (q & c & d & e & Ey & Hc & Hd & He).
  { exists (y / 400)%Z, ((y mod 400) / 100)%Z, ((y mod 100) / 4)%Z, (y mod 4)%Z. lia. }
  assert (y / 4 - y / 100 + y / 400 <= (y' - 1) / 4 - (y' - 1) / 100 + (y' - 1) / 400)%Z by lia.
  assert (((y - 1) / 4 - (y - 1) / 100 + (y - 1) / 400 + (if is_leap y then 1 else 0)
     = y / 4 - y / 100 + y / 400))%Z.
  { unfold is_leap. zbool; lia. }
  unfold is_leap in *. lia.
Qed.

Lemma days_before_month_mono y m m' :
  (1 <= m)%Z -> (m < m')%Z -> (m' <= 12)%Z -> (days_before_month y m + days_in_month y m <= days_before_month y m')%Z.
Proof.
  intros. unfold days_before_month, days_in_month.
  destruct (is_leap y); zbool; lia.
Qed.

Lemma month_end y m : (1 <= m <= 12)%Z ->
  (0 <= days_before_month y m /\ days_before_month y m + days_in_month y m <= 365 + (if is_leap y then 1 else 0))%Z.
Proof.
  intros Hm. unfold days_before_month, days_in_month. destruct (is_leap y); zbool; lia.
Qed.

Lemma date_ok_spec y m d : date_ok y m d = true <->
  (1 <= y <= 9999 /\ 1 <= m <= 12 /\ 1 <= d <= days_in_month y m)%Z.
Proof. unfold date_ok. rewrite !andb_true_iff, !Z.leb_le. lia. Qed.

(** Valid dates are ordered as their day numbers. *)
Lemma ymd_day_lt y m d y' m' d' :
  date_ok y m d = true -> date_ok y' m' d' = true ->
  (y < y' \/ y = y' /\ (m < m' \/ m = m' /\ d < d'))%Z ->
  (ymd_day y m d < ymd_day y' m' d')%Z.
Proof.
  rewrite !date_ok_spec. intros (_ & Hm & Hd) (_ & Hm' & Hd') Hlt. unfold ymd_day.
  pose proof (month_end y m Hm). pose proof (month_end y' m' Hm').
  destruct Hlt as [Hlt|[<- [Hlt|[<- Hlt]]]].
  - pose proof (days_before_year_mono y y' Hlt). lia.
  - pose proof (days_before_month_mono y m m' ltac:(lia) ltac:(lia) ltac:(lia)). lia.
  - lia.
Qed.

Lemma ymd_day_inj y m d y' m' d' :
  date_ok y m d = true -> date_ok y' m' d' = true ->
  ymd_day y m d = ymd_day y' m' d' -> y = y' /\ m = m' /\ d = d'.
Proof.
  intros H1 H2 Heq.
  pose proof (ymd_day_lt _ _ _ _ _ _ H1 H2). pose proof (ymd_day_lt _ _ _ _ _ _ H2 H1). lia.
Qed.

(** A valid date's day number reads back as the date. *)
Lemma day_ymd_day y m d : date_ok y m d = true -> day_ymd (ymd_day y m d) = (y, m, d).
Proof.
  intros Hok. pose proof Hok as (Hy & Hm & Hd)%date_ok_spec.
  pose proof (month_end y m Hm).
  assert (0 <= ymd_day y m d < 3652059)%Z as Hb.
  { unfold ymd_day.
    assert (0 <= days_before_year y)%Z by (unfold days_before_year; lia).
    assert (days_before_year y + 365 + (if is_leap y then 1 else 0) <= days_before_year 10000)%Z
      by (apply days_before_year_mono; lia).
    change (days_before_year 10000) with 3652059%Z in *. lia. }
  pose proof (ymd_day_ymd (ymd_day y m d)) as Heq.
  pose proof (day_ymd_valid _ Hb) as Hv.
  destruct (day_ymd (ymd_day y m d)) as [[y' m'] d'].
  by destruct (ymd_day_inj _ _ _ _ _ _ Hv Hok Heq) as (-> & -> & ->).
Qed.

(** The fields of an instant, and the instant of its fields. *)
Lemma dt_fields_spec t : dt_ok t ->
  let '(y, m, d, (h, mi, s, us)) := dt_fields t in
  date_ok y m d = true /\ (0 <= h <= 23 /\ 0 <= mi <= 59 /\ 0 <= s <= 59 /\ 0 <= us <= 999999)%Z
  /\ dt_of y m d h mi s us = t.
Proof.
  unfold dt_ok, dt_max, dt_fields. intros Ht.
  assert (0 <= t / day < 3652059)%Z as Hd by (unfold day in *; lia).
  pose proof (day_ymd_valid _ Hd) as Hv. pose proof (ymd_day_ymd (t / day)) as Heq.
  destruct (day_ymd (t / day)) as [[y m] d].
  split; [done|]. unfold dt_of. rewrite Heq. clear Hv Heq. unfold day, hour, minute, sec in *.
  split; [|lia]. lia.
Qed.

(** ** Text of instants *)

Lemma digz_dig n : digz (dig n) = Some (n mod 10)%Z.
Proof.
  unfold digz, dig. pose proof (Z.mod_pos_bound n 10 ltac:(lia)).
  rewrite (proj2 (N.leb_le _ _)), (proj2 (N.leb_le _ _)) by lia. simpl. f_equal. lia.
Qed.

Lemma num2_pad2 n : (0 <= n < 100)%Z -> num2 (dig (n / 10)) (dig n) = Some n.
Proof. intros. unfold num2. rewrite !digz_dig. simpl. f_equal. lia. Qed.

Lemma num4_pad4 n : (0 <= n < 10000)%Z ->
  num4 (dig (n / 100 / 10)) (dig (n / 100)) (dig (n mod 100 / 10)) (dig (n mod 100)) = Some n.
Proof. intros. unfold num4. rewrite !num2_pad2 by lia. simpl. f_equal. lia. Qed.

Lemma in_range_some lo hi x : (lo <= x <= hi)%Z -> in_range lo hi x = Some x.
Proof.
  intros. unfold in_range. by rewrite (proj2 (Z.leb_le _ _)), (proj2 (Z.leb_le _ _)) by lia.
Qed.

Lemma read_offset_utc : read_offset (u "+00:00") = Some (Some 0%Z).
Proof. reflexivity. Qed.

Lemma read_offset_utc' : read_frac (u "+00:00") = Some (0%Z, u "+00:00").
Proof. reflexivity. Qed.

(** ISO text of an aware UTC datetime reads back as the instant. *)
Lemma read_isoformat t : dt_ok t -> read_iso (isoformat t) = Some {| wall := t; offset := Some 0%Z |}.
Proof.
  intros Ht. pose proof (dt_fields_spec t Ht) as H. unfold isoformat.
  destruct (dt_fields t) as [[[y m] d] [[[h mi] s] us]].
  destruct H as (Hd & (Hh & Hmi & Hs & Hus) & Heq).
  pose proof Hd as (Hy & Hm & Hdd)%date_ok_spec.
  assert (d < 100)%Z by (unfold days_in_month in Hdd; repeat case_match; lia).
  unfold pad4, pad2. cbn [app].
  unfold read_iso. cbn -[num2 num4 read_frac read_offset u in_range dt_of date_ok].
  rewrite num4_pad4, !num2_pad2 by lia. cbn -[num2 num4 read_frac read_offset u in_range dt_of date_ok].
  rewrite Hd, !in_range_some by lia. cbn -[num2 num4 read_frac read_offset u dt_of].
  destruct (Z.eqb_spec us 0) as [->|Hne].
  - cbn [app]. rewrite read_offset_utc'. cbn -[dt_of read_offset u]. rewrite read_offset_utc. cbn -[dt_of]. by rewrite Heq.
  - unfold pad6, pad4, pad2. cbn [app read_frac].
    rewrite N.eqb_refl, num2_pad2, num4_pad4 by lia.
    replace (10000 * (us / 10000) + us mod 10000)%Z with us by lia.
    cbn -[dt_of read_offset u]. rewrite read_offset_utc. cbn -[dt_of]. by rewrite Heq.
Qed.

Lemma fromisoformat_isoformat `{PyLib} t :
  dt_ok t -> fromisoformat (isoformat t) = Ok {| wall := t; offset := Some 0%Z |}.
Proof. intros. unfold fromisoformat. by rewrite read_isoformat. Qed.

Lemma lenient_utc_isoformat `{PyLib} t : dt_ok t -> lenient_utc (isoformat t) = Some t.
Proof.
  intros Ht. unfold lenient_utc, parse_iso_utc.
  assert (ends_with 90 (isoformat t) = false) as ->.
  { unfold isoformat. destruct (dt_fields t) as [[[y m] d] [[[h mi] s] us]].
    unfold ends_with. repeat (rewrite ?last_app, ?last_cons). done. }
  rewrite fromisoformat_isoformat by done. cbn -[dt_max]. rewrite Z.sub_0_r. unfold dt_ok in Ht.
  by rewrite (proj2 (Z.leb_le _ _)), (proj2 (Z.ltb_lt _ _)) by lia.
Qed.

(** Fixed-width decimals compare as the numbers. *)
Lemma str_ltb_pad2 x y s t : (0 <= x < 100)%Z -> (0 <= y < 100)%Z ->
  str_ltb (pad2 x ++ s) (pad2 y ++ t) = (x <? y)%Z || ((x =? y)%Z && str_ltb s t).
Proof.
  intros Hx Hy. unfold pad2, dig. cbn [app str_ltb]. generalize (str_ltb s t) as c.
  intros c. apply eq_true_iff_eq.
  repeat rewrite ?orb_true_iff, ?andb_true_iff, ?N.ltb_lt, ?N.eqb_eq, ?Z.ltb_lt, ?Z.eqb_eq.
  assert (x / 10 mod 10 = x / 10 /\ y / 10 mod 10 = y / 10)%Z as [-> ->] by lia.
  assert (exists a b, x / 10 = a /\ x mod 10 = b /\ x = 10 * a + b /\ 0 <= a <= 9 /\ 0 <= b <= 9)%Z
    as (a & b & -> & -> & -> & ? & ?) by (do 2 eexists; split_and!; [done|done|lia..]).
  assert (exists a b, y / 10 = a /\ y mod 10 = b /\ y = 10 * a + b /\ 0 <= a <= 9 /\ 0 <= b <= 9)%Z
    as (a' & b' & -> & -> & -> & ? & ?) by (do 2 eexists; split_and!; [done|done|lia..]).
  assert (forall p q, 0 <= p <= 9 -> 0 <= q <= 9 ->
    ((48 + Z.to_N p < 48 + Z.to_N q)%N <-> p < q) /\ ((48 + Z.to_N p = 48 + Z.to_N q)%N <-> p = q))%Z as Hd
    by (split; lia).
  destruct (Hd a a') as [E1 E2], (Hd b b') as [E3 E4]; [done..|]. rewrite E1, E2, E3, E4. clear Hx Hy Hd E1 E2 E3 E4.
  destruct (Z.lt_trichotomy a a') as [?|[->|?]]; intuition lia.
Qed.

Lemma ltb_lex a b k x y c : (0 <= x < k)%Z -> (0 <= y < k)%Z ->
  ((a <? b) || ((a =? b) && ((x <? y) || ((x =? y) && c))))%Z
  = ((a * k + x <? b * k + y) || ((a * k + x =? b * k + y) && c))%Z.
Proof.
  intros Hx Hy. apply eq_true_iff_eq.
  rewrite !orb_true_iff, !andb_true_iff, !orb_true_iff, !andb_true_iff, !Z.ltb_lt, !Z.eqb_eq.
  destruct (Z.lt_trichotomy a b) as [H|[->|H]].
  - assert (a * k + k <= b * k)%Z by nia. split; [left; lia|auto].
  - intuition lia.
  - assert (b * k + k <= a * k)%Z by nia. intuition lia.
Qed.

Lemma str_ltb_pad4 x y s t : (0 <= x < 10000)%Z -> (0 <= y < 10000)%Z ->
  str_ltb (pad4 x ++ s) (pad4 y ++ t) = (x <? y)%Z || ((x =? y)%Z && str_ltb s t).
Proof.
  intros Hx Hy. unfold pad4. rewrite <- !app_assoc, !str_ltb_pad2 by lia.
  rewrite (ltb_lex _ _ 100) by lia.
  by replace (x / 100 * 100 + x mod 100)%Z with x by lia;
    replace (y / 100 * 100 + y mod 100)%Z with y by lia.
Qed.

Lemma str_ltb_pad6 x y s t : (0 <= x < 1000000)%Z -> (0 <= y < 1000000)%Z ->
  str_ltb (pad6 x ++ s) (pad6 y ++ t) = (x <? y)%Z || ((x =? y)%Z && str_ltb s t).
Proof.
  intros Hx Hy. unfold pad6. rewrite <- !app_assoc, str_ltb_pad2, str_ltb_pad4 by lia.
  rewrite (ltb_lex _ _ 10000) by lia.
  by replace (x / 10000 * 10000 + x mod 10000)%Z with x by lia;
    replace (y / 10000 * 10000 + y mod 10000)%Z with y by lia.
Qed.

Lemma str_ltb_same c s t : str_ltb (c :: s) (c :: t) = str_ltb s t.
Proof. simpl. by rewrite N.ltb_irrefl, N.eqb_refl. Qed.

(** The seconds' fraction: an absent one sorts before every present one. *)
Lemma str_ltb_frac x y : (0 <= x < 1000000)%Z -> (0 <= y < 1000000)%Z ->
  str_ltb ((if (x =? 0)%Z then [] else 46%N :: pad6 x) ++ u "+00:00")
          ((if (y =? 0)%Z then [] else 46%N :: pad6 y) ++ u "+00:00") = (x <? y)%Z.
Proof.
  intros Hx Hy. destruct (Z.eqb_spec x 0) as [->|Hx0], (Z.eqb_spec y 0) as [->|Hy0].
  - done.
  - symmetry. simpl. apply Z.ltb_lt. lia.
  - symmetry. simpl. apply Z.ltb_ge. lia.
  - rewrite <- !app_comm_cons, str_ltb_same, str_ltb_pad6 by lia.
    by rewrite str_ltb_irrefl, andb_false_r, orb_false_r.
Qed.

Lemma ymd_day_cmp y m d y' m' d' (c : bool) :
  date_ok y m d = true -> date_ok y' m' d' = true ->
  ((y <? y') || ((y =? y') && ((m <? m') || ((m =? m') && ((d <? d') || ((d =? d') && c))))))%Z
  = ((ymd_day y m d <? ymd_day y' m' d') || ((ymd_day y m d =? ymd_day y' m' d') && c))%Z.
Proof.
  intros H1 H2.
  pose proof (ymd_day_lt _ _ _ _ _ _ H1 H2) as L1. pose proof (ymd_day_lt _ _ _ _ _ _ H2 H1) as L2.
  apply eq_true_iff_eq.
  repeat rewrite ?orb_true_iff, ?andb_true_iff, ?Z.ltb_lt, ?Z.eqb_eq.
  assert ((y < y' \/ y = y' /\ (m < m' \/ m = m' /\ d < d')) \/ (y = y' /\ m = m' /\ d = d')
    \/ (y' < y \/ y' = y /\ (m' < m \/ m' = m /\ d' < d)))%Z as [H|[(-> & -> & ->)|H]] by lia.
  - specialize (L1 H). clear L2 H1 H2. intuition lia.
  - clear L1 L2. intuition lia.
  - specialize (L2 H). clear L1 H1 H2. intuition lia.
Qed.

(** Comparing the ISO text of two instants compares the instants. *)
Lemma isoformat_order a b : dt_ok a -> dt_ok b ->
  str_ltb (isoformat a) (isoformat b) = (a <? b)%Z.
Proof.
  intros Ha Hb. pose proof (dt_fields_spec a Ha) as H1. pose proof (dt_fields_spec b Hb) as H2.
  unfold isoformat.
  destruct (dt_fields a) as [[[y m] d] [[[h mi] s] us]], (dt_fields b) as [[[y' m'] d'] [[[h' mi'] s'] us']].
  destruct H1 as (Hd & (Hh & Hmi & Hs & Hus) & Heq), H2 as (Hd' & (Hh' & Hmi' & Hs' & Hus') & Heq').
  pose proof Hd as (Hy & Hm & Hdd)%date_ok_spec. pose proof Hd' as (Hy' & Hm' & Hdd')%date_ok_spec.
  assert (d < 100 /\ d' < 100)%Z by (unfold days_in_month in *; repeat case_match; lia).
  repeat first [rewrite str_ltb_pad4 by lia | rewrite str_ltb_pad2 by lia | rewrite str_ltb_same].
  rewrite str_ltb_frac by lia. rewrite ymd_day_cmp by done.
  rewrite <- (orb_false_r (us <? us')%Z), <- (andb_false_r (us =? us')%Z).
  rewrite (ltb_lex s s' 1000000), (ltb_lex mi mi' minute), (ltb_lex h h' hour), (ltb_lex _ _ day)
    by (unfold day, hour, minute in *; lia).
  rewrite andb_false_r, orb_false_r. unfold dt_of, day, hour, minute, sec in *. f_equal; lia.
Qed.

(** ** The wire format *)
Section wire.
Context `{PyLib}.

Lemma chr_in_dig lo hi n :
  chr_in lo hi (dig n) = if ((lo <=? dig n) && (dig n <=? hi))%N then Some (n mod 10)%Z else None.
Proof. unfold chr_in. by rewrite digz_dig. Qed.

Lemma digit_of_dig n : digit_of (dig n) = Some (n mod 10)%Z.
Proof.
  unfold digit_of, dig. rewrite (proj2 (N.ltb_lt _ _)) by lia. apply digz_dig.
Qed.

Lemma field_pad2 two one lit n c s : lit c = true ->
  field two one lit (pad2 n ++ c :: s) =
  first_some (x ← two (dig (n / 10)) (dig n); Some (x, s))
    (if lit (dig n) then (x ← one (dig (n / 10)); Some (x, c :: s)) else None).
Proof.
  intros Hc. unfold pad2. cbn [app field]. rewrite Hc. unfold first_some. by case_match.
Qed.

Ltac dig_case :=
  unfold tens, first_some; rewrite ?chr_in_dig, ?digit_of_dig; unfold dig;
  repeat match goal with
  | |- context [(?a <=? ?b)%N] => destruct (N.leb_spec a b); try lia
  end; cbn -[Z.mul Z.modulo Z.div]; repeat (f_equal; try lia).

Lemma month2_pad2 n : (1 <= n <= 12)%Z -> month2 (dig (n / 10)) (dig n) = Some n.
Proof. intros. unfold month2. dig_case. Qed.

Lemma day2_pad2 n : (1 <= n <= 31)%Z -> day2 (dig (n / 10)) (dig n) = Some n.
Proof.
  intros. unfold day2. dig_case; exfalso; lia.
Qed.

Lemma hour2_pad2 n : (0 <= n <= 23)%Z -> hour2 (dig (n / 10)) (dig n) = Some n.
Proof. intros. unfold hour2. dig_case. Qed.

Lemma min2_pad2 n : (0 <= n <= 59)%Z -> min2 (dig (n / 10)) (dig n) = Some n.
Proof. intros. unfold min2. dig_case. Qed.

Lemma sec2_pad2 n : (0 <= n <= 59)%Z -> sec2 (dig (n / 10)) (dig n) = Some n.
Proof.
  intros. unfold sec2. rewrite min2_pad2 by done. dig_case; exfalso; lia.
Qed.

(** A wire timestamp reads back as the instant cut to whole seconds. *)
Lemma strptime_iso_z t : dt_ok t -> strptime_z (iso_z t) = Some (t / sec * sec)%Z.
Proof.
  intros Ht. pose proof (dt_fields_spec t Ht) as Hf. unfold iso_z.
  destruct (dt_fields t) as [[[y m] d] [[[h mi] s] us]].
  destruct Hf as (Hd & (Hh & Hmi & Hs & Hus) & Heq).
  pose proof Hd as (Hy & Hm & Hdd)%date_ok_spec.
  assert (d <= 31)%Z by (unfold days_in_month in Hdd; repeat case_match; lia).
  unfold pad4 at 1. unfold pad2 at 1 2. cbn [app]. unfold strptime_z.
  rewrite !digit_of_dig. unfold tens at 1. unfold tens at 1. unfold tens at 1.
  cbn -[field Z.mul Z.modulo Z.div dt_of date_ok pad2 month2 day2 hour2 min2 sec2].
  rewrite field_pad2, month2_pad2 by (done || lia).
  cbn -[field Z.mul Z.modulo Z.div dt_of date_ok pad2 month2 day2 hour2 min2 sec2].
  rewrite field_pad2, day2_pad2 by (done || lia).
  cbn -[field Z.mul Z.modulo Z.div dt_of date_ok pad2 month2 day2 hour2 min2 sec2].
  rewrite field_pad2, hour2_pad2 by (done || lia).
  cbn -[field Z.mul Z.modulo Z.div dt_of date_ok pad2 month2 day2 hour2 min2 sec2].
  rewrite field_pad2, min2_pad2 by (done || lia).
  cbn -[field Z.mul Z.modulo Z.div dt_of date_ok pad2 month2 day2 hour2 min2 sec2].
  rewrite field_pad2, sec2_pad2 by (done || lia).
  cbn -[field Z.mul Z.modulo Z.div dt_of date_ok pad2 month2 day2 hour2 min2 sec2].
  match goal with |- context [date_ok ?y' m d] => assert (y' = y) as -> by lia end.
  rewrite Hd, (proj2 (Z.leb_le s 59)) by lia. cbn [andb]. f_equal.
  rewrite <- Heq. unfold dt_of, day, hour, minute, sec in *. lia.
Qed.
End wire.

(** [dt.strftime("%Y-%m-%d")] tells the days apart. *)
Lemma str_ltb_date a b : dt_ok a -> dt_ok b ->
  str_ltb (date_str a) (date_str b) = (a / day <? b / day)%Z.
Proof.
  intros Ha Hb. unfold date_str.
  assert (0 <= a / day < 3652059 /\ 0 <= b / day < 3652059)%Z as [Hda Hdb]
    by (unfold dt_ok, dt_max, day in *; lia).
  pose proof (day_ymd_valid _ Hda) as Hd. pose proof (day_ymd_valid _ Hdb) as Hd'.
  pose proof (ymd_day_ymd (a / day)) as E. pose proof (ymd_day_ymd (b / day)) as E'.
  destruct (day_ymd (a / day)) as [[y m] d], (day_ymd (b / day)) as [[y' m'] d'].
  pose proof Hd as (Hy & Hm & Hdd)%date_ok_spec. pose proof Hd' as (Hy' & Hm' & Hdd')%date_ok_spec.
  assert (d < 100 /\ d' < 100)%Z by (unfold days_in_month in *; repeat case_match; lia).
  rewrite <- (app_nil_r (pad2 d)), <- (app_nil_r (pad2 d')).
  repeat first [rewrite str_ltb_pad4 by lia | rewrite str_ltb_pad2 by lia | rewrite str_ltb_same].
  rewrite ymd_day_cmp by done. rewrite E, E'. cbn. by rewrite andb_false_r, orb_false_r.
Qed.

Lemma date_str_eq a b : dt_ok a -> dt_ok b -> date_str a = date_str b -> (a / day = b / day)%Z.
Proof.
  intros Ha Hb Heq. pose proof (str_ltb_date a b Ha Hb) as H1.
  pose proof (str_ltb_date b a Hb Ha) as H2.
  rewrite Heq, str_ltb_irrefl in *. lia.
Qed.

(** ** Properties *)

(** Stored stamps are sound: the ISO text of an instant reads back to it, and
    comparing two stored texts (as MAX and ORDER BY do) compares the instants. *)
Theorem stamps_sound `{PyLib} (a b : Z) :
  dt_ok a -> dt_ok b ->
  lenient_utc (isoformat a) = Some a /\ str_ltb (isoformat a) (isoformat b) = (a <? b)%Z /\
  (isoformat a = isoformat b -> a = b).
Proof.
  intros Ha Hb. split_and!; [by apply lenient_utc_isoformat|by apply isoformat_order|].
  intros E. pose proof (lenient_utc_isoformat a Ha) as H1. rewrite E, lenient_utc_isoformat in H1 by done. congruence.
Qed.

Lemma stamps_sound_witness :
  lenient_utc (H := ascii_pylib) (isoformat day) = Some day /\ str_ltb (isoformat day) (isoformat (day + 1)) = true.
Proof.
  destruct (stamps_sound (H := ascii_pylib) day (day + 1)) as (H1 & H2 & _);
    [vm_compute; split; [discriminate|reflexivity]..|].
  split; [exact H1|rewrite H2; vm_compute; reflexivity].
Defined.
