(* ===== verification/Regex.v ===== *)
(** The part of Python's [re] the privacy gate uses: a syntax of patterns, what
    it means for a pattern to match between two positions of a text (with
    [\b] and [^] looking at the neighbouring characters), and an executable
    [search].  The theorem: [search] finds a match exactly when there is one. *)
From S2P Require Import Prelude.

Inductive regex :=
| Eps
| Chr (p : N -> bool)
| Seq (a b : regex)
| Alt (a b : regex)
| Star (a : regex)
| WordB               (* \b *)
| Bos.                (* ^ without re.M *)

(** A position: the character before it, if any, and the text after it. *)
Abbreviation pos := (option N * list N)%type.

Section semantics.
Context (is_word : N -> bool).

Definition at_boundary (st : pos) : bool :=
  let before := match st.1 with Some c => is_word c | None => false end in
  let after := match st.2 with c :: _ => is_word c | [] => false end in
  xorb before after.

(** ** What a pattern matches *)
Inductive matches : regex -> pos -> pos -> Prop :=
| MEps st : matches Eps st st
| MChr p c prev s : p c = true -> matches (Chr p) (prev, c :: s) (Some c, s)
| MSeq a b s1 s2 s3 : matches a s1 s2 -> matches b s2 s3 -> matches (Seq a b) s1 s3
| MAltL a b s1 s2 : matches a s1 s2 -> matches (Alt a b) s1 s2
| MAltR a b s1 s2 : matches b s1 s2 -> matches (Alt a b) s1 s2
| MStar0 a st : matches (Star a) st st
| MStarS a s1 s2 s3 : matches a s1 s2 -> matches (Star a) s2 s3 -> matches (Star a) s1 s3
| MWordB st : at_boundary st = true -> matches WordB st st
| MBos s : matches Bos (None, s) (None, s).

(** ** The matcher: every end of a match from a position *)
Definition progress (st : pos) (l : list pos) : list pos :=
  List.filter (fun st' => (length st'.2 <? length st.2)%nat) l.

(** Positions of one text are told apart by what is left of it. *)
Fixpoint dedup (l : list pos) : list pos :=
  match l with
  | [] => []
  | st :: l' =>
      let r := dedup l' in
      if existsb (fun st' => bool_decide (st = st')) r then r else st :: r
  end.

Fixpoint star_ends (step : pos -> list pos) (fuel : nat) (st : pos) : list pos :=
  match fuel with
  | O => [st]
  | S f => st :: dedup (flat_map (star_ends step f) (progress st (step st)))
  end.

Fixpoint ends (r : regex) (st : pos) : list pos :=
  match r with
  | Eps => [st]
  | Chr p => match st.2 with
             | c :: s => if p c then [(Some c, s)] else []
             | [] => []
             end
  | Seq a b => dedup (flat_map (ends b) (ends a st))
  | Alt a b => dedup (ends a st ++ ends b st)
  | Star a => star_ends (ends a) (length st.2) st
  | WordB => if at_boundary st then [st] else []
  | Bos => match st.1 with None => [st] | Some _ => [] end
  end.

Definition nonempty {A} (l : list A) : bool := match l with [] => false | _ => true end.

(** [p.search(text)] is a match: from some position on. *)
Fixpoint search_from (r : regex) (prev : option N) (s : list N) : bool :=
  nonempty (ends r (prev, s)) ||
  match s with
  | [] => false
  | c :: s' => search_from r (Some c) s'
  end.

Definition search (r : regex) (s : list N) : bool := search_from r None s.

(** ** Correctness *)
Lemma dedup_in st l : In st (dedup l) <-> In st l.
Proof.
  induction l as [|x l IH]; simpl; [done|].
  destruct (existsb _ _) eqn:E; [|simpl; by rewrite IH].
  rewrite IH. split; [auto|]. intros [<-|?]; [|done].
  apply existsb_exists in E as (y & Hy & ->%bool_decide_eq_true). by apply IH.
Qed.

Lemma matches_length r s1 s2 : matches r s1 s2 -> (length s2.2 <= length s1.2)%nat.
Proof. induction 1; simpl in *; lia. Qed.

(** A starred pattern can be matched by iterations that each consume text. *)
Lemma star_progress a s1 s2 :
  matches (Star a) s1 s2 ->
  (forall x y, matches a x y -> length y.2 = length x.2 -> y = x) ->
  s1 = s2 \/ exists m, matches a s1 m /\ (length m.2 < length s1.2)%nat /\ matches (Star a) m s2.
Proof.
  intros H Hd. remember (Star a) as r eqn:Hr. induction H; simplify_eq; [by left|].
  specialize (IHmatches2 eq_refl).
  pose proof (matches_length _ _ _ H). destruct (decide (length s2.2 = length s1.2)) as [He|He].
  - apply Hd in He; [|done]. subst. done.
  - right. exists s2. split_and!; [done|lia|done].
Qed.

(** The position after a match is determined by how much text is left. *)
Lemma matches_pos r s1 s2 :
  matches r s1 s2 -> s2 = s1 \/ exists u c, s1.2 = u ++ c :: s2.2 /\ s2.1 = Some c.
Proof.
  induction 1 as [|p c prev s Hp|a b s1 s2 s3 _ IH1 _ IH2|a b s1 s2 _ IH|a b s1 s2 _ IH
    | |a s1 s2 s3 _ IH1 _ IH2| |]; auto.
  - right. by exists [], c.
  - destruct IH1 as [->|(u & c & Hu & Hc)]; [done|].
    destruct IH2 as [->|(v & d & Hv & Hd)]; right; [by exists u, c|].
    exists (u ++ c :: v), d. split; [|done]. by rewrite Hu, Hv, <- app_assoc.
  - destruct IH1 as [->|(u & c & Hu & Hc)]; [done|].
    destruct IH2 as [->|(v & d & Hv & Hd)]; right; [by exists u, c|].
    exists (u ++ c :: v), d. split; [|done]. by rewrite Hu, Hv, <- app_assoc.
Qed.

Lemma matches_stuck r s1 s2 : matches r s1 s2 -> length s2.2 = length s1.2 -> s2 = s1.
Proof.
  intros [->|(u & c & Hu & _)]%matches_pos Hl; [done|].
  exfalso. apply (f_equal length) in Hu. rewrite length_app in Hu. simpl in Hu. lia.
Qed.

Lemma star_ends_spec a fuel st st' :
  (forall x y, In y (ends a x) <-> matches a x y) -> (length st.2 <= fuel)%nat ->
  (In st' (star_ends (ends a) fuel st) <-> matches (Star a) st st').
Proof.
  intros Ha. revert st st'. induction fuel as [|fuel IH]; intros st st' Hf; simpl.
  - split.
    + intros [->|[]]. constructor.
    + intros Hm. left. symmetry. apply (matches_stuck _ _ _ Hm).
      apply matches_length in Hm. lia.
  - rewrite dedup_in, in_flat_map. unfold progress. setoid_rewrite filter_In.
    setoid_rewrite Nat.ltb_lt. setoid_rewrite Ha. split.
    + intros [->|(m & [Hm Hlt] & Hin)]; [constructor|].
      econstructor; [exact Hm|]. apply IH; [lia|done].
    + intros Hm. destruct (star_progress a st st' Hm (fun x y => matches_stuck a x y))
        as [->|(m & Hm1 & Hlt & Hm2)]; [by left|].
      right. exists m. split; [done|]. apply IH; [lia|done].
Qed.

Lemma ends_spec r st st' : In st' (ends r st) <-> matches r st st'.
Proof.
  revert st st'. induction r as [|p|a IHa b IHb|a IHa b IHb|a IHa| |]; intros st st'; cbn [ends].
  - split; [intros [->|[]]; constructor|inversion 1; subst; by left].
  - destruct st as [prev [|c s]]; simpl.
    + split; [done|inversion 1].
    + destruct (p c) eqn:E.
      * split; [intros [<-|[]]; by constructor|inversion 1; subst; by left].
      * split; [done|]. inversion 1; congruence.
  - rewrite dedup_in, in_flat_map. setoid_rewrite IHa. setoid_rewrite IHb. split.
    + intros (m & ? & ?). by econstructor.
    + inversion 1; subst. eauto.
  - rewrite dedup_in, in_app_iff, IHa, IHb. split.
    + intros [?|?]; [by apply MAltL|by apply MAltR].
    + inversion 1; subst; auto.
  - by apply star_ends_spec.
  - destruct (at_boundary st) eqn:E.
    + split; [intros [<-|[]]; by constructor|inversion 1; subst; by left].
    + split; [done|]. inversion 1; subst. congruence.
  - destruct st as [[c|] s]; simpl.
    + split; [done|inversion 1].
    + split; [intros [<-|[]]; constructor|inversion 1; subst; by left].
Qed.

Lemma search_from_spec r prev s :
  search_from r prev s = true <->
  exists a b st, s = a ++ b /\
    matches r (match last a with Some c => Some c | None => prev end, b) st.
Proof.
  revert prev. induction s as [|c s IH]; intros prev; cbn [search_from]; rewrite orb_true_iff.
  - split.
    + intros [H|H]; [|done]. destruct (ends r (prev, [])) as [|st l] eqn:E; [done|].
      exists [], [], st. split; [done|]. apply ends_spec. cbn [last]. rewrite E. by left.
    + intros (a & b & st & Heq & Hm). left.
      symmetry in Heq. apply app_nil in Heq as [-> ->]. simpl in Hm.
      apply ends_spec in Hm. by destruct (ends r (prev, [])).
  - rewrite IH. split.
    + intros [H|(a & b & st & -> & Hm)].
      * destruct (ends r (prev, c :: s)) as [|st l] eqn:E; [done|].
        exists [], (c :: s), st. split; [done|]. apply ends_spec. cbn [last]. rewrite E. by left.
      * exists (c :: a), b, st. split; [done|]. rewrite last_cons. by destruct (last a).
    + intros (a & b & st & Heq & Hm). destruct a as [|c' a]; simpl in Heq; simplify_eq.
      * left. simpl in Hm. apply ends_spec in Hm. by destruct (ends r (prev, c :: s)).
      * right. exists a, b, st. split; [done|]. rewrite last_cons in Hm. by destruct (last a).
Qed.

(** [search] finds a match exactly when some part of the text matches. *)
Lemma search_spec r s :
  search r s = true <-> exists a b st, s = a ++ b /\ matches r (last a, b) st.
Proof.
  unfold search. rewrite search_from_spec.
  split; intros (a & b & st & ? & Hm); exists a, b, st; split; try done; by destruct (last a).
Qed.
End semantics.

(** ** Derived forms *)
Definition Plus (r : regex) : regex := Seq r (Star r).
Definition Opt (r : regex) : regex := Alt r Eps.

(** [r{n}] and [r{n,}]. *)
Fixpoint Rep (n : nat) (r : regex) : regex :=
  match n with O => Eps | S n => Seq r (Rep n r) end.
Definition RepMin (n : nat) (r : regex) : regex := Seq (Rep n r) (Star r).

(** A literal. *)
Fixpoint Lit (s : pystr) : regex :=
  match s with [] => Eps | c :: s => Seq (Chr (N.eqb c)) (Lit s) end.

Fixpoint Alts (l : list regex) : regex :=
  match l with [] => Chr (fun _ => false) | [r] => r | r :: l => Alt r (Alts l) end.
