(* ===== verification/Json.v ===== *)
(** JSON as the Standard Library's [json] module reads and writes it, the UTF-8
    codec of [str.encode]/[bytes.decode], and [brain/kindled_link/codec.py]'s
    [canonical_json].  The printer is parameterised by the options the source
    uses ([sort_keys], [ensure_ascii]).  The theorems: printing then parsing is
    the identity up to key order, so canonical JSON identifies no two values. *)
From S2P Require Import Prelude PyFloat.
From Stdlib Require Import Floats.SpecFloat.

(** ** Values *)
Inductive json :=
| JNull
| JBool (b : bool)
| JInt (z : Z)
| JFloat (f : float)
| JStr (s : pystr)
| JArr (l : list json)
| JObj (kvs : list (pystr * json)).

Section json_ind.
Variable P : json -> Prop.
Hypothesis Hnull : P JNull.
Hypothesis Hbool : forall b, P (JBool b).
Hypothesis Hint : forall z, P (JInt z).
Hypothesis Hfloat : forall f, P (JFloat f).
Hypothesis Hstr : forall s, P (JStr s).
Hypothesis Harr : forall l, Forall P l -> P (JArr l).
Hypothesis Hobj : forall kvs, Forall (fun kv => P kv.2) kvs -> P (JObj kvs).

Fixpoint json_ind' (v : json) : P v :=
  match v with
  | JNull => Hnull
  | JBool b => Hbool b
  | JInt z => Hint z
  | JFloat f => Hfloat f
  | JStr s => Hstr s
  | JArr l => Harr l ((fix go l : Forall P l := match l with
      | [] => Forall_nil_2 _
      | v :: l' => Forall_cons_2 _ _ _ (json_ind' v) (go l') end) l)
  | JObj kvs => Hobj kvs ((fix go l : Forall (fun kv => P kv.2) l := match l with
      | [] => Forall_nil_2 _
      | kv :: l' => Forall_cons_2 _ _ _ (json_ind' kv.2) (go l') end) kvs)
  end.
End json_ind.

(** Python's dict lookup on the (ordered, duplicate-free) association list. *)
Fixpoint dict_get (k : pystr) (kvs : list (pystr * json)) : option json :=
  match kvs with
  | [] => None
  | (k', v) :: kvs' => if bool_decide (k = k') then Some v else dict_get k kvs'
  end.

(** [d[k] = v]: an existing key keeps its place. *)
Fixpoint dict_set (k : pystr) (v : json) (kvs : list (pystr * json)) : list (pystr * json) :=
  match kvs with
  | [] => [(k, v)]
  | (k', v') :: kvs' =>
      if bool_decide (k = k') then (k', v) :: kvs' else (k', v') :: dict_set k v kvs'
  end.

(** The dict literal / decoder rule: later duplicates overwrite. *)
Definition dict_of_pairs (kvs : list (pystr * json)) : list (pystr * json) :=
  fold_left (fun d kv => dict_set kv.1 kv.2 d) kvs [].

(** [j.get(k)] on a value known to be a dict; [None] when absent. *)
Definition jget (k : pystr) (j : json) : option json :=
  match j with JObj kvs => dict_get k kvs | _ => None end.

(** [j.get(k)] with Python's default [None] as a value. *)
Definition jget_none (k : pystr) (j : json) : json := default JNull (jget k j).

(** [j == "s"] for a string literal. *)
Definition jis_str (s : pystr) (j : json) : bool :=
  match j with JStr t => bool_decide (t = s) | _ => false end.

Definition is_obj (j : json) : bool := match j with JObj _ => true | _ => false end.

(** Truthiness, [bool(j)]. *)
Definition jtruthy (j : json) : bool :=
  match j with
  | JNull => false
  | JBool b => b
  | JInt z => negb (z =? 0)%Z
  | JFloat f => negb (feq f f0)
  | JStr s => negb (bool_decide (s = []))
  | JArr l => negb (bool_decide (length l = 0%nat))
  | JObj l => negb (bool_decide (length l = 0%nat))
  end.

(** ** Decimal integers *)
Definition is_digit (c : N) : bool := (48 <=? c)%N && (c <=? 57)%N.

Fixpoint dec_digits (fuel : nat) (n : N) (acc : pystr) : pystr :=
  match fuel with
  | O => acc
  | S f =>
      let acc' := (48 + n mod 10)%N :: acc in
      if (n <? 10)%N then acc' else dec_digits f (n / 10) acc'
  end.

Definition dec_N (n : N) : pystr := dec_digits (S (N.to_nat (N.log2 n))) n [].

(** [str(z)] for an [int]. *)
Definition dec_Z (z : Z) : pystr :=
  match z with
  | Zneg p => 45%N :: dec_N (Npos p)
  | _ => dec_N (Z.to_N z)
  end.

(** The longest run of ASCII digits and its value. *)
Fixpoint span_digits (s : pystr) (acc : N) (n : nat) : N * nat * pystr :=
  match s with
  | c :: s' =>
      if is_digit c then span_digits s' (10 * acc + (c - 48))%N (S n) else (acc, n, s)
  | [] => (acc, n, [])
  end.

(** ** [float.__repr__]: the shortest decimal that reads back as the same float *)
Definition float_ratio (m : positive) (e : Z) : Z * Z :=
  if (0 <=? e)%Z then (Zpos m * 2 ^ e, 1)%Z else (Zpos m, 2 ^ (- e))%Z.

(** The decimal exponent: the least [k >= k0] with [num/den < 10^(k+1)]. *)
Fixpoint dec_exp (fuel : nat) (num den k : Z) : Z :=
  match fuel with
  | O => k
  | S f =>
      let lt := if (0 <=? k + 1)%Z then (num <? den * 10 ^ (k + 1))%Z
                else (num * 10 ^ (- (k + 1)) <? den)%Z in
      if lt then k else dec_exp f num den (k + 1)
  end.

Definition round_half_even (a b : Z) : Z :=
  let q := (a / b)%Z in let r := (2 * (a mod b))%Z in
  if (r <? b)%Z then q else if (b <? r)%Z then (q + 1)%Z
  else if Z.even q then q else (q + 1)%Z.

(** The [n]-digit decimal nearest to [num/den], with exponent [k]. *)
Definition near_digits (num den k : Z) (n : Z) : Z :=
  let sh := (n - 1 - k)%Z in
  if (0 <=? sh)%Z then round_half_even (num * 10 ^ sh) den
  else round_half_even num (den * 10 ^ (- sh)).

Fixpoint shortest (fuel : nat) (n : Z) (f : float) (num den k : Z) : Z * Z :=
  let d := near_digits num den k n in
  match fuel with
  | O => (d, n)
  | S fu => if feq (fdec d (k - n + 1)) f then (d, n) else shortest fu (n + 1) f num den k
  end.

Definition repr_digits (d k : Z) : pystr :=
  let '(ds, k) := let s := dec_Z d in (s, k) in
  let n := Z.of_nat (length ds) in
  if ((-4 <=? k) && (k <? 16))%Z then
    if (k <? 0)%Z then u "0." ++ repeat 48%N (Z.to_nat (- k - 1)) ++ ds
    else if (n <=? k + 1)%Z then ds ++ repeat 48%N (Z.to_nat (k + 1 - n)) ++ u ".0"
    else take (Z.to_nat (k + 1)) ds ++ u "." ++ drop (Z.to_nat (k + 1)) ds
  else
    let ex := dec_Z (Z.abs k) in
    let ex := if (length ex <? 2)%nat then 48%N :: ex else ex in
    take 1 ds ++ (if (n =? 1)%Z then [] else u "." ++ drop 1 ds) ++ u "e"
      ++ (if (k <? 0)%Z then u "-" else u "+") ++ ex.

Definition float_repr (f : float) : pystr :=
  match f with
  | S754_nan => u "NaN"
  | S754_infinity s => if s then u "-Infinity" else u "Infinity"
  | S754_zero s => if s then u "-0.0" else u "0.0"
  | S754_finite s m e =>
      let '(num, den) := float_ratio m e in
      let k := dec_exp 700 num den (-330) in
      let '(d, n) := shortest 16 1 (S754_finite false m e) num den k in
      (* a rounding up to 10^n moves the exponent *)
      let '(d, k) := if (10 ^ n <=? d)%Z then ((d / 10)%Z, (k + 1)%Z) else (d, k) in
      (if s then u "-" else []) ++ repr_digits d k
  end.

(** ** The printer *)
Definition hex_digit (n : N) : N := if (n <? 10)%N then (48 + n)%N else (87 + n)%N.

Definition u_escape (c : N) : pystr :=
  [92; 117; hex_digit (c / 4096 mod 16); hex_digit (c / 256 mod 16);
   hex_digit (c / 16 mod 16); hex_digit (c mod 16)]%N.

Definition escape_char (ascii : bool) (c : N) : pystr :=
  if (c =? 34)%N then [92; 34]%N
  else if (c =? 92)%N then [92; 92]%N
  else if (c =? 8)%N then [92; 98]%N
  else if (c =? 12)%N then [92; 102]%N
  else if (c =? 10)%N then [92; 110]%N
  else if (c =? 13)%N then [92; 114]%N
  else if (c =? 9)%N then [92; 116]%N
  else if (c <? 32)%N then u_escape c
  else if negb ascii || (c <? 127)%N then [c]
  else if (c <? 65536)%N then u_escape c
  else let v := (c - 65536)%N in
       u_escape (55296 + v / 1024)%N ++ u_escape (56320 + v mod 1024)%N.

Definition quote (ascii : bool) (s : pystr) : pystr :=
  34%N :: concat (map (escape_char ascii) s) ++ [34%N].

(** [sorted(items)]: the keys of a dict are distinct, so they alone decide. *)
Fixpoint insert_pair {A} (kv : pystr * A) (l : list (pystr * A)) : list (pystr * A) :=
  match l with
  | [] => [kv]
  | kv' :: l' => if str_ltb kv'.1 kv.1 then kv' :: insert_pair kv l' else kv :: l
  end.

Definition sort_pairs {A} (kvs : list (pystr * A)) : list (pystr * A) :=
  foldr insert_pair [] kvs.

(** [json.dumps(v, sort_keys=srt, ensure_ascii=ascii, separators=(isep, ksep))]. *)
Fixpoint dumps (srt ascii : bool) (isep ksep : pystr) (v : json) : pystr :=
  match v with
  | JNull => u "null"
  | JBool b => if b then u "true" else u "false"
  | JInt z => dec_Z z
  | JFloat f => float_repr f
  | JStr s => quote ascii s
  | JArr l => u "[" ++ py_join isep (map (dumps srt ascii isep ksep) l) ++ u "]"
  | JObj kvs =>
      let ps := map (fun kv => (kv.1, dumps srt ascii isep ksep kv.2)) kvs in
      let ps := if srt then sort_pairs ps else ps in
      u "{" ++ py_join isep (map (fun p => quote ascii p.1 ++ ksep ++ p.2) ps) ++ u "}"
  end.

(** [json.dumps(v)] with the default options. *)
Definition dumps_default : json -> pystr := dumps false true (u ", ") (u ": ").

(** ** UTF-8 *)
Definition utf8_char (c : N) : option pybytes :=
  if (c <? 128)%N then Some [c]
  else if (c <? 2048)%N then Some [(192 + c / 64)%N; (128 + c mod 64)%N]
  else if ((55296 <=? c) && (c <? 57344))%N then None
  else if (c <? 65536)%N then
    Some [(224 + c / 4096)%N; (128 + c / 64 mod 64)%N; (128 + c mod 64)%N]
  else if (c <? 1114112)%N then
    Some [(240 + c / 262144)%N; (128 + c / 4096 mod 64)%N;
          (128 + c / 64 mod 64)%N; (128 + c mod 64)%N]
  else None.

(** [s.encode("utf-8")]: [None] is the [UnicodeEncodeError] of a surrogate. *)
Fixpoint utf8_encode (s : pystr) : option pybytes :=
  match s with
  | [] => Some []
  | c :: s' =>
      b ← utf8_char c; r ← utf8_encode s'; Some (b ++ r)
  end.

Definition cont_byte (b : N) : bool := ((128 <=? b) && (b <? 192))%N.

(** [b.decode("utf-8")]: [None] is the [UnicodeDecodeError] (overlong forms,
    surrogates, truncated and stray bytes). *)
Fixpoint utf8_decode (b : pybytes) : option pystr :=
  match b with
  | [] => Some []
  | b0 :: r0 =>
      if (b0 <? 128)%N then r ← utf8_decode r0; Some (b0 :: r)
      else match r0 with
      | [] => None
      | b1 :: r1 =>
          if negb (cont_byte b1) then None
          else if ((194 <=? b0) && (b0 <? 224))%N then
            r ← utf8_decode r1; Some (((b0 - 192) * 64 + (b1 - 128))%N :: r)
          else match r1 with
          | [] => None
          | b2 :: r2 =>
              if negb (cont_byte b2) then None
              else if ((224 <=? b0) && (b0 <? 240))%N then
                let c := ((b0 - 224) * 4096 + (b1 - 128) * 64 + (b2 - 128))%N in
                if ((c <? 2048) || ((55296 <=? c) && (c <? 57344)))%N then None
                else r ← utf8_decode r2; Some (c :: r)
              else match r2 with
              | [] => None
              | b3 :: r3 =>
                  if negb (cont_byte b3) then None
                  else if ((240 <=? b0) && (b0 <? 245))%N then
                    let c := ((b0 - 240) * 262144 + (b1 - 128) * 4096
                              + (b2 - 128) * 64 + (b3 - 128))%N in
                    if ((c <? 65536) || (1114112 <=? c))%N then None
                    else r ← utf8_decode r3; Some (c :: r)
                  else None
              end
          end
      end
  end.

(** [brain/kindled_link/codec.py: canonical_json]. *)
Definition canonical_text (v : json) : pystr := dumps true false (u ",") (u ":") v.

Definition canonical_json (v : json) : option pybytes := utf8_encode (canonical_text v).

(** ** The parser ([json.loads]) *)
Definition is_ws (c : N) : bool := (c =? 32)%N || (c =? 9)%N || (c =? 10)%N || (c =? 13)%N.

Fixpoint skip_ws (s : pystr) : pystr :=
  match s with
  | c :: s' => if is_ws c then skip_ws s' else s
  | [] => []
  end.

Definition hex_val (c : N) : option N :=
  if is_digit c then Some (c - 48)%N
  else if ((97 <=? c) && (c <=? 102))%N then Some (c - 87)%N
  else if ((65 <=? c) && (c <=? 70))%N then Some (c - 55)%N
  else None.

Definition hex4 (a b c d : N) : option N :=
  a' ← hex_val a; b' ← hex_val b; c' ← hex_val c; d' ← hex_val d;
  Some (((a' * 16 + b') * 16 + c') * 16 + d')%N.

Definition simple_escape (c : N) : option N :=
  if (c =? 34)%N then Some 34%N else if (c =? 92)%N then Some 92%N
  else if (c =? 47)%N then Some 47%N else if (c =? 98)%N then Some 8%N
  else if (c =? 102)%N then Some 12%N else if (c =? 110)%N then Some 10%N
  else if (c =? 114)%N then Some 13%N else if (c =? 116)%N then Some 9%N
  else None.

Definition is_high (c : N) : bool := ((55296 <=? c) && (c <? 56320))%N.
Definition is_low (c : N) : bool := ((56320 <=? c) && (c <? 57344))%N.

(** The body of a string, after its opening quote (strict mode: no control
    characters); adjacent surrogate escapes are joined. *)
Fixpoint jstring (s : pystr) : option (pystr * pystr) :=
  match s with
  | [] => None
  | c :: s1 =>
      if (c =? 34)%N then Some ([], s1)
      else if (c <? 32)%N then None
      else if negb (c =? 92)%N then '(t, r) ← jstring s1; Some (c :: t, r)
      else match s1 with
      | [] => None
      | e :: s2 =>
          if negb (e =? 117)%N then
            x ← simple_escape e; '(t, r) ← jstring s2; Some (x :: t, r)
          else match s2 with
          | h1 :: h2 :: h3 :: h4 :: s3 =>
              x ← hex4 h1 h2 h3 h4;
              match s3 with
              | b :: uu :: g1 :: g2 :: g3 :: g4 :: s4 =>
                  match (if is_high x && (b =? 92)%N && (uu =? 117)%N
                         then hex4 g1 g2 g3 g4 else None) with
                  | Some y =>
                      if is_low y then
                        '(t, r) ← jstring s4;
                        Some ((65536 + (x - 55296) * 1024 + (y - 56320))%N :: t, r)
                      else '(t, r) ← jstring s3; Some (x :: t, r)
                  | None => '(t, r) ← jstring s3; Some (x :: t, r)
                  end
              | _ => '(t, r) ← jstring s3; Some (x :: t, r)
              end
          | _ => None
          end
      end
  end.

(** CPython's limit on the digits of an integer conversion. *)
Definition max_int_digits : N := 4300.

(** The rest of [s] after the character [c], if [s] starts with it. *)
Definition peel (c : N) (s : pystr) : option pystr :=
  match s with
  | x :: s' => if (x =? c)%N then Some s' else None
  | [] => None
  end.

(** [(\.\d+)?]: the mantissa continued by the fraction digits, and their count. *)
Definition jfrac (ip : N) (s : pystr) : option (N * nat * pystr) :=
  match peel 46 s with
  | Some (d :: s') =>
      if is_digit d then Some (span_digits (d :: s') ip 0) else None
  | _ => None
  end.

(** [([eE][-+]?\d+)?]. *)
Definition jexp (s : pystr) : option (Z * pystr) :=
  match s with
  | e :: r =>
      if (e =? 101)%N || (e =? 69)%N then
        let '(eneg, r') :=
          match peel 43 r, peel 45 r with
          | Some r', _ => (false, r')
          | None, Some r' => (true, r')
          | None, None => (false, r)
          end in
        match r' with
        | d :: _ =>
            if is_digit d then
              let '(x, _, r'') := span_digits r' 0 0 in
              Some (if eneg then (- Z.of_N x)%Z else Z.of_N x, r'')
            else None
        | [] => None
        end
      else None
  | [] => None
  end.

(** [(-?(?:0|[1-9]\d* ))(\.\d+)?([eE][-+]?\d+)?] *)
Definition jnumber (s : pystr) : option (json * pystr) :=
  let '(neg, s1) := match peel 45 s with Some s' => (true, s') | None => (false, s) end in
  match s1 with
  | c :: s1' =>
      if negb (is_digit c) then None
      else
        let '(ip, ni, s2) :=
          if (c =? 48)%N then (0%N, 1%nat, s1') else span_digits s1 0 0 in
        let '(m, nf, s3) := default (ip, 0%nat, s2) (jfrac ip s2) in
        let '(ex, s4) := default (0%Z, s3) (jexp s3) in
        if bool_decide (is_Some (jfrac ip s2)) || bool_decide (is_Some (jexp s3)) then
          let f := fdec (Z.of_N m) (ex - Z.of_nat nf) in
          Some (JFloat (if neg then SFopp f else f), s4)
        else if (max_int_digits <? N.of_nat ni)%N then None
        else Some (JInt (if neg then (- Z.of_N m)%Z else Z.of_N m), s4)
  | [] => None
  end.

Definition strip_prefix (p s : pystr) : option pystr :=
  if starts_with p s then Some (drop (length p) s) else None.

Fixpoint jvalue (fuel : nat) (s : pystr) {struct fuel} : option (json * pystr) :=
  match fuel with
  | O => None
  | S f =>
      match s with
      | [] => None
      | c :: s1 =>
          if (c =? 34)%N then '(t, r) ← jstring s1; Some (JStr t, r)
          else if (c =? 123)%N then
            match peel 125 (skip_ws s1) with
            | Some r => Some (JObj [], r)
            | None => '(kvs, r) ← jmembers f (skip_ws s1); Some (JObj (dict_of_pairs kvs), r)
            end
          else if (c =? 91)%N then
            match peel 93 (skip_ws s1) with
            | Some r => Some (JArr [], r)
            | None => '(l, r) ← jelems f (skip_ws s1); Some (JArr l, r)
            end
          else match strip_prefix (u "null") s with Some r => Some (JNull, r) | None =>
          match strip_prefix (u "true") s with Some r => Some (JBool true, r) | None =>
          match strip_prefix (u "false") s with Some r => Some (JBool false, r) | None =>
          match strip_prefix (u "NaN") s with Some r => Some (JFloat S754_nan, r) | None =>
          match strip_prefix (u "Infinity") s with
          | Some r => Some (JFloat (S754_infinity false), r) | None =>
          match strip_prefix (u "-Infinity") s with
          | Some r => Some (JFloat (S754_infinity true), r) | None =>
          jnumber s end end end end end end
      end
  end
with jelems (fuel : nat) (s : pystr) {struct fuel} : option (list json * pystr) :=
  match fuel with
  | O => None
  | S f =>
      '(v, r) ← jvalue f s;
      match peel 93 (skip_ws r), peel 44 (skip_ws r) with
      | Some r', _ => Some ([v], r')
      | None, Some r' => '(l, r'') ← jelems f (skip_ws r'); Some (v :: l, r'')
      | None, None => None
      end
  end
with jmembers (fuel : nat) (s : pystr) {struct fuel} : option (list (pystr * json) * pystr) :=
  match fuel with
  | O => None
  | S f =>
      s1 ← peel 34 s;
      '(k, s2) ← jstring s1;
      s3 ← peel 58 (skip_ws s2);
      '(v, r) ← jvalue f (skip_ws s3);
      match peel 125 (skip_ws r), peel 44 (skip_ws r) with
      | Some r', _ => Some ([(k, v)], r')
      | None, Some r' => '(l, r'') ← jmembers f (skip_ws r'); Some ((k, v) :: l, r'')
      | None, None => None
      end
  end.

(** [json.loads(s)]: [None] is the [JSONDecodeError] (a [ValueError]).  Every
    recursive call is made after at least one character was read, except that a
    list or member call makes one value call first, so the fuel suffices. *)
Definition loads (s : pystr) : option json :=
  '(v, r) ← jvalue (2 * length s + 2) (skip_ws s);
  match skip_ws r with [] => Some v | _ => None end.
(** ** Round trips *)

Ltac Zify.zify_post_hook ::= Z.to_euclidean_division_equations.

(** Decimal integers. *)
Definition digits_val (acc : N) (ds : pystr) : N :=
  fold_left (fun a c => 10 * a + (c - 48))%N ds acc.

Definition stops_digits (s : pystr) : Prop :=
  match s with c :: _ => is_digit c = false | [] => True end.

Lemma span_digits_app ds rest acc k :
  Forall (fun c => is_digit c = true) ds -> stops_digits rest ->
  span_digits (ds ++ rest) acc k = (digits_val acc ds, (k + length ds)%nat, rest).
Proof.
  intros Hds Hrest. revert acc k. induction Hds as [|c ds Hc _ IH]; intros acc k; simpl.
  - rewrite Nat.add_0_r. destruct rest as [|c rest]; simpl in *; [done|]. by rewrite Hrest.
  - rewrite Hc, IH. by rewrite Nat.add_succ_r.
Qed.

Lemma dec_digits_spec fuel n acc :
  (n < 2 ^ N.of_nat fuel)%N -> fuel <> 0%nat ->
  exists ds, dec_digits fuel n acc = ds ++ acc /\
  Forall (fun c => is_digit c = true) ds /\ digits_val 0 ds = n /\
  exists c ds', ds = c :: ds' /\ (n = 0 -> ds' = [])%N /\ (n <> 0 -> c <> 48)%N.
Proof.
  revert n acc. induction fuel as [|fuel IH]; intros n acc Hn Hf; [done|]. simpl.
  destruct (N.ltb_spec n 10).
  - exists [(48 + n mod 10)%N]. unfold is_digit, digits_val. simpl.
    split_and!; [done| |lia|].
    + constructor; [|done]. apply andb_true_iff. rewrite !N.leb_le. lia.
    + eexists _, _. split_and!; [done|done|lia].
  - destruct fuel as [|fuel].
    { simpl in Hn. lia. }
    destruct (IH (n / 10)%N ((48 + n mod 10)%N :: acc)) as (ds & Heq & Hds & Hv & c & ds' & -> & H0 & Hnz).
    { rewrite Nat2N.inj_succ, N.pow_succ_r' in Hn. lia. }
    { done. }
    exists ((c :: ds') ++ [(48 + n mod 10)%N]). split_and!.
    + rewrite Heq, <- app_assoc. done.
    + apply Forall_app. split; [done|]. constructor; [|done].
      unfold is_digit. apply andb_true_iff. rewrite !N.leb_le. lia.
    + unfold digits_val in *. rewrite fold_left_app, Hv. simpl. lia.
    + eexists c, (ds' ++ _). split_and!; [done|lia|]. intros _. apply Hnz. lia.
Qed.

Lemma dec_N_spec n :
  exists c ds, dec_N n = c :: ds /\ Forall (fun c => is_digit c = true) (c :: ds) /\
  digits_val 0 (c :: ds) = n /\ (n = 0 -> ds = [] /\ c = 48)%N /\ (n <> 0 -> c <> 48)%N.
Proof.
  destruct (dec_digits_spec (S (N.to_nat (N.log2 n))) n []) as (ds & Heq & Hds & Hv & c & ds' & -> & H0 & Hnz).
  { rewrite Nat2N.inj_succ, N2Nat.id. destruct (decide (n = 0%N)) as [->|Hn]; [simpl; lia|].
    apply N.log2_spec. lia. }
  { done. }
  exists c, ds'. unfold dec_N. rewrite Heq, app_nil_r. split_and!; [done..| |done].
  intros ->. specialize (H0 eq_refl) as ->. split; [done|].
  unfold digits_val in Hv. simpl in Hv. inversion Hds as [|?? Hc]; subst.
  unfold is_digit in Hc. apply andb_true_iff in Hc. rewrite !N.leb_le in Hc. lia.
Qed.

Arguments dec_N : simpl never.

Definition int_ok (z : Z) : Prop := (N.of_nat (length (dec_N (Z.abs_N z))) <= max_int_digits)%N.

Definition ends_number (s : pystr) : Prop :=
  match s with
  | c :: _ => is_digit c = false /\ c <> 46%N /\ c <> 101%N /\ c <> 69%N
  | [] => True
  end.

Lemma ends_number_stops s : ends_number s -> stops_digits s.
Proof. destruct s; simpl; [done|]. by intros [? _]. Qed.


Lemma jfrac_stop ip s : ends_number s -> jfrac ip s = None.
Proof.
  unfold jfrac, peel. destruct s as [|c s]; simpl; [done|]. intros (_ & H & _).
  by rewrite (proj2 (N.eqb_neq _ _) H).
Qed.

Lemma jexp_stop s : ends_number s -> jexp s = None.
Proof.
  unfold jexp. destruct s as [|c s]; simpl; [done|]. intros (_ & _ & H1 & H2).
  by rewrite (proj2 (N.eqb_neq _ _) H1), (proj2 (N.eqb_neq _ _) H2).
Qed.

Lemma jnumber_dec_Z z rest :
  int_ok z -> ends_number rest -> jnumber (dec_Z z ++ rest) = Some (JInt z, rest).
Proof.
  intros Hlen Hrest. unfold int_ok in Hlen.
  destruct (dec_N_spec (Z.abs_N z)) as (c & ds & Heq & Hds & Hv & H0 & Hnz).
  assert (is_digit c = true) as Hc by (by inversion Hds).
  assert (exists neg : bool, dec_Z z ++ rest = (if neg then [45%N] else []) ++ (c :: ds) ++ rest
    /\ z = (if neg then - Z.of_N (Z.abs_N z) else Z.of_N (Z.abs_N z))%Z) as (neg & -> & Hz).
  { destruct z as [|p|p]; unfold dec_Z; cbn [Z.to_N Z.abs_N] in *; rewrite Heq.
    - by exists false.
    - by exists false.
    - by exists true. }
  unfold jnumber.
  assert (peel 45 ((if neg then [45%N] else []) ++ (c :: ds) ++ rest) =
    if neg then Some ((c :: ds) ++ rest) else None) as ->.
  { destruct neg; simpl; [done|]. destruct (N.eqb_spec c 45) as [->|]; done. }
  assert (forall X, (match (if neg then Some X else None) with
    Some s' => (true, s') | None => (false, (if neg then [45%N] else []) ++ X) end)
    = (neg, X)) as -> by (by intros; destruct neg).
  simpl. rewrite Hc. simpl.
  assert ((if (c =? 48)%N then (0%N, 1%nat, ds ++ rest)
     else span_digits (ds ++ rest) (10 * 0 + (c - 48)) 1) = (Z.abs_N z, length (c :: ds), rest)) as E.
  { destruct (N.eqb_spec c 48) as [->|Hne].
    - destruct (decide (Z.abs_N z = 0%N)) as [H|H]; [|by destruct (Hnz H)].
      destruct (H0 H) as [-> _]. by rewrite H.
    - rewrite span_digits_app; [|by inversion Hds|by apply ends_number_stops].
      f_equal. f_equal. rewrite <- Hv. done. }
  rewrite E. cbn -[jfrac jexp max_int_digits N.of_nat].
  rewrite jfrac_stop by done. simpl. rewrite jexp_stop by done. simpl.
  rewrite Heq in Hlen. cbn [length] in Hlen.
  rewrite (proj2 (N.ltb_ge _ _) Hlen). by rewrite <- Hz.
Qed.

(** Strings: the characters a Python [str] can hold without surrogates. *)
Definition char_ok (c : N) : Prop := (c < 55296)%N \/ (57344 <= c /\ c < 1114112)%N.
Definition str_ok (s : pystr) : Prop := Forall char_ok s.

Lemma hex_val_digit n : (n < 16)%N -> hex_val (hex_digit n) = Some n.
Proof.
  intros Hn. unfold hex_val, hex_digit, is_digit. destruct (N.ltb_spec n 10).
  - rewrite (proj2 (andb_true_iff _ _)) by (rewrite !N.leb_le; lia). f_equal. lia.
  - rewrite (proj2 (andb_false_iff _ _)) by (rewrite !N.leb_gt; lia).
    rewrite (proj2 (andb_true_iff _ _)) by (rewrite !N.leb_le; lia). f_equal. lia.
Qed.

Lemma hex4_digits c : (c < 65536)%N ->
  hex4 (hex_digit (c / 4096 mod 16)) (hex_digit (c / 256 mod 16))
    (hex_digit (c / 16 mod 16)) (hex_digit (c mod 16)) = Some c.
Proof.
  intros Hc. unfold hex4. rewrite !hex_val_digit by lia. simpl. f_equal. lia.
Qed.

Lemma jstring_u_escape c rest : (c < 65536)%N -> is_high c = false ->
  jstring (u_escape c ++ rest) = '(t, r) ← jstring rest; Some (c :: t, r).
Proof.
  intros Hc Hh. cbn -[hex_digit hex4 N.div N.modulo]. rewrite hex4_digits by done.
  cbn -[N.div N.modulo]. rewrite Hh. simpl. by repeat case_match.
Qed.

Lemma jstring_pair h l rest : is_high h = true -> is_low l = true ->
  jstring (u_escape h ++ u_escape l ++ rest) =
  '(t, r) ← jstring rest; Some ((65536 + (h - 55296) * 1024 + (l - 56320))%N :: t, r).
Proof.
  intros Hh Hl.
  assert (h < 65536 /\ l < 65536)%N as [Hh' Hl'].
  { unfold is_high, is_low in *. rewrite andb_true_iff, N.leb_le, N.ltb_lt in Hh, Hl. lia. }
  cbn -[hex_digit hex4 N.div N.modulo is_high is_low].
  rewrite !hex4_digits by done. cbn -[N.div N.modulo is_high is_low].
  rewrite Hh. cbn -[N.div N.modulo is_high is_low]. by rewrite Hl.
Qed.

Lemma jstring_plain c rest : (32 <= c)%N -> c <> 34%N -> c <> 92%N ->
  jstring (c :: rest) = '(t, r) ← jstring rest; Some (c :: t, r).
Proof.
  intros H1 H2 H3. simpl.
  rewrite (proj2 (N.eqb_neq _ _) H2), (proj2 (N.ltb_ge _ _) H1), (proj2 (N.eqb_neq _ _) H3).
  done.
Qed.

Lemma not_high c : char_ok c -> is_high c = false.
Proof.
  intros Hc. unfold is_high. apply andb_false_iff. rewrite N.leb_gt, N.ltb_ge.
  destruct Hc; lia.
Qed.

Lemma jstring_escape ascii c rest : char_ok c ->
  jstring (escape_char ascii c ++ rest) = '(t, r) ← jstring rest; Some (c :: t, r).
Proof.
  intros Hc. unfold escape_char.
  repeat match goal with
  | |- context [(c =? ?k)%N] => destruct (N.eqb_spec c k) as [->|?]; [done|]
  end.
  destruct (N.ltb_spec c 32); [apply jstring_u_escape; [lia|by apply not_high]|].
  destruct (negb ascii || (c <? 127)%N); [by apply jstring_plain|].
  destruct (N.ltb_spec c 65536); [apply jstring_u_escape; [lia|by apply not_high]|].
  rewrite <- app_assoc, jstring_pair.
  - replace (65536 + (55296 + (c - 65536) / 1024 - 55296) * 1024
      + (56320 + (c - 65536) mod 1024 - 56320))%N with c by lia. done.
  - unfold is_high. rewrite andb_true_iff, N.leb_le, N.ltb_lt. destruct Hc; lia.
  - unfold is_low. rewrite andb_true_iff, N.leb_le, N.ltb_lt. destruct Hc; lia.
Qed.

Lemma jstring_quote ascii s rest : str_ok s ->
  jstring (concat (map (escape_char ascii) s) ++ 34%N :: rest) = Some (s, rest).
Proof.
  induction 1 as [|c s Hc _ IH]; [done|]. cbn [map concat].
  rewrite <- app_assoc, jstring_escape, IH by done. done.
Qed.

(** Sorting. *)
Lemma insert_pair_map {A B} (f : A -> B) kv l :
  insert_pair (kv.1, f kv.2) (map (fun p => (p.1, f p.2)) l)
  = map (fun p => (p.1, f p.2)) (insert_pair kv l).
Proof.
  induction l as [|p l IH]; simpl; [done|]. case_match; simpl; [by rewrite IH|done].
Qed.

Lemma sort_pairs_map {A B} (f : A -> B) l :
  sort_pairs (map (fun p => (p.1, f p.2)) l) = map (fun p => (p.1, f p.2)) (sort_pairs l).
Proof.
  induction l as [|p l IH]; simpl; [done|]. unfold sort_pairs in *. rewrite IH.
  apply insert_pair_map.
Qed.

Lemma insert_pair_perm {A} (kv : pystr * A) l : insert_pair kv l ≡ₚ kv :: l.
Proof.
  induction l as [|p l IH]; simpl; [done|]. case_match; [|done].
  rewrite IH. apply Permutation_swap.
Qed.

Lemma sort_pairs_perm {A} (l : list (pystr * A)) : sort_pairs l ≡ₚ l.
Proof.
  induction l as [|p l IH]; simpl; [done|]. unfold sort_pairs in *.
  by rewrite insert_pair_perm, IH.
Qed.

(** The value [json.loads] gives back: the same one, its dicts in key order. *)
Fixpoint jnorm (srt : bool) (v : json) : json :=
  match v with
  | JArr l => JArr (map (jnorm srt) l)
  | JObj kvs =>
      let kvs' := map (fun kv => (kv.1, jnorm srt kv.2)) kvs in
      JObj (if srt then sort_pairs kvs' else kvs')
  | _ => v
  end.

(** Values that survive: no float, text without surrogates, integers CPython
    converts, and the distinct keys every dict has. *)
Fixpoint json_ok (v : json) : Prop :=
  match v with
  | JNull | JBool _ => True
  | JInt z => int_ok z
  | JFloat _ => False
  | JStr s => str_ok s
  | JArr l => fold_right (fun v P => json_ok v /\ P) True l
  | JObj kvs => NoDup (map fst kvs) /\
      fold_right (fun kv P => (str_ok kv.1 /\ json_ok kv.2) /\ P) True kvs
  end.

Lemma fold_right_and {A} (P : A -> Prop) l :
  fold_right (fun x Q => P x /\ Q) True l <-> Forall P l.
Proof.
  induction l as [|x l IH]; simpl.
  - split; [constructor|done].
  - rewrite IH, Forall_cons. done.
Qed.

Lemma dict_set_fresh k v l : k ∉ map fst l -> dict_set k v l = l ++ [(k, v)].
Proof.
  induction l as [|[k' v'] l IH]; simpl; [done|]. rewrite not_elem_of_cons.
  intros [Hne Hl]. rewrite bool_decide_eq_false_2 by done. by rewrite IH.
Qed.

Lemma dict_of_pairs_nodup l : NoDup (map fst l) -> dict_of_pairs l = l.
Proof.
  unfold dict_of_pairs. intros Hnd.
  assert (forall acc, NoDup (map fst (acc ++ l)) ->
    fold_left (fun d kv => dict_set kv.1 kv.2 d) l acc = acc ++ l) as H.
  { clear Hnd. induction l as [|[k v] l IH]; intros acc Hnd; simpl.
    - by rewrite app_nil_r.
    - rewrite dict_set_fresh.
      + rewrite IH; rewrite <- app_assoc; done.
      + rewrite map_app in Hnd. simpl in Hnd. apply NoDup_app in Hnd as (_ & Hd & _).
        intros Hin. apply (Hd k Hin). by left. }
  by rewrite H.
Qed.

(** The recursion depth a printed value needs. *)
Fixpoint jneed (v : json) : nat :=
  match v with
  | JArr l => S (length l + max_list (map jneed l))
  | JObj kvs => S (length kvs + max_list (map (fun kv => jneed kv.2) kvs))
  | _ => 1%nat
  end.

Section roundtrip.
Context (srt ascii : bool) (isep ksep : pystr).
(** The separators the source uses: [", "]/[","] and [": "]/[":"]. *)
Context (isep_ok : exists w, isep = 44%N :: w /\ skip_ws w = []).
Context (ksep_ok : exists w, ksep = 58%N :: w /\ skip_ws w = []).

Abbreviation pr := (dumps srt ascii isep ksep).

Lemma skip_ws_app w s : skip_ws w = [] -> skip_ws (w ++ s) = skip_ws s.
Proof. induction w as [|c w IH]; simpl; [done|]. by case_match. Qed.

(** Every printed value starts with a character that is not white space. *)
Definition value_start (c : N) : Prop :=
  c = 34%N \/ c = 91%N \/ c = 123%N \/ c = 110%N \/ c = 116%N \/ c = 102%N \/
  c = 45%N \/ is_digit c = true.

Lemma value_start_ws c : value_start c -> is_ws c = false.
Proof.
  unfold value_start, is_ws, is_digit. intros H.
  rewrite !orb_false_iff, !N.eqb_neq. rewrite andb_true_iff, !N.leb_le in H. lia.
Qed.

Lemma dumps_start v : json_ok v -> exists c s, pr v = c :: s /\ value_start c.
Proof.
  unfold value_start. destruct v as [|[]|z|f|s|l|kvs]; simpl; intros H; try done;
    try (eexists _, _; split; [reflexivity|tauto]).
  destruct z as [|p|p]; unfold dec_Z.
  - eexists _, _. split; [reflexivity|tauto].
  - destruct (dec_N_spec (Z.to_N (Z.pos p))) as (c & ds & -> & Hds & _).
    eexists _, _. split; [done|]. inversion Hds; tauto.
  - eexists _, _. split; [done|tauto].
Qed.

Lemma skip_ws_dumps v rest : json_ok v -> skip_ws (pr v ++ rest) = pr v ++ rest.
Proof.
  intros H. destruct (dumps_start v H) as (c & s & -> & Hc). simpl.
  by rewrite value_start_ws.
Qed.

Definition parses (v : json) : Prop :=
  json_ok v -> forall fuel rest, (jneed v <= fuel)%nat -> ends_number rest ->
  jvalue fuel (pr v ++ rest) = Some (jnorm srt v, rest).

Lemma parses_int z : parses (JInt z).
Proof.
  intros Hz fuel rest Hf Hrest. destruct fuel as [|fuel]; [simpl in Hf; lia|].
  pose proof (jnumber_dec_Z z rest Hz Hrest) as Hn. simpl in *.
  assert (exists c s, dec_Z z ++ rest = c :: s /\
    ((c = 45%N /\ exists d s', s = d :: s' /\ is_digit d = true) \/ is_digit c = true))
    as (c & s & Heq & Hc).
  { destruct z as [|p|p]; unfold dec_Z.
    - eexists _, _. split; [reflexivity|by right].
    - destruct (dec_N_spec (Z.to_N (Z.pos p))) as (c & ds & -> & Hds & _).
      eexists _, _. split; [done|]. right. by inversion Hds.
    - destruct (dec_N_spec (N.pos p)) as (c & ds & -> & Hds & _).
      eexists _, _. split; [done|]. left. split; [done|]. eexists _, _. split; [done|].
      by inversion Hds. }
  rewrite Heq in *.
  assert (forall k, is_digit k = false -> k <> 45%N -> c <> k) as Hne.
  { intros k Hk1 Hk2 Hck. subst. destruct Hc as [[? _]|?]; congruence. }
  assert (forall k p, is_digit k = false -> k <> 45%N -> strip_prefix (k :: p) (c :: s) = None) as Hsp.
  { intros k p Hk1 Hk2. unfold strip_prefix. simpl.
    by rewrite bool_decide_eq_false_2 by (intros ->; by apply (Hne c)). }
  rewrite !(proj2 (N.eqb_neq c _)) by (by apply Hne).
  unfold u. simpl. rewrite !Hsp by done.
  assert (forall p, strip_prefix (45%N :: 73%N :: p) (c :: s) = None) as ->; [|done].
  intros p. unfold strip_prefix. destruct Hc as [(-> & d & s' & -> & Hd)|Hc].
  - simpl. rewrite bool_decide_eq_false_2; [done|]. intros <-. done.
  - simpl. rewrite bool_decide_eq_false_2; [done|]. intros <-. done.
Qed.

(** The tail of a printed list: its elements, then the closing bracket. *)
Lemma isep_rest l rest :
  Forall json_ok l -> l <> [] ->
  exists w, isep ++ py_join isep (map pr l) ++ rest = 44%N :: w /\
  skip_ws w = py_join isep (map pr l) ++ rest.
Proof.
  intros Hl Hne. destruct isep_ok as (w & Heq & Hw).
  exists (w ++ py_join isep (map pr l) ++ rest). split; [by rewrite Heq at 1|].
  rewrite skip_ws_app by done. destruct l as [|v [|v' l]]; [done| |].
  - simpl. apply skip_ws_dumps. by inversion Hl.
  - simpl. rewrite <- app_assoc. apply skip_ws_dumps. by inversion Hl.
Qed.

Lemma jelems_dumps l :
  Forall parses l -> Forall json_ok l -> l <> [] -> forall n fuel rest,
  Forall (fun v => jneed v <= n)%nat l -> (length l + n <= fuel)%nat ->
  jelems fuel (py_join isep (map pr l) ++ 93%N :: rest) = Some (map (jnorm srt) l, rest).
Proof.
  induction 1 as [|v l Hv _ IH]; intros Hok Hne n fuel rest Hn Hf; [done|].
  inversion Hok as [|?? Hvok Hlok]; inversion Hn; subst.
  destruct fuel as [|fuel]; [simpl in Hf; lia|]. simpl in Hf.
  destruct l as [|v' l].
  - simpl. rewrite Hv by (simpl; done || lia || auto). done.
  - assert (py_join isep (map pr (v :: v' :: l)) ++ 93%N :: rest =
      pr v ++ isep ++ py_join isep (map pr (v' :: l)) ++ 93%N :: rest) as ->.
    { cbn [map py_join]. by rewrite <- !app_assoc. }
    destruct (isep_rest (v' :: l) (93%N :: rest) Hlok) as (w & -> & Hw); [done|].
    cbn [jelems]. rewrite Hv by (done || (simpl in *; lia) || (simpl; done)).
    simpl. rewrite Hw. by rewrite (IH Hlok ltac:(done) n) by (done || (simpl in *; lia)).
Qed.

Definition pr_member (kv : pystr * json) : pystr := quote ascii kv.1 ++ ksep ++ pr kv.2.

Definition member_ok (kv : pystr * json) : Prop := str_ok kv.1 /\ json_ok kv.2.

Lemma peel_comma_brace X : peel 125 (skip_ws (44%N :: X)) = None.
Proof. done. Qed.

Lemma peel_comma X : peel 44 (skip_ws (44%N :: X)) = Some X.
Proof. done. Qed.

Lemma jmembers_one fuel k v rest :
  parses v -> member_ok (k, v) -> (jneed v <= fuel)%nat -> ends_number rest ->
  jmembers (S fuel) (pr_member (k, v) ++ rest) =
  match peel 125 (skip_ws rest), peel 44 (skip_ws rest) with
  | Some r', _ => Some ([(k, jnorm srt v)], r')
  | None, Some r' =>
      '(l, r'') ← jmembers fuel (skip_ws r'); Some ((k, jnorm srt v) :: l, r'')
  | None, None => None
  end.
Proof.
  intros Hv [Hk Hvok] Hf Hrest. destruct ksep_ok as (w & Heq & Hw).
  unfold pr_member, quote. simpl.
  rewrite <- !app_assoc. simpl. rewrite jstring_quote by done. simpl.
  rewrite Heq. simpl.
  rewrite skip_ws_app, <- Heq, skip_ws_dumps by done.
  by rewrite Hv by done.
Qed.

Lemma jmembers_dumps l :
  Forall (fun kv => parses kv.2) l -> Forall member_ok l -> l <> [] -> forall n fuel rest,
  Forall (fun kv => jneed kv.2 <= n)%nat l -> (length l + n <= fuel)%nat ->
  jmembers fuel (py_join isep (map pr_member l) ++ 125%N :: rest)
  = Some (map (fun kv => (kv.1, jnorm srt kv.2)) l, rest).
Proof.
  induction 1 as [|[k v] l Hv _ IH]; intros Hok Hne n fuel rest Hn Hf; [done|].
  inversion Hok as [|?? Hvok Hlok]; inversion Hn; subst.
  destruct fuel as [|fuel]; [simpl in Hf; lia|]. simpl in Hf.
  destruct l as [|kv' l].
  - cbn [map py_join]. rewrite jmembers_one by (done || (simpl in *; lia) || (simpl; done)). done.
  - destruct isep_ok as (w & Heq & Hw).
    assert (py_join isep (map pr_member ((k, v) :: kv' :: l)) ++ 125%N :: rest =
      pr_member (k, v) ++ 44%N :: w ++ py_join isep (map pr_member (kv' :: l)) ++ 125%N :: rest) as ->.
    { cbn [map py_join]. rewrite <- !app_assoc. f_equal.
      rewrite app_comm_cons. by rewrite <- Heq. }
    rewrite jmembers_one by (done || (simpl in *; lia) || (simpl; done)).
    rewrite peel_comma_brace, peel_comma. cbv beta iota.
    rewrite skip_ws_app by done.
    assert (skip_ws (py_join isep (map pr_member (kv' :: l)) ++ 125%N :: rest)
      = py_join isep (map pr_member (kv' :: l)) ++ 125%N :: rest) as ->.
    { destruct l; done. }
    by rewrite (IH Hlok ltac:(done) n) by (done || (simpl in *; lia)).
Qed.


Lemma max_list_ge {A} (f : A -> nat) l : Forall (fun x => f x <= max_list (map f l))%nat l.
Proof.
  apply Forall_forall. intros x Hx. apply max_list_elem_of_le. apply list_elem_of_In, in_map.
  by apply list_elem_of_In.
Qed.


Definition order_kvs {A} (kvs : list (pystr * A)) : list (pystr * A) :=
  if srt then sort_pairs kvs else kvs.

Lemma order_kvs_perm {A} (kvs : list (pystr * A)) : order_kvs kvs ≡ₚ kvs.
Proof. unfold order_kvs. destruct srt; [apply sort_pairs_perm|done]. Qed.

Lemma order_kvs_map {A B} (f : A -> B) kvs :
  order_kvs (map (fun p => (p.1, f p.2)) kvs) = map (fun p => (p.1, f p.2)) (order_kvs kvs).
Proof. unfold order_kvs. destruct srt; [apply sort_pairs_map|done]. Qed.

Lemma dumps_obj kvs :
  pr (JObj kvs) = 123%N :: py_join isep (map pr_member (order_kvs kvs)) ++ [125%N].
Proof.
  cbn [dumps]. fold (order_kvs (map (fun kv => (kv.1, pr kv.2)) kvs)).
  rewrite order_kvs_map, map_map. done.
Qed.

Lemma jnorm_obj kvs :
  jnorm srt (JObj kvs) = JObj (map (fun kv => (kv.1, jnorm srt kv.2)) (order_kvs kvs)).
Proof. cbn [jnorm]. f_equal. apply order_kvs_map. Qed.

Lemma skip_ws_member kv l rest :
  skip_ws (py_join isep (map pr_member (kv :: l)) ++ rest)
  = py_join isep (map pr_member (kv :: l)) ++ rest.
Proof. by destruct l. Qed.

Lemma parses_obj kvs : Forall (fun kv => parses kv.2) kvs -> parses (JObj kvs).
Proof.
  intros IH [Hnd Hok%fold_right_and] fuel rest Hf Hrest.
  destruct fuel as [|fuel]; [simpl in Hf; lia|]. cbn [jneed] in Hf.
  rewrite dumps_obj, jnorm_obj. simpl.
  assert (order_kvs kvs ≡ₚ kvs) as Hp by apply order_kvs_perm.
  assert (Forall (fun kv => jneed kv.2 <= max_list (map (fun kv => jneed kv.2) kvs))%nat (order_kvs kvs)) as Hn.
  { rewrite Hp. apply max_list_ge. }
  assert (length (order_kvs kvs) + max_list (map (fun kv => jneed kv.2) kvs) <= fuel)%nat as Hl.
  { rewrite Hp. lia. }
  rewrite <- Hp in IH, Hok.
  assert (NoDup (map fst (order_kvs kvs))) as Hnd'.
  { rewrite <- Hp in Hnd. done. }
  clear Hp Hnd Hf. revert Hn Hl Hnd' IH Hok. generalize (order_kvs kvs) as l.
  intros [|kv l] Hn Hl Hnd' IH Hok; [done|].
  rewrite <- app_assoc. simpl ([125%N] ++ rest). rewrite skip_ws_member.
  assert (forall s, peel 125 (py_join isep (map pr_member (kv :: l)) ++ s) = None) as ->
    by (by destruct l).
  rewrite (jmembers_dumps _ IH Hok ltac:(done) _ fuel rest Hn Hl).
  cbn -[map]. rewrite dict_of_pairs_nodup; [done|].
  rewrite map_map. done.
Qed.

Lemma parses_arr l : Forall parses l -> parses (JArr l).
Proof.
  intros IH Hok%fold_right_and fuel rest Hf Hrest.
  destruct fuel as [|fuel]; [simpl in Hf; lia|]. cbn [jneed] in Hf.
  cbn [dumps jnorm]. simpl.
  destruct l as [|v l]; [done|].
  rewrite <- app_assoc. simpl ([93%N] ++ rest).
  assert (json_ok v) as Hv by (by inversion Hok).
  assert (exists w, py_join isep (map pr (v :: l)) = pr v ++ w) as [w Hw].
  { destruct l; [exists []; by rewrite app_nil_r|eexists; done]. }
  rewrite Hw, <- app_assoc, skip_ws_dumps by done.
  destruct (dumps_start v Hv) as (c & s & Hc & Hs).
  assert (forall r, peel 93 (pr v ++ r) = None) as ->.
  { intros r. rewrite Hc. simpl. destruct (N.eqb_spec c 93) as [->|]; [|done].
    unfold value_start in Hs. by destruct_or! Hs. }
  rewrite (app_assoc (pr v)), <- Hw. change (u "]" ++ rest) with (93%N :: rest).
  by rewrite (jelems_dumps _ IH Hok ltac:(done) _ fuel rest (max_list_ge jneed _) ltac:(simpl in *; lia)).
Qed.

Lemma parses_all v : parses v.
Proof.
  induction v as [|[]|z|f|s|l IH|kvs IH] using json_ind';
    try (intros Hok fuel rest Hf Hrest; (destruct fuel as [|fuel]; [simpl in Hf; lia|]); done).
  - by apply parses_int.
  - intros Hok fuel rest Hf Hrest. destruct fuel as [|fuel]; [simpl in Hf; lia|].
    cbn [dumps]. unfold quote. simpl. rewrite <- app_assoc. simpl. by rewrite jstring_quote.
  - by apply parses_arr.
  - by apply parses_obj.
Qed.

Lemma join_length parts :
  (length (concat parts) + (length parts - 1) <= length (py_join isep parts))%nat.
Proof.
  destruct isep_ok as (w & Heq & _).
  induction parts as [|p [|q parts] IH]; simpl; [lia|rewrite app_nil_r; lia|].
  cbn [py_join] in *. rewrite !length_app in *. cbn [length concat] in *.
  rewrite !length_app in *. assert (1 <= length isep)%nat by (rewrite Heq; simpl; lia). lia.
Qed.

Lemma need_join {A} (f : A -> nat) (g : A -> pystr) l :
  Forall (fun x => f x <= 2 * length (g x))%nat l ->
  (length l + max_list (map f l) <= 2 * length (py_join isep (map g l)) + 1)%nat.
Proof.
  intros H. pose proof (join_length (map g l)) as Hj. rewrite length_map in Hj.
  assert (max_list (map f l) <= 2 * length (concat (map g l)))%nat as Hm.
  { clear Hj. induction H as [|x l Hx _ IH]; simpl; [lia|]. rewrite length_app. lia. }
  destruct l; simpl in *; lia.
Qed.

Lemma max_list_perm (l l' : list nat) : l ≡ₚ l' -> max_list l = max_list l'.
Proof. induction 1; simpl; lia. Qed.

Lemma jneed_length v : json_ok v -> (jneed v <= 2 * length (pr v))%nat.
Proof.
  induction v as [|b|z|f|s|l IH|kvs IH] using json_ind'; intros Hok;
    try (destruct (dumps_start _ Hok) as (c & w & -> & _); simpl; lia).
  - simpl in Hok. apply fold_right_and in Hok. cbn [dumps jneed]. rewrite !length_app. simpl.
    assert (Forall (fun v => jneed v <= 2 * length (pr v))%nat l) as H.
    { rewrite Forall_forall in *. eauto. }
    pose proof (need_join jneed pr l H). lia.
  - destruct Hok as [Hnd Hok%fold_right_and]. rewrite dumps_obj. cbn [jneed].
    pose proof (order_kvs_perm kvs) as Hp.
    rewrite <- (Permutation_length Hp).
    rewrite <- (max_list_perm _ _ (Permutation_map (fun kv => jneed kv.2) Hp)).
    assert (Forall (fun kv => jneed kv.2 <= 2 * length (pr_member kv))%nat (order_kvs kvs)) as H.
    { rewrite Hp. rewrite Forall_forall in *. intros kv Hkv.
      unfold pr_member. rewrite !length_app. specialize (IH kv Hkv).
      destruct (Hok kv Hkv). specialize (IH ltac:(done)). lia. }
    pose proof (need_join (fun kv => jneed kv.2) pr_member _ H).
    cbn [length]. rewrite length_app. cbn [length]. lia.
Qed.

Lemma loads_dumps v : json_ok v -> loads (pr v) = Some (jnorm srt v).
Proof.
  intros Hok. unfold loads. rewrite <- (app_nil_r (pr v)) at 2.
  rewrite skip_ws_dumps by done.
  rewrite parses_all; [done|done| |done].
  pose proof (jneed_length v Hok). lia.
Qed.
End roundtrip.


(** ** UTF-8 and canonical JSON *)

(** Decide the comparisons of a goal by arithmetic. *)
Ltac nbool :=
  repeat match goal with
  | |- context [N.ltb ?a ?b] => first
      [ replace (N.ltb a b) with true by (symmetry; apply N.ltb_lt; lia)
      | replace (N.ltb a b) with false by (symmetry; apply N.ltb_ge; lia) ]
  | |- context [N.leb ?a ?b] => first
      [ replace (N.leb a b) with true by (symmetry; apply N.leb_le; lia)
      | replace (N.leb a b) with false by (symmetry; apply N.leb_gt; lia) ]
  end.

Lemma utf8_char_decode c b rest :
  utf8_char c = Some b -> utf8_decode (b ++ rest) = r ← utf8_decode rest; Some (c :: r).
Proof.
  unfold utf8_char.
  destruct (N.ltb_spec c 128); [|destruct (N.ltb_spec c 2048); [|
    destruct (N.leb_spec 55296 c); destruct (N.ltb_spec c 57344); simpl; try done;
    (destruct (N.ltb_spec c 65536); [|destruct (N.ltb_spec c 1114112)])]];
    intros; simplify_eq; try lia; cbn [app utf8_decode]; unfold cont_byte;
    repeat (nbool; cbn [negb andb orb]); try done; cbv zeta.
  all: match goal with |- context [if (?x <? _)%N || _ then _ else _] =>
         replace x with c by lia | |- (r ← _; Some (?x :: r)) = _ => replace x with c by lia end;
       repeat (nbool; cbn [negb andb orb]); done.
Qed.

Lemma utf8_char_ok c : char_ok c -> exists b, utf8_char c = Some b.
Proof.
  unfold utf8_char, char_ok. intros H. repeat case_match; autorewrite with py in *; eauto.
  - lia.
  - rewrite N.ltb_ge in *. lia.
Qed.

Lemma utf8_char_bytes c b : utf8_char c = Some b -> Forall byte_ok b.
Proof.
  unfold utf8_char, byte_ok. intros H. repeat case_match; simplify_eq;
    rewrite ?N.ltb_lt, ?N.ltb_ge in *; repeat constructor; lia.
Qed.

(** What [encode] gives, [decode] reads back. *)
Lemma utf8_decode_encode s b : utf8_encode s = Some b -> utf8_decode b = Some s.
Proof.
  revert b. induction s as [|c s IH]; intros b; simpl; [by intros [= <-]|].
  destruct (utf8_char c) as [bc|] eqn:Hc; [|done]. simpl.
  destruct (utf8_encode s) as [bs|]; [|done]. simpl. intros [= <-].
  by rewrite (utf8_char_decode c), (IH bs).
Qed.

Lemma utf8_encode_ok s : str_ok s -> exists b, utf8_encode s = Some b.
Proof.
  induction 1 as [|c s Hc _ [b IH]]; simpl; [eauto|].
  destruct (utf8_char_ok c Hc) as [bc ->]. rewrite IH. simpl. eauto.
Qed.

Lemma utf8_encode_bytes s b : utf8_encode s = Some b -> Forall byte_ok b.
Proof.
  revert b. induction s as [|c s IH]; intros b; simpl; [by intros [= <-]|].
  destruct (utf8_char c) as [bc|] eqn:Hc; [|done]. simpl.
  destruct (utf8_encode s) as [bs|]; [|done]. simpl. intros [= <-].
  apply Forall_app. eauto using utf8_char_bytes.
Qed.

Lemma utf8_encode_inj s t b :
  utf8_encode s = Some b -> utf8_encode t = Some b -> s = t.
Proof. intros H1%utf8_decode_encode H2%utf8_decode_encode. congruence. Qed.

(** Printed text is made of printable code points. *)
Lemma ascii_ok c : (c < 128)%N -> char_ok c.
Proof. left. lia. Qed.

Lemma hex_digit_ok n : (n < 16)%N -> char_ok (hex_digit n).
Proof. intros. apply ascii_ok. unfold hex_digit. case_match; lia. Qed.

Ltac forall_list := repeat first [apply Forall_nil_2 | apply Forall_cons_2].

Lemma u_escape_ok c : str_ok (u_escape c).
Proof.
  unfold str_ok, u_escape. forall_list; first [apply hex_digit_ok; lia|apply ascii_ok; lia].
Qed.

Lemma escape_char_ok ascii c : char_ok c -> str_ok (escape_char ascii c).
Proof.
  intros Hc. unfold escape_char, str_ok. repeat case_match; repeat apply Forall_app_2;
    try apply u_escape_ok; forall_list; try done; apply ascii_ok; lia.
Qed.

Lemma quote_ok ascii s : str_ok s -> str_ok (quote ascii s).
Proof.
  intros Hs. unfold quote, str_ok. constructor; [apply ascii_ok; lia|].
  apply Forall_app_2; [|forall_list; apply ascii_ok; lia].
  induction Hs as [|c s Hc _ IH]; simpl; [constructor|].
  apply Forall_app_2; [by apply escape_char_ok|done].
Qed.

Lemma digits_ok ds : Forall (fun c => is_digit c = true) ds -> str_ok ds.
Proof.
  intros H. eapply Forall_impl; [exact H|]. intros c Hc. simpl in Hc.
  unfold is_digit in Hc. autorewrite with py in Hc. apply ascii_ok. lia.
Qed.

Lemma dec_N_ok n : str_ok (dec_N n).
Proof. destruct (dec_N_spec n) as (c & ds & -> & H & _). by apply digits_ok. Qed.

Lemma dec_Z_ok z : str_ok (dec_Z z).
Proof.
  destruct z; unfold dec_Z; try apply dec_N_ok. constructor; [apply ascii_ok; lia|apply dec_N_ok].
Qed.

Lemma py_join_ok sep l : str_ok sep -> Forall str_ok l -> str_ok (py_join sep l).
Proof.
  intros Hsep. induction 1 as [|p l Hp Hl IH]; [constructor|].
  cbn [py_join]. destruct l; [done|]. repeat apply Forall_app_2; done.
Qed.

Lemma u_str_ok s : forallb (fun c => c <? 128)%N (u s) = true -> str_ok (u s).
Proof.
  rewrite forallb_forall. intros H. apply Forall_forall. intros c Hc%list_elem_of_In%H.
  apply ascii_ok. by apply N.ltb_lt.
Qed.

Lemma dumps_text_ok srt ascii isep ksep v :
  str_ok isep -> str_ok ksep -> json_ok v -> str_ok (dumps srt ascii isep ksep v).
Proof.
  intros Hi Hk. induction v as [|[]|z|f|s|l IH|kvs IH] using json_ind'; intros Hok;
    try done; cbn [dumps]; try (by apply u_str_ok).
  - apply dec_Z_ok.
  - by apply quote_ok.
  - apply fold_right_and in Hok. (apply Forall_app_2; [by apply u_str_ok|]; apply Forall_app_2; [|by apply u_str_ok]).
    apply py_join_ok; [done|]. apply Forall_map. rewrite Forall_forall in *.
    intros v Hv. by apply IH, Hok.
  - destruct Hok as [_ Hok%fold_right_and].
    (apply Forall_app_2; [by apply u_str_ok|]; apply Forall_app_2; [|by apply u_str_ok]).
    apply py_join_ok; [done|]. apply Forall_map.
    fold (order_kvs srt (map (fun kv => (kv.1, dumps srt ascii isep ksep kv.2)) kvs)).
    rewrite order_kvs_perm. apply Forall_map. rewrite Forall_forall in *.
    intros kv Hkv. destruct (Hok kv Hkv). cbn [fst snd].
    apply Forall_app_2; [by apply quote_ok|]. apply Forall_app_2; [done|]. by apply IH.
Qed.

(** [canonical_json] encodes every such value ... *)
Lemma canonical_json_some v : json_ok v -> exists b, canonical_json v = Some b.
Proof.
  intros Hv. apply utf8_encode_ok, dumps_text_ok; [by apply u_str_ok..|done].
Qed.

(** ... as text that parses back to it, keys sorted. *)
Lemma canonical_json_parse v b :
  json_ok v -> canonical_json v = Some b ->
  (s ← utf8_decode b; loads s) = Some (jnorm true v).
Proof.
  intros Hv Hb%utf8_decode_encode. rewrite Hb. simpl.
  apply loads_dumps; [by exists []..|done].
Qed.

(** Canonical JSON identifies only values equal up to key order. *)
Lemma canonical_json_inj v w b :
  json_ok v -> json_ok w -> canonical_json v = Some b -> canonical_json w = Some b ->
  jnorm true v = jnorm true w.
Proof.
  intros Hv Hw H1%canonical_json_parse H2%canonical_json_parse; [|done..]. congruence.
Qed.

(** [json.loads(json.dumps(v))] with the default options. *)
Lemma loads_dumps_default v : json_ok v -> loads (dumps_default v) = Some (jnorm false v).
Proof. intros. apply loads_dumps; [by eexists..|done]. Qed.

Lemma jnorm_false v : json_ok v -> jnorm false v = v.
Proof.
  induction v as [| | | | |l IH|kvs IH] using json_ind'; intros Hok; try done; cbn [jnorm].
  - simpl in Hok. apply fold_right_and in Hok. f_equal.
    induction IH as [|v l Hv _ IHl]; [done|]. inversion Hok; subst.
    simpl. f_equal; auto.
  - destruct Hok as [_ Hok%fold_right_and]. f_equal.
    induction IH as [|[k v] l Hv _ IHl]; [done|]. inversion Hok as [|?? []]; subst.
    simpl. f_equal; [|auto]. f_equal. auto.
Qed.

(** ** Properties *)

(** Canonical JSON is faithful: every value that serialises has a canonical
    form, which is UTF-8 text that parses back to the value with its dicts in key
    order, and two values have the same canonical bytes only if they are equal up
    to that order.  This is what signing and hashing the bytes relies on. *)
Theorem canonical_json_faithful (v : json) :
  json_ok v ->
  exists b, canonical_json v = Some b /\ (s ← utf8_decode b; loads s) = Some (jnorm true v) /\
    forall w, json_ok w -> canonical_json w = Some b -> jnorm true w = jnorm true v.
Proof.
  intros Hv. destruct (canonical_json_some v Hv) as [b Hb]. exists b. split_and!; [done|by apply canonical_json_parse|].
  intros w Hw Hwb. by eapply canonical_json_inj.
Qed.

Lemma canonical_json_faithful_witness :
  exists b, canonical_json (JObj [(u "b", JInt 1); (u "a", JArr [JNull; JBool true; JStr (u "x")])]) = Some b /\
    (s ← utf8_decode b; loads s) = Some (JObj [(u "a", JArr [JNull; JBool true; JStr (u "x")]); (u "b", JInt 1)]).
Proof.
  destruct (canonical_json_faithful (JObj [(u "b", JInt 1); (u "a", JArr [JNull; JBool true; JStr (u "x")])]))
    as (b & Hb & Hp & _).
  - cbn [json_ok]. split; [apply (bool_decide_eq_true_1 _); vm_compute; reflexivity|].
    cbn. repeat split; try (by apply u_str_ok); vm_compute; discriminate.
  - exists b. split; [exact Hb|exact Hp].
Defined.
