(* ===== verification/Crypto.v ===== *)
(** Hexadecimal text, SHA-256 ([hashlib.sha256]) and the interface of the
    [cryptography] package: its operations are the parameters of a class, what
    its documentation promises are the laws of another, and a small concrete
    instance shows the laws can hold. *)
From S2P Require Import Prelude Json.

#[local] Ltac Zify.zify_post_hook ::= Z.to_euclidean_division_equations.

(** ** Hexadecimal *)

(** [b.hex()]. *)
Definition hex_byte (b : N) : pystr := [hex_digit (b / 16); hex_digit (b mod 16)].
Definition to_hex (b : pybytes) : pystr := concat (map hex_byte b).

Definition is_ascii_space (c : N) : bool := (c =? 32)%N || ((9 <=? c) && (c <=? 13))%N.

(** [bytes.fromhex(s)]: pairs of digits, ASCII white space between the pairs is
    skipped; [None] is the [ValueError]. *)
Fixpoint from_hex (s : pystr) : option pybytes :=
  match s with
  | [] => Some []
  | a :: s' =>
      if is_ascii_space a then from_hex s'
      else match s' with
      | b :: s'' =>
          x ← hex_val a; y ← hex_val b; r ← from_hex s''; Some ((16 * x + y)%N :: r)
      | [] => None
      end
  end.

(** ** SHA-256 *)
Section sha256.
Local Open Scope N_scope.

Definition w32 (x : N) : N := N.land x 4294967295.
Definition rotr (k x : N) : N := N.lor (N.shiftr x k) (w32 (N.shiftl x (32 - k))).

Definition sha_k : list N :=
  [1116352408; 1899447441; 3049323471; 3921009573; 961987163; 1508970993;
   2453635748; 2870763221; 3624381080; 310598401; 607225278; 1426881987;
   1925078388; 2162078206; 2614888103; 3248222580; 3835390401; 4022224774;
   264347078; 604807628; 770255983; 1249150122; 1555081692; 1996064986;
   2554220882; 2821834349; 2952996808; 3210313671; 3336571891; 3584528711;
   113926993; 338241895; 666307205; 773529912; 1294757372; 1396182291;
   1695183700; 1986661051; 2177026350; 2456956037; 2730485921; 2820302411;
   3259730800; 3345764771; 3516065817; 3600352804; 4094571909; 275423344;
   430227734; 506948616; 659060556; 883997877; 958139571; 1322822218;
   1537002063; 1747873779; 1955562222; 2024104815; 2227730452; 2361852424;
   2428436474; 2756734187; 3204031479; 3329325298].

Definition sha_h0 : list N :=
  [1779033703; 3144134277; 1013904242; 2773480762; 1359893119; 2600822924;
   528734635; 1541459225].

Definition nth0 (l : list N) (i : nat) : N := nth i l 0.

(** The message schedule, newest word first. *)
Definition sha_next (w : list N) : N :=
  let w15 := nth0 w 14 in let w2 := nth0 w 1 in
  let s0 := N.lxor (rotr 7 w15) (N.lxor (rotr 18 w15) (N.shiftr w15 3)) in
  let s1 := N.lxor (rotr 17 w2) (N.lxor (rotr 19 w2) (N.shiftr w2 10)) in
  w32 (nth0 w 15 + s0 + nth0 w 6 + s1).

Definition sha_schedule (ws : list N) : list N :=
  rev (Nat.iter 48 (fun w => sha_next w :: w) (rev ws)).

Definition sha_round (st : list N) (kw : N * N) : list N :=
  match st with
  | [a; b; c; d; e; f; g; h] =>
      let s1 := N.lxor (rotr 6 e) (N.lxor (rotr 11 e) (rotr 25 e)) in
      let ch := N.lxor (N.land e f) (N.land (N.lxor e 4294967295) g) in
      let t1 := h + s1 + ch + kw.1 + kw.2 in
      let s0 := N.lxor (rotr 2 a) (N.lxor (rotr 13 a) (rotr 22 a)) in
      let maj := N.lxor (N.land a b) (N.lxor (N.land a c) (N.land b c)) in
      [w32 (t1 + s0 + maj); a; b; c; w32 (d + t1); e; f; g]
  | _ => st
  end.

Definition sha_block (st : list N) (ws : list N) : list N :=
  zip_with (fun x y => w32 (x + y)) st
    (fold_left sha_round (zip sha_k (sha_schedule ws)) st).

Definition be32 (l : pybytes) : N := fold_left (fun a b => a * 256 + b) l 0.

Fixpoint words (l : pybytes) : list N :=
  match l with
  | a :: b :: c :: d :: r => be32 [a; b; c; d] :: words r
  | _ => []
  end.

(** [n] as [k] big-endian bytes. *)
Fixpoint be_bytes (k : nat) (n : N) : pybytes :=
  match k with O => [] | S k => be_bytes k (n / 256) ++ [n mod 256] end.

Definition sha_pad (m : pybytes) : pybytes :=
  let n := N.of_nat (length m) in
  m ++ 128 :: repeat 0 (N.to_nat ((119 - n mod 64) mod 64)) ++ be_bytes 8 (8 * n).

Fixpoint sha_blocks (fuel : nat) (ws : list N) (st : list N) : list N :=
  match fuel with
  | O => st
  | S f => match ws with
           | [] => st
           | _ => sha_blocks f (drop 16 ws) (sha_block st (take 16 ws))
           end
  end.

Definition sha256 (m : pybytes) : pybytes :=
  let ws := words (sha_pad m) in
  concat (map (be_bytes 4) (sha_blocks (length ws) ws sha_h0)).
End sha256.

Example sha256_abc : to_hex (sha256 (u "abc")) =
  u "ba7816bf8f01cfea414140de5dae2223b00361a396177a9cb410ff61f20015ad".
Proof. vm_compute. reflexivity. Qed.

(** ** The [cryptography] package *)
Class Crypto := {
  ed_pub : pybytes -> pybytes;                       (* private key -> public key *)
  ed_sign : pybytes -> pybytes -> pybytes;           (* private key, data *)
  ed_verify : pybytes -> pybytes -> pybytes -> bool; (* public key, signature, data *)
  x_pub : pybytes -> pybytes;
  x_dh : pybytes -> pybytes -> option pybytes;       (* None: the ValueError *)
  hkdf : pybytes -> pybytes -> pybytes -> pybytes;   (* salt, info, secret; 32 bytes *)
  aead_enc : pybytes -> pybytes -> pybytes -> pybytes -> pybytes;  (* key nonce data aad *)
  aead_dec : pybytes -> pybytes -> pybytes -> pybytes -> option pybytes;
}.

(** The documented behaviour the source relies on. *)
Class CryptoLaws `{Crypto} := {
  ed_correct k m : ed_verify (ed_pub k) (ed_sign k m) m = true;
  x_dh_comm a b : x_dh a (x_pub b) = x_dh b (x_pub a);
  aead_correct k n m a : Forall byte_ok m -> aead_dec k n (aead_enc k n m a) a = Some m;
  ed_pub_bytes k : Forall byte_ok (ed_pub k);
  ed_sign_bytes k m : Forall byte_ok (ed_sign k m);
  x_pub_bytes k : Forall byte_ok (x_pub k);
  aead_bytes k n m a : Forall byte_ok (aead_enc k n m a);
}.

(** A toy instance for concrete runs: keys are their own public halves. *)
Definition toy_bytes (l : pybytes) : pybytes := map (fun b => b mod 256)%N l.

Definition toy_crypto : Crypto := {|
  ed_pub k := toy_bytes k;
  ed_sign k m := toy_bytes k ++ toy_bytes m;
  ed_verify p s m := bool_decide (s = p ++ toy_bytes m);
  x_pub k := toy_bytes k;
  x_dh a b := Some (zip_with N.lxor (toy_bytes a) (toy_bytes b));
  hkdf salt info ikm := salt ++ ikm;
  aead_enc k n m a := toy_bytes (k ++ n ++ a) ++ toy_bytes m;
  aead_dec k n c a :=
    let p := toy_bytes (k ++ n ++ a) in
    if starts_with p c then Some (drop (length p) c) else None;
|}.

Lemma toy_bytes_ok l : Forall byte_ok (toy_bytes l).
Proof. apply Forall_map, Forall_forall. intros. unfold byte_ok. lia. Qed.

Lemma toy_bytes_id l : Forall byte_ok l -> toy_bytes l = l.
Proof.
  unfold byte_ok, toy_bytes. induction 1 as [|b l Hb _ IH]; simpl; [done|].
  rewrite IH. f_equal. lia.
Qed.

Lemma toy_crypto_laws : @CryptoLaws toy_crypto.
Proof.
  split; simpl; intros.
  - by apply bool_decide_eq_true_2.
  - rewrite !(toy_bytes_id (toy_bytes _)) by apply toy_bytes_ok. f_equal.
    generalize (toy_bytes a) as l, (toy_bytes b) as k.
    induction l as [|x l IH]; intros [|y k]; simpl; [done..|]. by rewrite IH, N.lxor_comm.
  - rewrite (proj2 (starts_with_spec _ _)) by eauto.
    by rewrite drop_app_length, toy_bytes_id.
  - apply toy_bytes_ok.
  - apply Forall_app_2; apply toy_bytes_ok.
  - apply toy_bytes_ok.
  - apply Forall_app_2; apply toy_bytes_ok.
Qed.

(** ** Lemmas *)
Lemma hex_val_hex_digit n : (n < 16)%N -> hex_val (hex_digit n) = Some n.
Proof. apply hex_val_digit. Qed.

Lemma hex_digit_not_space n : (n < 16)%N -> is_ascii_space (hex_digit n) = false.
Proof.
  intros. unfold is_ascii_space, hex_digit. apply orb_false_iff.
  rewrite N.eqb_neq, andb_false_iff, !N.leb_gt. case_match; autorewrite with py in *; lia.
Qed.

(** Bytes written as hexadecimal read back. *)
Lemma from_hex_to_hex b : Forall byte_ok b -> from_hex (to_hex b) = Some b.
Proof.
  unfold byte_ok. induction 1 as [|x b Hx _ IH]; [done|].
  unfold to_hex in *. cbn [map concat app hex_byte from_hex].
  rewrite hex_digit_not_space, !hex_val_hex_digit, IH by lia. simpl. f_equal. f_equal. lia.
Qed.

Lemma to_hex_inj a b : Forall byte_ok a -> Forall byte_ok b -> to_hex a = to_hex b -> a = b.
Proof. intros Ha Hb Heq. apply from_hex_to_hex in Ha, Hb. congruence. Qed.

Lemma be_bytes_length k n : length (be_bytes k n) = k.
Proof. revert n. induction k; intros; simpl; [done|]. rewrite length_app, IHk. simpl. lia. Qed.

Lemma be_bytes_ok k n : Forall byte_ok (be_bytes k n).
Proof.
  revert n. induction k; intros; simpl; [constructor|].
  apply Forall_app_2; [done|]. repeat constructor. unfold byte_ok. lia.
Qed.

Lemma be_bytes_inj k n m :
  (n < 256 ^ N.of_nat k)%N -> (m < 256 ^ N.of_nat k)%N -> be_bytes k n = be_bytes k m -> n = m.
Proof.
  revert n m. induction k as [|k IH]; intros n m Hn Hm Heq; [simpl in *; lia|].
  rewrite Nat2N.inj_succ, N.pow_succ_r' in Hn, Hm. simpl in Heq.
  apply app_inj_2 in Heq as [Hq Hr]; [|done]. simplify_eq.
  apply IH in Hq; lia.
Qed.
