(* ===== verification/Protocol.v ===== *)
(** [brain/kindled_link/identity.py] and [brain/kindled_link/protocol.py]: the
    local identity, canonical signing input, session-key derivation, the
    sequence-derived AEAD nonce, envelopes and the receiver's reject rules.
    Envelopes come from an untrusted relay, so they are arbitrary JSON values
    and every dynamic type error of the code is an [Err].  Theorems: what
    [build_envelope] builds, [verify_and_open] opens; what it opens passed every
    rule; nonces never collide; both ends derive the same session key. *)
From S2P Require Import Prelude PyFloat PyTime Json Crypto.

#[local] Ltac Zify.zify_post_hook ::= Z.to_euclidean_division_equations.

(** ** Values of Python's dynamic types *)

(** [int(s)] for a string: surrounding white space, a sign, digits with single
    underscores between them, at most 4300 digits. *)
Section int_of.
Context `{PyLib}.

Definition is_space (c : N) : bool :=
  if (c <? 128)%N then is_ascii_space c || ((28 <=? c) && (c <=? 31))%N else space_hi c.

(** What [int(s)] skips: it keeps the ASCII separators 28 to 31. *)
Definition is_int_space (c : N) : bool := if (c <? 128)%N then is_ascii_space c else space_hi c.

Fixpoint lstrip_by (p : N -> bool) (s : pystr) : pystr :=
  match s with c :: s' => if p c then lstrip_by p s' else s | [] => [] end.

Definition strip_by (p : N -> bool) (s : pystr) : pystr :=
  rev (lstrip_by p (rev (lstrip_by p s))).

(** [s.strip()]. *)
Definition strip (s : pystr) : pystr := strip_by is_space s.

(** Digits after the first one: [prev] says the last character was a digit. *)
Fixpoint int_digits (s : pystr) (prev : bool) (acc : Z) (n : N) : option (Z * N) :=
  match s with
  | [] => if prev then Some (acc, n) else None
  | c :: s' =>
      if (c =? 95)%N then if prev then int_digits s' false acc n else None
      else match digit_of c with
           | Some d => int_digits s' true (10 * acc + d)%Z (n + 1)%N
           | None => None
           end
  end.

Definition int_of_str (s : pystr) : res Z :=
  let s := strip_by is_int_space s in
  let '(neg, s) := match s with
    | c :: s' => if (c =? 45)%N then (true, s') else if (c =? 43)%N then (false, s') else (false, s)
    | [] => (false, []) end in
  match int_digits s false 0 0 with
  | Some (z, n) =>
      if (max_int_digits <? n)%N then Err ValueError else Ok (if neg then (- z)%Z else z)
  | None => Err ValueError
  end.

(** [int(v)] for a decoded JSON value. *)
Definition py_int (v : json) : res Z :=
  match v with
  | JInt z => Ok z
  | JBool b => Ok (if b then 1%Z else 0%Z)
  | JFloat f => int_of_float f
  | JStr s => int_of_str s
  | JNull | JArr _ | JObj _ => Err TypeError
  end.
End int_of.

(** [d[k]]. *)
Definition jindex (k : pystr) (j : json) : res json := or_raise KeyError (jget k j).

(** [bytes.fromhex(v)]. *)
Definition fromhex (v : json) : res pybytes :=
  match v with
  | JStr s => or_raise ValueError (from_hex s)
  | _ => Err TypeError
  end.

(** [s.encode()]. *)
Definition encode (s : pystr) : res pybytes := or_raise UnicodeError (utf8_encode s).

(** [canonical_json(v)]: text with a lone surrogate cannot be encoded. *)
Definition canonical (v : json) : res pybytes := or_raise UnicodeError (canonical_json v).

(** ** [identity.py] *)

(** [fingerprint]: "kid_" and 16 hex digits of the SHA-256 of the key. *)
Definition fingerprint (pub_raw : pybytes) : pystr :=
  u "kid_" ++ take 16 (to_hex (sha256 pub_raw)).

(** [" ".join(h[i:i+4] for i in range(0, 32, 4))]. *)
Definition fingerprint_phrase (pub_raw : pybytes) : pystr :=
  let h := to_hex (sha256 pub_raw) in
  py_join (u " ") (map (fun i => take 4 (drop (4 * i) h)) (seq 0 8)).

Record KindledIdentity := { priv : pybytes }.

Section identity.
Context `{Crypto}.

Definition public_bytes (idn : KindledIdentity) : pybytes := ed_pub (priv idn).
Definition key_id (idn : KindledIdentity) : pystr := fingerprint (public_bytes idn).
Definition sign (idn : KindledIdentity) (data : pybytes) : pybytes := ed_sign (priv idn) data.

(** [verify]: fail-soft, [False] on any error of the library. *)
Definition verify (pub_raw signature data : pybytes) : bool := ed_verify pub_raw signature data.
End identity.

(** ** Canonical inputs *)
Definition SUPPORTED_PROTOCOL : pystr := u "kindled-link/1".
Definition AAD_EXCLUDE : list pystr := [u "ciphertext"; u "signature"].
Definition SIG_EXCLUDE : list pystr := [u "signature"].

(** [_SKEW] and the most a [datetime] can be advanced. *)
Definition SKEW : Z := (5 * minute)%Z.

(** [_without]. *)
Definition without (outer : json) (keys : list pystr) : json :=
  match outer with
  | JObj kvs => JObj (List.filter (fun kv => negb (existsb (fun k => bool_decide (kv.1 = k)) keys)) kvs)
  | _ => outer
  end.

Definition aad_bytes (outer : json) : res pybytes := canonical (without outer AAD_EXCLUDE).
Definition sig_input_bytes (outer : json) : res pybytes := canonical (without outer SIG_EXCLUDE).

(** [outer[k] = v]. *)
Definition jset (k : pystr) (v : json) (j : json) : json :=
  match j with JObj kvs => JObj (dict_set k v kvs) | _ => j end.

(** role bytes *)
Definition ROLE_INITIATOR : Z := 0.
Definition ROLE_RESPONDER : Z := 1.

Definition aead_nonce (role sequence : Z) : res pybytes :=
  if negb ((role =? ROLE_INITIATOR)%Z || (role =? ROLE_RESPONDER)%Z) then Err ValueError
  else if ((sequence <? 0) || (2 ^ 88 <=? sequence))%Z then Err ValueError
  else Ok (Z.to_N role :: be_bytes 11 (Z.to_N sequence)).

Inductive RejectReason :=
| PROTOCOL_MISMATCH | BAD_SIGNATURE | WRONG_RECIPIENT | AEAD_FAILURE | REPLAY | EXPIRED.

#[export] Instance reject_eq_dec : EqDecision RejectReason.
Proof. solve_decision. Defined.

(** [reason.name]. *)
Definition reject_name (r : RejectReason) : pystr :=
  match r with
  | PROTOCOL_MISMATCH => u "PROTOCOL_MISMATCH"
  | BAD_SIGNATURE => u "BAD_SIGNATURE"
  | WRONG_RECIPIENT => u "WRONG_RECIPIENT"
  | AEAD_FAILURE => u "AEAD_FAILURE"
  | REPLAY => u "REPLAY"
  | EXPIRED => u "EXPIRED"
  end.

(** The code's pairs [(value, None)] and [(None, reason)]. *)
Inductive verdict (A : Type) := Accepted (a : A) | Rejected (r : RejectReason).
Arguments Accepted {A} a.
Arguments Rejected {A} r.

(** [now + delta], which overflows beyond year 9999. *)
Definition dt_add (t delta : Z) : res Z :=
  let t' := (t + delta)%Z in
  if ((0 <=? t') && (t' <? dt_max))%Z then Ok t' else Err OverflowError.

Section protocol.
Context `{PyLib, Crypto}.

Definition sign_envelope (outer : json) (idn : KindledIdentity) : res pystr :=
  b ← sig_input_bytes outer; mret (to_hex (sign idn b)).

Definition verify_envelope_signature (outer : json) (sender_pub : pybytes) : res bool :=
  match jget (u "signature") outer with
  | Some (JStr sig_hex) =>
      match from_hex sig_hex with
      | None => mret false
      | Some sig => b ← sig_input_bytes outer; mret (verify sender_pub sig b)
      end
  | _ => mret false
  end.

(** The two fingerprints in [sorted] order. *)
Definition sorted2 (a b : pystr) : pystr * pystr := if str_ltb b a then (b, a) else (a, b).

(** [session_id.encode()] on whatever the envelope held. *)
Definition encode_json (v : json) : res pybytes :=
  match v with JStr s => encode s | _ => Err AttributeError end.

(** [derive_session_key]. *)
Definition derive_session_key (my_eph_priv peer_eph_pub : pybytes)
    (sender_fp recipient_fp : pystr) (session_id : json) (bootstrap_nonce : pybytes)
    : res pybytes :=
  shared ← or_raise ValueError (x_dh my_eph_priv peer_eph_pub);
  let '(fp0, fp1) := sorted2 sender_fp recipient_fp in
  b0 ← encode fp0;
  b1 ← encode fp1;
  sid ← encode_json session_id;
  let info := u "kindled-link/1|" ++ b0 ++ u "|" ++ b1 ++ u "|" ++ sid in
  mret (hkdf bootstrap_nonce info shared).

Definition encrypt_payload (payload : json) (session_key : pybytes) (role sequence : Z)
    (aad : pybytes) : res pystr :=
  nonce ← aead_nonce role sequence;
  pt ← canonical payload;
  mret (to_hex (aead_enc session_key nonce pt aad)).

Definition decrypt_payload (ciphertext_hex : json) (session_key : pybytes)
    (role sequence : Z) (aad : pybytes) : res json :=
  nonce ← aead_nonce role sequence;
  ct ← fromhex ciphertext_hex;
  pt ← or_raise ValueError (aead_dec session_key nonce ct aad);
  s ← or_raise UnicodeError (utf8_decode pt);
  or_raise JSONDecodeError (loads s).

(** [_iso]. *)
Definition iso (dt : Z) : pystr := iso_z dt.

Definition build_envelope (payload : json) (sender : KindledIdentity)
    (recipient_key_id relay_mailbox session_id : json) (sequence role : Z)
    (session_key : pybytes) (now ttl : Z) : res json :=
  exp ← dt_add now ttl;
  let outer := JObj
    [(u "protocol", JStr SUPPORTED_PROTOCOL);
     (u "relay_mailbox", relay_mailbox);
     (u "sender_key_id", JStr (key_id sender));
     (u "recipient_key_id", recipient_key_id);
     (u "session_id", session_id);
     (u "sequence", JInt sequence);
     (u "created_at", JStr (iso now));
     (u "expires_at", JStr (iso exp))] in
  aad ← aad_bytes outer;
  ct ← encrypt_payload payload session_key role sequence aad;
  let outer := jset (u "ciphertext") (JStr ct) outer in
  sig ← sign_envelope outer sender;
  mret (jset (u "signature") (JStr sig) outer).

(** [_expired]: a missing or malformed stamp counts as expired; the comparison
    with the skew can overflow. *)
Definition expired (envelope : json) (now : Z) : res bool :=
  match jget (u "expires_at") envelope with
  | Some (JStr s) =>
      match strptime_z s with
      | Some exp => lim ← dt_add exp SKEW; mret (lim <? now)%Z
      | None => mret true
      end
  | _ => mret true
  end.

(** [try: int(envelope["sequence"]) except (KeyError, TypeError, ValueError)];
    an infinite float raises [OverflowError], which is not caught. *)
Definition read_sequence (envelope : json) : res (option Z) :=
  match (v ← jindex (u "sequence") envelope; py_int v) with
  | Ok z => Ok (Some z)
  | Err e => if bool_decide (e = KeyError) || bool_decide (e = TypeError) || is_ValueError e
             then Ok None else Err e
  end.

Definition verify_and_open (envelope : json) (recipient : KindledIdentity)
    (sender_pub session_key : pybytes) (sender_role seq_high_water now : Z)
    : res (verdict json) :=
  if negb (jis_str SUPPORTED_PROTOCOL (jget_none (u "protocol") envelope))
  then mret (Rejected PROTOCOL_MISMATCH) else
  ok ← verify_envelope_signature envelope sender_pub;
  if negb ok then mret (Rejected BAD_SIGNATURE) else
  if negb (jis_str (key_id recipient) (jget_none (u "recipient_key_id") envelope))
  then mret (Rejected WRONG_RECIPIENT) else
  sq ← read_sequence envelope;
  match sq with
  | None => mret (Rejected AEAD_FAILURE)
  | Some sequence =>
      if (sequence <=? seq_high_water)%Z then mret (Rejected REPLAY) else
      ex ← expired envelope now;
      if (ex : bool) then mret (Rejected EXPIRED) else
      match (aad ← aad_bytes envelope;
             ct ← jindex (u "ciphertext") envelope;
             decrypt_payload ct session_key sender_role sequence aad) with
      | Ok payload => mret (Accepted payload)
      | Err e => if is_Exception e then mret (Rejected AEAD_FAILURE) else Err e
      end
  end.

Definition build_session_open (sender : KindledIdentity)
    (recipient_key_id relay_mailbox session_id : json)
    (ephemeral_pub bootstrap_nonce : pybytes) (sender_mailbox : json) (now ttl : Z) : res json :=
  exp ← dt_add now ttl;
  let outer := JObj
    [(u "protocol", JStr SUPPORTED_PROTOCOL);
     (u "relay_mailbox", relay_mailbox);
     (u "sender_key_id", JStr (key_id sender));
     (u "sender_mailbox", sender_mailbox);
     (u "recipient_key_id", recipient_key_id);
     (u "session_id", session_id);
     (u "sequence", JInt 0);
     (u "created_at", JStr (iso now));
     (u "expires_at", JStr (iso exp));
     (u "session_open", JObj
       [(u "ephemeral_pub", JStr (to_hex ephemeral_pub));
        (u "bootstrap_nonce", JStr (to_hex bootstrap_nonce))])] in
  sig ← sign_envelope outer sender;
  mret (jset (u "signature") (JStr sig) outer).

(** [{**body, "sender_mailbox": ...}]. *)
Definition parse_session_open (envelope : json) (sender_pub : pybytes) (now : Z)
    : res (verdict json) :=
  if negb (jis_str SUPPORTED_PROTOCOL (jget_none (u "protocol") envelope))
  then mret (Rejected PROTOCOL_MISMATCH) else
  ok ← verify_envelope_signature envelope sender_pub;
  if negb ok then mret (Rejected BAD_SIGNATURE) else
  ex ← expired envelope now;
  if (ex : bool) then mret (Rejected EXPIRED) else
  match jget (u "session_open") envelope with
  | Some (JObj body) =>
      mret (Accepted (JObj (dict_set (u "sender_mailbox")
        (jget_none (u "sender_mailbox") envelope) body)))
  | _ => mret (Rejected AEAD_FAILURE)
  end.

Definition KEY_ROTATION_MSG_TYPE : pystr := u "key_rotation_notice".

Definition build_key_rotation_notice (old_sender : KindledIdentity)
    (new_identity_pub : pybytes) (new_key_id : pystr)
    (relay_mailbox recipient_key_id : json) (now ttl : Z) : res json :=
  exp ← dt_add now ttl;
  let outer := JObj
    [(u "protocol", JStr SUPPORTED_PROTOCOL);
     (u "message_type", JStr KEY_ROTATION_MSG_TYPE);
     (u "relay_mailbox", relay_mailbox);
     (u "sender_key_id", JStr (key_id old_sender));
     (u "recipient_key_id", recipient_key_id);
     (u "created_at", JStr (iso now));
     (u "expires_at", JStr (iso exp));
     (u "key_rotation", JObj
       [(u "new_identity_pub", JStr (to_hex new_identity_pub));
        (u "new_key_id", JStr new_key_id)])] in
  sig ← sign_envelope outer old_sender;
  mret (jset (u "signature") (JStr sig) outer).

(** On success, the new public key (hex) and the new key id. *)
Definition parse_key_rotation_notice (envelope : json) (sender_old_pub : pybytes) (now : Z)
    : res (verdict (pystr * pystr)) :=
  if negb (jis_str SUPPORTED_PROTOCOL (jget_none (u "protocol") envelope))
  then mret (Rejected PROTOCOL_MISMATCH) else
  if negb (jis_str KEY_ROTATION_MSG_TYPE (jget_none (u "message_type") envelope))
  then mret (Rejected PROTOCOL_MISMATCH) else
  ok ← verify_envelope_signature envelope sender_old_pub;
  if negb ok then mret (Rejected BAD_SIGNATURE) else
  ex ← expired envelope now;
  if (ex : bool) then mret (Rejected EXPIRED) else
  match jget (u "key_rotation") envelope with
  | Some (JObj body) =>
      match jget (u "new_identity_pub") (JObj body), jget (u "new_key_id") (JObj body) with
      | Some (JStr new_pub_hex), Some (JStr new_key_id) =>
          match from_hex new_pub_hex with
          | None => mret (Rejected AEAD_FAILURE)
          | Some new_pub_bytes =>
              if bool_decide (fingerprint new_pub_bytes = new_key_id)
              then mret (Accepted (new_pub_hex, new_key_id))
              else mret (Rejected AEAD_FAILURE)
          end
      | _, _ => mret (Rejected AEAD_FAILURE)
      end
  | _ => mret (Rejected AEAD_FAILURE)
  end.
End protocol.

(** ** Lemmas *)

Lemma dec_digits_length fuel n acc :
  (length (dec_digits fuel n acc) <= fuel + length acc)%nat.
Proof.
  revert n acc. induction fuel as [|fuel IH]; intros n acc; simpl; [lia|].
  case_match; simpl; [lia|]. etrans; [apply IH|]. simpl. lia.
Qed.

Lemma int_ok_log z : (N.log2 (Z.abs_N z) < 4300)%N -> int_ok z.
Proof.
  intros Hz. unfold int_ok, dec_N.
  pose proof (dec_digits_length (S (N.to_nat (N.log2 (Z.abs_N z)))) (Z.abs_N z) []) as H.
  cbn [length] in H. unfold max_int_digits. lia.
Qed.

Lemma int_ok_bound z : (Z.abs z < 2 ^ 88)%Z -> int_ok z.
Proof.
  intros Hz. apply int_ok_log. destruct (decide (Z.abs_N z = 0%N)) as [->|Hn]; [done|].
  apply N.log2_lt_pow2; [lia|]. etrans; [|apply (N.pow_lt_mono_r 2 88 4300); lia]. lia.
Qed.

Lemma canonical_ok v : json_ok v -> exists b, canonical v = Ok b /\ canonical_json v = Some b.
Proof. intros [b Hb]%canonical_json_some. exists b. unfold canonical. by rewrite Hb. Qed.

Lemma aead_nonce_ok role sequence :
  role = ROLE_INITIATOR \/ role = ROLE_RESPONDER -> (0 <= sequence < 2 ^ 88)%Z ->
  exists n, aead_nonce role sequence = Ok n.
Proof.
  intros Hr Hs. unfold aead_nonce.
  assert ((role =? ROLE_INITIATOR)%Z || (role =? ROLE_RESPONDER)%Z = true) as ->
    by (unfold ROLE_INITIATOR, ROLE_RESPONDER in *; lia).
  assert ((sequence <? 0)%Z || (2 ^ 88 <=? sequence)%Z = false) as -> by lia.
  simpl. eauto.
Qed.

Lemma aead_nonce_range role sequence n :
  aead_nonce role sequence = Ok n ->
  (0 <= sequence < 2 ^ 88 /\ (role = 0 \/ role = 1))%Z /\
  n = Z.to_N role :: be_bytes 11 (Z.to_N sequence).
Proof.
  unfold aead_nonce, ROLE_INITIATOR, ROLE_RESPONDER. intros H.
  destruct (negb _) eqn:E1; [done|]. destruct ((_ <? _)%Z || _) eqn:E2; [done|].
  simplify_eq. split; [lia|done].
Qed.

(** Two accepted (role, sequence) pairs never share a nonce. *)
Lemma aead_nonce_injective r1 s1 r2 s2 n :
  aead_nonce r1 s1 = Ok n -> aead_nonce r2 s2 = Ok n -> r1 = r2 /\ s1 = s2.
Proof.
  intros ([Hs1 Hr1] & ->)%aead_nonce_range ([Hs2 Hr2] & Heq)%aead_nonce_range.
  apply (f_equal tail)  in Heq as Hs. apply (f_equal head) in Heq as Hr.
  cbn [head tail] in Hs, Hr. injection Hr as Hr. apply be_bytes_inj in Hs; [|simpl; lia..]. lia.
Qed.

Lemma aead_nonce_length r s n : aead_nonce r s = Ok n -> length n = 12%nat.
Proof. intros [_ ->]%aead_nonce_range. cbn [length]. by rewrite be_bytes_length. Qed.

Arguments loads : simpl never.

Section lemmas.
Context `{PyLib, CL : CryptoLaws}.

Lemma sign_envelope_ok outer idn :
  json_ok (without outer SIG_EXCLUDE) ->
  exists sig b, sign_envelope outer idn = Ok sig /\ sig_input_bytes outer = Ok b /\
    sig = to_hex (sign idn b).
Proof.
  intros (b & Hb & _)%canonical_ok. unfold sign_envelope, sig_input_bytes. rewrite Hb. simpl. eauto.
Qed.

(** A signed envelope verifies under the signer's public key. *)
Lemma verify_signed sig idn b env :
  jget (u "signature") env = Some (JStr sig) ->
  sig = to_hex (sign idn b) -> sig_input_bytes env = Ok b ->
  verify_envelope_signature env (public_bytes idn) = Ok true.
Proof.
  intros Hget -> Hb. unfold verify_envelope_signature. rewrite Hget.
  rewrite from_hex_to_hex by apply ed_sign_bytes. rewrite Hb. simpl.
  unfold verify, public_bytes, sign. by rewrite ed_correct.
Qed.

Lemma encrypt_decrypt payload key role sequence aad :
  json_ok payload -> role = ROLE_INITIATOR \/ role = ROLE_RESPONDER ->
  (0 <= sequence < 2 ^ 88)%Z ->
  exists ct, encrypt_payload payload key role sequence aad = Ok ct /\
    str_ok ct /\
    decrypt_payload (JStr ct) key role sequence aad = Ok (jnorm true payload).
Proof.
  intros Hp Hr Hs. unfold encrypt_payload, decrypt_payload.
  destruct (aead_nonce_ok role sequence Hr Hs) as [n ->].
  destruct (canonical_ok payload Hp) as (pt & Hpt & Hcj). rewrite Hpt. simpl.
  eexists. split; [done|]. split.
  { unfold to_hex, str_ok. apply Forall_concat, Forall_map, Forall_forall. intros x Hx.
    pose proof (proj1 (Forall_forall _ _) (aead_bytes key n pt aad) x Hx). unfold byte_ok in *.
    unfold hex_byte. forall_list; apply hex_digit_ok; lia. }
  rewrite from_hex_to_hex by apply aead_bytes. simpl.
  rewrite aead_correct by (by eapply utf8_encode_bytes). simpl.
  pose proof (canonical_json_parse payload pt Hp Hcj) as Hparse.
  destruct (utf8_decode pt) as [s|]; [|done]. simpl in *. by rewrite Hparse.
Qed.

Lemma dt_add_ok t d : dt_ok (t + d) -> dt_add t d = Ok (t + d)%Z.
Proof.
  unfold dt_ok, dt_add. intros.
  by rewrite (proj2 (Z.leb_le _ _)), (proj2 (Z.ltb_lt _ _)) by lia.
Qed.

Lemma expired_false env t now :
  jget (u "expires_at") env = Some (JStr (iso t)) -> dt_ok t -> dt_ok (t / sec * sec + SKEW) ->
  (now <= t / sec * sec + SKEW)%Z -> expired env now = Ok false.
Proof.
  intros Hget Ht Hs Hnow. unfold expired, iso in *. rewrite Hget, strptime_iso_z by done.
  rewrite dt_add_ok by done. simpl. unfold mret, res_ret. f_equal. lia.
Qed.

Lemma iso_ok t : str_ok (iso_z t).
Proof.
  unfold iso_z. destruct (dt_fields t) as [[[y m] d] [[[h mi] s] us]].
  unfold pad4, pad2, str_ok. cbn [app].
  forall_list; apply ascii_ok; unfold dig; lia.
Qed.

Lemma to_hex_ok b : Forall byte_ok b -> str_ok (to_hex b).
Proof.
  unfold to_hex, str_ok, byte_ok. intros Hb. apply Forall_concat, Forall_map.
  eapply Forall_impl; [exact Hb|]. intros x Hx. simpl in Hx.
  unfold hex_byte. forall_list; apply hex_digit_ok; lia.
Qed.

Lemma sha256_bytes m : Forall byte_ok (sha256 m).
Proof.
  unfold sha256. apply Forall_concat, Forall_map, Forall_forall. intros. apply be_bytes_ok.
Qed.

Lemma fingerprint_ok b : str_ok (fingerprint b).
Proof.
  unfold fingerprint, str_ok. apply Forall_app_2; [by apply u_str_ok|].
  apply Forall_take, to_hex_ok, sha256_bytes.
Qed.

Lemma jis_str_refl s : jis_str s (JStr s) = true.
Proof. simpl. by apply bool_decide_eq_true_2. Qed.

(** The outer fields of an envelope, as [build_envelope] lays them out. *)
Definition outer_ok (recipient_key_id relay_mailbox session_id : json) (sequence : Z) : Prop :=
  json_ok recipient_key_id /\ json_ok relay_mailbox /\ json_ok session_id /\
  (0 <= sequence < 2 ^ 88)%Z.

End lemmas.

Lemma json_ok_obj kvs :
  json_ok (JObj kvs) <-> NoDup (map fst kvs) /\ Forall (fun kv => str_ok kv.1 /\ json_ok kv.2) kvs.
Proof. cbn [json_ok]. by rewrite fold_right_and. Qed.

Ltac nodup_keys := cbn [map fst]; apply (bool_decide_eq_true_1 _); vm_compute; reflexivity.

Ltac json_fields :=
  apply json_ok_obj; split; [nodup_keys|];
  forall_list; (split; [by apply u_str_ok|]); cbn [snd];
  first [ done | apply iso_ok | apply fingerprint_ok | by apply u_str_ok | idtac ].

Section envelopes.
Context `{PyLib, CL : CryptoLaws}.

Lemma build_envelope_ok payload sender recipient_key_id relay_mailbox session_id
    sequence role session_key now ttl :
  json_ok payload -> outer_ok recipient_key_id relay_mailbox session_id sequence ->
  role = ROLE_INITIATOR \/ role = ROLE_RESPONDER -> dt_ok (now + ttl) ->
  exists env ct sig b aad,
    build_envelope payload sender recipient_key_id relay_mailbox session_id sequence role
      session_key now ttl = Ok env /\
    jget (u "protocol") env = Some (JStr SUPPORTED_PROTOCOL) /\
    jget (u "recipient_key_id") env = Some recipient_key_id /\
    jget (u "sequence") env = Some (JInt sequence) /\
    jget (u "expires_at") env = Some (JStr (iso (now + ttl))) /\
    jget (u "ciphertext") env = Some (JStr ct) /\
    jget (u "signature") env = Some (JStr sig) /\
    sig = to_hex (sign sender b) /\ sig_input_bytes env = Ok b /\
    aad_bytes env = Ok aad /\
    decrypt_payload (JStr ct) session_key role sequence aad = Ok (jnorm true payload).
Proof.
  intros Hp (Hr & Hm & Hs & Hseq) Hrole Ht. unfold build_envelope. rewrite dt_add_ok by done.
  cbn [mbind res_bind].
  set (outer := JObj _).
  assert (json_ok (without outer AAD_EXCLUDE)) as Hok.
  { change (without outer AAD_EXCLUDE) with outer. json_fields. apply int_ok_bound. lia. }
  destruct (canonical_ok _ Hok) as (aad & Haad & _). unfold aad_bytes.
  rewrite Haad. cbn [mbind res_bind].
  destruct (encrypt_decrypt payload session_key role sequence aad Hp Hrole Hseq)
    as (ct & -> & Hct & Hdec). cbn [mbind res_bind].
  set (outer' := jset _ _ outer).
  assert (json_ok (without outer' SIG_EXCLUDE)) as Hok'.
  { change (without outer' SIG_EXCLUDE) with outer'. unfold outer', outer.
    cbn [jset dict_set]. rewrite !bool_decide_eq_false_2 by done.
    json_fields. apply int_ok_bound. lia. }
  destruct (sign_envelope_ok outer' sender Hok') as (sig & b & -> & Hb & ->).
  cbn [mbind res_bind]. eexists _, ct, _, b, aad. split; [done|].
  split_and!; try done.
Qed.

(** C39: Round trip: an envelope built for a recipient (signed, encrypted, with any
    payload that serialises) opens there, to the payload that was sent with its
    dicts in key order, when its sequence is fresh and the clock has not passed
    the expiry. *)
Theorem verify_and_open_build payload sender recipient relay_mailbox session_id sequence role
    session_key seq_high_water now ttl now' :
  json_ok payload ->
  outer_ok (JStr (key_id recipient)) relay_mailbox session_id sequence ->
  role = ROLE_INITIATOR \/ role = ROLE_RESPONDER ->
  dt_ok (now + ttl) -> dt_ok ((now + ttl) / sec * sec + SKEW) ->
  (seq_high_water < sequence)%Z -> (now' <= (now + ttl) / sec * sec + SKEW)%Z ->
  exists env,
    build_envelope payload sender (JStr (key_id recipient)) relay_mailbox session_id sequence
      role session_key now ttl = Ok env /\
    verify_and_open env recipient (public_bytes sender) session_key role seq_high_water now'
      = Ok (Accepted (jnorm true payload)).
Proof.
  intros Hp Ho Hrole Ht Hsk Hseq Hnow.
  destruct (build_envelope_ok payload sender _ relay_mailbox session_id sequence role
    session_key now ttl Hp Ho Hrole Ht)
    as (env & ct & sig & b & aad & Henv & Hproto & Hrec & Hsq & Hexp & Hct & Hsig & Hsb & Hb & Haad & Hdec).
  exists env. split; [done|]. unfold verify_and_open, jget_none, read_sequence, jindex.
  rewrite Hproto, Hrec, Hsq, Hct. cbn [default]. rewrite !jis_str_refl. cbn [negb].
  rewrite (verify_signed sig sender b env Hsig Hsb Hb). cbn -[Z.leb].
  rewrite (proj2 (Z.leb_gt _ _) Hseq).
  rewrite (expired_false env (now + ttl) now' Hexp Ht Hsk Hnow). cbn [mbind res_bind].
  rewrite Haad. cbn. cbn in Hdec. by rewrite Hdec.
Qed.

(** What [verify_and_open] accepts passed every rule: it carries a signature
    of the sender over its bytes, is addressed to the recipient, is fresh, and
    its ciphertext is authentic under the session key and its sequence. *)
Lemma verify_and_open_accepted env recipient sender_pub key role hw now p :
  verify_and_open env recipient sender_pub key role hw now = Ok (Accepted p) ->
  exists sig sigb b seq aad ct n pt,
    jget (u "signature") env = Some (JStr sig) /\ from_hex sig = Some sigb /\
    sig_input_bytes env = Ok b /\ verify sender_pub sigb b = true /\
    jget (u "recipient_key_id") env = Some (JStr (key_id recipient)) /\
    (v ← jindex (u "sequence") env; py_int v) = Ok seq /\ (hw < seq)%Z /\
    expired env now = Ok false /\
    aad_bytes env = Ok aad /\ aead_nonce role seq = Ok n /\
    (v ← jindex (u "ciphertext") env; fromhex v) = Ok ct /\
    aead_dec key n ct aad = Some pt /\ (s ← utf8_decode pt; loads s) = Some p.
Proof.
  unfold verify_and_open. intros Hvo. destruct (negb (jis_str SUPPORTED_PROTOCOL _)); [done|].
  unfold verify_envelope_signature in Hvo.
  destruct (jget (u "signature") env) as [[]|] eqn:Hsig; try done.
  destruct (from_hex s) as [sigb|] eqn:Hs; [|done].
  destruct (sig_input_bytes env) as [b|] eqn:Hb; [|done]. cbn in Hvo.
  destruct (verify sender_pub sigb b) eqn:Hv; [|done]. cbn in Hvo.
  destruct (jis_str (key_id recipient) _) eqn:Hrec; [|done]. cbn in Hvo.
  destruct (read_sequence env) as [[seq|]|] eqn:Hseq; [|done..]. cbn in Hvo.
  destruct (seq <=? hw)%Z eqn:Hle; [done|].
  destruct (expired env now) as [[]|] eqn:Hex; [done| |done]. cbn in Hvo.
  destruct (aad_bytes env) as [aad|] eqn:Haad; [|cbn in Hvo; by destruct (is_Exception e)]. cbn in Hvo.
  destruct (jindex (u "ciphertext") env) as [ctj|] eqn:Hct; [|cbn in Hvo; by destruct (is_Exception e)].
  cbn in Hvo. unfold decrypt_payload in Hvo.
  destruct (aead_nonce role seq) as [n|] eqn:Hn; [|cbn in Hvo; by destruct (is_Exception e)]. cbn in Hvo.
  destruct (fromhex ctj) as [ct|] eqn:Hfx; [|cbn in Hvo; by destruct (is_Exception e)]. cbn in Hvo.
  destruct (aead_dec key n ct aad) as [pt|] eqn:Hdec; [|by cbn in Hvo]. cbn in Hvo.
  destruct (utf8_decode pt) as [ps|] eqn:Hps; [|by cbn in Hvo]. cbn in Hvo.
  destruct (loads ps) as [p'|] eqn:Hl; [|by cbn in Hvo]. cbn in Hvo. unfold mret, res_ret in Hvo. simplify_eq.
  exists s, sigb, b, seq, aad, ct, n, pt. split_and!; try done.
  - unfold jget_none in Hrec. destruct (jget (u "recipient_key_id") env) as [[]|]; try done.
    simpl in Hrec. apply bool_decide_eq_true in Hrec. by rewrite Hrec.
  - unfold read_sequence in Hseq.
    destruct (v ← jindex (u "sequence") env; py_int v); [by simplify_eq|].
    by destruct (_ || _).
  - lia.
  - rewrite Hps. exact Hl.
Qed.

(** ** Session keys *)
Lemma sorted2_comm a b : sorted2 a b = sorted2 b a.
Proof.
  unfold sorted2. destruct (str_ltb b a) eqn:E1, (str_ltb a b) eqn:E2; try done.
  - pose proof (str_ltb_trans _ _ _ E1 E2). by rewrite str_ltb_irrefl in *.
  - by rewrite (str_ltb_total a b).
Qed.

(** Both ends derive the same key, whichever of them initiated. *)
Lemma derive_session_key_comm ka kb fa fb sid nonce :
  derive_session_key ka (x_pub kb) fa fb sid nonce
  = derive_session_key kb (x_pub ka) fb fa sid nonce.
Proof. unfold derive_session_key. by rewrite x_dh_comm, sorted2_comm. Qed.

Lemma build_session_open_ok sender recipient_key_id relay_mailbox session_id eph nonce
    sender_mailbox now ttl :
  json_ok recipient_key_id -> json_ok relay_mailbox -> json_ok session_id ->
  json_ok sender_mailbox -> Forall byte_ok eph -> Forall byte_ok nonce -> dt_ok (now + ttl) ->
  exists env sig b,
    build_session_open sender recipient_key_id relay_mailbox session_id eph nonce
      sender_mailbox now ttl = Ok env /\
    jget (u "protocol") env = Some (JStr SUPPORTED_PROTOCOL) /\
    jget (u "sender_key_id") env = Some (JStr (key_id sender)) /\
    jget (u "session_id") env = Some session_id /\
    jget (u "expires_at") env = Some (JStr (iso (now + ttl))) /\
    jget (u "sender_mailbox") env = Some sender_mailbox /\
    jget (u "session_open") env = Some (JObj
       [(u "ephemeral_pub", JStr (to_hex eph)); (u "bootstrap_nonce", JStr (to_hex nonce))]) /\
    jget (u "signature") env = Some (JStr sig) /\
    sig = to_hex (sign sender b) /\ sig_input_bytes env = Ok b.
Proof.
  intros Hr Hm Hs Hsm He Hn Ht. unfold build_session_open. rewrite dt_add_ok by done.
  cbn [mbind res_bind]. set (outer := JObj _).
  assert (json_ok (without outer SIG_EXCLUDE)) as Hok.
  { change (without outer SIG_EXCLUDE) with outer. json_fields.
    json_fields; by apply to_hex_ok. }
  destruct (sign_envelope_ok outer sender Hok) as (sig & b & -> & Hb & ->).
  cbn [mbind res_bind]. eexists _, _, b. split; [done|]. by split_and!.
Qed.

(** A handshake leg parses back, at any time before its expiry. *)
Lemma parse_session_open_build sender recipient_key_id relay_mailbox session_id eph nonce
    sender_mailbox now ttl now' :
  json_ok recipient_key_id -> json_ok relay_mailbox -> json_ok session_id ->
  json_ok sender_mailbox -> Forall byte_ok eph -> Forall byte_ok nonce ->
  dt_ok (now + ttl) -> dt_ok ((now + ttl) / sec * sec + SKEW) ->
  (now' <= (now + ttl) / sec * sec + SKEW)%Z ->
  exists env,
    build_session_open sender recipient_key_id relay_mailbox session_id eph nonce
      sender_mailbox now ttl = Ok env /\
    jget (u "sender_key_id") env = Some (JStr (key_id sender)) /\
    jget (u "session_id") env = Some session_id /\
    parse_session_open env (public_bytes sender) now' = Ok (Accepted (JObj
      [(u "ephemeral_pub", JStr (to_hex eph)); (u "bootstrap_nonce", JStr (to_hex nonce));
       (u "sender_mailbox", sender_mailbox)])).
Proof.
  intros Hr Hm Hs Hsm He Hn Ht Hsk Hnow.
  destruct (build_session_open_ok sender recipient_key_id relay_mailbox session_id eph nonce
    sender_mailbox now ttl) as (env & sig & b & Henv & Hp & Hk & Hsid & Hexp & Hmb & Hso & Hsig & Hsb & Hb);
    [done..|].
  exists env. split_and!; [done..|].
  unfold parse_session_open, jget_none. rewrite Hp, Hso, Hmb. cbn [default].
  rewrite jis_str_refl. cbn [negb]. rewrite (verify_signed sig sender b env Hsig Hsb Hb).
  cbn [mbind res_bind negb]. by rewrite (expired_false env (now + ttl) now' Hexp Ht Hsk Hnow).
Qed.

(** An accepted handshake leg carries the sender's signature. *)
Lemma parse_session_open_accepted env pub now p :
  parse_session_open env pub now = Ok (Accepted p) ->
  verify_envelope_signature env pub = Ok true /\ expired env now = Ok false /\
  exists body, jget (u "session_open") env = Some (JObj body) /\
    p = JObj (dict_set (u "sender_mailbox") (jget_none (u "sender_mailbox") env) body).
Proof.
  unfold parse_session_open. intros Hvo. destruct (negb (jis_str _ _)); [done|].
  destruct (verify_envelope_signature env pub) as [[]|] eqn:Hv; try done. cbn in Hvo.
  destruct (expired env now) as [[]|] eqn:Hex; try done. cbn in Hvo.
  destruct (jget (u "session_open") env) as [[]|]; try done. cbn in Hvo. unfold mret, res_ret in Hvo. simplify_eq.
  split_and!; try done. eauto.
Qed.

(** An accepted rotation notice names the fingerprint of the key it carries and
    is signed by the old key. *)
Lemma parse_key_rotation_accepted env pub now hex kid :
  parse_key_rotation_notice env pub now = Ok (Accepted (hex, kid)) ->
  verify_envelope_signature env pub = Ok true /\ expired env now = Ok false /\
  exists b, from_hex hex = Some b /\ kid = fingerprint b.
Proof.
  unfold parse_key_rotation_notice. intros Hvo. destruct (negb (jis_str _ _)); [done|].
  destruct (negb (jis_str _ _)); [done|].
  destruct (verify_envelope_signature env pub) as [[]|] eqn:Hv; try done. cbn in Hvo.
  destruct (expired env now) as [[]|] eqn:Hex; try done. cbn -[jget] in Hvo.
  destruct (jget (u "key_rotation") env) as [[]|]; try done.
  cbn [jget] in Hvo. destruct (dict_get (u "new_identity_pub") _) as [[]|]; try done.
  destruct (dict_get (u "new_key_id") _) as [[]|]; try done.
  destruct (from_hex s) as [b|] eqn:Hb; [|done]. case_bool_decide; [|done].
  cbn in Hvo. unfold mret, res_ret in Hvo. simplify_eq. split_and!; try done. eauto.
Qed.
End envelopes.

(** The sequence number an envelope was built for is on it. *)
Lemma build_envelope_sequence `{Crypto} payload sender rk rm sid seq role key now ttl env :
  build_envelope payload sender rk rm sid seq role key now ttl = Ok env ->
  jget (u "sequence") env = Some (JInt seq).
Proof.
  unfold build_envelope. destruct (dt_add now ttl) as [exp|]; [|done]. cbn [mbind res_bind].
  destruct (aad_bytes _) as [aad|]; [|done]. cbn [mbind res_bind].
  destruct (encrypt_payload _ _ _ _ _) as [ct|]; [|done]. cbn [mbind res_bind].
  destruct (sign_envelope _ _) as [sg|]; [|done]. cbn [mbind res_bind]. unfold mret, res_ret.
  intros Henv. injection Henv as <-. reflexivity.
Qed.

(** ** Properties *)

(** Under one session key no nonce serves twice: the nonce determines the role
    of the sender and the sequence number, it is 12 bytes long, and it exists for
    every sequence number the store can hand out. *)
Theorem nonce_determines_message (r1 s1 r2 s2 : Z) (n : pybytes) :
  aead_nonce r1 s1 = Ok n -> aead_nonce r2 s2 = Ok n ->
  (r1 = r2 /\ s1 = s2) /\ length n = 12%nat /\
  forall r s, r = ROLE_INITIATOR \/ r = ROLE_RESPONDER -> (0 <= s < 2 ^ 63)%Z -> exists m, aead_nonce r s = Ok m.
Proof.
  intros H1 H2. split; [by eapply aead_nonce_injective|]. split; [by eapply aead_nonce_length|].
  intros r s Hr Hs. apply aead_nonce_ok; [done|]. lia.
Qed.

(** ** Witnesses *)
Section protocol_witnesses.
#[local] Existing Instance ascii_pylib.
#[local] Existing Instance toy_crypto.
#[local] Existing Instance toy_crypto_laws.

Lemma nonce_determines_message_witness : aead_nonce 0 7 = Ok (0%N :: be_bytes 11 7) /\ length (0%N :: be_bytes 11 7) = 12%nat.
Proof.
  split; [vm_compute; reflexivity|].
  apply (nonce_determines_message 0 7 0 7); vm_compute; reflexivity.
Defined.

Lemma verify_and_open_build_witness :
  let payload := JObj [(u "text", JStr (u "hi"))] in
  exists env,
    build_envelope payload {| priv := [1%N] |} (JStr (key_id {| priv := [2%N] |})) (JStr (u "m")) (JStr (u "s1")) 1
      ROLE_INITIATOR [9%N] day day = Ok env /\
    verify_and_open env {| priv := [2%N] |} (public_bytes {| priv := [1%N] |}) [9%N] ROLE_INITIATOR 0 day
      = Ok (Accepted (jnorm true payload)).
Proof.
  apply (verify_and_open_build (JObj [(u "text", JStr (u "hi"))]) {| priv := [1%N] |} {| priv := [2%N] |}).
  - json_fields.
  - split_and!; [apply fingerprint_ok|by apply u_str_ok|by apply u_str_ok|lia|lia].
  - by left.
  - vm_compute. split; [discriminate|reflexivity].
  - vm_compute. split; [discriminate|reflexivity].
  - lia.
  - vm_compute. discriminate.
Defined.
End protocol_witnesses.
