(* ===== verification/ConnectCode.v ===== *)
(** [brain/kindled_link/connect_code.py]: the pasteable form of a signed invite,
    with [base64] as the Standard Library encodes and (leniently) decodes it.
    The theorem: decoding the code of an invite gives the invite back. *)
From S2P Require Import Prelude PyFloat PyTime Json Crypto Protocol.

#[local] Ltac Zify.zify_post_hook ::= Z.to_euclidean_division_equations.

(** ** Base64, URL-safe alphabet *)
Definition b64_char (n : N) : N :=
  (if n <? 26 then 65 + n else if n <? 52 then 71 + n else if n <? 62 then n - 4
   else if n =? 62 then 45 else 95)%N.

(** The value of a character; both [+/] and [-_] count, as the translation of
    [urlsafe_b64decode] leaves the standard characters alone. *)
Definition b64_val (c : N) : option N :=
  (if (65 <=? c) && (c <=? 90) then Some (c - 65)
   else if (97 <=? c) && (c <=? 122) then Some (c - 71)
   else if (48 <=? c) && (c <=? 57) then Some (c + 4)
   else if (c =? 45) || (c =? 43) then Some 62
   else if (c =? 95) || (c =? 47) then Some 63 else None)%N.

(** [base64.urlsafe_b64encode]. *)
Fixpoint b64_encode (b : pybytes) : pystr :=
  match b with
  | [] => []
  | [x] => [b64_char (x / 4); b64_char (x mod 4 * 16); 61; 61]%N
  | [x; y] => [b64_char (x / 4); b64_char (x mod 4 * 16 + y / 16); b64_char (y mod 16 * 4); 61]%N
  | x :: y :: z :: r =>
      b64_char (x / 4) :: b64_char (x mod 4 * 16 + y / 16)
      :: b64_char (y mod 16 * 4 + z / 64) :: b64_char (z mod 64) :: b64_encode r
  end%N.

(** [binascii.a2b_base64], not strict: characters outside the alphabet are
    skipped, enough padding ends the input, a truncated group is an error. *)
Fixpoint a2b (s : pystr) (quad_pos left pads : N) : option pybytes :=
  match s with
  | [] => if (quad_pos =? 0)%N then Some [] else None
  | c :: s' =>
      if (c =? 61)%N then
        if (2 <=? quad_pos)%N then
          if (4 <=? quad_pos + (pads + 1))%N then Some [] else a2b s' quad_pos left (pads + 1)
        else a2b s' quad_pos left pads
      else match b64_val c with
      | None => a2b s' quad_pos left pads
      | Some v =>
          if (quad_pos =? 0)%N then a2b s' 1 v 0
          else if (quad_pos =? 1)%N then
            r ← a2b s' 2 (v mod 16) 0; Some ((left * 4 + v / 16)%N :: r)
          else if (quad_pos =? 2)%N then
            r ← a2b s' 3 (v mod 4) 0; Some ((left * 16 + v / 4)%N :: r)
          else r ← a2b s' 0 0 0; Some ((left * 64 + v)%N :: r)
      end
  end.

Definition b64_decode (s : pystr) : option pybytes := a2b s 0 0 0.

(** ** JSON from bytes *)

(** Reads the texts that are not plain UTF-8: a byte order mark, UTF-16 or
    UTF-32, encoded surrogates. *)
Class JsonBytes := { text_other : pybytes -> option pystr }.

Definition plain_utf8 (b : pybytes) : bool :=
  match b with
  | b0 :: b1 :: _ =>
      negb (b0 =? 0)%N && negb (b1 =? 0)%N && negb ((b0 =? 239) && (b1 =? 187))%N
      && negb ((b0 =? 254) && (b1 =? 255))%N && negb ((b0 =? 255) && (b1 =? 254))%N
  | _ => true
  end.

Definition loads_bytes `{JsonBytes} (b : pybytes) : option json :=
  s ← first_some (if plain_utf8 b then utf8_decode b else None) (text_other b); loads s.

(** ** The codec *)
Section code.
Context `{PyLib, JsonBytes}.

Definition PREFIX : pystr := u "kindled1:".
Definition MAX_CODE_LEN : nat := N.to_nat 8192.

Definition encode_code (invite : json) : res pystr :=
  raw ← canonical invite;
  mret (PREFIX ++ b64_encode raw).

(** [s.encode("ascii")]. *)
Definition ascii_only (s : pystr) : bool := forallb (fun c => (c <? 128)%N) s.

Definition decode_code (code : json) : res json :=
  match code with
  | JStr code =>
      if negb (starts_with PREFIX code) then Err (ConnectCodeError (u "missing kindled1: prefix"))
      else if (MAX_CODE_LEN <? length code)%nat
      then Err (ConnectCodeError (u "connect-code too large"))
      else
        let b64 := strip (drop (length PREFIX) code) in
        match (if ascii_only b64 then raw ← b64_decode b64; loads_bytes raw else None) with
        | None => Err (ConnectCodeError (u "malformed connect-code"))
        | Some payload =>
            if is_obj payload then Ok payload
            else Err (ConnectCodeError (u "connect-code payload is not an object"))
        end
  | _ => Err (ConnectCodeError (u "missing kindled1: prefix"))
  end.
End code.

(** ** Round trip *)
Lemma below64 (P : N -> bool) :
  forallb P (map N.of_nat (seq 0 64)) = true -> forall n, (n < 64)%N -> P n = true.
Proof.
  rewrite forallb_forall. intros HP n Hn. apply HP. apply in_map_iff.
  exists (N.to_nat n). split; [lia|]. apply in_seq. lia.
Qed.

Lemma b64_val_char n : (n < 64)%N -> b64_val (b64_char n) = Some n.
Proof.
  intros Hn. apply (bool_decide_eq_true_1 _).
  revert n Hn. apply (below64 (fun n => bool_decide (b64_val (b64_char n) = Some n))).
  vm_compute. reflexivity.
Qed.

Lemma b64_char_bound n : (n < 64)%N -> (b64_char n < 128 /\ b64_char n <> 61 /\ 45 <= b64_char n)%N.
Proof.
  intros Hn. unfold b64_char.
  repeat match goal with
  | |- context [(n <? ?k)%N] => destruct (N.ltb_spec n k)
  | |- context [(n =? ?k)%N] => destruct (N.eqb_spec n k)
  end; lia.
Qed.

Lemma a2b_char n s q l p : (n < 64)%N ->
  a2b (b64_char n :: s) q l p =
  if (q =? 0)%N then a2b s 1 n 0
  else if (q =? 1)%N then r ← a2b s 2 (n mod 16) 0; Some ((l * 4 + n / 16)%N :: r)
  else if (q =? 2)%N then r ← a2b s 3 (n mod 4) 0; Some ((l * 16 + n / 4)%N :: r)
  else r ← a2b s 0 0 0; Some ((l * 64 + n)%N :: r).
Proof.
  intros Hn. cbn [a2b]. destruct (b64_char_bound n Hn) as (_ & Hne & _).
  by rewrite (proj2 (N.eqb_neq _ _) Hne), b64_val_char.
Qed.

Lemma b64_decode_encode b : Forall byte_ok b -> b64_decode (b64_encode b) = Some b.
Proof.
  unfold b64_decode, byte_ok. induction b as [b IH] using (well_founded_induction
    (well_founded_ltof _ (@length N))). intros Hb.
  destruct b as [|x [|y [|z r]]]; [done| | |];
    repeat match goal with H : Forall _ (_ :: _) |- _ => inversion H; clear H; subst end;
    cbn [b64_encode].
  - rewrite !a2b_char by lia. cbn -[N.mul N.div N.modulo]. nbool. cbn -[N.mul N.div N.modulo]. f_equal. f_equal. lia.
  - rewrite !a2b_char by lia. cbn -[N.mul N.div N.modulo]. nbool. cbn -[N.mul N.div N.modulo]. f_equal. f_equal; [lia|f_equal; lia].
  - rewrite !a2b_char by lia. cbn -[N.mul N.div N.modulo a2b].
    rewrite IH by (done || (unfold ltof; simpl; lia)). cbn -[N.mul N.div N.modulo].
    f_equal. f_equal; [lia|f_equal; [lia|f_equal; lia]].
Qed.

Lemma b64_encode_chars b : Forall byte_ok b ->
  Forall (fun c => c < 128 /\ 45 <= c)%N (b64_encode b).
Proof.
  unfold byte_ok. induction b as [b IH] using (well_founded_induction
    (well_founded_ltof _ (@length N))). intros Hb.
  destruct b as [|x [|y [|z r]]]; [constructor| | |];
    repeat match goal with H : Forall _ (_ :: _) |- _ => inversion H; clear H; subst end;
    cbn [b64_encode]; forall_list; try lia;
    try (match goal with |- context [b64_char ?n] =>
      pose proof (b64_char_bound n ltac:(lia)); lia end).
  apply IH; [unfold ltof; simpl; lia|done].
Qed.

Lemma lstrip_by_id p s :
  match s with c :: _ => p c = false | [] => True end -> lstrip_by p s = s.
Proof. destruct s; simpl; [done|]. by intros ->. Qed.

Lemma strip_by_id p s : Forall (fun c => p c = false) s -> strip_by p s = s.
Proof.
  intros Hs. unfold strip_by. rewrite (lstrip_by_id p s).
  - rewrite lstrip_by_id; [apply rev_involutive|]. apply List.Forall_rev in Hs. by destruct Hs.
  - by destruct Hs.
Qed.

(** Round trip of the connect code: the code of an invite decodes to the invite
    (its dicts in key order), when it is not over the length limit. *)
Theorem decode_encode_code `{PyLib, JsonBytes} kvs code :
  json_ok (JObj kvs) -> encode_code (JObj kvs) = Ok code ->
  (length code <= MAX_CODE_LEN)%nat -> decode_code (JStr code) = Ok (jnorm true (JObj kvs)).
Proof.
  intros Hok Hcode Hlen. unfold encode_code in Hcode.
  destruct (canonical_ok _ Hok) as (raw & Hraw & Hcj). rewrite Hraw in Hcode.
  change (Ok (PREFIX ++ b64_encode raw) = Ok code) in Hcode.
  assert (code = PREFIX ++ b64_encode raw) as -> by congruence. unfold decode_code.
  assert (starts_with PREFIX (PREFIX ++ b64_encode raw) = true) as ->
    by (apply starts_with_spec; eauto).
  rewrite (proj2 (Nat.ltb_ge _ _) Hlen). cbn [negb]. rewrite drop_app_length.
  pose proof (utf8_encode_bytes _ _ Hcj) as Hbytes.
  pose proof (b64_encode_chars raw Hbytes) as Hch.
  assert (strip (b64_encode raw) = b64_encode raw) as ->.
  { apply strip_by_id. eapply Forall_impl; [exact Hch|]. intros c [H1 H2]. unfold is_space.
    rewrite (proj2 (N.ltb_lt _ _) H1). unfold is_ascii_space. nbool. cbn.
    destruct (N.eqb_spec c 32); [lia|done]. }
  assert (ascii_only (b64_encode raw) = true) as ->.
  { apply forallb_forall. intros c Hc%list_elem_of_In. rewrite Forall_forall in Hch.
    apply N.ltb_lt. by apply Hch. }
  rewrite b64_decode_encode by done. cbn [mbind option_bind]. unfold loads_bytes.
  pose proof (canonical_json_parse _ _ Hok Hcj) as Hparse.
  destruct (utf8_decode raw) as [s|] eqn:Hs; [|done].
  assert (plain_utf8 raw = true) as ->.
  { unfold canonical_json, canonical_text in Hcj. rewrite dumps_obj in Hcj.
    cbn [utf8_encode] in Hcj. change (utf8_char 123) with (Some [123%N]) in Hcj.
    cbn [mbind option_bind] in Hcj. destruct (py_join _ _) as [|c l] eqn:Hj.
    - cbn in Hcj. injection Hcj as <-. done.
    - assert (c = 34%N) as ->.
      { destruct (order_kvs true kvs) as [|kv [|]]; cbn in Hj; [done| |]; by injection Hj as <- _. }
      cbn [app utf8_encode] in Hcj. change (utf8_char 34) with (Some [34%N]) in Hcj.
      cbn [mbind option_bind] in Hcj. destruct (utf8_encode _); [|done].
      injection Hcj as <-. done. }
  cbn [first_some mbind option_bind]. cbn [mbind option_bind] in Hparse. by rewrite Hparse.
Qed.

(** ** Witness *)
Section code_witness.
#[local] Existing Instance ascii_pylib.
Definition utf8_only : JsonBytes := {| text_other _ := None |}.
#[local] Existing Instance utf8_only.

Definition demo_code : pystr :=
  match encode_code (JObj [(u "body", JObj [(u "a", JInt 1)])]) with Ok c => c | Err _ => [] end.

Lemma decode_encode_code_witness :
  decode_code (JStr demo_code) = Ok (jnorm true (JObj [(u "body", JObj [(u "a", JInt 1)])])).
Proof.
  apply decode_encode_code.
  - json_fields. json_fields.
  - vm_compute. reflexivity.
  - vm_compute. lia.
Defined.
End code_witness.
