(* ===== verification/PyRegex.v ===== *)
(** Building patterns of [Regex] the way Python's syntax does: character classes,
    literals with and without [re.I], white space, words, phrases, and a match at
    the start of the text with a negative look-ahead at its end. *)
From S2P Require Import Prelude PyTime Regex Json Crypto Protocol.

Definition in_class (ranges : list (N * N)) (c : N) : bool :=
  existsb (fun r => ((r.1 <=? c) && (c <=? r.2))%N) ranges.

Definition AZ : N * N := (65, 90)%N.
Definition az : N * N := (97, 122)%N.
Definition d09 : N * N := (48, 57)%N.
Definition ch (c : N) : N * N := (c, c).

Section patterns.
Context `{PyLib}.

(** [\w]. *)
Definition is_word (c : N) : bool :=
  if (c <? 128)%N then in_class [AZ; az; d09; ch 95] c else word_hi c.

(** A letter under [re.I]: both cases, and the non-ASCII characters Python folds
    onto i, k and s. *)
Definition ci (c : N) : regex :=
  Chr (fun x => (x =? c)%N || (x =? c - 32)%N
    || match c with
       | 105 => (x =? 304) || (x =? 305)
       | 107 => x =? 8490
       | 115 => x =? 383
       | _ => false
       end%N).

Fixpoint LitI (s : pystr) : regex :=
  match s with [] => Eps | c :: s => Seq (ci c) (LitI s) end.

Definition cls (ranges : list (N * N)) : regex := Chr (in_class ranges).
Definition wcls (ranges : list (N * N)) : regex := Chr (fun c => is_word c || in_class ranges c).
Definition nonspace : regex := Chr (fun c => negb (is_space c)).
Definition space : regex := Chr is_space.
Definition seqs : list regex -> regex := foldr Seq Eps.
Definition lits (l : list string) : regex := Alts (map (fun s => Lit (u s)) l).
Definition litsI (l : list regex) : regex := Alts l.

(** Words separated by white space. *)
Fixpoint phrase (ws : list regex) : regex :=
  match ws with [] => Eps | [w] => w | w :: ws => Seq w (Seq (Plus space) (phrase ws)) end.

(** [p.match(text)]: a match at the start. *)
Definition match_at_start (p : regex) (s : pystr) : bool := nonempty (ends is_word p (None, s)).

(** [p(?!q)], matched at the start. *)
Definition match_unless (p q : regex) (s : pystr) : bool :=
  existsb (fun st => negb (nonempty (ends is_word q st))) (ends is_word p (None, s)).
End patterns.
