(* ===== verification/PyVal.v ===== *)
(** Conversions of decoded JSON values the peer link applies to model output:
    [float(v)], [str(v)], slices and substring search on text. *)
From S2P Require Import Prelude PyFloat PyTime Json Crypto Protocol.
From Stdlib Require Import Floats.SpecFloat.

Section val.
Context `{PyLib}.

(** ** [float(s)] *)

(** Digits, single underscores only between them: value, count, rest. *)
Fixpoint digit_run (s : pystr) (prev : bool) (acc : Z) (n : nat) : option (Z * nat * pystr) :=
  match s with
  | c :: s' =>
      match digit_of c with
      | Some d => digit_run s' true (10 * acc + d) (S n)
      | None =>
          if (c =? 95)%N then
            if prev then
              match s' with
              | d :: _ => match digit_of d with
                          | Some _ => digit_run s' false acc n
                          | None => None
                          end
              | [] => None
              end
            else None
          else Some (acc, n, s)
      end
  | [] => Some (acc, n, [])
  end.

Definition lower_ascii (c : N) : N := if ((65 <=? c) && (c <=? 90))%N then (c + 32)%N else c.

Definition sign_of (s : pystr) : bool * pystr :=
  match s with
  | c :: s' => if (c =? 45)%N then (true, s') else if (c =? 43)%N then (false, s') else (false, s)
  | [] => (false, [])
  end.

Definition float_body (s : pystr) : option float :=
  let low := map lower_ascii s in
  if bool_decide (low = u "inf") || bool_decide (low = u "infinity") then Some (S754_infinity false)
  else if bool_decide (low = u "nan") then Some S754_nan
  else
    '(ip, ni, s) ← digit_run s false 0 0;
    '(m, nf, s) ← (match peel 46 s with
                   | Some s' => digit_run s' false ip 0
                   | None => Some (ip, 0%nat, s)
                   end);
    if (ni + nf =? 0)%nat then None else
    match s with
    | [] => Some (fdec m (- Z.of_nat nf))
    | e :: s =>
        if (e =? 101)%N || (e =? 69)%N then
          let '(neg, s) := sign_of s in
          '(x, nx, s) ← digit_run s false 0 0;
          if (nx =? 0)%nat then None else
          match s with
          | [] => Some (fdec m ((if neg then - x else x) - Z.of_nat nf))
          | _ => None
          end
        else None
    end.

Definition float_of_str (s : pystr) : option float :=
  let '(neg, s) := sign_of (strip s) in
  f ← float_body s; Some (if neg then SFopp f else f).

(** The largest magnitude [float(int)] accepts. *)
Definition float_of_int (z : Z) : res float :=
  match fofZ z with S754_infinity _ => Err OverflowError | f => Ok f end.

(** [float(v)]. *)
Definition py_float (v : json) : res float :=
  match v with
  | JFloat f => Ok f
  | JInt z => float_of_int z
  | JBool b => Ok (if b then f1 else f0)
  | JStr s => or_raise ValueError (float_of_str s)
  | JNull | JArr _ | JObj _ => Err TypeError
  end.

(** [str(v)]. *)
Definition py_str (v : json) : pystr :=
  match v with
  | JNull => u "None"
  | JBool b => if b then u "True" else u "False"
  | JInt z => dec_Z z
  | JFloat S754_nan => u "nan"
  | JFloat (S754_infinity s) => if s then u "-inf" else u "inf"
  | JFloat f => float_repr f
  | JStr s => s
  | JArr _ | JObj _ => container_repr (dumps_default v)
  end.

(** [max(0.0, min(1.0, f))]. *)
Definition clamp01 (f : float) : float := pymax f0 (pymin f1 f).

(** [s[s.index("{") : s.rindex("}") + 1]]. *)
Fixpoint index_of (c : N) (s : pystr) : option nat :=
  match s with
  | [] => None
  | x :: s' => if (x =? c)%N then Some 0%nat else S <$> index_of c s'
  end.

Definition rindex_of (c : N) (s : pystr) : option nat :=
  i ← index_of c (rev s); Some (length s - 1 - i)%nat.

Definition braces (raw : pystr) : res pystr :=
  start ← or_raise ValueError (index_of 123 raw);
  stop ← or_raise ValueError (rindex_of 125 raw);
  mret (drop start (take (stop + 1) raw)).

(** [json.loads(...)] as an exception. *)
Definition loads_res (s : pystr) : res json := or_raise JSONDecodeError (loads s).

(** [data.get(k, d)] on a decoded value: only dicts have [get]. *)
Definition get_or (k : pystr) (d : json) (v : json) : res json :=
  match v with JObj _ => Ok (default d (jget k v)) | _ => Err AttributeError end.
End val.

Lemma clamp01_range f : fle f0 (clamp01 f) = true /\ fle (clamp01 f) f1 = true.
Proof. by apply pyclamp_range. Qed.

Lemma clamp01_not_nan f : clamp01 f <> S754_nan.
Proof. destruct (clamp01_range f) as [H _]. by apply fle_not_nan_r in H. Qed.

(** ** Dict keys of any JSON type

    Python's equality on hashable values: text by text, numbers by value across
    [bool], [int] and [float]. *)
Definition float_int (f : float) : option Z :=
  match f with
  | S754_zero _ => Some 0%Z
  | S754_finite s m e =>
      let z := if (0 <=? e)%Z then Some (Zpos m * 2 ^ e)%Z
               else if (Zpos m mod 2 ^ (- e) =? 0)%Z then Some (Zpos m / 2 ^ (- e))%Z else None in
      option_map (fun z => if s then (- z)%Z else z) z
  | _ => None
  end.

Definition as_int (v : json) : option Z :=
  match v with JBool b => Some (if b then 1%Z else 0%Z) | JInt z => Some z | _ => None end.

Definition key_eq (a b : json) : bool :=
  match a, b with
  | JNull, JNull => true
  | JStr s, JStr t => bool_decide (s = t)
  | JFloat f, JFloat g => feq f g
  | JFloat f, v | v, JFloat f =>
      match as_int v with Some z => bool_decide (float_int f = Some z) | None => false end
  | _, _ => match as_int a, as_int b with Some x, Some y => (x =? y)%Z | _, _ => false end
  end.

Definition hashable (v : json) : bool := match v with JArr _ | JObj _ => false | _ => true end.

(** [d[k] = d.get(k, zero)] changed by [f], in insertion order. *)
Fixpoint dict_update {A} (k : json) (zero : A) (f : A -> A) (d : list (json * A)) : list (json * A) :=
  match d with
  | [] => [(k, f zero)]
  | (k', a) :: d' => if key_eq k k' then (k', f a) :: d' else (k', a) :: dict_update k zero f d'
  end.
