(* ===== verification/StateFile.v ===== *)
(** [brain/utils/atomic_write.py] and the whole-file part of
    [brain/health/json_io.py]: one JSON state file, its backups, quarantined
    copies, fallbacks and the temporaries of the saves.  Savers and readers are
    threads on one directory; every access to the directory is one step, any
    access may fail, any thread may be killed after any step.  A kill is of the
    process: what was written stays (power loss, and so [fsync], is not modelled;
    nor are file modes, nor the retry of a transient Windows error, which is
    part of an access here). *)
From S2P Require Import Prelude PyFloat PyTime Json Protocol.

(** ** The directory *)

(** The names of one state file [<name>]: itself, [.bak<i>], the two temporaries of
    a saver, [.corrupt-<stamp>], [.bak<i>.corrupt-<stamp>], and its fallbacks. *)
Inductive fname :=
| Live | Bak (i : nat) | Temp (t : nat) | TempBak (t : nat) | Quar (stamp : Z) (n : nat)
| BakQuar (i : nat) (stamp : Z) | Fallback (k : nat).

#[export] Instance fname_eq_dec : EqDecision fname.
Proof. solve_decision. Defined.
#[export] Instance fname_countable : Countable fname.
Proof.
  refine (inj_countable' (fun n => match n with
    | Live => (0, 0, 0%Z) | Bak i => (1, i, 0%Z) | Temp t => (2, t, 0%Z) | TempBak t => (3, t, 0%Z)
    | Quar z n => (4, n, z) | BakQuar i z => (5, i, z) | Fallback k => (6, k, 0%Z) end)
    (fun c => match c with
    | (0, _, _) => Live | (1, i, _) => Bak i | (2, t, _) => Temp t | (3, t, _) => TempBak t
    | (4, n, z) => Quar z n | (5, i, z) => BakQuar i z | (_, k, _) => Fallback k end) _); by intros [].
Defined.

Record file := { inode : nat; mtime : Z; bytes : pybytes }.

(** [stat_key]: inode, modification time and size. *)
Definition key : Type := nat * Z * nat.
Definition stat_key (f : file) : key := (inode f, mtime f, length (bytes f)).

Record dir := {
  entries : gmap fname file;
  inodes : nat;                 (* the next free inode *)
  heal_lock : option nat;       (* who holds <name>.heal.lock *)
  sidecar : bool;               (* <name>.heal.lock exists *)
}.

Definition set_entries x (d : dir) : dir :=
  {| entries := x; inodes := inodes d; heal_lock := heal_lock d; sidecar := sidecar d |}.
Definition set_lock x (d : dir) : dir :=
  {| entries := entries d; inodes := inodes d; heal_lock := x; sidecar := true |}.

(** Create or overwrite [n] as a new file. *)
Definition new_file (n : fname) (at_ : Z) (b : pybytes) (d : dir) : dir :=
  {| entries := <[n := {| inode := inodes d; mtime := at_; bytes := b |}]> (entries d); inodes := S (inodes d);
     heal_lock := heal_lock d; sidecar := sidecar d |}.

(** Write into the file at [n]. *)
Definition edit (n : fname) (g : file -> file) (d : dir) : dir :=
  match entries d !! n with Some f => set_entries (<[n := g f]> (entries d)) d | None => d end.

Definition append_to (at_ : Z) (chunk : pybytes) (f : file) : file :=
  {| inode := inode f; mtime := at_; bytes := bytes f ++ chunk |}.
Definition touch_as (m : Z) (f : file) : file := {| inode := inode f; mtime := m; bytes := bytes f |}.

Definition unlink (n : fname) (d : dir) : dir := set_entries (delete n (entries d)) d.

Inductive io_error := NotFound | OtherOS.

(** [os.replace]. *)
Definition replace (a b : fname) (d : dir) : dir + io_error :=
  match entries d !! a with
  | Some f => inl (set_entries (<[b := f]> (delete a (entries d))) d)
  | None => inr NotFound
  end.

(** What one step reads from outside. *)
Record readings := {
  now : Z;
  fault : bool;               (* this access fails: OSError *)
  accepts : nat;              (* how many bytes one write takes *)
  stale_seen : nat -> bool;   (* whose temporaries the sweep finds *)
}.

(** ** Checking the bytes of a file *)
Inductive bad_kind := BadEncoding | BadEmpty | BadMalformed | BadShape | BadSchema.

#[export] Instance bad_kind_eq_dec : EqDecision bad_kind.
Proof. solve_decision. Defined.

Definition strip_bom (raw : pybytes) : pybytes :=
  match raw with
  | a :: b :: c :: rest => if (a =? 239)%N && (b =? 187)%N && (c =? 191)%N then rest else raw
  | _ => raw
  end.

(** [json.dumps(v, indent=2)], at an indentation of [n] spaces. *)
Definition newline (n : nat) : pystr := 10%N :: replicate n 32%N.

Fixpoint dumps_indent (n : nat) (v : json) : pystr :=
  match v with
  | JArr [] => u "[]"
  | JArr l => u "[" ++ newline (2 + n) ++ py_join (u "," ++ newline (2 + n)) (map (dumps_indent (2 + n)) l) ++ newline n ++ u "]"
  | JObj [] => u "{}"
  | JObj kvs => u "{" ++ newline (2 + n)
      ++ py_join (u "," ++ newline (2 + n)) (map (fun kv => quote true kv.1 ++ u ": " ++ dumps_indent (2 + n) kv.2) kvs)
      ++ newline n ++ u "}"
  | _ => dumps_default v
  end.

Fixpoint finite_json (v : json) : bool :=
  match v with
  | JFloat f => is_finite f
  | JArr l => forallb finite_json l
  | JObj kvs => forallb (fun kv => finite_json kv.2) kvs
  | _ => true
  end.

(** ** Threads *)
Inductive recovery := RDefault | RContent | RRaise | RRestore | RHeal.

#[export] Instance recovery_eq_dec : EqDecision recovery.
Proof. solve_decision. Defined.

(** The arguments of [read_json] (the checks and the default are below). *)
Record query := { q_recover : recovery; q_fallbacks : list nat; q_waited : bool }.
Definition waited (q : query) : query := {| q_recover := q_recover q; q_fallbacks := q_fallbacks q; q_waited := true |}.

Inductive read_outcome := OkRead | MissingRead | DefaultedRead | RestoredRead | ResetRead.

Inductive error_kind := KMissing | KIo | KBad (b : bad_kind).

Inductive outcome :=
| Saved (b : bool) | SaveRaised (e : io_error)
| Read_ (data : json) (o : read_outcome) | ReadRaised (k : error_kind) | ReadOSError | ReadValueError.

(** A heal, or a restore of a missing file, on its way: started by which bad file
    (none when the reader found it missing), the key of what was judged bad (none
    when it is missing now), the corrupt backups walked past, the backup chosen. *)
Record healing := {
  h_query : query; h_from : option bad_kind; h_sig : option key;
  h_walked : list (nat * key); h_bak : option nat; h_stamp : Z }.

Inductive install := FromBak (i : nat) (data : json) | FromFallback (k : nat) (data : json) | FromDefault (data : json).

(** What comes after a save's own work. *)
Inductive next :=
| AfterSave (verify : bool)                 (* _save_text *)
| AfterVerify                               (* the restore in _verify *)
| AfterInstall (h : healing) (i : install). (* _install and the reset of _heal_locked *)

Record save := {
  s_text : pybytes;
  s_keep : bool;             (* keep_backups *)
  s_count : nat;             (* backup_count *)
  s_missing : bool;          (* if_missing *)
  s_log : bool;              (* on_error="log" *)
  s_next : next;
}.

Inductive place :=
(* _save_text around the save *)
| SvLock (s : save) | SvCheck (s : save)
(* _save_payload *)
| SvSweep (s : save) | SvOpen (s : save) | SvWrite (s : save) (rest : pybytes)
| SvCopy (s : save) | SvCopying (s : save) (src : file) (rest : pybytes)
| SvDrop (s : save) (backed : bool) | SvRot (s : save) (backed : bool) (i : nat)
| SvBak (s : save) | SvPub (s : save) | SvClean (s : save) (e : io_error)
(* _verify *)
| VfStat (s : save) | VfRead (s : save) (after : option key) | VfNow (s : save) (after : option key)
| VfRestore (s : save)
(* _read and _missing *)
| RdStart (q : query) | RdMissing (q : query) | RdWait (q : query)
| RsCheck (q : query) | RsLock (q : query)
(* _heal, _restore_missing_locked, _pick, _heal_locked, _install *)
| HlLock (q : query) (b : bad_kind) (k : key) | HlAgain (q : query) (b : bad_kind)
| RsUnder (q : query) (heal : option bad_kind)
| PkBak (h : healing) (i : nat)
| PkTime (h : healing)
| PkFallback (h : healing) (since : option Z) (fbs : list nat)
| Picked (h : healing) (fb : option nat)
| HlUnchanged (h : healing) (i : option install) (fb : option nat)
| HlLink (h : healing) (i : option install) (fb : option nat) (n : nat)
| HlUnchanged2 (h : healing) (i : option install) (fb : option nat)
| InRead (h : healing) (fb : option nat) | InMove (h : healing) (i : nat) (data : json)
| InDelete (h : healing) (k : nat) (data : json)
| HlCorrupt (h : healing) (l : list (nat * key)) (data : json) (o : read_outcome)
| HlMove (h : healing) (j : nat) (l : list (nat * key)) (data : json) (o : read_outcome)
| HlAfter (b : bad_kind)
| Unlock (p : place)
| Done (o : outcome) | Killed.

Section steps.
Context `{PyLib}.
Variables (expect validate : json -> bool) (default_ : option json).

Definition check (raw : pybytes) : json + bad_kind :=
  match utf8_decode (strip_bom raw) with
  | None => inr BadEncoding
  | Some text =>
      match loads text with
      | None => inr (if bool_decide (strip text = []) then BadEmpty else BadMalformed)
      | Some v => if negb (expect v) then inr BadShape else if negb (validate v) then inr BadSchema else inl v
      end
  end.

(** [default()]; every policy that calls it has one. *)
Definition the_default : json := default JNull default_.

Definition default_missing : place :=
  match default_ with Some v => Done (Read_ v MissingRead) | None => Done (ReadRaised KMissing) end.

(** [_ChangedError]: somebody else acted. *)
Definition changed (h : healing) : place :=
  match h_from h with Some b => HlAfter b | None => Unlock (RdStart (waited (h_query h))) end.

Definition restored (h : healing) (data : json) : place :=
  match h_sig h with
  | Some _ => HlCorrupt h (h_walked h) data RestoredRead
  | None => Unlock (Done (Read_ data RestoredRead))
  end.

Definition installed (h : healing) (i : install) : place :=
  match i with
  | FromBak _ data => restored h data
  | FromFallback k data => InDelete h k data
  | FromDefault data => HlCorrupt h (h_walked h) data ResetRead
  end.

Definition install_failed (h : healing) (i : install) (e : io_error) : place :=
  match i, e with
  | FromFallback _ _, NotFound => changed h
  | _, _ => Unlock (Done (ReadRaised KIo))
  end.

Definition saved (s : save) : place :=
  match s_next s with
  | AfterSave true => VfStat s
  | AfterSave false => Unlock (Done (Saved true))
  | AfterVerify => Unlock (Done (Saved false))
  | AfterInstall h i => installed h i
  end.

Definition failed (s : save) (e : io_error) : place :=
  match s_next s with
  | AfterSave _ => Unlock (Done (if s_log s then Saved false else SaveRaised e))
  | AfterVerify => Unlock (Done (Saved false))
  | AfterInstall h i => install_failed h i e
  end.

(** A save without backups that replaces the live file. *)
Definition plain_save (text : pybytes) (n : next) : save :=
  {| s_text := text; s_keep := false; s_count := 3; s_missing := false; s_log := false; s_next := n |}.

Definition reset_bytes (v : json) : pybytes := default [] (utf8_encode (dumps_indent 0 v ++ [10%N])).

(** [_remove_stale_temps]: the temporaries found of savers that are not alive. *)
Definition stale (alive seen : nat -> bool) (n : fname) : bool :=
  match n with Temp j | TempBak j => seen j && negb (alive j) | _ => false end.
Definition sweep (alive seen : nat -> bool) (d : dir) : dir :=
  set_entries (filter (fun kv => stale alive seen kv.1 = false) (entries d)) d.

(** Take the heal lock, or go on without it when it cannot be taken. *)
Definition take_lock (t : nat) (r : readings) (p : place) (d : dir) : option (place * dir) :=
  if fault r then Some (p, d) else
  match heal_lock d with None => Some (p, set_lock (Some t) d) | Some _ => None end.

Definition save_step (alive : nat -> bool) (t : nat) (p : place) (r : readings) (d : dir) : option (place * dir) :=
  let or_clean s q := Some (if fault r then (SvClean s OtherOS, d) else q) in
  match p with
  | SvLock s => if s_keep s || s_missing s then take_lock t r (SvCheck s) d else Some (SvCheck s, d)
  | SvCheck s =>
      Some (if s_missing s && bool_decide (is_Some (entries d !! Live)) then Unlock (Done (Saved false)) else SvSweep s, d)
  | SvSweep s => Some (SvOpen s, if fault r then d else sweep alive (stale_seen r) d)
  | SvOpen s => or_clean s (SvWrite s (s_text s), new_file (Temp t) (now r) [] d)
  | SvWrite s [] => or_clean s (if s_keep s then SvCopy s else SvPub s, d)
  | SvWrite s rest =>
      let k := Nat.min (Nat.max 1 (accepts r)) (length rest) in
      or_clean s (SvWrite s (drop k rest), edit (Temp t) (append_to (now r) (take k rest)) d)
  | SvCopy s =>
      or_clean s match entries d !! Live with
                 | None => (SvDrop s false, unlink (TempBak t) d)
                 | Some f => (SvCopying s f (bytes f), new_file (TempBak t) (now r) [] d)
                 end
  | SvCopying s f [] => or_clean s (SvDrop s true, edit (TempBak t) (touch_as (mtime f)) d)
  | SvCopying s f rest =>
      let k := Nat.min (Nat.max 1 (accepts r)) (length rest) in
      or_clean s (SvCopying s f (drop k rest), edit (TempBak t) (append_to (now r) (take k rest)) d)
  | SvDrop s backed => or_clean s (SvRot s backed (s_count s - 1), unlink (Bak (s_count s)) d)
  | SvRot s backed 0 => Some (if backed then SvBak s else SvPub s, d)
  | SvRot s backed (S i) =>
      match entries d !! Bak (S i) with
      | None => Some (SvRot s backed i, d)
      | Some _ => or_clean s (SvRot s backed i, match replace (Bak (S i)) (Bak (S (S i))) d with inl d' => d' | inr _ => d end)
      end
  | SvBak s => or_clean s match replace (TempBak t) (Bak 1) d with inl d' => (SvPub s, d') | inr e => (SvClean s e, d) end
  | SvPub s => or_clean s match replace (Temp t) Live d with inl d' => (saved s, d') | inr e => (SvClean s e, d) end
  | SvClean s e => Some (failed s e, if fault r then d else unlink (TempBak t) (unlink (Temp t) d))
  | _ => None
  end.

Definition live_key (d : dir) : option key := option_map stat_key (entries d !! Live).

Definition verify_step (p : place) (r : readings) (d : dir) : option (place * dir) :=
  match p with
  | VfStat s => Some (VfRead s (if fault r then None else live_key d), d)
  | VfRead s after =>
      Some (if fault r then VfRestore s else
            match entries d !! Live with
            | None => VfRestore s
            | Some f => if bool_decide (bytes f = s_text s) then Unlock (Done (Saved true)) else VfNow s after
            end, d)
  | VfNow s after =>
      Some (match after, (if fault r then None else live_key d) with
            | Some a, Some b => if bool_decide (a = b) then VfRestore s else Unlock (Done (Saved true))
            | _, _ => VfRestore s
            end, d)
  | VfRestore s =>
      Some (match entries d !! Bak 1 with
            | Some f => if negb (s_keep s) || fault r then Unlock (Done (Saved false)) else
                        match utf8_decode (bytes f) with
                        | Some _ => SvSweep (plain_save (bytes f) AfterVerify)
                        | None => Unlock (Done (Saved false))
                        end
            | None => Unlock (Done (Saved false))
            end, d)
  | _ => None
  end.

Definition read_step (t : nat) (p : place) (r : readings) (d : dir) : option (place * dir) :=
  match p with
  | RdStart q =>
      Some (if fault r then
              if bool_decide (q_recover q = RDefault) then Done (Read_ the_default DefaultedRead) else Done (ReadRaised KIo)
            else
            match entries d !! Live with
            | None => RdMissing q
            | Some f =>
                match check (bytes f) with
                | inl v => Done (Read_ v OkRead)
                | inr b => match q_recover q with
                           | RDefault | RContent => Done (Read_ the_default DefaultedRead)
                           | RRaise => Done (ReadRaised (KBad b))
                           | RRestore | RHeal => HlLock q b (stat_key f)
                           end
                end
            end, d)
  | RdMissing q =>
      Some (match q_recover q with
            | RRestore | RHeal =>
                if negb (q_waited q) && sidecar d then RdWait q
                else if bool_decide (q_recover q = RRestore) then RsCheck q else default_missing
            | _ => default_missing
            end, d)
  | RdWait q => if fault r then Some (RdStart (waited q), d) else
      match heal_lock d with None => Some (RdStart (waited q), d) | Some _ => None end
  | RsCheck q =>
      Some (if existsb (fun n => bool_decide (is_Some (entries d !! n)))
                 ([Bak 1; Bak 2; Bak 3] ++ map Fallback (q_fallbacks q))
            then RsLock q else default_missing, d)
  | RsLock q => take_lock t r (RsUnder q None) d
  | _ => None
  end.

Definition start_heal (q : query) (from : option bad_kind) (sig : option key) (at_ : Z) : healing :=
  {| h_query := q; h_from := from; h_sig := sig; h_walked := []; h_bak := None; h_stamp := at_ |}.
Definition walk_past (h : healing) (i : nat) (k : key) : healing :=
  {| h_query := h_query h; h_from := h_from h; h_sig := h_sig h; h_walked := h_walked h ++ [(i, k)];
     h_bak := h_bak h; h_stamp := h_stamp h |}.
Definition choose_bak (h : healing) (i : nat) : healing :=
  {| h_query := h_query h; h_from := h_from h; h_sig := h_sig h; h_walked := h_walked h; h_bak := Some i;
     h_stamp := h_stamp h |}.

(** [_pick]. *)
Definition pick_step (p : place) (r : readings) (d : dir) : option (place * dir) :=
  match p with
  | PkBak h i =>
      Some (if (3 <? i)%nat then PkFallback h None (q_fallbacks (h_query h)) else
            match entries d !! Bak i with
            | None => PkBak h (S i)
            | Some f => if fault r then PkBak h (S i) else
                        match check (bytes f) with
                        | inl _ => PkTime (choose_bak h i)
                        | inr _ => PkBak (walk_past h i (stat_key f)) (S i)
                        end
            end, d)
  | PkTime h =>
      Some (match h_bak h with
            | Some i => match (if fault r then None else entries d !! Bak i) with
                        | Some f => PkFallback h (Some (mtime f)) (q_fallbacks (h_query h))
                        | None => Unlock (Done ReadOSError)
                        end
            | None => PkFallback h None (q_fallbacks (h_query h))
            end, d)
  | PkFallback h since [] => Some (Picked h None, d)
  | PkFallback h since (k :: fbs) =>
      Some (match (if fault r then None else entries d !! Fallback k) with
            | Some f => match check (bytes f) with
                        | inl _ => if match since with Some m => (m <=? mtime f)%Z | None => true end
                                   then Picked h (Some k) else PkFallback h since fbs
                        | inr _ => PkFallback h since fbs
                        end
            | None => PkFallback h since fbs
            end, d)
  | _ => None
  end.

(** [_expect_unchanged] of the live file, or [_expect_absent] when it was missing. *)
Definition unchanged (h : healing) (d : dir) : bool := bool_decide (live_key d = h_sig h).

Definition heal_step (t : nat) (p : place) (r : readings) (d : dir) : option (place * dir) :=
  match p with
  | HlLock q b k => take_lock t r (HlAgain q b) d
  | HlAgain q b =>
      Some (if fault r then Unlock (Done (ReadRaised KIo)) else
            match entries d !! Live with
            | None => if bool_decide (q_recover q = RRestore) then RsUnder q (Some b)
                      else Unlock (Done (Read_ the_default MissingRead))
            | Some f => match check (bytes f) with
                        | inl v => Unlock (Done (Read_ v OkRead))
                        | inr b' => PkBak (start_heal q (Some b') (Some (stat_key f)) (now r)) 1
                        end
            end, d)
  | RsUnder q from =>
      Some (let h := start_heal q from None (now r) in
            if bool_decide (is_Some (entries d !! Live)) then changed h else PkBak h 1, d)
  | Picked h fb =>
      Some (match h_bak h, fb, h_sig h with
            | None, None, None => Unlock (Done (Read_ the_default MissingRead))
            | None, None, Some _ =>
                if bool_decide (q_recover (h_query h) = RRestore) then
                  Unlock (Done (ReadRaised (match h_from h with Some b => KBad b | None => KMissing end)))
                else if finite_json the_default then HlUnchanged h (Some (FromDefault the_default)) None
                else Unlock (Done ReadValueError)
            | _, _, _ => HlUnchanged h None fb
            end, d)
  | HlUnchanged h i fb =>
      Some (match h_sig h with
            | None => if unchanged h d then InRead h fb else changed h
            | Some _ => if fault r then Unlock (Done ReadOSError) else
                        if unchanged h d then HlLink h i fb 0 else changed h
            end, d)
  | HlLink h i fb n =>
      if (n =? 100)%nat then Some (Unlock (Done (ReadRaised KIo)), d) else
      match entries d !! Quar (h_stamp h) n with
      | Some _ => Some (HlLink h i fb (S n), d)
      | None =>
          if fault r then Some (Unlock (Done (ReadRaised KIo)), d) else
          match entries d !! Live with
          | None => Some (changed h, d)
          | Some f => Some (HlUnchanged2 h i fb, set_entries (<[Quar (h_stamp h) n := f]> (entries d)) d)
          end
      end
  | HlUnchanged2 h i fb =>
      Some (if fault r then Unlock (Done (ReadRaised KIo)) else
            if negb (unchanged h d) then changed h else
            match i with
            | Some (FromDefault v) => SvSweep (plain_save (reset_bytes v) (AfterInstall h (FromDefault v)))
            | _ => InRead h fb
            end, d)
  | InRead h fb =>
      let source := match fb with Some k => Fallback k | None => Bak (default 0%nat (h_bak h)) end in
      Some (if fault r then Unlock (Done (ReadRaised KIo)) else
            match entries d !! source with
            | None => changed h
            | Some f => match check (bytes f), fb with
                        | inr _, _ => changed h
                        | inl v, Some k => SvSweep (plain_save (strip_bom (bytes f)) (AfterInstall h (FromFallback k v)))
                        | inl v, None => InMove h (default 0%nat (h_bak h)) v
                        end
            end, d)
  | InMove h i v =>
      Some (if fault r then (Unlock (Done (ReadRaised KIo)), d) else
            match replace (Bak i) Live d with
            | inl d' => (installed h (FromBak i v), d')
            | inr _ => (changed h, d)
            end)
  | InDelete h k v => Some (restored h v, if fault r then d else unlink (Fallback k) d)
  | HlCorrupt h [] v o => Some (Unlock (Done (Read_ v o)), d)
  | HlCorrupt h ((j, k) :: l) v o =>
      Some (match (if fault r then None else entries d !! Bak j) with
            | Some f => if bool_decide (stat_key f = k) then HlMove h j l v o else HlCorrupt h l v o
            | None => HlCorrupt h l v o
            end, d)
  | HlMove h j l v o =>
      Some (HlCorrupt h l v o,
            if fault r then d else match replace (Bak j) (BakQuar j (h_stamp h)) d with inl d' => d' | inr _ => d end)
  | HlAfter b =>
      Some (if fault r then Unlock (Done (ReadRaised KIo)) else
            match entries d !! Live with
            | None => Unlock (Done (ReadRaised (KBad b)))
            | Some f => match check (bytes f) with
                        | inl v => Unlock (Done (Read_ v OkRead))
                        | inr b' => Unlock (Done (ReadRaised (KBad b')))
                        end
            end, d)
  | Unlock p =>
      Some (p, if bool_decide (heal_lock d = Some t)
               then {| entries := entries d; inodes := inodes d; heal_lock := None; sidecar := sidecar d |} else d)
  | _ => None
  end.

Definition step (alive : nat -> bool) (t : nat) (p : place) (r : readings) (d : dir) : option (place * dir) :=
  match p with
  | SvLock _ | SvCheck _ | SvSweep _ | SvOpen _ | SvWrite _ _ | SvCopy _ | SvCopying _ _ _ | SvDrop _ _ | SvRot _ _ _
  | SvBak _ | SvPub _ | SvClean _ _ => save_step alive t p r d
  | VfStat _ | VfRead _ _ | VfNow _ _ | VfRestore _ => verify_step p r d
  | RdStart _ | RdMissing _ | RdWait _ | RsCheck _ | RsLock _ => read_step t p r d
  | PkBak _ _ | PkTime _ | PkFallback _ _ _ => pick_step p r d
  | _ => heal_step t p r d
  end.

(** ** The system *)
Record fsystem := { dir_ : dir; procs : list place }.

Inductive fmove :=
| Start (p : place)
| Turn (t : nat) (r : readings)
| Kill (t : nat)
| Outside (n : fname) (f : option file).      (* someone else changes a file *)

Definition running (p : place) : bool := match p with Done _ | Killed => false | _ => true end.
Definition alive_in (ps : list place) (t : nat) : bool := match ps !! t with Some p => running p | None => false end.

Definition entry (p : place) : bool :=
  match p with
  | SvLock s => match s_next s with AfterSave _ => true | _ => false end
  | RdStart q => negb (q_waited q)
  | _ => false
  end.

Definition temporary (n : fname) : bool := match n with Temp _ | TempBak _ => true | _ => false end.

Definition release (t : nat) (d : dir) : dir :=
  if bool_decide (heal_lock d = Some t)
  then {| entries := entries d; inodes := inodes d; heal_lock := None; sidecar := sidecar d |} else d.

Definition fstep (m : fmove) (sys : fsystem) : option fsystem :=
  match m with
  | Start p => if entry p then Some {| dir_ := dir_ sys; procs := procs sys ++ [p] |} else None
  | Turn t r =>
      p ← procs sys !! t;
      '(p', d') ← step (alive_in (procs sys)) t p r (dir_ sys);
      Some {| dir_ := d'; procs := <[t := p']> (procs sys) |}
  | Kill t =>
      p ← procs sys !! t;
      if running p then Some {| dir_ := release t (dir_ sys); procs := <[t := Killed]> (procs sys) |} else None
  | Outside n f =>
      if temporary n then None else
      Some {| dir_ := set_entries (match f with Some f => <[n := f]> (entries (dir_ sys)) | None => delete n (entries (dir_ sys)) end)
                        (dir_ sys); procs := procs sys |}
  end.

Fixpoint frun (ms : list fmove) (sys : fsystem) : option fsystem :=
  match ms with
  | [] => Some sys
  | m :: ms => sys' ← fstep m sys; frun ms sys'
  end.
End steps.
