(* ===== verification/StateFileFacts.v ===== *)
(** Theorems on state files: whole files under every interleaving, the exact effect
    of a save, and what a heal restores. *)
From S2P Require Import Prelude PyFloat PyTime Json Protocol StateFile.

Section facts.
Context `{PyLib}.
Variables (expect validate : json -> bool) (default_ : option json).
#[local] Abbreviation check := (check expect validate).
#[local] Abbreviation step := (step expect validate default_).
#[local] Abbreviation fstep := (fstep expect validate default_).
#[local] Abbreviation frun := (frun expect validate default_).
#[local] Abbreviation the_default := (the_default default_).

(** ** Lookups after an access *)
Lemma entries_new n m at_ b d :
  entries (new_file n at_ b d) !! m
  = if decide (n = m) then Some {| inode := inodes d; mtime := at_; bytes := b |} else entries d !! m.
Proof.
  unfold new_file. cbn [entries]. case_decide as Hn; [subst; by rewrite lookup_insert_eq|by rewrite lookup_insert_ne].
Qed.

Lemma entries_unlink n m d : entries (unlink n d) !! m = if decide (n = m) then None else entries d !! m.
Proof. unfold unlink. cbn. case_decide as Hn; [subst; by rewrite lookup_delete_eq|by rewrite lookup_delete_ne]. Qed.

Lemma entries_edit n g m d :
  entries (edit n g d) !! m = if decide (n = m) then option_map g (entries d !! m) else entries d !! m.
Proof.
  unfold edit. case_decide as Hn.
  - subst n. destruct (entries d !! m) as [f|] eqn:Hf; cbn; [by rewrite lookup_insert_eq|by rewrite Hf].
  - destruct (entries d !! n); cbn; [by rewrite lookup_insert_ne|done].
Qed.

Lemma entries_replace a b d d' m :
  replace a b d = inl d' -> a <> b ->
  exists f, entries d !! a = Some f /\
    entries d' !! m = if decide (m = b) then Some f else if decide (m = a) then None else entries d !! m.
Proof.
  unfold replace. destruct (entries d !! a) as [f|] eqn:Ha; [|done]. intros Hd Hab. injection Hd as <-. exists f. split; [done|].
  cbn. case_decide as Hb; [subst m; by rewrite lookup_insert_eq|]. rewrite lookup_insert_ne by done.
  case_decide as Hm; [subst m; by rewrite lookup_delete_eq|by rewrite lookup_delete_ne].
Qed.

Lemma replace_some a b d f : entries d !! a = Some f -> exists d', replace a b d = inl d'.
Proof. intros Ha. unfold replace. rewrite Ha. eauto. Qed.

Lemma replace_none a b d e : replace a b d = inr e -> entries d !! a = None.
Proof. unfold replace. by destruct (entries d !! a). Qed.

Lemma entries_sweep alive seen n d :
  entries (sweep alive seen d) !! n = if stale alive seen n then None else entries d !! n.
Proof.
  unfold sweep. cbn. destruct (stale alive seen n) eqn:Hs.
  - apply map_lookup_filter_None. right. intros f _. simpl. congruence.
  - destruct (entries d !! n) as [f|] eqn:Hf.
    + apply map_lookup_filter_Some. split; [done|]. done.
    + apply map_lookup_filter_None. by left.
Qed.

(** ** The invariant *)
Variable P : pybytes -> Prop.
Hypothesis P_bom : forall b, P b -> P (strip_bom b).
Hypothesis P_default : P (reset_bytes the_default).

(** The names readers and heals take whole files from. *)
Definition published (n : fname) : bool := match n with Live | Bak _ | Fallback _ => true | _ => false end.

Definition whole (d : dir) : Prop := forall n f, published n = true -> entries d !! n = Some f -> P (bytes f).

(** The save's temporary holds its text. *)
Definition owns (t : nat) (s : save) (d : dir) : Prop :=
  exists f, entries d !! Temp t = Some f /\ bytes f = s_text s.
Definition backup_ready (t : nat) (d : dir) : Prop := exists g, entries d !! TempBak t = Some g /\ P (bytes g).

Fixpoint place_ok (t : nat) (p : place) (d : dir) : Prop :=
  match p with
  | SvLock s | SvCheck s | SvSweep s | SvOpen s | SvClean s _ | VfStat s | VfRead s _ | VfNow s _ | VfRestore s => P (s_text s)
  | SvWrite s rest => P (s_text s) /\ exists f, entries d !! Temp t = Some f /\ bytes f ++ rest = s_text s
  | SvCopy s | SvPub s => P (s_text s) /\ owns t s d
  | SvCopying s src rest => P (s_text s) /\ owns t s d /\ P (bytes src) /\
      exists g, entries d !! TempBak t = Some g /\ bytes g ++ rest = bytes src
  | SvDrop s backed | SvRot s backed _ => P (s_text s) /\ owns t s d /\ (backed = true -> backup_ready t d)
  | SvBak s => P (s_text s) /\ owns t s d /\ backup_ready t d
  | HlUnchanged _ i _ | HlLink _ i _ _ | HlUnchanged2 _ i _ => forall v, i = Some (FromDefault v) -> v = the_default
  | Unlock p => place_ok t p d
  | _ => True
  end.

Lemma place_ok_frame t p d d' :
  entries d' !! Temp t = entries d !! Temp t -> entries d' !! TempBak t = entries d !! TempBak t ->
  place_ok t p d -> place_ok t p d'.
Proof. intros HT HB. induction p; cbn; unfold owns, backup_ready; rewrite ?HT, ?HB; done. Qed.

Lemma changed_ok t h d : place_ok t (changed h) d.
Proof. unfold changed. by destruct (h_from h). Qed.
Lemma restored_ok t h v d : place_ok t (restored h v) d.
Proof. unfold restored. by destruct (h_sig h). Qed.
Lemma installed_ok t h i d : place_ok t (installed h i) d.
Proof. destruct i; simpl; [apply restored_ok|done|done]. Qed.
Lemma saved_ok t s d : P (s_text s) -> place_ok t (saved s) d.
Proof. intros Hs. unfold saved. destruct (s_next s) as [[]| |]; try done. apply installed_ok. Qed.
Lemma failed_ok t s e d : place_ok t (failed s e) d.
Proof.
  unfold failed. destruct (s_next s) as [| |h i]; try done. unfold install_failed. destruct i, e; try done. apply changed_ok.
Qed.

(** Only the names a step may write: a published name gets whole bytes, the
    temporaries of others stay. *)
Definition step_sound (alive : nat -> bool) (t : nat) (p' : place) (d d' : dir) : Prop :=
  whole d' /\ place_ok t p' d' /\
  (forall j, j <> t -> alive j = true ->
    entries d' !! Temp j = entries d !! Temp j /\ entries d' !! TempBak j = entries d !! TempBak j) /\
  (is_Some (entries d !! Live) -> is_Some (entries d' !! Live)).

Lemma sound_same alive t p' d d' : whole d -> entries d' = entries d -> place_ok t p' d' -> step_sound alive t p' d d'.
Proof. intros Hw He Hp. split_and!; [unfold whole; by rewrite He|done|by rewrite He|by rewrite He]. Qed.

(** A change of one name that is not published, or becomes whole. *)
Lemma sound_put alive t p' d d' n f :
  whole d -> (forall m, entries d' !! m = if decide (n = m) then Some f else entries d !! m) ->
  (published n = true -> P (bytes f)) -> (forall j, j <> t -> n <> Temp j /\ n <> TempBak j) ->
  place_ok t p' d' -> step_sound alive t p' d d'.
Proof.
  intros Hw He Hf Hn Hp. split_and!; [|done| |].
  - intros m g Hm. rewrite He. case_decide as Hd; [subst m; intros Hg; injection Hg as <-; auto|by apply Hw].
  - intros j Hj _. destruct (Hn j Hj). by rewrite !He, !decide_False by done.
  - rewrite He. intros Hl. by case_decide.
Qed.

Lemma sound_unlink alive t p' d n :
  whole d -> n <> Live -> (forall j, j <> t -> n <> Temp j /\ n <> TempBak j) ->
  place_ok t p' (unlink n d) -> step_sound alive t p' d (unlink n d).
Proof.
  intros Hw Hl Hn Hp. split_and!; [|done| |].
  - intros m g Hm. rewrite entries_unlink. case_decide; [done|by apply Hw].
  - intros j Hj _. destruct (Hn j Hj). by rewrite !entries_unlink, !decide_False by done.
  - rewrite entries_unlink. by rewrite decide_False.
Qed.

Lemma sound_replace alive t p' d d' a b :
  whole d -> replace a b d = inl d' -> a <> b -> a <> Live -> (forall j, j <> t -> a <> Temp j /\ a <> TempBak j) ->
  temporary b = false -> (published b = true -> forall f, entries d !! a = Some f -> P (bytes f)) ->
  place_ok t p' d' -> step_sound alive t p' d d'.
Proof.
  intros Hw Hr Hab Hal Ha Hb Hf Hp. split_and!; [|done| |].
  - intros m g Hm. destruct (entries_replace _ _ _ _ m Hr Hab) as (f & He & ->).
    case_decide as Hd; [subst m; intros Hg; injection Hg as <-; auto|]. case_decide; [done|by apply Hw].
  - intros j Hj _. destruct (Ha j Hj).
    destruct (entries_replace _ _ _ _ (Temp j) Hr Hab) as (f & He & ->).
    destruct (entries_replace _ _ _ _ (TempBak j) Hr Hab) as (f' & He' & ->).
    by rewrite !decide_False by (done || by intros <-).
  - intros Hl. destruct (entries_replace _ _ _ _ Live Hr Hab) as (f & He & ->).
    case_decide; [by eexists|]. by rewrite decide_False.
Qed.

(** One write into a temporary of the thread. *)
Lemma sound_edit alive t p' d n g :
  whole d -> n = Temp t \/ n = TempBak t -> place_ok t p' (edit n g d) -> step_sound alive t p' d (edit n g d).
Proof.
  intros Hw Hn Hp. split_and!; [|done| |].
  - intros m f Hm. rewrite entries_edit. rewrite decide_False; [by apply Hw|]. destruct Hn as [-> | ->]; by intros <-.
  - intros j Hj _. rewrite !entries_edit. destruct Hn as [-> | ->]; rewrite !decide_False by congruence; done.
  - rewrite entries_edit. rewrite decide_False; [done|]. by destruct Hn as [-> | ->].
Qed.

Lemma take_lock_sound alive t r p d p' d' :
  whole d -> (forall d1, entries d1 = entries d -> place_ok t p d1) ->
  take_lock t r p d = Some (p', d') -> step_sound alive t p' d d'.
Proof.
  intros Hw Hp. unfold take_lock. destruct (fault r); [|destruct (heal_lock d); [done|]];
    intros Hs; injection Hs as <- <-; apply sound_same; auto.
Qed.

Lemma sweep_sound alive t seen p' d : whole d -> place_ok t p' (sweep alive seen d) -> step_sound alive t p' d (sweep alive seen d).
Proof.
  intros Hw Hp. split_and!; [|done| |].
  - intros m f Hm. rewrite entries_sweep. destruct (stale _ _ _); [done|by apply Hw].
  - intros j Hj Ha. rewrite !entries_sweep. simpl. rewrite Ha, andb_false_r. done.
  - rewrite entries_sweep. done.
Qed.

Lemma clean_sound alive t s e d : whole d -> step_sound alive t (failed s e) d (unlink (TempBak t) (unlink (Temp t) d)).
Proof.
  intros Hw. split_and!.
  - intros m f Hm. rewrite !entries_unlink. repeat case_decide; try done. by apply Hw.
  - apply failed_ok.
  - intros j Hj _. rewrite !entries_unlink. by rewrite !decide_False by congruence.
  - rewrite !entries_unlink. by rewrite !decide_False.
Qed.

(** A write of one more piece keeps what is written a prefix of the text. *)
Lemma piece_ok (k : nat) n d text rest at_ :
  (exists f, entries d !! n = Some f /\ bytes f ++ rest = text) ->
  exists f, entries (edit n (append_to at_ (take k rest)) d) !! n = Some f /\ bytes f ++ drop k rest = text.
Proof.
  intros (f & Hf & Ht). rewrite entries_edit, decide_True, Hf by done. eexists. split; [reflexivity|].
  cbn. by rewrite <-app_assoc, take_drop.
Qed.

Ltac faulty r Hs := destruct (fault r); [injection Hs as <- <-; apply sound_same; [done|done|cbn in *; intuition]|].

Lemma save_step_sound alive t p r d p' d' :
  whole d -> place_ok t p d -> save_step alive t p r d = Some (p', d') -> step_sound alive t p' d d'.
Proof.
  intros Hw Hp Hs. destruct p; cbn [save_step] in Hs; try done.
  - (* SvLock *) destruct (s_keep s || s_missing s); [|by injection Hs as <- <-; apply sound_same].
    by refine (take_lock_sound _ _ _ _ _ _ _ Hw _ Hs).
  - (* SvCheck *) injection Hs as <- <-. apply sound_same; [done..|]. by destruct (_ && _).
  - (* SvSweep *) injection Hs as <- <-. destruct (fault r); [by apply sound_same|by apply sweep_sound].
  - (* SvOpen *) faulty r Hs. injection Hs as <- <-.
    eapply sound_put; [done|intros m; apply entries_new|done|by intros ? ?; split; congruence|].
    split; [done|]. eexists. by rewrite entries_new, decide_True.
  - (* SvWrite *) destruct Hp as [Ht Hp]. destruct rest as [|b rest]; faulty r Hs; injection Hs as <- <-.
    + apply sound_same; [done..|]. destruct Hp as (f & Hf & He). rewrite app_nil_r in He.
      destruct (s_keep s); (split; [done|by exists f]).
    + apply sound_edit; [done|by left|]. split; [done|]. by apply piece_ok.
  - (* SvCopy *) destruct Hp as [Ht Ho]. faulty r Hs. destruct (entries d !! Live) as [g|] eqn:Hl; injection Hs as <- <-.
    + eapply sound_put; [done|intros m; apply entries_new|done|by intros ? ?; split; congruence|].
      split; [done|]. split; [|split].
      * destruct Ho as (f & Hf & He). exists f. by rewrite entries_new, decide_False.
      * by apply (Hw Live).
      * eexists. by rewrite entries_new, decide_True.
    + apply sound_unlink; [done..|by intros ? ?; split; congruence|]. split; [done|]. split; [|done].
      destruct Ho as (f & Hf & He). exists f. by rewrite entries_unlink, decide_False.
  - (* SvCopying *) destruct Hp as (Ht & Ho & Hsrc & Hg).
    assert (forall g, owns t s (edit (TempBak t) g d)) as Ho'.
    { intros g. destruct Ho as (f & Hf & He). exists f. by rewrite entries_edit, decide_False. }
    destruct rest as [|b rest]; faulty r Hs; injection Hs as <- <-; (apply sound_edit; [done|by right|]).
    + split; [done|]. split; [done|]. intros _. destruct Hg as (g & Hg & He). exists (touch_as (mtime src) g).
      rewrite entries_edit, decide_True, Hg by done. split; [done|]. cbn. rewrite app_nil_r in He. congruence.
    + split; [done|]. split; [done|]. split; [done|]. by apply piece_ok.
  - (* SvDrop *) destruct Hp as (Ht & Ho & Hb). faulty r Hs. injection Hs as <- <-.
    apply sound_unlink; [done..|]. split; [done|]. unfold owns, backup_ready. by rewrite !entries_unlink, !decide_False.
  - (* SvRot *) destruct Hp as (Ht & Ho & Hb). destruct i as [|i].
    { injection Hs as <- <-. apply sound_same; [done..|]. destruct backed; (split; [done|]); auto. }
    destruct (entries d !! Bak (S i)) as [g|] eqn:Hg; [|by injection Hs as <- <-; apply sound_same]. faulty r Hs.
    destruct (replace_some (Bak (S i)) (Bak (S (S i))) d g Hg) as [d1 Hr]. rewrite Hr in Hs. injection Hs as <- <-.
    eapply sound_replace; [done|done|by intros [= ?]; lia|done..| |].
    + intros _ f Hf. by apply (Hw (Bak (S i))).
    + split; [done|]. unfold owns, backup_ready.
      destruct (entries_replace _ _ _ _ (Temp t) Hr) as (? & _ & ->); [by intros [= ?]; lia|].
      destruct (entries_replace _ _ _ _ (TempBak t) Hr) as (? & _ & ->); [by intros [= ?]; lia|].
      by rewrite !decide_False by done.
  - (* SvBak *) destruct Hp as (Ht & Ho & (g & Hg & Hp)). faulty r Hs.
    destruct (replace_some (TempBak t) (Bak 1) d g Hg) as [d1 Hr]. rewrite Hr in Hs. injection Hs as <- <-.
    eapply sound_replace; [done|done|done|done|by intros ? ?; split; congruence|done|by intros _ f Hf; simplify_eq|].
    split; [done|]. unfold owns. destruct (entries_replace _ _ _ _ (Temp t) Hr) as (? & _ & ->); [done|].
    by rewrite !decide_False by done.
  - (* SvPub *) destruct Hp as (Ht & (f & Hf & He)). faulty r Hs.
    destruct (replace_some (Temp t) Live d f Hf) as [d1 Hr]. rewrite Hr in Hs. injection Hs as <- <-.
    eapply sound_replace; [done|done|done|done|by intros ? ?; split; congruence|done| |by apply saved_ok].
    intros _ f' Hf'. simplify_eq. congruence.
  - (* SvClean *) injection Hs as <- <-. destruct (fault r); [apply sound_same; [done..|apply failed_ok]|by apply clean_sound].
Qed.

Lemma verify_step_sound alive t p r d p' d' :
  whole d -> place_ok t p d -> verify_step p r d = Some (p', d') -> step_sound alive t p' d d'.
Proof.
  intros Hw Hp Hs. destruct p; cbn [verify_step] in Hs; try done; injection Hs as <- <-; (apply sound_same; [done|done|]).
  - done.
  - destruct (fault r); [done|]. destruct (entries d !! Live); [|done]. by case_bool_decide.
  - destruct after as [a|]; [|done]. destruct (if fault r then None else live_key d); [|done]. by case_bool_decide.
  - destruct (entries d !! Bak 1) as [f|] eqn:Hb; [|done]. destruct (_ || _); [done|]. destruct (utf8_decode _); [|done].
    by apply (Hw (Bak 1)).
Qed.

Lemma default_missing_ok t d : place_ok t (default_missing default_) d.
Proof. unfold default_missing. by destruct default_. Qed.

Lemma read_step_sound alive t p r d p' d' :
  whole d -> place_ok t p d -> read_step expect validate default_ t p r d = Some (p', d') -> step_sound alive t p' d d'.
Proof.
  intros Hw Hp Hs. pose proof (default_missing_ok t d) as Hdm.
  destruct p; cbn [read_step] in Hs; try done; try (injection Hs as <- <-; apply sound_same; [done|done|]).
  - destruct (fault r); [by case_bool_decide|]. destruct (entries d !! Live); [|done]. destruct (check _); [done|].
    by destruct (q_recover q).
  - destruct (q_recover q); try done; destruct (_ && _); try done; by case_bool_decide.
  - destruct (fault r); [by injection Hs as <- <-; apply sound_same|].
    destruct (heal_lock d); [done|]. by injection Hs as <- <-; apply sound_same.
  - by match goal with |- place_ok _ (if ?b then _ else _) _ => destruct b end.
  - by refine (take_lock_sound _ _ _ _ _ _ _ Hw _ Hs).
Qed.

Lemma pick_step_sound alive t p r d p' d' :
  whole d -> pick_step expect validate p r d = Some (p', d') -> step_sound alive t p' d d'.
Proof.
  intros Hw Hs. destruct p; cbn [pick_step] in Hs; try done.
  - injection Hs as <- <-. apply sound_same; [done..|]. destruct (3 <? i)%nat; [done|].
    destruct (entries d !! Bak i); [|done]. destruct (fault r); [done|]. by destruct (check _).
  - injection Hs as <- <-. apply sound_same; [done..|]. destruct (h_bak h); [|done]. by destruct (if fault r then None else entries d !! Bak n).
  - destruct fbs as [|k fbs]; injection Hs as <- <-; apply sound_same; try done.
    destruct (if fault r then None else entries d !! Fallback k) as [f|]; [|done]. destruct (check _); [|done]. by repeat case_match.
Qed.

Lemma heal_step_sound alive t p r d p' d' :
  whole d -> place_ok t p d -> heal_step expect validate default_ t p r d = Some (p', d') -> step_sound alive t p' d d'.
Proof.
  intros Hw Hp Hs. pose proof (fun h => changed_ok t h d) as Hch.
  destruct p; cbn [heal_step] in Hs; try done; try (injection Hs as <- <-; apply sound_same; [done|done|]).
  - by refine (take_lock_sound _ _ _ _ _ _ _ Hw _ Hs).
  - destruct (fault r); [done|]. destruct (entries d !! Live); [by destruct (check _)|by case_bool_decide].
  - by case_bool_decide.
  - destruct (h_bak h), fb, (h_sig h); try done. case_bool_decide; [done|].
    destruct (finite_json _); [|done]. by intros v [= <-].
  - destruct (h_sig h); [destruct (fault r); [done|]|]; destruct (unchanged h d); first [apply Hch|done].
  - destruct (n =? 100)%nat; [by injection Hs as <- <-; apply sound_same|].
    destruct (entries d !! Quar _ _); [by injection Hs as <- <-; apply sound_same|].
    destruct (fault r); [by injection Hs as <- <-; apply sound_same|].
    destruct (entries d !! Live) as [f|] eqn:Hl; injection Hs as <- <-; [|by apply sound_same].
    apply (sound_put _ _ _ _ _ (Quar (h_stamp h) n) f); [done| |done|by intros ? ?; split; congruence|done].
    intros m. cbn. case_decide as Hm; [subst m; by rewrite lookup_insert_eq|by rewrite lookup_insert_ne].
  - destruct (fault r); [done|]. destruct (negb _); [done|]. destruct i as [[| |v]|]; try done. simpl. by rewrite (Hp v).
  - set (src := match fb with Some k => Fallback k | None => _ end) in *. destruct (fault r); [done|].
    destruct (entries d !! src) as [f|] eqn:Hf; [|done]. destruct (check (bytes f)); destruct fb as [k|]; try done.
    simpl. by apply P_bom, (Hw (Fallback k)).
  - destruct (fault r); [by injection Hs as <- <-; apply sound_same|].
    destruct (replace (Bak i) Live d) as [d1|] eqn:Hr; injection Hs as <- <-; [|by apply sound_same].
    eapply sound_replace; [done|exact Hr|done|done|done|done|intros _ f; by apply (Hw (Bak i))|exact (restored_ok t h data d1)].
  - destruct (fault r); injection Hs as <- <-; [apply sound_same; [done..|apply restored_ok]|].
    apply sound_unlink; [done..|apply restored_ok].
  - destruct l as [|[j k] l]; injection Hs as <- <-; apply sound_same; try done.
    destruct (if fault r then None else entries d !! Bak j); [|done]. by case_bool_decide.
  - destruct (fault r); injection Hs as <- <-; [by apply sound_same|].
    destruct (replace (Bak j) _ d) as [d1|] eqn:Hr; [|by apply sound_same].
    by eapply sound_replace; [done|exact Hr|..].
  - destruct (fault r); [done|]. destruct (entries d !! Live); [|done]. by destruct (check _).
  - injection Hs as <- <-. apply sound_same; [done|by case_bool_decide|].
    eapply place_ok_frame; [..|exact Hp]; by case_bool_decide.
Qed.

Lemma step_is_sound alive t p r d p' d' :
  whole d -> place_ok t p d -> step alive t p r d = Some (p', d') -> step_sound alive t p' d d'.
Proof.
  intros Hw Hp Hs. destruct p; cbn [StateFile.step] in Hs;
    first [ exact (save_step_sound _ _ _ _ _ _ _ Hw Hp Hs) | exact (verify_step_sound _ _ _ _ _ _ _ Hw Hp Hs)
          | exact (read_step_sound _ _ _ _ _ _ _ Hw Hp Hs) | exact (pick_step_sound _ _ _ _ _ _ _ Hw Hs)
          | exact (heal_step_sound _ _ _ _ _ _ _ Hw Hp Hs) ].
Qed.

(** ** A whole run *)
Definition sys_ok (sys : fsystem) : Prop :=
  whole (dir_ sys) /\ forall t p, procs sys !! t = Some p -> place_ok t p (dir_ sys).

(** What is put in from outside is whole: the texts to save and other people's
    files. *)
Definition move_ok (m : fmove) : Prop :=
  match m with
  | Start (SvLock s) => P (s_text s)
  | Outside n (Some f) => published n = true -> P (bytes f)
  | _ => True
  end.

Lemma release_entries t d : entries (release t d) = entries d.
Proof. unfold release. by case_bool_decide. Qed.

Lemma fstep_ok m sys sys' :
  move_ok m -> sys_ok sys -> fstep m sys = Some sys' ->
  sys_ok sys' /\ (m <> Outside Live None -> is_Some (entries (dir_ sys) !! Live) -> is_Some (entries (dir_ sys') !! Live)).
Proof.
  intros Hm [Hw Hp] Hs. destruct m as [p|t r|t|n f]; cbn [StateFile.fstep] in Hs.
  - destruct (entry p) eqn:He; [|done]. injection Hs as <-. split; [|done]. split; [done|]. cbn.
    intros t q [Hq|[_ Hq]]%lookup_app_Some; [by apply Hp|]. destruct (t - length (procs sys))%nat; [|done]. injection Hq as <-.
    by destruct p.
  - destruct (procs sys !! t) as [p|] eqn:Ht; [|done]. cbn [mbind option_bind] in Hs.
    destruct (step _ _ _ _ _) as [[p' d']|] eqn:Hstep; [|done]. injection Hs as <-.
    destruct (step_is_sound _ _ _ _ _ _ _ Hw (Hp t p Ht) Hstep) as (Hw' & Hp' & Hf & Hl).
    split; [|auto]. split; [done|]. cbn. intros j q Hj.
    destruct (decide (j = t)) as [->|Hn]; [rewrite list_lookup_insert_eq in Hj by (by eapply lookup_lt_Some); by injection Hj as <-|].
    rewrite list_lookup_insert_ne in Hj by done. destruct (running q) eqn:Hq; [|by destruct q].
    destruct (Hf j Hn) as [HT HB]; [unfold alive_in; by rewrite Hj|].
    by eapply place_ok_frame; [..|apply Hp].
  - destruct (procs sys !! t) as [p|] eqn:Ht; [|done]. cbn [mbind option_bind] in Hs.
    destruct (running p); [|done]. injection Hs as <-. cbn. rewrite release_entries. split; [|done].
    split; [unfold whole; cbn; by rewrite release_entries|]. cbn. intros j q [(_ & <- & _)|[Hn Hj]]%list_lookup_insert_Some; [done|].
    eapply place_ok_frame; [..|by apply Hp]; by rewrite release_entries.
  - destruct (temporary n) eqn:Hn; [done|]. injection Hs as <-. cbn. split; [split|].
    + intros m g Hg. cbn. destruct f as [f|].
      * destruct (decide (n = m)) as [->|Hd]; [rewrite lookup_insert_eq; intros Hf; injection Hf as <-; auto|].
        rewrite lookup_insert_ne by done. by apply Hw.
      * intros [_ Hf]%lookup_delete_Some. by apply (Hw m).
    + intros t p Ht. eapply place_ok_frame; [..|by apply Hp]; cbn;
        (destruct f; [rewrite lookup_insert_ne by (by intros ->)|rewrite lookup_delete_ne by (by intros ->)]; done).
    + intros Hl Hlive. destruct f as [f|]; (destruct (decide (n = Live)) as [->|Hd];
        [|first [by rewrite lookup_insert_ne by done|by rewrite lookup_delete_ne by done]]);
        [by rewrite lookup_insert_eq|done].
Qed.

Lemma frun_ok ms sys sys' :
  Forall move_ok ms -> sys_ok sys -> frun ms sys = Some sys' ->
  sys_ok sys' /\ (Outside Live None ∉ ms -> is_Some (entries (dir_ sys) !! Live) -> is_Some (entries (dir_ sys') !! Live)).
Proof.
  revert sys. induction ms as [|m ms IH]; intros sys Hm Hs Hr; [injection Hr as <-; by split; [|auto]|].
  apply Forall_cons in Hm as [Hm Hms]. cbn [StateFile.frun] in Hr.
  destruct (fstep m sys) as [sys1|] eqn:Hf; [|done]. cbn [mbind option_bind] in Hr.
  destruct (fstep_ok _ _ _ Hm Hs Hf) as [H1 Hl1]. destruct (IH _ Hms H1 Hr) as [H2 Hl2]. split; [done|].
  intros [Hn Hns]%not_elem_of_cons Hlive. apply Hl2; [done|]. apply Hl1; [congruence|done].
Qed.

(** ** One thread alone *)
Section alone.
Variables (alive : nat -> bool) (t : nat).

Fixpoint solo (rs : list readings) (p : place) (d : dir) : place * dir :=
  match rs with
  | [] => (p, d)
  | r :: rs => match step alive t p r d with Some (p', d') => solo rs p' d' | None => (p, d) end
  end.

Lemma file_solo_step r rs p d p' d' : step alive t p r d = Some (p', d') -> solo (r :: rs) p d = solo rs p' d'.
Proof. intros Hs. cbn [solo]. by rewrite Hs. Qed.

Lemma file_solo_done rs o d : solo rs (Done o) d = (Done o, d).
Proof. by destruct rs. Qed.

(** A loop that writes [rest] at the end of [n], piece by piece. *)
Lemma piece_loop (at_place : pybytes -> place) n :
  (forall rest d r, rest <> [] -> fault r = false ->
    step alive t (at_place rest) r d
    = Some (let k := Nat.min (Nat.max 1 (accepts r)) (length rest) in
            (at_place (drop k rest), edit n (append_to (now r) (take k rest)) d))) ->
  forall rs rest d f m, entries d !! n = Some f -> Forall (fun r => fault r = false) rs -> (length rest + m <= length rs)%nat ->
  exists rs' at_ d', (m <= length rs')%nat /\ rs' `suffix_of` rs /\ solo rs (at_place rest) d = solo rs' (at_place []) d' /\
    heal_lock d' = heal_lock d /\
    forall x, entries d' !! x = if decide (n = x) then Some {| inode := inode f; mtime := at_; bytes := bytes f ++ rest |}
                               else entries d !! x.
Proof.
  intros Hstep. induction rs as [|r rs IH]; intros rest d f m Hf Hq Hl.
  { destruct rest; [|simpl in Hl; lia]. exists [], (mtime f), d. simpl in Hl. split_and!; [simpl; lia|done|done|done|].
    intros x. rewrite app_nil_r. case_decide; [subst x; rewrite Hf; by destruct f|done]. }
  destruct rest as [|b rest].
  { exists (r :: rs), (mtime f), d. simpl in *. split_and!; [lia|done|done|done|].
    intros x. rewrite app_nil_r. case_decide; [subst x; rewrite Hf; by destruct f|done]. }
  apply Forall_cons in Hq as [Hr Hq].
  set (k := Nat.min (Nat.max 1 (accepts r)) (length (b :: rest))).
  assert (1 <= k <= length (b :: rest))%nat as Hk by (unfold k; simpl; lia).
  destruct (IH (drop k (b :: rest)) (edit n (append_to (now r) (take k (b :: rest))) d)
    (append_to (now r) (take k (b :: rest)) f) m) as (rs' & at_ & d' & Hm & Hs & He & Hh & Hx).
  - by rewrite entries_edit, decide_True, Hf.
  - done.
  - rewrite length_drop. simpl in *. lia.
  - exists rs', at_, d'. split_and!; [done|by apply suffix_cons_r| | |].
    + erewrite file_solo_step by (by apply Hstep). done.
    + rewrite Hh. unfold edit. by destruct (entries d !! n).
    + intros x. rewrite Hx. case_decide as Hd; [cbn; by rewrite <-app_assoc, take_drop|]. by rewrite entries_edit, decide_False.
Qed.

(** The backups one place further, the first free. *)
Definition shifted (i : nat) (d : dir) (m : fname) : option file :=
  match m with
  | Bak 1 => None
  | Bak (S (S k)) => if (S k <=? i)%nat then entries d !! Bak (S k) else entries d !! m
  | _ => entries d !! m
  end.

Lemma rotation_loop s backed i rs d :
  entries d !! Bak (S i) = None -> Forall (fun r => fault r = false) rs -> (i <= length rs)%nat ->
  exists rs' d', rs' `suffix_of` rs /\ (length rs <= length rs' + i)%nat /\
    solo rs (SvRot s backed i) d = solo rs' (SvRot s backed 0) d' /\ heal_lock d' = heal_lock d /\
    forall m, entries d' !! m = shifted i d m.
Proof.
  revert rs d. induction i as [|i IH]; intros rs d Hn Hq Hl.
  { exists rs, d. split_and!; [done|lia|done|done|]. intros [| [|[|k]]| | | | |]; try done. }
  destruct rs as [|r rs]; [simpl in Hl; lia|]. apply Forall_cons in Hq as [Hr Hq].
  assert (exists d1, step alive t (SvRot s backed (S i)) r d = Some (SvRot s backed i, d1) /\ heal_lock d1 = heal_lock d /\
    (forall m, entries d1 !! m = if decide (m = Bak (S (S i))) then entries d !! Bak (S i)
                                 else if decide (m = Bak (S i)) then None else entries d !! m)) as (d1 & Hs & Hh & Hx).
  { cbn [StateFile.step save_step]. destruct (entries d !! Bak (S i)) as [f|] eqn:Hb.
    - destruct (replace_some _ (Bak (S (S i))) _ _ Hb) as [d1 Hd1]. rewrite Hr, Hd1. exists d1. split; [done|]. split.
      + unfold replace in Hd1. rewrite Hb in Hd1. by injection Hd1 as <-.
      + intros m. destruct (entries_replace _ _ _ _ m Hd1) as (f' & Hf & ->); [by intros [= ?]; lia|]. by simplify_eq.
    - exists d. split; [done|]. split; [done|]. intros m. repeat case_decide; subst; done. }
  destruct (IH rs d1) as (rs' & d' & Hsuf & Hlen & Hsolo & Hh' & He).
  - rewrite Hx. rewrite decide_False by (intros [= ?]; lia). by rewrite decide_True.
  - done.
  - simpl in Hl. lia.
  - exists rs', d'. split_and!; [by apply suffix_cons_r|simpl; lia| |congruence|].
    + by erewrite file_solo_step by exact Hs.
    + intros m. rewrite He. unfold shifted.
      destruct m as [| [|[|k]]| | | | |]; try done; try (by rewrite Hx, !decide_False by congruence).
      rewrite !Hx. destruct (S k <=? i)%nat eqn:E1; destruct (S k <=? S i)%nat eqn:E2;
        rewrite ?Nat.leb_le, ?Nat.leb_gt in *; try lia.
      * by rewrite !decide_False by (intros Hk; injection Hk; lia).
      * assert (k = i) as -> by lia. by rewrite decide_True.
      * by rewrite !decide_False by (intros Hk; injection Hk; lia).
Qed.

Definition quiet_reads (rs : list readings) : Prop := Forall (fun r => fault r = false) rs.

(** What a save that keeps [n] backups leaves at each name. *)
Definition after_save (n : nat) (text : pybytes) (d : dir) (m : fname) (f : option file) : Prop :=
  match m with
  | Live => exists g, f = Some g /\ bytes g = text
  | Bak 1 => option_map bytes f = option_map bytes (entries d !! Live) /\
             option_map mtime f = option_map mtime (entries d !! Live)
  | Bak (S (S k)) => f = if (S k <? n)%nat then entries d !! Bak (S k) else entries d !! m
  | Temp _ | TempBak _ => True
  | _ => f = entries d !! m
  end.

Lemma save_head s d r0 r1 r2 r3 rs :
  s_keep s = true -> s_missing s = false -> heal_lock d = None -> alive t = true ->
  quiet_reads (r0 :: r1 :: r2 :: r3 :: rs) ->
  exists d1 f, solo (r0 :: r1 :: r2 :: r3 :: rs) (SvLock s) d = solo rs (SvWrite s (s_text s)) d1 /\
    entries d1 !! Temp t = Some f /\ bytes f = [] /\ heal_lock d1 = Some t /\
    (forall m, temporary m = false -> entries d1 !! m = entries d !! m).
Proof.
  intros Hk Hmis Hlock Hal Hq. repeat (apply Forall_cons in Hq as [? Hq]).
  eexists _, _. split; [|split_and!].
  { erewrite file_solo_step by (cbn [StateFile.step save_step]; rewrite Hk; cbn [orb]; unfold take_lock; by rewrite H0, Hlock).
    erewrite file_solo_step by (cbn [StateFile.step save_step]; by rewrite Hmis). cbn [andb].
    erewrite file_solo_step by (cbn [StateFile.step save_step]; by rewrite H2).
    erewrite file_solo_step by (cbn [StateFile.step save_step]; by rewrite H3). reflexivity. }
  - rewrite entries_new, decide_True by done. reflexivity.
  - done.
  - done.
  - intros m Hm. rewrite entries_new, decide_False by (by intros <-). rewrite entries_sweep. by destruct m.
Qed.

Lemma write_piece s rest d r :
  rest <> [] -> fault r = false ->
  step alive t (SvWrite s rest) r d
  = Some (let k := Nat.min (Nat.max 1 (accepts r)) (length rest) in
          (SvWrite s (drop k rest), edit (Temp t) (append_to (now r) (take k rest)) d)).
Proof. intros Hr Hf. destruct rest; [done|]. cbn [StateFile.step save_step]. by rewrite Hf. Qed.

Lemma copy_piece s f rest d r :
  rest <> [] -> fault r = false ->
  step alive t (SvCopying s f rest) r d
  = Some (let k := Nat.min (Nat.max 1 (accepts r)) (length rest) in
          (SvCopying s f (drop k rest), edit (TempBak t) (append_to (now r) (take k rest)) d)).
Proof. intros Hr Hf. destruct rest; [done|]. cbn [StateFile.step save_step]. by rewrite Hf. Qed.

(** The copy of the live file, when there is one. *)
Lemma copy_phase s d rs m :
  quiet_reads rs -> (2 + length (default [] (option_map bytes (entries d !! Live))) + m <= length rs)%nat ->
  exists rs' d', quiet_reads rs' /\ (m <= length rs')%nat /\
    solo rs (SvCopy s) d = solo rs' (SvDrop s (bool_decide (is_Some (entries d !! Live)))) d' /\ heal_lock d' = heal_lock d /\
    (forall x, x <> TempBak t -> entries d' !! x = entries d !! x) /\
    option_map bytes (entries d' !! TempBak t) = option_map bytes (entries d !! Live) /\
    option_map mtime (entries d' !! TempBak t) = option_map mtime (entries d !! Live).
Proof.
  intros Hq Hl. destruct rs as [|r rs]; [simpl in Hl; lia|]. apply Forall_cons in Hq as [Hr Hq].
  destruct (entries d !! Live) as [f|] eqn:Hf.
  - set (d1 := new_file (TempBak t) (now r) [] d).
    assert (entries d1 !! TempBak t = Some {| inode := inodes d; mtime := now r; bytes := [] |}) as H1
      by (unfold d1; by rewrite entries_new, decide_True).
    destruct (piece_loop (SvCopying s f) (TempBak t) (copy_piece s f) rs (bytes f) d1 _ (1 + m) H1 Hq) as
      (rs' & at_ & d' & Hm & Hsuf & Hs & Hh & Hx); [simpl in *; lia|].
    destruct rs' as [|r' rs']; [simpl in Hm; lia|].
    assert (quiet_reads (r' :: rs')) as Hq' by (destruct Hsuf as [l ->]; by apply Forall_app in Hq as [_ Hq]).
    apply Forall_cons in Hq' as [Hr' Hq'].
    exists rs', (edit (TempBak t) (touch_as (mtime f)) d'). split_and!; [done|simpl in Hm; lia| | | | |].
    + erewrite file_solo_step by (cbn [StateFile.step save_step]; by rewrite Hr, Hf). fold d1. rewrite Hs.
      erewrite file_solo_step by (cbn [StateFile.step save_step]; by rewrite Hr'). done.
    + rewrite <-(eq_refl : heal_lock d1 = heal_lock d), <-Hh. unfold edit. by destruct (entries d' !! TempBak t).
    + intros x Hx'. rewrite entries_edit, decide_False, Hx, decide_False by done. unfold d1. by rewrite entries_new, decide_False.
    + by rewrite entries_edit, decide_True, Hx, decide_True by done.
    + by rewrite entries_edit, decide_True, Hx, decide_True by done.
  - exists rs, (unlink (TempBak t) d). split_and!; [done|simpl in Hl; lia| |done| | |].
    + erewrite file_solo_step by (cbn [StateFile.step save_step]; by rewrite Hr, Hf). done.
    + intros x Hx. by rewrite entries_unlink, decide_False.
    + by rewrite entries_unlink, decide_True.
    + by rewrite entries_unlink, decide_True.
Qed.

(** From the rotation to the end. *)
Lemma publish_phase s b d1 rs f :
  s_next s = AfterSave false -> heal_lock d1 = Some t -> entries d1 !! Temp t = Some f ->
  (b = true -> is_Some (entries d1 !! TempBak t)) ->
  quiet_reads rs -> (5 + s_count s <= length rs)%nat -> (1 <= s_count s)%nat ->
  exists d', solo rs (SvDrop s b) d1 = (Done (Saved true), d') /\ heal_lock d' = None /\
    entries d' !! Live = Some f /\
    entries d' !! Bak 1 = (if b then entries d1 !! TempBak t else None) /\
    (forall m, temporary m = false -> m <> Live -> m <> Bak 1 ->
       entries d' !! m = shifted (s_count s - 1) (unlink (Bak (s_count s)) d1) m).
Proof.
  intros Hn Hlock Hf Hb Hq Hl Hc. destruct rs as [|r rs]; [simpl in Hl; lia|]. apply Forall_cons in Hq as [Hr Hq].
  set (d2 := unlink (Bak (s_count s)) d1). simpl in Hl.
  destruct (rotation_loop s b (s_count s - 1) rs d2) as (rs' & d3 & Hsuf & Hlen & Hs & Hh & Hx); [|done|lia|].
  { unfold d2. rewrite entries_unlink, decide_True; [done|]. f_equal. lia. }
  assert (entries d3 !! Temp t = Some f) as Hf3 by (rewrite Hx; unfold shifted, d2; by rewrite entries_unlink, decide_False).
  assert (entries d3 !! TempBak t = entries d1 !! TempBak t) as Hb3 by (rewrite Hx; unfold shifted, d2; by rewrite entries_unlink, decide_False).
  assert (quiet_reads rs') as Hq' by (destruct Hsuf as [l ->]; by apply Forall_app in Hq as [_ Hq]).
  assert (4 <= length rs')%nat as Hl' by lia.
  destruct rs' as [|r1 [|r2 [|r3 [|r4 rs']]]]; try (simpl in Hl'; lia).
  repeat (apply Forall_cons in Hq' as [? Hq']).
  assert (heal_lock d3 = Some t) as Hl3 by (rewrite Hh; exact Hlock).
  erewrite file_solo_step by (cbn [StateFile.step save_step]; by rewrite Hr). fold d2. rewrite Hs.
  erewrite file_solo_step by (cbn [StateFile.step save_step]; reflexivity).
  assert (exists d4 rs4, solo (r2 :: r3 :: r4 :: rs') (if b then SvBak s else SvPub s) d3 = solo rs4 (SvPub s) d4 /\
    quiet_reads rs4 /\ (2 <= length rs4)%nat /\ heal_lock d4 = Some t /\ entries d4 !! Temp t = Some f /\
    entries d4 !! Bak 1 = (if b then entries d1 !! TempBak t else None) /\
    (forall m, temporary m = false -> m <> Bak 1 -> entries d4 !! m = entries d3 !! m)) as
    (d4 & rs4 & Hs4 & Hq4 & Hl4 & Hk4 & Hf4 & Hb4 & Hx4).
  { destruct b.
    - destruct (Hb eq_refl) as [g Hg]. rewrite Hg in Hb3. destruct (replace_some _ (Bak 1) _ _ Hb3) as [d4 Hd4].
      exists d4, (r3 :: r4 :: rs'). split_and!; [|by repeat constructor|simpl; lia| | | |].
      + by erewrite file_solo_step by (cbn [StateFile.step save_step]; by rewrite H1, Hd4).
      + unfold replace in Hd4. rewrite Hb3 in Hd4. by injection Hd4 as <-.
      + destruct (entries_replace _ _ _ _ (Temp t) Hd4) as (? & _ & ->); [done|]. by rewrite !decide_False.
      + destruct (entries_replace _ _ _ _ (Bak 1) Hd4) as (? & Hg' & ->); [done|]. rewrite decide_True by done. rewrite Hg. congruence.
      + intros m Hm Hm1. destruct (entries_replace _ _ _ _ m Hd4) as (? & _ & ->); [done|].
        rewrite !decide_False; [done| |done]. by intros ->.
    - exists d3, (r2 :: r3 :: r4 :: rs'). split_and!; [done|by repeat constructor|simpl; lia|done|done| |done].
      rewrite Hx. done. }
  rewrite Hs4. destruct rs4 as [|r5 [|r6 rs4]]; try (simpl in Hl4; lia). repeat (apply Forall_cons in Hq4 as [? Hq4]).
  destruct (replace_some _ Live _ _ Hf4) as [d5 Hd5].
  exists {| entries := entries d5; inodes := inodes d5; heal_lock := None; sidecar := sidecar d5 |}.
  assert (heal_lock d5 = Some t) as Hl5 by (unfold replace in Hd5; rewrite Hf4 in Hd5; by injection Hd5 as <-).
  split_and!.
  - erewrite file_solo_step by (cbn [StateFile.step save_step]; by rewrite H4, Hd5).
    unfold saved. rewrite Hn.
    erewrite file_solo_step by (cbn [StateFile.step heal_step]; by rewrite Hl5, bool_decide_eq_true_2). by rewrite file_solo_done.
  - done.
  - cbn. destruct (entries_replace _ _ _ _ Live Hd5) as (? & Hg & ->); [done|]. rewrite decide_True by done. congruence.
  - cbn. destruct (entries_replace _ _ _ _ (Bak 1) Hd5) as (? & _ & ->); [done|]. by rewrite !decide_False.
  - intros m Hm Hm1 Hm2. cbn. destruct (entries_replace _ _ _ _ m Hd5) as (? & _ & ->); [done|].
    rewrite !decide_False by (done || by intros ->). by rewrite Hx4.
Qed.

Lemma save_alone s d rs :
  s_keep s = true -> s_missing s = false -> s_next s = AfterSave false -> (1 <= s_count s)%nat ->
  heal_lock d = None -> alive t = true -> quiet_reads rs ->
  (12 + length (s_text s) + length (default [] (option_map bytes (entries d !! Live))) + s_count s <= length rs)%nat ->
  exists d', solo rs (SvLock s) d = (Done (Saved true), d') /\ heal_lock d' = None /\
    forall m, after_save (s_count s) (s_text s) d m (entries d' !! m).
Proof.
  intros Hk Hmis Hn Hc Hlock Hal Hq Hl.
  destruct rs as [|r0 [|r1 [|r2 [|r3 rs]]]]; try (simpl in Hl; lia).
  destruct (save_head s d r0 r1 r2 r3 rs Hk Hmis Hlock Hal Hq) as (d1 & f & -> & Hf & Hb & Hl1 & Hx1).
  do 4 (apply Forall_cons in Hq as [_ Hq]). simpl in Hl.
  destruct (piece_loop (SvWrite s) (Temp t) (write_piece s) rs (s_text s) d1 f
    (8 + length (default [] (option_map bytes (entries d !! Live))) + s_count s) Hf Hq) as (rs' & at_ & d2 & Hm & Hsuf & -> & Hh2 & Hx2);
    [lia|].
  assert (quiet_reads rs') as Hq' by (destruct Hsuf as [l ->]; by apply Forall_app in Hq as [_ Hq]).
  destruct rs' as [|r4 rs']; [simpl in Hm; lia|]. apply Forall_cons in Hq' as [Hr4 Hq']. simpl in Hm.
  erewrite file_solo_step by (cbn [StateFile.step save_step]; by rewrite Hr4). rewrite Hk.
  assert (entries d2 !! Live = entries d !! Live) as Hlive by (rewrite Hx2, decide_False by done; by apply Hx1).
  destruct (copy_phase s d2 rs' (5 + s_count s) Hq') as (rs2 & d3 & Hq2 & Hm2 & -> & Hh3 & Hx3 & Hcb & Hct); [rewrite Hlive; lia|].
  destruct (publish_phase s (bool_decide (is_Some (entries d2 !! Live))) d3 rs2
    {| inode := inode f; mtime := at_; bytes := bytes f ++ s_text s |}) as (d' & Hs & Hk' & HL & HB & Hrest); try done.
  - congruence.
  - rewrite Hx3 by done. by rewrite Hx2, decide_True.
  - intros Hb1%bool_decide_eq_true. destruct Hb1 as [g Hg]. rewrite Hg in Hcb.
    destruct (entries d3 !! TempBak t); [by eexists|done].
  - exists d'. split; [done|]. split; [done|].
    assert (forall m, temporary m = false -> entries d3 !! m = entries d !! m) as Hx.
    { intros m Hm0. rewrite Hx3 by (by intros ->). rewrite Hx2, decide_False by (by intros <-). by apply Hx1. }
    intros m. unfold after_save. destruct m as [| [|[|k]]| | | | |]; try done;
      try (rewrite Hrest by done; unfold shifted; rewrite entries_unlink, decide_False by (intros Hk0; first [done|injection Hk0; lia]); by apply Hx).
    + rewrite HL. eexists. split; [done|]. cbn. by rewrite Hb.
    + rewrite HB. rewrite Hlive in *. case_bool_decide as Hs1; [by rewrite Hcb, Hct|].
      apply eq_None_not_Some in Hs1. by rewrite Hs1.
    + rewrite Hrest by done. unfold shifted. rewrite !entries_unlink.
      destruct (S k <=? s_count s - 1)%nat eqn:E1; destruct (S k <? s_count s)%nat eqn:E2;
        rewrite ?Nat.leb_le, ?Nat.leb_gt, ?Nat.ltb_lt, ?Nat.ltb_ge in *; try lia.
      * rewrite decide_False by (intros Hk0; injection Hk0; lia). by apply Hx.
      * case_decide as Hd; [|by apply Hx]. injection Hd as Hd. subst. lia.
Qed.

(** ** A save that may fail *)

(** Before it publishes its text a save leaves the live file alone. *)
Definition unpublished (p : place) : bool :=
  match p with
  | SvLock _ | SvCheck _ | SvSweep _ | SvOpen _ | SvWrite _ _ | SvCopy _ | SvCopying _ _ _ | SvDrop _ _ | SvRot _ _ _
  | SvBak _ | SvPub _ | SvClean _ _ => true
  | Unlock (Done (Saved false)) | Done (Saved false) | Unlock (Done (SaveRaised _)) | Done (SaveRaised _) => true
  | _ => false
  end.
Definition published_ok (p : place) : bool :=
  match p with Unlock (Done (Saved true)) | Done (Saved true) => true | _ => false end.

(** The save a place belongs to. *)
Definition save_of (p : place) : option save :=
  match p with
  | SvLock s | SvCheck s | SvSweep s | SvOpen s | SvWrite s _ | SvCopy s | SvCopying s _ _ | SvDrop s _ | SvRot s _ _
  | SvBak s | SvPub s | SvClean s _ => Some s
  | _ => None
  end.

Definition save_state (s : save) (live : option file) (p : place) (d : dir) : Prop :=
  (forall s', save_of p = Some s' -> s' = s) /\ whole d /\ place_ok t p d /\
  ((unpublished p = true /\ entries d !! Live = live) \/
   (published_ok p = true /\ option_map bytes (entries d !! Live) = Some (s_text s))).

Lemma failed_plain s e :
  s_next s = AfterSave false -> failed s e = Unlock (Done (Saved false)) \/ failed s e = Unlock (Done (SaveRaised e)).
Proof. intros Hn. unfold failed. rewrite Hn. destruct (s_log s); auto. Qed.

(** What one step of a plain save may do to the live file. *)
Lemma save_live s live p r d p' d' :
  s_next s = AfterSave false -> save_state s live p d -> step alive t p r d = Some (p', d') ->
  (forall s', save_of p' = Some s' -> s' = s) /\
  ((unpublished p' = true /\ entries d' !! Live = live) \/
   (published_ok p' = true /\ option_map bytes (entries d' !! Live) = Some (s_text s))).
Proof.
  intros Hn (Hsv & Hw & Hp & Hst) Hs.
  destruct p; try (destruct Hst as [[Hu _]|[Hu _]]; done);
    try (specialize (Hsv _ eq_refl); subst s0);
    try (destruct Hst as [[_ Hlive]|[? _]]; [|done]); cbn [StateFile.step save_step] in Hs.
  - destruct (s_keep s || s_missing s); [unfold take_lock in Hs; destruct (fault r); [|destruct (heal_lock d); [done|]]|];
      injection Hs as <- <-; (split; [by intros ? [= <-]|by left]).
  - injection Hs as <- <-. destruct (_ && _); (split; [by intros ? [= <-]|by left]).
  - injection Hs as <- <-. split; [by intros ? [= <-]|]. left. split; [done|]. destruct (fault r); [done|].
    by rewrite entries_sweep.
  - destruct (fault r); injection Hs as <- <-; (split; [by intros ? [= <-]|]; left; split; [done|]); [done|].
    by rewrite entries_new, decide_False.
  - destruct rest as [|b rest]; destruct (fault r); injection Hs as <- <-; try (split; [by intros ? [= <-]|]; by left).
    + destruct (s_keep s); (split; [by intros ? [= <-]|by left]).
    + split; [by intros ? [= <-]|]. left. split; [done|]. by rewrite entries_edit, decide_False.
  - destruct (fault r); [injection Hs as <- <-; split; [by intros ? [= <-]|by left]|].
    destruct (entries d !! Live) eqn:Hl; injection Hs as <- <-; (split; [by intros ? [= <-]|]; left; split; [done|]).
    + by rewrite entries_new, decide_False, Hl.
    + by rewrite entries_unlink, decide_False, Hl.
  - destruct rest as [|b rest]; destruct (fault r); injection Hs as <- <-; (split; [by intros ? [= <-]|]; left; split; [done|]);
      rewrite ?entries_edit, ?decide_False by done; done.
  - destruct (fault r); injection Hs as <- <-; (split; [by intros ? [= <-]|]; left; split; [done|]); [done|].
    by rewrite entries_unlink, decide_False.
  - destruct i as [|i]; [injection Hs as <- <-; destruct backed; (split; [by intros ? [= <-]|by left])|].
    destruct (entries d !! Bak (S i)) as [g|] eqn:Hg; [|injection Hs as <- <-; split; [by intros ? [= <-]|by left]].
    destruct (fault r); [injection Hs as <- <-; split; [by intros ? [= <-]|by left]|].
    destruct (replace_some _ (Bak (S (S i))) _ _ Hg) as [d1 Hr]. rewrite Hr in Hs. injection Hs as <- <-.
    split; [by intros ? [= <-]|]. left. split; [done|].
    destruct (entries_replace _ _ _ _ Live Hr) as (? & _ & ->); [by intros [= ?]; lia|]. by rewrite !decide_False.
  - destruct (fault r); [injection Hs as <- <-; split; [by intros ? [= <-]|by left]|].
    destruct (replace (TempBak t) (Bak 1) d) as [d1|] eqn:Hr; injection Hs as <- <-; (split; [by intros ? [= <-]|]; left; split; [done|]); [|done].
    destruct (entries_replace _ _ _ _ Live Hr) as (? & _ & ->); [done|]. by rewrite !decide_False.
  - destruct (fault r); [injection Hs as <- <-; split; [by intros ? [= <-]|by left]|].
    destruct (replace (Temp t) Live d) as [d1|] eqn:Hr; injection Hs as <- <-; [|split; [by intros ? [= <-]|by left]].
    destruct Hp as [_ (f & Hf & He)]. destruct (entries_replace _ _ _ _ Live Hr) as (g & Hg & HL); [done|].
    unfold saved. rewrite Hn. split; [done|]. right. split; [done|]. rewrite HL, decide_True by done. simplify_eq. simpl. congruence.
  - injection Hs as <- <-. assert (entries (if fault r then d else unlink (TempBak t) (unlink (Temp t) d)) !! Live = live) as Hl
      by (destruct (fault r); [done|by rewrite !entries_unlink, !decide_False]).
    destruct (failed_plain s e Hn) as [-> | ->]; (split; [done|by left]).
  - destruct p; try (destruct Hst as [[Hu _]|[Hu _]]; done). injection Hs as <- <-. split; [done|].
    assert (entries (if bool_decide (heal_lock d = Some t)
      then {| entries := entries d; inodes := inodes d; heal_lock := None; sidecar := sidecar d |} else d) = entries d) as ->
      by by case_bool_decide.
    destruct o as [[]| | | | |]; try done; by destruct Hst as [[? ?]|[? ?]]; auto.
Qed.

Lemma save_state_run s live rs p d p' d' :
  s_next s = AfterSave false -> save_state s live p d -> solo rs p d = (p', d') -> save_state s live p' d'.
Proof.
  intros Hn. revert p d. induction rs as [|r rs IH]; intros p d Hst Hs; cbn [solo] in Hs; [by simplify_eq|].
  destruct (step alive t p r d) as [[p1 d1]|] eqn:H1; [|by simplify_eq]. apply (IH p1 d1); [|done].
  destruct (save_live _ _ _ _ _ _ _ Hn Hst H1) as [Hsv Hl]. destruct Hst as (_ & Hw & Hp & _).
  destruct (step_is_sound _ _ _ _ _ _ _ Hw Hp H1) as (Hw' & Hp' & _). done.
Qed.

(** ** A heal alone *)

(** The backups before the first valid one. *)
Definition first_valid (d : dir) (i : nat) (v : json) (fi : file) : Prop :=
  (1 <= i <= 3)%nat /\ entries d !! Bak i = Some fi /\ check (bytes fi) = inl v /\
  forall j f, (1 <= j < i)%nat -> entries d !! Bak j = Some f -> exists b, check (bytes f) = inr b.

Fixpoint walk_list (d : dir) (j n : nat) : list (nat * key) :=
  match n with
  | 0 => []
  | S n => match entries d !! Bak j with Some f => [(j, stat_key f)] | None => [] end ++ walk_list d (S j) n
  end.

Lemma pick_walk h d n : forall j rs,
  quiet_reads rs -> (1 + n <= length rs)%nat -> (1 <= j)%nat -> (j + n <= 3)%nat ->
  (forall k f, (j <= k < j + n)%nat -> entries d !! Bak k = Some f -> exists b, check (bytes f) = inr b) ->
  forall v fi, entries d !! Bak (j + n) = Some fi -> check (bytes fi) = inl v ->
  exists rs' h', rs' `suffix_of` rs /\ (length rs <= length rs' + (1 + n))%nat /\
    solo rs (PkBak h j) d = solo rs' (PkTime h') d /\
    h' = {| h_query := h_query h; h_from := h_from h; h_sig := h_sig h; h_walked := h_walked h ++ walk_list d j n;
            h_bak := Some (j + n)%nat; h_stamp := h_stamp h |}.
Proof.
  revert h. induction n as [|n IH]; intros h j rs Hq Hl Hj Hjn Hbad v fi Hfi Hv; (destruct rs as [|r rs]; [simpl in Hl; lia|]);
    apply Forall_cons in Hq as [Hr Hq]; assert ((3 <? j)%nat = false) as Hj3 by (apply Nat.ltb_ge; lia).
  - rewrite Nat.add_0_r in *. exists rs. eexists. split_and!; [by eexists [r]|simpl; lia| |reflexivity].
    erewrite file_solo_step by (cbn [StateFile.step pick_step]; rewrite Hj3, Hfi, Hr, Hv; reflexivity).
    simpl. by rewrite app_nil_r, Nat.add_0_r.
  - set (h1 := match entries d !! Bak j with Some f => walk_past h j (stat_key f) | None => h end).
    destruct (IH h1 (S j) rs) with (v := v) (fi := fi) as (rs' & h' & Hsuf & Hlen & Hs & ->).
    + done.
    + simpl in Hl. lia.
    + lia.
    + lia.
    + intros k f Hk. apply Hbad. lia.
    + replace (S j + n)%nat with (j + S n)%nat by lia. done.
    + done.
    + exists rs'. eexists. split_and!; [by apply suffix_cons_r|simpl; lia| |reflexivity].
      assert (step alive t (PkBak h j) r d = Some (PkBak h1 (S j), d)) as H1.
      { cbn [StateFile.step pick_step]. rewrite Hj3. unfold h1. destruct (entries d !! Bak j) as [f|] eqn:Hf; [|done].
        rewrite Hr. destruct (Hbad j f) as [b Hb]; [lia|done|]. by rewrite Hb. }
      erewrite file_solo_step by exact H1. rewrite Hs. f_equal. f_equal. unfold h1. simpl.
      replace (S (j + n))%nat with (j + S n)%nat by lia.
      destruct (entries d !! Bak j); simpl; [by rewrite <-app_assoc|done].
Qed.

(** The corrupt backups are moved aside. *)
Definition moved_aside (stamp : Z) (js : list nat) (d : dir) (m : fname) : option file :=
  match m with
  | Bak j => if decide (j ∈ js) then None else entries d !! m
  | BakQuar j z => if decide (z = stamp /\ j ∈ js) then entries d !! Bak j else entries d !! m
  | _ => entries d !! m
  end.

Lemma corrupt_loop h v o l rs d :
  quiet_reads rs -> (2 * length l <= length rs)%nat -> NoDup (map fst l) ->
  (forall j k, (j, k) ∈ l -> exists f, entries d !! Bak j = Some f /\ stat_key f = k) ->
  exists rs' d', rs' `suffix_of` rs /\ (length rs <= length rs' + 2 * length l)%nat /\
    solo rs (HlCorrupt h l v o) d = solo rs' (HlCorrupt h [] v o) d' /\ heal_lock d' = heal_lock d /\
    forall m, entries d' !! m = moved_aside (h_stamp h) (map fst l) d m.
Proof.
  revert rs d. induction l as [|[j k] l IH]; intros rs d Hq Hl Hnd Hk.
  { exists rs, d. split_and!; [done|simpl; lia|done|done|]. intros m. unfold moved_aside. simpl.
    destruct m; try done; rewrite decide_False; try done. intros [_ Hn]; by apply not_elem_of_nil in Hn. }
  destruct rs as [|r1 [|r2 rs]]; [simpl in Hl; lia..|]. apply Forall_cons in Hq as [H1 Hq]. apply Forall_cons in Hq as [H2 Hq].
  cbn [map fst] in Hnd. apply NoDup_cons in Hnd as [Hj Hnd].
  destruct (Hk j k) as (f & Hf & Hkey); [by left|].
  destruct (replace_some _ (BakQuar j (h_stamp h)) _ _ Hf) as [d1 Hd1].
  assert (forall m, entries d1 !! m = if decide (m = BakQuar j (h_stamp h)) then Some f else
    if decide (m = Bak j) then None else entries d !! m) as Hx1.
  { intros m. destruct (entries_replace _ _ _ _ m Hd1) as (f' & Hf' & ->); [done|]. by simplify_eq. }
  destruct (IH rs d1) as (rs' & d' & Hsuf & Hlen & Hs & Hh & Hx); [done|simpl in Hl; lia|done| |].
  { intros j' k' Hin. destruct (Hk j' k') as (f' & Hf' & Hkey'); [by right|]. exists f'. split; [|done].
    rewrite Hx1, decide_False by done. rewrite decide_False; [done|]. intros [= ->]. apply Hj.
    apply list_elem_of_fmap. by exists (j, k'). }
  exists rs', d'. split_and!; [by do 2 apply suffix_cons_r|simpl; lia| | |].
  - erewrite file_solo_step by (cbn [StateFile.step heal_step]; rewrite H1, Hf, bool_decide_eq_true_2 by done; reflexivity).
    erewrite file_solo_step by (cbn [StateFile.step heal_step]; rewrite H2, Hd1; reflexivity). done.
  - rewrite Hh. unfold replace in Hd1. rewrite Hf in Hd1. by injection Hd1 as <-.
  - intros m. rewrite Hx. unfold moved_aside. cbn [map fst].
    destruct m as [|i| | | |i z|]; rewrite ?Hx1; try (rewrite !decide_False by done; done).
    + destruct (decide (i = j)) as [->|Hij].
      * rewrite (decide_True (P := j ∈ j :: map fst l)) by (by left). rewrite decide_False by done.
        by rewrite (decide_False (P := Bak j = BakQuar _ _)), decide_True by done.
      * rewrite (decide_False (P := Bak i = BakQuar _ _)) by done. rewrite (decide_False (P := Bak i = Bak j)) by congruence.
        destruct (decide (i ∈ map fst l)); [by rewrite decide_True by (by right)|].
        rewrite decide_False; [done|]. intros [?|?]%elem_of_cons; done.
    + destruct (decide (z = h_stamp h)) as [->|Hz].
      * destruct (decide (i = j)) as [->|Hij].
        -- rewrite (decide_False (P := _ /\ j ∈ map fst l)) by (by intros [_ ?]). rewrite decide_True by done.
           rewrite decide_True by (split; [done|by left]). done.
        -- rewrite (decide_False (P := Bak i = BakQuar _ _)), (decide_False (P := Bak i = Bak j)) by congruence.
           rewrite (decide_False (P := BakQuar i _ = BakQuar j _)), (decide_False (P := BakQuar i _ = Bak j)) by congruence.
           destruct (decide (i ∈ map fst l)).
           ++ rewrite decide_True by done. by rewrite decide_True by (split; [done|by right]).
           ++ rewrite decide_False by (by intros [_ ?]). rewrite decide_False; [done|].
              intros [_ [?|?]%elem_of_cons]; done.
      * rewrite decide_False by (by intros [? _]). rewrite decide_False by congruence. rewrite decide_False by done.
        by rewrite decide_False by (by intros [? _]).
Qed.

Lemma walk_list_spec d n : forall j,
  NoDup (map fst (walk_list d j n)) /\ (length (walk_list d j n) <= n)%nat /\
  (forall k s, (k, s) ∈ walk_list d j n -> (j <= k < j + n)%nat /\ exists f, entries d !! Bak k = Some f /\ stat_key f = s) /\
  (forall k f, (j <= k < j + n)%nat -> entries d !! Bak k = Some f -> k ∈ map fst (walk_list d j n)).
Proof.
  induction n as [|n IH]; intros j; cbn [walk_list].
  { split_and!; [constructor|simpl; lia|by intros k s ?%not_elem_of_nil|intros; lia]. }
  destruct (IH (S j)) as (H1 & H2 & H3 & H4). destruct (entries d !! Bak j) as [f|] eqn:Hf; cbn [app map fst length].
  - split_and!; [|lia| |].
    + apply NoDup_cons. split; [|done]. intros [[k s] [-> Hin]]%list_elem_of_fmap. apply H3 in Hin as [? _]. simpl in *. lia.
    + intros k s [[= -> ->]|Hin]%elem_of_cons; [split; [lia|by exists f]|]. apply H3 in Hin as [? ?]. split; [lia|done].
    + intros k g Hk Hg. destruct (decide (k = j)) as [->|]; [by left|right]. apply (H4 k g); [lia|done].
  - split_and!; [done|lia| |].
    + intros k s Hin. apply H3 in Hin as [? ?]. split; [lia|done].
    + intros k g Hk Hg. apply (H4 k g); [|done]. destruct (decide (k = j)) as [->|]; [congruence|lia].
Qed.

(** From the picked backup to the end. *)
Lemma install_phase h d rs i fi f v s0 :
  h_bak h = Some i -> h_sig h = Some (stat_key f) -> q_fallbacks (h_query h) = [] -> (1 <= i)%nat ->
  NoDup (map fst (h_walked h)) -> (length (h_walked h) <= 2)%nat ->
  (forall j k, (j, k) ∈ h_walked h -> j <> i /\ exists g, entries d !! Bak j = Some g /\ stat_key g = k) ->
  entries d !! Live = Some f -> entries d !! Bak i = Some fi -> check (bytes fi) = inl v ->
  entries d !! Quar (h_stamp h) 0 = None -> heal_lock d = Some t -> s0 = h_stamp h ->
  quiet_reads rs -> (14 <= length rs)%nat ->
  exists d', solo rs (PkTime h) d = (Done (Read_ v RestoredRead), d') /\ heal_lock d' = None /\
    entries d' !! Live = Some fi /\ entries d' !! Quar s0 0 = Some f /\ entries d' !! Bak i = None /\
    (forall j, j ∈ map fst (h_walked h) -> entries d' !! Bak j = None /\ entries d' !! BakQuar j s0 = entries d !! Bak j) /\
    (forall j, j <> i -> j ∉ map fst (h_walked h) -> entries d' !! Bak j = entries d !! Bak j).
Proof.
  intros Hb Hsig Hfb Hi Hnd Hlen Hwk Hlive Hfi Hv Hq0 Hlock -> Hq Hl.
  destruct rs as [|r1 [|r2 [|r3 [|r4 [|r5 [|r6 [|r7 [|r8 rs]]]]]]]]; try (simpl in Hl; lia).
  do 8 (apply Forall_cons in Hq as [? Hq]).
  assert (unchanged h d = true) as Hun by (unfold unchanged, live_key; by rewrite Hlive, Hsig, bool_decide_eq_true_2).
  set (dq := set_entries (<[Quar (h_stamp h) 0 := f]> (entries d)) d).
  assert (forall m, m <> Quar (h_stamp h) 0 -> entries dq !! m = entries d !! m) as Hdq
    by (intros m Hm; unfold dq; cbn; by rewrite lookup_insert_ne).
  assert (unchanged h dq = true) as Hunq by (unfold unchanged, live_key; by rewrite Hdq, Hlive, Hsig, bool_decide_eq_true_2).
  assert (entries dq !! Bak i = Some fi) as Hfiq by (by rewrite Hdq).
  destruct (replace_some _ Live _ _ Hfiq) as [dl Hdl].
  assert (forall m, entries dl !! m = if decide (m = Live) then Some fi else if decide (m = Bak i) then None else entries dq !! m) as Hxl.
  { intros m. destruct (entries_replace _ _ _ _ m Hdl) as (g & Hg & ->); [done|]. by simplify_eq. }
  destruct (corrupt_loop h v RestoredRead (h_walked h) rs dl) as (rs' & d' & Hsuf & Hlen' & Hs & Hh & Hx); [done|simpl in Hl; lia|done| |].
  { intros j k Hin. destruct (Hwk j k Hin) as (Hji & g & Hg & Hk). exists g. split; [|done].
    by rewrite Hxl, !decide_False, Hdq by congruence. }
  destruct rs' as [|r9 [|r10 rs']]; try (simpl in *; lia).
  assert (heal_lock d' = Some t) as Hl' by (rewrite Hh; unfold replace in Hdl; rewrite Hfiq in Hdl; by injection Hdl as <-).
  exists {| entries := entries d'; inodes := inodes d'; heal_lock := None; sidecar := sidecar d' |}. split.
  { erewrite file_solo_step by (cbn [StateFile.step pick_step]; rewrite Hb, H0, Hfi, Hfb; reflexivity).
    erewrite file_solo_step by (cbn [StateFile.step pick_step]; reflexivity).
    erewrite file_solo_step by (cbn [StateFile.step heal_step]; rewrite Hb; reflexivity).
    erewrite file_solo_step by (cbn [StateFile.step heal_step]; rewrite Hsig, H3, Hun; reflexivity).
    erewrite file_solo_step by (cbn [StateFile.step heal_step Nat.eqb]; rewrite Hq0, H4, Hlive; reflexivity). fold dq.
    erewrite file_solo_step by (cbn [StateFile.step heal_step]; rewrite H5, Hunq; reflexivity). cbn [negb].
    erewrite file_solo_step by (cbn [StateFile.step heal_step]; rewrite H6, Hb; cbn [from_option id]; cbv zeta; rewrite Hfiq, Hv; reflexivity).
    erewrite file_solo_step by (cbn [StateFile.step heal_step]; rewrite H7, Hdl; reflexivity).
    cbn [installed]. unfold restored. rewrite Hsig. rewrite Hs.
    erewrite file_solo_step by (cbn [StateFile.step heal_step]; reflexivity).
    erewrite file_solo_step by (cbn [StateFile.step heal_step]; rewrite Hl', bool_decide_eq_true_2 by done; reflexivity).
    by rewrite file_solo_done. }
  cbn [heal_lock entries]. split; [done|]. rewrite !Hx. unfold moved_aside. rewrite !Hxl.
  assert (i ∉ map fst (h_walked h)) as Hni by (intros [[k s] [-> Hin]]%list_elem_of_fmap; by destruct (Hwk _ _ Hin)).
  split_and!.
  - by rewrite decide_True.
  - rewrite !decide_False by done. unfold dq. cbn. by rewrite lookup_insert_eq.
  - rewrite decide_False by done. rewrite decide_False by done. by rewrite decide_True.
  - intros j Hj. rewrite !Hx. unfold moved_aside. rewrite decide_True by done. split; [done|].
    rewrite decide_True by done. assert (j <> i) by (by intros ->). by rewrite Hxl, !decide_False, Hdq by congruence.
  - intros j Hj Hjw. rewrite Hx. unfold moved_aside. rewrite decide_False by done.
    rewrite Hxl, !decide_False, Hdq by congruence. done.
Qed.

Lemma heal_alone q d f b i v fi rs :
  q_recover q = RHeal \/ q_recover q = RRestore -> q_fallbacks q = [] -> heal_lock d = None ->
  entries d !! Live = Some f -> check (bytes f) = inr b -> first_valid d i v fi ->
  (forall z, entries d !! Quar z 0 = None) -> quiet_reads rs -> (20 <= length rs)%nat ->
  exists z d', solo rs (RdStart q) d = (Done (Read_ v RestoredRead), d') /\ heal_lock d' = None /\
    entries d' !! Live = Some fi /\ entries d' !! Quar z 0 = Some f /\ entries d' !! Bak i = None /\
    (forall j g, (1 <= j < i)%nat -> entries d !! Bak j = Some g ->
       entries d' !! Bak j = None /\ entries d' !! BakQuar j z = Some g) /\
    (forall j, (i < j)%nat -> entries d' !! Bak j = entries d !! Bak j).
Proof.
  intros Hrec Hfb Hlock Hlive Hbad (Hi & Hfi & Hv & Hbelow) Hquar Hq Hl.
  destruct rs as [|r0 [|r1 [|r2 rs]]]; try (simpl in Hl; lia). do 3 (apply Forall_cons in Hq as [? Hq]). simpl in Hl.
  set (dl := set_lock (Some t) d).
  set (h := start_heal q (Some b) (Some (stat_key f)) (now r2)).
  destruct (pick_walk h dl (i - 1) 1 rs) with (v := v) (fi := fi) as (rs' & h' & Hsuf & Hlen & Hs & ->);
    [done|lia|lia|lia|intros k g Hk; apply Hbelow; lia|by replace (1 + (i - 1))%nat with i by lia|done|].
  replace (1 + (i - 1))%nat with i in * by lia. cbn [h_walked app] in Hs.
  set (h' := {| h_query := _; h_bak := Some i |}) in Hs.
  destruct (walk_list_spec dl (i - 1) 1) as (W1 & W2 & W3 & W4).
  destruct (install_phase h' dl rs' i fi f v (now r2)) as (d' & Hd & Hk & HL & HQ & HB & HW & HR); try done.
  - lia.
  - simpl. lia.
  - intros j k Hin. apply W3 in Hin as [Hj Hg]. split; [lia|done].
  - destruct Hsuf as [l ->]. by apply Forall_app in Hq as [_ Hq].
  - lia.
  - exists (now r2), d'. split_and!; try done.
    + erewrite file_solo_step by (cbn [StateFile.step read_step]; rewrite H0, Hlive, Hbad; reflexivity).
      replace (match q_recover q with RDefault | RContent => _ | RRaise => _ | _ => _ end) with (HlLock q b (stat_key f))
        by (destruct Hrec as [-> | ->]; reflexivity).
      erewrite file_solo_step by (cbn [StateFile.step heal_step]; unfold take_lock; rewrite H1, Hlock; reflexivity). fold dl.
      erewrite file_solo_step by (cbn [StateFile.step heal_step]; rewrite H2; change (entries dl) with (entries d);
        rewrite Hlive, Hbad; reflexivity). fold h. by rewrite Hs.
    + intros j g Hj Hg. destruct (HW j) as [Hn Hm]; [apply (W4 j g); [lia|done]|]. by rewrite Hm.
    + intros j Hj. apply HR; [lia|]. intros [[k s] [-> Hin]]%list_elem_of_fmap. apply W3 in Hin as [? _]. simpl in *. lia.
Qed.
End alone.

(** ** What a reader is told *)

(** Data of a file: its bytes decode, parse and pass both checks. *)
Definition from_file (v : json) : Prop := exists raw, check raw = inl v.

(** An answer [o] with data [v] under the policy [rc]. *)
Definition answer_ok (rc : recovery) (v : json) (o : read_outcome) : Prop :=
  match o with
  | OkRead => from_file v
  | RestoredRead => from_file v /\ (rc = RRestore \/ rc = RHeal)
  | MissingRead => v = the_default
  | DefaultedRead => v = the_default /\ (rc = RDefault \/ rc = RContent)
  | ResetRead => v = the_default /\ rc = RHeal
  end.

Definition heals (rc : recovery) : Prop := rc = RRestore \/ rc = RHeal.
Definition query_ok (rc : recovery) (q : query) : Prop := q_recover q = rc.
Definition heal_ok (rc : recovery) (h : healing) : Prop := q_recover (h_query h) = rc /\ heals rc.

Definition install_ok (rc : recovery) (i : install) : Prop :=
  match i with FromBak _ v | FromFallback _ v => from_file v | FromDefault v => v = the_default /\ rc = RHeal end.

Definition next_ok (rc : recovery) (n : next) : Prop :=
  match n with AfterInstall h i => heal_ok rc h /\ install_ok rc i | _ => True end.

Fixpoint telling (rc : recovery) (p : place) : Prop :=
  match p with
  | SvLock s | SvCheck s | SvSweep s | SvOpen s | SvWrite s _ | SvCopy s | SvCopying s _ _ | SvDrop s _ | SvRot s _ _
  | SvBak s | SvPub s | SvClean s _ | VfStat s | VfRead s _ | VfNow s _ | VfRestore s => next_ok rc (s_next s)
  | RdStart q | RdMissing q => query_ok rc q
  | RdWait q | RsCheck q | RsLock q | HlLock q _ _ | HlAgain q _ | RsUnder q _ => query_ok rc q /\ heals rc
  | PkBak h _ | PkTime h | PkFallback h _ _ | Picked h _ | InRead h _ => heal_ok rc h
  | HlUnchanged h i _ | HlLink h i _ _ | HlUnchanged2 h i _ =>
      heal_ok rc h /\ match i with Some i => install_ok rc i | None => True end
  | InMove h _ v | InDelete h _ v => heal_ok rc h /\ from_file v
  | HlCorrupt h _ v o | HlMove h _ _ v o => heal_ok rc h /\ answer_ok rc v o
  | HlAfter _ => True
  | Unlock p => telling rc p
  | Done (Read_ v o) => answer_ok rc v o
  | Done _ | Killed => True
  end.

Lemma changed_telling rc h : heal_ok rc h -> telling rc (changed h).
Proof. intros [Hq _]. unfold changed. by destruct (h_from h). Qed.
Lemma restored_telling rc h v : heal_ok rc h -> from_file v -> telling rc (restored h v).
Proof. intros [Hq Hr] Hv. unfold restored. destruct (h_sig h); simpl; by repeat split. Qed.
Lemma installed_telling rc h i : heal_ok rc h -> install_ok rc i -> telling rc (installed h i).
Proof. intros Hh. destruct i; simpl; [by apply restored_telling|done|done]. Qed.
Lemma saved_telling rc s : next_ok rc (s_next s) -> telling rc (saved s).
Proof.
  intros Hn. unfold saved. destruct (s_next s) as [[]| |h i] eqn:E; [cbn; by rewrite E|done..|]. destruct Hn. by apply installed_telling.
Qed.
Lemma failed_telling rc s e : next_ok rc (s_next s) -> telling rc (failed s e).
Proof.
  intros Hn. unfold failed. destruct (s_next s) as [b| |h i]; try by destruct (s_log s).
  destruct Hn as [Hh Hi]. unfold install_failed. destruct i, e; try done. by apply changed_telling.
Qed.
Lemma missing_telling rc : telling rc (default_missing default_).
Proof. clear P_default. unfold default_missing. destruct default_ as [v|] eqn:E; [|exact I]. cbn. unfold StateFile.the_default. by rewrite E. Qed.

Lemma check_from_file b v : check b = inl v -> from_file v.
Proof. by exists b. Qed.

Lemma telling_step rc alive t p r d p' d' : telling rc p -> step alive t p r d = Some (p', d') -> telling rc p'.
Proof.
  intros Hp Hs. destruct p; cbn [StateFile.step save_step verify_step read_step pick_step heal_step] in Hs; cbn [telling] in Hp;
    try done.
  - unfold take_lock in Hs. repeat case_match; simplify_eq; done.
  - injection Hs as <- <-. by destruct (_ && _).
  - by injection Hs as <- <-.
  - by destruct (fault r); injection Hs as <- <-.
  - destruct rest; destruct (fault r); injection Hs as <- <-; try done. by destruct (s_keep s).
  - destruct (fault r); [by injection Hs as <- <-|]. by destruct (entries d !! Live); injection Hs as <- <-.
  - by destruct rest; destruct (fault r); injection Hs as <- <-.
  - by destruct (fault r); injection Hs as <- <-.
  - destruct i; [injection Hs as <- <-; by destruct backed|].
    destruct (entries d !! Bak (S i)); [|by injection Hs as <- <-]. by destruct (fault r); injection Hs as <- <-.
  - destruct (fault r); [by injection Hs as <- <-|]. by destruct (replace _ _ d); injection Hs as <- <-.
  - destruct (fault r); [by injection Hs as <- <-|].
    destruct (replace _ _ d); injection Hs as <- <-; [by apply saved_telling|done].
  - injection Hs as <- <-. by apply failed_telling.
  - by injection Hs as <- <-.
  - injection Hs as <- <-. destruct (fault r); [done|]. destruct (entries d !! Live); [|done]. by case_bool_decide.
  - injection Hs as <- <-. destruct after; [|done]. destruct (if fault r then None else live_key d); [|done]. by case_bool_decide.
  - injection Hs as <- <-. destruct (entries d !! Bak 1); [|done]. destruct (_ || _); [done|]. by destruct (utf8_decode _).
  - injection Hs as <- <-. destruct (fault r).
    { case_bool_decide as Hd; [|done]. unfold query_ok in Hp. cbn. split; [done|]. left. congruence. }
    destruct (entries d !! Live) as [f|]; [|done]. destruct (check (bytes f)) as [v|b] eqn:Hv; [by apply check_from_file in Hv|].
    unfold query_ok in *. destruct (q_recover q) eqn:Hq; cbn; unfold query_ok, heals; rewrite ?Hq; subst rc; auto.
  - injection Hs as <- <-. unfold query_ok in *.
    destruct (q_recover q) eqn:Hq; try apply missing_telling;
      (destruct (_ && _); [cbn; unfold query_ok, heals; rewrite Hq; subst rc; auto|]);
      (case_bool_decide as Hd; [cbn; unfold query_ok, heals; rewrite Hq; subst rc; auto|apply missing_telling]).
  - destruct Hp as [Hp Hh]. destruct (fault r); [by injection Hs as <- <-|]. destruct (heal_lock d); [done|]. by injection Hs as <- <-.
  - injection Hs as <- <-. match goal with |- telling _ (if ?b then _ else _) => destruct b end; [done|apply missing_telling].
  - unfold take_lock in Hs. repeat case_match; simplify_eq; done.
  - unfold take_lock in Hs. repeat case_match; simplify_eq; done.
  - destruct Hp as [Hp Hh]. injection Hs as <- <-. destruct (fault r); [done|]. destruct (entries d !! Live) as [f|].
    + destruct (check (bytes f)) eqn:Hv; [by apply check_from_file in Hv|]. done.
    + by case_bool_decide.
  - destruct Hp as [Hp Hh]. injection Hs as <- <-. case_bool_decide; [by apply changed_telling|done].
  - injection Hs as <- <-. destruct (3 <? i)%nat; [done|]. destruct (entries d !! Bak i); [|done].
    destruct (fault r); [done|]. by destruct (check _).
  - injection Hs as <- <-. destruct (h_bak h); [|done]. by destruct (if fault r then None else entries d !! Bak n).
  - destruct fbs as [|k fbs]; injection Hs as <- <-; [done|].
    destruct (if fault r then None else entries d !! Fallback k); [|done]. destruct (check _); [|done]. by repeat case_match.
  - injection Hs as <- <-. destruct (h_bak h), fb, (h_sig h); try done; try (by destruct Hp).
    case_bool_decide as Hd; [done|]. destruct (finite_json _); [|done]. destruct Hp as [Hq [Hr|Hr]]; [congruence|].
    cbn. unfold heal_ok, heals. auto 6.
  - injection Hs as <- <-. destruct Hp as [Hh Hi]. destruct (h_sig h); [destruct (fault r); [done|]|];
      (destruct (unchanged h d); [done|by apply changed_telling]).
  - destruct Hp as [Hh Hi]. destruct (n =? 100)%nat; [by injection Hs as <- <-|].
    destruct (entries d !! Quar _ _); [by injection Hs as <- <-|]. destruct (fault r); [by injection Hs as <- <-|].
    destruct (entries d !! Live); injection Hs as <- <-; [done|by apply changed_telling].
  - destruct Hp as [Hh Hi]. injection Hs as <- <-. destruct (fault r); [done|].
    destruct (negb _); [by apply changed_telling|]. by destruct i as [[]|].
  - injection Hs as <- <-. destruct (fault r); [done|].
    destruct (entries d !! _) as [f|]; [|by apply changed_telling].
    destruct (check (bytes f)) eqn:Hv; [|by apply changed_telling]. apply check_from_file in Hv. by destruct fb.
  - destruct Hp as [Hh Hv]. destruct (fault r); [by injection Hs as <- <-|].
    destruct (replace _ _ d); injection Hs as <- <-; [by apply restored_telling|by apply changed_telling].
  - destruct Hp as [Hh Hv]. injection Hs as <- <-. by apply restored_telling.
  - destruct Hp as [Hh Hv]. destruct l as [|[j k] l]; injection Hs as <- <-; [done|].
    destruct (if fault r then None else entries d !! Bak j); [|done]. by case_bool_decide.
  - by injection Hs as <- <-.
  - injection Hs as <- <-. destruct (fault r); [done|]. destruct (entries d !! Live) as [f|]; [|done].
    destruct (check (bytes f)) eqn:Hv; [|done]. by apply check_from_file in Hv.
  - by injection Hs as <- <-.
Qed.

(** The run of one reader, whatever the directory is at each of its steps. *)
Fixpoint among (t : nat) (ms : list ((nat -> bool) * readings * dir)) (p : place) : place :=
  match ms with
  | [] => p
  | (alive, r, d) :: ms => match step alive t p r d with Some (p', _) => among t ms p' | None => among t ms p end
  end.

Lemma telling_among rc t ms p : telling rc p -> telling rc (among t ms p).
Proof.
  revert p. induction ms as [|[[alive r] d] ms IH]; intros p Hp; cbn [among]; [done|].
  destruct (step alive t p r d) as [[p' d']|] eqn:Hs; apply IH; [by eapply telling_step|done].
Qed.
End facts.

(** ** Properties *)

(** C10: Savers, readers and heals of one file in any interleaving, killed at any
    step, with any access failing: the live file, its backups and the fallbacks
    always hold whole contents (texts somebody saved or put there, or the printed
    default), never a part of one; and the live file, once there, is never absent
    unless somebody else deletes it. *)
Theorem state_files_stay_whole `{PyLib} (expect validate : json -> bool) (default_ : option json) (P : pybytes -> Prop)
    (ms : list fmove) (d : dir) (sys : fsystem) :
  (forall b, P b -> P (strip_bom b)) -> P (reset_bytes (the_default default_)) ->
  Forall (move_ok P) ms -> whole P d ->
  frun expect validate default_ ms {| dir_ := d; procs := [] |} = Some sys ->
  (forall n f, published n = true -> entries (dir_ sys) !! n = Some f -> P (bytes f)) /\
  (Outside Live None ∉ ms -> is_Some (entries d !! Live) -> is_Some (entries (dir_ sys) !! Live)).
Proof.
  intros Hb Hd Hm Hw Hr.
  destruct (frun_ok expect validate default_ P Hb Hd ms {| dir_ := d; procs := [] |} sys Hm) as [[Hw' _] Hl]; [|exact Hr|].
  - split; [done|]. by intros t p Ht.
  - split; [exact Hw'|exact Hl].
Qed.

(** A save that meets no fault ends after finitely many steps with its text in
    the live file, what was there before in the first backup, every older backup
    one place further, the oldest dropped, and everything else as it was; the lock
    is free again. *)
Theorem save_shifts_backups `{PyLib} (expect validate : json -> bool) (default_ : option json) (alive : nat -> bool) (t : nat)
    (s : save) (d : dir) (rs : list readings) :
  s_keep s = true -> s_missing s = false -> s_next s = AfterSave false -> (1 <= s_count s)%nat ->
  heal_lock d = None -> alive t = true -> quiet_reads rs ->
  (12 + length (s_text s) + length (default [] (option_map bytes (entries d !! Live))) + s_count s <= length rs)%nat ->
  exists d', solo expect validate default_ alive t rs (SvLock s) d = (Done (Saved true), d') /\ heal_lock d' = None /\
    forall m, after_save (s_count s) (s_text s) d m (entries d' !! m).
Proof. apply save_alone. Qed.

(** Whichever of its accesses fail and wherever it is killed, a save either
    leaves the live file untouched or has put its whole text there; when it reports
    success it is the text, when it reports failure the old file. *)
Theorem save_all_or_nothing `{PyLib} (expect validate : json -> bool) (default_ : option json) (alive : nat -> bool) (t : nat)
    (s : save) (d d' : dir) (rs : list readings) (p : place) :
  s_next s = AfterSave false -> solo expect validate default_ alive t rs (SvLock s) d = (p, d') ->
  (entries d' !! Live = entries d !! Live \/ option_map bytes (entries d' !! Live) = Some (s_text s)) /\
  (p = Done (Saved true) -> option_map bytes (entries d' !! Live) = Some (s_text s)) /\
  (p = Done (Saved false) \/ (exists e, p = Done (SaveRaised e)) -> entries d' !! Live = entries d !! Live).
Proof.
  intros Hn Hs.
  destruct (save_state_run expect validate default_ (fun _ => True) ltac:(done) I alive t s (entries d !! Live) rs (SvLock s) d p d')
    as (_ & _ & _ & Hst); [done| |done|].
  { split; [by intros ? [= <-]|]. split; [done|]. split; [done|]. by left. }
  split; [by destruct Hst as [[_ ?]|[_ ?]]; [left|right]|]. split.
  - intros ->. by destruct Hst as [[? _]|[_ ?]].
  - intros [-> |[e ->]]; by destruct Hst as [[_ ?]|[? _]].
Qed.

(** A read that heals or restores, of a live file that is not usable, answers
    with the first usable backup: that backup becomes the live file, the damaged
    bytes are kept in quarantine, damaged backups before it are moved aside, later
    backups stay, and the next read finds the live file in order. *)
Theorem heal_restores_first_backup `{PyLib} (expect validate : json -> bool) (default_ : option json) (alive : nat -> bool)
    (t : nat) (q : query) (d : dir) (f : file) (b : bad_kind) (i : nat) (v : json) (fi : file) (rs : list readings) :
  q_recover q = RHeal \/ q_recover q = RRestore -> q_fallbacks q = [] -> heal_lock d = None ->
  entries d !! Live = Some f -> check expect validate (bytes f) = inr b -> first_valid expect validate d i v fi ->
  (forall z, entries d !! Quar z 0 = None) -> quiet_reads rs -> (20 <= length rs)%nat ->
  exists z d', solo expect validate default_ alive t rs (RdStart q) d = (Done (Read_ v RestoredRead), d') /\
    heal_lock d' = None /\ entries d' !! Live = Some fi /\ entries d' !! Quar z 0 = Some f /\ entries d' !! Bak i = None /\
    (forall j g, (1 <= j < i)%nat -> entries d !! Bak j = Some g ->
       entries d' !! Bak j = None /\ entries d' !! BakQuar j z = Some g) /\
    (forall j, (i < j)%nat -> entries d' !! Bak j = entries d !! Bak j) /\
    forall r, fault r = false -> solo expect validate default_ alive t [r] (RdStart q) d' = (Done (Read_ v OkRead), d').
Proof.
  intros Hrec Hfb Hl Hlive Hbad Hfirst Hqu Hq Hlen.
  destruct (heal_alone expect validate default_ alive t q d f b i v fi rs) as (z & d' & H1 & H2 & H3 & H4 & H5 & H6 & H7);
    [done..|].
  exists z, d'. split_and!; [done..|]. intros r Hr. destruct Hfirst as (_ & _ & Hv & _).
  by erewrite file_solo_step by (cbn [step read_step]; rewrite Hr, H3, Hv; reflexivity).
Qed.


(** ** Witnesses: one state file with a damaged live copy *)
#[local] Existing Instance ascii_pylib.
Definition demo_ok (at_ : Z) : readings := {| now := at_; fault := false; accepts := 3; stale_seen := fun _ => false |}.
Definition demo_file (i : nat) (s : string) : file := {| inode := i; mtime := 5; bytes := u s |}.
Definition demo_dir : dir :=
  {| entries := {[ Live := demo_file 0 "{"; Bak 1 := demo_file 1 "[]"; Bak 2 := demo_file 2 "{}" ]};
     inodes := 3; heal_lock := None; sidecar := false |}.
Definition demo_query : query := {| q_recover := RHeal; q_fallbacks := []; q_waited := false |}.
Definition demo_save : save :=
  {| s_text := u "{7}"; s_keep := true; s_count := 3; s_missing := false; s_log := false; s_next := AfterSave false |}.
Definition demo_moves : list fmove := Start (SvLock demo_save) :: replicate 9 (Turn 0 (demo_ok 9)).
Definition demo_whole (b : pybytes) : Prop := b = u "{7}" \/ b = u "{" \/ b = u "[]" \/ b = u "{}" \/ b = reset_bytes (JObj []).

Lemma demo_quiet n : quiet_reads (replicate n (demo_ok 9)).
Proof. by apply Forall_replicate. Qed.

Lemma state_files_stay_whole_witness :
  exists sys, frun is_obj (fun _ => true) (Some (JObj [])) demo_moves {| dir_ := demo_dir; procs := [] |} = Some sys /\
    is_Some (entries (dir_ sys) !! Live).
Proof.
  destruct (frun is_obj (fun _ => true) (Some (JObj [])) demo_moves {| dir_ := demo_dir; procs := [] |}) as [sys|] eqn:Hr;
    [|vm_compute in Hr; discriminate].
  exists sys. split; [reflexivity|].
  apply (state_files_stay_whole is_obj (fun _ => true) (Some (JObj [])) demo_whole demo_moves demo_dir sys).
  - intros b Hb. unfold demo_whole in *. destruct Hb as [-> |[-> |[-> |[-> | ->]]]]; vm_compute; tauto.
  - unfold demo_whole. vm_compute. tauto.
  - repeat constructor.
  - intros n f Hn Hf. unfold demo_dir in Hf. cbn in Hf. unfold demo_whole.
    apply lookup_insert_Some in Hf as [[_ <-]|[_ Hf]]; [cbn; tauto|].
    apply lookup_insert_Some in Hf as [[_ <-]|[_ Hf]]; [cbn; tauto|].
    apply lookup_singleton_Some in Hf as [_ <-]. cbn. tauto.
  - exact Hr.
  - intros [Hin|Hin]%elem_of_cons; [discriminate|]. by apply elem_of_replicate in Hin as [Hin _].
  - by eexists.
Defined.

Lemma save_shifts_backups_witness :
  exists d', solo is_obj (fun _ => true) (Some (JObj [])) (fun _ => true) 0 (replicate 30 (demo_ok 9)) (SvLock demo_save) demo_dir
    = (Done (Saved true), d') /\ entries d' !! Bak 3 = entries demo_dir !! Bak 2.
Proof.
  destruct (save_shifts_backups is_obj (fun _ => true) (Some (JObj [])) (fun _ => true) 0 demo_save demo_dir
    (replicate 30 (demo_ok 9))) as (d' & Hs & _ & Hx); try reflexivity.
  - vm_compute. lia.
  - apply demo_quiet.
  - vm_compute. lia.
  - exists d'. split; [exact Hs|]. exact (Hx (Bak 3)).
Defined.

Lemma save_all_or_nothing_witness :
  let r := solo is_obj (fun _ => true) (Some (JObj [])) (fun _ => true) 0 (replicate 30 (demo_ok 9)) (SvLock demo_save) demo_dir in
  r.1 = Done (Saved true) /\ option_map bytes (entries r.2 !! Live) = Some (u "{7}").
Proof.
  intros r. assert (r.1 = Done (Saved true)) as Hr by (vm_compute; reflexivity). split; [exact Hr|].
  apply (save_all_or_nothing is_obj (fun _ => true) (Some (JObj [])) (fun _ => true) 0 demo_save demo_dir r.2
    (replicate 30 (demo_ok 9)) r.1); [reflexivity|fold r; by destruct r|exact Hr].
Defined.

Lemma heal_restores_first_backup_witness :
  exists d', solo is_obj (fun _ => true) (Some (JObj [])) (fun _ => true) 0 (replicate 20 (demo_ok 9)) (RdStart demo_query) demo_dir
    = (Done (Read_ (JObj []) RestoredRead), d') /\ entries d' !! Live = Some (demo_file 2 "{}").
Proof.
  destruct (heal_restores_first_backup is_obj (fun _ => true) (Some (JObj [])) (fun _ => true) 0 demo_query demo_dir
    (demo_file 0 "{") BadMalformed 2 (JObj []) (demo_file 2 "{}") (replicate 20 (demo_ok 9))) as (z & d' & Hs & _ & Hl & _).
  - by left.
  - reflexivity.
  - reflexivity.
  - reflexivity.
  - vm_compute. reflexivity.
  - split; [lia|]. split; [reflexivity|]. split; [vm_compute; reflexivity|].
    intros j f Hj Hf. assert (j = 1) as -> by lia. injection Hf as <-. exists BadShape. vm_compute. reflexivity.
  - intros z. unfold demo_dir. cbn. rewrite !lookup_insert_ne by discriminate. by rewrite lookup_singleton_ne.
  - apply demo_quiet.
  - vm_compute. lia.
  - exists d'. split; [exact Hs|exact Hl].
Defined.

