(* ===== verification/JsonCut.v ===== *)
(** What the JSON parser of [Json] does on a text that was cut short: a value that
    says where it ends (an object, a list, a string) is read the same whatever
    follows it, so no proper prefix of a printed object parses.  This is what
    makes a torn line of a JSONL file a bad line and never a wrong record.  Also:
    the default printer writes printable ASCII. *)
From S2P Require Import Prelude PyFloat Json.
From Stdlib Require Import Floats.SpecFloat.

(** ** Reading does not depend on what follows *)

(** The characters that can follow a value inside an object or a list. *)
Definition closes (s : pystr) : Prop := s <> [] /\ ends_number s.

Lemma skip_ws_ext s q : skip_ws s <> [] -> skip_ws (s ++ q) = skip_ws s ++ q.
Proof. induction s as [|c s IH]; simpl; [done|]. by destruct (is_ws c). Qed.

Lemma peel_ext c s r q : peel c s = Some r -> peel c (s ++ q) = Some (r ++ q).
Proof. destruct s as [|x s]; simpl; [done|]. case_match; by intros [= <-]. Qed.

Lemma peel_none_ext c s q : s <> [] -> peel c s = None -> peel c (s ++ q) = None.
Proof. destruct s as [|x s]; simpl; [done|]. by case_match. Qed.

Lemma peel_ws_ext c s r q : peel c (skip_ws s) = Some r -> peel c (skip_ws (s ++ q)) = Some (r ++ q).
Proof.
  intros Hp. rewrite skip_ws_ext; [by apply peel_ext|]. intros E. by rewrite E in Hp.
Qed.

Lemma peel_ws_none_ext c s q : skip_ws s <> [] -> peel c (skip_ws s) = None -> peel c (skip_ws (s ++ q)) = None.
Proof. intros Hs Hp. rewrite skip_ws_ext by done. by apply peel_none_ext. Qed.

(** The second half of an escaped surrogate pair, if the text goes on with one. *)
Definition second_half (x : N) (s : pystr) : option (N * pystr) :=
  match s with
  | b :: uu :: g1 :: g2 :: g3 :: g4 :: s4 =>
      match (if is_high x && (b =? 92)%N && (uu =? 117)%N then hex4 g1 g2 g3 g4 else None) with
      | Some y => if is_low y then Some (y, s4) else None
      | None => None
      end
  | _ => None
  end.

Lemma jstring_u h1 h2 h3 h4 s x :
  hex4 h1 h2 h3 h4 = Some x ->
  jstring (92 :: 117 :: h1 :: h2 :: h3 :: h4 :: s)%N =
    match second_half x s with
    | Some (y, s4) => '(t, r) ← jstring s4; Some ((65536 + (x - 55296) * 1024 + (y - 56320))%N :: t, r)
    | None => '(t, r) ← jstring s; Some (x :: t, r)
    end.
Proof.
  intros Hx. cbn [jstring N.eqb N.ltb Pos.eqb negb N.compare Pos.compare Pos.compare_cont]. rewrite Hx. cbn [mbind option_bind].
  unfold second_half. destruct s as [|b [|uu [|g1 [|g2 [|g3 [|g4 s4]]]]]]; try done.
  destruct (if (_ : bool) then hex4 g1 g2 g3 g4 else None) as [y|]; [|done]. by destruct (is_low y).
Qed.

Lemma second_half_ext x s y s4 q : second_half x s = Some (y, s4) -> second_half x (s ++ q) = Some (y, s4 ++ q).
Proof.
  unfold second_half. destruct s as [|b [|uu [|g1 [|g2 [|g3 [|g4 s5]]]]]]; try done. cbn [app].
  destruct (if (_ : bool) then hex4 g1 g2 g3 g4 else None) as [z|]; [|done].
  destruct (is_low z); [|done]. by intros [= <- <-].
Qed.

(** A text with a whole string in it cannot end inside an escaped pair. *)
Lemma second_half_none x s q tr : jstring s = Some tr -> second_half x s = None -> second_half x (s ++ q) = None.
Proof.
  intros Hs Hn. destruct (second_half x (s ++ q)) as [[y s4]|] eqn:Hy; [|done]. exfalso. revert Hy.
  unfold second_half. destruct s as [|b [|uu [|g1 [|g2 [|g3 [|g4 s5]]]]]]; try done; cbn [app].
  6: { unfold second_half in Hn. destruct (if (_ : bool) then hex4 g1 g2 g3 g4 else None) as [z|]; [|done].
       by destruct (is_low z). }
  all: intros Hy; repeat (match goal with H : context [match ?l with _ => _ end] |- _ => is_var l; destruct l; cbn [app] in H; try discriminate end).
  all: match type of Hy with context [(?b =? 92)%N] => destruct (N.eqb_spec b 92) as [->|]; [|by rewrite andb_false_r in Hy] end;
    try discriminate Hs.
  all: match type of Hy with context [(?b =? 117)%N] => destruct (N.eqb_spec b 117) as [->|]; [|by rewrite andb_false_r in Hy] end;
    discriminate Hs.
Qed.

Lemma jstring_ext s t r q : jstring s = Some (t, r) -> jstring (s ++ q) = Some (t, r ++ q).
Proof.
  remember (length s) as n eqn:Hn. revert s t r Hn. induction n as [n IH] using lt_wf_ind.
  intros s t r -> Hs.
  assert (forall s' t' r', jstring s' = Some (t', r') -> (length s' < length s)%nat ->
    jstring (s' ++ q) = Some (t', r' ++ q)) as IH' by (intros; by eapply IH). clear IH.
  destruct s as [|c s1]; [done|]. cbn [jstring app] in *.
  destruct (c =? 34)%N; [by simplify_eq|]. destruct (c <? 32)%N; [done|].
  destruct (N.eqb_spec c 92) as [->|_]; cbn [negb] in *.
  2: { destruct (jstring s1) as [[t1 r1]|] eqn:E; [|done]. simpl in Hs. simplify_eq.
       by rewrite (IH' _ _ _ E ltac:(cbn [length]; lia)). }
  destruct s1 as [|e s2]; [done|]. cbn [app] in *. destruct (N.eqb_spec e 117) as [->|_]; cbn [negb] in *.
  2: { destruct (simple_escape e) as [x|]; [|done]. simpl in *.
       destruct (jstring s2) as [[t1 r1]|] eqn:E; [|done]. simpl in Hs. simplify_eq.
       by rewrite (IH' _ _ _ E ltac:(cbn [length]; lia)). }
  destruct s2 as [|h1 [|h2 [|h3 [|h4 s3]]]]; try done. cbn [app] in *.
  destruct (hex4 h1 h2 h3 h4) as [x|] eqn:Hx; [|done].
  pose proof (jstring_u _ _ _ _ s3 x Hx) as Hu. pose proof (jstring_u _ _ _ _ (s3 ++ q) x Hx) as Huq.
  cbn [jstring N.eqb N.ltb Pos.eqb negb N.compare Pos.compare Pos.compare_cont] in Hu, Huq. rewrite Hx in Hu, Huq.
  rewrite Huq. clear Huq. rewrite Hu in Hs. clear Hu.
  destruct (second_half x s3) as [[y s4]|] eqn:E2.
  - rewrite (second_half_ext _ _ _ _ q E2).
    destruct (jstring s4) as [[t1 r1]|] eqn:E; [|done]. simpl in Hs. simplify_eq.
    rewrite (IH' _ _ _ E); [done|]. unfold second_half in E2. repeat case_match; simplify_eq. cbn [length]. lia.
  - destruct (jstring s3) as [[t1 r1]|] eqn:E; [|done]. simpl in Hs. simplify_eq.
    rewrite (second_half_none _ _ q _ E E2). by rewrite (IH' _ _ _ E ltac:(cbn [length]; lia)).
Qed.

(** Numbers, when something that can follow one follows. *)
Lemma span_digits_ext s acc k q :
  let '(_, r) := span_digits s acc k in
  r <> [] -> span_digits (s ++ q) acc k = ((span_digits s acc k).1, r ++ q).
Proof.
  revert acc k. induction s as [|c s IH]; intros acc k; simpl; [done|].
  destruct (is_digit c); [apply IH|]. done.
Qed.


Lemma span_digits_more s acc k n m r q :
  span_digits s acc k = (n, m, r) -> r <> [] -> span_digits (s ++ q) acc k = (n, m, r ++ q).
Proof.
  intros Hs Hr. pose proof (span_digits_ext s acc k q) as H. rewrite Hs in H. by rewrite (H Hr).
Qed.

Lemma closes_ext r q : closes r -> ends_number (r ++ q).
Proof. intros [Hr He]. by destruct r. Qed.

Lemma jexp_ext s r q : (default (0%Z, s) (jexp s)).2 = r -> closes r ->
  jexp (s ++ q) = option_map (fun e => (e.1, e.2 ++ q)) (jexp s).
Proof.
  destruct (jexp s) as [[x r']|] eqn:E; simpl; intros <- Hc.
  2: { by apply jexp_stop, closes_ext. }
  destruct s as [|e s]; [done|]. revert E. cbn [jexp app]. destruct (_ || _); [|done].
  destruct s as [|y s]; [done|]. cbn [peel app].
  destruct (y =? 43)%N; [|destruct (y =? 45)%N]; (destruct s as [|d s]; [try done|]); cbn [app];
    try (destruct (is_digit y); [|done]); try (destruct (is_digit d); [|done]);
    try (match goal with |- context [span_digits ?l 0 0] => destruct (span_digits l 0 0) as [[n m] r1] eqn:Hs end;
         intros [= <- <-];
         match type of Hs with span_digits ?l _ _ = _ => pose proof (span_digits_more l 0 0 n m r1 q Hs (proj1 Hc)) as Hq end;
         cbn [app] in Hq; by rewrite Hq).
Qed.

Lemma jfrac_ext ip s r q : jfrac ip s = Some r -> r.2 <> [] -> jfrac ip (s ++ q) = Some (r.1, r.2 ++ q).
Proof.
  unfold jfrac. destruct s as [|x s]; [done|]. cbn [peel app]. destruct (x =? 46)%N; [|done].
  destruct s as [|d s]; [done|]. cbn [app]. destruct (is_digit d) eqn:Hd; [|done]. intros [= Hs] Hr.
  destruct r as [[n m] r1]. pose proof (span_digits_more (d :: s) ip 0 n m r1 q Hs Hr) as Hq.
  cbn [app] in Hq. by rewrite Hq.
Qed.

Lemma jfrac_none_ext ip s q : jfrac ip s = None -> closes (default (0%Z, s) (jexp s)).2 -> jfrac ip (s ++ q) = None.
Proof.
  unfold jfrac. destruct s as [|x s]; [by intros _ []|]. cbn [peel app]. destruct (N.eqb_spec x 46) as [->|]; [|done].
  destruct s as [|d s]; [|cbn [app]; intros H _; by destruct (is_digit d)]. intros _ [_ H]. destruct H as (_ & H & _). done.
Qed.

Lemma jnumber_ext s v r q : jnumber s = Some (v, r) -> closes r -> jnumber (s ++ q) = Some (v, r ++ q).
Proof.
  intros Hs Hr. unfold jnumber in *.
  assert (s <> []) as Hne by (by intros ->).
  assert (exists neg s1, (match peel 45 s with Some s' => (true, s') | None => (false, s) end) = (neg, s1) /\
    (match peel 45 (s ++ q) with Some s' => (true, s') | None => (false, s ++ q) end) = (neg, s1 ++ q)) as (neg & s1 & E1 & E2).
  { destruct (peel 45 s) as [s'|] eqn:E; [rewrite (peel_ext _ _ _ q E)|rewrite (peel_none_ext _ _ q Hne E)]; eauto. }
  rewrite E2. rewrite E1 in Hs. clear E1 E2 Hne. destruct s1 as [|c s1]; [done|]. cbn [app] in *.
  destruct (negb (is_digit c)); [done|].
  destruct (if (c =? 48)%N then _ else _) as [[ip ni] s2] eqn:E2.
  destruct (default (ip, 0%nat, s2) (jfrac ip s2)) as [[m nf] s3] eqn:E3.
  destruct (default (0%Z, s3) (jexp s3)) as [ex s4] eqn:E4.
  assert (s4 = r) as -> by (repeat case_match; by simplify_eq).
  pose proof (jexp_ext s3 r q ltac:(by rewrite E4) Hr) as Hexp.
  assert (s3 <> []) as H3 by (intros ->; cbn in E4; by simplify_eq; destruct Hr).
  assert (jfrac ip (s2 ++ q) = option_map (fun e => (e.1, e.2 ++ q)) (jfrac ip s2)) as Hfrac.
  { destruct (jfrac ip s2) as [fr|] eqn:E; simpl in E3; subst; simpl.
    - by rewrite (jfrac_ext _ _ _ q E).
    - simplify_eq. apply jfrac_none_ext; [done|]. by rewrite E4. }
  assert (s2 <> []) as H2 by (intros ->; simpl in E3; by simplify_eq).
  assert ((if (c =? 48)%N then (0%N, 1%nat, s1 ++ q) else span_digits (c :: s1 ++ q) 0 0) = (ip, ni, s2 ++ q)) as ->.
  { destruct (c =? 48)%N; [by simplify_eq|]. apply (span_digits_more (c :: s1)); [done|done]. }
  rewrite Hfrac. destruct (jfrac ip s2) as [fr|] eqn:E; simpl in E3 |- *; simplify_eq; simpl;
    rewrite Hexp; destruct (jexp s3) as [[x r1]|] eqn:E5; simpl in *; simplify_eq; try done.
  destruct (max_int_digits <? _)%N; by simplify_eq.
Qed.

(** Words. *)
Lemma strip_prefix_ext p s r q : strip_prefix p s = Some r -> strip_prefix p (s ++ q) = Some (r ++ q).
Proof.
  unfold strip_prefix. revert s. induction p as [|x p IH]; intros s; simpl; [by intros [= <-]|].
  destruct s as [|y s]; simpl; [done|]. case_bool_decide; simpl; [|done]. apply IH.
Qed.

Lemma strip_prefix_none_ext p s q :
  strip_prefix p s = None -> (exists k, (k < length p)%nat /\ s = take k p) \/ strip_prefix p (s ++ q) = None.
Proof.
  unfold strip_prefix. revert s. induction p as [|x p IH]; intros s; simpl; [done|].
  destruct s as [|y s]; simpl.
  - intros _. left. exists 0%nat. split; [lia|done].
  - case_bool_decide as Hxy; simpl; [subst y|by right]. intros [(k & Hk & ->)|]%IH; [left|by right].
    exists (S k). split; [lia|done].
Qed.

(** The last branches of [jvalue]. *)
Definition word_or_number (s : pystr) : option (json * pystr) :=
  match strip_prefix (u "null") s with Some r => Some (JNull, r) | None =>
  match strip_prefix (u "true") s with Some r => Some (JBool true, r) | None =>
  match strip_prefix (u "false") s with Some r => Some (JBool false, r) | None =>
  match strip_prefix (u "NaN") s with Some r => Some (JFloat S754_nan, r) | None =>
  match strip_prefix (u "Infinity") s with Some r => Some (JFloat (S754_infinity false), r) | None =>
  match strip_prefix (u "-Infinity") s with Some r => Some (JFloat (S754_infinity true), r) | None =>
  jnumber s end end end end end end.

Lemma word_cut p k :
  p ∈ [u "null"; u "true"; u "false"; u "NaN"; u "Infinity"; u "-Infinity"] ->
  (k < length p)%nat -> word_or_number (take k p) = None.
Proof.
  rewrite !elem_of_cons, elem_of_nil. intros [->|[->|[->|[->|[->|[->|[]]]]]]] Hk;
    match type of Hk with (_ < ?n)%nat => let m := eval vm_compute in n in change (k < m)%nat in Hk end;
    do 10 (destruct k as [|k]; [first [lia|vm_compute; reflexivity]|]); lia.
Qed.

#[local] Ltac next_word p s q Hw :=
    let E := fresh in destruct (strip_prefix p s) eqn:E;
    [rewrite (strip_prefix_ext _ _ _ q E); by simplify_eq
    |destruct (strip_prefix_none_ext _ _ q E) as [(k & Hk & ->)| ->];
      [by rewrite (word_cut p k ltac:(set_solver) Hk) in Hw|]].

Lemma word_or_number_ext s v r q :
  word_or_number s = Some (v, r) -> closes r -> word_or_number (s ++ q) = Some (v, r ++ q).
Proof.
  intros Hs Hr. pose proof Hs as Hw. unfold word_or_number in Hs |- *.
  next_word (u "null") s q Hw. next_word (u "true") s q Hw. next_word (u "false") s q Hw.
  next_word (u "NaN") s q Hw. next_word (u "Infinity") s q Hw. next_word (u "-Infinity") s q Hw.
  by apply jnumber_ext.
Qed.

Lemma jvalue_unfold f c s1 :
  jvalue (S f) (c :: s1) =
    (if (c =? 34)%N then '(t, r) ← jstring s1; Some (JStr t, r)
     else if (c =? 123)%N then
       match peel 125 (skip_ws s1) with
       | Some r => Some (JObj [], r)
       | None => '(kvs, r) ← jmembers f (skip_ws s1); Some (JObj (dict_of_pairs kvs), r)
       end
     else if (c =? 91)%N then
       match peel 93 (skip_ws s1) with
       | Some r => Some (JArr [], r)
       | None => '(l, r) ← jelems f (skip_ws s1); Some (JArr l, r)
       end
     else word_or_number (c :: s1)).
Proof. done. Qed.

Lemma jelems_unfold f s :
  jelems (S f) s =
    ('(v, r) ← jvalue f s;
     match peel 93 (skip_ws r), peel 44 (skip_ws r) with
     | Some r', _ => Some ([v], r')
     | None, Some r' => '(l, r'') ← jelems f (skip_ws r'); Some (v :: l, r'')
     | None, None => None
     end).
Proof. done. Qed.

Lemma jmembers_unfold f s :
  jmembers (S f) s =
    (s1 ← peel 34 s;
     '(k, s2) ← jstring s1;
     s3 ← peel 58 (skip_ws s2);
     '(v, r) ← jvalue f (skip_ws s3);
     match peel 125 (skip_ws r), peel 44 (skip_ws r) with
     | Some r', _ => Some ([(k, v)], r')
     | None, Some r' => '(l, r'') ← jmembers f (skip_ws r'); Some ((k, v) :: l, r'')
     | None, None => None
     end).
Proof. done. Qed.

(** A value is read the same whatever follows it: always when it shows its end,
    and when something that can follow a value does. *)
Definition bounded (v : json) (r : pystr) : Prop := is_obj v = true \/ closes r.

Lemma closes_peel c r r' : c ∈ [44; 93; 125]%N -> peel c (skip_ws r) = Some r' -> closes r.
Proof.
  intros Hc Hp. destruct r as [|x r]; [done|]. split; [done|]. simpl in Hp. simpl.
  destruct (is_ws x) eqn:Hw.
  - clear Hp. unfold is_ws in Hw. autorewrite with py in Hw. unfold is_digit. repeat split; [|lia..].
    apply andb_false_iff. rewrite !N.leb_gt. lia.
  - cbn [peel] in Hp. destruct (N.eqb_spec x c) as [->|]; [|done]. clear Hp.
    rewrite !elem_of_cons, elem_of_nil in Hc. unfold is_digit. destruct Hc as [->|[->|[->|[]]]]; done.
Qed.

Lemma jparse_ext q f :
  (forall s v r, jvalue f s = Some (v, r) -> bounded v r -> jvalue f (s ++ q) = Some (v, r ++ q)) /\
  (forall s l r, jelems f s = Some (l, r) -> jelems f (s ++ q) = Some (l, r ++ q)) /\
  (forall s l r, jmembers f s = Some (l, r) -> jmembers f (s ++ q) = Some (l, r ++ q)).
Proof.
  induction f as [|f (IHv & IHe & IHm)]; [by split_and!|]. split_and!.
  - intros s v r Hs Hb. destruct s as [|c s1]; [done|]. cbn [app]. rewrite jvalue_unfold in Hs |- *.
    destruct (c =? 34)%N.
    { destruct (jstring s1) as [[t r1]|] eqn:E; [|done]. simpl in Hs. simplify_eq.
      by rewrite (jstring_ext _ _ _ q E). }
    destruct (c =? 123)%N; [|destruct (c =? 91)%N].
    + destruct (peel 125 (skip_ws s1)) as [r1|] eqn:E; [rewrite (peel_ws_ext _ _ _ q E); by simplify_eq|].
      destruct (jmembers f (skip_ws s1)) as [[l r1]|] eqn:Em; [|done]. simpl in Hs. simplify_eq.
      assert (skip_ws s1 <> []) as Hne by (intros H; rewrite H in Em; by destruct f).
      rewrite (peel_ws_none_ext _ _ q Hne E), skip_ws_ext by done. by rewrite (IHm _ _ _ Em).
    + destruct (peel 93 (skip_ws s1)) as [r1|] eqn:E; [rewrite (peel_ws_ext _ _ _ q E); by simplify_eq|].
      destruct (jelems f (skip_ws s1)) as [[l r1]|] eqn:Em; [|done]. simpl in Hs. simplify_eq.
      assert (skip_ws s1 <> []) as Hne by (intros H; rewrite H in Em; by destruct f as [|[|f]]).
      rewrite (peel_ws_none_ext _ _ q Hne E), skip_ws_ext by done. by rewrite (IHe _ _ _ Em).
    + apply (word_or_number_ext (c :: s1)); [done|]. destruct Hb as [Hb|Hb]; [|done]. exfalso.
      unfold word_or_number, jnumber in Hs. repeat case_match; by simplify_eq.
  - intros s l r Hs. rewrite jelems_unfold in Hs |- *.
    destruct (jvalue f s) as [[v r1]|] eqn:Ev; [|done]. cbn [mbind option_bind] in Hs |- *.
    destruct (peel 93 (skip_ws r1)) as [r2|] eqn:E1.
    + rewrite (IHv _ _ _ Ev) by (right; eapply closes_peel; [|done]; set_solver).
      simplify_eq. simpl. by rewrite (peel_ws_ext _ _ _ q E1).
    + destruct (peel 44 (skip_ws r1)) as [r2|] eqn:E2; [|done].
      rewrite (IHv _ _ _ Ev) by (right; eapply closes_peel; [|done]; set_solver).
      simpl in *. destruct (jelems f (skip_ws r2)) as [[l' r3]|] eqn:Ee; [|done]. simpl in Hs. simplify_eq.
      assert (skip_ws r1 <> []) as Hne by (intros H; by rewrite H in E2).
      assert (skip_ws r2 <> []) as Hne2 by (intros H; rewrite H in Ee; by destruct f as [|[|f]]).
      rewrite (peel_ws_none_ext _ _ q Hne E1), (peel_ws_ext _ _ _ q E2). rewrite skip_ws_ext by done.
      by rewrite (IHe _ _ _ Ee).
  - intros s l r Hs. rewrite jmembers_unfold in Hs |- *.
    destruct (peel 34 s) as [s1|] eqn:E0; [|done]. rewrite (peel_ext _ _ _ q E0). cbn [mbind option_bind] in *.
    destruct (jstring s1) as [[k s2]|] eqn:Ek; [|done]. rewrite (jstring_ext _ _ _ q Ek). cbn [mbind option_bind] in *.
    destruct (peel 58 (skip_ws s2)) as [s3|] eqn:Ec; [|done]. rewrite (peel_ws_ext _ _ _ q Ec). cbn [mbind option_bind] in *.
    destruct (jvalue f (skip_ws s3)) as [[v r1]|] eqn:Ev; [|done].
    assert (skip_ws s3 <> []) as Hne3 by (intros H; rewrite H in Ev; by destruct f).
    rewrite skip_ws_ext by done. cbn [mbind option_bind] in *.
    destruct (peel 125 (skip_ws r1)) as [r2|] eqn:E1.
    + rewrite (IHv _ _ _ Ev) by (right; eapply closes_peel; [|done]; set_solver).
      simplify_eq. simpl. by rewrite (peel_ws_ext _ _ _ q E1).
    + destruct (peel 44 (skip_ws r1)) as [r2|] eqn:E2; [|done].
      rewrite (IHv _ _ _ Ev) by (right; eapply closes_peel; [|done]; set_solver).
      simpl in *. destruct (jmembers f (skip_ws r2)) as [[l' r3]|] eqn:Ee; [|done]. simpl in Hs. simplify_eq.
      assert (skip_ws r1 <> []) as Hne by (intros H; by rewrite H in E2).
      assert (skip_ws r2 <> []) as Hne2 by (intros H; rewrite H in Ee; by destruct f).
      rewrite (peel_ws_none_ext _ _ q Hne E1), (peel_ws_ext _ _ _ q E2). rewrite skip_ws_ext by done.
      by rewrite (IHm _ _ _ Ee).
Qed.

(** More fuel gives the same result. *)
Lemma jparse_more f :
  (forall s x, jvalue f s = Some x -> jvalue (S f) s = Some x) /\
  (forall s x, jelems f s = Some x -> jelems (S f) s = Some x) /\
  (forall s x, jmembers f s = Some x -> jmembers (S f) s = Some x).
Proof.
  induction f as [|f (IHv & IHe & IHm)]; [by split_and!|]. split_and!; intros s x Hs.
  - destruct s as [|c s1]; [done|]. rewrite jvalue_unfold in Hs |- *.
    destruct (c =? 34)%N; [done|].
    destruct (c =? 123)%N; [|destruct (c =? 91)%N; [|done]].
    + destruct (peel 125 (skip_ws s1)); [done|].
      destruct (jmembers f (skip_ws s1)) eqn:E; [by rewrite (IHm _ _ E)|done].
    + destruct (peel 93 (skip_ws s1)); [done|].
      destruct (jelems f (skip_ws s1)) eqn:E; [by rewrite (IHe _ _ E)|done].
  - rewrite jelems_unfold in Hs |- *.
    destruct (jvalue f s) as [[v r]|] eqn:E; [rewrite (IHv _ _ E)|done]. cbn [mbind option_bind] in *.
    destruct (peel 93 (skip_ws r)); [done|]. destruct (peel 44 (skip_ws r)) as [r'|]; [|done].
    destruct (jelems f (skip_ws r')) as [[l r2]|] eqn:E2; [by rewrite (IHe _ _ E2)|done].
  - rewrite jmembers_unfold in Hs |- *.
    destruct (peel 34 s) as [s1|]; [|done]. cbn [mbind option_bind] in *.
    destruct (jstring s1) as [[k s2]|]; [|done]. cbn [mbind option_bind] in *.
    destruct (peel 58 (skip_ws s2)) as [s3|]; [|done]. cbn [mbind option_bind] in *.
    destruct (jvalue f (skip_ws s3)) as [[v r]|] eqn:E; [rewrite (IHv _ _ E)|done]. cbn [mbind option_bind] in *.
    destruct (peel 125 (skip_ws r)); [done|]. destruct (peel 44 (skip_ws r)) as [r'|]; [|done].
    destruct (jmembers f (skip_ws r')) as [[l r2]|] eqn:E2; [by rewrite (IHm _ _ E2)|done].
Qed.

Lemma jvalue_mono f g s x : (f <= g)%nat -> jvalue f s = Some x -> jvalue g s = Some x.
Proof. induction 1 as [|g _ IH]; [done|]. intros Hs. by apply (proj1 (jparse_more _)), IH. Qed.

(** ** A cut object is not JSON *)
Lemma loads_cut v p q : json_ok v -> is_obj v = true -> dumps_default v = p ++ q -> q <> [] -> loads p = None.
Proof.
  intros Hok Hobj Heq Hq. destruct v as [| | | | | |kvs]; try done.
  destruct p as [|c p]; [done|].
  assert (exists t, dumps_default (JObj kvs) = 123%N :: t) as [t Ht] by (eexists; reflexivity).
  assert (c = 123%N) as -> by (rewrite Heq in Ht; by injection Ht). clear t Ht.
  unfold loads. cbn [skip_ws]. destruct (is_ws 123) eqn:Hw; [done|]. clear Hw.
  destruct (jvalue _ (123%N :: p)) as [[w r]|] eqn:Hp; [|done]. cbn [mbind option_bind].
  destruct (skip_ws r); [|done]. exfalso.
  set (F := (2 * length (123%N :: p) + 2)%nat) in *.
  assert (bounded w r) as Hb.
  { left. unfold F in Hp. rewrite Nat.add_comm in Hp. cbn [Nat.add] in Hp. rewrite jvalue_unfold in Hp.
    cbn [N.eqb Pos.eqb] in Hp. destruct (peel 125 _); [by simplify_eq|].
    destruct (jmembers _ _) as [[l r']|]; simpl in Hp; by simplify_eq. }
  apply (proj1 (jparse_ext q F)) in Hp; [|done].
  pose proof (parses_all false true (u ", ") (u ": ") ltac:(by eexists) ltac:(by eexists) (JObj kvs)
    Hok (F + jneed (JObj kvs)) [] ltac:(lia) I) as Hall.
  rewrite app_nil_r in Hall. fold dumps_default in Hall. change (dumps false true (u ", ") (u ": ")) with dumps_default in Hall.
  rewrite Heq in Hall. apply (jvalue_mono F (F + jneed (JObj kvs))) in Hp; [|lia].
  cbn [app] in Hall, Hp. rewrite Hall in Hp. injection Hp as _ Hr. by destruct r, q.
Qed.

(** ** The printed text is printable ASCII *)
Definition printable (c : N) : Prop := (32 <= c < 127)%N.

Lemma u_printable s : forallb (fun c => (32 <=? c) && (c <? 127))%N (u s) = true -> Forall printable (u s).
Proof.
  rewrite forallb_forall. intros H. apply Forall_forall. intros c Hc%list_elem_of_In%H.
  cbv beta in Hc. autorewrite with py in Hc. unfold printable. lia.
Qed.

Lemma hex_digit_printable n : (n < 16)%N -> printable (hex_digit n).
Proof. intros. unfold hex_digit, printable. case_match; lia. Qed.

Lemma u_escape_printable c : Forall printable (u_escape c).
Proof. unfold u_escape. forall_list; first [apply hex_digit_printable; lia|unfold printable; lia]. Qed.

Lemma escape_printable c : Forall printable (escape_char true c).
Proof.
  unfold escape_char. cbn [negb orb]. repeat case_match; repeat apply Forall_app_2; try apply u_escape_printable;
    forall_list; unfold printable; autorewrite with py in *; rewrite ?N.ltb_ge in *; lia.
Qed.

Lemma quote_printable s : Forall printable (quote true s).
Proof.
  unfold quote. constructor; [unfold printable; lia|]. apply Forall_app_2; [|forall_list; unfold printable; lia].
  apply Forall_concat, Forall_map, Forall_forall. intros c _. apply escape_printable.
Qed.

Lemma digits_printable ds : Forall (fun c => is_digit c = true) ds -> Forall printable ds.
Proof. intros H. eapply Forall_impl; [exact H|]. intros c Hc. cbv beta in Hc. unfold is_digit in Hc. autorewrite with py in Hc. unfold printable. lia. Qed.

Lemma dec_Z_printable z : Forall printable (dec_Z z).
Proof.
  assert (forall n, Forall printable (dec_N n)) as H.
  { intros n. destruct (dec_N_spec n) as (c & ds & -> & H & _). by apply digits_printable. }
  destruct z; unfold dec_Z; try apply H. constructor; [unfold printable; lia|apply H].
Qed.

Lemma py_join_printable sep l : Forall printable sep -> Forall (Forall printable) l -> Forall printable (py_join sep l).
Proof.
  intros Hsep. induction 1 as [|p l Hp Hl IH]; [constructor|]. cbn [py_join]. destruct l; [done|].
  repeat apply Forall_app_2; done.
Qed.

Lemma dumps_printable v : json_ok v -> Forall printable (dumps_default v).
Proof.
  unfold dumps_default. induction v as [|[]|z|f|s|l IH|kvs IH] using json_ind'; intros Hok;
    try done; cbn [dumps]; try (by apply u_printable).
  - apply dec_Z_printable.
  - apply quote_printable.
  - apply fold_right_and in Hok. apply Forall_app_2; [by apply u_printable|]. apply Forall_app_2; [|by apply u_printable].
    apply py_join_printable; [by apply u_printable|]. apply Forall_map, Forall_forall. intros v Hv.
    rewrite Forall_forall in IH, Hok. by apply IH, Hok.
  - destruct Hok as [_ Hok%fold_right_and].
    apply Forall_app_2; [by apply u_printable|]. apply Forall_app_2; [|by apply u_printable].
    apply py_join_printable; [by apply u_printable|]. apply Forall_map, Forall_map, Forall_forall.
    intros kv Hkv. rewrite Forall_forall in IH, Hok. destruct (Hok kv Hkv). cbn [fst snd].
    apply Forall_app_2; [apply quote_printable|]. apply Forall_app_2; [by apply u_printable|]. by apply IH.
Qed.
