(* ===== verification/Jsonl.v ===== *)
(** The JSONL half of [brain/health/json_io.py] and [brain/health/jsonl_reader.py]:
    how a line is judged, the encoder, the appender with its torn-tail rule, the
    whole-file reader, the reader from a line position and the backward reader of
    the last lines.  A file is its bytes; appends of one file run one at a time
    (they hold its lock).  Theorems: a crash in the middle of an append costs
    only the records it had not finished; the backward reader, which reads
    chunks of any size, returns the last lines of the file; reading again from
    the returned position misses nothing and repeats nothing. *)
From S2P Require Import Prelude PyFloat PyTime Json Crypto Protocol JsonCut StateFile.

(** ** Lines *)
Inductive bad_line := BadUtf8 | BadJson | Unloadable | BadRecord.

(** [LineVerdict]. *)
Inductive verdict := Usable (data : json) | Blank | Bad (why : bad_line).

(** The complete lines of the bytes, without their newline, and what follows the
    last newline. *)
Fixpoint cut_lines (b : pybytes) : list pybytes * pybytes :=
  match b with
  | [] => ([], [])
  | c :: b' =>
      let '(ls, rest) := cut_lines b' in
      if (c =? 10)%N then ([] :: ls, rest)
      else match ls with l :: ls' => ((c :: l) :: ls', rest) | [] => ([], c :: rest) end
  end.

(** The lines a text stream over the bytes yields: a byte order mark at the start
    is dropped, and a last line without its newline is a line. *)
Definition stream (b : pybytes) : list pybytes :=
  let '(ls, rest) := cut_lines (strip_bom b) in ls ++ (if rest is [] then [] else [rest]).

Definition rstrip_by (p : N -> bool) (s : list N) : list N := rev (lstrip_by p (rev s)).
Definition is_crlf (c : N) : bool := (c =? 13)%N || (c =? 10)%N.
Definition is_cr (c : N) : bool := (c =? 13)%N.

Inductive stop := StrictLine (line : nat) (why : bad_line) | UnloadableLine (line : nat) | IoStop.

(** What a file gives its reader. *)
Inductive source :=
| NoFile
| NoOpen                          (* opening it fails *)
| Bytes (b : pybytes)
| Fails (ls : list pybytes).      (* reading fails after these lines *)

Section jsonl.
Context `{PyLib}.
(** [json.loads] fails on this text for its size (an integer's digits, the nesting),
    not for its syntax. *)
Variable too_big : pystr -> bool.

Definition classify_line (line : pybytes) : verdict :=
  match utf8_decode line with
  | None => Bad BadUtf8
  | Some raw =>
      let text := rstrip_by is_crlf raw in
      if bool_decide (strip text = []) then Blank else
      match loads text with
      | None => Bad (if too_big text then Unloadable else BadJson)
      | Some v => if is_obj v then Usable v else Bad BadRecord
      end
  end.

(** [_parse_lines]: the records before it stops, and why it stopped. *)
Fixpoint parse_lines (strict : bool) (n : nat) (lines : list pybytes) : list json * option stop :=
  match lines with
  | [] => ([], None)
  | l :: ls =>
      match classify_line l with
      | Usable v => let '(vs, e) := parse_lines strict (S n) ls in (v :: vs, e)
      | Blank => parse_lines strict (S n) ls
      | Bad Unloadable => ([], Some (UnloadableLine n))
      | Bad why => if strict then ([], Some (StrictLine n why)) else parse_lines strict (S n) ls
      end
  end.

(** [iter_jsonl], consumed to its end. *)
Definition iter_jsonl (strict : bool) (recover : recovery) (src : source) : res (list json * option stop) :=
  let io_stop := if bool_decide (recover = RRaise) then Some IoStop else None in
  match recover with
  | RDefault | RRaise =>
      Ok match src with
         | NoFile => ([], None)
         | NoOpen => ([], io_stop)
         | Bytes b => parse_lines strict 1 (stream b)
         | Fails ls =>
             let '(vs, e) := parse_lines strict 1 ls in (vs, match e with Some e => Some e | None => io_stop end)
         end
  | _ => Err ValueError
  end.

(** [read_jsonl]: the list, or what was raised. *)
Definition read_jsonl (strict : bool) (recover : recovery) (src : source) : res (list json + stop) :=
  r ← iter_jsonl strict recover src;
  mret match r.2 with None => inl r.1 | Some e => inr e end.

(** [parse_jsonl]. *)
Definition parse_jsonl (strict : bool) (data : pybytes) : list json * option stop := parse_lines strict 1 (stream data).

(** [read_jsonl_from]: the lines after [start], numbered, and the number of
    complete lines. *)
Fixpoint records_from (start n : nat) (lines : list pybytes) : list (nat * (json + bad_line)) :=
  match lines with
  | [] => []
  | l :: ls =>
      (if (n <=? start)%nat then [] else
       match classify_line l with
       | Usable v => [(n, inl v)]
       | Blank => []
       | Bad Unloadable => [(n, inr BadJson)]
       | Bad why => [(n, inr why)]
       end) ++ records_from start (S n) ls
  end.

Definition read_jsonl_from (start : nat) (b : pybytes) : list (nat * (json + bad_line)) * nat :=
  let ls := (cut_lines (strip_bom b)).1 in (records_from start 1 ls, length ls).

(** ** Writing *)

(** [_null_nonfinite]. *)
Fixpoint null_nonfinite (v : json) : json :=
  match v with
  | JFloat f => if is_finite f then v else JNull
  | JArr l => JArr (map null_nonfinite l)
  | JObj kvs => JObj (map (fun kv => (kv.1, null_nonfinite kv.2)) kvs)
  | _ => v
  end.

(** [_dumps(rec, indent=None)]. *)
Definition dumps_record (null : bool) (v : json) : res pystr :=
  if finite_json v then Ok (dumps_default v)
  else if null then Ok (dumps_default (null_nonfinite v)) else Err ValueError.

(** [encode_jsonl]; what it prints is ASCII, so its code points are its bytes. *)
Fixpoint encode_jsonl (null : bool) (records : list json) : res pybytes :=
  match records with
  | [] => Ok []
  | v :: vs =>
      if negb (is_obj v) then Err TypeError else
      t ← dumps_record null v;
      rest ← encode_jsonl null vs;
      mret (t ++ [10%N] ++ rest)
  end.

Definition ends_line (b : pybytes) : bool := bool_decide (last b = Some 10%N).

(** [_payload], of bytes or of records. *)
Definition payload (null : bool) (records : pybytes + list json) : res pybytes :=
  match records with
  | inl b => if bool_decide (b = []) || ends_line b then Ok b else Err ValueError
  | inr rs => encode_jsonl null rs
  end.

(** [_tail_is_torn]. *)
Definition tail_is_torn (b : pybytes) : bool := negb (bool_decide (b = [])) && negb (ends_line b).

(** The one write of [append_jsonl] to a file opened with "ab+", cut short after
    [cut] bytes when the process dies or the write fails there. *)
Definition append_bytes (file : option pybytes) (data : pybytes) (cut : option nat) : pybytes :=
  let old := default [] file in
  let new := (if tail_is_torn old then [10%N] else []) ++ data in
  old ++ match cut with Some k => take k new | None => new end.

(** [append_jsonl] with the lock held (or refused by the file system): the file
    after it, and the number of bytes it returns. *)
Definition append_jsonl (null : bool) (records : pybytes + list json) (cut : option nat) (file : option pybytes)
    : res (option pybytes * Z) :=
  data ← payload null records;
  mret (if bool_decide (data = []) then (file, 0%Z)
        else (Some (append_bytes file data cut), Z.of_nat (length data))).

(** ** The last lines *)

(** [chunk.split(b"\n")]. *)
Fixpoint split_lines (b : pybytes) : list pybytes :=
  match b with
  | [] => [[]]
  | c :: b' =>
      if (c =? 10)%N then [] :: split_lines b'
      else match split_lines b' with l :: ls => (c :: l) :: ls | [] => [[c]] end
  end.

(** A line [line.strip()] leaves nothing of. *)
Definition blank_bytes (line : pybytes) : bool := forallb is_ascii_space line.
Definition rstrip_cr : pybytes -> pybytes := rstrip_by is_cr.

(** The inner loop: rightmost line first, until [n] are found. *)
Fixpoint gather (n : nat) (found lines : list pybytes) : list pybytes :=
  match lines with
  | [] => found
  | l :: ls =>
      if blank_bytes l then gather n found ls else
      let found := found ++ [rstrip_cr l] in
      if (n <=? length found)%nat then found else gather n found ls
  end.

(** The outer loop of [_tail_lines], reading [chunk] bytes at a time: what is left
    unread, the partial line at its edge, the lines found. *)
Fixpoint tail_loop (fuel chunk n : nat) (b : pybytes) (remaining : nat) (head : pybytes) (found : list pybytes)
    : option (nat * pybytes * list pybytes) :=
  if (remaining =? 0)%nat || (n <=? length found)%nat then Some (remaining, head, found) else
  match fuel with
  | O => None
  | S fuel =>
      let size := Nat.min chunk remaining in
      let remaining := (remaining - size)%nat in
      match split_lines (take size (drop remaining b)) with
      | [piece] => tail_loop fuel chunk n b remaining (piece ++ head) found
      | first :: parts =>
          let tail_line := default [] (last parts) ++ head in
          tail_loop fuel chunk n b remaining first (gather n found (tail_line :: rev (removelast parts)))
      | [] => None
      end
  end.

Definition tail_lines (chunk n : nat) (b : pybytes) : option (list pybytes) :=
  '(remaining, head, found) ← tail_loop (length b) chunk n b (length b) [] [];
  Some (rev (if (remaining =? 0)%nat && (length found <? n)%nat
             then let first := strip_bom head in if blank_bytes first then found else found ++ [rstrip_cr first]
             else found)).

(** [_TAIL_CHUNK]. *)
Definition TAIL_CHUNK : nat := N.to_nat 8192.

(** [read_jsonl_tail] on a plain file: its records, or what was raised. *)
Definition read_jsonl_tail (strict : bool) (recover : recovery) (n : Z) (src : source) : res (list json + stop) :=
  match recover with
  | RDefault | RRaise =>
      if (n <=? 0)%Z then mret (inl []) else
      match src with
      | NoFile => mret (inl [])
      | NoOpen | Fails _ => mret (if bool_decide (recover = RRaise) then inr IoStop else inl [])
      | Bytes b =>
          lines ← or_raise AssertionError (tail_lines TAIL_CHUNK (Z.to_nat n) b);
          let '(vs, e) := parse_jsonl strict (py_join [10%N] lines) in
          Ok match e with None => inl vs | Some e => inr e end
      end
  | _ => Err ValueError
  end.
End jsonl.

(** ** The backward reader *)

(** The file's lines as the reader means them: not blank, without a final
    carriage return. *)
Definition clean (lines : list pybytes) : list pybytes :=
  map rstrip_cr (filter (fun l => blank_bytes l = false) lines).

Lemma clean_app a b : clean (a ++ b) = clean a ++ clean b.
Proof. unfold clean. by rewrite filter_app, map_app. Qed.

Lemma clean_cons l ls : clean (l :: ls) = (if blank_bytes l then [] else [rstrip_cr l]) ++ clean ls.
Proof. unfold clean. rewrite filter_cons. by destruct (blank_bytes l). Qed.

Lemma clean_rev ls : clean (rev ls) = rev (clean ls).
Proof.
  induction ls as [|l ls IH]; simpl; [done|]. rewrite clean_app, IH, !clean_cons.
  change (clean []) with (@nil pybytes). rewrite rev_app_distr, app_nil_r. by destruct (blank_bytes l).
Qed.

Lemma split_lines_nonempty b : split_lines b <> [].
Proof. destruct b as [|c b]; simpl; [done|]. destruct (c =? 10)%N; [done|]. by case_match. Qed.

Lemma split_lines_app a b xs x y ys :
  split_lines a = xs ++ [x] -> split_lines b = y :: ys -> split_lines (a ++ b) = xs ++ [x ++ y] ++ ys.
Proof.
  revert xs x. induction a as [|c a IH]; intros xs x Ha Hb; simpl in Ha |- *.
  - destruct xs as [|z [|z' xs]]; simpl in Ha; simplify_eq. exact Hb.
  - destruct (c =? 10)%N.
    + destruct xs as [|z xs]; simpl in Ha.
      { simplify_eq. by destruct (split_lines_nonempty a). }
      simplify_eq. simpl. by rewrite (IH xs x).
    + destruct (split_lines a) as [|l ls] eqn:Hs; [by destruct (split_lines_nonempty a)|].
      destruct xs as [|z xs]; simpl in Ha; simplify_eq.
      * by rewrite (IH [] l eq_refl Hb).
      * by rewrite (IH (l :: xs) x eq_refl Hb).
Qed.

Lemma gather_take n found lines :
  (length found < n)%nat -> gather n found lines = take n (found ++ clean lines).
Proof.
  revert found. induction lines as [|l ls IH]; intros found Hn; simpl.
  - rewrite app_nil_r, take_ge; [done|lia].
  - rewrite clean_cons. destruct (blank_bytes l); [by apply IH|]. cbn [app].
    destruct (n <=? length (found ++ [rstrip_cr l]))%nat eqn:Hle.
    + apply Nat.leb_le in Hle. rewrite length_app in Hle. simpl in Hle.
      replace n with (length (found ++ [rstrip_cr l])) by (rewrite length_app; simpl; lia).
      by rewrite (cons_middle (rstrip_cr l) found (clean ls)), (assoc_L (++)), take_app_length.
    + apply Nat.leb_gt in Hle. rewrite IH by done. by rewrite <- (assoc_L (++)).
Qed.

(** What the loop knows: the partial line at the edge, and the last of the lines
    after it. *)
Definition tail_ok (n : nat) (b : pybytes) (remaining : nat) (head : pybytes) (found : list pybytes) : Prop :=
  (remaining <= length b)%nat /\
  exists mids, split_lines (drop remaining b) = head :: mids /\ found = take n (rev (clean mids)).

Lemma tail_loop_ok fuel chunk n b remaining head found :
  (1 <= chunk)%nat -> (remaining <= fuel)%nat -> tail_ok n b remaining head found ->
  exists r h f, tail_loop fuel chunk n b remaining head found = Some (r, h, f) /\ tail_ok n b r h f /\
    (r = 0 \/ n <= length f)%nat.
Proof.
  intros Hc. revert remaining head found.
  induction fuel as [|fuel IH]; intros remaining head found Hf Hok; cbn [tail_loop].
  { replace remaining with 0%nat in * by lia. simpl. eauto 10. }
  destruct (remaining =? 0)%nat eqn:H0; [apply Nat.eqb_eq in H0; eauto 10|].
  destruct (n <=? length found)%nat eqn:Hn; [apply Nat.leb_le in Hn; eauto 10|]. cbn [orb]. cbv zeta.
  apply Nat.eqb_neq in H0. apply Nat.leb_gt in Hn. destruct Hok as (Hr & mids & Hs & ->).
  set (size := Nat.min chunk remaining). set (rem' := (remaining - size)%nat).
  assert (drop rem' b = take size (drop rem' b) ++ drop remaining b) as Hd.
  { rewrite <- (take_drop size (drop rem' b)) at 1. f_equal. rewrite drop_drop. f_equal. lia. }
  destruct (split_lines (take size (drop rem' b))) as [|first parts] eqn:Hp; [by destruct (split_lines_nonempty (take size (drop rem' b)))|].
  destruct (decide (parts = [])) as [->|Hne].
  - apply IH; [lia|]. split; [lia|]. exists mids. split; [|done].
    rewrite Hd. apply (split_lines_app _ _ [] first head mids Hp Hs).
  - destruct (exists_last Hne) as (ps & p & ->).
    rewrite last_snoc, removelast_last. change (default [] (Some p)) with p.
    assert (forall (X Y : option (nat * pybytes * list pybytes)),
      match ps ++ [p] with [] => X | _ :: _ => Y end = Y) as Hm by (intros; by destruct ps).
    rewrite Hm. clear Hm. apply IH; [lia|]. split; [lia|]. exists (ps ++ [p ++ head] ++ mids). split.
    + rewrite Hd. apply (split_lines_app _ _ (first :: ps) p head mids Hp Hs).
    + assert (take n (rev (clean mids)) = rev (clean mids)) as Hall.
      { apply take_ge. rewrite length_take in Hn. lia. }
      rewrite gather_take by done. rewrite Hall, !clean_app, !rev_app_distr, clean_cons, clean_cons, clean_rev.
      rewrite <- !(assoc_L (++)). do 3 f_equal. change (clean []) with (@nil pybytes).
      by destruct (blank_bytes (p ++ head)).
Qed.

(** The lines of the file as the reader counts them. *)
Definition file_lines (b : pybytes) : list pybytes := clean (split_lines (strip_bom b)).

Lemma split_first b h ls : split_lines b = h :: ls -> exists rest, b = h ++ rest /\ (rest = [] \/ exists r, rest = 10%N :: r).
Proof.
  revert h ls. induction b as [|c b IH]; intros h ls; simpl.
  - intros [= <- <-]. exists []. eauto.
  - destruct (N.eqb_spec c 10) as [->|Hc]; [intros [= <- <-]; eauto 10|].
    destruct (split_lines b) as [|l ls'] eqn:Hs; [by destruct (split_lines_nonempty b)|]. intros [= <- <-].
    destruct (IH _ _ eq_refl) as (rest & -> & Hr). by exists rest.
Qed.

Lemma split_strip_bom b h ls : split_lines b = h :: ls -> split_lines (strip_bom b) = strip_bom h :: ls.
Proof.
  intros Hs. destruct (split_first _ _ _ Hs) as (rest & -> & Hrest).
  destruct h as [|c1 [|c2 [|c3 h]]]; try (destruct Hrest as [->|[[|d1 [|d2 r]] ->]]; simpl in Hs |- *;
    rewrite ?andb_false_r, ?andb_true_r; simpl; repeat case_match; by simplify_eq).
  cbn [app] in Hs |- *. unfold strip_bom. destruct ((c1 =? 239)%N && (c2 =? 187)%N && (c3 =? 191)%N) eqn:E; [|done].
  rewrite !andb_true_iff, !N.eqb_eq in E. destruct E as [[-> ->] ->].
  simpl in Hs. destruct (split_lines (h ++ rest)) as [|l ls'] eqn:Hl; [by destruct (split_lines_nonempty (h ++ rest))|].
  by simplify_eq.
Qed.

(** The last [n] of a list. *)
Definition last_n {A} (n : nat) (l : list A) : list A := drop (length l - n) l.

Lemma last_n_rev {A} n (l : list A) : rev (take n (rev l)) = last_n n l.
Proof.
  unfold last_n. rewrite <- (rev_involutive l) at 2 3. rewrite length_rev.
  rewrite skipn_rev. f_equal.
  destruct (decide (n <= length l)%nat); [f_equal; rewrite length_rev; lia|].
  rewrite !take_ge; rewrite ?length_rev; try lia. done.
Qed.

Lemma last_n_app {A} n (a b : list A) : (n <= length b)%nat -> last_n n (a ++ b) = last_n n b.
Proof.
  intros Hn. unfold last_n. rewrite length_app, drop_app, drop_ge by lia. simpl. f_equal. lia.
Qed.

Lemma tail_lines_ok chunk n b :
  (1 <= chunk)%nat -> tail_lines chunk n b = Some (last_n n (file_lines b)).
Proof.
  intros Hc. unfold tail_lines.
  destruct (tail_loop_ok (length b) chunk n b (length b) [] [] Hc ltac:(lia)) as (r & h & f & -> & (Hr & mids & Hs & ->) & Hend).
  { split; [lia|]. exists []. rewrite drop_all. split; [done|]. by destruct n. }
  cbn [mbind option_bind]. f_equal. rewrite <- last_n_rev. f_equal.
  assert (exists h', split_lines (strip_bom b) = (if (r =? 0)%nat then [strip_bom h] else h') ++ mids) as [X HX].
  { destruct (r =? 0)%nat eqn:H0.
    - apply Nat.eqb_eq in H0 as ->. exists []. by apply split_strip_bom.
    - destruct (exists_last (split_lines_nonempty (take r b))) as (xs & x & Hx).
      pose proof (split_lines_app _ _ _ _ _ _ Hx Hs) as Hb. rewrite take_drop in Hb.
      destruct xs as [|y ys]; simpl in Hb.
      + exists [strip_bom (x ++ h)]. by apply split_strip_bom.
      + exists (strip_bom y :: ys ++ [x ++ h]). rewrite (split_strip_bom _ _ _ Hb). simpl. by rewrite <- (assoc_L (++)). }
  unfold file_lines. rewrite HX, clean_app, rev_app_distr.
  destruct (decide (n <= length (rev (clean mids)))%nat) as [Hn|Hn].
  - rewrite take_app_le by done. rewrite length_take_le by done. rewrite Nat.ltb_irrefl, andb_false_r. done.
  - assert (take n (rev (clean mids)) = rev (clean mids)) as Hall by (apply take_ge; lia).
    rewrite Hall in *. destruct Hend as [->|Hend]; [|lia]. cbn [Nat.eqb andb].
    rewrite (proj2 (Nat.ltb_lt _ _)) by lia. rewrite clean_cons. change (clean []) with (@nil pybytes).
    rewrite app_nil_r. rewrite take_app_ge by lia.
    destruct (blank_bytes (strip_bom h)); simpl; [by rewrite take_nil, app_nil_r|].
    destruct (n - length (rev (clean mids)))%nat eqn:Hk; [lia|]. simpl. by rewrite take_nil.
Qed.

(** ** Stripping *)
Lemma lstrip_by_spec (p : N -> bool) s : exists t, s = t ++ lstrip_by p s /\ Forall (fun c => p c = true) t.
Proof.
  induction s as [|c s (t & Hs & Ht)]; simpl; [exists []; by split; [|constructor]|].
  destruct (p c) eqn:Hc; [|exists []; by split; [|constructor]]. exists (c :: t). split; [simpl; by f_equal|by constructor].
Qed.

Lemma lstrip_by_all (p : N -> bool) s : Forall (fun c => p c = true) s -> lstrip_by p s = [].
Proof. induction 1 as [|c s Hc _ IH]; simpl; [done|]. by rewrite Hc. Qed.

Lemma lstrip_by_app (p : N -> bool) t s : Forall (fun c => p c = true) t -> lstrip_by p (t ++ s) = lstrip_by p s.
Proof. induction 1 as [|c t Hc _ IH]; simpl; [done|]. by rewrite Hc. Qed.

Lemma strip_by_all (p : N -> bool) s : Forall (fun c => p c = true) s -> strip_by p s = [].
Proof. intros Hs. unfold strip_by. by rewrite (lstrip_by_all p s Hs). Qed.

Lemma strip_by_keep (p : N -> bool) c s : p c = false -> strip_by p (c :: s) <> [].
Proof.
  intros Hc. unfold strip_by. simpl. rewrite Hc. intros Hr%(f_equal (@rev N)). rewrite rev_involutive in Hr. simpl in Hr.
  destruct (lstrip_by_spec p (rev s ++ [c])) as (t & Ht & Hp). rewrite Hr, app_nil_r in Ht. rewrite <- Ht in Hp.
  apply Forall_app in Hp as [_ Hp]. inversion Hp. congruence.
Qed.

Lemma rstrip_by_spec (p : N -> bool) s : exists t, s = rstrip_by p s ++ t /\ Forall (fun c => p c = true) t.
Proof.
  unfold rstrip_by. destruct (lstrip_by_spec p (rev s)) as (t & Hs & Ht). exists (rev t). split.
  - rewrite <- rev_app_distr, <- Hs. by rewrite rev_involutive.
  - by apply List.Forall_rev.
Qed.

Lemma rstrip_by_app (p : N -> bool) s t : Forall (fun c => p c = true) t -> rstrip_by p (s ++ t) = rstrip_by p s.
Proof. intros Ht. unfold rstrip_by. rewrite rev_app_distr, lstrip_by_app; [done|]. by apply List.Forall_rev. Qed.

Lemma rstrip_by_id (p : N -> bool) s : Forall (fun c => p c = false) s -> rstrip_by p s = s.
Proof.
  intros Hs. unfold rstrip_by. apply List.Forall_rev in Hs. rewrite <- (rev_involutive s) at 2. f_equal.
  destruct Hs as [|c l Hc _]; [done|]. simpl. by rewrite Hc.
Qed.

(** ** Judging a line *)
Definition ascii_ (b : pybytes) : Prop := Forall (fun c => c < 128)%N b.

Lemma utf8_decode_ascii b : ascii_ b -> utf8_decode b = Some b.
Proof. induction 1 as [|c b Hc _ IH]; simpl; [done|]. rewrite (proj2 (N.ltb_lt _ _) Hc), IH. done. Qed.

Lemma utf8_decode_snoc b c : (c < 128)%N -> utf8_decode (b ++ [c]) = option_map (fun s => s ++ [c]) (utf8_decode b).
Proof.
  intros Hc. remember (length b) as n eqn:Hn. revert b Hn. induction n as [n IH] using lt_wf_ind. intros b ->.
  assert (cont_byte c = false) as Hcont.
  { unfold cont_byte. apply andb_false_iff. left. apply N.leb_gt. lia. }
  assert (forall b', (length b' < length b)%nat -> utf8_decode (b' ++ [c]) = option_map (fun s => s ++ [c]) (utf8_decode b')) as IH'.
  { intros b' Hb'. by eapply IH. } clear IH.
  assert (forall b' (x : N), (length b' < length b)%nat ->
    (r ← utf8_decode (b' ++ [c]); Some (x :: r)) = option_map (fun s => s ++ [c]) (r ← utf8_decode b'; Some (x :: r))) as IHx.
  { intros b' x Hb'. rewrite (IH' b' Hb'). by destruct (utf8_decode b'). } clear IH'.
  destruct b as [|b0 r0]; [simpl; by rewrite (proj2 (N.ltb_lt _ _) Hc)|]. cbn [app utf8_decode].
  destruct (b0 <? 128)%N; [apply IHx; simpl; lia|].
  destruct r0 as [|b1 r1]; cbn [app]; [by rewrite Hcont|]. destruct (negb (cont_byte b1)); [done|].
  destruct (_ && _); [apply IHx; simpl; lia|].
  destruct r1 as [|b2 r2]; cbn [app]; [by rewrite Hcont|]. destruct (negb (cont_byte b2)); [done|].
  destruct (_ && _); [destruct (_ || _); [done|]; apply IHx; simpl; lia|].
  destruct r2 as [|b3 r3]; cbn [app]; [by rewrite Hcont|]. destruct (negb (cont_byte b3)); [done|].
  destruct (_ && _); [|done]. destruct (_ || _); [done|]. apply IHx; simpl; lia.
Qed.

Lemma utf8_decode_crs b t : Forall (fun c => is_cr c = true) t -> utf8_decode (b ++ t) = option_map (fun s => s ++ t) (utf8_decode b).
Proof.
  induction t as [|c t IH] using rev_ind; intros Ht.
  - rewrite app_nil_r. destruct (utf8_decode b); simpl; [by rewrite app_nil_r|done].
  - apply Forall_app in Ht as [Ht Hc]. inversion Hc as [|?? Hc' _]. unfold is_cr in Hc'. apply N.eqb_eq in Hc' as ->.
    rewrite (assoc_L (++)), utf8_decode_snoc, (IH Ht) by lia. destruct (utf8_decode b); simpl; [by rewrite <- (assoc_L (++))|done].
Qed.

Section facts.
Context `{PyLib}.
Variable too_big : pystr -> bool.
Abbreviation classify_line := (classify_line too_big).
Abbreviation parse_lines := (parse_lines too_big).

Lemma classify_rstrip l : classify_line (rstrip_cr l) = classify_line l.
Proof.
  destruct (rstrip_by_spec is_cr l) as (t & Hl & Ht). fold (rstrip_cr l) in Hl.
  unfold Jsonl.classify_line. rewrite Hl at 2. rewrite utf8_decode_crs by done.
  destruct (utf8_decode (rstrip_cr l)) as [raw|]; simpl; [|done].
  rewrite rstrip_by_app; [done|]. eapply Forall_impl; [exact Ht|]. intros c Hc. cbv beta in *. unfold is_crlf. unfold is_cr in Hc. by rewrite Hc.
Qed.

Lemma classify_blank l : blank_bytes l = true -> classify_line l = Blank.
Proof.
  unfold blank_bytes. rewrite forallb_forall. intros Hl.
  assert (forall c, c ∈ l -> (9 <= c <= 13 \/ c = 32)%N) as Hc.
  { intros c Hc%list_elem_of_In%Hl. unfold is_ascii_space in Hc. autorewrite with py in Hc. lia. }
  unfold Jsonl.classify_line. rewrite utf8_decode_ascii.
  2: { apply Forall_forall. intros c ?%Hc. lia. }
  rewrite bool_decide_eq_true_2; [done|]. apply strip_by_all.
  destruct (rstrip_by_spec is_crlf l) as (t & Ht & _).
  apply Forall_forall. intros c Hin. assert (c ∈ l) as Hin'%Hc by (rewrite Ht; set_solver).
  unfold is_space. rewrite (proj2 (N.ltb_lt _ _)) by lia. apply orb_true_iff. left. unfold is_ascii_space. autorewrite with py. lia.
Qed.

Definition usable (l : pybytes) : option json := match classify_line l with Usable v => Some v | _ => None end.
(** No line is too big for the parser. *)
Definition sized (l : pybytes) : Prop := classify_line l <> Bad Unloadable.

Lemma parse_plain n ls : Forall sized ls -> parse_lines false n ls = (omap usable ls, None).
Proof.
  intros Hs. revert n. induction Hs as [|l ls Hl _ IH]; intros n; [done|]. cbn [Jsonl.parse_lines omap list_omap].
  unfold usable at 1. unfold sized in Hl. rewrite IH. by destruct (classify_line l) as [v| |[]].
Qed.

Lemma parse_clean_strict n ls : Forall (fun l => is_Some (usable l) \/ classify_line l = Blank) ls ->
  parse_lines true n ls = (omap usable ls, None).
Proof.
  intros Hs. revert n. induction Hs as [|l ls Hl _ IH]; intros n; [done|]. cbn [Jsonl.parse_lines omap list_omap].
  rewrite IH. unfold usable in *. destruct (classify_line l) as [v| |why]; [done..|].
  by destruct Hl as [[v Hl]|Hl].
Qed.

Lemma usable_rstrip l : usable (rstrip_cr l) = usable l.
Proof. unfold usable. by rewrite classify_rstrip. Qed.

Lemma usable_blank l : blank_bytes l = true -> usable l = None.
Proof. intros Hl. unfold usable. by rewrite classify_blank. Qed.

Lemma omap_clean ls : omap usable (clean ls) = omap usable ls.
Proof.
  induction ls as [|l ls IH]; [done|]. rewrite clean_cons, omap_app, IH.
  destruct (blank_bytes l) eqn:Hb; cbn [omap list_omap app].
  - by rewrite (usable_blank l Hb).
  - rewrite usable_rstrip. by destruct (usable l).
Qed.

(** ** Streams of lines *)

Definition lines_of (b : pybytes) : list pybytes := let '(ls, rest) := cut_lines b in ls ++ (if rest is [] then [] else [rest]).

Lemma stream_lines b : stream b = lines_of (strip_bom b).
Proof. done. Qed.

Lemma cut_split b : split_lines b = (cut_lines b).1 ++ [(cut_lines b).2].
Proof.
  induction b as [|c b IH]; simpl; [done|]. destruct (cut_lines b) as [ls rest]. simpl in IH.
  destruct (c =? 10)%N; simpl; [by rewrite IH|]. rewrite IH. by destruct ls.
Qed.

Lemma lines_clean b : clean (lines_of b) = clean (split_lines b).
Proof.
  unfold lines_of. rewrite cut_split. destruct (cut_lines b) as [ls rest]. simpl. rewrite !clean_app.
  f_equal. by destruct rest.
Qed.

Lemma cut_app b x :
  cut_lines (b ++ x) =
    let '(ls, rest) := cut_lines b in let '(ls', rest') := cut_lines x in
    match ls' with [] => (ls, rest ++ rest') | l :: t => (ls ++ (rest ++ l) :: t, rest') end.
Proof.
  induction b as [|c b IH]; simpl; [destruct (cut_lines x) as [[|l t] rest']; done|].
  rewrite IH. destruct (cut_lines b) as [ls rest], (cut_lines x) as [[|l t] rest']; destruct (c =? 10)%N; try done;
    by destruct ls.
Qed.

Lemma ends_line_spec b : ends_line b = match (cut_lines b).2 with [] => negb (bool_decide (b = [])) | _ => false end.
Proof.
  unfold ends_line. induction b as [|c b IH]; [done|]. rewrite (bool_decide_eq_false_2 (c :: b = [])) by done.
  destruct b as [|d b].
  - simpl. destruct (N.eqb_spec c 10) as [->|Hc]; [done|]. apply bool_decide_eq_false_2. congruence.
  - change (last (c :: d :: b)) with (last (d :: b)). rewrite IH. rewrite (bool_decide_eq_false_2 (d :: b = [])) by done.
    change (cut_lines (c :: d :: b)) with (let '(ls, rest) := cut_lines (d :: b) in
      if (c =? 10)%N then ([] :: ls, rest) else match ls with l :: ls' => ((c :: l) :: ls', rest) | [] => ([], c :: rest) end).
    destruct (cut_lines (d :: b)) as [[|l ls] rest] eqn:E; simpl; destruct (c =? 10)%N; try done.
    simpl. destruct rest; [|done]. exfalso. revert E. simpl. destruct (cut_lines b) as [ls' r'].
    destruct (d =? 10)%N; [done|]. by destruct ls'.
Qed.

Lemma torn_rest b : tail_is_torn b = match (cut_lines b).2 with [] => false | _ => true end.
Proof.
  unfold tail_is_torn. rewrite ends_line_spec. destruct (cut_lines b).2 eqn:E.
  - by destruct (bool_decide (b = [])).
  - rewrite bool_decide_eq_false_2; [done|]. by intros ->.
Qed.

(** A write that begins a new line after a torn tail only adds lines. *)
Lemma lines_append b x : lines_of (b ++ (if tail_is_torn b then [10%N] else []) ++ x) = lines_of b ++ lines_of x.
Proof.
  unfold lines_of. rewrite torn_rest, cut_app. destruct (cut_lines b) as [ls rest]. simpl.
  destruct rest as [|c rest]; simpl.
  - rewrite app_nil_r. destruct (cut_lines x) as [[|l t] rest']; simpl; [done|]. by rewrite <- (assoc_L (++)).
  - destruct (cut_lines x) as [ls' rest']. simpl. rewrite app_nil_r. by rewrite <- !(assoc_L (++)).
Qed.
(** ** Records written and read back *)

(** What an appender may write so that it reads back: an object whose text the
    parser has room for, whole or cut. *)
Definition storable (v : json) : Prop :=
  json_ok v /\ is_obj v = true /\ forall k, too_big (take k (dumps_default v)) = false.

Definition text_of (rs : list json) : pybytes := concat (map (fun v => dumps_default v ++ [10%N]) rs).

Lemma finite_ok v : json_ok v -> finite_json v = true.
Proof.
  induction v as [| | | | |l IH|kvs IH] using json_ind'; intros Hok; try done; cbn [finite_json]; rewrite forallb_forall.
  - simpl in Hok. apply fold_right_and in Hok. rewrite Forall_forall in IH, Hok. intros v Hv%list_elem_of_In. by apply IH, Hok.
  - destruct Hok as [_ Hok%fold_right_and]. rewrite Forall_forall in IH, Hok. intros kv Hkv%list_elem_of_In.
    by apply IH, Hok.
Qed.

Lemma encode_storable null rs : Forall storable rs -> encode_jsonl null rs = Ok (text_of rs).
Proof.
  induction 1 as [|v rs (Hok & Hobj & _) _ IH]; [done|]. cbn [encode_jsonl]. rewrite Hobj. cbn [negb].
  unfold dumps_record. rewrite finite_ok by done. cbn [mbind res_bind]. rewrite IH. cbn [mbind res_bind].
  unfold text_of. cbn [map concat]. by rewrite <- (assoc_L (++)).
Qed.

(** The printed text of a record: one line, and no shorter text is a record. *)
Lemma no_newline b : Forall (fun c => c <> 10%N) b -> cut_lines b = ([], b).
Proof. induction 1 as [|c b Hc _ IH]; simpl; [done|]. rewrite IH. by rewrite (proj2 (N.eqb_neq c 10)). Qed.

Lemma printable_no_newline b : Forall printable b -> Forall (fun c => c <> 10%N) b.
Proof. intros Hb. eapply Forall_impl; [exact Hb|]. unfold printable. intros. lia. Qed.

Lemma printable_decode b : Forall printable b -> utf8_decode b = Some b /\ rstrip_by is_crlf b = b.
Proof.
  intros Hb. split.
  - apply utf8_decode_ascii. eapply Forall_impl; [exact Hb|]. unfold printable. intros. lia.
  - apply rstrip_by_id. eapply Forall_impl; [exact Hb|]. unfold printable, is_crlf. intros c Hc.
    apply orb_false_iff. rewrite !N.eqb_neq. lia.
Qed.

Lemma text_start v : is_obj v = true -> exists t, dumps_default v = 123%N :: t.
Proof. destruct v as [| | | | | |kvs]; try done. intros _. eexists. reflexivity. Qed.

Lemma brace_kept t : strip (123%N :: t) <> [].
Proof. by apply strip_by_keep. Qed.

Lemma usable_text v : storable v -> usable (dumps_default v) = Some v /\ sized (dumps_default v).
Proof.
  intros (Hok & Hobj & _). unfold usable, sized, Jsonl.classify_line.
  destruct (printable_decode _ (dumps_printable v Hok)) as [-> ->].
  destruct (text_start v Hobj) as [t Ht]. rewrite bool_decide_eq_false_2 by (rewrite Ht; apply brace_kept).
  rewrite loads_dumps_default by done. rewrite jnorm_false by done. by rewrite Hobj.
Qed.

Lemma usable_cut v k : storable v -> (0 < k < length (dumps_default v))%nat ->
  usable (take k (dumps_default v)) = None /\ sized (take k (dumps_default v)).
Proof.
  intros (Hok & Hobj & Hbig) Hk. unfold usable, sized, Jsonl.classify_line.
  assert (Forall printable (take k (dumps_default v))) as Hp by (apply Forall_take, dumps_printable; done).
  destruct (printable_decode _ Hp) as [-> ->].
  destruct (text_start v Hobj) as [t Ht].
  rewrite bool_decide_eq_false_2 by (rewrite Ht; destruct k; [lia|]; apply brace_kept).
  rewrite (loads_cut v _ (drop k (dumps_default v)) Hok Hobj).
  - rewrite Hbig. done.
  - by rewrite take_drop.
  - intros Hd%(f_equal length). rewrite length_drop in Hd. simpl in Hd. lia.
Qed.

(** The records of [rs] whose text is whole in the first [k] bytes. *)
Fixpoint whole_in (k : nat) (rs : list json) : list json :=
  match rs with
  | [] => []
  | v :: rs => let n := length (dumps_default v) in if (n <=? k)%nat then v :: whole_in (k - S n) rs else []
  end.

Lemma lines_line d x : Forall (fun c => c <> 10%N) d -> lines_of (d ++ [10%N] ++ x) = d :: lines_of x.
Proof.
  intros Hd. unfold lines_of. rewrite cut_app, (no_newline d Hd). simpl.
  destruct (cut_lines x) as [ls rest]. simpl. by rewrite app_nil_r.
Qed.

Lemma lines_piece d : Forall (fun c => c <> 10%N) d -> lines_of d = if d is [] then [] else [d].
Proof. intros Hd. unfold lines_of. by rewrite (no_newline d Hd). Qed.

Lemma text_length v : is_obj v = true -> (0 < length (dumps_default v))%nat.
Proof. intros [t ->]%text_start. simpl. lia. Qed.

Lemma whole_in_0 rs : Forall storable rs -> whole_in 0 rs = [].
Proof.
  destruct 1 as [|v rs (_ & Hobj & _) _]; cbn [whole_in]; [done|]. pose proof (text_length v Hobj).
  by rewrite (proj2 (Nat.leb_gt _ _)) by lia.
Qed.

Lemma lines_cut rs k : Forall storable rs ->
  omap usable (lines_of (take k (text_of rs))) = whole_in k rs /\ Forall sized (lines_of (take k (text_of rs))).
Proof.
  intros Hrs. revert k. induction Hrs as [|v rs Hv Hrs IH]; intros k.
  { unfold text_of. simpl. rewrite take_nil. split; [done|constructor]. }
  change (text_of (v :: rs)) with ((dumps_default v ++ [10%N]) ++ text_of rs). rewrite <- (assoc_L (++)).
  cbn [whole_in]. pose proof (printable_no_newline _ (dumps_printable v (proj1 Hv))) as Hp. set (d := dumps_default v) in *.
  destruct (decide (length d <= k)%nat) as [Hk|Hk].
  - rewrite (proj2 (Nat.leb_le _ _) Hk). rewrite take_app_ge by done.
    destruct (usable_text v Hv) as [Hu Hs]. fold d in Hu, Hs.
    destruct (k - length d)%nat as [|j] eqn:Hj.
    + replace (k - S (length d))%nat with 0%nat by lia. rewrite whole_in_0 by done. simpl. rewrite app_nil_r.
      rewrite lines_piece by done. destruct d as [|c d'] eqn:Hd; [by destruct (text_start v (proj1 (proj2 Hv)))|].
      cbn [omap list_omap]. rewrite Hu. split; [done|by repeat constructor].
    + replace (k - S (length d))%nat with j by lia. change (take (S j) ([10%N] ++ text_of rs)) with ([10%N] ++ take j (text_of rs)). rewrite (lines_line d _ Hp).
      destruct (IH j) as [IH1 IH2]. cbn [omap list_omap]. rewrite Hu, IH1. split; [done|by constructor].
  - rewrite (proj2 (Nat.leb_gt _ _)) by lia. rewrite take_app_le by lia.
    rewrite lines_piece by (by apply Forall_take). destruct (take k d) as [|c t] eqn:Ht; [split; [done|constructor]|].
    destruct (usable_cut v k Hv) as [Hu Hs].
    { fold d. split; [|lia]. destruct k; [done|lia]. }
    fold d in Hu, Hs. rewrite Ht in Hu, Hs. cbn [omap list_omap]. rewrite Hu. split; [done|by repeat constructor].
Qed.
(** A history of appends to one file, each complete or cut short. *)
Definition append_op : Type := list json * option nat.

Fixpoint run_appends (null : bool) (h : list append_op) (file : option pybytes) : res (option pybytes) :=
  match h with
  | [] => Ok file
  | (rs, cut) :: h => '(file, _) ← append_jsonl null (inr rs) cut file; run_appends null h file
  end.

Definition as_source (file : option pybytes) : source := match file with Some b => Bytes b | None => NoFile end.

(** What is left of one append. *)
Definition left_of (op : append_op) (kept : list json) : Prop :=
  kept `prefix_of` op.1 /\ (op.2 = None -> kept = op.1).

Lemma whole_in_prefix k rs : whole_in k rs `prefix_of` rs.
Proof.
  revert k. induction rs as [|v rs IH]; intros k; cbn [whole_in]; [done|].
  case_match; [by apply prefix_cons|apply prefix_nil].
Qed.

Lemma strip_bom_id b : head b <> Some 239%N -> strip_bom b = b.
Proof.
  intros Hb. destruct b as [|x [|y [|z b]]]; try done. simpl. destruct (N.eqb_spec x 239) as [->|]; [done|]. done.
Qed.

(** What a reader of the file sees. *)
Record file_holds (file : option pybytes) (vs : list json) : Prop := {
  fh_start : head (default [] file) <> Some 239%N;
  fh_sized : Forall sized (lines_of (default [] file));
  fh_records : omap usable (lines_of (default [] file)) = vs;
}.

Lemma whole_in_all rs k : (length (text_of rs) <= k)%nat -> whole_in k rs = rs.
Proof.
  revert k. induction rs as [|v rs IH]; intros k Hk; [done|]. cbn [whole_in].
  unfold text_of in Hk. cbn [map concat] in Hk. rewrite !length_app in Hk. simpl in Hk. fold (text_of rs) in Hk.
  rewrite (proj2 (Nat.leb_le _ _)) by lia. f_equal. apply IH. lia.
Qed.

Lemma text_lines rs : Forall storable rs -> lines_of (text_of rs) = map dumps_default rs.
Proof.
  induction 1 as [|v rs (Hok & _) _ IH]; [done|].
  change (text_of (v :: rs)) with ((dumps_default v ++ [10%N]) ++ text_of rs). rewrite <- (assoc_L (++)).
  rewrite lines_line by (by apply printable_no_newline, dumps_printable). by rewrite IH.
Qed.

(** What the write leaves: nothing, or the new line and a part of the data. *)
Lemma append_bytes_cut file data cut :
  let old := default [] file in let p := if tail_is_torn old then [10%N] else [] in
  append_bytes file data cut = old /\ cut <> None \/
  exists m, append_bytes file data cut = old ++ p ++ take m data /\ (cut = None -> m = length data).
Proof.
  cbv zeta. unfold append_bytes. destruct cut as [k|].
  - destruct (tail_is_torn _); [|right; by exists k]. destruct k as [|k]; [left; by rewrite app_nil_r|].
    right. by exists k.
  - right. exists (length data). by rewrite firstn_all.
Qed.

Lemma head_text rs m : Forall storable rs -> head (take m (text_of rs)) <> Some 239%N.
Proof.
  destruct 1 as [|v rs (_ & [t Ht]%text_start & _) _]; [by destruct m|]. unfold text_of. cbn [map concat].
  rewrite Ht. by destruct m.
Qed.

Lemma append_holds null rs cut file vs :
  Forall storable rs -> file_holds file vs ->
  exists file' n kept, append_jsonl null (inr rs) cut file = Ok (file', n) /\ left_of (rs, cut) kept /\
    file_holds file' (vs ++ kept) /\
    (cut = None -> lines_of (default [] file') = lines_of (default [] file) ++ map dumps_default rs).
Proof.
  intros Hrs Hf. unfold append_jsonl, payload. rewrite encode_storable by done. cbn [mbind res_bind mret res_ret].
  case_bool_decide as He.
  { destruct rs as [|v rs]; [|exfalso; revert He; unfold text_of; simpl; by destruct (dumps_default v)].
    exists file, 0%Z, []. split_and!; [done|by split|by rewrite app_nil_r|intros _; by rewrite app_nil_r]. }
  destruct Hf as [Hst Hsz Hrec].
  destruct (append_bytes_cut file (text_of rs) cut) as [[Heq Hc]|(m & Heq & Hm)].
  - exists (Some (append_bytes file (text_of rs) cut)), (Z.of_nat (length (text_of rs))), []. rewrite Heq.
    split_and!; [done|split; [apply prefix_nil|done]|by rewrite app_nil_r|done].
  - destruct (lines_cut rs m Hrs) as [Hl Hs].
    exists (Some (append_bytes file (text_of rs) cut)), (Z.of_nat (length (text_of rs))), (whole_in m rs). split_and!; [done| | |].
    + split; [apply whole_in_prefix|]. intros Hc. apply whole_in_all. rewrite (Hm Hc). done.
    + split; cbn [from_option id]; rewrite Heq.
      * destruct (default [] file) as [|c old] eqn:Ho; [|done]. apply head_text; done.
      * rewrite lines_append. by apply Forall_app.
      * by rewrite lines_append, omap_app, Hl, Hrec.
    + intros Hc. cbn [from_option id]. rewrite Heq, lines_append, (Hm Hc), firstn_all. by rewrite text_lines.
Qed.

Lemma appends_hold null h file vs :
  Forall (fun op => Forall storable op.1) h -> file_holds file vs ->
  exists file' kept, run_appends null h file = Ok file' /\ Forall2 left_of h kept /\ file_holds file' (vs ++ concat kept) /\
    (Forall (fun op => op.2 = None) h ->
       lines_of (default [] file') = lines_of (default [] file) ++ map dumps_default (concat (map fst h))).
Proof.
  intros Hh. revert file vs. induction Hh as [|[rs cut] h Hrs _ IH]; intros file vs Hf; cbn [run_appends].
  { exists file, []. split_and!; [done|constructor|by rewrite app_nil_r|intros _; by rewrite app_nil_r]. }
  destruct (append_holds null rs cut file vs Hrs Hf) as (file1 & n & k & -> & Hk & Hf1 & Hl1). cbn [mbind res_bind].
  destruct (IH file1 (vs ++ k) Hf1) as (file' & kept & Hrun & Hkept & Hf' & Hl').
  exists file', (k :: kept). split_and!; [done|by constructor| |].
  - simpl. by rewrite (assoc_L (++)).
  - inversion 1 as [|?? Hc Hcs]; subst. rewrite (Hl' Hcs), (Hl1 Hc). simpl. by rewrite map_app, <- (assoc_L (++)).
Qed.

(** ** The reader of the last lines, and records *)
Lemma rstrip_by_cons (p : N -> bool) c s : p c = false -> rstrip_by p (c :: s) = c :: rstrip_by p s.
Proof.
  intros Hc. unfold rstrip_by. simpl. rewrite <- (rev_involutive (c :: rev (lstrip_by p (rev s)))). f_equal. simpl.
  rewrite rev_involutive. induction (rev s) as [|x l IH]; simpl; [by rewrite Hc|]. by destruct (p x).
Qed.

Lemma usable_no_bom l v : usable l = Some v -> strip_bom l = l.
Proof.
  intros Hu. destruct l as [|x [|y [|z l]]]; try done. simpl.
  destruct (N.eqb_spec x 239) as [->|]; [|done]. destruct (N.eqb_spec y 187) as [->|]; [|done].
  destruct (N.eqb_spec z 191) as [->|]; [|done]. exfalso. revert Hu. unfold usable, Jsonl.classify_line.
  change (utf8_decode (239 :: 187 :: 191 :: l)%N) with (r ← utf8_decode l; Some (65279%N :: r)).
  destruct (utf8_decode l) as [r|]; [|done]. cbn [mbind option_bind]. rewrite rstrip_by_cons by done.
  set (t := rstrip_by is_crlf r).
  assert (loads (65279%N :: t) = None) as ->.
  { unfold loads. change (skip_ws (65279%N :: t)) with (65279%N :: t). rewrite Nat.add_comm. cbn [Nat.add]. by rewrite jvalue_unfold. }
  case_bool_decide; [done|]. by destruct (too_big (65279%N :: t)).
Qed.

Lemma cut_no_newline b : Forall (Forall (fun c => c <> 10%N)) (cut_lines b).1 /\ Forall (fun c => c <> 10%N) (cut_lines b).2.
Proof.
  induction b as [|c b [IH1 IH2]]; simpl; [by split|]. destruct (cut_lines b) as [ls rest]. simpl in *.
  destruct (N.eqb_spec c 10) as [->|Hc]; simpl; [split; [by constructor|done]|].
  destruct IH1 as [|l ls Hl Hls]; simpl; (split; [|first [done|by constructor]]); [constructor|].
  constructor; [by constructor|done].
Qed.

Lemma lines_no_newline b : Forall (Forall (fun c => c <> 10%N)) (lines_of b).
Proof.
  pose proof (cut_no_newline b) as [H1 H2]. unfold lines_of. destruct (cut_lines b) as [ls rest]. simpl in *.
  apply Forall_app_2; [done|]. destruct rest; [constructor|by constructor].
Qed.

Lemma lines_join ls : Forall (fun l => Forall (fun c => c <> 10%N) l /\ l <> []) ls -> lines_of (py_join [10%N] ls) = ls.
Proof.
  induction 1 as [|l ls [Hl Hne] Hls IH]; [done|]. cbn [py_join]. destruct ls as [|l' ls].
  - rewrite lines_piece by done. by destruct l.
  - change (py_join [10%N] (l :: l' :: ls)) with (l ++ [10%N] ++ py_join [10%N] (l' :: ls)). rewrite lines_line by done. by rewrite IH.
Qed.

Lemma omap_last_n (ls : list pybytes) n : Forall (fun l => is_Some (usable l)) ls ->
  omap usable (last_n n ls) = last_n n (omap usable ls).
Proof.
  intros Hls. assert (length (omap usable ls) = length ls) as Hlen.
  { induction Hls as [|l ls [v Hv] _ IH]; [done|]. cbn [omap list_omap]. rewrite Hv. simpl. by f_equal. }
  unfold last_n. rewrite Hlen. clear Hlen. generalize (length ls - n)%nat as k. intros k. revert k.
  induction Hls as [|l ls [v Hv] _ IH]; intros k; [by destruct k|].
  cbn [omap list_omap]. rewrite Hv. destruct k as [|k]; [cbn [drop omap list_omap]; by rewrite Hv|]. apply IH.
Qed.

(** A file of usable and blank lines reads the same in both modes. *)
Lemma parse_clean strict n ls : Forall (fun l => is_Some (usable l) \/ classify_line l = Blank) ls ->
  parse_lines strict n ls = (omap usable ls, None).
Proof.
  intros Hls. destruct strict; [by apply parse_clean_strict|]. apply parse_plain.
  eapply Forall_impl; [exact Hls|]. unfold sized, usable. intros l [[v Hv]|Hl]; [|by rewrite Hl].
  by destruct (classify_line l) as [| |].
Qed.

Lemma strip_bom_line l x : strip_bom l = l -> strip_bom (l ++ 10%N :: x) = l ++ 10%N :: x.
Proof.
  destruct l as [|c1 [|c2 [|c3 l]]]; intros Hl; simpl in *; try done.
  - by destruct x as [|? [|? ?]].
  - destruct x; [done|]. by rewrite andb_false_r.
  - by rewrite andb_false_r.
  - destruct (_ && _); [|done]. exfalso. apply (f_equal length) in Hl. simpl in Hl. lia.
Qed.

Lemma usable_nonempty l : is_Some (usable l) -> l <> [].
Proof. intros [v Hv] ->. rewrite usable_blank in Hv; done. Qed.

(** The window of the last lines, joined again, is read as those lines. *)
Lemma window_read strict ls :
  Forall (fun l => Forall (fun c => c <> 10%N) l) ls -> Forall (fun l => is_Some (usable l)) ls ->
  parse_jsonl too_big strict (py_join [10%N] ls) = (omap usable ls, None).
Proof.
  intros Hn Hu. unfold parse_jsonl.
  assert (stream (py_join [10%N] ls) = ls) as ->.
  { rewrite stream_lines.
    assert (strip_bom (py_join [10%N] ls) = py_join [10%N] ls) as ->.
    { destruct Hu as [|l ls [v Hv%usable_no_bom] _]; [done|]. destruct ls as [|l' ls]; [exact Hv|]. by apply strip_bom_line. }
    apply lines_join. rewrite Forall_forall in Hn, Hu. apply Forall_forall. intros l Hl. split; [by apply Hn|].
    by apply usable_nonempty, Hu. }
  apply parse_clean. eapply Forall_impl; [exact Hu|]. by left.
Qed.

Lemma rstrip_cr_no_newline l : Forall (fun c => c <> 10%N) l -> Forall (fun c => c <> 10%N) (rstrip_cr l).
Proof. destruct (rstrip_by_spec is_cr l) as (t & Hl & _). rewrite Hl at 1. by intros [? _]%Forall_app. Qed.

Lemma file_lines_usable b :
  Forall (fun l => blank_bytes l = true \/ is_Some (usable l)) (stream b) ->
  Forall (fun l => Forall (fun c => c <> 10%N) l) (file_lines b) /\ Forall (fun l => is_Some (usable l)) (file_lines b).
Proof.
  rewrite stream_lines. unfold file_lines. rewrite <- lines_clean. intros Hb.
  pose proof (lines_no_newline (strip_bom b)) as Hn. induction Hb as [|l ls Hl _ IH]; [by split; constructor|].
  inversion Hn as [|?? Hn1 Hn2]; subst. destruct (IH Hn2) as [IH1 IH2]. rewrite clean_cons.
  destruct (blank_bytes l) eqn:E; [by split|]. destruct Hl as [Hl|Hl]; [congruence|]. cbn [app].
  split; constructor; [by apply rstrip_cr_no_newline|done|by rewrite usable_rstrip|done].
Qed.

Lemma drop_Forall {A} (P : A -> Prop) n ls : Forall P ls -> Forall P (last_n n ls).
Proof. apply Forall_drop. Qed.

(** ** Reading from a position *)
Lemma records_app start n a b :
  records_from too_big start n (a ++ b) = records_from too_big start n a ++ records_from too_big start (n + length a) b.
Proof.
  revert n. induction a as [|l a IH]; intros n; simpl; [by rewrite Nat.add_0_r|].
  rewrite IH, <- (assoc_L (++)). do 3 f_equal. lia.
Qed.

Lemma records_before start n ls : (n + length ls <= S start)%nat -> records_from too_big start n ls = [].
Proof.
  revert n. induction ls as [|l ls IH]; intros n Hn; [done|]. cbn [records_from length] in *.
  rewrite (proj2 (Nat.leb_le _ _)) by lia. apply IH. lia.
Qed.

Lemma records_after start start' n ls : (start < n)%nat -> (start' < n)%nat ->
  records_from too_big start n ls = records_from too_big start' n ls.
Proof.
  revert n. induction ls as [|l ls IH]; intros n Hs Hs'; [done|]. cbn [records_from].
  rewrite !(proj2 (Nat.leb_gt _ _)) by done. f_equal. apply IH; lia.
Qed.

Lemma strip_bom_app b c : (cut_lines (strip_bom b)).1 <> [] -> strip_bom (b ++ c) = strip_bom b ++ c.
Proof.
  destruct b as [|x [|y [|z b]]]; simpl; try done.
  - destruct (N.eqb_spec x 10) as [->|]; [|done]. intros _. by destruct c as [|? [|? ?]].
  - destruct (N.eqb_spec y 10) as [->|]; [intros _; destruct c; [done|]; by rewrite andb_false_r|].
    destruct (N.eqb_spec x 10) as [->|]; [|done]. intros _. by destruct c.
  - intros _. by case_match.
Qed.

Lemma lines_grow b c : exists more, (cut_lines (strip_bom (b ++ c))).1 = (cut_lines (strip_bom b)).1 ++ more.
Proof.
  destruct (decide ((cut_lines (strip_bom b)).1 = [])) as [->|Hne]; [by eexists|].
  rewrite strip_bom_app, cut_app by done. destruct (cut_lines (strip_bom b)) as [ls rest].
  destruct (cut_lines c) as [[|l t] r]; simpl; [exists []; by rewrite app_nil_r|by eexists].
Qed.

Lemma omap_texts vs : Forall storable vs -> omap usable (map dumps_default vs) = vs.
Proof.
  induction 1 as [|v vs Hv _ IH]; [done|]. cbn [map omap list_omap].
  destruct (usable_text v Hv) as [-> _]. by rewrite IH.
Qed.


(** the backward reader agrees with the forward one.  On any file the chunked
    scan from the end terminates and returns the last [n] lines of the file that
    are not blank, whatever the size of its chunks; so on a file whose lines are
    all records or blank, [read_jsonl_tail] returns exactly the last [n] records
    [read_jsonl] does, in the same order. *)
Theorem tail_reader_agrees strict (n : Z) b :
  (0 < n)%Z -> Forall (fun l => blank_bytes l = true \/ is_Some (usable l)) (stream b) ->
  (forall chunk, (1 <= chunk)%nat -> tail_lines chunk (Z.to_nat n) b = Some (last_n (Z.to_nat n) (file_lines b))) /\
  exists vs, read_jsonl too_big strict RRaise (Bytes b) = Ok (inl vs) /\
    read_jsonl_tail too_big strict RRaise n (Bytes b) = Ok (inl (last_n (Z.to_nat n) vs)).
Proof.
  intros Hn Hb. split; [intros; by apply tail_lines_ok|]. destruct (file_lines_usable b Hb) as [Hnl Hu].
  exists (omap usable (stream b)). split.
  - unfold read_jsonl. cbn [iter_jsonl mbind res_bind]. rewrite parse_clean; [done|].
    eapply Forall_impl; [exact Hb|]. intros l [Hl|Hl]; [right; by apply classify_blank|by left].
  - unfold read_jsonl_tail. rewrite (proj2 (Z.leb_gt _ _)) by done. rewrite tail_lines_ok by (unfold TAIL_CHUNK; lia).
    cbn [or_raise mbind res_bind]. rewrite window_read by (by apply drop_Forall).
    rewrite omap_last_n by done. unfold file_lines. rewrite <- lines_clean, omap_clean. done.
Qed.

(** reading a growing file from where the last read stopped misses nothing and
    repeats nothing.  Read the file from line [start], let it grow by any bytes
    (finishing a torn line or not), and read it again from the position the first
    read returned: together the two reads give, in order and with their line
    numbers, what one read of the grown file from [start] gives. *)
Theorem read_from_resumes start b c :
  (start <= (read_jsonl_from too_big start b).2)%nat ->
  let '(seen, e) := read_jsonl_from too_big start b in
  let '(fresh, e') := read_jsonl_from too_big e (b ++ c) in
  read_jsonl_from too_big start (b ++ c) = (seen ++ fresh, e') /\ (e <= e')%nat.
Proof.
  unfold read_jsonl_from. cbv zeta. simpl. intros Hs. destruct (lines_grow b c) as [more ->].
  set (ls := (cut_lines (strip_bom b)).1) in *. split; [|rewrite length_app; lia].
  f_equal. rewrite !records_app, (records_before (length ls)) by lia. f_equal. apply records_after; lia.
Qed.
End facts.

(** ** Concrete files *)
#[local] Existing Instance ascii_pylib.

(** A parser with no limits. *)
Definition any_size (_ : pystr) : bool := false.

Definition note (c : N) (z : Z) : json := JObj [([c], JInt z)].

Lemma note_storable c z : int_ok z -> str_ok [c] -> storable any_size (note c z).
Proof.
  intros Hz Hc. split; [|done]. cbn [note json_ok map fst fold_right snd]. split_and!; [|done..].
  apply NoDup_singleton.
Qed.

Ltac storable_notes :=
  repeat match goal with
  | |- Forall _ (_ :: _) => constructor; cbn [fst]
  | |- Forall _ [] => constructor
  | |- storable _ _ => apply note_storable; [unfold int_ok; vm_compute; congruence|constructor; [vm_compute; auto|constructor]]
  end.

Definition sample_history : list append_op :=
  [([note 97 1; note 98 2], None); ([note 99 3; note 100 4], Some 12%nat); ([note 101 5], None)].


Definition sample_file : pybytes := dumps_default (note 97 1) ++ [13; 10; 10]%N ++ dumps_default (note 98 2) ++ [10; 32; 10]%N ++ dumps_default (note 99 3).

Lemma tail_reader_agrees_witness :
  exists vs, read_jsonl any_size true RRaise (Bytes sample_file) = Ok (inl vs) /\
    read_jsonl_tail any_size true RRaise 2 (Bytes sample_file) = Ok (inl (last_n 2 vs)).
Proof.
  refine (proj2 (tail_reader_agrees any_size true 2 sample_file _ _)); [done|].
  assert (stream sample_file = map (fun l => l) (stream sample_file)) as ->; [by vm_compute|].
  vm_compute (map _ (stream sample_file)).
  repeat (constructor; [first [left; vm_compute; reflexivity|right; eexists; vm_compute; reflexivity]|]). constructor.
Defined.

Lemma read_from_resumes_witness :
  let '(seen, e) := read_jsonl_from any_size 1 sample_file in
  let '(fresh, e') := read_jsonl_from any_size e (sample_file ++ [10; 10]%N) in
  read_jsonl_from any_size 1 (sample_file ++ [10; 10]%N) = (seen ++ fresh, e') /\ (e <= e')%nat.
Proof. apply (read_from_resumes any_size 1 sample_file). vm_compute. lia. Defined.
