(* ===== verification/Buffer.v ===== *)
(** [brain/ingest/buffer.py]: the files of a chat session.  A session has an
    active buffer (JSON lines), an append-only archive in numbered segments, and
    small sidecars: the extraction cursor, the back-off state, the pointer to the
    session it was rolled over to, the marker of the last archived batch, and the
    lock of the pass that rewrites the buffer.  Each access to a file is one
    operation here; [Compaction] and [Rollover] compose them into passes.

    A JSON lines file is its readable records, its size and whether its last line
    is torn; the theorem says the byte-level appender and reader of [Jsonl]
    implement this view.  A rewrite is atomic, as [StateFileFacts] shows of a
    save. *)
From S2P Require Import Prelude PyFloat PyTime Json Crypto Protocol PyVal JsonCut StateFile Jsonl.

(** ** JSON lines files *)
Record jfile := { f_rows : list json; f_size : Z; f_torn : bool }.

Definition empty_file : jfile := {| f_rows := []; f_size := 0; f_torn := false |}.

Definition no_rows (rs : list json) : bool := match rs with [] => true | _ => false end.

(** [append_jsonl] of encoded records, cut short after [cut] bytes when the write
    fails or the process dies there. *)
Definition file_append (file : option jfile) (rs : list json) (cut : option nat) : option jfile :=
  if no_rows rs then file else
  let f := default empty_file file in
  let data := text_of rs in
  let p := if f_torn f then 1%nat else 0%nat in
  Some match cut with
       | None => {| f_rows := f_rows f ++ rs; f_size := f_size f + Z.of_nat (p + length data); f_torn := false |}
       | Some 0%nat => f
       | Some k => {| f_rows := f_rows f ++ whole_in (k - p) rs;
                      f_size := f_size f + Z.of_nat (Nat.min k (p + length data));
                      f_torn := tail_is_torn (take (k - p) data) |}
       end.

(** [write_jsonl]: the whole file replaced. *)
Definition file_of (rs : list json) : jfile :=
  {| f_rows := rs; f_size := Z.of_nat (length (text_of rs)); f_torn := false |}.

(** ** One session's files *)
(** The lock file: who created it, whether its payload (which names the creator) is
    written yet, its mtime. *)
Record lockfile := { lk_owner : nat; lk_written : bool; lk_mtime : Z }.

Record conv := {
  buffer : option jfile;               (* active_conversations/<sid>.jsonl *)
  cursor : option pystr;               (* <sid>.cursor, its text *)
  backoff : option json;               (* <sid>.backoff *)
  rolled_to : option json;             (* <sid>.rolled_to *)
  compacting : option lockfile;        (* <sid>.compacting *)
  appending : option nat;              (* who holds the append lock across statements *)
  legacy : option jfile;               (* archived_conversations/<sid>.jsonl *)
  segments : list (N * jfile);         (* archived_conversations/<sid>.<NNN>.jsonl, by number *)
  marker : option pystr;               (* archived_conversations/<sid>.archived *)
}.

Definition no_conv : conv :=
  {| buffer := None; cursor := None; backoff := None; rolled_to := None; compacting := None; appending := None;
     legacy := None; segments := []; marker := None |}.

Definition set_buffer x (c : conv) : conv :=
  {| buffer := x; cursor := cursor c; backoff := backoff c; rolled_to := rolled_to c; compacting := compacting c;
     appending := appending c; legacy := legacy c; segments := segments c; marker := marker c |}.
Definition set_cursor x (c : conv) : conv :=
  {| buffer := buffer c; cursor := x; backoff := backoff c; rolled_to := rolled_to c; compacting := compacting c;
     appending := appending c; legacy := legacy c; segments := segments c; marker := marker c |}.
Definition set_backoff x (c : conv) : conv :=
  {| buffer := buffer c; cursor := cursor c; backoff := x; rolled_to := rolled_to c; compacting := compacting c;
     appending := appending c; legacy := legacy c; segments := segments c; marker := marker c |}.
Definition set_rolled_to x (c : conv) : conv :=
  {| buffer := buffer c; cursor := cursor c; backoff := backoff c; rolled_to := x; compacting := compacting c;
     appending := appending c; legacy := legacy c; segments := segments c; marker := marker c |}.
Definition set_compacting x (c : conv) : conv :=
  {| buffer := buffer c; cursor := cursor c; backoff := backoff c; rolled_to := rolled_to c; compacting := x;
     appending := appending c; legacy := legacy c; segments := segments c; marker := marker c |}.
Definition set_appending x (c : conv) : conv :=
  {| buffer := buffer c; cursor := cursor c; backoff := backoff c; rolled_to := rolled_to c; compacting := compacting c;
     appending := x; legacy := legacy c; segments := segments c; marker := marker c |}.
Definition set_archive x y (c : conv) : conv :=
  {| buffer := buffer c; cursor := cursor c; backoff := backoff c; rolled_to := rolled_to c; compacting := compacting c;
     appending := appending c; legacy := x; segments := y; marker := marker c |}.
Definition set_marker x (c : conv) : conv :=
  {| buffer := buffer c; cursor := cursor c; backoff := backoff c; rolled_to := rolled_to c; compacting := compacting c;
     appending := appending c; legacy := legacy c; segments := segments c; marker := x |}.

Definition rows_of (file : option jfile) : list json := match file with Some f => f_rows f | None => [] end.

(** [read_session]: a missing buffer is empty. *)
Definition read_session (c : conv) : list json := rows_of (buffer c).

(** [rewrite_session_atomic]. *)
Definition rewrite_session_atomic (turns : list json) (c : conv) : res conv :=
  _ ← encode_jsonl false turns; mret (set_buffer (Some (file_of turns)) c).

Definition delete_session_buffer : conv -> conv := set_buffer None.
Definition delete_cursor : conv -> conv := set_cursor None.
Definition delete_backoff : conv -> conv := set_backoff None.

(** ** The archive *)
Definition ARCHIVE_SEGMENT_MAX_BYTES : Z := 5 * 1024 * 1024.

(** [read_archive]: the legacy file, then the segments. *)
Definition read_archive (c : conv) : list json := rows_of (legacy c) ++ concat (map (fun s => f_rows s.2) (segments c)).

(** The file an append goes to: the last segment, the legacy file, or a new
    segment when there is none yet or the chosen one would grow too big. *)
Inductive target := ToLegacy | ToLast | ToNew (n : N).

Definition archive_target (c : conv) (size_known : bool) (len : Z) : target :=
  let roll (f : jfile) (n : N) (t : target) :=
    let cur_size := if size_known then f_size f else 0%Z in
    if (0 <? cur_size)%Z && (ARCHIVE_SEGMENT_MAX_BYTES <? cur_size + len)%Z then ToNew n else t in
  match last (segments c), legacy c with
  | Some (n, f), _ => roll f (n + 1)%N ToLast
  | None, Some f => roll f 0%N ToLegacy
  | None, None => ToNew 0
  end.

Definition append_to_target (t : target) (rs : list json) (cut : option nat) (c : conv) : conv :=
  match t with
  | ToLegacy => set_archive (file_append (legacy c) rs cut) (segments c) c
  | ToLast =>
      match last (segments c) with
      | Some (n, f) =>
          set_archive (legacy c) (removelast (segments c) ++ [(n, default empty_file (file_append (Some f) rs cut))]) c
      | None => c
      end
  | ToNew n => set_archive (legacy c) (segments c ++ [(n, default empty_file (file_append None rs cut))]) c
  end.

(** [append_archive]: the session's files after it, or nothing was written.  A write
    that fails or is cut short leaves a prefix of the records. *)
Definition append_archive (size_known : bool) (rs : list json) (cut : option nat) (c : conv) : res conv :=
  if no_rows rs then Ok c else
  data ← encode_jsonl false rs;
  mret (append_to_target (archive_target c size_known (Z.of_nat (length data))) rs cut c).

Section buffer.
Context `{PyLib}.

(** ** Session ids, turns *)
Definition sid_char (c : N) : bool :=
  ((65 <=? c) && (c <=? 90) || (97 <=? c) && (c <=? 122) || (48 <=? c) && (c <=? 57) || (c =? 95) || (c =? 45))%N.

(** [_validate_session_id]. *)
Definition valid_session_id (v : json) : res pystr :=
  match v with
  | JStr s => if (1 <=? length s)%nat && (length s <=? 64)%nat && forallb sid_char s then Ok s else Err ValueError
  | _ => Err ValueError
  end.

Definition py_list (v : json) : res (list json) :=
  match v with
  | JArr l => Ok l
  | JStr s => Ok (map (fun c => JStr [c]) s)
  | JObj kvs => Ok (map (fun kv => JStr kv.1) kvs)
  | _ => Err TypeError
  end.

(** [(v or "").strip()]. *)
Definition stripped (v : json) : res pystr :=
  if jtruthy v then match v with JStr s => Ok (strip s) | _ => Err AttributeError end else Ok [].

(** The record [ingest_turn] appends, and the session it appends it to. *)
Definition ingest_record (turn : json) (fresh_id now_iso : pystr) : res (pystr * json) :=
  let or_ k d := let v := jget_none (u k) turn in if jtruthy v then v else d in
  let session_id := or_ "session_id" (JStr fresh_id) in
  text ← stripped (jget_none (u "text") turn);
  shas ← (let v := jget_none (u "image_shas") turn in
          if jtruthy v then l ← py_list v; Ok [(u "image_shas", JArr l)] else Ok []);
  sid ← valid_session_id session_id;
  mret (sid, JObj ([(u "session_id", session_id); (u "speaker", default (JStr (u "unknown")) (jget (u "speaker") turn));
                    (u "text", JStr text); (u "ts", or_ "ts" (JStr now_iso))] ++ shas)).

(** ** Time stamps of rows *)

(** [s.replace("Z", "+00:00")]. *)
Definition replace_z (s : pystr) : pystr := flat_map (fun c => if (c =? 90)%N then u "+00:00" else [c]) s.

(** A naive datetime counts as UTC. *)
Definition aware (d : pydt) : pydt := {| wall := wall d; offset := Some (default 0%Z (offset d)) |}.
Definition utc (t : Z) : pydt := {| wall := t; offset := Some 0%Z |}.

(** The instant of an aware datetime, which is what comparisons and differences use. *)
Definition at_utc (d : pydt) : Z := (wall d - default 0 (offset d))%Z.

Definition flexible_iso (s : pystr) : option pydt :=
  match fromisoformat (replace_z s) with Ok d => Some (aware d) | Err _ => None end.

Definition session_silence_minutes (turns : list json) (now_ : Z) : float :=
  match last turns with
  | None => f0
  | Some t => match jget (u "ts") t with
              | None => f0
              | Some raw => match flexible_iso (py_str raw) with
                            | Some d => fdiv (total_seconds (now_ - at_utc d)) (fofZ 60)
                            | None => f0
                            end
              end
  end.

Definition read_session_after (turns : list json) (after_ts : option pystr) : list json :=
  match (match after_ts with None => None | Some s => flexible_iso s end) with
  | None => turns
  | Some cutoff =>
      List.filter (fun t => let raw := jget_none (u "ts") t in
                       jtruthy raw && match flexible_iso (py_str raw) with
                                      | Some d => (at_utc cutoff <? at_utc d)%Z
                                      | None => false
                                      end) turns
  end.

(** ** Sidecars *)
Definition read_cursor (c : conv) : option pystr :=
  text ← cursor c;
  let text := strip text in
  if bool_decide (text = []) then None else
  match flexible_iso text with Some _ => Some text | None => None end.

Definition write_cursor (ts : pystr) (c : conv) : res conv :=
  _ ← fromisoformat (replace_z ts); mret (set_cursor (Some ts) c).

Definition read_rolled_to (c : conv) : option pystr :=
  v ← rolled_to c;
  match jget_none (u "successor") v with JStr ((_ :: _) as s) => Some s | _ => None end.

Definition write_rolled_to (successor at_ : pystr) (c : conv) : res conv :=
  _ ← valid_session_id (JStr successor);
  mret (set_rolled_to (Some (JObj [(u "successor", JStr successor); (u "at", JStr at_)])) c).

Definition read_backoff (c : conv) : option json :=
  data ← backoff c;
  if negb (is_obj data) then None else
  _ ← jget (u "failures") data;
  first ← jget (u "first_failure_at") data;
  _ ← flexible_iso (py_str first);
  Some data.

Definition write_backoff (failures : json) (first_failure_at : pystr) (failing_end_ts : json) (c : conv) : res conv :=
  _ ← fromisoformat (replace_z first_failure_at);
  mret (set_backoff (Some (JObj ([(u "failures", failures); (u "first_failure_at", JStr first_failure_at)]
    ++ match failing_end_ts with JNull => [] | v => [(u "failing_end_ts", v)] end))) c).

(** ** One archived batch *)

(** [repr(s)] of a string. *)
Definition hex_fixed (n : nat) (c : N) : pystr :=
  map (fun i => hex_digit (N.shiftr c (4 * N.of_nat i) mod 16)) (rev (seq 0 n)).

Definition printable_char (c : N) : bool := if (c <? 128)%N then ((32 <=? c) && (c <? 127))%N else printable_hi c.

Definition repr_char (q c : N) : pystr :=
  if (c =? q)%N || (c =? 92)%N then [92%N; c]
  else if (c =? 9)%N then u "\t" else if (c =? 10)%N then u "\n" else if (c =? 13)%N then u "\r"
  else if printable_char c then [c]
  else if (c <? 256)%N then u "\x" ++ hex_fixed 2 c
  else if (c <? 65536)%N then u "\u" ++ hex_fixed 4 c
  else u "\U" ++ hex_fixed 8 c.

Definition repr_str (s : pystr) : pystr :=
  let q := if existsb (N.eqb 39) s && negb (existsb (N.eqb 34) s) then 34%N else 39%N in
  [q] ++ flat_map (repr_char q) s ++ [q].

Definition py_repr (v : json) : pystr := match v with JStr s => repr_str s | _ => py_str v end.

(** [turn_identity]. *)
Definition identity : Type := json * json * json.
Definition turn_identity (t : json) : identity :=
  (jget_none (u "ts") t, jget_none (u "speaker") t, jget_none (u "text") t).

Definition repr_identity (i : identity) : pystr :=
  u "(" ++ py_repr i.1.1 ++ u ", " ++ py_repr i.1.2 ++ u ", " ++ py_repr i.2 ++ u ")".

(** [_archive_batch_key]. *)
Definition archive_batch_key (records : list json) (new_gen : Z) : res pystr :=
  b ← encode (dec_Z new_gen ++ flat_map (fun r => repr_identity (turn_identity r)) records);
  mret (to_hex (sha256 b)).

Definition read_archive_marker (c : conv) : option pystr :=
  text ← marker c;
  let text := strip text in
  if bool_decide (text = []) then None else Some text.

Definition write_archive_marker (key : pystr) : conv -> conv := set_marker (Some key).

(** [a == b] of decoded values. *)
Fixpoint py_eq (a b : json) : bool :=
  match a, b with
  | JArr l, JArr m =>
      (fix go (l m : list json) : bool :=
         match l, m with [], [] => true | x :: l, y :: m => py_eq x y && go l m | _, _ => false end) l m
  | JObj kvs, JObj kws =>
      (length kvs =? length kws)%nat &&
      forallb (fun kv => match dict_get kv.1 kws with Some w => py_eq kv.2 w | None => false end) kvs
  | _, _ => key_eq a b
  end.

Definition same_identity (a b : identity) : bool := py_eq a.1.1 b.1.1 && py_eq a.1.2 b.1.2 && py_eq a.2 b.2.

(** [archived_ids.remove(tid)]: drop the first equal one. *)
Fixpoint remove_identity (i : identity) (l : list identity) : list identity :=
  match l with [] => [] | j :: l => if same_identity i j then l else j :: remove_identity i l end.

(** The rows whose identity was not archived, each archived identity used once. *)
Fixpoint subtract (archived : list identity) (rows : list json) : list json :=
  match rows with
  | [] => []
  | t :: rows =>
      let tid := turn_identity t in
      if existsb (same_identity tid) archived then subtract (remove_identity tid archived) rows
      else t :: subtract archived rows
  end.

(** ** The compaction lock *)

(** [acquire_compaction_lock] on a lock that is held: the payload is empty (or gone,
    or torn) or its holder is judged dead. *)
Definition reap_now (payload : option lockfile) (holder_alive : bool) : bool :=
  match payload with
  | Some l => if lk_written l then negb holder_alive else true
  | None => true
  end.

(** Else the lock is reaped for its age. *)
Definition reap_for_age (lock : option lockfile) (now_ stale : Z) : bool :=
  match lock with Some l => (stale <? now_ - lk_mtime l)%Z | None => false end.

Definition release_compaction_lock : conv -> conv := set_compacting None.
End buffer.

(** ** The view of a file is what its bytes hold *)
Section bytes.
Context `{PyLib}.
Variable too_big : pystr -> bool.

Record holds (b : pybytes) (f : jfile) : Prop := {
  h_rows : file_holds too_big (Some b) (f_rows f);
  h_size : f_size f = Z.of_nat (length b);
  h_torn : f_torn f = tail_is_torn b;
}.

Lemma torn_snoc_newline b : tail_is_torn (b ++ [10%N]) = false.
Proof. unfold tail_is_torn, ends_line. rewrite last_snoc. by rewrite (bool_decide_eq_true_2 (Some 10%N = Some 10%N)), andb_false_r. Qed.

Lemma torn_app b x : x <> [] -> tail_is_torn (b ++ x) = tail_is_torn x.
Proof.
  intros Hx. destruct (exists_last Hx) as (y & c & ->). unfold tail_is_torn, ends_line.
  rewrite (assoc_L (++)), !last_snoc. rewrite (bool_decide_eq_false_2 (y ++ [c] = [])) by (by destruct y).
  rewrite bool_decide_eq_false_2; [done|]. by destruct b, y.
Qed.

Lemma text_nonempty v rs : text_of (v :: rs) <> [].
Proof. unfold text_of. simpl. by destruct (dumps_default v). Qed.

Lemma torn_text rs : tail_is_torn (text_of rs) = false.
Proof.
  destruct rs as [|v rs]; [done|]. destruct (exists_last (l := v :: rs)) as (xs & w & Hxs); [done|]. rewrite Hxs.
  unfold text_of. rewrite map_app, concat_app. simpl. rewrite app_nil_r, (assoc_L (++)). apply torn_snoc_newline.
Qed.

Definition torn_gap (b : pybytes) : pybytes := if tail_is_torn b then [10%N] else [].

Lemma take_gap b k x : (0 < k)%nat -> take k (torn_gap b ++ x) = torn_gap b ++ take (k - length (torn_gap b)) x.
Proof. intros Hk. unfold torn_gap. destruct (tail_is_torn b); simpl; [destruct k; [lia|]; simpl; by rewrite Nat.sub_0_r|by rewrite Nat.sub_0_r]. Qed.

(** Part of the records' text after the file's last line. *)
Lemma holds_part b f rs m : Forall (storable too_big) rs -> holds b f ->
  file_holds too_big (Some (b ++ torn_gap b ++ take m (text_of rs))) (f_rows f ++ whole_in m rs).
Proof.
  intros Hrs [[Hst Hsz Hrec] _ _]. cbn [from_option id] in *. destruct (lines_cut too_big rs m Hrs) as [Hl Hs].
  unfold torn_gap. split; cbn [from_option id].
  - destruct b as [|c b]; [cbn; by apply (head_text too_big)|done].
  - rewrite lines_append. by apply Forall_app.
  - by rewrite lines_append, omap_app, Hl, Hrec.
Qed.

Lemma append_keeps_view b f rs cut f' : Forall (storable too_big) rs -> holds b f ->
  file_append (Some f) rs cut = Some f' ->
  exists b' n, append_jsonl false (inr rs) cut (Some b) = Ok (Some b', n) /\ holds b' f'.
Proof.
  intros Hrs Hf Hap. unfold append_jsonl, payload. rewrite (encode_storable too_big) by done. cbn [mbind res_bind mret res_ret].
  destruct rs as [|v rs].
  { injection Hap as <-. by exists b, 0%Z. }
  set (vs := v :: rs) in *. rewrite bool_decide_eq_false_2.
  2: { unfold text_of, vs. simpl. by destruct (dumps_default v). }
  eexists _, _. split; [reflexivity|]. unfold append_bytes. cbn [from_option id]. fold (torn_gap b).
  unfold file_append in Hap. cbn [no_rows vs from_option] in Hap. fold vs in Hap. injection Hap as <-.
  pose proof Hf as [_ Hsize Htorn]. cbn [id]. rewrite Htorn.
  replace (if tail_is_torn b then 1%nat else 0%nat) with (length (torn_gap b)) by (unfold torn_gap; by destruct (tail_is_torn b)).
  destruct cut as [[|k]|].
  - rewrite take_0, app_nil_r. done.
  - rewrite take_gap by lia. split; cbn [f_rows f_size f_torn].
    + by apply holds_part.
    + rewrite Hsize, !length_app, length_take. assert (length (torn_gap b) <= 1)%nat by (unfold torn_gap; case_match; simpl; lia). lia.
    + generalize (take (S k - length (torn_gap b)) (text_of vs)) as x. intros x. destruct (decide (x = [])) as [->|Hx]; [|by rewrite !torn_app by (by destruct (torn_gap b))].
      rewrite app_nil_r. unfold torn_gap. destruct (tail_is_torn b) eqn:E; [by rewrite torn_snoc_newline|by rewrite app_nil_r, E].
  - pose proof (holds_part b f vs (length (text_of vs)) Hrs Hf) as Hall.
    rewrite firstn_all, whole_in_all in Hall by done. split; cbn [f_rows f_size f_torn]; [done| |].
    + rewrite Hsize, !length_app. lia.
    + rewrite torn_app, torn_app; [by rewrite torn_text|by apply text_nonempty|].
      intros [_ Hn]%app_eq_nil. by apply text_nonempty in Hn.
Qed.

Lemma file_of_view rs : Forall (storable too_big) rs -> holds (text_of rs) (file_of rs).
Proof.
  intros Hrs. split; cbn [f_rows f_size f_torn file_of].
  - destruct (lines_cut too_big rs (length (text_of rs)) Hrs) as [Hl Hs]. rewrite firstn_all, whole_in_all in * by done.
    split; cbn [from_option id]; [|done|done]. rewrite <- (firstn_all (text_of rs)). by apply (head_text too_big).
  - done.
  - by rewrite torn_text.
Qed.

Lemma view_reads b f : holds b f -> read_jsonl too_big false RRaise (Bytes b) = Ok (inl (f_rows f)).
Proof.
  intros [[Hst Hsz Hrec] _ _]. cbn [from_option id] in *. unfold read_jsonl. cbn [iter_jsonl mbind res_bind].
  rewrite stream_lines, strip_bom_id, (parse_plain too_big) by done. by rewrite <- Hrec.
Qed.

(** What the operations of a session do to one of its files. *)
Inductive file_op := Append (rs : list json) (cut : option nat) | Rewrite (rs : list json) | Delete.

Definition op_rows (o : file_op) : list json := match o with Append rs _ | Rewrite rs => rs | Delete => [] end.

Definition view_step (file : option jfile) (o : file_op) : option jfile :=
  match o with Append rs cut => file_append file rs cut | Rewrite rs => Some (file_of rs) | Delete => None end.

Definition bytes_step (o : file_op) (file : option pybytes) : res (option pybytes) :=
  match o with
  | Append rs cut => r ← append_jsonl false (inr rs) cut file; mret r.1
  | Rewrite rs => b ← encode_jsonl false rs; mret (Some b)
  | Delete => mret None
  end.

Fixpoint bytes_run (ops : list file_op) (file : option pybytes) : res (option pybytes) :=
  match ops with [] => Ok file | o :: ops => file ← bytes_step o file; bytes_run ops file end.

Definition viewed (b : option pybytes) (f : option jfile) : Prop :=
  match b, f with Some b, Some f => holds b f | None, None => True | _, _ => False end.

Lemma append_absent v rs cut : Forall (storable too_big) (v :: rs) ->
  append_jsonl false (inr (v :: rs)) cut None = append_jsonl false (inr (v :: rs)) cut (Some []).
Proof.
  intros Hrs. unfold append_jsonl, payload. rewrite (encode_storable too_big) by done. cbn [mbind res_bind].
  by rewrite bool_decide_eq_false_2 by apply text_nonempty.
Qed.

Lemma viewed_step o b f : Forall (storable too_big) (op_rows o) -> viewed b f ->
  exists b', bytes_step o b = Ok b' /\ viewed b' (view_step f o).
Proof.
  intros Ho Hv. destruct o as [rs cut|rs|]; cbn [bytes_step view_step op_rows] in *.
  - destruct rs as [|v rs].
    { exists b. by destruct b, f. }
    assert (exists b0 f0, holds b0 f0 /\ append_jsonl false (inr (v :: rs)) cut b = append_jsonl false (inr (v :: rs)) cut (Some b0) /\
      file_append f (v :: rs) cut = file_append (Some f0) (v :: rs) cut) as (b0 & f0 & Hb0 & -> & ->).
    { destruct b as [b|], f as [f|]; try done; [by exists b, f|]. exists [], empty_file. split_and!; [|by apply append_absent|done].
      split; [|done..]. by split; [|constructor|]. }
    destruct (file_append (Some f0) (v :: rs) cut) as [f'|] eqn:E; [|done].
    destruct (append_keeps_view _ _ _ _ _ Ho Hb0 E) as (b' & n & -> & Hb'). by exists (Some b').
  - rewrite (encode_storable too_big) by done. eexists. split; [reflexivity|]. by apply file_of_view.
  - by exists None.
Qed.

End bytes.

#[local] Existing Instance ascii_pylib.

