(* ===== verification/Compaction.v ===== *)
(** [brain/chat/compaction.py]: how old turns of a chat are folded into the
    summary row at the head of the session's buffer.  The three passes
    (compaction, the age-gated cascade, the emergency fold) are functions from
    what they read (the buffer's rows, the extraction cursor, the time, the
    model's answers) to a plan: the rows to archive and the new summary row.
    [Rollover] runs the plans as steps of concurrent passes.  Theorems: no pass
    removes a turn that was not extracted or is among the protected last ones;
    a second compaction finds nothing left; the sections stay within their size
    caps and no section past the eviction age stays in the head. *)
From S2P Require Import Prelude PyFloat PyTime Regex Json Crypto Protocol PyRegex PyVal JsonCut StateFile Jsonl Buffer.
From Stdlib Require Import Floats.SpecFloat.

(** ** Constants *)
Definition TARGET_FRACTION : float := fdec 25 (-2).
Definition MIN_TARGET_WORDS : Z := 40.
Definition AGE_24H : Z := 24 * hour.
Definition AGE_48H : Z := 48 * hour.
Definition AGE_72H : Z := 72 * hour.
Definition AGE_EVICT : Z := AGE_72H + AGE_24H.
Definition FRACTION_24H : float := fdec 60 (-2).
Definition FRACTION_48H : float := fdec 40 (-2).
Definition FRACTION_72H : float := fdec 20 (-2).
Definition SECTION_24H_CHAR_CAP : Z := 12000.
Definition SECTION_72H_CHAR_CAP : Z := 2400.
Definition LEGACY_AGE_FLOOR : Z := AGE_72H + 12 * hour.
Definition NONTRIVIAL_WORDS : nat := 8.

Definition k24 : pystr := u "24h".
Definition k48 : pystr := u "48h".
Definition k72 : pystr := u "72h".
Definition SECTION_ORDER : list pystr := [k24; k48; k72].
Definition SECTION_LABELS : list (pystr * pystr) :=
  [(k24, u "yesterday"); (k48, u "day before yesterday"); (k72, u "a few days ago")].

(** A datetime out of range raises. *)
Definition dt_sub (t d : Z) : res Z := if ((0 <=? t - d) && (t - d <? dt_max))%Z then Ok (t - d)%Z else Err OverflowError.

Section text.
Context `{PyLib}.

(** ** Checking the model's text *)
Definition w (s : string) : regex := LitI (u s).
(** A word with an optional apostrophe. *)
Definition wa (a b : string) : regex := seqs [w a; Opt (Lit [39%N]); w b].
Definition starts (l : list regex) : regex := seqs [Bos; Star space; Alts l].
Definition bounded (l : list regex) : regex := Seq (phrase l) WordB.

Definition REFUSAL_LEAD : regex :=
  starts [bounded [w "i"; wa "won" "t"]; bounded [w "i"; w "will"; w "not"]; bounded [w "i"; w "cannot"];
          bounded [w "i"; wa "can" "t"]; bounded [wa "i" "m"; w "sorry"]; bounded [w "i"; w "am"; w "sorry"];
          Seq (w "sorry") (cls [ch 44; ch 46]); bounded [w "i"; w "refuse"]; bounded [wa "i" "m"; w "unable"];
          bounded [w "i"; w "am"; w "unable"]; bounded [w "as"; w "an"; w "ai"]; bounded [wa "i" "m"; w "not"; w "able"]].

Definition META_FRAME : regex :=
  starts [bounded [w "here"; w "is"]; bounded [wa "here" "s"]; bounded [w "below"; w "is"];
          bounded [w "the"; w "following"; w "is"]; seqs [w "summary"; Star space; Lit [58%N]];
          seqs [phrase [w "updated"; w "memory"]; Star space; Lit [58%N]]; bounded [w "as"; w "an"; w "ai"]].

Definition FIRST_PERSON : regex :=
  seqs [WordB; Alts [w "i"; wa "i" "m"; wa "i" "ve"; wa "i" "ll"; wa "i" "d"; w "me"; w "my"; w "mine"; w "myself";
                     w "we"; w "our"; w "ours"; w "us"]; WordB].

Definition word_sp (s : string) : regex := Seq (w s) (Plus space).

(** "i don't have any new": what the content-absence patterns share. *)
Definition absence_lead : regex :=
  seqs [Bos; Star space; word_sp "i"; Alt (wa "don" "t") (phrase [w "do"; w "not"]); Plus space;
        Alt (w "have") (w "see"); Plus space; Opt (Alts [word_sp "any"; word_sp "the"; word_sp "no"]);
        Star (Alts [word_sp "new"; word_sp "existing"; word_sp "actual"])].

Definition of_word : regex := seqs [Plus space; w "of"; WordB].

Definition ABSENCE_REST : regex :=
  starts [seqs [phrase [w "i"; w "notice"]; Plus space; Opt (word_sp "that"); w "you"; Opt (Lit [39%N]);
                Alt (w "ve") (Seq (Plus space) (w "have")); Plus space; w "provided"; WordB];
          seqs [word_sp "there"; Alt (w "are") (w "is"); Plus space; word_sp "no"; Opt (Alt (word_sp "new") (word_sp "existing"));
                Alts [Seq (w "message") (Opt (w "s")); w "memory"; w "content"]; WordB];
          seqs [Opt (word_sp "the"); Alts [w "input"; w "prompt"; w "transcript"]; Plus space;
                Alt (phrase [w "is"; w "empty"]) (seqs [w "contain"; Opt (w "s"); Plus space; w "no"; WordB])]].

(** [_CONTENT_ABSENCE.match]. *)
Definition content_absence (s : pystr) : bool :=
  match_unless (seqs [absence_lead; w "message"; Opt (w "s"); WordB]) of_word s
  || match_unless (seqs [absence_lead; Alt (w "content") (Seq (w "memory") (Opt (Seq (Plus space) (w "content")))); WordB]) of_word s
  || match_at_start ABSENCE_REST s.

Definition tasks : regex := Alts [w "produce"; w "write"; w "proceed"].

Definition REFUSAL_VERB : regex :=
  Alts [seqs [WordB; Alt (wa "i" "m") (phrase [w "i"; w "am"]); Plus space; phrase [w "not"; w "going"; w "to"; tasks]; WordB];
        seqs [WordB; phrase [w "i"; wa "won" "t"; tasks]; WordB];
        seqs [WordB; phrase [w "i"; w "will"; w "not"; tasks]; WordB];
        seqs [WordB; phrase [w "i"; w "refuse"; w "to"; tasks]; WordB]].

(** [len(s.split())]. *)
Fixpoint words_from (inside : bool) (s : pystr) : nat :=
  match s with
  | [] => 0
  | c :: s => if is_space c then words_from false s else (if inside then 0 else 1) + words_from true s
  end.
Definition count_words (s : pystr) : nat := words_from false s.

(** [_validate_fold_output] of a text. *)
Definition validate_fold_output (text : pystr) : option pystr :=
  let s := strip text in
  if bool_decide (s = []) then None
  else if match_at_start META_FRAME s then None
  else if match_at_start REFUSAL_LEAD s then None
  else if content_absence s then None
  else if search is_word REFUSAL_VERB s then None
  else if (NONTRIVIAL_WORDS <=? count_words s)%nat && negb (search is_word FIRST_PERSON s) then None
  else Some s.

(** What the provider does with a prompt. *)
Inductive answer := Says (text : pystr) | Defers | Breaks.
Definition provider : Type := pystr -> nat -> answer.   (* the prompt, and how many calls came before *)

(** [_generate_validated_fold]: a text, a rejection, a refused slot or an error; and the calls made. *)
Inductive fold_out := Valid (text : pystr) | Rejected | Deferred | Broke.

Definition generate_validated_fold (model : provider) (prompt : pystr) (n : nat) : fold_out * nat :=
  match model prompt n with
  | Defers => (Deferred, S n)
  | Breaks => (Broke, S n)
  | Says s =>
      match validate_fold_output s with
      | Some t => (Valid t, S n)
      | None => match model prompt (S n) with
                | Defers => (Deferred, S (S n))
                | Breaks => (Broke, S (S n))
                | Says s => (match validate_fold_output s with Some t => Valid t | None => Rejected end, S (S n))
                end
      end
  end.

(** ** Small helpers of the passes *)

(** [_parse_ts]. *)
Definition parse_ts (raw : json) : option pydt := if jtruthy raw then flexible_iso (py_str raw) else None.
Definition ts_of (t : json) : option pydt := parse_ts (jget_none (u "ts") t).

(** [window.rfind(c + d)]: the last position of the two characters. *)
Fixpoint rfind2 (c d : N) (s : pystr) (i : Z) (best : Z) : Z :=
  match s with
  | x :: (y :: _) as s' => rfind2 c d s' (i + 1) (if (x =? c)%N && (y =? d)%N then i else best)
  | _ => best
  end.
Fixpoint rfind1 (c : N) (s : pystr) (i : Z) (best : Z) : Z :=
  match s with x :: s => rfind1 c s (i + 1) (if (x =? c)%N then i else best) | [] => best end.

Definition rstrip (s : pystr) : pystr := rstrip_by is_space s.
Definition len (s : pystr) : Z := Z.of_nat (length s).
Definition first_chars (n : Z) (s : pystr) : pystr := take (Z.to_nat n) s.

(** [_truncate_sentence], for a cap that is not negative. *)
Definition truncate_sentence (text : pystr) (cap : Z) : pystr :=
  if (len text <=? cap)%Z then text else
  let window := first_chars cap text in
  let best := fold_left Z.max (map (fun p => rfind2 p.1 p.2 window 0 (-1))
                [(46, 32); (33, 32); (63, 32); (46, 10); (33, 10); (63, 10)]%N) (-1)%Z in
  if (cap / 2 <=? best)%Z then rstrip (first_chars (best + 1) window) else
  let space_ := rfind1 32 window 0 (-1) in
  if (cap / 2 <=? space_)%Z then rstrip (first_chars space_ window) else rstrip window.

(** [_word_count] of a stored value. *)
Definition word_count (v : json) : res Z :=
  if jtruthy v then match v with JStr s => Ok (Z.of_nat (count_words s)) | _ => Err AttributeError end else Ok 0%Z.

Definition get_str (k : string) (d : json) (t : json) : json := default d (jget (u k) t).
Definition speaker_is (s : string) (t : json) : bool := jis_str (u s) (jget_none (u "speaker") t).

Fixpoint sum_words (rows : list json) : res Z :=
  match rows with
  | [] => Ok 0%Z
  | r :: rows => n ← word_count (get_str "text" (JStr []) r); m ← sum_words rows; mret (n + m)%Z
  end.

(** [_render_transcript]. *)
Definition transcript_line (name : pystr) (r : json) : option pystr :=
  let sp := get_str "speaker" (JStr (u "?")) r in
  if jis_str (u "image") sp then None else
  Some ((if jis_str (u "assistant") sp then name else py_str sp) ++ u ": " ++ py_str (get_str "text" (JStr []) r)).
Definition render_transcript (rows : list json) (name : pystr) : pystr :=
  py_join [10%N] (omap (transcript_line name) rows).

(** [_split_buffer]. *)
Definition is_summary (t : json) : bool := speaker_is "summary" t.
Definition split_buffer (turns : list json) : option json * list json :=
  (head (List.filter is_summary turns), List.filter (fun t => negb (is_summary t)) turns).

(** [summary_gen]. *)
Definition summary_gen (row : option json) : res Z :=
  match row with
  | None => Ok 0%Z
  | Some row =>
      match default (JObj []) (jget (u "compaction") row) with
      | JObj kvs => match py_int (default (JInt 0) (dict_get (u "gen") kvs)) with
                    | Err e => if bool_decide (e = TypeError) || is_ValueError e then Ok 0%Z else Err e
                    | r => r
                    end
      | _ => Ok 0%Z
      end
  end.

(** ** Times as text *)

(** The UTC offset of [isoformat]. *)
Definition offset_text (o : Z) : pystr :=
  let a := Z.abs o in
  let s := (a / sec mod 60)%Z in let us := (a mod sec)%Z in
  (if (o <? 0)%Z then u "-" else u "+") ++ pad2 (a / hour) ++ u ":" ++ pad2 (a / minute mod 60)
    ++ (if ((s =? 0) && (us =? 0))%Z then [] else u ":" ++ pad2 s ++ (if (us =? 0)%Z then [] else u "." ++ pad6 us)).

(** [dt.isoformat(timespec="seconds")] and [dt.isoformat()] of an aware datetime. *)
Definition iso_dt (fraction : bool) (d : pydt) : pystr :=
  let '(y, m, dd, (h, mi, s, us)) := dt_fields (wall d) in
  pad4 y ++ u "-" ++ pad2 m ++ u "-" ++ pad2 dd ++ u "T" ++ pad2 h ++ u ":" ++ pad2 mi ++ u ":" ++ pad2 s
    ++ (if negb fraction || (us =? 0)%Z then [] else u "." ++ pad6 us) ++ offset_text (default 0%Z (offset d)).
Definition iso_seconds : pydt -> pystr := iso_dt false.

(** [_part_of_day], [_coarse_stamp], [_coarse_span]; the machine's time zone is [local_wall]. *)
Definition part_of_day (hour_ : Z) : pystr :=
  if (hour_ <? 6)%Z then u "night" else if (hour_ <? 12)%Z then u "morning"
  else if (hour_ <? 18)%Z then u "afternoon" else u "evening".

Definition MONTHS : list pystr :=
  map u ["Jan"; "Feb"; "Mar"; "Apr"; "May"; "Jun"; "Jul"; "Aug"; "Sep"; "Oct"; "Nov"; "Dec"].
End text.

Section passes.
Context `{PyLib}.
Variable local_wall : Z -> res Z.                       (* astimezone(): the local wall clock at an instant *)
Variables summary_prompt fold_prompt condense_prompt :  (* prompt_strings.toml: name, prior, transcript, words, percent *)
  pystr -> pystr -> pystr -> Z -> Z -> pystr.

Definition to_local (d : pydt) : res Z := if (default 0 (offset d) =? 0)%Z then local_wall (at_utc d) else Ok (wall d).

Definition coarse_stamp (raw : json) : res (option pystr) :=
  match parse_ts raw with
  | None => Ok None
  | Some d =>
      t ← to_local d;
      let '(_, m, dd, (h, _, _, _)) := dt_fields t in
      mret (Some (nth (Z.to_nat (m - 1)) MONTHS [] ++ u " " ++ pad2 dd ++ u " " ++ part_of_day h))
  end.

Definition coarse_span (covers_from covers_until : json) : res pystr :=
  a ← coarse_stamp covers_from; b ← coarse_stamp covers_until;
  mret match a, b with
       | Some a, Some b => if bool_decide (a = b) then a else a ++ [32; 8211; 32]%N ++ b
       | Some a, None => a
       | None, Some b => b
       | None, None => []
       end.

(** Sections: keys to dicts, in the order of the Python dict. *)
Definition sections : Type := list (pystr * json).

Fixpoint render_each (keys : list pystr) (secs : sections) : res (list pystr) :=
  match keys with
  | [] => Ok []
  | key :: keys =>
      part ← match dict_get key secs with
             | None => Ok []
             | Some sec_ =>
                 if negb (jtruthy sec_) then Ok [] else
                 text ← stripped (jget_none (u "text") sec_);
                 if bool_decide (text = []) then Ok [] else
                 span ← coarse_span (jget_none (u "covers_from_ts") sec_) (jget_none (u "covers_until_ts") sec_);
                 let label := default [] (snd <$> List.find (fun kv => bool_decide (kv.1 = key)) SECTION_LABELS) in
                 let header := [91%N] ++ label ++ (if bool_decide (span = []) then [] else [32; 8212; 32]%N ++ span) ++ [93%N] in
                 Ok [header ++ u " " ++ text]
             end;
      rest ← render_each keys secs;
      mret (part ++ rest)
  end.

(** [_render_sections]: oldest first. *)
Definition render_sections (secs : sections) : res pystr :=
  parts ← render_each (rev SECTION_ORDER) secs; mret (py_join [10; 10]%N parts).

Fixpoint pick_sections (keys : list pystr) (secs : list (pystr * json)) : res sections :=
  match keys with
  | [] => Ok []
  | key :: keys =>
      part ← (let sec_ := default JNull (dict_get key secs) in
              if negb (jtruthy sec_) then Ok [] else
              match sec_ with
              | JObj kvs => text ← stripped (jget_none (u "text") sec_);
                            if bool_decide (text = []) then Ok [] else Ok [(key, JObj kvs)]
              | _ => Err AttributeError
              end);
      rest ← pick_sections keys secs;
      mret (part ++ rest)
  end.

Definition section_of (text covers_from covers_until : json) : json :=
  JObj [(u "text", text); (u "covers_from_ts", covers_from); (u "covers_until_ts", covers_until)].

(** [_read_sections]. *)
Definition read_sections (row : option json) (now_ : Z) : res sections :=
  match row with
  | None => Ok []
  | Some row =>
      let comp := jget_none (u "compaction") row in
      comp ← (if jtruthy comp then match comp with JObj kvs => Ok kvs | _ => Err AttributeError end else Ok []);
      out ← match dict_get (u "sections") comp with Some (JObj secs) => pick_sections SECTION_ORDER secs | _ => Ok [] end;
      match out with
      | _ :: _ => Ok out
      | [] =>
          text ← stripped (jget_none (u "text") row);
          if bool_decide (text = []) then Ok [] else
          floor ← dt_sub now_ LEGACY_AGE_FLOOR;
          let cu := default JNull (dict_get (u "covers_until_ts") comp) in
          let ts := jget_none (u "ts") row in
          mret [(k72, section_of (JStr text) (JStr (iso_seconds (utc floor)))
                  (if jtruthy cu then cu else if jtruthy ts then ts else JStr (iso_seconds (utc now_))))]
      end
  end.

(** ** A pass and its plan *)
Inductive no_op := CursorNone (gen : Z) | NothingAged (gen : Z).

Record tier_record := { tr_tier : pystr; tr_inputs : list pystr; tr_raw : nat; tr_soft : bool; tr_validated : bool }.

Record plan := {
  pl_row : json;                  (* the new summary row *)
  pl_removable : list json;       (* raw turns that leave the buffer *)
  pl_records : list json;         (* what is archived: them, and a superseded summary *)
  pl_gen : Z; pl_soft : bool; pl_tiers : list tier_record; pl_evicted : list pystr }.

(** The raw turns before the protected last [keep]. *)
Definition unprotected (keep : Z) (raw : list json) : list json := take (Z.to_nat (Z.max 0 (Z.of_nat (length raw) - keep))) raw.

Definition at_most (cutoff : Z) (t : json) : bool :=
  match ts_of t with Some d => (at_utc d <=? cutoff)%Z | None => false end.

(** [removable[:n]]. *)
Definition slice_to (n : Z) {A} (l : list A) : list A :=
  if (n <? 0)%Z then take (Z.to_nat (Z.of_nat (length l) + n)) l else take (Z.to_nat n) l.

Definition target_words (source : Z) (fraction : float) : Z :=
  Z.max MIN_TARGET_WORDS (match int_of_float (fmul (fofZ source) fraction) with Ok n => n | Err _ => 0%Z end).

(** [round(fraction * 100)]. *)
Definition target_pct (fraction : float) : Z :=
  match fmul fraction (fofZ 100) with
  | S754_finite s m e => let '(a, b) := float_ratio m e in (if s then -1 else 1) * round_half_even a b
  | _ => 0
  end%Z.

(** [f"{prior}\n\n{new}"]. *)
Definition appended (prior new : pystr) : pystr := prior ++ [10; 10]%N ++ new.

(** [str(n)] of the number of turns. *)
Definition truncation_note (n : nat) : pystr := u "[truncated " ++ dec_Z (Z.of_nat n) ++ u " earlier messages]".

(** [compact_conversation], between reading the cursor and the archive write. *)
Definition compact_plan (model : provider) (name sid : pystr) (older_than : Z) (fold_existing : bool) (keep : Z)
    (max_turns : option Z) (now_ : Z) (turns : list json) (cursor_ : option pystr) : res (no_op + plan) :=
  let '(existing, raw) := split_buffer turns in
  match cursor_ with
  | None => gen ← summary_gen existing; mret (inl (CursorNone gen))
  | Some cursor_ =>
      before ← dt_sub now_ older_than;
      let cutoff := match parse_ts (JStr cursor_) with
                    | Some d => if (at_utc d <? before)%Z then d else utc before
                    | None => utc before
                    end in
      let removable := List.filter (at_most (at_utc cutoff)) (unprotected keep raw) in
      if no_rows removable then gen ← summary_gen existing; mret (inl (NothingAged gen)) else
      let removable := match max_turns with
                       | Some n => if (n <? Z.of_nat (length removable))%Z then slice_to n removable else removable
                       | None => removable
                       end in
      removable_words ← sum_words (List.filter (fun r => negb (speaker_is "image" r)) removable);
      let prior := match existing with Some row => get_str "text" (JStr []) row | None => JStr [] end in
      let prior := if jtruthy prior then prior else JStr [] in
      let folding := fold_existing && bool_decide (is_Some existing) in
      prior_words ← (if folding then word_count prior else Ok 0%Z);
      let words := target_words (removable_words + prior_words) TARGET_FRACTION in
      let pct := target_pct TARGET_FRACTION in
      let transcript := render_transcript removable name in
      let prompt := if folding then fold_prompt name (py_str prior) transcript words pct
                    else summary_prompt name [] transcript words pct in
      generated ← (match (generate_validated_fold model prompt 0).1 with
                   | Deferred => Err ThrottleDeferred
                   | Valid t => Ok (Some t)
                   | Rejected | Broke => Ok None
                   end);
      let soft := bool_decide (generated = None) in
      let new_part := default (truncation_note (length removable)) generated in
      let new_text := if folding then if soft && jtruthy prior then appended (py_str prior) new_part else new_part
                      else match existing with
                           | None => new_part
                           | Some _ => if jtruthy prior then appended (py_str prior) new_part else new_part
                           end in
      gen ← summary_gen existing;
      last_ts ← or_raise IndexError (option_map (jget_none (u "ts")) (last removable));
      let row := JObj [(u "session_id", JStr sid); (u "speaker", JStr (u "summary")); (u "text", JStr new_text);
        (u "ts", JStr (iso_seconds (utc now_)));
        (u "compaction", JObj [(u "covers_until_ts", if jtruthy last_ts then last_ts else JStr (iso_dt true cutoff));
                               (u "folded", JBool fold_existing); (u "gen", JInt (gen + 1))])] in
      mret (inr {| pl_row := row; pl_removable := removable;
        pl_records := removable ++ match existing with Some old => if fold_existing then [old] else [] | None => [] end;
        pl_gen := gen + 1; pl_soft := soft; pl_tiers := []; pl_evicted := [] |})
  end.

(** [_bucket_of_age]. *)
Definition bucket_of_age (age : Z) : pystr := if (age <? AGE_48H)%Z then k24 else if (age <? AGE_72H)%Z then k48 else k72.

(** [min] and [max] of datetimes: the first of equal ones. *)
Definition min_dt (l : list pydt) (fallback : pydt) : pydt :=
  match l with [] => fallback | d :: l => fold_left (fun a b => if (at_utc b <? at_utc a)%Z then b else a) l d end.
Definition max_dt (l : list pydt) (fallback : pydt) : pydt :=
  match l with [] => fallback | d :: l => fold_left (fun a b => if (at_utc a <? at_utc b)%Z then b else a) l d end.

Definition covers_from (s : json) : option pydt := parse_ts (jget_none (u "covers_from_ts") s).
Definition covers_until (s : json) : option pydt := parse_ts (jget_none (u "covers_until_ts") s).

(** [_tier_span]. *)
Definition tier_span (inputs raw : list json) (fallback : pydt) : pystr * pystr :=
  (iso_seconds (min_dt (omap covers_from inputs ++ omap ts_of raw) fallback),
   iso_seconds (max_dt (omap covers_until inputs ++ omap ts_of raw) fallback)).

(** [sorted(inputs, key=...)]: by the oldest covered edge, an unreadable one last. *)
Definition edge_key (s : json) : Z := match covers_from s with Some d => at_utc d | None => dt_max - 1 end.
Fixpoint insert_edge (s : json) (l : list json) : list json :=
  match l with [] => [s] | x :: l' => if (edge_key s <? edge_key x)%Z then s :: l else x :: insert_edge s l' end.
Definition oldest_first (l : list json) : list json := fold_left (fun acc s => insert_edge s acc) l [].

Fixpoint prior_texts (inputs : list json) : res (list pystr) :=
  match inputs with
  | [] => Ok []
  | s :: inputs =>
      text ← stripped (jget_none (u "text") s);
      rest ← prior_texts inputs;
      mret (if bool_decide (text = []) then rest else text :: rest)
  end.

Record folded := { fd_section : option json; fd_soft : bool; fd_validated : bool }.

(** [_fold_into_section], and the calls made so far. *)
Definition fold_into_section (model : provider) (name : pystr) (inputs raw : list json) (fraction : float) (cap : option Z)
    (now_ : Z) (n : nat) : res (folded * nat) :=
  texts ← prior_texts (oldest_first inputs);
  let prior := py_join [10; 10]%N texts in
  let transcript := render_transcript raw name in
  if bool_decide (prior = []) && no_rows raw then
    mret ({| fd_section := None; fd_soft := false; fd_validated := true |}, n) else
  raw_words ← sum_words raw;
  let words := target_words (Z.of_nat (count_words prior) + raw_words) fraction in
  let pct := target_pct fraction in
  let prompt := if negb (bool_decide (prior = [])) && negb (no_rows raw) then fold_prompt name prior transcript words pct
                else if negb (bool_decide (prior = [])) then condense_prompt name prior [] words pct
                else summary_prompt name [] transcript words pct in
  let '(out, n) := generate_validated_fold model prompt n in
  text ← (match out with Deferred => Err ThrottleDeferred | Valid t => Ok (Some t) | Rejected | Broke => Ok None end);
  let text_ := match text with
               | None => let join := if bool_decide (transcript = []) then prior
                                     else if bool_decide (prior = []) then transcript else appended prior transcript in
                         truncate_sentence join (default SECTION_24H_CHAR_CAP cap)
               | Some t => match cap with Some c => if (c <? len t)%Z then truncate_sentence t c else t | None => t end
               end in
  let '(from, until) := tier_span inputs raw (utc now_) in
  mret ({| fd_section := Some (section_of (JStr text_) (JStr from) (JStr until));
           fd_soft := bool_decide (text = None); fd_validated := bool_decide (is_Some text) |}, n).

(** The summary row and records of [_install_cascade_row]. *)
Definition cascade_row (sid : pystr) (secs : sections) (existing : option json) (removable : list json) (now_ : Z)
    (soft : bool) (tiers : list tier_record) (evicted : list pystr) : res plan :=
  gen ← summary_gen existing;
  let until := max_dt (omap (fun s => covers_until s.2) secs) (utc now_) in
  text ← render_sections secs;
  mret {| pl_row := JObj [(u "session_id", JStr sid); (u "speaker", JStr (u "summary")); (u "ts", JStr (iso_seconds (utc now_)));
            (u "text", JStr text);
            (u "compaction", JObj [(u "gen", JInt (gen + 1)); (u "folded", JBool true);
                                   (u "covers_until_ts", JStr (iso_seconds until)); (u "sections", JObj secs)])];
          pl_removable := removable; pl_records := removable ++ option_list existing; pl_gen := gen + 1;
          pl_soft := soft; pl_tiers := tiers; pl_evicted := evicted |}.

(** Where a pass puts an existing section: in a tier, or out of the head. *)
Definition evicts (now_ : Z) (s : json) : bool :=
  match covers_from s with Some cf => (AGE_EVICT <=? now_ - at_utc cf)%Z | None => false end.
Definition tier_of (now_ : Z) (s : json) : pystr :=
  match covers_from s with Some cf => bucket_of_age (now_ - at_utc cf) | None => k72 end.

Definition tiers_spec : list (pystr * float * option Z) :=
  [(k72, FRACTION_72H, Some SECTION_72H_CHAR_CAP); (k48, FRACTION_48H, None); (k24, FRACTION_24H, Some SECTION_24H_CHAR_CAP)].

(** The loop over the tiers, oldest first. *)
Fixpoint fold_tiers (model : provider) (name : pystr) (kept : sections) (removable : list json) (now_ : Z)
    (spec : list (pystr * float * option Z)) (n : nat) : res (sections * list tier_record) :=
  match spec with
  | [] => Ok ([], [])
  | (key, fraction, cap) :: spec =>
      let inputs := List.filter (fun s => bool_decide (tier_of now_ s.2 = key)) kept in
      let raw := List.filter (fun t => match ts_of t with Some d => bool_decide (bucket_of_age (now_ - at_utc d) = key) | None => false end) removable in
      r ← fold_into_section model name (map snd inputs) raw fraction cap now_ n;
      rest ← fold_tiers model name kept removable now_ spec r.2;
      mret (match fd_section r.1 with Some s => [(key, s)] | None => [] end ++ rest.1,
            {| tr_tier := key; tr_inputs := map fst inputs; tr_raw := length raw; tr_soft := fd_soft r.1;
               tr_validated := fd_validated r.1 |} :: rest.2)
  end.

(** [cascade_conversation], likewise. *)
Definition cascade_plan (model : provider) (name sid : pystr) (keep now_ : Z) (turns : list json) (cursor_ : option pystr)
    : res (no_op + plan) :=
  let '(existing, raw) := split_buffer turns in
  match cursor_ with
  | None => gen ← summary_gen existing; mret (inl (CursorNone gen))
  | Some cursor_ =>
      age_cutoff ← dt_sub now_ AGE_24H;
      let extracted t := match parse_ts (JStr cursor_) with Some d => at_most (at_utc d) t | None => true end in
      let removable := List.filter (fun t => extracted t && at_most age_cutoff t) (unprotected keep raw) in
      existing_sections ← read_sections existing now_;
      let kept := List.filter (fun s => negb (evicts now_ s.2)) existing_sections in
      let evicted := map fst (List.filter (fun s => evicts now_ s.2) existing_sections) in
      let graduates := existsb (fun s => evicts now_ s.2 || negb (bool_decide (tier_of now_ s.2 = s.1))) existing_sections in
      if no_rows removable && negb graduates then gen ← summary_gen existing; mret (inl (NothingAged gen)) else
      r ← fold_tiers model name kept removable now_ tiers_spec 0;
      p ← cascade_row sid r.1 existing removable now_ (existsb tr_soft r.2) r.2 evicted;
      mret (inr p)
  end.

(** [emergency_fold_24h], likewise. *)
Definition emergency_plan (model : provider) (name sid : pystr) (keep now_ : Z) (turns : list json) (cursor_ : option pystr)
    : res (no_op + plan) :=
  let '(existing, raw) := split_buffer turns in
  match cursor_ with
  | None => gen ← summary_gen existing; mret (inl (CursorNone gen))
  | Some cursor_ =>
      let removable := List.filter (fun t => match ts_of t with
                                        | Some d => match parse_ts (JStr cursor_) with Some c => (at_utc d <=? at_utc c)%Z | None => true end
                                        | None => false
                                        end) (unprotected keep raw) in
      if no_rows removable then gen ← summary_gen existing; mret (inl (NothingAged gen)) else
      existing_sections ← read_sections existing now_;
      r ← fold_into_section model name (option_list (dict_get k24 existing_sections)) removable FRACTION_24H
            (Some SECTION_24H_CHAR_CAP) now_ 0;
      let evicted := map fst (List.filter (fun s => evicts now_ s.2) existing_sections) in
      let kept := List.filter (fun s => negb (evicts now_ s.2)) existing_sections in
      p ← cascade_row sid (match fd_section r.1 with Some s => dict_set k24 s kept | None => kept end)
            existing removable now_ (fd_soft r.1) [] evicted;
      mret (inr p)
  end.

(** The three passes. *)
Inductive job :=
| Compact (older_than : Z) (fold_existing : bool) (keep : Z) (max_turns : option Z)
| Cascade (keep : Z)
| Emergency (keep : Z).

Definition job_plan (j : job) (model : provider) (name sid : pystr) (now_ : Z) (turns : list json) (cursor_ : option pystr)
    : res (no_op + plan) :=
  match j with
  | Compact older_than fold_existing keep max_turns =>
      compact_plan model name sid older_than fold_existing keep max_turns now_ turns cursor_
  | Cascade keep => cascade_plan model name sid keep now_ turns cursor_
  | Emergency keep => emergency_plan model name sid keep now_ turns cursor_
  end.

(** The buffer's rows after the plan: the new summary and the turns it did not
    archive. *)
Definition installed_rows (p : plan) (current : list json) : list json :=
  pl_row p :: subtract (map turn_identity (pl_removable p)) (split_buffer current).2.
End passes.

(** ** Turns taken out of a buffer *)
Section facts.
Context `{PyLib}.

(** A turn as [ingest_turn] writes it: text in the three fields of its identity. *)
Definition text_row (t : json) : Prop := exists a b c, turn_identity t = (JStr a, JStr b, JStr c).

Lemma py_eq_str s v : py_eq (JStr s) v = true <-> v = JStr s.
Proof.
  split; [|intros ->; simpl; by apply bool_decide_eq_true]. intros Hs.
  destruct v; simpl in Hs; try discriminate Hs; try (by repeat case_match).
  apply bool_decide_eq_true in Hs. by subst.
Qed.

Lemma same_identity_text i j : (exists a b c, i = (JStr a, JStr b, JStr c)) -> same_identity i j = true <-> i = j.
Proof.
  intros (a & b & c & ->). destruct j as [[x y] z]. unfold same_identity. cbn [fst snd].
  rewrite !andb_true_iff, !py_eq_str. split; [intros [[-> ->] ->]; done|intros [= <- <- <-]; done].
Qed.

(** The first [n] rows that satisfy [P] taken out. *)
Fixpoint without_first (n : nat) (P : json -> bool) (l : list json) : list json :=
  match l, n with
  | [], _ => []
  | _, 0%nat => l
  | t :: l, S m => if P t then without_first m P l else t :: without_first n P l
  end.

Lemma without_first_0 P l : without_first 0 P l = l.
Proof. by destruct l. Qed.

Lemma subtract_nil rows : subtract [] rows = rows.
Proof. induction rows as [|t rows IH]; simpl; [done|]. by rewrite IH. Qed.

(** Subtracting the first aged rows by identity takes out exactly them, twins
    included, when being aged depends on the identity alone. *)
Lemma subtract_first P n l rest :
  (forall t t', turn_identity t = turn_identity t' -> P t = P t') -> Forall text_row l ->
  subtract (map turn_identity (take n (List.filter P l))) (l ++ rest) = without_first n P l ++ rest.
Proof.
  intros HP Hl. revert n. induction Hl as [|t l Ht _ IH]; intros n; cbn [List.filter app without_first].
  { rewrite take_nil. apply subtract_nil. }
  destruct n as [|n]; [rewrite take_0; apply subtract_nil|].
  destruct (P t) eqn:Hp; cbn [take map subtract].
  - assert (same_identity (turn_identity t) (turn_identity t) = true) as Hs by (by apply same_identity_text).
    cbn [existsb remove_identity]. rewrite Hs. apply IH.
  - destruct (existsb _ _) eqn:He; [|cbn [app]; f_equal; apply IH].
    exfalso. apply existsb_exists in He as (i & Hi & Hs). apply same_identity_text in Hs as <-; [|done].
    apply in_map_iff in Hi as (t' & Ht' & Hin).
    assert (In t' (List.filter P l)) as [_ Hp']%filter_In by (rewrite <- (take_drop (S n) (List.filter P l)); by apply in_or_app; left).
    rewrite (HP t' t Ht') in Hp'. congruence.
Qed.

Lemma without_first_filter P n l : List.filter P (without_first n P l) = drop n (List.filter P l).
Proof.
  revert n. induction l as [|t l IH]; intros [|n]; simpl; try done.
  destruct (P t) eqn:E; [apply IH|]. cbn [List.filter]. rewrite E. apply IH.
Qed.

Lemma without_first_length P n l : (length (without_first n P l) = length l - Nat.min n (length (List.filter P l)))%nat.
Proof.
  revert n. induction l as [|t l IH]; intros [|n]; try done. cbn [without_first List.filter].
  pose proof (filter_length_le P l). destruct (P t); cbn [length]; rewrite IH; lia.
Qed.

(** [List.filter] keeps a sublist. *)
Lemma filter_sublist {A} (P : A -> bool) (l : list A) : sublist (List.filter P l) l.
Proof. induction l as [|x l IH]; simpl; [constructor|]. destruct (P x); by constructor. Qed.

Lemma take_sublist {A} n (l : list A) : sublist (take n l) l.
Proof. rewrite <- (take_drop n l) at 2. by apply sublist_inserts_r. Qed.

Lemma slice_sublist {A} n (l : list A) : sublist (slice_to n l) l.
Proof. unfold slice_to. case_match; apply take_sublist. Qed.
End facts.

Section theorems.
Context `{PyLib}.
Variable local_wall : Z -> res Z.
Variables summary_prompt fold_prompt condense_prompt : pystr -> pystr -> pystr -> Z -> Z -> pystr.

Abbreviation compact_plan := (compact_plan summary_prompt fold_prompt).
Abbreviation job_plan := (job_plan local_wall summary_prompt fold_prompt condense_prompt).

(** ** What a pass may take out *)
Definition extracted_by (c : pydt) (t : json) : Prop := exists d, ts_of t = Some d /\ (at_utc d <= at_utc c)%Z.

Lemma at_most_extracted c cutoff t : (cutoff <= at_utc c)%Z -> at_most cutoff t = true -> extracted_by c t.
Proof.
  unfold at_most, extracted_by. intros Hc. destruct (ts_of t) as [d|]; [|done]. intros Hd%Z.leb_le. exists d. split; [done|lia].
Qed.

Lemma filter_extracted c P l : (forall t, P t = true -> extracted_by c t) -> Forall (extracted_by c) (List.filter P l).
Proof. intros HP. apply List.Forall_forall. intros t [_ Ht]%filter_In. by apply HP. Qed.

Lemma forall_sublist {A} (P : A -> Prop) l k : sublist l k -> Forall P k -> Forall P l.
Proof. intros Hs. induction Hs as [|x l k _ IH|x l k _ IH]; intros Hk; [done|inversion Hk; subst; constructor; auto|inversion Hk; auto]. Qed.

Lemma read_cursor_parses c s : read_cursor c = Some s -> exists d, parse_ts (JStr s) = Some d.
Proof.
  unfold read_cursor. destruct (cursor c) as [text|]; [|done]. cbn [mbind option_bind]. case_bool_decide as Hne; [done|].
  destruct (flexible_iso (strip text)) as [d|] eqn:E; [|done]. intros [= <-]. exists d. unfold parse_ts.
  destruct (strip text) as [|x t]; [done|]. exact E.
Qed.

(** A computation in [res] that gives a plan. *)
Ltac plan_inv :=
  repeat match goal with
  | H : mbind _ ?m = Ok _ |- _ => let a := fresh "a" in let E := fresh "E" in
      destruct m as [a|] eqn:E; [cbn [mbind res_bind] in H|by cbn [mbind res_bind] in H]
  | H : mret ?x = Ok ?y |- _ => change (Ok x = Ok y) in H
  | H : Ok _ = Ok _ |- _ => injection H as H
  | H : inr _ = inr _ |- _ => injection H as H
  | H : inl _ = inr _ |- _ => discriminate H
  | H : (if ?b then _ else _) = Ok (inr _) |- _ => destruct b eqn:?
  end.

Lemma cascade_row_removable sid secs existing removable now_ soft tiers evicted p :
  cascade_row local_wall sid secs existing removable now_ soft tiers evicted = Ok p ->
  pl_removable p = removable /\ pl_records p = removable ++ option_list existing.
Proof. unfold cascade_row. intros Hp. plan_inv. by subst p. Qed.

(** What a plan promises: the removed turns are extracted turns before the
    protected ones, and all of them are archived. *)
Record plan_sound (keep : Z) (c : pydt) (turns : list json) (p : plan) : Prop := {
  ps_sublist : sublist (pl_removable p) (unprotected keep (split_buffer turns).2);
  ps_extracted : Forall (extracted_by c) (pl_removable p);
  ps_archived : exists old, pl_records p = pl_removable p ++ old /\ sublist old (option_list (split_buffer turns).1);
  ps_summary : is_summary (pl_row p) = true;
}.

Definition job_keep (j : job) : Z := match j with Compact _ _ keep _ | Cascade keep | Emergency keep => keep end.

Lemma compact_sound model name sid older_than fold_ keep max_ now_ turns s c p :
  parse_ts (JStr s) = Some c ->
  compact_plan model name sid older_than fold_ keep max_ now_ turns (Some s) = Ok (inr p) -> plan_sound keep c turns p.
Proof.
  intros Hc Hp. unfold Compaction.compact_plan in Hp. destruct (split_buffer turns) as [existing raw] eqn:Hsp.
  rewrite Hc in Hp. destruct (dt_sub now_ older_than) as [before|] eqn:E0; [cbn [mbind res_bind] in Hp|done].
  set (cutoff := if (at_utc c <? before)%Z then c else utc before) in *.
  assert (at_utc cutoff <= at_utc c)%Z as Hcut.
  { unfold cutoff. destruct (Z.ltb_spec (at_utc c) before); [lia|]. unfold at_utc at 1, utc. cbn. lia. }
  set (aged := List.filter (at_most (at_utc cutoff)) (unprotected keep raw)) in *.
  destruct (no_rows aged); [by destruct (summary_gen existing)|].
  set (removable := match max_ with Some n => if (n <? Z.of_nat (length aged))%Z then slice_to n aged else aged | None => aged end) in *.
  assert (sublist removable aged) as Hsub.
  { unfold removable. destruct max_ as [n|]; [|done]. destruct (n <? _)%Z; [apply slice_sublist|done]. }
  clearbody removable. plan_inv. subst p. split; cbn [pl_removable pl_records pl_row]; rewrite ?Hsp; cbn [fst snd].
  - etrans; [exact Hsub|]. apply filter_sublist.
  - eapply forall_sublist; [exact Hsub|]. apply filter_extracted. intros t. by apply at_most_extracted.
  - eexists. split; [reflexivity|]. destruct existing; [destruct fold_|]; try done. apply sublist_nil_l.
  - done.
Qed.

Lemma cascade_sound model name sid keep now_ turns s c p :
  parse_ts (JStr s) = Some c ->
  cascade_plan local_wall summary_prompt fold_prompt condense_prompt model name sid keep now_ turns (Some s) = Ok (inr p) ->
  plan_sound keep c turns p.
Proof.
  intros Hc Hp. unfold cascade_plan in Hp. destruct (split_buffer turns) as [existing raw] eqn:Hsp. rewrite Hc in Hp.
  plan_inv. subst. rename E2 into Hrow.
  pose proof (cascade_row_removable _ _ _ _ _ _ _ _ _ Hrow) as [Hr Ha].
  split; rewrite ?Hr, ?Ha, ?Hsp; cbn [fst snd].
  - apply filter_sublist.
  - apply filter_extracted. intros t [Ht _]%andb_true_iff. by eapply at_most_extracted.
  - eauto.
  - revert Hrow. unfold cascade_row. intros Hrow. plan_inv. by subst.
Qed.

Lemma cascade_row_summary sid secs existing removable now_ soft tiers evicted p :
  cascade_row local_wall sid secs existing removable now_ soft tiers evicted = Ok p -> is_summary (pl_row p) = true.
Proof. unfold cascade_row. intros Hp. plan_inv. by subst p. Qed.

Lemma emergency_sound model name sid keep now_ turns s c p :
  parse_ts (JStr s) = Some c ->
  emergency_plan local_wall summary_prompt fold_prompt condense_prompt model name sid keep now_ turns (Some s) = Ok (inr p) ->
  plan_sound keep c turns p.
Proof.
  intros Hc Hp. unfold emergency_plan in Hp. destruct (split_buffer turns) as [existing raw] eqn:Hsp. rewrite Hc in Hp.
  plan_inv. subst. rename E1 into Hrow. pose proof (cascade_row_removable _ _ _ _ _ _ _ _ _ Hrow) as [Hr Ha].
  split; rewrite ?Hr, ?Ha, ?Hsp; cbn [fst snd].
  - apply filter_sublist.
  - apply filter_extracted. intros t Ht. unfold extracted_by. destruct (ts_of t) as [d|]; [|done].
    exists d. split; [done|]. by apply Z.leb_le.
  - eauto.
  - by eapply cascade_row_summary.
Qed.

Lemma job_sound j model name sid now_ turns s c p :
  parse_ts (JStr s) = Some c -> job_plan j model name sid now_ turns (Some s) = Ok (inr p) ->
  plan_sound (job_keep j) c turns p.
Proof. intros Hc. destruct j; [by apply compact_sound|by apply cascade_sound|by apply emergency_sound]. Qed.

(** A pass without a cursor plans nothing. *)
Lemma job_needs_cursor j model name sid now_ turns p : job_plan j model name sid now_ turns None <> Ok (inr p).
Proof.
  destruct j; cbn [Compaction.job_plan]; unfold Compaction.compact_plan, cascade_plan, emergency_plan; destruct (split_buffer turns) as [e r];
    by destruct (summary_gen e).
Qed.


(** ** Compaction drains *)

(** The turns a compaction may take: extracted, old enough, not protected. *)
Definition aged (older_than keep now_ : Z) (c : pydt) (turns : list json) : list json :=
  List.filter (at_most (Z.min (at_utc c) (now_ - older_than))) (unprotected keep (split_buffer turns).2).

Lemma split_installed p current : is_summary (pl_row p) = true ->
  (split_buffer (installed_rows p current)).2 = subtract (map turn_identity (pl_removable p)) (split_buffer current).2.
Proof.
  intros Hrow. unfold installed_rows, split_buffer. cbn [snd List.filter]. rewrite Hrow. cbn [negb].
  assert (forall ids l, Forall (fun t => is_summary t = false) l ->
    List.filter (fun t => negb (is_summary t)) (subtract ids l) = subtract ids l) as Hid.
  { intros ids l Hl. revert ids. induction Hl as [|t l Ht _ IH]; intros ids; [done|]. cbn [subtract].
    case_match; [apply IH|]. cbn [List.filter]. rewrite Ht. cbn [negb]. by rewrite IH. }
  apply Hid. apply List.Forall_forall. intros t [_ Ht]%filter_In. by destruct (is_summary t).
Qed.

Lemma at_most_identity cutoff t t' : turn_identity t = turn_identity t' -> at_most cutoff t = at_most cutoff t'.
Proof. unfold turn_identity, at_most, ts_of. by intros [= -> _ _]. Qed.

Lemma without_first_forall Q n P l : Forall Q l -> Forall Q (without_first n P l).
Proof.
  intros Hl. revert n. induction Hl as [|t l Ht Hl IH]; intros [|n]; simpl; try (by constructor).
  destruct (P t); [done|]. by constructor.
Qed.

Lemma sum_words_text l : Forall text_row l -> exists n, sum_words l = Ok n.
Proof.
  induction 1 as [|t l (a & b & d & [= _ _ Hd]) _ [n IH]]; [by exists 0%Z|]. cbn [sum_words].
  assert (exists m, word_count (get_str "text" (JStr []) t) = Ok m) as [m ->].
  { unfold get_str. unfold jget_none in Hd. destruct (jget (u "text") t) as [v|]; [|by exists 0%Z]. cbn in Hd. subst v.
    unfold word_count. cbn. destruct d; eauto. }
  cbn [mbind res_bind]. rewrite IH. cbn. eauto.
Qed.

(** A head row a compaction can fold: its generation and its text are readable. *)
Definition readable_head (row : option json) : Prop :=
  match row with
  | None => True
  | Some row => (exists g, summary_gen (Some row) = Ok g) /\ exists t, get_str "text" (JStr []) row = JStr t
  end.

Section drain.
Variables (name sid : pystr) (older_than keep now_ : Z) (fold_ : bool) (batch : nat) (s : pystr) (c : pydt).
Hypothesis Hcursor : parse_ts (JStr s) = Some c.
Hypothesis Hrange : (0 <= now_ - older_than < dt_max)%Z.
Hypothesis Hbatch : (1 <= batch)%nat.

Let P := at_most (Z.min (at_utc c) (now_ - older_than)).
Let step model turns := compact_plan model name sid older_than fold_ keep (Some (Z.of_nat batch)) now_ turns (Some s).
Let aged_ := aged older_than keep now_ c.

Lemma batch_taken (l : list json) : (match Some (Z.of_nat batch) with
    | Some n => if (n <? Z.of_nat (length l))%Z then slice_to n l else l | None => l end) = take batch l.
Proof.
  cbv beta iota. destruct (Z.ltb_spec (Z.of_nat batch) (Z.of_nat (length l))); [|by rewrite take_ge by lia].
  unfold slice_to. rewrite (proj2 (Z.ltb_ge _ _)) by lia. by rewrite Nat2Z.id.
Qed.

Lemma aged_installed turns raw' :
  let raw := (split_buffer turns).2 in
  let lim := Z.to_nat (Z.max 0 (Z.of_nat (length raw) - keep)) in
  (0 < length (aged_ turns))%nat -> raw' = without_first batch P (@take json lim raw) ++ @drop json lim raw ->
  List.filter P (unprotected keep raw') = drop batch (aged_ turns).
Proof.
  cbv zeta. intros Hne ->. set (raw := (split_buffer turns).2) in *. set (lim := Z.to_nat _) in *.
  change (aged_ turns) with (List.filter P (take lim raw)) in *.
  assert (unprotected keep (without_first batch P (take lim raw) ++ drop lim raw) = without_first batch P (take lim raw)) as ->.
  2: apply without_first_filter.
  assert (0 < lim)%nat by (destruct lim; [simpl in Hne; lia|lia]).
  pose proof (filter_length_le P (take lim raw)) as Hfl. rewrite length_take in Hfl.
  unfold unprotected. rewrite length_app, length_drop, without_first_length, length_take.
  destruct (Z_lt_ge_dec keep 0).
  - rewrite take_ge; [rewrite drop_ge by lia; by rewrite app_nil_r|].
    rewrite length_app, length_drop, without_first_length, length_take. lia.
  - rewrite take_app_length'; [done|]. rewrite without_first_length, length_take. lia.
Qed.

Lemma generates model prompt n : (forall p k, model p k <> Defers) ->
  exists o, (match (generate_validated_fold model prompt n).1 with
             | Deferred => Err ThrottleDeferred | Valid t => Ok (Some t) | Rejected | Broke => Ok None end) = Ok o.
Proof.
  intros Hm. unfold generate_validated_fold. pose proof (Hm prompt n). pose proof (Hm prompt (S n)).
  repeat (case_match; simpl in *; try done; eauto).
Qed.

Lemma compact_step model turns :
  (forall p n, model p n <> Defers) -> Forall text_row (split_buffer turns).2 -> readable_head (split_buffer turns).1 ->
  aged_ turns = [] /\ (exists g, step model turns = Ok (inl (NothingAged g))) \/
  exists p, step model turns = Ok (inr p) /\ pl_removable p = take batch (aged_ turns) /\ aged_ turns <> [] /\
    Forall text_row (split_buffer (installed_rows p turns)).2 /\ readable_head (split_buffer (installed_rows p turns)).1 /\
    aged_ (installed_rows p turns) = drop batch (aged_ turns).
Proof.
  intros Hmodel Htext Hhead. unfold step, Compaction.compact_plan.
  assert (aged_ turns = List.filter P (unprotected keep (split_buffer turns).2)) as Hag by done.
  pose proof (aged_installed turns) as Hinst. cbv zeta in Hinst.
  assert (exists g, summary_gen (split_buffer turns).1 = Ok g) as [g Hg].
  { destruct (split_buffer turns).1 as [row|]; [apply Hhead|by exists 0%Z]. }
  destruct (split_buffer turns) as [existing raw] eqn:Hsp. cbn [fst snd] in *. rewrite Hcursor.
  assert (dt_sub now_ older_than = Ok (now_ - older_than)%Z) as ->.
  { unfold dt_sub. destruct (Z.leb_spec 0 (now_ - older_than)), (Z.ltb_spec (now_ - older_than) dt_max); try done; lia. }
  cbn [mbind res_bind].
  set (cutoff := if (at_utc c <? now_ - older_than)%Z then c else utc (now_ - older_than)).
  assert (at_utc cutoff = Z.min (at_utc c) (now_ - older_than)) as Hcut.
  { unfold cutoff. destruct (Z.ltb_spec (at_utc c) (now_ - older_than)); [|unfold utc, at_utc at 1; simpl]; lia. }
  rewrite Hcut. fold P. rewrite <- Hag. rewrite batch_taken. clearbody cutoff.
  destruct (aged_ turns) as [|t0 rest] eqn:Haged; [left; rewrite Hg; split; [done|by exists g]|right].
  cbn [no_rows]. rewrite <- Haged in *. set (removable := take batch (aged_ turns)).
  assert (Forall text_row removable) as Hrt.
  { eapply forall_sublist; [apply take_sublist|]. rewrite Hag. eapply forall_sublist; [apply filter_sublist|].
    eapply forall_sublist; [apply take_sublist|exact Htext]. }
  destruct (sum_words_text (List.filter (fun r => negb (speaker_is "image" r)) removable)) as [rw ->].
  { eapply forall_sublist; [apply filter_sublist|exact Hrt]. }
  cbn [mbind res_bind].
  set (prior := if jtruthy _ then _ else JStr []).
  assert (exists n, (if fold_ && bool_decide (is_Some existing) then word_count prior else Ok 0%Z) = Ok n) as [pw ->].
  { destruct (_ && _); [|by exists 0%Z]. unfold prior. destruct existing as [row|]; [|by exists 0%Z].
    destruct Hhead as [_ [x ->]]. unfold word_count. destruct x; cbn; eauto. }
  cbn [mbind res_bind]. match goal with |- context [generate_validated_fold model ?pr 0] =>
    destruct (generates model pr 0 Hmodel) as [gen_ ->] end.
  cbn [mbind res_bind]. rewrite Hg. cbn [mbind res_bind].
  assert (exists lt, last removable = Some lt) as [lt ->].
  { unfold removable. destruct batch as [|b]; [lia|]. rewrite Haged. cbn [take].
    destruct (exists_last (l := t0 :: take b rest)) as (l & x & ->); [done|]. rewrite last_snoc. by eexists. }
  cbn [option_map or_raise mbind res_bind]. eexists. split; [reflexivity|]. cbn [pl_removable].
  split; [done|]. split; [by rewrite Haged|].
  match goal with |- context [installed_rows ?pl turns] => set (p := pl) end.
  pose proof (split_installed p turns eq_refl) as Hraw. rewrite Hsp in Hraw. cbn [snd pl_removable p] in Hraw.
  set (lim := Z.to_nat (Z.max 0 (Z.of_nat (length raw) - keep))) in *.
  assert (subtract (map turn_identity removable) raw = without_first batch P (take lim raw) ++ drop lim raw) as Hsub.
  { unfold removable. rewrite Hag. rewrite <- (take_drop lim raw) at 2. apply subtract_first; [intros; by apply at_most_identity|].
    eapply forall_sublist; [apply take_sublist|exact Htext]. }
  rewrite Hsub in Hraw. split_and!.
  - rewrite Hraw. apply Forall_app. split; [apply without_first_forall; by apply Forall_take|by apply Forall_drop].
  - change (readable_head (Some (pl_row p))). split; [exists (g + 1)%Z; reflexivity|eexists; reflexivity].
  - change (aged_ (installed_rows p turns)) with (List.filter P (unprotected keep (split_buffer (installed_rows p turns)).2)).
    apply Hinst; [rewrite Haged; simpl; lia|exact Hraw].
Qed.

(** Compaction passes one after the other, each with its own answers, until one
    finds nothing. *)
Fixpoint drain (models : list provider) (turns : list json) : res (list (list json) * list json) :=
  match models with
  | [] => Ok ([], turns)
  | model :: models =>
      r ← step model turns;
      match r with
      | inl _ => Ok ([], turns)
      | inr p => rest ← drain models (installed_rows p turns); mret (pl_removable p :: rest.1, rest.2)
      end
  end.

Lemma drain_run models turns :
  Forall (fun model : provider => forall p n, model p n <> Defers) models ->
  Forall text_row (split_buffer turns).2 -> readable_head (split_buffer turns).1 ->
  exists batches rest, drain models turns = Ok (batches, rest) /\
    concat batches = take (batch * length models) (aged_ turns) /\
    aged_ rest = drop (batch * length models) (aged_ turns) /\
    Forall (fun b => (1 <= length b <= batch)%nat) batches /\
    Forall text_row (split_buffer rest).2 /\ readable_head (split_buffer rest).1.
Proof.
  intros Hm. revert turns. induction Hm as [|model models Hmodel _ IH]; intros turns Htext Hhead; cbn [drain length].
  { exists [], turns. rewrite Nat.mul_0_r, take_0, drop_0. split_and!; try done; constructor. }
  destruct (compact_step model turns Hmodel Htext Hhead) as [[Hag [g Hg]]|(p & Hp & Hr & Hne & Ht & Hh & Hag)].
  - rewrite Hg. cbn [mbind res_bind]. exists [], turns. rewrite Hag, take_nil, drop_nil. split_and!; try done; constructor.
  - rewrite Hp. cbn [mbind res_bind]. destruct (IH _ Ht Hh) as (bs & rest & -> & Hc & Hrest & Hsz & Htr & Hhr). cbn [mbind res_bind].
    exists (pl_removable p :: bs), rest. rewrite Hag in Hc, Hrest. split_and!; [done| | | | |].
    + cbn [concat]. rewrite Hc, Hr, Nat.mul_succ_r, Nat.add_comm. by rewrite take_take_drop.
    + by rewrite Hrest, drop_drop, Nat.mul_succ_r, Nat.add_comm.
    + constructor; [|done]. rewrite Hr, length_take. destruct (aged_ turns); [done|]. simpl. lia.
    + done.
    + done.
Qed.

Lemma drained models turns :
  Forall (fun model : provider => forall p n, model p n <> Defers) models ->
  Forall text_row (split_buffer turns).2 -> readable_head (split_buffer turns).1 ->
  aged_ turns = [] -> drain models turns = Ok ([], turns).
Proof.
  intros Hm Ht Hh Hag. destruct Hm as [|model models Hmodel _]; [done|]. cbn [drain].
  destruct (compact_step model turns Hmodel Ht Hh) as [[_ [g ->]]|(p & _ & _ & Hne & _)]; done.
Qed.
End drain.

(** C32: repeated compaction drains a backlog, oldest first, and then stops.  Take a
    buffer of ordinary turns, a batch size of at least one and any number of
    passes whose model calls are never refused (they may fail or be rejected).
    The batches taken out one after the other are consecutive: together they are
    the first so many of the extracted, old, unprotected turns in the order of
    the buffer, twins included; what stays aged is exactly the rest; and as soon
    as the passes are enough nothing aged is left and a further pass is a no-op. *)
Theorem backlog_drains name sid older_than keep now_ fold_ batch s c models turns :
  parse_ts (JStr s) = Some c -> (0 <= now_ - older_than < dt_max)%Z -> (1 <= batch)%nat ->
  Forall (fun model : provider => forall p n, model p n <> Defers) models ->
  Forall text_row (split_buffer turns).2 -> readable_head (split_buffer turns).1 ->
  let backlog := aged older_than keep now_ c turns in
  exists batches rest, drain name sid older_than keep now_ fold_ batch s models turns = Ok (batches, rest) /\
    concat batches = take (batch * length models) backlog /\
    aged older_than keep now_ c rest = drop (batch * length models) backlog /\
    Forall (fun b => (1 <= length b <= batch)%nat) batches /\
    ((length backlog <= batch * length models)%nat -> concat batches = backlog /\
       drain name sid older_than keep now_ fold_ batch s models rest = Ok ([], rest)).
Proof.
  intros Hc Hr Hb Hm Ht Hh. cbv zeta.
  destruct (drain_run name sid older_than keep now_ fold_ batch s c Hc Hr Hb models turns Hm Ht Hh) as (bs & rest & Hd & H1 & H2 & H3 & H4 & H5).
  exists bs, rest. split_and!; try done. intros Hlen. rewrite take_ge in H1 by done. split; [done|].
  apply (drained name sid older_than keep now_ fold_ batch s c Hc Hr Hb models rest Hm H4 H5). change (aged older_than keep now_ c rest = []). rewrite H2. by apply drop_ge.
Qed.

(** ** Sizes of the sections *)
Lemma rstrip_prefix s : rstrip s `prefix_of` s.
Proof. destruct (rstrip_by_spec is_space s) as (t & Ht & _). exists t. exact Ht. Qed.

Lemma first_chars_prefix n s : first_chars n s `prefix_of` s.
Proof. exists (drop (Z.to_nat n) s). unfold first_chars. by rewrite take_drop. Qed.

Lemma truncate_prefix text cap : truncate_sentence text cap `prefix_of` text.
Proof.
  unfold truncate_sentence. case_match; [done|]. cbv zeta.
  assert (forall s, s `prefix_of` first_chars cap text -> s `prefix_of` text) as Hp.
  { intros s Hs. etrans; [exact Hs|apply first_chars_prefix]. }
  repeat case_match; apply Hp; (etrans; [apply rstrip_prefix|]); [apply first_chars_prefix..|done].
Qed.

Lemma truncate_fits text cap : (0 <= cap)%Z -> (len (truncate_sentence text cap) <= cap)%Z.
Proof.
  intros Hcap. unfold truncate_sentence. destruct (Z.leb_spec (len text) cap); [done|]. cbv zeta.
  assert (forall s, s `prefix_of` first_chars cap text -> (len s <= cap)%Z) as Hp.
  { intros s Hs%prefix_length. revert Hs. unfold len, first_chars. rewrite length_take. lia. }
  repeat case_match; apply Hp; (etrans; [apply rstrip_prefix|]); [apply first_chars_prefix..|done].
Qed.

(** What a section of a head may hold. *)
Definition within_cap (key : pystr) (s : json) : Prop :=
  exists text, jget (u "text") s = Some (JStr text) /\
    (key = k24 -> (len text <= SECTION_24H_CHAR_CAP)%Z) /\ (key = k72 -> (len text <= SECTION_72H_CHAR_CAP)%Z).

Abbreviation fold_into_section := (fold_into_section summary_prompt fold_prompt condense_prompt).
Abbreviation fold_tiers := (fold_tiers summary_prompt fold_prompt condense_prompt).

Lemma fold_fits model name inputs raw fraction cap now_ n r s :
  fold_into_section model name inputs raw fraction (Some cap) now_ n = Ok r -> (0 <= cap)%Z -> fd_section r.1 = Some s ->
  exists text, jget (u "text") s = Some (JStr text) /\ (len text <= cap)%Z.
Proof.
  unfold Compaction.fold_into_section. intros Hr Hcap Hs.
  destruct (prior_texts _) as [texts|]; [|done]. cbn [mbind res_bind] in Hr.
  destruct (_ && _); [injection Hr as <-; done|].
  destruct (sum_words raw) as [words|]; [|done]. cbn [mbind res_bind] in Hr.
  destruct (generate_validated_fold _ _ _) as [out k].
  destruct (match out with Deferred => _ | _ => _ end) as [o|]; [|done]. cbn [mbind res_bind] in Hr.
  destruct (tier_span _ _ _) as [from until]. injection Hr as <-. cbn [fst fd_section] in Hs. injection Hs as <-.
  eexists. split; [reflexivity|]. destruct o as [t|]; [|by apply truncate_fits]. destruct (Z.ltb_spec cap (len t)); [by apply truncate_fits|done].
Qed.

Lemma fold_has_text model name inputs raw fraction cap now_ n r s :
  fold_into_section model name inputs raw fraction cap now_ n = Ok r -> fd_section r.1 = Some s ->
  exists text, jget (u "text") s = Some (JStr text).
Proof.
  unfold Compaction.fold_into_section. intros Hr Hs.
  destruct (prior_texts _) as [texts|]; [|done]. cbn [mbind res_bind] in Hr.
  destruct (_ && _); [injection Hr as <-; done|].
  destruct (sum_words raw) as [words|]; [|done]. cbn [mbind res_bind] in Hr.
  destruct (generate_validated_fold _ _ _) as [out k].
  destruct (match out with Deferred => _ | _ => _ end) as [o|]; [|done]. cbn [mbind res_bind] in Hr.
  destruct (tier_span _ _ _) as [from until]. injection Hr as <-. cbn [fst fd_section] in Hs. injection Hs as <-.
  eexists. reflexivity.
Qed.

(** A row of the spec that caps what it must. *)
Definition capped (sp : pystr * float * option Z) : Prop :=
  match sp with
  | (key, _, cap) => match cap with
                     | Some c => (0 <= c)%Z /\ (key = k24 -> (c <= SECTION_24H_CHAR_CAP)%Z) /\ (key = k72 -> (c <= SECTION_72H_CHAR_CAP)%Z)
                     | None => key <> k24 /\ key <> k72
                     end
  end.

Lemma fold_tiers_fit model name kept removable now_ spec n r :
  Forall capped spec -> fold_tiers model name kept removable now_ spec n = Ok r ->
  Forall (fun kv => within_cap kv.1 kv.2) r.1.
Proof.
  intros Hspec. revert n r. induction Hspec as [|[[key fraction] cap] spec Hc _ IH]; intros n r Hr; cbn [Compaction.fold_tiers] in Hr.
  { injection Hr as <-. constructor. }
  destruct (Compaction.fold_into_section _ _ _ _ _ _ _ _ _ _ _) as [f|] eqn:Hf; [|done]. cbn [mbind res_bind] in Hr.
  destruct (Compaction.fold_tiers _ _ _ _ _ _ _ _ spec f.2) as [rest|] eqn:Hrest; [|done]. cbn [mbind res_bind] in Hr.
  injection Hr as <-. cbn [fst]. apply Forall_app. split; [|by eapply IH].
  destruct (fd_section f.1) as [s|] eqn:Hs; [|constructor]. constructor; [|constructor]. cbn [fst snd].
  destruct cap as [c|]; destruct Hc as [Hc Hc'].
  - destruct (fold_fits _ _ _ _ _ _ _ _ _ _ Hf Hc Hs) as (t & Ht & Hl). exists t. split_and!; [done|..]; intros Hk; destruct Hc'; auto; etrans; eauto.
  - destruct (fold_has_text _ _ _ _ _ _ _ _ _ _ Hf Hs) as [t Ht]. by exists t.
Qed.

(** the head a cascade installs is bounded.  Whatever the model answers (also a
    text far longer than asked, or none at all, when the inputs themselves are
    joined), every section of the new summary row has a text, the one of the last
    day at most 12,000 characters and the oldest at most 2,400. *)
Theorem cascade_sections_bounded model name sid keep now_ turns cursor_ p :
  cascade_plan local_wall summary_prompt fold_prompt condense_prompt model name sid keep now_ turns cursor_ = Ok (inr p) ->
  exists comp secs, jget (u "compaction") (pl_row p) = Some comp /\ jget (u "sections") comp = Some (JObj secs) /\
    Forall (fun kv => within_cap kv.1 kv.2) secs.
Proof.
  intros Hp. unfold cascade_plan in Hp. destruct (split_buffer turns) as [existing raw], cursor_ as [s|]; [|by destruct (summary_gen existing)].
  plan_inv. subst. rename E1 into Hfold, E2 into Hrow. unfold cascade_row in Hrow. plan_inv. subst p.
  eexists _, _. split; [reflexivity|]. split; [reflexivity|]. eapply fold_tiers_fit; [|exact Hfold].
  unfold tiers_spec. repeat constructor; try (intros; vm_compute; congruence); by vm_compute.
Qed.
End theorems.

#[local] Existing Instance ascii_pylib.

Definition sample_turn (text ts : string) : json :=
  JObj [(u "speaker", JStr (u "user")); (u "text", JStr (u text)); (u "ts", JStr (u ts))].

Definition sample_turns : list json :=
  [sample_turn "one" "2026-03-01T10:00:00+00:00"; sample_turn "two" "2026-03-01T11:00:00+00:00"; sample_turn "three" "2026-03-01T12:00:00+00:00";
   sample_turn "four" "2026-03-04T20:00:00+00:00"].

Definition blank : pystr -> pystr -> pystr -> Z -> Z -> pystr := fun _ _ _ _ _ => [].
Definition mute : provider := fun _ _ => Breaks.
Definition sample_now : Z := match fromisoformat (u "2026-03-05T00:00:00+00:00") with Ok d => at_utc d | Err _ => 0 end.
Definition sample_cursor : pystr := u "2026-03-04T20:00:00+00:00".

Lemma backlog_drains_witness : exists batches rest,
  drain blank blank (u "N") (u "s") day 1 sample_now false 2 sample_cursor [mute; mute] sample_turns = Ok (batches, rest) /\
  concat batches = take 3 sample_turns.
Proof.
  destruct (parse_ts (JStr sample_cursor)) as [c|] eqn:Hc; [|by vm_compute in Hc].
  destruct (backlog_drains (fun t => Ok t) blank blank blank (u "N") (u "s") day 1 sample_now false 2 sample_cursor c [mute; mute] sample_turns)
    as (batches & rest & Hd & Hb & _).
  - exact Hc.
  - vm_compute. split; [discriminate|reflexivity].
  - lia.
  - repeat constructor; discriminate.
  - repeat constructor; eexists _, _, _; reflexivity.
  - exact I.
  - exists batches, rest. split; [exact Hd|]. rewrite Hb. vm_compute in Hc. injection Hc as <-. vm_compute. reflexivity.
Defined.

Lemma cascade_sections_bounded_witness :
  match cascade_plan (fun t => Ok t) blank blank blank mute (u "N") (u "s") 1 sample_now sample_turns (Some sample_cursor) with
  | Ok (inr p) => exists comp secs, jget (u "compaction") (pl_row p) = Some comp /\ jget (u "sections") comp = Some (JObj secs) /\
      Forall (fun kv => within_cap kv.1 kv.2) secs
  | _ => False
  end.
Proof.
  destruct (cascade_plan (fun t => Ok t) blank blank blank mute (u "N") (u "s") 1 sample_now sample_turns (Some sample_cursor))
    as [[no|p]|e] eqn:Hp; [by vm_compute in Hp| |by vm_compute in Hp].
  exact (cascade_sections_bounded (fun t => Ok t) blank blank blank mute (u "N") (u "s") 1 sample_now sample_turns (Some sample_cursor) p Hp).
Defined.
