(* ===== verification/Chunks.v ===== *)
(** [brain/ingest/ingest_utils.py] (the chunker) and the transcript lines of
    [brain/ingest/extract.py]: how the rows after a session's extraction cursor
    are split into the pieces a model is asked about.  A row index of the code is
    the row's [item] here.  Theorems: no row and no text is dropped, what is
    longer than the limit is one exchange only and its pieces stay within the limit, and the
    cursor a chunk ends with separates its rows from the later ones in time. *)
From S2P Require Import Prelude PyFloat PyTime Json Crypto Protocol PyVal Buffer Compaction.

Section chunks.
Context `{PyLib}.

(** ** Transcript lines *)

(** [f"[image: {s[:8]}]"]. *)
Definition image_marker (s : json) : res pystr :=
  head ← (match s with
          | JStr s => Ok (take 8 s)
          | JArr l => Ok (py_str (JArr (take 8 l)))
          | JObj _ => Err KeyError
          | _ => Err TypeError
          end);
  mret (u "[image: " ++ head ++ u "]").

Fixpoint image_markers (shas : list json) : res (list pystr) :=
  match shas with
  | [] => Ok []
  | s :: shas => m ← image_marker s; rest ← image_markers shas; mret (m :: rest)
  end.

Definition format_turn_line (turn : json) (user_label assistant_label : pystr) : res (option pystr) :=
  let speaker := get_str "speaker" (JStr (u "?")) turn in
  if jis_str (u "summary") speaker then Ok None else
  let label := if jis_str (u "user") speaker then user_label
               else if jis_str (u "assistant") speaker then assistant_label else py_str speaker in
  let body := get_str "text" (JStr []) turn in
  let shas := jget_none (u "image_shas") turn in
  text ← (if jtruthy shas then
            shas ← py_list shas;
            ms ← image_markers shas;
            let markers := py_join (u " ") ms in
            mret (if jtruthy body then strip (markers ++ u " " ++ py_str body) else markers)
          else mret (py_str body));
  mret (Some (label ++ u ": " ++ text)).

(** [name if name else label]. *)
Definition label_of (name : option pystr) (label : string) : pystr :=
  match name with Some ((_ :: _) as s) => s | _ => u label end.

Fixpoint turn_lines (turns : list json) (user_label assistant_label : pystr) : res (list pystr) :=
  match turns with
  | [] => Ok []
  | t :: turns =>
      line ← format_turn_line t user_label assistant_label;
      rest ← turn_lines turns user_label assistant_label;
      mret (match line with Some l => l :: rest | None => rest end)
  end.

Definition format_transcript (turns : list json) (user_name assistant_name : option pystr) : res pystr :=
  lines ← turn_lines turns (label_of user_name "user") (label_of assistant_name "assistant");
  mret (py_join [10%N] lines).

(** ** Pieces *)

(** Texts put together, with line breaks, while they fit in [room]; [false] marks one
    that starts its own. *)
Fixpoint pack (room : Z) (parts : list (bool * pystr)) (current : option pystr) : list pystr :=
  match parts with
  | [] => option_list current
  | (joins, part) :: parts =>
      match current with
      | Some c => if (len c + 1 + len part <=? room)%Z && joins then pack room parts (Some (c ++ [10%N] ++ part))
                  else c :: pack room parts (Some part)
      | None => pack room parts (Some part)
      end
  end.

(** [line.partition(": ")]. *)
Fixpoint partition_label (s : pystr) : option (pystr * pystr) :=
  match s with
  | [] => None
  | c :: s' =>
      match s' with
      | d :: body => if (c =? 58)%N && (d =? 32)%N then Some ([], body)
                     else '(head, body) ← partition_label s'; Some (c :: head, body)
      | [] => None
      end
  end.

(** [body.split("\n")]. *)
Fixpoint split_nl (s : pystr) : list pystr :=
  match s with
  | [] => [[]]
  | c :: s => if (c =? 10)%N then [] :: split_nl s
              else match split_nl s with l :: ls => (c :: l) :: ls | [] => [[c]] end
  end.

(** [[s[i : i + room] for i in range(0, len(s), room)]]. *)
Fixpoint cut_every (fuel room : nat) (s : pystr) : list pystr :=
  match fuel, s with
  | S fuel, _ :: _ => take room s :: cut_every fuel room (drop room s)
  | _, _ => []
  end.

Definition body_parts (room : nat) (line : pystr) : list (bool * pystr) :=
  let parts := match cut_every (length line) room line with [] => [[]] | ps => ps end in
  map (pair (length parts =? 1)%nat) parts.

Definition split_line (line : pystr) (max_chars : Z) : list pystr :=
  let '(prefix, body) := match partition_label line with
                         | Some (head, body) => (head ++ u ": ", body)
                         | None => ([], line)
                         end in
  let room := Z.max 1 (max_chars - len prefix) in
  map (app prefix) (pack room (flat_map (body_parts (Z.to_nat room)) (split_nl body)) None).

Definition pieces (lines : list pystr) (max_chars : Z) : list pystr :=
  pack max_chars (map (pair true) (flat_map (fun line => if (len line <=? max_chars)%Z then [line] else split_line line max_chars) lines)) None.

(** ** Chunks *)
Record item := { it_row : json; it_line : pystr; it_stamp : option Z }.

Record chunk := { ch_turns : list json; ch_text : pystr; ch_cursor : option pystr; ch_oversize : bool; ch_pieces : list pystr }.

(** [lenient_utc(v)], and [lenient_utc(t.get("ts"))]. *)
Definition stamp_value (v : json) : option Z := match v with JStr s => lenient_utc s | _ => None end.
Definition stamp_of (t : json) : option Z := stamp_value (jget_none (u "ts") t).

Definition later (a b : option Z) : option Z :=
  match a, b with Some x, Some y => Some (if (x <? y)%Z then y else x) | None, b => b | a, None => a end.
Definition earlier (a b : option Z) : option Z :=
  match a, b with Some x, Some y => Some (if (y <? x)%Z then y else x) | None, b => b | a, None => a end.

Fixpoint suffix_min (l : list item) : option Z :=
  match l with [] => None | x :: l => earlier (suffix_min l) (it_stamp x) end.

Definition cut_allowed (speaker : json) (ts prefix_max suffix_min : option Z) : bool :=
  match ts, prefix_max, suffix_min with
  | Some _, Some p, Some s => jis_str (u "user") speaker && (p <? s)%Z
  | _, _, _ => false
  end.

Fixpoint units_from (prefix_max : option Z) (unit_ : list item) (l : list item) : list (list item) :=
  match l with
  | [] => [unit_]
  | x :: l' =>
      let next := later prefix_max (it_stamp x) in
      if cut_allowed (jget_none (u "speaker") (it_row x)) (it_stamp x) prefix_max (suffix_min l) then unit_ :: units_from next [x] l'
      else units_from next (unit_ ++ [x]) l'
  end.

Definition units (l : list item) : list (list item) :=
  match l with [] => [] | x :: l => units_from (it_stamp x) [x] l end.

Fixpoint sum_len (l : list item) : Z := match l with [] => 0 | x :: l => len (it_line x) + sum_len l end.
Definition group_length (l : list item) : Z := sum_len l + Z.of_nat (length l) - 1.

Fixpoint groups (max_chars : Z) (us : list (list item)) (current : list item) : list (list item) :=
  match us with
  | [] => match current with [] => [] | _ => [current] end
  | x :: us =>
      if negb (bool_decide (current = [])) && (max_chars <? group_length current + 1 + group_length x)%Z
      then current :: groups max_chars us x else groups max_chars us (current ++ x)
  end.

Fixpoint items_of (rows : list json) (user_label assistant_label : pystr) : res (list item) :=
  match rows with
  | [] => Ok []
  | t :: rows =>
      line ← format_turn_line t user_label assistant_label;
      rest ← items_of rows user_label assistant_label;
      mret ({| it_row := t; it_line := default [] line; it_stamp := stamp_of t |} :: rest)
  end.

(** The newest stamp up to here, and the text it was read from. *)
Definition newer (best : option (Z * pystr)) (x : item) : option (Z * pystr) :=
  match it_stamp x with
  | None => best
  | Some s => match best with
              | Some (n, raw) => if (n <? s)%Z then Some (s, py_str (jget_none (u "ts") (it_row x))) else best
              | None => Some (s, py_str (jget_none (u "ts") (it_row x)))
              end
  end.

Fixpoint chunks_of (max_chars : Z) (user_name assistant_name : option pystr) (gs : list (list item)) (best : option (Z * pystr)) : res (list chunk) :=
  match gs with
  | [] => Ok []
  | g :: gs =>
      let best := fold_left newer g best in
      text ← format_transcript (map it_row g) user_name assistant_name;
      let oversize := (max_chars <? len text)%Z in
      rest ← chunks_of max_chars user_name assistant_name gs best;
      mret ({| ch_turns := map it_row g; ch_text := text; ch_cursor := snd <$> best; ch_oversize := oversize;
               ch_pieces := if oversize then pieces (map it_line g) max_chars else [text] |} :: rest)
  end.

Definition chunk_turns (turns : list json) (max_chars : Z) (user_name assistant_name : option pystr) : res (list chunk) :=
  if (max_chars <=? 0)%Z then Err ValueError else
  let rows := List.filter (fun t => negb (speaker_is "summary" t)) turns in
  items ← items_of rows (label_of user_name "user") (label_of assistant_name "assistant");
  chunks_of max_chars user_name assistant_name (groups max_chars (units items) []) None.

(** ** Nothing is dropped, and cuts separate in time *)
Definition max_stamp (l : list item) : option Z := fold_left (fun m x => later m (it_stamp x)) l None.

Lemma max_stamp_snoc l x : max_stamp (l ++ [x]) = later (max_stamp l) (it_stamp x).
Proof. unfold max_stamp. by rewrite fold_left_app. Qed.

Lemma max_stamp_spec l : match max_stamp l with
  | Some m => (exists x, x ∈ l /\ it_stamp x = Some m) /\ forall x s, x ∈ l -> it_stamp x = Some s -> (s <= m)%Z
  | None => forall x, x ∈ l -> it_stamp x = None
  end.
Proof.
  induction l as [|x l IH] using rev_ind; [intros x Hx; by apply not_elem_of_nil in Hx|]. rewrite max_stamp_snoc.
  destruct (max_stamp l) as [m|], (it_stamp x) as [s|] eqn:Hx; cbn [later].
  - destruct IH as [(y & Hy & Hym) IH]. destruct (Z.ltb_spec m s); split.
    + exists x. split; [apply elem_of_app; right; by left|done].
    + intros z t [Hz| ->%list_elem_of_singleton]%elem_of_app Ht; [specialize (IH z t Hz Ht); lia|]. assert (t = s) by congruence. lia.
    + exists y. split; [apply elem_of_app; by left|done].
    + intros z t [Hz| ->%list_elem_of_singleton]%elem_of_app Ht; [by eapply IH|]. assert (t = s) by congruence. lia.
  - destruct IH as [(y & Hy & Hym) IH]. split; [exists y; split; [apply elem_of_app; by left|done]|].
    intros z t [Hz| ->%list_elem_of_singleton]%elem_of_app Ht; [by eapply IH|congruence].
  - split; [exists x; split; [apply elem_of_app; right; by left|done]|].
    intros z t [Hz| ->%list_elem_of_singleton]%elem_of_app Ht; [rewrite IH in Ht by done; done|]. assert (t = s) by congruence. lia.
  - intros z [Hz| ->%list_elem_of_singleton]%elem_of_app; [by apply IH|done].
Qed.

Lemma suffix_min_lower l m : suffix_min l = Some m -> forall x s, x ∈ l -> it_stamp x = Some s -> (m <= s)%Z.
Proof.
  revert m. induction l as [|x l IH]; intros m Hm y s Hy Hs; [by apply not_elem_of_nil in Hy|]. cbn [suffix_min] in Hm.
  apply elem_of_cons in Hy as [->|Hy].
  - rewrite Hs in Hm. destruct (suffix_min l) as [n|]; cbn in Hm; [|injection Hm as <-; done]. destruct (Z.ltb_spec s n); injection Hm as <-; lia.
  - destruct (suffix_min l) as [n|] eqn:Hn.
    + specialize (IH n eq_refl y s Hy Hs). destruct (it_stamp x) as [z|]; cbn in Hm; [|injection Hm as <-; done].
      destruct (Z.ltb_spec z n); injection Hm as <-; lia.
    + exfalso. assert (forall l', suffix_min l' = None -> y ∈ l' -> it_stamp y = None) as Hnone.
      { clear. induction l' as [|z l' IH]; intros Hl Hy; [by apply not_elem_of_nil in Hy|]. cbn in Hl.
        apply elem_of_cons in Hy as [->|Hy]; destruct (suffix_min l'), (it_stamp z) eqn:E; try done; by apply IH. }
      rewrite (Hnone l) in Hs by done. done.
Qed.

(** A cut after [l] and before [k]. *)
Record apart (l k : list item) : Prop := {
  ap_dated : is_Some (max_stamp l);
  ap_before : forall x y s t, x ∈ l -> y ∈ k -> it_stamp x = Some s -> it_stamp y = Some t -> (s < t)%Z;
  ap_question : exists y k', k = y :: k' /\ is_Some (it_stamp y) /\ jget_none (u "speaker") (it_row y) = JStr (u "user");
}.

Lemma cut_apart l x k : cut_allowed (jget_none (u "speaker") (it_row x)) (it_stamp x) (max_stamp l) (suffix_min (x :: k)) = true ->
  apart l (x :: k).
Proof.
  unfold cut_allowed. intros Hc. destruct (it_stamp x) as [s|] eqn:Hs; [|done]. pose proof (max_stamp_spec l) as Hmax.
  destruct (max_stamp l) as [p|] eqn:Hp; [|done]. destruct (suffix_min (x :: k)) as [m|] eqn:Hm; [|done].
  apply andb_true_iff in Hc as [Hu Hlt%Z.ltb_lt]. destruct Hmax as [_ Hmax]. split; [by rewrite Hp| |].
  - intros a b sa sb Ha Hb Hsa Hsb. specialize (Hmax a sa Ha Hsa). pose proof (suffix_min_lower _ _ Hm b sb Hb Hsb). lia.
  - exists x, k. split_and!; [done|by rewrite Hs|]. unfold jis_str in Hu.
    destruct (jget_none _ _); try discriminate Hu. apply bool_decide_eq_true in Hu. by subst.
Qed.

Lemma units_from_concat pm un l : concat (units_from pm un l) = un ++ l.
Proof.
  revert pm un. induction l as [|x l IH]; intros pm un; cbn [units_from concat]; [done|]. cbv zeta.
  destruct (cut_allowed _ _ _ _); cbn [concat]; rewrite IH; by rewrite <- ?(assoc_L (++)).
Qed.

Lemma units_concat l : concat (units l) = l.
Proof. destruct l as [|x l]; [done|]. unfold units. by rewrite units_from_concat. Qed.

Lemma units_from_nonempty pm un l : un <> [] -> Forall (fun v => v <> []) (units_from pm un l).
Proof.
  revert pm un. induction l as [|x l IH]; intros pm un Hu; cbn [units_from]; [by constructor|]. cbv zeta.
  destruct (cut_allowed _ _ _ _); [constructor; [done|]|]; apply IH; [done|]. by destruct un.
Qed.

Lemma units_nonempty l : Forall (fun v => v <> []) (units l).
Proof. destruct l as [|x l]; [constructor|]. by apply units_from_nonempty. Qed.

Lemma units_from_apart done_ un l us vs : us <> [] -> vs <> [] ->
  units_from (max_stamp (done_ ++ un)) un l = us ++ vs -> apart (done_ ++ concat us) (concat vs).
Proof.
  revert done_ un us. induction l as [|x l IH]; intros done_ un us Hus Hvs Heq; cbn [units_from] in Heq.
  { destruct us as [|w us]; [done|]. injection Heq as _ Hn. destruct us; [|done]. cbn in Hn. by subst vs. }
  cbv zeta in Heq. rewrite <- max_stamp_snoc in Heq. destruct (cut_allowed _ _ _ _) eqn:Hcut.
  - destruct us as [|w us]; [done|]. cbn [app] in Heq. injection Heq as <- Heq. cbn [concat].
    destruct (decide (us = [])) as [->|Hne].
    + cbn [app] in Heq. subst vs. rewrite units_from_concat. cbn [concat app]. rewrite app_nil_r. by apply cut_apart.
    + rewrite (assoc_L (++)). by apply (IH (done_ ++ un) [x]).
  - rewrite <- (assoc_L (++)) in Heq. by apply (IH done_ (un ++ [x])).
Qed.

Lemma units_apart l us vs : us <> [] -> vs <> [] -> units l = us ++ vs -> apart (concat us) (concat vs).
Proof. destruct l as [|x l]; [by destruct us|]. intros Hus Hvs Heq. by apply (units_from_apart [] [x] l). Qed.

Lemma groups_split m us cur gs hs : groups m us cur = gs ++ hs -> gs <> [] -> hs <> [] -> Forall (fun v => v <> []) us ->
  exists us1 us2, us = us1 ++ us2 /\ cur ++ concat us1 = concat gs /\ concat us2 = concat hs /\ us2 <> [].
Proof.
  revert cur gs. induction us as [|x us IH]; intros cur gs Hg Hgs Hhs Hne; cbn [groups] in Hg.
  { destruct gs as [|g gs]; [done|]. destruct cur; [done|]. injection Hg as _ Hn. destruct gs; [|done]. cbn in Hn. by subst hs. }
  apply Forall_cons in Hne as [Hx Hne]. destruct (negb _ && _).
  - destruct gs as [|g gs]; [done|]. cbn [app] in Hg. injection Hg as <- Hg. destruct (decide (gs = [])) as [->|Hgs'].
    + cbn [app] in Hg. exists [], (x :: us). split_and!; [done|cbn; by rewrite app_nil_r|cbn [concat]|done].
      assert (forall us cur, concat (groups m us cur) = cur ++ concat us) as Hc.
      { clear. induction us as [|x us IH]; intros cur; cbn [groups concat]; [by destruct cur|].
        destruct (negb _ && _); cbn [concat]; rewrite IH; by rewrite ?(assoc_L (++)). }
      by rewrite <- Hg, Hc.
    + destruct (IH x gs Hg Hgs' Hhs Hne) as (us1 & us2 & -> & Hc1 & Hc2 & Hn). exists (x :: us1), us2.
      split_and!; [done|cbn [concat]; by rewrite Hc1|done|done].
  - destruct (IH (cur ++ x) gs Hg Hgs Hhs Hne) as (us1 & us2 & -> & Hc1 & Hc2 & Hn). exists (x :: us1), us2.
    split_and!; [done|cbn [concat]; by rewrite (assoc_L (++))|done|done].
Qed.

Lemma newest_spec l : fst <$> fold_left newer l None = max_stamp l /\
  forall s raw, fold_left newer l None = Some (s, raw) -> exists x, x ∈ l /\ it_stamp x = Some s /\ raw = py_str (jget_none (u "ts") (it_row x)).
Proof.
  induction l as [|x l [IH1 IH2]] using rev_ind; [done|]. rewrite fold_left_app, max_stamp_snoc. cbn [fold_left]. rewrite <- IH1.
  set (best := fold_left newer l None) in *. clearbody best. unfold newer. destruct best as [[n raw0]|], (it_stamp x) as [s|] eqn:Hx; cbn.
  - destruct (n <? s)%Z; (split; [done|]); intros s' raw Hr; injection Hr as <- <-.
    + exists x. split_and!; [apply elem_of_app; right; by left|done|done].
    + destruct (IH2 _ _ eq_refl) as (y & Hy & ? & ?). exists y. split_and!; [apply elem_of_app; by left|done|done].
  - split; [done|]. intros s' raw Hr. destruct (IH2 _ _ Hr) as (y & Hy & ? & ?). exists y. split_and!; [apply elem_of_app; by left|done|done].
  - split; [done|]. intros s' raw Hr. injection Hr as <- <-. exists x. split_and!; [apply elem_of_app; right; by left|done|done].
  - done.
Qed.

Lemma items_spec rows ul al items : items_of rows ul al = Ok items ->
  map it_row items = rows /\ Forall (fun x => it_stamp x = stamp_of (it_row x) /\
                                              exists line, format_turn_line (it_row x) ul al = Ok line /\ it_line x = default [] line) items.
Proof.
  revert items. induction rows as [|t rows IH]; intros items Hi; cbn [items_of] in Hi; [by injection Hi as <-|].
  destruct (format_turn_line t ul al) as [line|] eqn:Hl; [|done]. cbn [mbind res_bind] in Hi.
  destruct (items_of rows ul al) as [rest|]; [|done]. injection Hi as <-. destruct (IH rest eq_refl) as [<- Hf].
  split; [done|]. constructor; [|done]. cbn. eauto.
Qed.

Lemma chunks_spec m un an gs best cs : chunks_of m un an gs best = Ok cs ->
  map ch_turns cs = map (map it_row) gs /\
  forall l1 c l2, cs = l1 ++ c :: l2 -> exists g1 g g2, gs = g1 ++ g :: g2 /\
    map ch_turns (l1 ++ [c]) = map (map it_row) (g1 ++ [g]) /\ map ch_turns l2 = map (map it_row) g2 /\
    ch_cursor c = snd <$> fold_left newer (concat (g1 ++ [g])) best.
Proof.
  revert best cs. induction gs as [|g gs IH]; intros best cs Hc; cbn [chunks_of] in Hc.
  { injection Hc as <-. split; [done|]. intros l1 c l2 Hn. by destruct l1. }
  cbv zeta in Hc. destruct (format_transcript _ _ _) as [text|]; [|done]. cbn [mbind res_bind] in Hc.
  destruct (chunks_of _ _ _ gs _) as [rest|] eqn:Hrest; [|done]. cbn [mbind res_bind] in Hc. injection Hc as <-.
  destruct (IH _ _ Hrest) as [Hmap Hsplit]. split; [cbn; by rewrite Hmap|]. intros l1 c l2 Heq. destruct l1 as [|c0 l1]; injection Heq as Hc0 Heq.
  - subst. exists [], g, gs. cbn [app map concat ch_turns ch_cursor]. rewrite app_nil_r. split_and!; try done.
  - subst. destruct (Hsplit l1 c l2 eq_refl) as (g1 & g' & g2 & -> & H1 & H2 & H3). exists (g :: g1), g', g2.
    split_and!; [done| |done|].
    + cbn [app map ch_turns]. by rewrite H1.
    + cbn [app concat]. by rewrite fold_left_app.
Qed.

Lemma groups_concat m us cur : concat (groups m us cur) = cur ++ concat us.
Proof.
  revert cur. induction us as [|x us IH]; intros cur; cbn [groups concat]; [by destruct cur|].
  destruct (negb _ && _); cbn [concat]; rewrite IH; by rewrite ?(assoc_L (++)).
Qed.

Lemma groups_nonempty m us cur : Forall (fun v => v <> []) us -> Forall (fun g => g <> []) (groups m us cur).
Proof.
  intros Hus. revert cur. induction Hus as [|x us Hx _ IH]; intros cur; cbn [groups]; [destruct cur; by repeat constructor|].
  destruct (negb _) eqn:Hc; cbn [andb]; [|apply IH]. destruct (_ <? _)%Z; [|apply IH]. constructor; [|apply IH].
  apply negb_true_iff, bool_decide_eq_false in Hc. done.
Qed.

(** The chunks of a run of rows. *)
Lemma chunks_in_time turns max_chars user_name assistant_name cs :
  chunk_turns turns max_chars user_name assistant_name = Ok cs ->
  concat (map ch_turns cs) = List.filter (fun t => negb (speaker_is "summary" t)) turns /\
  Forall (fun c => ch_turns c <> []) cs /\
  forall l1 c l2, cs = l1 ++ c :: l2 -> l2 <> [] ->
    let before := concat (map ch_turns (l1 ++ [c])) in
    let after := concat (map ch_turns l2) in
    exists t s, t ∈ before /\ stamp_of t = Some s /\ ch_cursor c = Some (py_str (jget_none (u "ts") t)) /\
      (forall t' s', t' ∈ before -> stamp_of t' = Some s' -> (s' <= s)%Z) /\
      (forall t' s', t' ∈ after -> stamp_of t' = Some s' -> (s < s')%Z) /\
      exists q rest, after = q :: rest /\ jget_none (u "speaker") q = JStr (u "user").
Proof.
  unfold chunk_turns. destruct (_ <=? _)%Z; [done|]. set (rows := List.filter _ turns).
  destruct (items_of rows _ _) as [items|] eqn:Hi; [|done]. cbn [mbind res_bind]. intros Hcs.
  destruct (items_spec _ _ _ _ Hi) as [Hrows Hitems]. destruct (chunks_spec _ _ _ _ _ _ Hcs) as [Hmap Hsplit].
  set (gs := groups max_chars (units items) []) in *. assert (concat gs = items) as Hgs by (unfold gs; by rewrite groups_concat, units_concat).
  split; [|split].
  - by rewrite Hmap, <- concat_map, Hgs, Hrows.
  - apply (Forall_fmap ch_turns (fun g => g <> [])). change (ch_turns <$> cs) with (map ch_turns cs). rewrite Hmap. apply Forall_map.
    eapply Forall_impl; [apply groups_nonempty, units_nonempty|]. intros g Hg. by destruct g.
  - intros l1 c l2 Heq Hl2. cbv zeta. destruct (Hsplit l1 c l2 Heq) as (g1 & g & g2 & Hg & H1 & H2 & Hcur).
    rewrite H1, H2, <- !concat_map.
    destruct (groups_split max_chars (units items) [] (g1 ++ [g]) g2) as (us1 & us2 & Hus & Hc1 & Hc2 & Hu2);
      [by rewrite <- (assoc_L (++))|by destruct g1|by destruct g2, l2|apply units_nonempty|]. cbn [app] in Hc1.
    assert (us1 <> []) as Hu1.
    { intros ->. pose proof (groups_nonempty max_chars (units items) [] (units_nonempty items)) as Hne. change (groups _ _ _) with gs in Hne.
      rewrite Hg in Hne. apply Forall_app in Hne as [_ Hne]. apply Forall_cons in Hne as [Hne _]. apply Hne.
      rewrite concat_app in Hc1. symmetry in Hc1. apply app_nil in Hc1 as [_ Hc1]. cbn in Hc1. by rewrite app_nil_r in Hc1. }
    destruct (units_apart items us1 us2 Hu1 Hu2 Hus) as [Hdated Hbefore Hquestion]. rewrite Hc1, Hc2 in *.
    destruct (newest_spec (concat (g1 ++ [g]))) as [Hmax Hnewest]. rewrite <- Hmax in Hdated.
    destruct (fold_left newer (concat (g1 ++ [g])) None) as [[s raw]|] eqn:Hf; [|by destruct Hdated].
    destruct (Hnewest s raw eq_refl) as (x & Hx & Hxs & ->).
    assert (forall y, y ∈ concat gs -> it_stamp y = stamp_of (it_row y)) as Hst.
    { intros y Hy. rewrite Hgs in Hy. apply (proj1 (Forall_forall _ _) Hitems y Hy). }
    assert (concat gs = concat (g1 ++ [g]) ++ concat g2) as Hsp by (by rewrite Hg, <- concat_app, <- (assoc_L (++))).
    assert (forall y, y ∈ concat (g1 ++ [g]) -> it_stamp y = stamp_of (it_row y)) as Hst1 by (intros; apply Hst; rewrite Hsp; apply elem_of_app; by left).
    assert (forall y, y ∈ concat g2 -> it_stamp y = stamp_of (it_row y)) as Hst2 by (intros; apply Hst; rewrite Hsp; apply elem_of_app; by right).
    exists (it_row x), s. split_and!.
    + by apply list_elem_of_fmap_2.
    + by rewrite <- Hst1.
    + by rewrite Hcur.
    + intros t' s' (y & -> & Hy)%list_elem_of_fmap Hs'. rewrite <- Hst1 in Hs' by done. pose proof (max_stamp_spec (concat (g1 ++ [g]))) as Hms.
      rewrite <- Hmax in Hms. cbn in Hms. destruct Hms as [_ Hms]. by eapply Hms.
    + intros t' s' (y & -> & Hy)%list_elem_of_fmap Hs'. rewrite <- Hst2 in Hs' by done. by eapply Hbefore.
    + destruct Hquestion as (y & k' & -> & _ & Hq). by exists (it_row y), (map it_row k').
Qed.

(** C13: chunking loses nothing and cuts safely.  The chunks of a run of rows, put
    together, are exactly the rows that are not summaries, in order, and none is
    empty; and wherever a chunk ends before another, its cursor is the text of
    the stamp of one of the rows up to there, no row up to there is dated later,
    every dated row after it is dated strictly later, and the next chunk begins with
    a question of the user: the reader of the next pass, which takes what is later
    than the cursor, neither repeats nor skips a dated row. *)
Theorem chunks_partition_in_time turns max_chars user_name assistant_name cs :
  chunk_turns turns max_chars user_name assistant_name = Ok cs ->
  concat (map ch_turns cs) = List.filter (fun t => negb (speaker_is "summary" t)) turns /\
  Forall (fun c => ch_turns c <> []) cs /\
  forall l1 c l2, cs = l1 ++ c :: l2 -> l2 <> [] ->
    let before := concat (map ch_turns (l1 ++ [c])) in
    let after := concat (map ch_turns l2) in
    exists t s, t ∈ before /\ stamp_of t = Some s /\ ch_cursor c = Some (py_str (jget_none (u "ts") t)) /\
      (forall t' s', t' ∈ before -> stamp_of t' = Some s' -> (s' <= s)%Z) /\
      (forall t' s', t' ∈ after -> stamp_of t' = Some s' -> (s < s')%Z) /\
      exists q rest, after = q :: rest /\ jget_none (u "speaker") q = JStr (u "user").
Proof. apply chunks_in_time. Qed.

(** ** Sizes, and the text of the pieces *)

(** A text without its line breaks. *)
Definition solid (s : pystr) : pystr := List.filter (fun c => negb (c =? 10)%N) s.

Lemma solid_app s t : solid (s ++ t) = solid s ++ solid t.
Proof. apply List.filter_app. Qed.

Lemma pack_fits room parts cur : Forall (fun p => (len p.2 <= room)%Z) parts -> match cur with Some c => (len c <= room)%Z | None => True end ->
  Forall (fun s => (len s <= room)%Z) (pack room parts cur).
Proof.
  intros Hp. revert cur. induction Hp as [|[joins part] parts Hpart _ IH]; intros cur Hcur; cbn [pack].
  { destruct cur; by repeat constructor. }
  destruct cur as [c|]; [|by apply IH]. destruct (Z.leb_spec (len c + 1 + len part) room); cbn [andb]; [destruct joins|constructor; [done|by apply IH]].
  - apply IH. unfold len in *. rewrite !length_app. cbn [length]. lia.
  - constructor; [done|by apply IH].
Qed.

Lemma pack_keeps room parts cur :
  concat (map solid (pack room parts cur)) = solid (default [] cur) ++ concat (map (fun p => solid p.2) parts).
Proof.
  revert cur. induction parts as [|[joins part] parts IH]; intros cur; cbn [pack map concat].
  { destruct cur; cbn; by rewrite ?app_nil_r. }
  destruct cur as [c|]; [|by rewrite IH]. destruct (_ && joins); cbn [map concat]; rewrite IH; cbn [default snd]; [|done].
  cbn [from_option id]. rewrite !solid_app. change (solid [10%N]) with (@nil N). cbn [app]. by rewrite (assoc_L (++)).
Qed.

Lemma cut_every_spec fuel room s : (1 <= room)%nat -> (length s <= fuel)%nat ->
  concat (cut_every fuel room s) = s /\ Forall (fun p => (length p <= room)%nat) (cut_every fuel room s).
Proof.
  intros Hr. revert s. induction fuel as [|fuel IH]; intros s Hf; [destruct s; [done|simpl in Hf; lia]|].
  destruct s as [|c s]; [done|]. cbn [cut_every concat]. destruct (IH (drop room (c :: s))) as [Hc Hl].
  { rewrite length_drop. simpl in *. lia. }
  rewrite Hc, take_drop. split; [done|]. constructor; [rewrite length_take; lia|done].
Qed.

Lemma body_parts_spec room line : (1 <= room)%nat ->
  concat (map snd (body_parts room line)) = line /\ Forall (fun p => (length p.2 <= room)%nat) (body_parts room line).
Proof.
  intros Hr. destruct (cut_every_spec (length line) room line Hr (le_n _)) as [Hc Hl]. unfold body_parts.
  set (parts := match cut_every (length line) room line with [] => [[]] | ps => ps end).
  assert (concat parts = line /\ Forall (fun p => (length p <= room)%nat) parts) as [H1 H2].
  { unfold parts. destruct (cut_every (length line) room line); [|done]. split; [done|]. constructor; [simpl; lia|constructor]. }
  rewrite map_map. cbn [snd]. rewrite map_id. split; [done|]. by apply Forall_map.
Qed.

Lemma split_nl_solid s : concat (map solid (split_nl s)) = solid s.
Proof.
  induction s as [|c s IH]; [done|]. cbn [split_nl]. unfold solid at 2. cbn [List.filter]. fold (solid s). rewrite <- IH.
  destruct (c =? 10)%N eqn:E; [done|]. destruct (split_nl s) as [|l ls]; cbn [map concat negb]; unfold solid at 1; cbn [List.filter]; rewrite E; done.
Qed.

Lemma solid_concat ls : solid (concat ls) = concat (map solid ls).
Proof. induction ls as [|l ls IH]; [done|]. cbn [concat map]. by rewrite solid_app, IH. Qed.

(** The label a split row repeats. *)
Definition prefix_of_line (line : pystr) : pystr :=
  match partition_label line with Some (head, _) => head ++ u ": " | None => [] end.

Lemma partition_label_spec s head body : partition_label s = Some (head, body) -> s = head ++ u ": " ++ body.
Proof.
  revert head. induction s as [|c s IH]; intros head Hp; [done|]. cbn [partition_label] in Hp. destruct s as [|d s]; [done|].
  destruct ((c =? 58)%N && (d =? 32)%N) eqn:E.
  - apply andb_true_iff in E as [->%N.eqb_eq ->%N.eqb_eq]. by injection Hp as <- <-.
  - destruct (partition_label (d :: s)) as [[h b]|]; [|done]. cbn [mbind option_bind] in Hp. injection Hp as <- <-.
    by rewrite (IH h eq_refl).
Qed.

(** Segments of one row: its label before parts of its body that together are the body. *)
Definition segments_of (line : pystr) (segs : list pystr) : Prop :=
  exists prefix bodies body, line = prefix ++ body /\ segs = map (app prefix) bodies /\ concat (map solid bodies) = solid body.

Lemma split_line_spec line max_chars :
  segments_of line (split_line line max_chars) /\
  ((len (prefix_of_line line) < max_chars)%Z -> Forall (fun s => (len s <= max_chars)%Z) (split_line line max_chars)).
Proof.
  unfold split_line, prefix_of_line. assert (exists prefix body, line = prefix ++ body /\
    (match partition_label line with Some (head, body) => (head ++ u ": ", body) | None => ([], line) end) = (prefix, body) /\
    (match partition_label line with Some (head, _) => head ++ u ": " | None => [] end) = prefix) as (prefix & body & Hline & -> & ->).
  { destruct (partition_label line) as [[head body]|] eqn:Hp; [|by exists [], line]. exists (head ++ u ": "), body. split_and!; try done.
    rewrite <- (assoc_L (++)). by apply partition_label_spec. }
  set (room := Z.max 1 (max_chars - len prefix)). set (parts := flat_map _ (split_nl body)).
  assert (concat (map (fun p => solid p.2) parts) = solid body /\ Forall (fun p => (len p.2 <= room)%Z) parts) as [Hk Hf].
  { unfold parts. rewrite <- split_nl_solid. induction (split_nl body) as [|l ls [IH1 IH2]]; [done|]. cbn [flat_map map concat].
    destruct (body_parts_spec (Z.to_nat room) l) as [H1 H2]; [lia|]. split.
    - rewrite map_app, concat_app, IH1. f_equal. rewrite <- H1 at 2. rewrite solid_concat, map_map. done.
    - apply Forall_app. split; [|done]. eapply Forall_impl; [exact H2|]. intros q Hq. cbv beta in *. unfold len. lia. }
  clearbody parts. split.
  - exists prefix, (pack room parts None), body. split_and!; [done..|]. by rewrite pack_keeps, Hk.
  - intros Hlen. apply Forall_map. eapply Forall_impl; [by apply (pack_fits room)|]. intros s Hs. cbv beta in *. unfold len in *.
    rewrite length_app. lia.
Qed.

Lemma pieces_spec lines max_chars :
  (exists segs, Forall2 (fun line ss => ss = [line] \/ segments_of line ss) lines segs /\
     concat (map solid (pieces lines max_chars)) = concat (map solid (concat segs))) /\
  (Forall (fun line => (len (prefix_of_line line) < max_chars)%Z) lines -> Forall (fun s => (len s <= max_chars)%Z) (pieces lines max_chars)).
Proof.
  unfold pieces. set (f := fun line => if (len line <=? max_chars)%Z then [line] else split_line line max_chars). split.
  - exists (map f lines). split.
    + induction lines as [|line lines IH]; constructor; [|done]. unfold f. destruct (_ <=? _)%Z; [by left|right; apply split_line_spec].
    + rewrite pack_keeps. cbn [default from_option]. cbn [app]. rewrite map_map. by rewrite flat_map_concat_map.
  - intros Hl. apply pack_fits; [|done]. apply Forall_map. cbn [snd]. induction Hl as [|line lines Hline _ IH]; [constructor|].
    cbn [flat_map]. apply Forall_app. split; [|done]. unfold f. destruct (Z.leb_spec (len line) max_chars); [by repeat constructor|].
    by apply split_line_spec.
Qed.

Lemma lines_join_length lines : lines <> [] ->
  len (py_join [10%N] lines) = (fold_right (fun l n => len l + n) 0 lines + Z.of_nat (length lines) - 1)%Z.
Proof.
  induction lines as [|l lines IH]; [done|]. intros _. destruct lines as [|l' lines]; [cbn; lia|].
  change (py_join [10%N] (l :: l' :: lines)) with (l ++ [10%N] ++ py_join [10%N] (l' :: lines)).
  specialize (IH ltac:(done)). cbn [fold_right] in *. unfold len in *. rewrite !length_app. cbn [length] in *. lia.
Qed.

Lemma group_text g : g <> [] -> len (py_join [10%N] (map it_line g)) = group_length g.
Proof.
  intros Hg. rewrite lines_join_length by (by destruct g). rewrite length_map. unfold group_length. f_equal. f_equal.
  clear Hg. induction g as [|x g IH]; [done|]. cbn [map fold_right sum_len]. by rewrite IH.
Qed.

Lemma group_length_app g h : group_length (g ++ h) = (group_length g + 1 + group_length h)%Z.
Proof.
  unfold group_length. rewrite length_app. assert (sum_len (g ++ h) = (sum_len g + sum_len h)%Z) as ->; [|lia].
  induction g as [|x g IH]; cbn [app sum_len]; lia.
Qed.

(** A group is one unit, or fits the limit. *)
Lemma groups_fit m (all us : list (list item)) cur : (forall x, x ∈ us -> x ∈ all) -> (cur = [] \/ cur ∈ all \/ (group_length cur <= m)%Z) ->
  forall g, g ∈ groups m us cur -> g ∈ all \/ (group_length g <= m)%Z.
Proof.
  revert cur. induction us as [|x us IH]; intros cur Hsub Hcur g Hg; cbn [groups] in Hg.
  { destruct cur; [by apply not_elem_of_nil in Hg|]. apply list_elem_of_singleton in Hg as ->. by destruct Hcur. }
  assert (x ∈ all) as Hx by (apply Hsub; by left). assert (forall y, y ∈ us -> y ∈ all) as Hsub' by (intros; apply Hsub; by right).
  destruct (decide (cur = [])) as [->|Hc].
  - rewrite bool_decide_eq_true_2 in Hg by done. cbn [negb andb app] in Hg. apply (IH x); auto.
  - rewrite bool_decide_eq_false_2 in Hg by done. cbn [negb andb] in Hg.
    destruct (Z.ltb_spec m (group_length cur + 1 + group_length x)).
    + apply elem_of_cons in Hg as [->|Hg]; [by destruct Hcur|]. apply (IH x); auto.
    + apply (IH (cur ++ x)); [done| |done]. right; right. by rewrite group_length_app.
Qed.

Lemma plain_row_line t ul al line : speaker_is "summary" t = false -> format_turn_line t ul al = Ok line -> is_Some line.
Proof.
  unfold speaker_is, format_turn_line, get_str, jget_none. intros Hs Hl.
  assert (jis_str (u "summary") (default (JStr (u "?")) (jget (u "speaker") t)) = false) as Hn by (by destruct (jget (u "speaker") t)).
  rewrite Hn in Hl. match type of Hl with mbind _ ?m = _ => destruct m end; [|done]. injection Hl as <-. by eexists.
Qed.

Lemma group_transcript ul al g : Forall (fun x => speaker_is "summary" (it_row x) = false /\
    exists line, format_turn_line (it_row x) ul al = Ok line /\ it_line x = default [] line) g ->
  turn_lines (map it_row g) ul al = Ok (map it_line g).
Proof.
  induction 1 as [|x g (Hs & line & Hl & Hx) _ IH]; [done|]. cbn [map turn_lines]. rewrite Hl, IH. cbn [mbind res_bind].
  destruct (plain_row_line _ _ _ _ Hs Hl) as [l ->]. cbn in Hx. by rewrite Hx.
Qed.

Lemma chunks_texts m un an gs best cs : chunks_of m un an gs best = Ok cs ->
  Forall2 (fun g c => ch_turns c = map it_row g /\ format_transcript (map it_row g) un an = Ok (ch_text c) /\
    ch_oversize c = (m <? len (ch_text c))%Z /\ ch_pieces c = if ch_oversize c then pieces (map it_line g) m else [ch_text c]) gs cs.
Proof.
  revert best cs. induction gs as [|g gs IH]; intros best cs Hc; cbn [chunks_of] in Hc; [injection Hc as <-; constructor|].
  cbv zeta in Hc. destruct (format_transcript _ _ _) as [text|] eqn:Ht; [|done]. cbn [mbind res_bind] in Hc.
  destruct (chunks_of _ _ _ gs _) as [rest|] eqn:Hrest; [|done]. cbn [mbind res_bind] in Hc. injection Hc as <-.
  constructor; [cbn; by rewrite Ht|]. by eapply IH.
Qed.

(** C36: what is sent to the extractor fits the limit and says everything.  A chunk
    within the limit is one piece, its transcript.  A longer chunk is a single unit,
    a question with its answers that no safe cut divides; its pieces hold, in
    order, all of its text but line breaks, each row whole or as parts that repeat
    the row's label, and none is longer than the limit as long as each row's label is
    shorter than the limit. *)
Theorem pieces_fit_and_say_all turns max_chars user_name assistant_name cs :
  chunk_turns turns max_chars user_name assistant_name = Ok cs ->
  Forall (fun c => exists lines, ch_text c = py_join [10%N] lines /\ length lines = length (ch_turns c) /\
    if ch_oversize c then
      (exists items unit_, unit_ ∈ units items /\ ch_turns c = map it_row unit_ /\ lines = map it_line unit_) /\
      (exists segs, Forall2 (fun line ss => ss = [line] \/ segments_of line ss) lines segs /\
         concat (map solid (ch_pieces c)) = concat (map solid (concat segs))) /\
      (Forall (fun line => (len (prefix_of_line line) < max_chars)%Z) lines -> Forall (fun s => (len s <= max_chars)%Z) (ch_pieces c))
    else ch_pieces c = [ch_text c] /\ (len (ch_text c) <= max_chars)%Z) cs.
Proof.
  unfold chunk_turns. destruct (_ <=? _)%Z; [done|]. set (rows := List.filter _ turns).
  destruct (items_of rows _ _) as [items|] eqn:Hi; [|done]. cbn [mbind res_bind]. intros Hcs.
  destruct (items_spec _ _ _ _ Hi) as [Hrows Hitems]. apply chunks_texts in Hcs. set (gs := groups max_chars (units items) []) in *.
  assert (concat gs = items) as Hgs by (unfold gs; by rewrite groups_concat, units_concat).
  assert (Forall (fun x => speaker_is "summary" (it_row x) = false /\
    exists line, format_turn_line (it_row x) (label_of user_name "user") (label_of assistant_name "assistant") = Ok line /\ it_line x = default [] line) items) as Hall.
  { apply Forall_forall. intros x Hx. pose proof (proj1 (Forall_forall _ _) Hitems x Hx) as (_ & line & ? & ?). split; [|eauto].
    assert (it_row x ∈ rows) as Hin by (rewrite <- Hrows; by apply list_elem_of_fmap_2).
    unfold rows in Hin. apply list_elem_of_In, filter_In in Hin as [_ Hin]. by apply negb_true_iff in Hin. }
  assert (forall g, g ∈ gs -> g <> [] /\ (g ∈ units items \/ (group_length g <= max_chars)%Z) /\ forall x, x ∈ g -> x ∈ items) as Hg.
  { intros g Hin. split_and!.
    - by apply (proj1 (Forall_forall _ _) (groups_nonempty max_chars (units items) [] (units_nonempty items)) g).
    - by apply (groups_fit max_chars (units items) (units items) []); [|left|].
    - intros x Hx. rewrite <- Hgs. apply list_elem_of_In, in_concat. exists g. by split; apply list_elem_of_In. }
  clearbody gs. clear Hgs. induction Hcs as [|g c gs cs (Ht & Hf & Ho & Hp) _ IH]; [constructor|].
  constructor; [|apply IH; intros g' Hg'; apply Hg; by right]. clear IH.
  destruct (Hg g) as (Hne & Hfit & Hin); [by left|].
  assert (ch_text c = py_join [10%N] (map it_line g)) as Htext.
  { unfold format_transcript in Hf. rewrite group_transcript in Hf; [by injection Hf as <-|]. apply Forall_forall. intros x Hx.
    by apply (proj1 (Forall_forall _ _) Hall x), Hin. }
  exists (map it_line g). split_and!; [done|by rewrite Ht, !length_map|].
  pose proof (group_text g Hne) as Hlen. rewrite <- Htext in Hlen. rewrite Hp, Ho. destruct (Z.ltb_spec max_chars (len (ch_text c))); [|done].
  split; [|apply pieces_spec]. exists items, g. split_and!; [|done..]. destruct Hfit; [done|lia].
Qed.
End chunks.

#[local] Existing Instance ascii_pylib.

(** Two exchanges of which the second is too long for a limit of twenty characters. *)
Definition small_talk : list json :=
  let row sp text ts := JObj [(u "speaker", JStr (u sp)); (u "text", JStr (u text)); (u "ts", JStr (u ts))] in
  [row "user" "hi" "2026-03-01T10:00:00Z"; row "assistant" "hello" "2026-03-01T10:00:01Z";
   row "user" "tell me a long story" "2026-03-01T10:05:00Z"; row "assistant" "no" "2026-03-01T10:05:02Z"].

Definition small_chunks : list chunk := match chunk_turns small_talk 25 None None with Ok cs => cs | Err _ => [] end.

Lemma chunks_partition_in_time_witness : length small_chunks = 2%nat /\ concat (map ch_turns small_chunks) = small_talk.
Proof.
  split; [vm_compute; reflexivity|].
  destruct (chunks_partition_in_time small_talk 25 None None small_chunks) as (Hc & _); [vm_compute; reflexivity|exact Hc].
Defined.

Lemma pieces_fit_and_say_all_witness : map (fun c => length (ch_pieces c)) small_chunks = [1; 2]%nat /\
  Forall (fun c => exists lines, ch_text c = py_join [10%N] lines /\ length lines = length (ch_turns c)) small_chunks.
Proof.
  split; [vm_compute; reflexivity|]. eapply Forall_impl.
  - apply (pieces_fit_and_say_all small_talk 25 None None small_chunks). vm_compute. reflexivity.
  - intros c (lines & H1 & H2 & _). exists lines. split; [exact H1|exact H2].
Defined.
