(* ===== verification/ChunkFacts.v ===== *)
(** Chunking starts again where it stopped: the chunks of the rows after a cut are the
    later chunks, those of the rows before it the earlier ones, so a pass that resumes
    after the cursor, or one that sets a failing chunk aside, meets the same chunks. *)
From S2P Require Import Prelude PyFloat PyTime Json Crypto Protocol PyVal Buffer Compaction Chunks.

Section rechunk.
Context `{PyLib}.

(** ** Units *)
Lemma later_fresh p s : (p < s)%Z -> later (Some p) (Some s) = Some s.
Proof. intros Hlt. cbn. by rewrite (proj2 (Z.ltb_lt _ _)). Qed.

(** After a cut the loop is as at the start. *)
Lemma cut_restarts pm x k : cut_allowed (jget_none (u "speaker") (it_row x)) (it_stamp x) pm (suffix_min (x :: k)) = true ->
  units_from (later pm (it_stamp x)) [x] k = units (x :: k).
Proof.
  unfold cut_allowed. destruct (it_stamp x) as [s|] eqn:Hs; [|done]. destruct pm as [p|]; [|done].
  destruct (suffix_min (x :: k)) as [m|] eqn:Hm; [|done]. intros [_ Hlt%Z.ltb_lt]%andb_true_iff.
  pose proof (suffix_min_lower _ _ Hm x s (list_elem_of_here _ _) Hs). unfold units. by rewrite Hs, later_fresh by lia.
Qed.

Lemma units_from_suffix pm un l us vs : us <> [] -> vs <> [] -> units_from pm un l = us ++ vs -> units (concat vs) = vs.
Proof.
  revert pm un us. induction l as [|x l IH]; intros pm un us Hus Hvs Heq; cbn [units_from] in Heq.
  { destruct us as [|w us]; [done|]. injection Heq as _ Hn. destruct us; [|done]. cbn in Hn. by subst vs. }
  cbv zeta in Heq. destruct (cut_allowed _ _ _ _) eqn:Hcut; [|exact (IH _ _ us Hus Hvs Heq)].
  destruct us as [|w us]; [done|]. cbn [app] in Heq. injection Heq as _ Heq. destruct (decide (us = [])) as [->|Hne]; [|exact (IH _ _ us Hne Hvs Heq)].
  cbn [app] in Heq. subst vs. rewrite (cut_restarts _ _ _ Hcut). by rewrite units_concat.
Qed.

Lemma suffix_min_spec l : match suffix_min l with
  | Some m => (exists x, x ∈ l /\ it_stamp x = Some m) /\ forall x s, x ∈ l -> it_stamp x = Some s -> (m <= s)%Z
  | None => forall x, x ∈ l -> it_stamp x = None
  end.
Proof.
  induction l as [|x l IH]; [intros x Hx; by apply not_elem_of_nil in Hx|]. cbn [suffix_min].
  destruct (suffix_min l) as [m|], (it_stamp x) as [s|] eqn:Hx; cbn [earlier].
  - destruct IH as [(y & Hy & Hym) IH]. destruct (Z.ltb_spec s m); split.
    + exists x. split; [by left|done].
    + intros z t [->|Hz]%elem_of_cons Ht; [assert (t = s) by congruence; lia|]. specialize (IH z t Hz Ht). lia.
    + exists y. split; [by right|done].
    + intros z t [->|Hz]%elem_of_cons Ht; [assert (t = s) by congruence; lia|by eapply IH].
  - destruct IH as [(y & Hy & Hym) IH]. split; [exists y; split; [by right|done]|].
    intros z t [->|Hz]%elem_of_cons Ht; [congruence|by eapply IH].
  - split; [exists x; split; [by left|done]|]. intros z t [->|Hz]%elem_of_cons Ht; [assert (t = s) by congruence; lia|].
    rewrite IH in Ht by done. done.
  - intros z [->|Hz]%elem_of_cons; [done|by apply IH].
Qed.

Lemma suffix_min_app a b x : is_Some (it_stamp x) -> (forall y s z t, y ∈ x :: a -> it_stamp y = Some s -> z ∈ b -> it_stamp z = Some t -> (s < t)%Z) ->
  suffix_min (x :: a ++ b) = suffix_min (x :: a).
Proof.
  intros [s Hs] Hb. pose proof (suffix_min_spec (x :: a)) as H1. pose proof (suffix_min_spec (x :: a ++ b)) as H2.
  destruct (suffix_min (x :: a)) as [m|]; [|rewrite H1 in Hs by (by left); done].
  destruct (suffix_min (x :: a ++ b)) as [n|]; [|rewrite H2 in Hs by (by left); done].
  destruct H1 as [(y & Hy & Hym) H1], H2 as [(z & Hz & Hzn) H2]. f_equal.
  assert (n <= m)%Z by (apply (H2 y); [rewrite app_comm_cons; apply elem_of_app; by left|done]).
  rewrite app_comm_cons in Hz. apply elem_of_app in Hz as [Hz|Hz]; [specialize (H1 z n Hz Hzn); lia|].
  specialize (Hb y m z n Hy Hym Hz Hzn). lia.
Qed.

(** The units before a cut. *)
Lemma units_from_prefix pm un l1 l2 us vs :
  units_from pm un (l1 ++ l2) = us ++ vs -> concat us = un ++ l1 -> us <> [] -> Forall (fun v => v <> []) vs ->
  (forall y s z t, y ∈ l1 -> it_stamp y = Some s -> z ∈ l2 -> it_stamp z = Some t -> (s < t)%Z) ->
  un <> [] -> units_from pm un l1 = us.
Proof.
  revert pm un us. induction l1 as [|x l1 IH]; intros pm un us Heq Hc Hus Hvs Hlt Hun; cbn [app] in *.
  - cbn [units_from]. rewrite app_nil_r in Hc. destruct l2 as [|y l2].
    + cbn [units_from] in Heq. destruct us as [|w us]; [done|]. injection Heq as <- Hn. by destruct us.
    + cbn [units_from] in Heq. cbv zeta in Heq. assert (forall pm' un' l', exists w ws, units_from pm' un' l' = (un' ++ w) :: ws) as Hhead.
      { clear. intros pm' un' l'. revert pm' un'. induction l' as [|z l' IH]; intros pm' un'; cbn [units_from].
        - exists [], []. by rewrite app_nil_r.
        - cbv zeta. destruct (cut_allowed _ _ _ _); [exists []; eexists; by rewrite app_nil_r|].
          destruct (IH (later pm' (it_stamp z)) (un' ++ [z])) as (w & ws & ->). exists (z :: w), ws. by rewrite <- (assoc_L (++)). }
      destruct (cut_allowed _ _ _ _).
      * destruct us as [|w us]; [done|]. cbn [app] in Heq. injection Heq as <- Heq. cbn [concat] in Hc.
        assert (concat us = []) as Hnil by (apply (app_inv_head un); by rewrite app_nil_r). destruct us as [|w us]; [done|]. exfalso.
        pose proof (units_from_nonempty (later pm (it_stamp y)) [y] l2 ltac:(done)) as Hne. rewrite Heq in Hne. apply Forall_app in Hne as [Hne _].
        apply Forall_cons in Hne as [Hw _]. cbn [concat] in Hnil. by apply app_nil in Hnil as [? _].
      * destruct (Hhead (later pm (it_stamp y)) (un ++ [y]) l2) as (w & ws & Hw). rewrite Hw in Heq. destruct us as [|v us]; [done|].
        cbn [app] in Heq. injection Heq as <- _. cbn [concat] in Hc. apply (f_equal length) in Hc. rewrite !length_app in Hc. cbn [length] in Hc. lia.
  - cbn [units_from] in *. cbv zeta in *.
    assert (cut_allowed (jget_none (u "speaker") (it_row x)) (it_stamp x) pm (suffix_min (x :: l1 ++ l2)) =
            cut_allowed (jget_none (u "speaker") (it_row x)) (it_stamp x) pm (suffix_min (x :: l1))) as Hsame.
    { destruct (it_stamp x) as [s|] eqn:Hs; [|done]. rewrite suffix_min_app; [done|by rewrite Hs|done]. }
    rewrite Hsame in Heq. assert (forall y s z t, y ∈ l1 -> it_stamp y = Some s -> z ∈ l2 -> it_stamp z = Some t -> (s < t)%Z) as Hlt'.
    { intros y s z t Hy. apply Hlt. by right. }
    destruct (cut_allowed _ _ _ _) eqn:Hcut.
    + destruct us as [|w us]; [done|]. cbn [app] in Heq. injection Heq as <- Heq. f_equal. cbn [concat] in Hc. apply app_inv_head in Hc.
      apply IH; [done|by rewrite Hc| |done..]. intros ->. done.
    + apply IH; [done|by rewrite Hc, <- (assoc_L (++))|done..|by destruct un].
Qed.

(** ** Groups *)
Lemma groups_first m us cur g gs : groups m us cur = g :: gs -> Forall (fun v => v <> []) us ->
  exists us1 us2, us = us1 ++ us2 /\ cur ++ concat us1 = g /\ groups m us1 cur = [g] /\ groups m us2 [] = gs /\
    forall us3 rest, us2 = us3 ++ rest -> us3 <> [] -> groups m (us1 ++ us3) cur = g :: groups m us3 [].
Proof.
  intros Hg Hne. revert cur Hg. induction Hne as [|x us Hx Hne IH]; intros cur Hg; cbn [groups] in Hg.
  { destruct cur as [|y cur]; [done|]. injection Hg as <- <-. exists [], []. cbn [concat]. rewrite !app_nil_r. split_and!; [done..|]. intros us3 rest Hn Hn3. by destruct us3. }
  assert (forall l, groups m (x :: l) [] = groups m l x) as Hstart by (intros l; cbn [groups]; by rewrite bool_decide_eq_true_2).
  destruct (negb _ && _) eqn:Hfull.
  - injection Hg as <- Hg. exists [], (x :: us). assert (cur <> []) as Hcur by (intros ->; by rewrite bool_decide_eq_true_2 in Hfull).
    split_and!; [done|by rewrite app_nil_r|by destruct cur|by rewrite Hstart|]. intros us3 rest Heq Hn. destruct us3 as [|v us3]; [done|].
    injection Heq as <- _. cbn [app]. rewrite Hstart. cbn [groups]. by rewrite Hfull.
  - destruct (IH _ Hg) as (us1 & us2 & -> & Hc & H1 & H2 & H3). exists (x :: us1), us2. split_and!; [done| | |done|].
    + cbn [concat]. by rewrite (assoc_L (++)).
    + cbn [groups]. by rewrite Hfull.
    + intros us3 rest Heq Hn. cbn [app groups]. rewrite Hfull. by apply (H3 us3 rest).
Qed.

Lemma groups_resume m us gs hs : groups m us [] = gs ++ hs -> Forall (fun v => v <> []) us ->
  exists us1 us2, us = us1 ++ us2 /\ concat us1 = concat gs /\ concat us2 = concat hs /\ groups m us1 [] = gs /\ groups m us2 [] = hs.
Proof.
  revert us. induction gs as [|g gs IH]; intros us Hg Hne.
  { exists [], us. cbn [app] in Hg. split_and!; try done. by rewrite <- Hg, groups_concat. }
  cbn [app] in Hg. destruct (groups_first _ _ _ _ _ Hg Hne) as (us1 & us2 & -> & Hc & H1 & H2 & H3).
  apply Forall_app in Hne as [Hne1 Hne2]. destruct (IH us2 H2 Hne2) as (us3 & us4 & -> & Hc3 & Hc4 & H5 & H6).
  cbn [app] in Hc. exists (us1 ++ us3), us4. split_and!; [by rewrite (assoc_L (++))| |done| |done].
  - rewrite concat_app. cbn [concat]. by rewrite Hc, Hc3.
  - destruct (decide (us3 = [])) as [->|Hn].
    + rewrite app_nil_r, H1. cbn [groups] in H5. by subst gs.
    + rewrite (H3 us3 us4) by done. by rewrite H5.
Qed.

(** ** Units of a part *)
Lemma units_part items us1 us2 : units items = us1 ++ us2 -> units (concat us1) = us1 /\ units (concat us2) = us2.
Proof.
  intros Hu. pose proof (units_concat items) as Hc. rewrite Hu, concat_app in Hc.
  destruct (decide (us1 = [])) as [->|H1]; [split; [done|]; cbn [concat app] in *; by rewrite Hc|].
  destruct (decide (us2 = [])) as [->|H2]; [split; [|done]; cbn [concat] in Hc; rewrite app_nil_r in *; by rewrite Hc|].
  destruct (units_apart items us1 us2 H1 H2 Hu) as [_ Hbefore _]. pose proof (units_nonempty items) as Hne. rewrite Hu in Hne.
  apply Forall_app in Hne as [Hne1 Hne2]. destruct items as [|x l]; [by destruct us1|]. unfold units in Hu. split; [|exact (units_from_suffix _ _ _ us1 us2 H1 H2 Hu)].
  destruct us1 as [|w us1]; [done|]. apply Forall_cons in Hne1 as Hw. destruct Hw as [Hw _]. destruct w as [|y w]; [done|].
  cbn [concat app] in Hc. injection Hc as -> Hc. cbn [concat app] in *. unfold units.
  apply (units_from_prefix _ [x] (w ++ concat us1) (concat us2) _ us2); [by rewrite Hc|done|done|done| |done].
  intros z s z' t Hz Hs Hz' Ht. apply (Hbefore z z'); [by right|done..].
Qed.

(** ** Chunks of a part *)
Lemma chunks_of_app m un an gs hs best cs : chunks_of m un an (gs ++ hs) best = Ok cs ->
  exists l1 l2, cs = l1 ++ l2 /\ length l1 = length gs /\ chunks_of m un an gs best = Ok l1 /\
    chunks_of m un an hs (fold_left newer (concat gs) best) = Ok l2.
Proof.
  revert best cs. induction gs as [|g gs IH]; intros best cs Hc; [by exists [], cs|]. cbn [app chunks_of] in Hc |- *. cbv zeta in *.
  destruct (format_transcript _ _ _) as [text|]; [|done]. cbn [mbind res_bind] in *.
  destruct (chunks_of m un an (gs ++ hs) _) as [rest|] eqn:Hr; [|done]. cbn [mbind res_bind] in Hc. injection Hc as <-.
  destruct (IH _ _ Hr) as (l1 & l2 & -> & Hl & H1 & H2). rewrite H1. cbn [mbind res_bind concat]. rewrite fold_left_app.
  eexists (_ :: l1), l2. split_and!; [reflexivity|cbn; by rewrite Hl|done|done].
Qed.

Lemma chunks_of_restart m un an hs best x k : concat hs = x :: k -> Forall (fun h => h <> []) hs -> is_Some (it_stamp x) ->
  (forall n raw s, best = Some (n, raw) -> it_stamp x = Some s -> (n < s)%Z) -> chunks_of m un an hs best = chunks_of m un an hs None.
Proof.
  intros Hc Hne [s Hs] Hb. destruct hs as [|h hs]; [done|]. apply Forall_cons in Hne as [Hh _]. destruct h as [|y h]; [done|].
  cbn [concat app] in Hc. injection Hc as -> _. cbn [chunks_of]. cbv zeta.
  assert (fold_left newer (x :: h) best = fold_left newer (x :: h) None) as ->; [|done]. cbn [fold_left]. f_equal. unfold newer. rewrite Hs.
  destruct best as [[n raw]|]; [|done]. specialize (Hb n raw s eq_refl Hs). by rewrite (proj2 (Z.ltb_lt _ _)).
Qed.

Lemma items_of_app r1 r2 ul al i : items_of (r1 ++ r2) ul al = Ok i ->
  exists i1 i2, i = i1 ++ i2 /\ items_of r1 ul al = Ok i1 /\ items_of r2 ul al = Ok i2.
Proof.
  revert i. induction r1 as [|t r1 IH]; intros i Hi; [by exists [], i|]. cbn [app items_of] in *.
  destruct (format_turn_line t ul al) as [line|]; [|done]. cbn [mbind res_bind] in *.
  destruct (items_of (r1 ++ r2) ul al) as [rest|]; [|done]. injection Hi as <-. destruct (IH rest eq_refl) as (i1 & i2 & -> & H1 & H2).
  rewrite H1. cbn [mbind res_bind]. eexists (_ :: i1), i2. by split_and!.
Qed.

(** The chunks of rows that have no summaries, from their items. *)
Lemma chunk_turns_items rows m un an items : (0 < m)%Z -> Forall (fun t => negb (speaker_is "summary" t) = true) rows ->
  items_of rows (label_of un "user") (label_of an "assistant") = Ok items ->
  chunk_turns rows m un an = chunks_of m un an (groups m (units items) []) None.
Proof.
  intros Hm Hrows Hi. unfold chunk_turns. destruct (Z.leb_spec m 0); [lia|].
  assert (List.filter (fun t => negb (speaker_is "summary" t)) rows = rows) as ->.
  { clear Hi. induction Hrows as [|t rows Ht _ IH]; [done|]. cbn [List.filter]. by rewrite Ht, IH. }
  by rewrite Hi.
Qed.

Lemma chunk_turns_parts turns m un an l1 l2 : chunk_turns turns m un an = Ok (l1 ++ l2) ->
  chunk_turns (concat (map ch_turns l1)) m un an = Ok l1 /\ chunk_turns (concat (map ch_turns l2)) m un an = Ok l2.
Proof.
  intros Hcs. pose proof Hcs as Hcs0. unfold chunk_turns in Hcs. destruct (Z.leb_spec m 0) as [|Hm]; [done|]. set (rows := List.filter _ turns) in *.
  assert (Forall (fun t => negb (speaker_is "summary" t) = true) rows) as Hrows.
  { apply Forall_forall. intros t Ht. unfold rows in Ht. by apply list_elem_of_In, filter_In in Ht as [_ Ht]. }
  destruct (items_of rows _ _) as [items|] eqn:Hi; [|done]. cbn [mbind res_bind] in Hcs.
  destruct (chunks_spec _ _ _ _ _ _ Hcs) as [Hturns _].
  set (gs := groups m (units items) []) in *. rewrite <- (take_drop (length l1) gs) in Hcs.
  destruct (chunks_of_app _ _ _ _ _ _ _ Hcs) as (k1 & k2 & Heq & Hlen & Hk1 & Hk2).
  assert (length (l1 ++ l2) = length gs) as Hall by (apply (f_equal length) in Hturns; by rewrite !length_map in Hturns).
  rewrite length_app in Hall. rewrite length_take in Hlen. apply app_inj_1 in Heq as [<- <-]; [|lia].
  set (g1 := take (length l1) gs) in *. set (g2 := drop (length l1) gs) in *.
  destruct (groups_resume m (units items) g1 g2) as (us1 & us2 & Hus & Hc1 & Hc2 & Hg1 & Hg2);
    [unfold g1, g2; by rewrite take_drop|apply units_nonempty|].
  destruct (units_part items us1 us2 Hus) as [Hu1 Hu2]. destruct (items_spec _ _ _ _ Hi) as [Hir _].
  assert (items = concat us1 ++ concat us2) as Hitems by (by rewrite <- concat_app, <- Hus, units_concat).
  rewrite Hitems, map_app in Hir. rewrite <- Hir in Hi, Hrows. destruct (items_of_app _ _ _ _ _ Hi) as (i1 & i2 & Hi12 & Hi1 & Hi2).
  destruct (items_spec _ _ _ _ Hi1) as [Hir1 _]. rewrite Hitems in Hi12.
  apply app_inj_1 in Hi12 as [<- <-]; [|by rewrite <- (length_map it_row), <- (length_map it_row i1), Hir1].
  apply Forall_app in Hrows as [Hrows1 Hrows2].
  assert (map ch_turns l1 = map (map it_row) g1 /\ map ch_turns l2 = map (map it_row) g2) as [Ht1 Ht2].
  { destruct (chunks_spec _ _ _ _ _ _ Hk1) as [-> _], (chunks_spec _ _ _ _ _ _ Hk2) as [-> _]. done. }
  rewrite Ht1, Ht2, <- !concat_map, <- Hc1, <- Hc2. rewrite (chunk_turns_items _ _ _ _ _ Hm Hrows1 Hi1), (chunk_turns_items _ _ _ _ _ Hm Hrows2 Hi2).
  rewrite Hu1, Hu2, Hg1, Hg2. split; [done|]. rewrite <- Hk2. symmetry.
  destruct (decide (us2 = [])) as [->|Hne2]; [cbn [groups] in Hg2; by rewrite <- Hg2|].
  destruct (decide (us1 = [])) as [->|Hne1]; [cbn [groups] in Hg1; by rewrite <- Hg1|].
  destruct (units_apart items us1 us2 Hne1 Hne2 Hus) as [_ Hbefore (y & k & Hy & Hdated & _)]. rewrite Hc2 in Hy, Hbefore. rewrite Hc1 in Hbefore.
  apply (chunks_of_restart _ _ _ _ _ y k); [done| |done|].
  - apply Forall_drop, groups_nonempty, units_nonempty.
  - intros n raw s Hbest Hs. destruct (newest_spec (concat g1)) as [_ Hn]. destruct (Hn n raw Hbest) as (z & Hz & Hzs & _).
    apply (Hbefore z y n s); [done|rewrite Hy; by left|done..].
Qed.

(** Where the first chunk ends, when its rows have time stamps. *)
Lemma first_chunk_end turns m un an c cs : chunk_turns turns m un an = Ok (c :: cs) -> (exists t, t ∈ ch_turns c /\ is_Some (stamp_of t)) ->
  exists t s, t ∈ ch_turns c /\ stamp_of t = Some s /\ ch_cursor c = Some (py_str (jget_none (u "ts") t)) /\
    (forall t' s', t' ∈ ch_turns c -> stamp_of t' = Some s' -> (s' <= s)%Z) /\
    (forall t' s', t' ∈ concat (map ch_turns cs) -> stamp_of t' = Some s' -> (s < s')%Z).
Proof.
  intros Hc (t0 & Ht0 & s0 & Hs0). destruct (decide (cs = [])) as [->|Hne].
  2: { destruct (chunks_in_time _ _ _ _ _ Hc) as (_ & _ & Hcuts). destruct (Hcuts [] c cs eq_refl Hne) as (t & s & H1 & H2 & H3 & H4 & H5 & _).
       cbn [app map concat] in *. rewrite app_nil_r in *. exists t, s. by split_and!. }
  unfold chunk_turns in Hc. destruct (_ <=? _)%Z; [done|]. destruct (items_of _ _ _) as [items|] eqn:Hi; [|done]. cbn [mbind res_bind] in Hc.
  destruct (items_spec _ _ _ _ Hi) as [_ Hitems]. destruct (chunks_spec _ _ _ _ _ _ Hc) as [Hmap Hsplit].
  destruct (Hsplit [] c [] eq_refl) as (g1 & g & g2 & Hg & H1 & _ & Hcur). rewrite Hg in Hmap. destruct g1 as [|h g1]; [|by destruct g1]. destruct g2; [|done].
  cbn [app map concat] in *. rewrite app_nil_r in Hcur. injection H1 as Hturns. destruct (newest_spec g) as [Hmax Hnewest]. rewrite Hturns in Ht0.
  assert (forall y, y ∈ g -> it_stamp y = stamp_of (it_row y)) as Hst.
  { intros y Hy. apply (proj1 (Forall_forall _ _) Hitems). pose proof (groups_concat m (units items) []) as Hg'.
    rewrite Hg, units_concat in Hg'. cbn in Hg'. rewrite app_nil_r in Hg'. by rewrite <- Hg'. }
  apply list_elem_of_fmap in Ht0 as (y0 & -> & Hy0). pose proof (max_stamp_spec g) as Hms. rewrite <- Hmax in Hms.
  destruct (fold_left newer g None) as [[s raw]|] eqn:Hf; cbn in Hms.
  2: { specialize (Hms y0 Hy0). rewrite Hst, Hs0 in Hms by done. done. }
  destruct (Hnewest s raw eq_refl) as (y & Hy & Hys & ->). exists (it_row y), s. rewrite Hturns. split_and!.
  - by apply list_elem_of_fmap_2.
  - by rewrite <- Hst.
  - exact Hcur.
  - intros t' s' (z & -> & Hz)%list_elem_of_fmap Hs'. rewrite <- Hst in Hs' by done. by apply (proj2 Hms z).
  - intros t' s' Hn. by apply not_elem_of_nil in Hn.
Qed.

(** The rows of some chunks. *)
Definition rows_in (cs : list chunk) : list json := concat (map ch_turns cs).

(** C21: chunking starts again where it stopped.  Split the chunks of a run of rows
    anywhere: the rows of the first part alone are chunked into the first part, those
    of the second into the second, with the same cursors, texts and pieces.  So a
    pass that resumes after a chunk's cursor meets exactly the chunks that were left,
    and a retry of the rows up to a failing chunk's end meets that chunk. *)
Theorem rechunk turns m un an l1 l2 : chunk_turns turns m un an = Ok (l1 ++ l2) ->
  chunk_turns (rows_in l1) m un an = Ok l1 /\ chunk_turns (rows_in l2) m un an = Ok l2.
Proof. apply chunk_turns_parts. Qed.
End rechunk.

#[local] Existing Instance ascii_pylib.

Lemma rechunk_witness : length small_chunks = 2%nat /\ chunk_turns (rows_in (drop 1 small_chunks)) 25 None None = Ok (drop 1 small_chunks).
Proof.
  split; [vm_compute; reflexivity|].
  apply (rechunk small_talk 25 None None (take 1 small_chunks) (drop 1 small_chunks)). rewrite take_drop. vm_compute. reflexivity.
Defined.
