(* ===== verification/Extract.v ===== *)
(** [brain/ingest/types.py] and the parsing half of [brain/ingest/extract.py]: what
    a model's reply to the extraction prompt becomes.  A reply is text around a
    JSON array; an entry becomes a candidate memory, and normalizing a candidate
    gives it a known label, an importance from 1 to 10 and emotion strengths above 0
    and up to 10.  Theorems: what normalized items are, that normalizing again
    changes nothing, which replies parse, and the one kind of reply that raises. *)
From S2P Require Import Prelude PyFloat PyTime Json Crypto Protocol ConnectCode PyVal JsonCut StateFile Jsonl Buffer Compaction.
From Stdlib Require Import Floats.SpecFloat.

Section extract.
Context `{PyLib}.

(** ** Candidates *)

(** [ExtractedItem] as the reply gives it, and normalized. *)
Record raw_item := { r_text : pystr; r_label : pystr; r_importance : json; r_emotions : list (pystr * float) }.
Record memory_item := { m_text : pystr; m_label : pystr; m_importance : Z; m_emotions : list (pystr * float) }.

Definition VALID_LABELS : list pystr :=
  [u "observation"; u "feeling"; u "decision"; u "question"; u "fact"; u "note"].

Definition f10 : float := fofZ 10.

(** The strength an emotion is kept with, when it is kept. *)
Definition clean_emotion (valid : option (list pystr)) (e : pystr * float) : option (pystr * float) :=
  let '(name, value) := e in
  if negb (is_finite value) then None else
  if fle value f0 then None else
  let value := if flt f10 value then f10 else value in
  match valid with
  | Some names => if bool_decide (name ∈ names) then Some (name, value) else None
  | None => Some (name, value)
  end.

(** [except (TypeError, ValueError)]. *)
Definition bad_value (e : exn) : bool := bool_decide (e = TypeError) || is_ValueError e.

Definition clean_importance (v : json) : res Z :=
  match py_int v with
  | Ok z => Ok (Z.max 1 (Z.min 10 z))
  | Err e => if bad_value e then Ok 5%Z else Err e
  end.

Definition normalize (valid : option (list pystr)) (r : raw_item) : res memory_item :=
  importance ← clean_importance (r_importance r);
  mret {| m_text := strip (r_text r);
          m_label := if bool_decide (r_label r ∈ VALID_LABELS) then r_label r else u "observation";
          m_importance := importance;
          m_emotions := omap (clean_emotion valid) (r_emotions r) |}.

(** A normalized item as a candidate again. *)
Definition as_raw (m : memory_item) : raw_item :=
  {| r_text := m_text m; r_label := m_label m; r_importance := JInt (m_importance m); r_emotions := m_emotions m |}.

(** ** [json.loads] of a reply

    A reply that does not parse raises [JSONDecodeError], unless the scanner meets an
    integer of too many digits before the fault: that raises a plain [ValueError]. *)
Definition long_number (s : pystr) : bool :=
  let s := default s (peel 45 s) in
  match jnumber s, s with
  | None, c :: _ => is_digit c && (max_int_digits <? N.of_nat (span_digits s 0 0).1.2)%N
  | _, _ => false
  end.

Fixpoint value_fault (fuel : nat) (s : pystr) {struct fuel} : bool :=
  match fuel with
  | O => false
  | S f =>
      match s with
      | [] => false
      | c :: s1 =>
          if (c =? 34)%N then false
          else if (c =? 123)%N then match peel 125 (skip_ws s1) with Some _ => false | None => members_fault f (skip_ws s1) end
          else if (c =? 91)%N then match peel 93 (skip_ws s1) with Some _ => false | None => elems_fault f (skip_ws s1) end
          else long_number s
      end
  end
with elems_fault (fuel : nat) (s : pystr) {struct fuel} : bool :=
  match fuel with
  | O => false
  | S f =>
      match jvalue f s with
      | None => value_fault f s
      | Some (_, r) => match peel 93 (skip_ws r), peel 44 (skip_ws r) with
                       | None, Some r' => elems_fault f (skip_ws r')
                       | _, _ => false
                       end
      end
  end
with members_fault (fuel : nat) (s : pystr) {struct fuel} : bool :=
  match fuel with
  | O => false
  | S f =>
      match (s1 ← peel 34 s; '(_, s2) ← jstring s1; s3 ← peel 58 (skip_ws s2); Some (skip_ws s3)) with
      | None => false
      | Some s4 =>
          match jvalue f s4 with
          | None => value_fault f s4
          | Some (_, r) => match peel 125 (skip_ws r), peel 44 (skip_ws r) with
                           | None, Some r' => members_fault f (skip_ws r')
                           | _, _ => false
                           end
          end
      end
  end.

Definition loads_raising (s : pystr) : res json :=
  match loads s with
  | Some v => Ok v
  | None => Err (if value_fault (2 * length s + 2) (skip_ws s) then ValueError else JSONDecodeError)
  end.

(** ** [parse_extraction] *)
Definition is_tick (c : N) : bool := (c =? 96)%N.

(** The reply without its code fence. *)
Definition unfence (raw : pystr) : pystr :=
  let text := strip raw in
  if starts_with (u "```") text then
    let text := lstrip_by is_tick text in
    let text := match index_of 10 text with
                | Some i =>
                    let first := take i text in
                    if starts_with (u "[") (strip first) || starts_with (u "{") (strip first) then text else drop (S i) text
                | None => text
                end in
    strip (rstrip_by is_tick text)
  else text.

Fixpoint reply_emotions (kvs : list (pystr * json)) : res (list (pystr * float)) :=
  match kvs with
  | [] => Ok []
  | (k, v) :: kvs =>
      kept ← (match py_float v with
              | Ok f => Ok [(k, f)]
              | Err e => if bad_value e then Ok [] else Err e
              end);
      rest ← reply_emotions kvs;
      mret (kept ++ rest)
  end.

Definition reply_item (entry : json) : res raw_item :=
  emotions ← (match jget_none (u "emotions") entry with JObj kvs => reply_emotions kvs | _ => Ok [] end);
  mret {| r_text := py_str (get_str "text" (JStr []) entry); r_label := py_str (get_str "label" (JStr (u "observation")) entry);
          r_importance := get_str "importance" (JInt 5) entry; r_emotions := emotions |}.

Fixpoint reply_items (data : list json) : res (list raw_item) :=
  match data with
  | [] => Ok []
  | entry :: data =>
      match entry with
      | JObj _ => item ← reply_item entry; rest ← reply_items data; mret (item :: rest)
      | _ => reply_items data
      end
  end.

Definition parse_extraction (raw : pystr) : res (option (list raw_item)) :=
  if bool_decide (raw = []) then Ok None else
  let text := unfence raw in
  match index_of 91 text, rindex_of 93 text with
  | Some start, Some stop =>
      if (stop <? start)%nat then Ok None else
      match loads_raising (take (stop + 1 - start) (drop start text)) with
      | Err JSONDecodeError => Ok None
      | Err e => Err e
      | Ok (JArr data) => items ← reply_items data; mret (Some items)
      | Ok _ => Ok None
      end
  | _, _ => Ok None
  end.
End extract.

(** ** Stripping *)
Section strip.
Variable p : N -> bool.

Lemma lstrip_by_keep a c b : p c = false -> lstrip_by p (a ++ c :: b) = lstrip_by p a ++ c :: b.
Proof. intros Hc. induction a as [|x a IH]; cbn [app lstrip_by]; [by rewrite Hc|]. by destruct (p x). Qed.

Lemma strip_by_around a c b d e : p c = false -> p d = false ->
  strip_by p (a ++ (c :: b ++ [d]) ++ e) = lstrip_by p a ++ (c :: b ++ [d]) ++ rstrip_by p e.
Proof.
  intros Hc Hd. unfold strip_by, rstrip_by. cbn [app]. rewrite lstrip_by_keep by done.
  assert (forall x, rev (x ++ c :: (b ++ [d]) ++ e) = rev e ++ d :: rev (x ++ c :: b)) as Hrev.
  { intros x. rewrite !rev_app_distr. cbn [rev app]. rewrite !rev_app_distr. cbn [rev app]. by rewrite <- !(assoc_L (++)). }
  rewrite Hrev, lstrip_by_keep by done. rewrite rev_app_distr. cbn [rev]. rewrite rev_involutive. by rewrite <- !(assoc_L (++)).
Qed.

Lemma lstrip_by_head s : match lstrip_by p s with c :: _ => p c = false | [] => True end.
Proof. induction s as [|x s IH]; cbn [lstrip_by]; [done|]. destruct (p x) eqn:Hx; [done|]. by rewrite Hx. Qed.

Lemma lstrip_by_again s : lstrip_by p (lstrip_by p s) = lstrip_by p s.
Proof. apply lstrip_by_id, lstrip_by_head. Qed.

(** The last character that is kept stays the last one. *)
Lemma lstrip_by_last s : match last (lstrip_by p s) with Some c => last s = Some c | None => True end.
Proof.
  induction s as [|x s IH]; cbn [lstrip_by]; [done|]. destruct (p x) eqn:Hx.
  - destruct (lstrip_by p s) as [|y t]; [done|]. destruct (last (y :: t)) as [c|] eqn:Hl; [|done].
    destruct s; [done|]. by rewrite last_cons_cons.
  - by destruct (last (x :: s)).
Qed.

Lemma strip_by_again s : strip_by p (strip_by p s) = strip_by p s.
Proof.
  unfold strip_by. set (t := lstrip_by p s). pose proof (lstrip_by_head s) as Hhead. fold t in Hhead.
  assert (lstrip_by p (rev (lstrip_by p (rev t))) = rev (lstrip_by p (rev t))) as ->.
  { apply lstrip_by_id. pose proof (lstrip_by_last (rev t)) as Hl. destruct (rev (lstrip_by p (rev t))) as [|c w] eqn:E; [done|].
    apply (f_equal (@rev N)) in E. rewrite rev_involutive in E. rewrite E in Hl. cbn [rev] in Hl. rewrite last_snoc in Hl.
    destruct t as [|d t]; [done|]. cbn [rev] in Hl. rewrite last_snoc in Hl. by injection Hl as ->. }
  by rewrite rev_involutive, lstrip_by_again.
Qed.
End strip.

(** ** Normalized items *)
Section items.
Context `{PyLib}.

(** An emotion strength that is kept as it is. *)
Definition kept_emotion (valid : option (list pystr)) (e : pystr * float) : Prop :=
  is_finite e.2 = true /\ fle e.2 f0 = false /\ flt f10 e.2 = false /\
  match valid with Some names => e.1 ∈ names | None => True end.

Lemma clean_emotion_kept valid e e' : clean_emotion valid e = Some e' -> kept_emotion valid e'.
Proof.
  destruct e as [name v]. unfold clean_emotion, kept_emotion. destruct (is_finite v) eqn:Hfin; [|done]. cbn [negb].
  destruct (fle v f0) eqn:H0; [done|]. intros He.
  assert (e'.1 = name /\ e'.2 = (if flt f10 v then f10 else v) /\ match valid with Some names => name ∈ names | None => True end) as (-> & -> & ?).
  { destruct valid as [names|]; [case_bool_decide; [|done]|]; by injection He as <-. }
  by destruct (flt f10 v) eqn:H10.
Qed.

Lemma clean_emotion_id valid e : kept_emotion valid e -> clean_emotion valid e = Some e.
Proof.
  destruct e as [name v]. unfold clean_emotion, kept_emotion. cbn [fst snd]. intros (-> & -> & -> & Hn). cbn [negb].
  destruct valid; [by rewrite bool_decide_eq_true_2|done].
Qed.

(** What [normalize] gives. *)
Record normal (valid : option (list pystr)) (m : memory_item) : Prop := {
  nm_label : m_label m ∈ VALID_LABELS;
  nm_importance : (1 <= m_importance m <= 10)%Z;
  nm_text : strip (m_text m) = m_text m;
  nm_emotions : Forall (kept_emotion valid) (m_emotions m);
}.

Lemma clean_importance_range v z : clean_importance v = Ok z -> (1 <= z <= 10)%Z.
Proof. unfold clean_importance. destruct (py_int v) as [n|e]; [|destruct (bad_value e); [|done]]; intros [= <-]; lia. Qed.

Lemma normalize_label valid r m : normalize valid r = Ok m -> m_label m ∈ VALID_LABELS.
Proof.
  unfold normalize. destruct (clean_importance _); [|done]. intros [= <-]. cbn [m_label].
  destruct (bool_decide_reflect (r_label r ∈ VALID_LABELS)); [done|]. by left.
Qed.

(** C38: what normalizing a candidate gives.  Whatever the model said, a normalized
    item has one of the six labels, an importance from 1 to 10, a text without
    surrounding white space, and finite emotion strengths above 0 and up to 10, of
    registered emotions only; and normalizing it again changes nothing. *)
Theorem normalize_normal valid r m : normalize valid r = Ok m -> normal valid m /\ normalize valid (as_raw m) = Ok m.
Proof.
  intros Hm. pose proof (normalize_label _ _ _ Hm) as Hlabel. revert Hm Hlabel.
  unfold normalize. destruct (clean_importance (r_importance r)) as [z|] eqn:Hz; [|done]. cbn [mbind res_bind]. intros [= <-]. cbn [m_label].
  apply clean_importance_range in Hz. assert (Forall (kept_emotion valid) (omap (clean_emotion valid) (r_emotions r))) as He.
  { apply Forall_forall. intros e (e0 & _ & He)%list_elem_of_omap. by eapply clean_emotion_kept. }
  set (label := if bool_decide (r_label r ∈ VALID_LABELS) then r_label r else u "observation").
  intros Hlabel.
  split; [split; try done; apply strip_by_again|]. cbn [as_raw r_importance m_importance clean_importance r_text m_text r_label m_label r_emotions m_emotions].
  unfold clean_importance. cbn [py_int]. replace (Z.max 1 (Z.min 10 z)) with z by lia. cbn [mbind res_bind].
  rewrite (strip_by_again is_space (r_text r) : strip (strip (r_text r)) = strip (r_text r)). rewrite bool_decide_eq_true_2 by done.
  f_equal. f_equal. induction He as [|e l He _ IH]; [done|]. cbn [omap list_omap]. rewrite clean_emotion_id by done. by rewrite IH.
Qed.
End items.

(** ** Replies *)
Section replies.
Context `{PyLib}.

Lemma index_of_app c a b : Forall (fun x => x <> c) a -> index_of c (a ++ c :: b) = Some (length a).
Proof.
  induction 1 as [|x a Hx _ IH]; cbn [app index_of length]; [by rewrite N.eqb_refl|].
  rewrite (proj2 (N.eqb_neq _ _)) by done. by rewrite IH.
Qed.

Lemma rindex_of_app c a b : Forall (fun x => x <> c) b -> rindex_of c (a ++ c :: b) = Some (length a).
Proof.
  intros Hb. unfold rindex_of. rewrite rev_app_distr. cbn [rev]. rewrite <- (assoc_L (++)). cbn [app].
  rewrite index_of_app by (by apply List.Forall_rev). cbn [mbind option_bind]. rewrite length_app, length_rev. cbn [length]. f_equal. lia.
Qed.

(** The printed array. *)
Lemma array_text l : exists b, dumps_default (JArr l) = 91%N :: b ++ [93%N].
Proof. eexists. unfold dumps_default. cbn [dumps]. reflexivity. Qed.

(** The array found between brackets is read. *)
Lemma bracketed_read l pre post : json_ok (JArr l) -> Forall (fun c => c <> 91%N) pre -> Forall (fun c => c <> 93%N) post ->
  let text := pre ++ dumps_default (JArr l) ++ post in
  match index_of 91 text, rindex_of 93 text with
  | Some start, Some stop =>
      if (stop <? start)%nat then Ok None else
      match loads_raising (take (stop + 1 - start) (drop start text)) with
      | Err JSONDecodeError => Ok None
      | Err e => Err e
      | Ok (JArr data) => items ← reply_items data; mret (Some items)
      | Ok _ => Ok None
      end
  | _, _ => Ok None
  end = (items ← reply_items l; mret (Some items)).
Proof.
  intros Hok Hpre Hpost. cbv zeta. pose proof (loads_dumps_default _ Hok) as Hl. rewrite jnorm_false in Hl by done.
  destruct (array_text l) as [b Hb]. rewrite Hb in *. cbn [app]. rewrite index_of_app by done.
  replace (pre ++ 91%N :: (b ++ [93%N]) ++ post) with ((pre ++ 91%N :: b) ++ 93%N :: post) by (by rewrite <- !(assoc_L (++)); cbn [app]).
  rewrite rindex_of_app by done. rewrite length_app. cbn [length]. rewrite (proj2 (Nat.ltb_ge _ _)) by lia.
  rewrite <- (assoc_L (++)). rewrite drop_app_length.
  replace (length pre + S (length b) + 1 - length pre)%nat with (length (91%N :: b ++ [93%N])) by (cbn [length]; rewrite length_app; cbn [length]; lia).
  replace ((91%N :: b) ++ 93%N :: post) with ((91%N :: b ++ [93%N]) ++ post) by (cbn [app]; by rewrite <- (assoc_L (++))).
  rewrite take_app_length. unfold loads_raising. by rewrite Hl.
Qed.

Lemma Forall_lstrip (P : N -> Prop) p s : Forall P s -> Forall P (lstrip_by p s).
Proof. destruct (lstrip_by_spec p s) as (t & Hs & _). rewrite Hs at 1. by intros [_ ?]%Forall_app. Qed.
Lemma Forall_rstrip (P : N -> Prop) p s : Forall P s -> Forall P (rstrip_by p s).
Proof. destruct (rstrip_by_spec p s) as (t & Hs & _). rewrite Hs at 1. by intros [? _]%Forall_app. Qed.

Lemma parse_unfenced raw pre l post : json_ok (JArr l) -> Forall (fun c => c <> 91%N) pre -> Forall (fun c => c <> 93%N) post ->
  raw <> [] -> unfence raw = pre ++ dumps_default (JArr l) ++ post ->
  parse_extraction raw = (items ← reply_items l; mret (Some items)).
Proof.
  intros Hok Hpre Hpost Hraw Hun. unfold parse_extraction. rewrite bool_decide_eq_false_2 by done. cbv zeta. rewrite Hun.
  by apply bracketed_read.
Qed.

Lemma unfence_fenced tag b : Forall (fun c => c <> 10%N /\ c <> 96%N) tag ->
  starts_with (u "[") (strip tag) || starts_with (u "{") (strip tag) = false ->
  unfence (u "```" ++ tag ++ [10%N] ++ (91%N :: b ++ [93%N]) ++ [10%N] ++ u "```") = 91%N :: b ++ [93%N].
Proof.
  intros Htag Hlang. set (rest := tag ++ [10%N] ++ (91%N :: b ++ [93%N]) ++ [10%N]).
  assert (u "```" ++ tag ++ [10%N] ++ (91%N :: b ++ [93%N]) ++ [10%N] ++ u "```" = [] ++ (96%N :: ([96%N; 96%N] ++ rest ++ [96%N; 96%N]) ++ [96%N]) ++ []) as ->.
  { unfold rest. rewrite app_nil_r. change (u "```") with [96%N; 96%N; 96%N]. cbn [app]. repeat (progress (rewrite <- ?(assoc_L (++)); cbn [app])). done. }
  assert (is_space 96 = false) as Htick by reflexivity. assert (is_space 91 = false) as Hopen by reflexivity.
  assert (is_space 93 = false) as Hclose by reflexivity.
  match goal with |- unfence ?r = _ => set (raw := r) end.
  assert (strip raw = raw) as Hs.
  { unfold strip, raw. rewrite strip_by_around by done. done. }
  assert (raw = u "```" ++ rest ++ [96%N; 96%N; 96%N]) as Hraw.
  { unfold raw. change (u "```") with [96%N; 96%N; 96%N]. rewrite app_nil_r. cbn [app]. by rewrite <- (assoc_L (++)). }
  assert (lstrip_by is_tick raw = rest ++ [96%N; 96%N; 96%N]) as Hl.
  { rewrite Hraw. change (u "```") with [96%N; 96%N; 96%N]. cbn [app lstrip_by]. change (is_tick 96) with true. cbn match.
    apply lstrip_by_id. unfold rest. destruct Htag as [|c tag' [_ Hc] _]; [done|]. cbn [app]. unfold is_tick. by apply N.eqb_neq. }
  unfold unfence. rewrite Hs. cbv zeta. rewrite Hraw at 1. change (u "```") with [96%N; 96%N; 96%N]. cbn [app starts_with].
  rewrite !bool_decide_eq_true_2 by done. cbn [andb]. rewrite Hl. unfold rest. rewrite <- !(assoc_L (++)). cbn [app].
  rewrite index_of_app by (eapply Forall_impl; [exact Htag|by intros ? []]). rewrite take_app_length, Hlang.
  replace (S (length tag)) with (length (tag ++ [10%N])) by (rewrite length_app; simpl; lia).
  replace (tag ++ 10%N :: 91%N :: (b ++ [93%N]) ++ [10%N; 96%N; 96%N; 96%N])
    with ((tag ++ [10%N]) ++ ((91%N :: b ++ [93%N]) ++ [10%N]) ++ [96%N; 96%N; 96%N]) by (repeat (progress (rewrite <- ?(assoc_L (++)); cbn [app])); done).
  rewrite drop_app_length. rewrite rstrip_by_app by (by repeat constructor).
  assert (rstrip_by is_tick ((91%N :: b ++ [93%N]) ++ [10%N]) = (91%N :: b ++ [93%N]) ++ [10%N]) as ->.
  { unfold rstrip_by. rewrite rev_app_distr. rewrite lstrip_by_id by done. by rewrite <- rev_app_distr, rev_involutive. }
  unfold strip. rewrite (strip_by_around is_space [] 91 b 93 [10%N]) by done. cbn [lstrip_by app]. by rewrite app_nil_r.
Qed.

(** replies are read whole.  A reply whose array of objects is printed JSON is
    read as exactly the items of the array, in order, when it is surrounded by
    prose without brackets (and does not start with a code fence), and when it stands
    in a code fence with any language tag. *)
Theorem reply_round_trip l pre post tag : json_ok (JArr l) ->
  Forall (fun c => c <> 91%N) pre -> Forall (fun c => c <> 93%N) post ->
  starts_with (u "```") (strip (pre ++ dumps_default (JArr l) ++ post)) = false ->
  Forall (fun c => c <> 10%N /\ c <> 96%N) tag ->
  starts_with (u "[") (strip tag) || starts_with (u "{") (strip tag) = false ->
  parse_extraction (pre ++ dumps_default (JArr l) ++ post) = (items ← reply_items l; mret (Some items)) /\
  parse_extraction (u "```" ++ tag ++ [10%N] ++ dumps_default (JArr l) ++ [10%N] ++ u "```") = (items ← reply_items l; mret (Some items)).
Proof.
  intros Hok Hpre Hpost Hfence Htag Hlang. destruct (array_text l) as [b Hb]. split.
  - apply (parse_unfenced _ (lstrip_by is_space pre) l (rstrip_by is_space post)); [done|by apply Forall_lstrip|by apply Forall_rstrip|rewrite Hb; by destruct pre|].
    unfold unfence. rewrite Hfence. rewrite Hb. by apply strip_by_around.
  - apply (parse_unfenced _ [] l []); [done|constructor|constructor|done|]. rewrite Hb, unfence_fenced by done. cbn [app]. by rewrite app_nil_r.
Qed.

(** ** What raises *)
Lemma normalize_err valid r e : normalize valid r = Err e -> e = OverflowError /\ exists s, r_importance r = JFloat (S754_infinity s).
Proof.
  unfold normalize, clean_importance. destruct (r_importance r) as [| | |f|s| |] eqn:Hr; cbn [py_int]; try done.
  - destruct f as [|s| |]; cbn [int_of_float]; try done. intros [= <-]. by eauto.
  - unfold int_of_str. destruct (match strip_by _ s with [] => _ | _ => _ end) as [neg s']. destruct (int_digits s' false 0 0) as [[z n]|]; [|done].
    by destruct (_ <? _)%N.
Qed.

Lemma reply_emotions_err kvs e : reply_emotions kvs = Err e -> e = OverflowError.
Proof.
  induction kvs as [|[k v] kvs IH]; [done|]. cbn [reply_emotions].
  destruct (py_float v) as [f|x] eqn:Hv.
  - cbn [mbind res_bind]. by destruct (reply_emotions kvs); [|intros [= <-]; apply IH].
  - destruct (bad_value x) eqn:Hx; [cbn [mbind res_bind]; by destruct (reply_emotions kvs); [|intros [= <-]; apply IH]|]. intros [= <-].
    destruct v as [| |z| |t| |]; cbn [py_float] in Hv; try done; try (injection Hv as <-; discriminate Hx).
    + unfold float_of_int in Hv. destruct (fofZ z); try done. by injection Hv as <-.
    + destruct (float_of_str t); [done|]. injection Hv as <-. discriminate Hx.
Qed.

Lemma reply_items_err data e : reply_items data = Err e -> e = OverflowError.
Proof.
  induction data as [|v data IH]; [done|]. cbn [reply_items]. destruct v as [| | | | | |kvs]; try exact IH.
  destruct (reply_item (JObj kvs)) as [r|x] eqn:Hr.
  - cbn [mbind res_bind]. by destruct (reply_items data); [|intros [= <-]; apply IH].
  - cbn [mbind res_bind]. intros [= <-]. unfold reply_item in Hr. destruct (jget_none (u "emotions") (JObj kvs)) as [| | | | | |kws]; try done.
    destruct (reply_emotions kws) as [|x'] eqn:He; [done|]. cbn in Hr. injection Hr as ->. by apply reply_emotions_err in He.
Qed.

Lemma parse_err raw e : parse_extraction raw = Err e -> e = ValueError \/ e = OverflowError.
Proof.
  unfold parse_extraction. case_bool_decide; [done|]. cbv zeta. destruct (index_of _ _) as [a|]; [|done].
  destruct (rindex_of _ _) as [b|]; [|done]. destruct (_ <? _)%nat; [done|].
  destruct (loads_raising _) as [v|x] eqn:Hl.
  - destruct v as [| | | | |data|]; try done. destruct (reply_items data) as [items|x] eqn:Hi; [done|]. cbn [mbind res_bind]. intros [= <-].
    right. by eapply reply_items_err.
  - assert (x = ValueError \/ x = JSONDecodeError) as [-> | ->]; [|intros [= <-]; by left|done].
    unfold loads_raising in Hl. destruct (loads _); [done|]. destruct (value_fault _ _); injection Hl as <-; auto.
Qed.

(** extraction can raise, against its contract (its comments say that errors are
    never raised and that a candidate's importance is clamped whatever it is).  Parsing
    raises at most two exceptions, for an integer of too many digits and for an
    emotion strength too large for a float, and normalizing at most one, for an infinite
    importance.  Each of these replies does it: an array with an infinite
    importance parses, and its item cannot be normalized; one with an integer
    strength of 400 digits is not parsed, nor is one with an importance of 4,400 digits. *)
Theorem reply_can_raise valid :
  (forall r e, normalize valid r = Err e -> e = OverflowError) /\
  (forall raw e, parse_extraction raw = Err e -> e = ValueError \/ e = OverflowError) /\
  (exists raw r, raw = u "[{'text': 'x', 'importance': Infinity}]" /\
     parse_extraction (map (fun c => if (c =? 39)%N then 34%N else c) raw) = Ok (Some [r]) /\ normalize valid r = Err OverflowError) /\
  parse_extraction ([91; 123; 34]%N ++ u "emotions" ++ [34; 58; 123; 34]%N ++ u "joy" ++ [34; 58]%N ++ repeat 49%N 400 ++ u "}}]") = Err OverflowError /\
  parse_extraction (u "[" ++ repeat 49%N 4400 ++ u "]") = Err ValueError.
Proof.
  split_and!.
  - intros r e He. by apply normalize_err in He as [-> _].
  - apply parse_err.
  - eexists _, {| r_text := u "x"; r_label := u "observation"; r_importance := JFloat (S754_infinity false); r_emotions := [] |}.
    split_and!; [reflexivity|vm_compute; reflexivity|reflexivity].
  - vm_compute. reflexivity.
  - vm_compute. reflexivity.
Qed.
End replies.

(** ** Examples *)
Definition demo_reply : json :=
  JObj [(u "text", JStr (u " met Ann ")); (u "label", JStr (u "memory")); (u "importance", JStr (u "42"));
        (u "emotions", JObj [(u "joy", JInt 12); (u "calm", JFloat f0); (u "awe", JStr (u "high"))])].

Definition demo_item : memory_item :=
  {| m_text := u "met Ann"; m_label := u "observation"; m_importance := 10; m_emotions := [(u "joy", f10)] |}.

Example demo_reply_item : (r ← reply_item (H := ascii_pylib) demo_reply; normalize (H := ascii_pylib) (Some [u "joy"; u "calm"]) r) = Ok demo_item.
Proof. vm_compute. reflexivity. Qed.

Lemma normalize_normal_witness : exists r, normalize (H := ascii_pylib) (Some [u "joy"; u "calm"]) r = Ok demo_item /\
  normal (H := ascii_pylib) (Some [u "joy"; u "calm"]) demo_item.
Proof.
  eexists. split.
  2: { eapply (normalize_normal (H := ascii_pylib) _ {| r_text := u " met Ann "; r_label := u "memory"; r_importance := JStr (u "42"); r_emotions := [(u "joy", fofZ 12)] |}).
       vm_compute. reflexivity. }
  instantiate (1 := {| r_text := u " met Ann "; r_label := u "memory"; r_importance := JStr (u "42"); r_emotions := [(u "joy", fofZ 12)] |}).
  vm_compute. reflexivity.
Defined.

Definition demo_plain : json := JObj [(u "text", JStr (u "met Ann")); (u "label", JStr (u "fact"))].

Lemma reply_round_trip_witness : exists items, parse_extraction (H := ascii_pylib) (u "Sure: " ++ dumps_default (JArr [demo_plain]) ++ u " Done.") = Ok (Some items) /\
  length items = 1%nat.
Proof.
  destruct (reply_round_trip (H := ascii_pylib) [demo_plain] (u "Sure: ") (u " Done.") (u "json")) as [Hr _].
  - cbn. repeat split; try (by apply u_str_ok). apply (bool_decide_unpack _). vm_compute. exact I.
  - vm_compute. repeat constructor; discriminate.
  - vm_compute. repeat constructor; discriminate.
  - vm_compute. reflexivity.
  - vm_compute. repeat constructor; discriminate.
  - vm_compute. reflexivity.
  - eexists. split; [exact Hr|]. vm_compute. reflexivity.
Defined.
