(* ===== verification/Pipeline.v ===== *)
(** [brain/ingest/pipeline.py], with [commit.py], [soul_queue.py] and the gate of
    [brain/chat/rollover.py]: the extraction of a chat session into memories.  A pass
    takes the rows after the session's cursor, chunk by chunk: each piece of a chunk
    is one model call whose items are normalized, compared with the stored memories,
    committed, and queued for the soul when they matter; the cursor moves past a chunk
    whose items are all in.

    The outside (the model, the memory store, the disk, the clock, other writers of
    the session's files) answers each access from the trace of all accesses before
    it, so a theorem over all environments covers every behaviour of it, and the
    death of the process at any access.  The theorems are in [PipelineFacts],
    [ReportFacts], [CatchUp] and [CloseFacts]. *)
From S2P Require Import Prelude PyFloat PyTime Json Crypto Protocol ConnectCode PyVal JsonCut StateFile Jsonl Buffer Compaction Chunks Extract.

(** ** The outside *)

(** The accesses, oldest first. *)
Inductive event :=
| EvModel (transcript : pystr) (reply : res pystr)      (* provider.generate *)
| EvUnparsed (raw : pystr)                              (* record_parse_failure *)
| EvSimilar (text : pystr) (answer : res bool)          (* the similarity check *)
| EvStore (m : memory_item) (answer : res pystr)        (* Memory.create_new, route_write *)
| EvSearch (keyword : pystr) (answer : res (list pystr))   (* store.search_text *)
| EvLink (a b : pystr) (answer : res unit)              (* hebbian.strengthen *)
| EvCursor (ts : pystr)                                 (* the cursor moved *)
| EvDisk                                                (* any other access to a file *)
| EvOthers.                                             (* other writers get a turn *)

Abbreviation trace := (list event).

Inductive fault := Works | Fails | Dies.

Class Outside := {
  generate : trace -> pystr -> res pystr;
  similar : trace -> pystr -> res bool;
  write_memory : trace -> memory_item -> res pystr;
  search_text : trace -> pystr -> res (list pystr);
  strengthen : trace -> pystr -> pystr -> res unit;
  disk : trace -> fault;
  cut_at : trace -> nat;             (* where a failing append or read stops *)
  size_known : trace -> bool;        (* stat of the archive segment works *)
  clock : trace -> Z;
  extract_lock_free : trace -> bool;
  others : trace -> bool -> conv -> conv;   (* what other writers do to the session's files; the append lock is held, or not *)
}.

(** ** State *)

(** The counters of [IngestReport], and the report. *)
Inductive counter := EXTRACTED | COMMITTED | ENQUEUED | DEDUPED | SOUL_CANDIDATES | SOUL_QUEUE_ERRORS | ERRORS | COMMIT_FAILURES | CHUNKS.

#[export] Instance counter_eq_dec : EqDecision counter.
Proof. solve_decision. Defined.

Record report := { count : counter -> Z; memory_ids : list pystr; deferred : bool; busy : bool; backoff_skipped : bool; reached_end : bool }.

Definition new_report : report :=
  {| count _ := 0%Z; memory_ids := []; deferred := false; busy := false; backoff_skipped := false; reached_end := false |}.

Definition bump_by (n : Z) (c : counter) (r : report) : report :=
  {| count d := if decide (c = d) then (count r d + n)%Z else count r d; memory_ids := memory_ids r; deferred := deferred r; busy := busy r;
     backoff_skipped := backoff_skipped r; reached_end := reached_end r |}.
Definition add_id (id : pystr) (r : report) : report :=
  {| count := count r; memory_ids := memory_ids r ++ [id]; deferred := deferred r; busy := busy r; backoff_skipped := backoff_skipped r; reached_end := reached_end r |}.
Definition set_deferred (r : report) : report :=
  {| count := count r; memory_ids := memory_ids r; deferred := true; busy := busy r; backoff_skipped := backoff_skipped r; reached_end := reached_end r |}.
Definition set_busy (r : report) : report :=
  {| count := count r; memory_ids := memory_ids r; deferred := deferred r; busy := true; backoff_skipped := backoff_skipped r; reached_end := reached_end r |}.
Definition set_skipped (r : report) : report :=
  {| count := count r; memory_ids := memory_ids r; deferred := deferred r; busy := busy r; backoff_skipped := true; reached_end := reached_end r |}.
Definition set_end (b : bool) (r : report) : report :=
  {| count := count r; memory_ids := memory_ids r; deferred := deferred r; busy := busy r; backoff_skipped := backoff_skipped r; reached_end := b |}.

(** [IngestReport.completed]. *)
Definition completed (r : report) : bool := reached_end r && negb (busy r || deferred r) && (count r ERRORS =? 0)%Z.

(** One session's files, the persona's files a pass writes, the report of the running
    pass, and the trace. *)
Record ingest := {
  i_conv : conv;
  i_poison : option jfile;       (* active_conversations/poison/<sid>.span.jsonl *)
  i_since : option json;         (* extraction_chunked_since.json, decoded; damaged is absent *)
  i_souls : option jfile;        (* soul_candidates.jsonl *)
  i_report : report;
  i_trace : trace }.

Abbreviation I := (M ingest).

Definition on_conv (f : conv -> conv) : I unit := modify (fun s =>
  {| i_conv := f (i_conv s); i_poison := i_poison s; i_since := i_since s; i_souls := i_souls s; i_report := i_report s; i_trace := i_trace s |}).
Definition on_poison (f : option jfile -> option jfile) : I unit := modify (fun s =>
  {| i_conv := i_conv s; i_poison := f (i_poison s); i_since := i_since s; i_souls := i_souls s; i_report := i_report s; i_trace := i_trace s |}).
Definition on_since (x : option json) : I unit := modify (fun s =>
  {| i_conv := i_conv s; i_poison := i_poison s; i_since := x; i_souls := i_souls s; i_report := i_report s; i_trace := i_trace s |}).
Definition on_souls (f : option jfile -> option jfile) : I unit := modify (fun s =>
  {| i_conv := i_conv s; i_poison := i_poison s; i_since := i_since s; i_souls := f (i_souls s); i_report := i_report s; i_trace := i_trace s |}).
Definition on_report (f : report -> report) : I unit := modify (fun s =>
  {| i_conv := i_conv s; i_poison := i_poison s; i_since := i_since s; i_souls := i_souls s; i_report := f (i_report s); i_trace := i_trace s |}).
Definition log (e : event) : I unit := modify (fun s =>
  {| i_conv := i_conv s; i_poison := i_poison s; i_since := i_since s; i_souls := i_souls s; i_report := i_report s; i_trace := i_trace s ++ [e] |}).

Definition bump (c : counter) : I unit := on_report (bump_by 1 c).

(** [try: m  except Exception: h]. *)
Definition try_except {A} (m : I A) (h : I A) : I A := catch m (fun e => if is_Exception e then Some h else None).

(** An operation of [Buffer] on the session's files: it changes them, or raises. *)
Definition conv_op (f : conv -> res conv) : I unit :=
  c ← gets i_conv;
  match f c with Ok c' => on_conv (fun _ => c') | Err e => raise e end.

Section accesses.
Context `{Outside}.

(** An answer of the outside, which the trace keeps. *)
Definition ask {A} (mk : res A -> event) (answer : trace -> res A) : I A :=
  t ← gets i_trace;
  log (mk (answer t));;
  of_res (answer t).

(** An access to a file: it works, raises [OSError], or is where the process dies. *)
Definition probe : I bool :=
  t ← gets i_trace;
  log EvDisk;;
  match disk t with Works => mret true | Fails => mret false | Dies => raise Crash end.

Definition touch : I unit := ok ← probe; if (ok : bool) then mret tt else raise OSError.

Definition now : I Z := gets (fun s => clock (i_trace s)).

(** Other writers of the session's files get a turn. *)
Definition meanwhile (held : bool) : I unit :=
  t ← gets i_trace;
  log EvOthers;;
  on_conv (others t held).

(** An append: all of it, or what was written before it failed. *)
Definition appending (put : (option jfile -> option jfile) -> I unit) (rs : list json) : I unit :=
  t ← gets i_trace;
  log EvDisk;;
  match disk t with
  | Works => put (fun f => file_append f rs None)
  | Fails => put (fun f => file_append f rs (Some (cut_at t)));; raise OSError
  | Dies => put (fun f => file_append f rs (Some (cut_at t)));; raise Crash
  end.
End accesses.

(** ** Commits *)
Definition GATE_BYPASS_TYPES : list pystr :=
  [u "journal_entry"; u "initiate_outbound"; u "monologue_emotion"; u "self_model_reconcile"].

Section pipeline.
Context `{PyLib, Outside}.
Variable prompt_of : pystr -> pystr.              (* the extraction prompt of a transcript; its wording is in prompt_strings.toml *)
Variable sid : pystr.
Variable user_name : option pystr.                (* of persona_config.json *)
Variable persona_name : pystr.                    (* the persona directory's name *)
Variable valid_emotions : list pystr.             (* the registered ones *)
Variable chunk_chars : json.                      (* the tunable "ingest.extraction_chunk_chars" *)
Variables (max_retries crystallize_threshold : Z).   (* the knobs of cfg *)

(** [s.split()]. *)
Fixpoint split_ws (current : pystr) (s : pystr) : list pystr :=
  match s with
  | [] => match current with [] => [] | _ => [current] end
  | c :: s => if is_space c then match current with [] => split_ws [] s | _ => current :: split_ws [] s end
              else split_ws (current ++ [c]) s
  end.

Definition keyword_of (text : pystr) : pystr :=
  match List.filter (fun w => (4 <? length w)%nat) (split_ws [] text) with w :: _ => w | [] => take 20 text end.

Fixpoint link_to (new_id : pystr) (related : list pystr) (linked : nat) : I unit :=
  match related with
  | [] => mret tt
  | id :: related =>
      if bool_decide (id = new_id) then link_to new_id related linked else
      ask (EvLink new_id id) (fun t => strengthen t new_id id);;
      if (3 <=? S linked)%nat then mret tt else link_to new_id related (S linked)
  end.

Definition commit_item (m : memory_item) : I (option pystr) :=
  id ← try_except (id ← ask (EvStore m) (fun t => write_memory t m); mret (Some id)) (mret None);
  match id with
  | None => mret None
  | Some new_id =>
      if negb (bool_decide (m_label m ∈ GATE_BYPASS_TYPES)) then mret (Some new_id) else
      try_except (let keyword := keyword_of (m_text m) in
                  related ← ask (EvSearch keyword) (fun t => search_text t keyword);
                  link_to new_id related 0) (mret tt);;
      mret (Some new_id)
  end.

Definition is_duplicate (text : pystr) : I bool := try_except (ask (EvSimilar text) (fun t => similar t text)) (mret false).

(** ** The soul queue *)
Definition soul_record (memory_id : pystr) (m : memory_item) (now_ : Z) : json :=
  JObj [(u "memory_id", JStr memory_id); (u "text", JStr (m_text m)); (u "label", JStr (m_label m)); (u "importance", JInt (m_importance m));
        (u "session_id", JStr sid); (u "queued_at", JStr (iso_seconds (utc now_))); (u "status", JStr (u "auto_pending"))].

(** The queue is read as far as the disk allows. *)
Definition is_soul_candidate_queued (text : pystr) : I bool :=
  t ← gets i_trace;
  ok ← probe;
  rows ← gets (fun s => rows_of (i_souls s));
  let rows := if (ok : bool) then rows else take (cut_at t) rows in
  mret (existsb (fun rec => jis_str sid (jget_none (u "session_id") rec) && jis_str text (jget_none (u "text") rec)) rows).

Definition queue_soul_candidate (memory_id : pystr) (m : memory_item) : I bool :=
  n ← now;
  let rec := soul_record memory_id m n in
  _ ← of_res (encode_jsonl true [rec]);
  catch (appending on_souls [rec];; mret true) (fun e => match e with OSError => Some (mret false) | _ => None end).

(** ** One model call *)
Inductive outcome := Extracted (items : list raw_item) | NotNow | GaveUp.

(** [provider.generate] in its [try]: an answer, "not now", or any other exception. *)
Inductive reply := Said (raw : pystr) | Refused | Broke.

Definition ask_model (transcript : pystr) : I reply :=
  catch (meanwhile false;; raw ← ask (EvModel transcript) (fun t => generate t (prompt_of transcript)); mret (Said raw))
        (fun e => match e with
                  | ShutdownDeferred => None
                  | ThrottleDeferred => Some (mret Refused)
                  | _ => if is_Exception e then Some (mret Broke) else None
                  end).

Fixpoint attempts (n : nat) (transcript : pystr) : I outcome :=
  match n with
  | O => mret GaveUp
  | S n =>
      r ← ask_model transcript;
      match r with
      | Refused => mret NotNow
      | Broke => attempts n transcript
      | Said raw =>
          items ← of_res (parse_extraction raw);
          match items with
          | Some items => mret (Extracted items)
          | None => log (EvUnparsed raw);; attempts n transcript
          end
      end
  end.

Definition extract_items_with_status (transcript : pystr) : I outcome :=
  if bool_decide (strip transcript = []) then mret (Extracted []) else attempts (Z.to_nat (max_retries + 1)) transcript.

(** ** One piece *)
Inductive chunk_result := OK | DEFERRED | FAILED | COMMIT_FAILED.

#[export] Instance chunk_result_eq_dec : EqDecision chunk_result.
Proof. solve_decision. Defined.

Fixpoint normalize_all (items : list raw_item) : res (list memory_item) :=
  match items with
  | [] => Ok []
  | r :: items => m ← normalize (Some valid_emotions) r; rest ← normalize_all items; mret (m :: rest)
  end.

Definition one_item (queue_soul : bool) (m : memory_item) : I unit :=
  dup ← is_duplicate (m_text m);
  if (dup : bool) then bump DEDUPED else
  id ← commit_item m;
  match id with
  | None => bump ERRORS;; bump COMMIT_FAILURES
  | Some mem_id =>
      bump (if bool_decide (m_label m ∈ GATE_BYPASS_TYPES) then COMMITTED else ENQUEUED);;
      on_report (add_id mem_id);;
      if queue_soul && (crystallize_threshold <=? m_importance m)%Z then
        queued ← is_soul_candidate_queued (m_text m);
        if (queued : bool) then mret tt else
        ok ← queue_soul_candidate mem_id m;
        bump (if (ok : bool) then SOUL_CANDIDATES else SOUL_QUEUE_ERRORS)
      else mret tt
  end.

Definition run_chunk_stages (transcript : pystr) (queue_soul : bool) : I chunk_result :=
  bump CHUNKS;;
  extraction ← extract_items_with_status transcript;
  match extraction with
  | NotNow => mret DEFERRED
  | GaveUp => bump ERRORS;; mret FAILED
  | Extracted items =>
      items ← of_res (normalize_all (List.filter (fun r => negb (bool_decide (r_text r = []))) items));
      on_report (bump_by (Z.of_nat (length items)) EXTRACTED);;
      before ← gets (fun s => count (i_report s) COMMIT_FAILURES);
      for_each items (one_item queue_soul);;
      after ← gets (fun s => count (i_report s) COMMIT_FAILURES);
      mret (if (before <? after)%Z then COMMIT_FAILED else OK)
  end.

(** ** The backoff sidecar *)
Definition BACKOFF_FAILURE_THRESHOLD : Z := 3.
Definition BACKOFF_WINDOW_MINUTES : float := f10.

(** [read_backoff]: [read_json] with a default, so an unreadable file is no state. *)
Definition backoff_state : I (option json) :=
  ok ← probe;
  c ← gets i_conv;
  mret (if (ok : bool) then read_backoff c else None).

(** [existing["failures"] + 1] and [... >= 3]. *)
Definition one_more (v : json) : res json :=
  match v with
  | JInt z => Ok (JInt (z + 1))
  | JBool b => Ok (JInt (if b then 2 else 1))
  | JFloat f => Ok (JFloat (fadd f f1))
  | _ => Err TypeError
  end.

Definition at_threshold (v : json) : res bool :=
  match v with
  | JInt z => Ok (BACKOFF_FAILURE_THRESHOLD <=? z)%Z
  | JBool b => Ok false
  | JFloat f => Ok (fle (fofZ BACKOFF_FAILURE_THRESHOLD) f)
  | _ => Err TypeError
  end.

Definition field (k : string) (state : json) : json := jget_none (u k) state.

Definition as_text (v : json) : res pystr := match v with JStr s => Ok s | _ => Err AttributeError end.

Definition extraction_failures_exhausted : I bool :=
  state ← backoff_state;
  match state with None => mret false | Some state => of_res (at_threshold (field "failures" state)) end.

(** [failing_end_ts or existing.get("failing_end_ts")]. *)
Definition failing_end (new : option pystr) (state : json) : json :=
  match new with Some ((_ :: _) as s) => JStr s | _ => field "failing_end_ts" state end.

Definition record_extraction_failure (failing_end_ts : option pystr) : I unit :=
  existing ← backoff_state;
  match existing with
  | None =>
      n ← now; touch;;
      conv_op (write_backoff (JInt 1) (isoformat n) (match failing_end_ts with Some s => JStr s | None => JNull end))
  | Some state =>
      failures ← of_res (one_more (field "failures" state));
      first ← of_res (as_text (field "first_failure_at" state));
      touch;;
      conv_op (write_backoff failures first (failing_end failing_end_ts state))
  end.

(** ** Where chunked extraction began *)
Definition since_entries (file : option json) : option (list (pystr * json)) :=
  data ← file;
  match jget_none (u "sessions") data with JObj kvs => Some kvs | _ => None end.

Definition has_entry (entries : option (list (pystr * json))) : bool :=
  match entries with
  | Some kvs => bool_decide (is_Some (stamp_value (default JNull (dict_get sid kvs))))
  | None => false
  end.

Definition min_stamp (turns : list json) : option Z := fold_left earlier (map stamp_of turns) None.

Definition mark_chunked_extraction (first_row : option Z) : I unit :=
  ok ← probe;
  file ← gets i_since;
  if has_entry (if (ok : bool) then since_entries file else None) then mret tt else
  n ← now;
  let since := isoformat (default n first_row) in
  catch (touch;;
         ok ← probe;
         file ← gets i_since;
         let entries := if (ok : bool) then since_entries file else None in
         if has_entry entries then mret tt else
         touch;;
         on_since (Some (JObj [(u "sessions", JObj (dict_set sid (JStr since) (default [] entries)))])))
        (fun e => match e with OSError => Some (mret tt) | _ => None end).

(** ** The chunks of a pass *)
Definition CHUNK_CHARS_DEFAULT : Z := 24000.
Definition extraction_chunk_chars (value : json) : Z :=
  match value with JInt z => if (0 <? z)%Z then z else CHUNK_CHARS_DEFAULT | _ => CHUNK_CHARS_DEFAULT end.

Definition chunks_now (turns : list json) : res (list chunk) :=
  chunk_turns turns (extraction_chunk_chars chunk_chars) user_name (Some persona_name).

Definition not_summary (t : json) : bool := negb (speaker_is "summary" t).

Fixpoint run_pieces (pieces : list pystr) : I chunk_result :=
  match pieces with
  | [] => mret OK
  | piece :: pieces =>
      result ← run_chunk_stages piece true;
      match result with OK => run_pieces pieces | _ => mret result end
  end.

(** [write_cursor], and the cursor of a committed chunk. *)
Definition move_cursor (ts : pystr) : I unit :=
  _ ← of_res (fromisoformat (replace_z ts));
  touch;;
  conv_op (write_cursor ts);;
  log (EvCursor ts).

Definition move_past (c : chunk) : I unit :=
  match ch_cursor c with
  | Some ((_ :: _) as ts) => catch (move_cursor ts) (fun e => if bool_decide (e = OSError) || is_ValueError e then Some (mret tt) else None)
  | _ => mret tt
  end.

Definition clear_backoff : I unit := touch;; on_conv delete_backoff.

Fixpoint chunk_loop (record_failures : bool) (max_chunks : option Z) (index : Z) (chunks : list chunk) : I unit :=
  match chunks with
  | [] => on_report (set_end true)
  | c :: chunks =>
      if match max_chunks with Some m => (m <=? index)%Z | None => false end then mret tt else
      result ← run_pieces (ch_pieces c);
      match result with
      | DEFERRED => on_report set_deferred
      | FAILED | COMMIT_FAILED => if record_failures then record_extraction_failure (ch_cursor c) else mret tt
      | OK =>
          (if record_failures then clear_backoff else mret tt);;
          move_past c;;
          chunk_loop record_failures max_chunks (index + 1) chunks
      end
  end.

Definition run_chunks (record_failures : bool) (max_chunks : option Z) (turns : list json) : I unit :=
  mark_chunked_extraction (min_stamp turns);;
  chunks ← of_res (chunks_now turns);
  chunk_loop record_failures max_chunks 0 chunks.

(** ** A snapshot *)
Definition read_cursor_file : I (option pystr) :=
  touch;;
  c ← gets i_conv;
  mret (read_cursor c).

Definition read_rows : I (list json) :=
  touch;;
  c ← gets i_conv;
  mret (read_session c).

(** The rows after the cursor that are not summaries. *)
Definition rows_after_cursor : I (list json) :=
  cur ← read_cursor_file;
  rows ← read_rows;
  mret (List.filter not_summary (read_session_after rows cur)).

(** [read_backoff] says at the threshold, and the window since the first failure is not over. *)
Definition in_backoff_window : I bool :=
  state ← backoff_state;
  match state with
  | None => mret false
  | Some state =>
      at_ ← of_res (at_threshold (field "failures" state));
      if negb at_ then mret false else
      first ← of_res (as_text (field "first_failure_at" state));
      d ← of_res (fromisoformat (replace_z first));
      n ← now;
      mret (flt (fdiv (total_seconds (n - at_utc (aware d))) (fofZ 60)) BACKOFF_WINDOW_MINUTES)
  end.

Definition extract_session_snapshot_locked (max_chunks : option Z) : I unit :=
  wait ← in_backoff_window;
  if (wait : bool) then bump ERRORS;; on_report set_skipped else
  turns ← rows_after_cursor;
  match turns with
  | [] => on_report (set_end true)
  | _ => run_chunks true max_chunks turns;; read_cursor_file;; mret tt
  end.

(** A pass starts its own report, and returns it. *)
Definition reporting (m : I unit) : I report :=
  on_report (fun _ => new_report);;
  m;;
  gets i_report.

(** [with file_lock(extract_lock_path(...), blocking=False) as acquired]. *)
Definition under_extract_lock {A} (if_busy body : I A) : I A :=
  touch;;
  free ← gets (fun s => extract_lock_free (i_trace s));
  if (free : bool) then body else if_busy.

Definition extract_session_snapshot (max_chunks : option Z) : I report :=
  reporting (under_extract_lock (on_report set_busy) (extract_session_snapshot_locked max_chunks)).

(** ** Setting the failing chunk aside *)
Definition up_to (failing_end : option Z) (t : json) : bool :=
  match failing_end, stamp_of t with Some e, Some s => (s <=? e)%Z | _, _ => true end.

Definition poison_unextracted_span : I (option Z) :=
  under_extract_lock (mret None)
    (turns ← rows_after_cursor;
     state ← backoff_state;
     let failing_end := stamp_value (field "failing_end_ts" (default (JObj []) state)) in
     match List.filter (up_to failing_end) turns with
     | [] => clear_backoff;; mret (Some 0%Z)
     | turns =>
         chunks ← of_res (chunks_now turns);
         failing ← of_option IndexError (head chunks);
         touch;;
         _ ← of_res (encode_jsonl false (ch_turns failing));
         appending on_poison (ch_turns failing);;
         (match ch_cursor failing with Some ((_ :: _) as ts) => move_cursor ts | _ => mret tt end);;
         clear_backoff;;
         mret (Some (Z.of_nat (length (ch_turns failing))))
     end).

(** ** Closing a session *)

(** [_row_key]; a value that cannot be hashed raises. *)
Definition row_key (t : json) : res identity :=
  let i := turn_identity t in
  if hashable i.1.1 && hashable i.1.2 && hashable i.2 then Ok i else Err TypeError.

Fixpoint row_keys (turns : list json) : res (list identity) :=
  match turns with [] => Ok [] | t :: turns => k ← row_key t; ks ← row_keys turns; mret (k :: ks) end.

(** The rows that are not summaries and not among the seen ones. *)
Fixpoint late_rows (seen : list identity) (rows : list json) : res (list json) :=
  match rows with
  | [] => Ok []
  | t :: rows =>
      is_late ← (if not_summary t then k ← row_key t; mret (negb (existsb (same_identity k) seen)) else Ok false);
      rest ← late_rows seen rows;
      mret (if (is_late : bool) then t :: rest else rest)
  end.

Fixpoint same_rows (a b : list json) : bool :=
  match a, b with [], [] => true | x :: a, y :: b => py_eq x y && same_rows a b | _, _ => false end.

Definition CLOSE_BATCH_GEN : Z := 0.

(** [archive_once]: the bytes written, 1 for a batch that is archived already. *)
Definition archive_batch (records : list json) (gen : Z) : I Z :=
  match records with
  | [] => mret 0%Z
  | _ =>
      key ← of_res (archive_batch_key records gen);
      ok ← probe;
      c ← gets i_conv;
      if bool_decide ((if (ok : bool) then read_archive_marker c else None) = Some key) then mret 1%Z else
      data ← of_res (encode_jsonl false records);
      t ← gets i_trace;
      log EvDisk;;
      (match disk t with
       | Works => conv_op (append_archive (size_known t) records None)
       | Fails => conv_op (append_archive (size_known t) records (Some (cut_at t)));; raise OSError
       | Dies => conv_op (append_archive (size_known t) records (Some (cut_at t)));; raise Crash
       end);;
      touch;;
      on_conv (write_archive_marker key);;
      mret (Z.of_nat (length data))
  end.

(** [_archive_buffer]. *)
Definition archive_buffer : I (list json) :=
  rows ← read_rows;
  written ← archive_batch rows CLOSE_BATCH_GEN;
  if negb (no_rows rows) && (written <=? 0)%Z then raise OSError else mret rows.

(** Under the append lock: the late rows, the archive, the confirming read, the removal.
    Other writers get a turn between them; [held] says whether the lock was had. *)
Definition close_removal (held : bool) (turns : list json) : I unit :=
  seen ← of_res (row_keys turns);
  cur ← read_cursor_file;
  rows ← read_rows;
  late ← of_res (late_rows seen (read_session_after rows cur));
  match late with
  | _ :: _ => on_report (set_end false)
  | [] =>
      meanwhile held;;
      archived ← archive_buffer;
      meanwhile held;;
      rows ← read_rows;
      if negb (same_rows rows archived) then on_report (set_end false) else
      meanwhile held;;
      touch;; on_conv delete_session_buffer;;
      touch;; on_conv delete_cursor;;
      clear_backoff
  end.

Definition close_session_locked : I unit :=
  turns ← rows_after_cursor;
  (match turns with [] => on_report (set_end true) | _ => run_chunks false None turns end);;
  done_ ← gets (fun s => reached_end (i_report s));
  if negb done_ then mret tt else
  meanwhile false;;
  held ← probe;
  close_removal held turns.

Definition close_session : I report :=
  reporting (under_extract_lock (on_report set_busy) close_session_locked).

(** ** [_extraction_allows_rollover] *)
Inductive pass_end := Ran (r : report) | WasDeferred | WasRaised.

Definition try_pass : I pass_end :=
  catch (r ← extract_session_snapshot None; mret (Ran r))
        (fun e => match e with
                  | ShutdownDeferred => None
                  | ThrottleDeferred => Some (mret WasDeferred)
                  | _ => if is_Exception e then Some (mret WasRaised) else None
                  end).

(** Records an exception as a failure; [false] when that fails. *)
Definition try_record : I bool := try_except (record_extraction_failure None;; mret true) (mret false).

Definition set_aside_and_finish : I bool :=
  exhausted ← extraction_failures_exhausted;
  if negb exhausted then mret false else
  aside ← try_except (n ← poison_unextracted_span; mret n) (mret None);
  match aside with
  | None => mret false
  | Some _ =>
      again ← try_pass;
      match again with
      | Ran r => mret (completed r)
      | WasDeferred => mret false
      | WasRaised => try_record;; mret false
      end
  end.

Definition extraction_allows_rollover : I bool :=
  first ← try_pass;
  match first with
  | Ran r => if completed r then mret true
             else if busy r || deferred r || backoff_skipped r then mret false
             else set_aside_and_finish
  | WasDeferred => mret false
  | WasRaised => ok ← try_record; if negb ok then mret false else set_aside_and_finish
  end.

(** [_delete_ghost_buffer], under the append lock when it is had. *)
Definition delete_ghost_buffer : I unit :=
  held ← probe;
  meanwhile held;;
  rows ← read_rows;
  match rows with [] => meanwhile held;; touch;; on_conv delete_session_buffer | _ => mret tt end.
End pipeline.

(** ** The sweeps over a persona's sessions *)
Record estate := {
  e_convs : gmap pystr conv;
  e_poisons : gmap pystr jfile;
  e_since : option json;
  e_souls : option jfile;
  e_trace : trace }.

Definition session_view (sid : pystr) (e : estate) : ingest :=
  {| i_conv := default no_conv (e_convs e !! sid); i_poison := e_poisons e !! sid; i_since := e_since e; i_souls := e_souls e;
     i_report := new_report; i_trace := e_trace e |}.

Definition session_update (sid : pystr) (s : ingest) (e : estate) : estate :=
  {| e_convs := <[sid := i_conv s]> (e_convs e);
     e_poisons := match i_poison s with Some f => <[sid := f]> (e_poisons e) | None => delete sid (e_poisons e) end;
     e_since := i_since s; e_souls := i_souls s; e_trace := i_trace s |}.

Definition on_session {A} (sid : pystr) (m : I A) : M estate A := zoom (session_view sid) (session_update sid) m.

Section sweeps.
Context `{PyLib, Outside}.
Variable prompt_of : pystr -> pystr.
Variable user_name : option pystr.
Variable persona_name : pystr.
Variable valid_emotions : list pystr.
Variable chunk_chars : json.
Variables (max_retries crystallize_threshold : Z).
Variable should_pause : trace -> bool.      (* never, when the caller passes none *)
Variable listing : list pystr.              (* the session names of the directory, in its order *)

Abbreviation snapshot sid :=
  (extract_session_snapshot prompt_of sid user_name persona_name valid_emotions chunk_chars max_retries crystallize_threshold (Some 1%Z)).

Definition list_active_sessions (e : estate) : list pystr :=
  List.filter (fun sid => bool_decide (is_Some (buffer (default no_conv (e_convs e !! sid))))) listing.

(** A sweep over sessions that collects reports and may stop early. *)
Fixpoint sweep_over (visit : pystr -> M estate (option report * bool)) (sids : list pystr) : M estate (list (pystr * report)) :=
  match sids with
  | [] => mret []
  | sid :: sids =>
      '(r, stop) ← visit sid;
      let found := match r with Some r => [(sid, r)] | None => [] end in
      if (stop : bool) then mret found else
      rest ← sweep_over visit sids;
      mret (found ++ rest)
  end.

Definition is_deferral (e : exn) : bool := bool_decide (e = ThrottleDeferred) || bool_decide (e = ShutdownDeferred).

(** Any exception but a deferral. *)
Definition unless_deferred {A} (m h : M estate A) : M estate A :=
  catch m (fun e => if is_Exception e && negb (is_deferral e) then Some h else None).

Definition paused : M estate bool := gets (fun e => should_pause (e_trace e)).

Definition silence (turns : list json) : M estate float := gets (fun e => session_silence_minutes turns (clock (e_trace e))).

Definition snapshot_visit (silence_minutes : float) (sid : pystr) : M estate (option report * bool) :=
  unless_deferred
    (turns ← on_session sid read_rows;
     match turns with
     | [] => on_session sid delete_ghost_buffer;; mret (None, false)
     | _ =>
         age ← silence turns;
         if fle silence_minutes age then
           r ← on_session sid (snapshot sid);
           p ← paused;
           mret (Some r, p)
         else mret (None, false)
     end)
    (mret (None, false)).

Definition snapshot_stale_sessions (silence_minutes : float) : M estate (list (pystr * report)) :=
  sids ← gets list_active_sessions;
  sweep_over (snapshot_visit silence_minutes) sids.

(** The report of a snapshot that raised. *)
Definition failed_report : report := bump_by 1 COMMIT_FAILURES (bump_by 1 ERRORS new_report).

Definition set_aside_failing (sid : pystr) : M estate unit :=
  state ← on_session sid backoff_state;
  at_ ← of_res (match state with Some state => at_threshold (field "failures" state) | None => Ok false end);
  if negb at_ then mret tt else
  catch (on_session sid (poison_unextracted_span user_name persona_name chunk_chars);; mret tt)
        (fun e => if is_Exception e then Some (mret tt) else None).

Definition finalize_visit (finalize_after_hours : float) (sid : pystr) : M estate (option report * bool) :=
  turns ← on_session sid read_rows;
  match turns with
  | [] => mret (None, false)
  | _ =>
      age ← silence turns;
      if flt age (fmul finalize_after_hours (fofZ 60)) then mret (None, false) else
      r ← unless_deferred (on_session sid (snapshot sid)) (mret failed_report);
      set_aside_failing sid;;
      p ← paused;
      mret (Some r, p)
  end.

Definition finalize_stale_sessions (finalize_after_hours : float) : M estate (list (pystr * report)) :=
  sids ← gets list_active_sessions;
  sweep_over (finalize_visit finalize_after_hours) sids.

Definition close_visit (silence_minutes : float) (sid : pystr) : M estate (option report * bool) :=
  turns ← on_session sid read_rows;
  match turns with
  | [] => on_session sid delete_ghost_buffer;; mret (None, false)
  | _ =>
      age ← silence turns;
      if fle silence_minutes age then
        r ← on_session sid (close_session prompt_of sid user_name persona_name valid_emotions chunk_chars max_retries crystallize_threshold);
        mret (Some r, false)
      else mret (None, false)
  end.

Definition close_stale_sessions (silence_minutes : float) : M estate (list (pystr * report)) :=
  sids ← gets list_active_sessions;
  sweep_over (close_visit silence_minutes) sids.
End sweeps.
