(* ===== verification/PipelineFacts.v ===== *)
(** What the accesses of a pass say: the cursor moves only past rows whose items are
    all in. *)
From S2P Require Import Prelude PyFloat PyTime Json Crypto Protocol ConnectCode PyVal JsonCut StateFile Jsonl Buffer Compaction Chunks Extract Pipeline.

(** ** The trace of a pass *)
Definition plain (e : event) : Prop := match e with EvCursor _ => False | _ => True end.

(** [s'] came after [s], with these accesses between. *)
Definition adds (es : trace) (s s' : ingest) : Prop := i_trace s' = i_trace s ++ es.

Lemma adds_nil s s' : i_trace s' = i_trace s -> adds [] s s'.
Proof. unfold adds. intros ->. by rewrite app_nil_r. Qed.
Lemma adds_trans es1 es2 s1 s2 s3 : adds es1 s1 s2 -> adds es2 s2 s3 -> adds (es1 ++ es2) s1 s3.
Proof. unfold adds. intros -> ->. by rewrite (assoc_L (++)) || rewrite <- (assoc_L (++)). Qed.

(** Accesses that say nothing about items. *)
Definition aside (e : event) : Prop :=
  match e with EvSearch _ _ | EvLink _ _ _ | EvDisk | EvOthers => True | _ => False end.

(** Between the states only accesses in [P] happened, and the report changed as [K] says. *)
Definition within (P : event -> Prop) (K : report -> report -> Prop) (s s' : ingest) : Prop :=
  (exists es, adds es s s' /\ Forall P es) /\ K (i_report s) (i_report s').

#[export] Instance within_preorder P K `{!PreOrder K} : PreOrder (within P K).
Proof.
  split.
  - intros s. split; [|done]. exists []. split; [by apply adds_nil|constructor].
  - intros s1 s2 s3 [(es1 & H1 & P1) K1] [(es2 & H2 & P2) K2]. split; [|by etrans].
    exists (es1 ++ es2). split; [by eapply adds_trans|by apply Forall_app].
Qed.

Definition any_report (r r' : report) : Prop := True.
Definition same_counts (c : counter) (r r' : report) : Prop := count r' c = count r c.

#[export] Instance any_report_preorder : PreOrder any_report.
Proof. by split. Qed.
#[export] Instance same_counts_preorder c : PreOrder (same_counts c).
Proof. split; [done|]. unfold same_counts. intros a b d H1 H2. congruence. Qed.

Section within.
Context `{PyLib, Outside}.
Context (P : event -> Prop) (K : report -> report -> Prop) `{!PreOrder K} (Haside : forall e, aside e -> P e).
Abbreviation R := (within P K).

Lemma within_same s s' : i_trace s' = i_trace s -> i_report s' = i_report s -> R s s'.
Proof. intros Ht Hr. split; [|by rewrite Hr]. exists []. split; [by apply adds_nil|constructor]. Qed.

Lemma pres_on_conv f : pres R (on_conv f). Proof. intros s. by apply within_same. Qed.
Lemma pres_on_poison f : pres R (on_poison f). Proof. intros s. by apply within_same. Qed.
Lemma pres_on_since f : pres R (on_since f). Proof. intros s. by apply within_same. Qed.
Lemma pres_on_souls f : pres R (on_souls f). Proof. intros s. by apply within_same. Qed.
Lemma pres_on_report f : (forall r, K r (f r)) -> pres R (on_report f).
Proof. intros Hf s. split; [|apply Hf]. exists []. split; [by apply adds_nil|constructor]. Qed.
Lemma pres_log e : P e -> pres R (log e).
Proof. intros He s. split; [|reflexivity]. exists [e]. split; [done|by repeat constructor]. Qed.

Lemma pres_ask {A} (mk : res A -> event) answer : (forall r, P (mk r)) -> pres R (ask mk answer).
Proof. intros He. unfold ask. pres_step; [by pres_auto|]. pres_step; [by apply pres_log|]. by pres_auto. Qed.
Lemma pres_probe : pres R probe.
Proof. unfold probe. pres_step; [by pres_auto|]. pres_step; [by apply pres_log, Haside|]. by pres_auto. Qed.
Lemma pres_touch : pres R touch.
Proof. unfold touch. pres_step; [apply pres_probe|]. by pres_auto. Qed.
Lemma pres_meanwhile h : pres R (meanwhile h).
Proof. unfold meanwhile. pres_step; [by pres_auto|]. pres_step; [by apply pres_log, Haside|]. apply pres_on_conv. Qed.
Lemma pres_conv_op f : pres R (conv_op f).
Proof. unfold conv_op. pres_step; [by pres_auto|]. destruct (f _); [apply pres_on_conv|by pres_auto]. Qed.
Lemma pres_appending put rs : (forall f, pres R (put f)) -> pres R (appending put rs).
Proof.
  intros Hp. unfold appending. pres_step; [by pres_auto|]. pres_step; [by apply pres_log, Haside|].
  destruct (disk _); [done| |]; (pres_step; [done|]; by pres_auto).
Qed.
End within.

(** The handlers of [catch]. *)
Ltac handlers := repeat match goal with
  | H : (match ?x with _ => _ end) = Some _ |- _ => destruct x; try discriminate H
  | H : (if ?x then _ else _) = Some _ |- _ => destruct x; try discriminate H
  end; simplify_eq.

(** What is in [P] by cases, and what keeps [K]. *)
Ltac within_side := solve [done | intros; match goal with Ha : forall e, aside e -> @?Q e |- _ => apply Ha; constructor end | intros; assumption | intros; by auto | intros []; done | intros; constructor | intros []; constructor].

#[export] Hint Resolve pres_on_conv pres_on_poison pres_on_since pres_on_souls pres_conv_op : pres.
#[export] Hint Extern 1 (pres (within _ _) (on_report _)) => apply pres_on_report; first [typeclasses eauto|within_side] : pres.
#[export] Hint Extern 1 (pres (within _ _) (ask _ _)) => apply pres_ask; first [typeclasses eauto|within_side] : pres.
#[export] Hint Extern 1 (pres (within _ _) (log _)) => apply pres_log; first [typeclasses eauto|within_side] : pres.
#[export] Hint Extern 1 (pres (within _ _) probe) => apply pres_probe; first [typeclasses eauto|within_side] : pres.
#[export] Hint Extern 1 (pres (within _ _) touch) => apply pres_touch; first [typeclasses eauto|within_side] : pres.
#[export] Hint Extern 1 (pres (within _ _) (meanwhile _)) => apply pres_meanwhile; first [typeclasses eauto|within_side] : pres.
#[export] Hint Extern 1 (pres (within _ _) (appending _ _)) => apply pres_appending; first [typeclasses eauto|within_side|intros; auto with pres] : pres.
Ltac within_auto := repeat (progress (pres_auto; handlers)).

Section sides.
Context `{PyLib, Outside}.
Context (P : event -> Prop) (K : report -> report -> Prop) `{!PreOrder K} (Haside : forall e, aside e -> P e).
Variable sid : pystr.
Abbreviation R := (within P K).

Lemma pres_link_to id related n : pres R (link_to id related n).
Proof. revert n. induction related as [|r related IH]; intros n; cbn [link_to]; within_auto. Qed.
Lemma pres_is_queued t : pres R (is_soul_candidate_queued sid t).
Proof. unfold is_soul_candidate_queued. within_auto. Qed.
Lemma pres_queue id m : pres R (queue_soul_candidate sid id m).
Proof. unfold queue_soul_candidate, now. within_auto. Qed.
Lemma pres_backoff_state : pres R backoff_state.
Proof. unfold backoff_state. within_auto. Qed.
Hint Resolve pres_backoff_state : pres.
Lemma pres_record e : pres R (record_extraction_failure e).
Proof. unfold record_extraction_failure, now. within_auto. Qed.
Lemma pres_mark f : pres R (mark_chunked_extraction sid f).
Proof. unfold mark_chunked_extraction, now. within_auto. Qed.
Lemma pres_clear_backoff : pres R clear_backoff.
Proof. unfold clear_backoff. within_auto. Qed.
Lemma pres_read_cursor_file : pres R read_cursor_file.
Proof. unfold read_cursor_file. within_auto. Qed.
Lemma pres_read_rows : pres R read_rows.
Proof. unfold read_rows. within_auto. Qed.
End sides.
#[export] Hint Resolve pres_link_to pres_is_queued pres_queue pres_backoff_state pres_record pres_mark pres_clear_backoff pres_read_cursor_file pres_read_rows : pres.

Lemma aside_plain e : aside e -> plain e.
Proof. by destruct e. Qed.
#[export] Hint Extern 0 (forall e, aside e -> plain e) => exact aside_plain : pres.

(** Operations that ask the model and the store. *)
Section plain_sides.
Context `{PyLib, Outside}.
Context (P : event -> Prop) (K : report -> report -> Prop) `{!PreOrder K} (Hplain : forall e, plain e -> P e).
Variable prompt_of : pystr -> pystr.

Let Haside e : aside e -> P e.
Proof. intros He. by apply Hplain, aside_plain. Qed.

Lemma pres_commit_item m : pres (within P K) (commit_item m).
Proof. unfold commit_item, try_except. within_auto; apply pres_ask; auto; intros; by apply Hplain. Qed.
Lemma pres_is_duplicate t : pres (within P K) (is_duplicate t).
Proof. unfold is_duplicate, try_except. within_auto; apply pres_ask; auto; intros; by apply Hplain. Qed.
Lemma pres_ask_model t : pres (within P K) (ask_model prompt_of t).
Proof. unfold ask_model. within_auto; apply pres_ask; auto; intros; by apply Hplain. Qed.
Hint Resolve pres_ask_model : pres.
Lemma pres_attempts n t : pres (within P K) (attempts prompt_of n t).
Proof. induction n as [|n IH]; cbn [attempts]; within_auto; apply pres_log; auto; by apply Hplain. Qed.
Hint Resolve pres_attempts : pres.
Lemma pres_extract k t : pres (within P K) (extract_items_with_status prompt_of k t).
Proof. unfold extract_items_with_status. within_auto. Qed.
End plain_sides.
#[export] Hint Resolve pres_commit_item pres_is_duplicate pres_extract : pres.

(** ** What a served piece leaves in the trace *)

(** Arithmetic on counters. *)
Ltac counted := cbn in *; repeat case_decide; try discriminate; lia.

Section passes.
Context `{PyLib, Outside}.
Variable prompt_of : pystr -> pystr.
Variable sid : pystr.
Variable user_name : option pystr.
Variable persona_name : pystr.
Variable valid_emotions : list pystr.
Variable chunk_chars : json.
Variables (max_retries crystallize_threshold : Z).
Abbreviation run_chunk_stages := (run_chunk_stages prompt_of sid valid_emotions max_retries crystallize_threshold).
Abbreviation one_item := (one_item sid crystallize_threshold).
Abbreviation run_pieces := (run_pieces prompt_of sid valid_emotions max_retries crystallize_threshold).
Abbreviation chunk_loop := (chunk_loop prompt_of sid valid_emotions max_retries crystallize_threshold).
Abbreviation chunks_now := (chunks_now user_name persona_name chunk_chars).
Abbreviation run_chunks := (run_chunks prompt_of sid user_name persona_name valid_emotions chunk_chars max_retries crystallize_threshold).
Abbreviation still := (within plain any_report).
Hint Resolve aside_plain : core.

(** An item that is in: found among the memories, or stored. *)
Definition item_in (m : memory_item) (es : trace) : Prop :=
  es = [EvSimilar (m_text m) (Ok true)] \/
  exists a id rest, es = EvSimilar (m_text m) a :: EvStore m (Ok id) :: rest /\ a <> Ok true /\ Forall aside rest.

(** A piece that was extracted, with every item in. *)
Definition served (piece : pystr) (es : trace) : Prop :=
  strip piece = [] \/
  exists calls raw items ms segs, es = calls ++ [EvModel piece (Ok raw)] ++ concat segs /\
    parse_extraction raw = Ok (Some items) /\
    normalize_all valid_emotions (List.filter (fun r => negb (bool_decide (r_text r = []))) items) = Ok ms /\
    Forall2 item_in ms segs.

(** Pieces served one after the other. *)
Inductive served_in : list pystr -> trace -> Prop :=
| served_nil es : served_in [] es
| served_cons p ps before es after : served p es -> served_in ps after -> served_in (p :: ps) (before ++ es ++ after).

Lemma served_in_after ps es after : served_in ps es -> served_in ps (es ++ after).
Proof.
  induction 1 as [|p ps before es rest Hp _ IH]; [constructor|]. rewrite <- !(assoc_L (++)). by constructor.
Qed.
Lemma served_in_before ps es before : served_in ps es -> served_in ps (before ++ es).
Proof. destruct 1 as [|p ps b es rest Hp Hps]; [constructor|]. rewrite (assoc_L (++)). by constructor. Qed.
Lemma served_in_app ps qs es fs : served_in ps es -> served_in qs fs -> served_in (ps ++ qs) (es ++ fs).
Proof.
  induction 1 as [es|p ps before es rest Hp _ IH]; intros Hq; [by apply served_in_before|].
  rewrite <- !(assoc_L (++)). constructor; auto.
Qed.

(** ** One item *)
Lemma is_duplicate_run text s : exists a, is_duplicate text s =
  ((match a with Ok b => Ok b | Err e => if is_Exception e then Ok false else Err e end), (log (EvSimilar text a) s).2).
Proof.
  exists (similar (i_trace s) text). unfold is_duplicate, try_except, ask. munfold. destruct (similar (i_trace s) text) as [b|e]; [done|].
  by destruct (is_Exception e).
Qed.

Abbreviation settles := (within aside (same_counts COMMIT_FAILURES)).

Lemma try_ask {A B} (mk : res A -> event) answer (k : A -> B) (d : B) s :
  try_except (a ← ask mk answer; mret (k a)) (mret d) s =
  (match answer (i_trace s) with Ok a => Ok (k a) | Err e => if is_Exception e then Ok d else Err e end,
   (log (mk (answer (i_trace s))) s).2).
Proof. unfold try_except, ask. munfold. destruct (answer (i_trace s)) as [a|e]; [done|]. by destruct (is_Exception e). Qed.

Lemma commit_item_run m s : exists a, let s' := (log (EvStore m a) s).2 in
  settles s' (commit_item m s).2 /\ (forall id, (commit_item m s).1 = Ok (Some id) -> a = Ok id).
Proof.
  exists (write_memory (i_trace s) m). cbv zeta. unfold commit_item. rewrite bind_run, try_ask.
  set (s' := (log _ s).2). clearbody s'. destruct (write_memory (i_trace s) m) as [id|e].
  - match goal with |- context [(if negb ?b then ?x else ?y) s'] => set (k := (if negb b then x else y)) end.
    assert (pres settles k) as Hk by (unfold k, try_except; within_auto).
    split; [apply Hk|]. intros id' Hr. enough (forall x, (k s').1 = Ok x -> x = Some id) as He by (apply He in Hr; by injection Hr as ->).
    intros x. unfold k. destruct (negb _); [by intros [= <-]|]. rewrite bind_run. destruct (try_except _ _ _) as [[[]|e] s'']; [|done]. by intros [= <-].
  - destruct (is_Exception e); (split; [reflexivity|done]).
Qed.

Lemma bump_run c s : exists s', bump c s = (Ok tt, s') /\ adds [] s s' /\ i_report s' = bump_by 1 c (i_report s).
Proof. eexists. split; [done|]. split; [by apply adds_nil|done]. Qed.

(** What happens to an item that is no duplicate. *)
Definition store_item (q : bool) (m : memory_item) : M ingest unit :=
  id ← commit_item m;
  match id with
  | None => bump ERRORS;; bump COMMIT_FAILURES
  | Some mem_id =>
      bump (if bool_decide (m_label m ∈ GATE_BYPASS_TYPES) then COMMITTED else ENQUEUED);;
      on_report (add_id mem_id);;
      if q && (crystallize_threshold <=? m_importance m)%Z then
        queued ← is_soul_candidate_queued sid (m_text m);
        if (queued : bool) then mret tt else
        ok ← queue_soul_candidate sid mem_id m;
        bump (if (ok : bool) then SOUL_CANDIDATES else SOUL_QUEUE_ERRORS)
      else mret tt
  end.

Lemma one_item_cases q m s : exists a, let s1 := (log (EvSimilar (m_text m) a) s).2 in
  a = Ok true /\ one_item q m s = bump DEDUPED s1 \/
  a <> Ok true /\ (one_item q m s = store_item q m s1 \/ exists e, one_item q m s = (Err e, s1)).
Proof.
  destruct (is_duplicate_run (m_text m) s) as [a Ha]. exists a. cbv zeta. unfold Pipeline.one_item. rewrite bind_run, Ha.
  destruct a as [[]|e]; [by left|right; split; [done|by left]|right; split; [done|]]. destruct (is_Exception e); [by left|right; eauto].
Qed.

Lemma store_item_run q m s : exists a rest, let s' := (store_item q m s).2 in
  adds (EvStore m a :: rest) s s' /\ Forall aside rest /\
  (count (i_report s) COMMIT_FAILURES <= count (i_report s') COMMIT_FAILURES)%Z /\
  ((store_item q m s).1 = Ok tt -> count (i_report s') COMMIT_FAILURES = count (i_report s) COMMIT_FAILURES -> exists id, a = Ok id).
Proof.
  destruct (commit_item_run m s) as (a & Hc). exists a. cbv zeta in *. destruct Hc as [[(es1 & Ht1 & Hes1) Hr1] Hid].
  assert (adds [EvStore m a] s (log (EvStore m a) s).2) as Hlog by done. unfold same_counts in Hr1. cbn in Hr1. unfold store_item. rewrite bind_run.
  destruct (commit_item m s) as [[[id|]|e] s1]; cbn [fst snd] in *.
  - match goal with |- context [(bump ?c;; ?k) s1] => assert (pres settles k) as Hk; [|set (rest := k) in *; clearbody rest] end.
    { unfold bump. within_auto. all: destruct (_ : bool); within_auto. }
    destruct (bump_run (if bool_decide (m_label m ∈ GATE_BYPASS_TYPES) then COMMITTED else ENQUEUED) s1) as (s2 & Hb & Ht2 & Hr2).
    rewrite bind_run, Hb. destruct (Hk s2) as [(es3 & Ht3 & Hes3) Hr3]. exists (es1 ++ [] ++ es3). split_and!.
    + eapply (adds_trans [EvStore m a] (es1 ++ [] ++ es3)); [exact Hlog|]. eapply adds_trans; [done|]. by eapply adds_trans.
    + by apply Forall_app.
    + unfold same_counts in Hr3. rewrite Hr3, Hr2. destruct (bool_decide _); counted.
    + intros _ _. exists id. by apply Hid.
  - exists es1. split_and!.
    + eapply (adds_trans [EvStore m a] es1); [exact Hlog|]. unfold bump. munfold. by unfold adds in *; cbn in *.
    + done.
    + unfold bump. munfold. counted.
    + intros _. unfold bump. munfold. counted.
  - exists es1. split_and!; [|done|lia|done]. by eapply (adds_trans [EvStore m a] es1).
Qed.

(** Either the item is in, or a commit failure is counted, or it raises. *)
Lemma one_item_run q m s : let s' := (one_item q m s).2 in
  (exists es, adds es s s' /\ Forall plain es /\
     ((one_item q m s).1 = Ok tt -> count (i_report s') COMMIT_FAILURES = count (i_report s) COMMIT_FAILURES -> item_in m es)) /\
  (count (i_report s) COMMIT_FAILURES <= count (i_report s') COMMIT_FAILURES)%Z.
Proof.
  cbv zeta. destruct (one_item_cases q m s) as (a & Hcases). cbv zeta in Hcases. set (s1 := (log _ s).2) in *.
  assert (adds [EvSimilar (m_text m) a] s s1) as H1 by done.
  assert (count (i_report s1) COMMIT_FAILURES = count (i_report s) COMMIT_FAILURES) as C1 by done. clearbody s1.
  destruct Hcases as [[-> ->]|[Ha [->|[e ->]]]].
  - destruct (bump_run DEDUPED s1) as (s2 & Hb & Ht2 & Hr2). rewrite Hb. cbn [fst snd]. split; [|rewrite Hr2; counted].
    exists [EvSimilar (m_text m) (Ok true)]. split_and!; [|by repeat constructor|by left]. by eapply (adds_trans [_] []).
  - destruct (store_item_run q m s1) as (b & rest & Ht2 & Hrest & Hle & Hin). split; [|lia].
    exists ([EvSimilar (m_text m) a] ++ EvStore m b :: rest). split_and!; [by eapply adds_trans| |].
    + repeat constructor. eapply Forall_impl; [exact Hrest|]. intros e He. by apply aside_plain.
    + intros Hok Hc. rewrite C1 in Hin. destruct (Hin Hok Hc) as [id ->]. right. by exists a, id, rest.
  - cbn [fst snd]. split; [|lia]. exists [EvSimilar (m_text m) a]. split_and!; [done|by repeat constructor|done].
Qed.

Lemma items_run q ms s : let s' := (for_each ms (one_item q) s).2 in
  (exists segs, adds (concat segs) s s' /\ Forall plain (concat segs) /\
     ((for_each ms (one_item q) s).1 = Ok tt -> count (i_report s') COMMIT_FAILURES = count (i_report s) COMMIT_FAILURES -> Forall2 item_in ms segs)) /\
  (count (i_report s) COMMIT_FAILURES <= count (i_report s') COMMIT_FAILURES)%Z.
Proof.
  revert s. induction ms as [|m ms IH]; intros s; cbn [for_each].
  { split; [|cbn; lia]. exists []. split_and!; [by apply adds_nil|constructor|constructor]. }
  rewrite bind_run. destruct (one_item_run q m s) as [(es & Ht & Hes & Hin) Hle]. destruct (one_item q m s) as [[[]|e] s1]; cbn [fst snd] in *.
  - destruct (IH s1) as [(segs & Ht2 & Hsegs & Hall) Hle2]. split; [|lia]. exists (es :: segs). cbn [concat]. split_and!.
    + by eapply adds_trans.
    + by apply Forall_app.
    + intros Hok Hc. constructor; [apply Hin; [done|lia]|apply Hall; [done|lia]].
  - split; [|lia]. exists [es]. cbn [concat]. rewrite app_nil_r. by split_and!.
Qed.

(** ** One piece *)
Abbreviation calls_only := (within plain (@eq report)).

Lemma ask_model_run t s : exists a, let s' := (ask_model prompt_of t s).2 in
  adds [EvOthers; EvModel t a] s s' /\ i_report s' = i_report s /\
  (forall raw, (ask_model prompt_of t s).1 = Ok (Said raw) -> a = Ok raw).
Proof.
  unfold ask_model, meanwhile, ask. munfold. set (a := generate _ _). exists a. unfold adds. cbn. rewrite <- (assoc_L (++)).
  destruct a as [raw|e]; cbn; [by split_and!; [..|intros ? [= <-]]|].
  destruct e; cbn; by split_and!.
Qed.

Lemma attempts_run n t s : exists es, let s' := (attempts prompt_of n t s).2 in
  adds es s s' /\ Forall plain es /\ i_report s' = i_report s /\
  (forall items, (attempts prompt_of n t s).1 = Ok (Extracted items) ->
     exists calls raw, es = calls ++ [EvModel t (Ok raw)] /\ parse_extraction raw = Ok (Some items)).
Proof.
  revert s. induction n as [|n IH]; intros s; cbn [attempts]; cbv zeta.
  { exists []. split_and!; [by apply adds_nil|constructor|done|done]. }
  rewrite bind_run. destruct (ask_model_run t s) as (a & Ht & Hr & Ha). cbv zeta in *.
  assert (Forall plain [EvOthers; EvModel t a]) as Hp by (by repeat constructor).
  destruct (ask_model prompt_of t s) as [[[raw| |]|e] s1]; cbn [fst snd] in *.
  - rewrite (Ha raw eq_refl) in *. rewrite bind_run. unfold of_res. destruct (parse_extraction raw) as [[items|]|e] eqn:Hparse; cbn [fst snd].
    + exists [EvOthers; EvModel t (Ok raw)]. split_and!; try done. intros ? [= <-]. by exists [EvOthers], raw.
    + destruct (IH (log (EvUnparsed raw) s1).2) as (es & Ht2 & Hp2 & Hr2 & Hin). cbv zeta in *.
      exists ([EvOthers; EvModel t (Ok raw)] ++ [EvUnparsed raw] ++ es). split_and!.
      * eapply adds_trans; [exact Ht|]. eapply adds_trans; [|exact Ht2]. done.
      * apply Forall_app. split; [done|]. by constructor.
      * etrans; [exact Hr2|exact Hr].
      * intros items Hi. destruct (Hin items Hi) as (calls & raw' & -> & Hparse'). exists ([EvOthers; EvModel t (Ok raw)] ++ EvUnparsed raw :: calls), raw'.
        split; [|done]. by rewrite <- !(assoc_L (++)).
    + exists [EvOthers; EvModel t (Ok raw)]. by split_and!.
  - exists [EvOthers; EvModel t a]. by split_and!.
  - destruct (IH s1) as (es & Ht2 & Hp2 & Hr2 & Hin). cbv zeta in *. exists ([EvOthers; EvModel t a] ++ es). split_and!.
    + by eapply adds_trans.
    + by apply Forall_app.
    + by rewrite Hr2.
    + intros items Hi. destruct (Hin items Hi) as (calls & raw' & -> & Hparse'). exists ([EvOthers; EvModel t a] ++ calls), raw'.
      split; [|done]. by rewrite <- (assoc_L (++)).
  - exists [EvOthers; EvModel t a]. by split_and!.
Qed.

Lemma stages_run q t s : exists es, let s' := (run_chunk_stages t q s).2 in
  adds es s s' /\ Forall plain es /\ ((run_chunk_stages t q s).1 = Ok OK -> served t es).
Proof.
  unfold Pipeline.run_chunk_stages. cbv zeta. rewrite bind_run. destruct (bump_run CHUNKS s) as (s1 & Hb & Ht1 & Hr1). rewrite Hb, bind_run.
  unfold extract_items_with_status. case_bool_decide as Hblank.
  { exists []. cbn -[Z.ltb]. unfold adds in *. rewrite app_nil_r in *. split_and!; [by rewrite <- Ht1|constructor|by left]. }
  destruct (attempts_run (Z.to_nat (max_retries + 1)) t s1) as (es & Ht & Hp & Hr & Hin). cbv zeta in *.
  destruct (attempts prompt_of _ t s1) as [[[items| |]|e] s2]; cbn [fst snd] in *.
  2-4: exists es; unfold bump; munfold; split_and!; [by unfold adds in *; cbn in *; rewrite Ht, Ht1, app_nil_r|done|done].
  destruct (Hin items eq_refl) as (calls & raw & -> & Hparse). rewrite bind_run. unfold of_res.
  set (kept := List.filter _ items). destruct (normalize_all valid_emotions kept) as [ms|e] eqn:Hms; cbn [fst snd].
  2: { exists (calls ++ [EvModel t (Ok raw)]). split_and!; [by unfold adds in *; rewrite Ht, Ht1, app_nil_r|done|done]. }
  rewrite bind_run. set (s3 := (on_report (bump_by (Z.of_nat (length ms)) EXTRACTED) s2).2).
  change (on_report (bump_by (Z.of_nat (length ms)) EXTRACTED) s2) with (@Ok unit tt, s3). cbn match.
  assert (adds [] s2 s3) as Hs3 by (by apply adds_nil). clearbody s3.
  rewrite bind_run. change (gets (fun s => count (i_report s) COMMIT_FAILURES) s3) with (Ok (count (i_report s3) COMMIT_FAILURES), s3). cbn match.
  rewrite bind_run. destruct (items_run q ms s3) as [(segs & Ht3 & Hp3 & Hall) Hle]. cbv zeta in *.
  assert (adds ((calls ++ [EvModel t (Ok raw)]) ++ concat segs) s (for_each ms (one_item q) s3).2) as Htrace.
  { eapply adds_trans; [|exact Ht3]. unfold adds in *. by rewrite Hs3, Ht, Ht1, !app_nil_r. }
  exists ((calls ++ [EvModel t (Ok raw)]) ++ concat segs).
  assert (Forall plain ((calls ++ [EvModel t (Ok raw)]) ++ concat segs)) as Hplain by (by apply Forall_app).
  destruct (for_each ms (one_item q) s3) as [[[]|e] s4]; cbn [fst snd] in *; [|by split_and!].
  split_and!; [done..|]. intros Hok. right. exists calls, raw, items, ms, segs. split_and!; [by rewrite (assoc_L (++))|done..|].
  apply Hall; [done|]. revert Hok. unfold mbind, M_bind, gets, mret, M_ret. cbn [fst snd].
  destruct (Z.ltb_spec (count (i_report s3) COMMIT_FAILURES) (count (i_report s4) COMMIT_FAILURES)); [done|]. intros _. lia.
Qed.

Lemma pieces_run ps s : exists es, let s' := (run_pieces ps s).2 in
  adds es s s' /\ Forall plain es /\ ((run_pieces ps s).1 = Ok OK -> served_in ps es).
Proof.
  revert s. induction ps as [|p ps IH]; intros s; cbn [Pipeline.run_pieces]; cbv zeta.
  { exists []. split_and!; [by apply adds_nil|constructor|intros _; constructor]. }
  rewrite bind_run. destruct (stages_run true p s) as (es & Ht & Hp & Hok). cbv zeta in *.
  destruct (run_chunk_stages p true s) as [[[]|e] s1]; cbn [fst snd] in *.
  2-5: exists es; by split_and!.
  destruct (IH s1) as (es2 & Ht2 & Hp2 & Hok2). cbv zeta in *. exists (es ++ es2). split_and!; [by eapply adds_trans|by apply Forall_app|].
  intros Hr. apply (served_cons p ps []); auto.
Qed.

(** ** The cursor *)
Lemma move_past_run c s : exists es, let s' := (move_past c s).2 in
  adds es s s' /\ (Forall plain es \/ exists es0 ts, es = es0 ++ [EvCursor ts] /\ Forall plain es0 /\ ch_cursor c = Some ts).
Proof.
  unfold move_past. cbv zeta. destruct (ch_cursor c) as [[|x ts]|].
  1, 3: exists []; split; [by apply adds_nil|by left].
  set (w := x :: ts) in *. clearbody w. unfold catch, move_cursor. rewrite bind_run. unfold of_res.
  destruct (fromisoformat (replace_z w)) as [d|e].
  2: { exists []. destruct (bool_decide (e = OSError) || is_ValueError e); (split; [by apply adds_nil|by left]). }
  rewrite bind_run. destruct (pres_touch plain any_report aside_plain s) as [(es & Ht & Hp) _].
  destruct (touch s) as [[[]|e] s1]; cbn [fst snd] in *.
  2: { exists es. destruct (bool_decide (e = OSError) || is_ValueError e); (split; [done|by left]). }
  rewrite bind_run. unfold conv_op. rewrite bind_run. unfold gets. destruct (write_cursor w (i_conv s1)) as [c'|e].
  - exists (es ++ [EvCursor w]). split; [|right; by exists es, w]. eapply adds_trans; done.
  - exists es. cbn. destruct (bool_decide (e = OSError) || is_ValueError e); (split; [done|by left]).
Qed.

(** Every cursor in the accesses comes after the service of its chunk and of those before it. *)
Definition cursors_follow (cs : list chunk) (es : trace) : Prop :=
  forall es1 ts es2, es = es1 ++ EvCursor ts :: es2 ->
    exists l1 c l2, cs = l1 ++ c :: l2 /\ ch_cursor c = Some ts /\ served_in (concat (map ch_pieces (l1 ++ [c]))) es1.

Lemma plain_no_cursor es es1 ts es2 : Forall plain es -> es = es1 ++ EvCursor ts :: es2 -> False.
Proof. intros Hp ->. apply Forall_app in Hp as [_ Hp]. by inversion Hp. Qed.

Lemma cursors_follow_plain cs es : Forall plain es -> cursors_follow cs es.
Proof. intros Hp es1 ts es2 Heq. by destruct (plain_no_cursor es es1 ts es2). Qed.

(** A cursor in [a ++ b], [a] plain: it is in [b]. *)
Lemma cursor_after_plain (a b es1 es2 : trace) ts : Forall plain a -> a ++ b = es1 ++ EvCursor ts :: es2 ->
  exists mid, es1 = a ++ mid /\ b = mid ++ EvCursor ts :: es2.
Proof.
  revert es1. induction a as [|e a IH]; intros es1 Hp Heq; [by exists es1|]. apply Forall_cons in Hp as [He Hp].
  destruct es1 as [|e1 es1]; cbn [app] in Heq; injection Heq as -> Heq; [done|]. destruct (IH es1 Hp Heq) as (mid & -> & ->). by exists mid.
Qed.

Lemma cursors_follow_cons c cs a b d : Forall plain a -> served_in (ch_pieces c) a ->
  (Forall plain b \/ exists b0 ts, b = b0 ++ [EvCursor ts] /\ Forall plain b0 /\ ch_cursor c = Some ts) ->
  cursors_follow cs d -> cursors_follow (c :: cs) (a ++ b ++ d).
Proof.
  intros Ha Hserved Hb Hd es1 ts es2 Heq. apply cursor_after_plain in Heq as (m1 & -> & Heq); [|done].
  assert (forall m, (exists m0, m = b ++ m0 /\ d = m0 ++ EvCursor ts :: es2) ->
    exists l1 c0 l2, c :: cs = l1 ++ c0 :: l2 /\ ch_cursor c0 = Some ts /\ served_in (concat (map ch_pieces (l1 ++ [c0]))) (a ++ m)) as Hrest.
  { intros m (m0 & -> & Hm). destruct (Hd _ _ _ Hm) as (l1 & c0 & l2 & -> & Hc & Hs). exists (c :: l1), c0, l2. split_and!; [done..|].
    cbn [app map concat]. apply served_in_app; [done|]. by apply served_in_before. }
  destruct Hb as [Hb|(b0 & ts' & -> & Hb0 & Hc)].
  - apply cursor_after_plain in Heq as (m2 & -> & Hm); [|done]. apply Hrest. by exists m2.
  - rewrite <- (assoc_L (++)) in Heq. apply cursor_after_plain in Heq as (m2 & -> & Hm); [|done]. cbn [app] in Hm.
    destruct m2 as [|e m2]; cbn [app] in Hm.
    + injection Hm as <- <-. exists [], c, cs. split_and!; [done..|]. cbn [app map concat]. rewrite !app_nil_r. by apply served_in_after.
    + injection Hm as <- Hm. apply Hrest. exists m2. split; [|done]. by rewrite <- (assoc_L (++)).
Qed.

Lemma chunk_loop_run rf m i cs s : exists es, adds es s (chunk_loop rf m i cs s).2 /\ cursors_follow cs es.
Proof.
  revert i s. induction cs as [|c cs IH]; intros i s; cbn [Pipeline.chunk_loop].
  { exists []. split; [by apply adds_nil|by apply cursors_follow_plain]. }
  assert (forall es s', adds es s s' -> Forall plain es -> exists es, adds es s s' /\ cursors_follow (c :: cs) es) as Hplain.
  { intros es s' Ha Hp. exists es. split; [done|by apply cursors_follow_plain]. }
  destruct (match m with Some _ => _ | None => _ end); [apply (Hplain []); [by apply adds_nil|constructor]|].
  rewrite bind_run. destruct (pieces_run (ch_pieces c) s) as (es & Ht & Hp & Hok). cbv zeta in *.
  destruct (run_pieces (ch_pieces c) s) as [[r|e] s1]; cbn [fst snd] in *; [|by apply (Hplain es)].
  assert (forall k : M ingest unit, pres still k -> exists es, adds es s (k s1).2 /\ cursors_follow (c :: cs) es) as Hstop.
  { intros k Hk. destruct (Hk s1) as [(es' & Ht' & Hp') _]. apply (Hplain (es ++ es')); [by eapply adds_trans|by apply Forall_app]. }
  destruct r; [|apply Hstop; by within_auto|apply Hstop; destruct rf; by within_auto..].
  rewrite bind_run. assert (pres still (if rf then clear_backoff else mret tt)) as Hk by (destruct rf; within_auto).
  destruct (Hk s1) as [(es2 & Ht2 & Hp2) _]. destruct ((if rf then clear_backoff else mret tt) s1) as [[[]|e] s2]; cbn [fst snd] in *.
  2: { apply (Hplain (es ++ es2)); [by eapply adds_trans|by apply Forall_app]. }
  rewrite bind_run. destruct (move_past_run c s2) as (es3 & Ht3 & Hcur). cbv zeta in *.
  assert (Forall plain (es ++ es2)) as Hpa by (by apply Forall_app).
  assert (served_in (ch_pieces c) (es ++ es2)) as Hserved by (apply served_in_after; auto).
  destruct (move_past c s2) as [[[]|e] s3]; cbn [fst snd] in *.
  - destruct (IH (i + 1)%Z s3) as (es4 & Ht4 & Hf). exists ((es ++ es2) ++ es3 ++ es4). split; [|by apply cursors_follow_cons].
    eapply adds_trans; [by eapply adds_trans|]. by eapply adds_trans.
  - exists ((es ++ es2) ++ es3 ++ []). split; [|apply cursors_follow_cons; try done; by apply cursors_follow_plain].
    eapply adds_trans; [by eapply adds_trans|]. rewrite app_nil_r. done.
Qed.

Hint Resolve pres_mark : pres.

Lemma stamp_text t s : stamp_of t = Some s -> py_str (jget_none (u "ts") t) = (match jget_none (u "ts") t with JStr x => x | _ => [] end) /\
  stamp_value (JStr (py_str (jget_none (u "ts") t))) = Some s.
Proof. unfold stamp_of, stamp_value. by destruct (jget_none (u "ts") t). Qed.

Lemma cursor_covers turns m un an l1 c l2 ts cut t st : chunk_turns turns m un an = Ok (l1 ++ c :: l2) -> ch_cursor c = Some ts ->
  t ∈ turns -> not_summary t = true -> stamp_of t = Some st -> stamp_value (JStr ts) = Some cut -> (st <= cut)%Z ->
  t ∈ concat (map ch_turns (l1 ++ [c])).
Proof.
  intros Hc Hts Ht Hn Hst Hcut Hle. destruct (chunks_in_time _ _ _ _ _ Hc) as (Hall & _ & Hcuts).
  assert (t ∈ concat (map ch_turns (l1 ++ c :: l2))) as Hin.
  { rewrite Hall. apply list_elem_of_In, filter_In. split; [by apply list_elem_of_In|exact Hn]. }
  replace (l1 ++ c :: l2) with ((l1 ++ [c]) ++ l2) in Hin by (by rewrite <- (assoc_L (++))).
  rewrite map_app, concat_app in Hin. apply elem_of_app in Hin as [Hin|Hin]; [done|]. exfalso.
  destruct l2 as [|c2 l2]; [by apply not_elem_of_nil in Hin|].
  destruct (Hcuts l1 c (c2 :: l2) eq_refl ltac:(done)) as (t0 & s0 & _ & Hs0 & Hcur & _ & Hafter & _).
  rewrite Hts in Hcur. injection Hcur as ->. destruct (stamp_text _ _ Hs0) as [_ Hv]. rewrite Hv in Hcut. injection Hcut as <-.
  specialize (Hafter t st Hin Hst). lia.
Qed.

(** C4: the cursor moves only past rows whose memories are in.  Take any run of the
    chunk loop over the rows after the cursor, whatever the model, the memory store,
    the disk and other processes do, and wherever the run ends, by an exception or the
    death of the process.  Each time the cursor was written, it was the end of one of
    the chunks of these rows; before that, every piece of every chunk up to there had
    been sent to the model in order, its reply had parsed and every item of it had
    been found among the memories or stored; and every dated row up to the cursor is in
    one of these chunks, so none is skipped. *)
Theorem cursor_follows_commits rf m turns s : exists es, adds es s (run_chunks rf m turns s).2 /\
  forall es1 ts es2, es = es1 ++ EvCursor ts :: es2 ->
  exists l1 c l2, chunks_now turns = Ok (l1 ++ c :: l2) /\ ch_cursor c = Some ts /\
    served_in (concat (map ch_pieces (l1 ++ [c]))) es1 /\
    forall t st cut, t ∈ turns -> not_summary t = true -> stamp_of t = Some st -> stamp_value (JStr ts) = Some cut -> (st <= cut)%Z ->
      t ∈ concat (map ch_turns (l1 ++ [c])).
Proof.
  unfold Pipeline.run_chunks. rewrite bind_run.
  assert (pres still (mark_chunked_extraction sid (min_stamp turns))) as Hm by within_auto.
  destruct (Hm s) as [(es0 & Ht0 & Hp0) _]. destruct (mark_chunked_extraction _ _ s) as [[[]|e] s1]; cbn [fst snd] in *.
  2: { exists es0. split; [done|]. intros es1 ts es2 Heq. by destruct (plain_no_cursor _ _ _ _ Hp0 Heq). }
  rewrite bind_run. unfold of_res. destruct (chunks_now turns) as [cs|e] eqn:Hcs.
  2: { exists es0. split; [done|]. intros es1 ts es2 Heq. by destruct (plain_no_cursor _ _ _ _ Hp0 Heq). }
  destruct (chunk_loop_run rf m 0 cs s1) as (es & Ht & Hf). exists (es0 ++ es). split; [by eapply adds_trans|].
  intros es1 ts es2 Heq. apply cursor_after_plain in Heq as (mid & -> & Heq); [|done].
  destruct (Hf _ _ _ Heq) as (l1 & c & l2 & -> & Hts & Hserved). exists l1, c, l2. split_and!; [done|done|by apply served_in_before|].
  intros t st cut Ht0' Hn Hst Hcut Hle. by eapply cursor_covers.
Qed.
End passes.
