(* ===== verification/ReportFacts.v ===== *)
(** What a pass reports: the counters of a report add up, and a completed pass is
    exactly one that reached the end. *)
From S2P Require Import Prelude PyFloat PyTime Json Crypto Protocol ConnectCode PyVal JsonCut StateFile Jsonl Buffer Compaction Chunks Extract Pipeline PipelineFacts.

(** ** Triples over the report *)
Definition triple {A} (P : report -> Prop) (m : I A) (Q : A -> report -> Prop) : Prop :=
  forall s, P (i_report s) -> match m s with (Ok a, s') => Q a (i_report s') | (Err _, _) => True end.

Definition all_events (e : event) : Prop := True.
Lemma aside_all e : aside e -> all_events e. Proof. done. Qed.
Lemma plain_all e : plain e -> all_events e. Proof. done. Qed.
#[export] Hint Extern 0 (forall e, aside e -> all_events e) => exact aside_all : pres.
#[export] Hint Extern 0 (forall e, plain e -> all_events e) => exact plain_all : pres.

Abbreviation same_report := (within all_events eq).

Lemma triple_bind {A B} P (m : I A) (Q : A -> report -> Prop) (k : A -> I B) R :
  triple P m Q -> (forall a, triple (Q a) (k a) R) -> triple P (m ≫= k) R.
Proof.
  intros Hm Hk s Hp. rewrite bind_run. specialize (Hm s Hp). destruct (m s) as [[a|e] s']; [|done]. by apply Hk.
Qed.

Lemma triple_seq {A B} P (m : I A) (Q : report -> Prop) (k : I B) R : triple P m (fun _ => Q) -> triple Q k R -> triple P (m;; k) R.
Proof. intros Hm Hk. eapply triple_bind; [exact Hm|intros a; exact Hk]. Qed.

Lemma triple_ret {A} (a : A) (Q : A -> report -> Prop) : triple (Q a) (mret a) Q.
Proof. by intros s. Qed.

Lemma triple_report (f : report -> report) (P : report -> Prop) (Q : unit -> report -> Prop) :
  (forall r, P r -> Q tt (f r)) -> triple P (on_report f) Q.
Proof. intros Hf s Hp. apply Hf, Hp. Qed.

Lemma triple_gets {A} (f : report -> A) (P : report -> Prop) : triple P (gets (fun s => f (i_report s))) (fun a r => P r /\ a = f r).
Proof. by intros s Hp. Qed.

Lemma triple_weaken {A} (P P' : report -> Prop) (m : I A) (Q Q' : A -> report -> Prop) : triple P m Q -> (forall r, P' r -> P r) -> (forall a r, Q a r -> Q' a r) -> triple P' m Q'.
Proof. intros Hm Hp Hq s Hs. specialize (Hm s (Hp _ Hs)). destruct (m s) as [[a|e] s']; auto. Qed.

Lemma triple_frame {A} (P : report -> Prop) (m : I A) : pres same_report m -> triple P m (fun _ => P).
Proof. intros Hm s Hp. destruct (Hm s) as [_ Hr]. destruct (m s) as [[a|e] s']; [|done]. cbn in Hr. by rewrite <- Hr. Qed.

(** ** Books *)

(** [n] items are extracted but not settled, and [failed] failures are not of an item. *)
Record books (n failed : Z) (r : report) : Prop := {
  bk_extracted : count r EXTRACTED = (count r DEDUPED + count r ENQUEUED + count r COMMIT_FAILURES + n)%Z;
  bk_committed : count r COMMITTED = 0%Z;
  bk_ids : Z.of_nat (length (memory_ids r)) = count r ENQUEUED;
  bk_souls : (0 <= count r SOUL_CANDIDATES)%Z /\ (0 <= count r SOUL_QUEUE_ERRORS)%Z /\
             (count r SOUL_CANDIDATES + count r SOUL_QUEUE_ERRORS <= count r ENQUEUED)%Z;
  bk_errors : count r ERRORS = (count r COMMIT_FAILURES + failed)%Z;
  bk_failures : (0 <= count r COMMIT_FAILURES)%Z;
  bk_deduped : (0 <= count r DEDUPED)%Z;
}.

Definition flags (r : report) : bool * bool * bool * bool := (deferred r, busy r, backoff_skipped r, reached_end r).

Ltac book := cbn [count bump_by add_id set_deferred set_busy set_skipped set_end memory_ids] in *;
  repeat match goal with |- context [decide (?a = ?b)] => first [rewrite (decide_True (P := a = b)) by done | rewrite (decide_False (P := a = b)) by done] end.

Section reports.
Context `{PyLib, Outside}.
Variable prompt_of : pystr -> pystr.
Variable sid : pystr.
Variable valid_emotions : list pystr.
Variables (max_retries crystallize_threshold : Z).
Abbreviation one_item := (one_item sid crystallize_threshold).
Abbreviation run_chunk_stages := (run_chunk_stages prompt_of sid valid_emotions max_retries crystallize_threshold).
Abbreviation run_pieces := (run_pieces prompt_of sid valid_emotions max_retries crystallize_threshold).
Abbreviation chunk_loop := (chunk_loop prompt_of sid valid_emotions max_retries crystallize_threshold).
Variable user_name : option pystr.
Variable persona_name : pystr.
Variable chunk_chars : json.
Abbreviation run_chunks := (run_chunks prompt_of sid user_name persona_name valid_emotions chunk_chars max_retries crystallize_threshold).
Abbreviation extract_session_snapshot :=
  (extract_session_snapshot prompt_of sid user_name persona_name valid_emotions chunk_chars max_retries crystallize_threshold).
Abbreviation close_session := (close_session prompt_of sid user_name persona_name valid_emotions chunk_chars max_retries crystallize_threshold).

Lemma valid_label_gated l : l ∈ VALID_LABELS -> bool_decide (l ∈ GATE_BYPASS_TYPES) = false.
Proof.
  intros Hl. apply bool_decide_eq_false_2. intros Hg. revert Hl. unfold VALID_LABELS, GATE_BYPASS_TYPES in *.
  repeat (apply elem_of_cons in Hg as [->|Hg]); [..|by apply not_elem_of_nil in Hg];
    intros Hl; repeat (apply elem_of_cons in Hl as [Hl|Hl]; [discriminate Hl|]); by apply not_elem_of_nil in Hl.
Qed.

(** What a step of the books keeps. *)
Definition keeps_books (F : bool * bool * bool * bool) (n failed : Z) (r : report) : Prop := books n failed r /\ flags r = F.

Lemma triple_one_item q m n k F : m_label m ∈ VALID_LABELS ->
  triple (keeps_books F (n + 1) k) (one_item q m) (fun _ => keeps_books F n k).
Proof.
  intros Hl. unfold Pipeline.one_item, bump. eapply triple_bind; [apply triple_frame; within_auto|]. intros [].
  { apply triple_report. intros r [[] Hf]. split; [|done]. split; book; lia. }
  eapply triple_bind; [apply triple_frame; within_auto|]. intros [id|].
  2: { eapply (triple_bind _ _ (fun _ r => keeps_books F n k (bump_by 1 COMMIT_FAILURES r))).
       - apply triple_report. intros r [[] Hf]. split; [|done]. split; book; lia.
       - intros _. by apply triple_report. }
  rewrite valid_label_gated by done.
  eapply (triple_bind _ _ (fun _ r => keeps_books F n k (add_id id r) /\ (count r SOUL_CANDIDATES + count r SOUL_QUEUE_ERRORS + 1 <= count r ENQUEUED)%Z)).
  { apply triple_report. intros r [[] Hf]. split; [split; [|done]; split; book; rewrite ?length_app; cbn [length]; lia|book; lia]. }
  intros _. eapply (triple_bind _ _ (fun _ r => keeps_books F n k r /\ (count r SOUL_CANDIDATES + count r SOUL_QUEUE_ERRORS + 1 <= count r ENQUEUED)%Z)).
  { apply triple_report. intros r Hr. exact Hr. }
  intros _. eapply (triple_weaken _ _ _ _ (fun _ => keeps_books F n k)); [|intros r Hr; exact Hr|intros ? r Hr; exact Hr].
  destruct (q && _). 2: { intros r0 Hr. apply Hr. }
  eapply triple_bind; [apply triple_frame; within_auto|]. intros [].
  { intros r0 Hr. apply Hr. }
  eapply triple_bind; [apply triple_frame; within_auto|]. intros ok.
  apply triple_report. intros r [[[] Hf] Hroom]. split; [|done]. destruct ok; split; book; lia.
Qed.

Lemma triple_items q ms k F : Forall (fun m => m_label m ∈ VALID_LABELS) ms ->
  triple (keeps_books F (Z.of_nat (length ms)) k) (for_each ms (one_item q)) (fun _ => keeps_books F 0 k).
Proof.
  induction 1 as [|m ms Hl _ IH]; cbn [for_each]; [intros s Hs; exact Hs|]. eapply triple_seq; [|exact IH].
  eapply triple_weaken; [by apply (triple_one_item q m (Z.of_nat (length ms)))| |intros ? r Hr; exact Hr]. intros r. cbn [length].
  by replace (Z.of_nat (S (length ms))) with (Z.of_nat (length ms) + 1)%Z by lia.
Qed.

Lemma normalized_labels items ms : normalize_all valid_emotions items = Ok ms -> Forall (fun m => m_label m ∈ VALID_LABELS) ms.
Proof.
  revert ms. induction items as [|r items IH]; intros ms Hn; cbn [normalize_all] in Hn; [injection Hn as <-; constructor|].
  destruct (normalize (Some valid_emotions) r) as [m|] eqn:Hm; [|done]. cbn [mbind res_bind] in Hn.
  destruct (normalize_all valid_emotions items) as [rest|]; [|done]. injection Hn as <-. constructor; [|by apply IH].
  by eapply normalize_label.
Qed.

(** The end of a piece, and of the chunks: the failure that stopped it is the one counted. *)
Definition stage_end (F : bool * bool * bool * bool) (res : chunk_result) (r : report) : Prop :=
  match res with
  | OK => keeps_books F 0 0 r /\ count r COMMIT_FAILURES = 0%Z
  | DEFERRED => keeps_books F 0 0 r /\ count r COMMIT_FAILURES = 0%Z
  | FAILED => keeps_books F 0 1 r /\ count r COMMIT_FAILURES = 0%Z
  | COMMIT_FAILED => keeps_books F 0 0 r /\ (0 < count r COMMIT_FAILURES)%Z
  end.

Lemma triple_stages q t F :
  triple (fun r => keeps_books F 0 0 r /\ count r COMMIT_FAILURES = 0%Z) (run_chunk_stages t q) (stage_end F).
Proof.
  unfold Pipeline.run_chunk_stages, bump. eapply (triple_seq _ _ (fun r => keeps_books F 0 0 r /\ count r COMMIT_FAILURES = 0%Z)).
  { apply triple_report. intros r [[[] Hf] H0']. split; [split; [|done]; split; book; lia|book; lia]. }
  eapply triple_bind; [apply triple_frame; within_auto|]. intros [items| |].
  - set (kept := List.filter _ items). eapply (triple_bind _ _ (fun ms r => (keeps_books F 0 0 r /\ count r COMMIT_FAILURES = 0%Z) /\ Forall (fun m => m_label m ∈ VALID_LABELS) ms)).
    { intros s Hs. unfold of_res. destruct (normalize_all valid_emotions kept) as [ms|] eqn:Hms; [|done]. split; [done|]. by eapply normalized_labels. }
    intros ms. eapply (triple_seq _ _ (fun r => (keeps_books F (Z.of_nat (length ms)) 0 r /\ count r COMMIT_FAILURES = 0%Z) /\ Forall (fun m => m_label m ∈ VALID_LABELS) ms)).
    { apply triple_report. intros r [[[[] Hf] H0'] Hl]. split; [|done]. split; [split; [|done]; split; book; lia|book; lia]. }
    intros s [[Hb H0'] Hl]. rewrite bind_run. unfold gets at 1. cbv beta iota. rewrite H0', bind_run.
    pose proof (triple_items q ms 0 F Hl s Hb) as Hi. destruct (for_each ms (one_item q) s) as [[[]|e] s']; [|done].
    unfold mbind, M_bind, gets, mret, M_ret. cbv beta iota. destruct (Z.ltb_spec 0 (count (i_report s') COMMIT_FAILURES)); (split; [done|]); [done|].
    destruct Hi as [[] _]. lia.
  - intros s Hs. exact Hs.
  - eapply (triple_seq _ _ (stage_end F FAILED)); [|intros s Hs; exact Hs].
    apply triple_report. intros r [[[] Hf] H0']. split; [split; [|done]; split; book; lia|book; lia].
Qed.

Lemma triple_pieces ps F :
  triple (fun r => keeps_books F 0 0 r /\ count r COMMIT_FAILURES = 0%Z) (run_pieces ps) (stage_end F).
Proof.
  induction ps as [|p ps IH]; cbn [Pipeline.run_pieces]; [intros s Hs; exact Hs|].
  eapply triple_bind; [apply triple_stages|]. intros []; [exact IH|intros s Hs; exact Hs..].
Qed.

(** A report whose pass is over. *)
Definition closed_books (r : report) : Prop :=
  exists failed, books 0 failed r /\
    ((reached_end r = true /\ deferred r = false /\ failed = 0%Z /\ count r COMMIT_FAILURES = 0%Z) \/
     (reached_end r = false /\ deferred r = true /\ failed = 0%Z /\ count r COMMIT_FAILURES = 0%Z) \/
     (reached_end r = false /\ deferred r = false /\
       (failed = 0%Z /\ (0 <= count r COMMIT_FAILURES)%Z \/ failed = 1%Z /\ count r COMMIT_FAILURES = 0%Z))) /\
    busy r = false /\ backoff_skipped r = false.

Lemma triple_loop rf m i cs :
  triple (fun r => keeps_books (false, false, false, false) 0 0 r /\ count r COMMIT_FAILURES = 0%Z) (chunk_loop rf m i cs) (fun _ => closed_books).
Proof.
  assert (forall r, keeps_books (false, false, false, false) 0 0 r /\ count r COMMIT_FAILURES = 0%Z -> closed_books r) as Hopen.
  { intros r [[Hb [= Hd Hbz Hs He]] H0']. exists 0%Z. split_and!; [done| |done|done]. right; right. split_and!; [done..|left]. lia. }
  revert i. induction cs as [|c cs IH]; intros i; cbn [Pipeline.chunk_loop].
  { apply triple_report. intros r [[[] [= Hd Hbz Hs He]] H0']. exists 0%Z. split_and!; [by split; book| |done|done]. left. by split_and!. }
  destruct (match m with Some _ => _ | None => _ end); [intros s Hs; by apply Hopen|].
  eapply triple_bind; [apply triple_pieces|]. intros [].
  - eapply triple_seq; [apply triple_frame; destruct rf; within_auto|]. eapply triple_seq; [|exact (IH (i + 1)%Z)]. apply triple_frame.
    unfold move_past, move_cursor. destruct (ch_cursor c) as [[|x ts]|]; within_auto.
  - apply triple_report. intros r [[[] [= Hd Hbz Hs He]] H0']. exists 0%Z. split_and!; [by split; book| |done|done]. right; left. by split_and!.
  - eapply triple_weaken; [apply triple_frame; destruct rf; within_auto| |intros ? r Hr; exact Hr].
    intros r [[Hb [= Hd Hbz Hs He]] H0']. exists 1%Z. split_and!; [done| |done|done]. right; right. split_and!; [done..|right]. done.
  - eapply triple_weaken; [apply triple_frame; destruct rf; within_auto| |intros ? r Hr; exact Hr].
    intros r [[Hb [= Hd Hbz Hs He]] H0']. exists 0%Z. split_and!; [done| |done|done]. right; right. split_and!; [done..|left]. lia.
Qed.

(** A report that adds up. *)
Record adds_up (r : report) : Prop := {
  au_items : count r EXTRACTED = (count r DEDUPED + count r ENQUEUED + count r COMMIT_FAILURES)%Z;
  au_committed : count r COMMITTED = 0%Z;
  au_ids : Z.of_nat (length (memory_ids r)) = count r ENQUEUED;
  au_souls : (count r SOUL_CANDIDATES + count r SOUL_QUEUE_ERRORS <= count r ENQUEUED)%Z;
  au_errors : count r ERRORS = count r COMMIT_FAILURES \/ (count r ERRORS = 1 /\ count r COMMIT_FAILURES = 0)%Z;
  au_clean : reached_end r || deferred r || busy r = true -> count r ERRORS = 0%Z;
  au_completed : completed r = reached_end r;
  au_flags : (length (List.filter id [deferred r; busy r; backoff_skipped r; reached_end r]) <= 1)%nat;
}.

Lemma closed_adds_up r : closed_books r -> adds_up r.
Proof.
  intros (k & [] & Hend & Hb & Hs). destruct bk_souls0 as (? & ? & ?).
  assert (reached_end r || deferred r = true -> count r ERRORS = 0%Z) as Hclean.
  { destruct Hend as [(He & Hd & -> & Hc)|[(He & Hd & -> & Hc)|(He & Hd & Hk)]]; rewrite He, Hd; [lia..|done]. }
  assert (reached_end r && deferred r = false) as Hone by (by destruct Hend as [(-> & -> & _)|[(-> & -> & _)|(-> & -> & _)]]).
  split; unfold completed; rewrite ?Hb, ?Hs, ?orb_false_r; try lia; try done.
  - destruct (reached_end r), (deferred r); cbn in *; try done. apply Z.eqb_eq. lia.
  - destruct (reached_end r), (deferred r); cbn in *; try done; lia.
Qed.

Definition fresh (r : report) : Prop := keeps_books (false, false, false, false) 0 0 r /\ count r COMMIT_FAILURES = 0%Z.

Lemma fresh_closed r : fresh r -> closed_books r.
Proof.
  intros [[Hb [= Hd Hbz Hs He]] Hc]. exists 0%Z. split_and!; [done| |done|done]. right; right. split_and!; [done..|left]. lia.
Qed.

Lemma triple_run_chunks rf m turns : triple fresh (run_chunks rf m turns) (fun _ => closed_books).
Proof.
  unfold Pipeline.run_chunks. eapply triple_seq; [apply triple_frame; within_auto|].
  eapply triple_bind; [apply triple_frame; within_auto|]. intros cs. apply triple_loop.
Qed.

Lemma ended_closed r : fresh r -> closed_books (set_end true r).
Proof. intros [[[] [= Hd Hbz Hs He]] Hc]. exists 0%Z. split_and!; [by split; book| |done|done]. left. by split_and!. Qed.

Lemma busy_adds_up r : fresh r -> adds_up (set_busy r).
Proof. intros [[[] [= Hd Hbz Hs He]] Hc]. split; unfold completed; cbn [set_busy count memory_ids deferred busy backoff_skipped reached_end]; rewrite ?Hd, ?Hs, ?He; try lia; done. Qed.

Lemma skipped_adds_up r : fresh r -> adds_up (set_skipped (bump_by 1 ERRORS r)).
Proof.
  intros [[[] [= Hd Hbz Hs He]] Hc]. split; unfold completed; book; cbn [set_skipped bump_by deferred busy backoff_skipped reached_end]; rewrite ?Hd, ?Hbz, ?Hs, ?He; try lia; try done.
Qed.

Lemma reporting_adds_up (body : I unit) s r s' : triple fresh body (fun _ => closed_books) \/ triple fresh body (fun _ => adds_up) ->
  reporting (under_extract_lock (on_report set_busy) body) s = (Ok r, s') -> adds_up r.
Proof.
  intros Hbody. assert (triple fresh body (fun _ => adds_up)) as Hb.
  { destruct Hbody as [Hb|Hb]; [|done]. eapply triple_weaken; [exact Hb|done|]. intros ? x Hx. by apply closed_adds_up. }
  assert (triple fresh (under_extract_lock (on_report set_busy) body;; gets i_report) (fun r _ => adds_up r)) as Ht.
  { eapply (triple_seq _ _ adds_up).
    - unfold under_extract_lock. eapply triple_seq; [apply triple_frame; within_auto|].
      eapply triple_bind; [apply triple_frame; within_auto|]. intros []; [exact Hb|]. apply triple_report. apply busy_adds_up.
    - intros x Hx. exact Hx. }
  unfold reporting. rewrite bind_run. intros Hr. specialize (Ht {| i_conv := i_conv s; i_poison := i_poison s; i_since := i_since s; i_souls := i_souls s; i_report := new_report; i_trace := i_trace s |}).
  unfold on_report at 1, modify in Hr. cbv beta iota in Hr. rewrite Hr in Ht. apply Ht. split; [|done]. by split.
Qed.

Lemma held_closed r : closed_books r -> closed_books (set_end false r).
Proof.
  intros (k & [] & Hend & Hb & Hs). exists k. split_and!; [by split; book| |done|done]. cbn [set_end reached_end deferred count].
  destruct Hend as [(He & Hd & -> & Hc)|[(He & Hd & -> & Hc)|(He & Hd & Hk)]]; rewrite Hd.
  - right; right. split_and!; [done..|left]. lia.
  - right; left. by split_and!.
  - right; right. by split_and!.
Qed.

(** C24: reports add up.  Of the items a pass extracted, each is counted once, as a
    duplicate, as enqueued, or as a commit failure; none is counted as committed, since
    no extracted label bypasses the gate; there is one memory id per enqueued item, and
    no more soul candidates.  The errors are the commit failures, or the one failed
    chunk or skipped pass.  At most one of the four flags is up, a pass that reached the end, was
    deferred or busy has no error, and so the question callers ask, whether the pass
    completed, is exactly whether it reached the end. *)
Theorem report_adds_up mc s r s' :
  extract_session_snapshot mc s = (Ok r, s') \/ close_session s = (Ok r, s') -> adds_up r.
Proof.
  intros [Hr|Hr]; eapply reporting_adds_up; [|exact Hr| |exact Hr].
  - right. unfold extract_session_snapshot_locked. eapply triple_bind; [apply triple_frame; unfold in_backoff_window, now; within_auto|]. intros [].
    { unfold bump. eapply (triple_seq _ _ (fun r => adds_up (set_skipped r))); apply triple_report; [apply skipped_adds_up|by intros]. }
    eapply triple_bind; [apply triple_frame; unfold rows_after_cursor; within_auto|]. intros turns.
    eapply (triple_weaken fresh fresh _ (fun _ => closed_books)); [|done|intros ? x Hx; by apply closed_adds_up].
    destruct turns as [|t turns]; [apply triple_report; apply ended_closed|].
    eapply triple_seq; [apply triple_run_chunks|]. eapply triple_seq; [apply triple_frame; within_auto|]. by intros x Hx.
  - left. unfold close_session_locked. eapply triple_bind; [apply triple_frame; unfold rows_after_cursor; within_auto|]. intros turns.
    eapply (triple_seq _ _ closed_books).
    { destruct turns as [|t turns]; [apply triple_report; apply ended_closed|apply triple_run_chunks]. }
    eapply triple_bind; [apply triple_frame; within_auto|]. intros []; [|by intros x Hx]. cbn [negb].
    eapply triple_seq; [apply triple_frame; within_auto|]. eapply triple_bind; [apply triple_frame; within_auto|]. intros held.
    unfold close_removal. do 4 (eapply triple_bind; [apply triple_frame; within_auto|]; intros ?).
    match goal with |- context [match ?l with _ :: _ => _ | [] => _ end] => destruct l end; [|apply triple_report; apply held_closed].
    eapply triple_seq; [apply triple_frame; within_auto|]. eapply triple_bind; [apply triple_frame; unfold archive_buffer, archive_batch; within_auto|]. intros archived.
    eapply triple_seq; [apply triple_frame; within_auto|]. eapply triple_bind; [apply triple_frame; within_auto|]. intros rows.
    destruct (negb _); [apply triple_report; apply held_closed|]. apply triple_frame. within_auto.
Qed.
End reports.

#[local] Existing Instance ascii_pylib.

Definition said : pystr := map (fun c => if (c =? 39)%N then 34%N else c) (u "[{'text': 'they like long stories', 'label': 'fact', 'importance': 9}]").

(** A quiet machine, a model that always finds the same fact, a store with no
    likeness. *)
Definition quiet : Outside := {|
  generate _ _ := Ok said; similar _ _ := Ok false; write_memory t _ := Ok (u "m"); search_text _ _ := Ok []; strengthen _ _ _ := Ok tt;
  disk _ := Works; cut_at _ := 0%nat; size_known _ := true; clock _ := 0%Z; extract_lock_free _ := true; others _ _ c := c |}.

Definition talked : ingest :=
  {| i_conv := set_buffer (Some (file_of small_talk)) no_conv; i_poison := None; i_since := None; i_souls := None; i_report := new_report; i_trace := [] |}.

Lemma report_adds_up_witness : exists r s1,
  @extract_session_snapshot _ quiet (fun t => t) (u "s") None (u "N") [] (JInt 25) 1 8 None talked = (Ok r, s1) /\
  count r EXTRACTED = 3%Z /\ count r ENQUEUED = 3%Z /\ adds_up r.
Proof.
  eexists _, _. split_and!; [vm_compute; reflexivity|vm_compute; reflexivity|vm_compute; reflexivity|].
  eapply (report_adds_up (H0 := quiet) (fun t => t) (u "s") [] 1 8 None (u "N") (JInt 25) None talked). left. vm_compute. reflexivity.
Defined.
