(* ===== verification/CatchUp.v ===== *)
(** Backlogs are worked off: when the model answers, the store takes what it is given
    and nothing fails, passes of one chunk each take the chunks of a session one after
    the other, in order and each once, and leave nothing, exactly as one pass to the end
    does. *)
From S2P Require Import Prelude PyFloat PyTime Json Crypto Protocol ConnectCode PyVal JsonCut StateFile Jsonl Buffer Compaction Chunks ChunkFacts Extract Pipeline PipelineFacts ReportFacts.

(** ** Rows whose time stamps every reader reads alike *)
Section rows.
Context `{PyLib}.

Definition plain_row (t : json) : bool :=
  match jget_none (u "ts") t with
  | JStr s =>
      negb (bool_decide (s = [])) && bool_decide (strip s = s) &&
      match lenient_utc s, flexible_iso s with Some a, Some d => (a =? at_utc d)%Z | _, _ => false end
  | _ => false
  end.

Definition plain_rows (rows : list json) : Prop := Forall (fun t => not_summary t = true -> plain_row t = true) rows.

Record plain_spec (t : json) (s : pystr) (d : pydt) : Prop := {
  pl_text : jget_none (u "ts") t = JStr s;
  pl_some : s <> [];
  pl_strip : strip s = s;
  pl_iso : flexible_iso s = Some d;
  pl_stamp : stamp_of t = Some (at_utc d);
}.

Lemma plain_row_spec t : plain_row t = true -> exists s d, plain_spec t s d.
Proof.
  unfold plain_row. destruct (jget_none (u "ts") t) as [| | | |s| |] eqn:Hs; try done. intros [[Hne Hst]%andb_true_iff Hiso]%andb_true_iff.
  apply negb_true_iff, bool_decide_eq_false in Hne. apply bool_decide_eq_true in Hst.
  destruct (lenient_utc s) as [a|] eqn:Ha; [|done]. destruct (flexible_iso s) as [d|] eqn:Hd; [|done]. apply Z.eqb_eq in Hiso as ->.
  exists s, d. split; try done. unfold stamp_of, stamp_value. by rewrite Hs.
Qed.

(** The rows a pass is about: no summaries, and later than the cut. *)
Definition later_than (cut : option Z) (t : json) : bool :=
  match cut, stamp_of t with None, _ => true | Some a, Some b => (a <? b)%Z | _, _ => false end.
Definition rows_left (cut : option Z) (rows : list json) : list json :=
  List.filter (fun t => not_summary t && later_than cut t) rows.

Lemma filter_filter {A} (f g : A -> bool) l : List.filter f (List.filter g l) = List.filter (fun x => g x && f x) l.
Proof. induction l as [|x l IH]; [done|]. cbn. destruct (g x); cbn; [destruct (f x); by rewrite IH|done]. Qed.

Lemma filter_same {A} (f g : A -> bool) l : Forall (fun x => f x = g x) l -> List.filter f l = List.filter g l.
Proof. induction 1 as [|x l Hx _ IH]; [done|]. cbn. by rewrite Hx, IH. Qed.

(** What [read_session_after] gives for such rows. *)
Lemma rows_after_start rows : List.filter not_summary (read_session_after rows None) = rows_left None rows.
Proof. apply filter_same, Forall_forall. intros t _. unfold later_than. by rewrite andb_true_r. Qed.

Lemma rows_after_cut rows s d : plain_rows rows -> flexible_iso s = Some d ->
  List.filter not_summary (read_session_after rows (Some s)) = rows_left (Some (at_utc d)) rows.
Proof.
  intros Hp Hd. unfold read_session_after. rewrite Hd, filter_filter. apply filter_same. eapply Forall_impl; [exact Hp|].
  intros t Ht. cbv beta. destruct (not_summary t) eqn:Hn; [|by rewrite andb_false_r]. rewrite andb_true_r. cbn [andb].
  destruct (plain_row_spec t (Ht Hn)) as (r & e & [Hr Hne _ He Hst]). rewrite Hr. cbn [py_str]. rewrite He. unfold later_than. rewrite Hst.
  cbn [jtruthy]. destruct r; [done|]. done.
Qed.

(** Going on from a chunk's end. *)
Lemma rows_left_split cut rows c before after : rows_left cut rows = before ++ after ->
  (forall t s, t ∈ before -> stamp_of t = Some s -> (s <= c)%Z) ->
  (forall t s, t ∈ after -> stamp_of t = Some s -> (c < s)%Z) ->
  plain_rows rows -> (forall a, cut = Some a -> (a <= c)%Z) -> rows_left (Some c) rows = after.
Proof.
  intros Heq Hb Ha Hp Hc. assert (rows_left (Some c) rows = List.filter (later_than (Some c)) (rows_left cut rows)) as ->.
  { unfold rows_left. rewrite filter_filter. apply filter_same, Forall_forall. intros t _. destruct (not_summary t); [|done]. cbn [andb].
    unfold later_than. destruct cut as [a|]; [|done]. destruct (stamp_of t) as [b|]; [|done]. specialize (Hc a eq_refl).
    destruct (Z.ltb_spec a b), (Z.ltb_spec c b); try done. lia. }
  assert (Forall (fun t => is_Some (stamp_of t)) (before ++ after)) as Hd.
  { rewrite <- Heq. apply Forall_forall. intros t Ht. apply list_elem_of_In, filter_In in Ht as [Ht Hk]. apply andb_true_iff in Hk as [Hn _].
    destruct (plain_row_spec t (proj1 (Forall_forall _ _) Hp t (proj2 (list_elem_of_In _ _) Ht) Hn)) as (s & d & [_ _ _ _ ->]). by eexists. }
  rewrite Heq, List.filter_app. apply Forall_app in Hd as [Hd1 Hd2].
  assert (List.filter (later_than (Some c)) before = []) as ->.
  { clear -Hb Hd1. induction Hd1 as [|t l [s Hs] _ IH]; [done|]. cbn [List.filter]. unfold later_than at 1. rewrite Hs.
    pose proof (Hb t s (list_elem_of_here _ _) Hs). rewrite (proj2 (Z.ltb_ge _ _)) by lia. apply IH. intros x y Hx. apply Hb. by right. }
  cbn [app]. clear -Ha Hd2. induction Hd2 as [|t l [s Hs] _ IH]; [done|]. cbn [List.filter]. unfold later_than at 1. rewrite Hs.
  pose proof (Ha t s (list_elem_of_here _ _) Hs). rewrite (proj2 (Z.ltb_lt _ _)) by lia. f_equal. apply IH. intros x y Hx. apply Ha. by right.
Qed.
End rows.

(** ** Runs in which nothing fails *)

(** The transcripts sent to the model. *)
Definition sent (es : trace) : list pystr := omap (fun e => match e with EvModel t _ => Some t | _ => None end) es.

Lemma sent_app a b : sent (a ++ b) = sent a ++ sent b.
Proof. unfold sent. apply omap_app. Qed.

Section calm.
Context `{PyLib, Outside}.
Variable prompt_of : pystr -> pystr.
Variable sid : pystr.
Variable user_name : option pystr.
Variable persona_name : pystr.
Variable valid_emotions : list pystr.
Variable chunk_chars : json.
Variables (max_retries crystallize_threshold : Z).
Abbreviation one_item := (one_item sid crystallize_threshold).
Abbreviation run_chunk_stages := (run_chunk_stages prompt_of sid valid_emotions max_retries crystallize_threshold).
Abbreviation run_pieces := (run_pieces prompt_of sid valid_emotions max_retries crystallize_threshold).
Abbreviation chunk_loop := (chunk_loop prompt_of sid valid_emotions max_retries crystallize_threshold).
Abbreviation chunks_now := (chunks_now user_name persona_name chunk_chars).
Abbreviation run_chunks := (run_chunks prompt_of sid user_name persona_name valid_emotions chunk_chars max_retries crystallize_threshold).
Abbreviation snapshot := (extract_session_snapshot prompt_of sid user_name persona_name valid_emotions chunk_chars max_retries crystallize_threshold).

Lemma record_encodes id m n : exists b, encode_jsonl true [soul_record sid id m n] = Ok b.
Proof. cbn [encode_jsonl soul_record is_obj negb]. unfold dumps_record. destruct (finite_json _); by eexists. Qed.

(** Nothing fails, nobody else writes, and the model's replies are usable. *)
Record calm : Prop := {
  cm_disk : forall t, disk t = Works;
  cm_lock : forall t, extract_lock_free t = true;
  cm_others : forall t h c, others t h c = c;
  cm_model : forall t p, exists raw items ms, generate t p = Ok raw /\ parse_extraction raw = Ok (Some items) /\
    normalize_all valid_emotions (List.filter (fun r => negb (bool_decide (r_text r = []))) items) = Ok ms;
  cm_similar : forall t x e, similar t x = Err e -> is_Exception e = true;
  cm_store : forall t m, exists id, write_memory t m = Ok id;
  cm_retries : (0 <= max_retries)%Z;
}.
Hypothesis Hcalm : calm.

(** [m] returns, having sent [calls] and left the session's files as [c]. *)
Definition calmly {A} (m : I A) (s : ingest) (calls : list pystr) (c : conv) (Q : A -> ingest -> Prop) : Prop :=
  exists a s' es, m s = (Ok a, s') /\ adds es s s' /\ sent es = calls /\ i_conv s' = c /\ Q a s'.

Lemma calmly_bind {A B} (m : I A) (k : A -> I B) s calls1 calls2 c1 c2 Q1 Q2 :
  calmly m s calls1 c1 Q1 -> (forall a s1, i_conv s1 = c1 -> Q1 a s1 -> calmly (k a) s1 calls2 c2 Q2) ->
  calmly (m ≫= k) s (calls1 ++ calls2) c2 Q2.
Proof.
  intros (a & s1 & es & Hm & Ht & <- & Hc & Hq) Hk. destruct (Hk a s1 Hc Hq) as (b & s2 & es2 & Hk2 & Ht2 & <- & Hc2 & Hq2).
  exists b, s2, (es ++ es2). rewrite bind_run, Hm. split_and!; [done|by eapply adds_trans|apply sent_app|done..].
Qed.

(** Steps that send nothing and leave the files alone. *)
Lemma calmly_step {A B} (m : I A) (k : A -> I B) s calls c Q1 Q2 :
  calmly m s [] (i_conv s) Q1 -> (forall a s1, i_conv s1 = i_conv s -> Q1 a s1 -> calmly (k a) s1 calls c Q2) -> calmly (m ≫= k) s calls c Q2.
Proof. intros Hm Hk. by apply (calmly_bind m k s [] calls (i_conv s) c Q1 Q2). Qed.

Lemma calmly_ret {A} (a : A) s (Q : A -> ingest -> Prop) : Q a s -> calmly (mret a) s [] (i_conv s) Q.
Proof. intros Hq. exists a, s, []. split_and!; [done|by apply adds_nil|done..]. Qed.

Lemma calmly_weaken {A} (m : I A) s calls c (Q Q' : A -> ingest -> Prop) : calmly m s calls c Q -> (forall a s', i_conv s' = c -> Q a s' -> Q' a s') -> calmly m s calls c Q'.
Proof. intros (a & s' & es & ? & ? & ? & ? & ?) Hq. exists a, s', es. split_and!; eauto. Qed.

(** Reports and counters are kept by [R]. *)
Definition same (s : ingest) : forall {A}, A -> ingest -> Prop := fun _ _ s' => i_report s' = i_report s.

Lemma calmly_on_report f s : calmly (on_report f) s [] (i_conv s) (fun _ s' => i_report s' = f (i_report s)).
Proof. eexists _, _, []. split_and!; [done|by apply adds_nil|done..]. Qed.
Lemma calmly_gets {A} (f : ingest -> A) s : calmly (gets f) s [] (i_conv s) (fun a s' => a = f s /\ s' = s).
Proof. eexists _, _, []. split_and!; [done|by apply adds_nil|done..]. Qed.
Lemma calmly_log e s : sent [e] = [] -> calmly (log e) s [] (i_conv s) (same s).
Proof. intros He. eexists _, _, [e]. split_and!; done. Qed.
Lemma calmly_of_res {A} (r : res A) a s : r = Ok a -> calmly (of_res r) s [] (i_conv s) (fun b s' => b = a /\ s' = s).
Proof. intros ->. eexists _, _, []. split_and!; [done|by apply adds_nil|done..]. Qed.
Lemma calmly_probe s : calmly probe s [] (i_conv s) (fun ok s' => ok = true /\ i_report s' = i_report s).
Proof. unfold calmly, probe. munfold. rewrite (cm_disk Hcalm). eexists _, _, [EvDisk]. split_and!; done. Qed.
Lemma calmly_touch s : calmly touch s [] (i_conv s) (same s).
Proof. unfold calmly, touch, probe. munfold. rewrite (cm_disk Hcalm). eexists _, _, [EvDisk]. split_and!; done. Qed.
Lemma calmly_meanwhile h s : calmly (meanwhile h) s [] (i_conv s) (same s).
Proof. unfold calmly, meanwhile. munfold. eexists _, _, [EvOthers]. split_and!; try done. cbn. apply (cm_others Hcalm). Qed.

Lemma calmly_catch {A} (m : I A) h s calls c (Q : A -> ingest -> Prop) : calmly m s calls c Q -> calmly (catch m h) s calls c Q.
Proof. intros (a & s' & es & Hm & Hrest). exists a, s', es. split; [|exact Hrest]. unfold catch. by rewrite Hm. Qed.

Lemma calmly_append rs s : calmly (appending on_souls rs) s [] (i_conv s) (same s).
Proof. unfold calmly, appending. munfold. rewrite (cm_disk Hcalm). eexists _, _, [EvDisk]. split_and!; done. Qed.

Lemma calmly_queue id m s : calmly (queue_soul_candidate sid id m) s [] (i_conv s) (same s).
Proof.
  unfold queue_soul_candidate, now. eapply calmly_step; [apply calmly_gets|]. intros n s1 _ [-> ->].
  destruct (record_encodes id m (clock (i_trace s))) as [b Hb]. eapply calmly_step; [by apply (calmly_of_res _ b)|]. intros ? s1 _ [-> ->].
  apply calmly_catch. eapply calmly_step; [apply calmly_append|]. intros [] s2 Hc Hr. rewrite <- Hc. by apply calmly_ret.
Qed.
Lemma calmly_queued t s : calmly (is_soul_candidate_queued sid t) s [] (i_conv s) (same s).
Proof. unfold calmly, is_soul_candidate_queued, probe. munfold. rewrite (cm_disk Hcalm). eexists _, _, [EvDisk]. split_and!; done. Qed.

Lemma calmly_is_duplicate t s : calmly (is_duplicate t) s [] (i_conv s) (same s).
Proof.
  destruct (similar (i_trace s) t) as [b|e] eqn:Hs; unfold calmly, is_duplicate, try_except, ask; munfold; rewrite Hs.
  - eexists _, _, [EvSimilar t (Ok b)]. split_and!; done.
  - rewrite (cm_similar Hcalm _ _ _ Hs). eexists _, _, [EvSimilar t (Err e)]. split_and!; done.
Qed.

Lemma calmly_commit m s : m_label m ∈ VALID_LABELS -> calmly (commit_item m) s [] (i_conv s) (fun id s' => is_Some id /\ i_report s' = i_report s).
Proof.
  intros Hl. destruct (cm_store Hcalm (i_trace s) m) as [id Hid]. unfold commit_item. unfold calmly. rewrite bind_run, try_ask, Hid.
  rewrite valid_label_gated by done. cbn [negb]. eexists _, _, [EvStore m (Ok id)]. split_and!; done.
Qed.

Abbreviation keeps_failures s := (fun _ s' => count (i_report s') COMMIT_FAILURES = count (i_report s) COMMIT_FAILURES).

Lemma calmly_bump c s : c <> COMMIT_FAILURES -> calmly (bump c) s [] (i_conv s) (keeps_failures s).
Proof.
  intros Hc. eapply calmly_weaken; [apply calmly_on_report|]. intros [] s' _ ->. cbn. by rewrite decide_False.
Qed.

Lemma calmly_one_item q m s : m_label m ∈ VALID_LABELS -> calmly (one_item q m) s [] (i_conv s) (keeps_failures s).
Proof.
  intros Hl. unfold Pipeline.one_item. eapply calmly_step; [apply calmly_is_duplicate|]. intros dup s1 Hc1 Hr1. rewrite <- Hc1.
  assert (count (i_report s1) COMMIT_FAILURES = count (i_report s) COMMIT_FAILURES) as <- by (by rewrite Hr1).
  destruct dup; [by apply calmly_bump|]. eapply calmly_step; [by apply calmly_commit|]. intros id s2 Hc2 [[i ->] Hr2]. rewrite <- Hc2.
  assert (count (i_report s2) COMMIT_FAILURES = count (i_report s1) COMMIT_FAILURES) as <- by (by rewrite Hr2).
  eapply calmly_step; [apply calmly_bump; by destruct (bool_decide _)|]. intros [] s3 Hc3 <-. rewrite <- Hc3.
  eapply calmly_step; [apply calmly_on_report|]. intros [] s4 Hc4 Hr4. rewrite <- Hc4.
  assert (count (i_report s4) COMMIT_FAILURES = count (i_report s3) COMMIT_FAILURES) as <- by (by rewrite Hr4).
  destruct (q && _); [|by apply calmly_ret]. eapply calmly_step; [apply calmly_queued|]. intros queued s5 Hc5 Hr5. rewrite <- Hc5.
  assert (count (i_report s5) COMMIT_FAILURES = count (i_report s4) COMMIT_FAILURES) as <- by (by rewrite Hr5).
  destruct queued; [by apply calmly_ret|]. eapply calmly_step; [by apply calmly_queue|]. intros ok s6 Hc6 Hr6. rewrite <- Hc6.
  assert (count (i_report s6) COMMIT_FAILURES = count (i_report s5) COMMIT_FAILURES) as <- by (by rewrite Hr6).
  apply calmly_bump. by destruct ok.
Qed.

Lemma calmly_items q ms s : Forall (fun m => m_label m ∈ VALID_LABELS) ms ->
  calmly (for_each ms (one_item q)) s [] (i_conv s) (keeps_failures s).
Proof.
  intros Hl. revert s. induction Hl as [|m ms Hm _ IH]; intros s; cbn [for_each]; [by apply calmly_ret|].
  eapply calmly_step; [by apply calmly_one_item|]. intros [] s1 Hc <-. rewrite <- Hc. by apply IH.
Qed.

Definition blank (t : pystr) : bool := bool_decide (strip t = []).
Definition speech (pieces : list pystr) : list pystr := List.filter (fun t => negb (blank t)) pieces.

Definition usable (items : list raw_item) : Prop := exists ms,
  normalize_all valid_emotions (List.filter (fun r => negb (bool_decide (r_text r = []))) items) = Ok ms.

Lemma calmly_ask_model t s : calmly (ask_model prompt_of t) s [t] (i_conv s)
  (fun r _ => exists raw items, r = Said raw /\ parse_extraction raw = Ok (Some items) /\ usable items).
Proof.
  unfold ask_model. apply calmly_catch. eapply (calmly_bind _ _ _ [] [t]); [apply calmly_meanwhile|]. intros [] s1 Hc1 _. rewrite <- Hc1.
  destruct (cm_model Hcalm (i_trace s1) (prompt_of t)) as (raw & items & ms & Hraw & Hparse & Hms).
  exists (Said raw). unfold ask. munfold. rewrite Hraw. eexists _, [EvModel t (Ok raw)]. split_and!; try done.
  exists raw, items. split_and!; [done..|by exists ms].
Qed.

Lemma calmly_extract t s : calmly (extract_items_with_status prompt_of max_retries t) s (speech [t]) (i_conv s)
  (fun e _ => exists items, e = Extracted items /\ usable items).
Proof.
  unfold extract_items_with_status, speech, blank. cbn [List.filter]. destruct (bool_decide (strip t = [])); cbn [negb].
  { apply calmly_ret. exists []. split; [done|]. by exists []. }
  pose proof (cm_retries Hcalm). destruct (Z.to_nat (max_retries + 1)) as [|n] eqn:Hn; [lia|]. cbn [attempts].
  eapply (calmly_bind _ _ _ [t] []); [apply calmly_ask_model|]. intros r s1 Hc1 (raw & items & -> & Hparse & Hu). rewrite <- Hc1.
  eapply calmly_step; [by apply (calmly_of_res _ (Some items))|]. intros ? s2 _ [-> ->]. apply calmly_ret. by exists items.
Qed.

Lemma calmly_stages t s : calmly (run_chunk_stages t true) s (speech [t]) (i_conv s) (fun r _ => r = OK).
Proof.
  unfold Pipeline.run_chunk_stages. eapply calmly_step; [apply calmly_on_report|]. intros [] s1 Hc1 _. rewrite <- Hc1.
  rewrite <- (app_nil_r (speech [t])). eapply calmly_bind; [apply calmly_extract|]. intros e s2 Hc2 (items & -> & ms & Hms). rewrite <- Hc2.
  eapply calmly_step; [by apply (calmly_of_res _ ms)|]. intros ? s3 _ [-> ->].
  eapply calmly_step; [apply calmly_on_report|]. intros [] s3 Hc3 _. rewrite <- Hc3.
  eapply calmly_step; [apply calmly_gets|]. intros before s4 _ [-> ->].
  eapply calmly_step; [apply calmly_items; by eapply normalized_labels|]. intros [] s4 Hc4 Hf. rewrite <- Hc4.
  eapply calmly_step; [apply calmly_gets|]. intros after s5 _ [-> ->]. apply calmly_ret. by rewrite Hf, Z.ltb_irrefl.
Qed.

Lemma speech_app a b : speech (a ++ b) = speech a ++ speech b.
Proof. apply List.filter_app. Qed.

Lemma calmly_pieces ps s : calmly (run_pieces ps) s (speech ps) (i_conv s) (fun r _ => r = OK).
Proof.
  revert s. induction ps as [|p ps IH]; intros s; cbn [Pipeline.run_pieces]; [by apply calmly_ret|].
  change (p :: ps) with ([p] ++ ps). rewrite speech_app. eapply calmly_bind; [apply calmly_stages|]. intros r s1 Hc ->. rewrite <- Hc. apply IH.
Qed.

(** ** Chunks *)

(** A chunk whose cursor can be written and read back. *)
Definition ready (c : chunk) (ts : pystr) (d : pydt) : Prop :=
  ch_cursor c = Some ts /\ ts <> [] /\ strip ts = ts /\ flexible_iso ts = Some d.

Lemma flexible_parses ts d : flexible_iso ts = Some d -> exists e, fromisoformat (replace_z ts) = Ok e.
Proof. unfold flexible_iso. destruct (fromisoformat _); [eauto|done]. Qed.

Lemma calmly_move c ts d s : ready c ts d -> calmly (move_past c) s [] (set_cursor (Some ts) (i_conv s)) (same s).
Proof.
  intros (Hc & Hne & _ & Hd). destruct (flexible_parses ts d Hd) as [e He]. unfold move_past. rewrite Hc. destruct ts as [|x ts]; [done|].
  apply calmly_catch. unfold move_cursor. eapply calmly_step; [by apply (calmly_of_res _ e)|]. intros ? s1 _ [-> ->].
  eapply calmly_step; [apply calmly_touch|]. intros [] s1 Hc1 Hr1. unfold conv_op, write_cursor. eexists tt, _, [EvCursor (x :: ts)].
  rewrite !bind_run. unfold gets. cbv beta iota. rewrite He. cbn [mbind res_bind mret res_ret]. split_and!; [done|done|done|by rewrite <- Hc1|done].
Qed.

Definition after_chunk (c : chunk) (v : conv) : conv := set_cursor (ch_cursor c) (set_backoff None v).

Lemma calmly_clear s : calmly clear_backoff s [] (set_backoff None (i_conv s)) (same s).
Proof.
  unfold clear_backoff. eapply calmly_step; [apply calmly_touch|]. intros [] s1 Hc Hr. rewrite <- Hc. eexists _, _, [].
  split_and!; [done|by apply adds_nil|done..].
Qed.

(** The chunks a pass takes. *)
Definition taken (mc : option Z) (i : Z) (n : nat) : nat := match mc with Some m => Nat.min (Z.to_nat (m - i)) n | None => n end.

Lemma taken_more mc i n : (match mc with Some m => (m <=? i)%Z | None => false end) = false -> taken mc i (S n) = S (taken mc (i + 1) n).
Proof. destruct mc as [m|]; [|done]. intros Hm%Z.leb_gt. unfold taken. replace (Z.to_nat (m - i)) with (S (Z.to_nat (m - (i + 1)))) by lia. done. Qed.

Lemma calmly_loop mc i cs s : Forall (fun c => exists ts d, ready c ts d) cs ->
  let k := taken mc i (length cs) in
  calmly (chunk_loop true mc i cs) s (speech (concat (map ch_pieces (take k cs)))) (fold_left (fun v c => after_chunk c v) (take k cs) (i_conv s))
    (fun _ s' => k = length cs -> reached_end (i_report s') = true).
Proof.
  intros Hcs. revert i s. induction Hcs as [|c cs (ts & d & Hr) _ IH]; intros i s; cbn [Pipeline.chunk_loop length]; cbv zeta.
  { rewrite take_nil. cbn [map concat fold_left]. eapply calmly_weaken; [apply calmly_on_report|]. intros [] s' _ -> _. done. }
  destruct (match mc with Some m => (m <=? i)%Z | None => false end) eqn:Hm.
  { assert (taken mc i (S (length cs)) = 0%nat) as ->.
    { destruct mc as [m|]; [|done]. apply Z.leb_le in Hm. unfold taken. lia. }
    cbn [take map concat fold_left]. by apply calmly_ret. }
  rewrite (taken_more mc i (length cs) Hm). cbn [take map concat fold_left]. rewrite speech_app.
  eapply calmly_bind; [apply calmly_pieces|]. intros r s1 Hc1 ->.
  rewrite <- (app_nil_l (speech _)). eapply calmly_bind; [apply calmly_clear|]. intros [] s2 Hc2 _.
  rewrite <- (app_nil_l (speech _)). eapply calmly_bind; [by eapply calmly_move|]. intros [] s3 Hc3 _.
  assert (after_chunk c (i_conv s) = i_conv s3) as ->.
  { unfold after_chunk. destruct Hr as (-> & _). by rewrite Hc3, Hc2, Hc1. }
  eapply calmly_weaken; [apply IH|]. intros [] s4 _ He Heq. apply He. lia.
Qed.

(** ** Passes *)
Lemma calmly_backoff s : calmly backoff_state s [] (i_conv s) (fun b s' => b = read_backoff (i_conv s) /\ i_report s' = i_report s).
Proof.
  unfold backoff_state. eapply calmly_step; [apply calmly_probe|]. intros ok s1 Hc1 [-> Hr1].
  eapply calmly_step; [apply calmly_gets|]. intros c s2 Hc2 [-> ->]. rewrite <- Hc1. by apply calmly_ret.
Qed.

Lemma calmly_cursor_file s : calmly read_cursor_file s [] (i_conv s) (fun c s' => c = read_cursor (i_conv s) /\ i_report s' = i_report s).
Proof.
  unfold read_cursor_file. eapply calmly_step; [apply calmly_touch|]. intros [] s1 Hc1 Hr1.
  eapply calmly_step; [apply calmly_gets|]. intros c s2 Hc2 [-> ->]. rewrite <- Hc1. by apply calmly_ret.
Qed.

Lemma calmly_rows s : calmly read_rows s [] (i_conv s) (fun r _ => r = read_session (i_conv s)).
Proof.
  unfold read_rows. eapply calmly_step; [apply calmly_touch|]. intros [] s1 Hc1 _.
  eapply calmly_step; [apply calmly_gets|]. intros c s2 Hc2 [-> ->]. rewrite <- Hc1. by apply calmly_ret.
Qed.

Definition to_do (v : conv) : list json := List.filter not_summary (read_session_after (read_session v) (read_cursor v)).

Lemma calmly_to_do s : calmly rows_after_cursor s [] (i_conv s) (fun r _ => r = to_do (i_conv s)).
Proof.
  unfold rows_after_cursor. eapply calmly_step; [apply calmly_cursor_file|]. intros cur s1 Hc1 [-> _].
  eapply calmly_step; [apply calmly_rows|]. intros rows s2 Hc2 ->. rewrite <- Hc1, <- Hc2. apply calmly_ret. unfold to_do. by rewrite Hc2.
Qed.

Lemma calmly_mark first s : calmly (mark_chunked_extraction sid first) s [] (i_conv s) (fun _ _ => True).
Proof.
  unfold mark_chunked_extraction, now. eapply calmly_step; [apply calmly_probe|]. intros ok s1 Hc1 _. rewrite <- Hc1.
  eapply calmly_step; [apply calmly_gets|]. intros file s2 _ [-> ->]. destruct (has_entry _ _); [by apply calmly_ret|].
  eapply calmly_step; [apply calmly_gets|]. intros n s2 _ [-> ->]. apply calmly_catch.
  eapply calmly_step; [apply calmly_touch|]. intros [] s2 Hc2 _. rewrite <- Hc2.
  eapply calmly_step; [apply calmly_probe|]. intros ok' s3 Hc3 _. rewrite <- Hc3.
  eapply calmly_step; [apply calmly_gets|]. intros file s4 _ [-> ->]. destruct (has_entry _ _); [by apply calmly_ret|].
  eapply calmly_step; [apply calmly_touch|]. intros [] s4 Hc4 _. rewrite <- Hc4. eexists _, _, []. split_and!; [done|by apply adds_nil|done..].
Qed.

Lemma calmly_snapshot mc s cs : read_backoff (i_conv s) = None -> chunks_now (to_do (i_conv s)) = Ok cs -> cs <> [] ->
  Forall (fun c => exists ts d, ready c ts d) cs ->
  let k := taken mc 0 (length cs) in
  calmly (snapshot mc) s (speech (concat (map ch_pieces (take k cs)))) (fold_left (fun v c => after_chunk c v) (take k cs) (i_conv s))
    (fun r _ => k = length cs -> reached_end r = true).
Proof.
  intros Hb Hcs Hne Hready. cbv zeta.
  set (final := fun s => fold_left (fun v c => after_chunk c v) (take (taken mc 0 (length cs)) cs) (i_conv s)).
  change (fold_left _ _ (i_conv s)) with (final s).
  assert (forall s s', i_conv s' = i_conv s -> final s' = final s) as Hfinal by (intros ? ? Heq; unfold final; by rewrite Heq). unfold Pipeline.extract_session_snapshot, reporting, under_extract_lock.
  eapply calmly_step; [apply calmly_on_report|]. intros [] s1 Hc1 _. rewrite <- Hc1 in *. rewrite <- (Hfinal _ _ Hc1).
  rewrite <- (app_nil_r (speech _)). apply (calmly_bind _ _ _ _ _ (final s1) _ (fun _ s' => taken mc 0 (length cs) = length cs -> reached_end (i_report s') = true)).
  - eapply calmly_step; [apply calmly_touch|]. intros [] s2 Hc2 _. rewrite <- Hc2 in *. rewrite <- (Hfinal _ _ Hc2).
    eapply calmly_step; [apply calmly_gets|]. intros free s3 _ [-> ->]. rewrite (cm_lock Hcalm). unfold extract_session_snapshot_locked.
    eapply calmly_step. { unfold in_backoff_window. eapply calmly_step; [apply calmly_backoff|]. intros b s3 Hc3 [-> _]. rewrite Hb, <- Hc3. by apply (calmly_ret false _ (fun w _ => w = false)). }
    intros wait s3 Hc3 ->. rewrite <- Hc3 in *. rewrite <- (Hfinal _ _ Hc3). eapply calmly_step; [apply calmly_to_do|]. intros turns s4 Hc4 ->. rewrite <- Hc4 in *. rewrite <- (Hfinal _ _ Hc4).
    destruct (to_do (i_conv s4)) as [|t turns] eqn:Htodo.
    { exfalso. apply Hne. unfold Pipeline.chunks_now, chunk_turns in Hcs. destruct (_ <=? _)%Z; [done|]. cbn in Hcs. by injection Hcs as <-. }
    rewrite <- (app_nil_r (speech _)). apply (calmly_bind _ _ _ _ _ (final s4) _ (fun _ s' => taken mc 0 (length cs) = length cs -> reached_end (i_report s') = true)).
    + unfold Pipeline.run_chunks. eapply calmly_step; [apply calmly_mark|]. intros [] s5 Hc5 _. rewrite <- (Hfinal _ _ Hc5).
      eapply calmly_step; [by apply (calmly_of_res _ cs)|]. intros ? s6 _ [-> ->]. by apply calmly_loop.
    + intros [] s6 Hc6 He. rewrite <- Hc6. eapply calmly_step; [apply calmly_cursor_file|]. intros ? s7 Hc7 [_ Hr7]. rewrite <- Hc7.
      apply calmly_ret. rewrite Hr7. exact He.
  - intros [] s6 Hc6 He. rewrite <- Hc6. eapply calmly_weaken; [apply calmly_gets|]. intros r s' _ [-> ->]. exact He.
Qed.

(** ** The rows left after a chunk *)
Definition cut_of (v : conv) (cut : option Z) : Prop :=
  match read_cursor v with None => cut = None | Some ts => exists d, flexible_iso ts = Some d /\ cut = Some (at_utc d) end.

Lemma cut_exists v : exists cut, cut_of v cut.
Proof.
  unfold cut_of. destruct (read_cursor v) as [ts|] eqn:Hr; [|by eexists]. unfold read_cursor in Hr. destruct (cursor v) as [w|]; [|done].
  cbn [mbind option_bind] in Hr. destruct (bool_decide _); [done|]. destruct (flexible_iso (strip w)) as [d|] eqn:Hd; [|done].
  injection Hr as <-. by exists (Some (at_utc d)), d.
Qed.

Lemma to_do_left v cut : plain_rows (read_session v) -> cut_of v cut -> to_do v = rows_left cut (read_session v).
Proof.
  intros Hp. unfold cut_of, to_do. destruct (read_cursor v) as [ts|]; [|intros ->; apply rows_after_start].
  intros (d & Hd & ->). by apply rows_after_cut.
Qed.

Lemma to_do_chunks v cs : chunks_now (to_do v) = Ok cs -> to_do v = concat (map ch_turns cs).
Proof.
  intros Hc. destruct (chunks_in_time _ _ _ _ _ Hc) as (-> & _). unfold to_do. rewrite filter_filter. apply filter_same, Forall_forall.
  intros t _. unfold not_summary. by destruct (speaker_is _ _).
Qed.

Lemma to_do_row v t : t ∈ to_do v -> t ∈ read_session v /\ not_summary t = true.
Proof.
  intros Ht. apply list_elem_of_In, filter_In in Ht as [Ht Hn]. split; [|done]. unfold read_session_after in Ht.
  destruct (match read_cursor v with None => _ | Some _ => _ end); [apply filter_In in Ht as [Ht _]|]; by apply list_elem_of_In.
Qed.

Lemma to_do_plain v : plain_rows (read_session v) -> forall t, t ∈ to_do v -> exists s d, plain_spec t s d.
Proof. intros Hp t [Ht Hn]%to_do_row. by apply plain_row_spec, (proj1 (Forall_forall _ _) Hp t). Qed.

Lemma to_do_after v c cs : plain_rows (read_session v) -> chunks_now (to_do v) = Ok (c :: cs) ->
  (exists ts d, ready c ts d) /\ to_do v = concat (map ch_turns (c :: cs)) /\
  to_do (after_chunk c v) = concat (map ch_turns cs) /\ chunks_now (to_do (after_chunk c v)) = Ok cs.
Proof.
  intros Hp Hc. destruct (cut_exists v) as [cut Hcut]. pose proof (to_do_left v cut Hp Hcut) as Hleft.
  pose proof (to_do_chunks _ _ Hc) as Htodo. unfold Pipeline.chunks_now in Hc. destruct (chunks_in_time _ _ _ _ _ Hc) as (_ & Hne & _).
  pose proof (to_do_plain v Hp) as Hplain.
  assert (forall t, t ∈ ch_turns c -> t ∈ to_do v) as Hsub by (intros t Ht; rewrite Htodo; cbn [map concat]; apply elem_of_app; by left).
  destruct (first_chunk_end _ _ _ _ _ _ Hc) as (t & s & Ht & Hs & Hcur & Hle & Hlt).
  { apply Forall_cons in Hne as [Hne _]. destruct (ch_turns c) as [|t l] eqn:Hl; [done|]. exists t. split; [by left|].
    destruct (Hplain t) as (x & d & []); [apply Hsub; by left|]. by eexists. }
  destruct (Hplain t (Hsub t Ht)) as (x & d & [Hx Hxne Hxs Hiso Hst]). rewrite Hx in Hcur. cbn [py_str] in Hcur. rewrite Hst in Hs. injection Hs as <-.
  assert (read_cursor (after_chunk c v) = Some x) as Hread.
  { unfold after_chunk, read_cursor. cbn [cursor set_cursor]. rewrite Hcur. cbn [mbind option_bind]. rewrite Hxs, bool_decide_eq_false_2 by done. by rewrite Hiso. }
  assert (to_do (after_chunk c v) = concat (map ch_turns cs)) as Hrest.
  { rewrite (to_do_left _ (Some (at_utc d))); [|done|unfold cut_of; rewrite Hread; by exists d].
    change (read_session (after_chunk c v)) with (read_session v). rewrite Hleft in Htodo.
    apply (rows_left_split cut _ _ (ch_turns c) (concat (map ch_turns cs))); [done|done|done|done|].
    intros a ->. assert (t ∈ rows_left (Some a) (read_session v)) as Hin by (rewrite <- Hleft; by apply Hsub).
    apply list_elem_of_In, filter_In in Hin as [_ Hin]. apply andb_true_iff in Hin as [_ Hin]. unfold later_than in Hin. rewrite Hst in Hin.
    apply Z.ltb_lt in Hin. lia. }
  split_and!; [exists x, d; by split_and!|done|done|]. rewrite Hrest. unfold Pipeline.chunks_now. exact (proj2 (chunk_turns_parts (to_do v) _ _ _ [c] cs Hc)).
Qed.

Lemma all_ready v cs : plain_rows (read_session v) -> chunks_now (to_do v) = Ok cs -> Forall (fun c => exists ts d, ready c ts d) cs.
Proof.
  revert v. induction cs as [|c cs IH]; intros v Hp Hc; [constructor|]. destruct (to_do_after v c cs Hp Hc) as (Hr & _ & _ & Hc').
  constructor; [done|]. by apply (IH (after_chunk c v)).
Qed.

Fixpoint passes (n : nat) : I (list report) :=
  match n with O => mret [] | S n => r ← snapshot (Some 1%Z); rs ← passes n; mret (r :: rs) end.

Definition afterwards_conv (cs : list chunk) (v : conv) : conv := fold_left (fun v c => after_chunk c v) cs v.

Lemma afterwards_backoff cs v : read_backoff v = None -> read_backoff (afterwards_conv cs v) = None.
Proof. unfold afterwards_conv. revert v. induction cs as [|c cs IH]; intros v Hv; [done|]. by apply IH. Qed.

Lemma to_do_afterwards n v cs : plain_rows (read_session v) -> chunks_now (to_do v) = Ok cs ->
  to_do (afterwards_conv (take n cs) v) = concat (map ch_turns (drop n cs)).
Proof.
  revert n v. induction cs as [|c cs IH]; intros n v Hp Hc; [pose proof (to_do_chunks _ _ Hc); by destruct n|].
  destruct n as [|n]; [exact (to_do_chunks _ _ Hc)|]. destruct (to_do_after v c cs Hp Hc) as (_ & _ & _ & Hc'). cbn [take drop]. by apply (IH n (after_chunk c v)).
Qed.

Lemma calmly_passes n s cs : read_backoff (i_conv s) = None -> plain_rows (read_session (i_conv s)) -> chunks_now (to_do (i_conv s)) = Ok cs -> (n <= length cs)%nat ->
  calmly (passes n) s (speech (concat (map ch_pieces (take n cs)))) (afterwards_conv (take n cs) (i_conv s))
    (fun rs _ => length rs = n /\ forall r, n = length cs -> last rs = Some r -> reached_end r = true).
Proof.
  revert s cs. induction n as [|n IH]; intros s cs Hb Hp Hc Hn; cbn [passes].
  { cbn. apply calmly_ret. split; [done|]. intros r _ Hr. done. }
  destruct cs as [|c cs]; [simpl in Hn; lia|]. destruct (to_do_after _ c cs Hp Hc) as (_ & _ & Ht' & Hc').
  cbn [take map concat]. rewrite speech_app. eapply calmly_bind.
  - pose proof (calmly_snapshot (Some 1%Z) s (c :: cs) Hb Hc ltac:(done) (all_ready _ _ Hp Hc)) as Hsnap. change (taken (Some 1%Z) 0 (length (c :: cs))) with 1%nat in Hsnap.
    cbn [take map concat fold_left] in Hsnap. rewrite app_nil_r in Hsnap. exact Hsnap.
  - intros r s1 Hc1 Hr. change (afterwards_conv (c :: take n cs) (i_conv s)) with (afterwards_conv (take n cs) (after_chunk c (i_conv s))).
    change (i_conv s1 = after_chunk c (i_conv s)) in Hc1.
    rewrite <- Hc1. rewrite <- (app_nil_r (speech _)). eapply calmly_bind.
    { apply (IH s1 cs); rewrite ?Hc1; [done|exact Hp|exact Hc'|simpl in Hn; lia]. }
    intros rs s2 Hc2 [Hlen Hlast]. rewrite <- Hc2. apply calmly_ret. split; [cbn; by rewrite Hlen|]. intros x Hnx Hx.
    destruct rs as [|r' rs]; [|rewrite last_cons_cons in Hx; apply Hlast; [simpl in Hnx; lia|done]].
    cbn in Hx. injection Hx as <-. simpl in Hlen. subst n. apply Hr. simpl in *. lia.
Qed.

End calm.

#[local] Existing Instance ascii_pylib.

Definition talked_chunks : list chunk := match chunk_turns small_talk 25 None (Some (u "N")) with Ok cs => cs | Err _ => [] end.

Lemma quiet_calm : @calm _ quiet [] 1.
Proof.
  split; try done.
  - intros t p. eexists said, _, _. split_and!; [done|vm_compute; reflexivity|vm_compute; reflexivity].
  - intros. eexists. reflexivity.
Qed.

