(* ===== verification/Rollover.v ===== *)
(** [brain/chat/rollover.py] and the passes of [brain/chat/compaction.py] as they run:
    threads of several processes on the files of the sessions.  One step is one
    access to a file (creating a lock, reading the buffer, appending to the
    archive, replacing the buffer, ...); what a thread computes in between is part
    of the step before.  A thread may stop for ever after any step, an access may
    fail, an append may be cut short, and chat turns are appended at any time.
    The registry lock of the process is left out, so more interleavings are
    possible here than in the program; the append lock that a rollover holds is
    not.  The theorems are in [RolloverFacts]. *)
From S2P Require Import Prelude PyFloat PyTime Json Crypto Protocol PyVal Jsonl Buffer Compaction.

Definition ROLLOVER_TAIL : nat := 40.
Definition LOCK_STALE : Z := 600 * sec.

Inductive seed_mode := SummaryOnly | TiersPlusTail.

Record rolling := { ro_sid : pystr; ro_mode : seed_mode; ro_now : Z; ro_new : pystr; ro_at : pystr }.

(** A compaction pass; one that belongs to a rollover goes on with it. *)
Record pass := { pa_sid : pystr; pa_job : job; pa_now : Z; pa_after : option rolling }.

Inductive want := WantPass (p : pass) | WantRoll (r : rolling).
Definition want_sid (w : want) : pystr := match w with WantPass p => pa_sid p | WantRoll r => ro_sid r end.

Inductive outcome :=
| PassNothing (no : no_op) | PassLocked | PassArchiveFailed | PassDone (gen : Z) (compacted : nat)
| RolledTo (sid : pystr) | NotRolled | Failed (e : exn).

(** What an archive write is for. *)
Inductive afterwards := ThenPass (p : pass) (pl : plan) | ThenRoll (r : rolling) (seed kept : list json).
Record archiving := { ac_sid : pystr; ac_records : list json; ac_gen : Z; ac_then : afterwards }.

(** Where a thread is. *)
Inductive place :=
| WkRead (r : rolling) (weekly_age quiet_gap : Z)
| RoExtract (r : rolling)
| LkTry (w : want) | LkWrite (w : want) | LkPayload (w : want) | LkAge (w : want) | LkUnlink (w : want) | LkRetry (w : want)
| PaRead (p : pass) | PaCursor (p : pass) (turns : list json)
| AcMarker (a : archiving) | AcAppend (a : archiving) (key : pystr) | AcMark (a : archiving) (key : pystr)
| PaReread (p : pass) (pl : plan) | PaReplace (p : pass) (pl : plan) (rows : list json)
| RoGuard (r : rolling) | RoRead (r : rolling) | RoDrop (r : rolling) (seed kept : list json)
| RoCursor (r : rolling) (seed : list json) | RoSeed (r : rolling) (seed : list json) (cur : option pystr)
| RoCarry (r : rolling) (cur : option pystr) | RoPoint (r : rolling)
| RoDelete (r : rolling) | RoDelCursor (r : rolling) | RoDelBackoff (r : rolling)
| FreeAppend (sid : pystr) (q : place) | Unlock (sid : pystr) (q : place)
| Done (o : outcome) | Dead.

(** What one step reads from outside, and whether its access fails. *)
Record readings := {
  clock : Z; fault : bool;
  cut : nat;                (* where a failing append stops *)
  size_known : bool;        (* stat of the archive segment works *)
  seems_alive : bool;       (* process_identity.holder_alive of the lock's holder *)
  busy : bool;              (* a request of the session is in flight *)
  extracted : option bool;  (* the final extraction allows the rollover, refuses it, or is deferred by a shutdown *)
  model : provider }.

Abbreviation home := (gmap pystr conv).

Definition conv_of (sid : pystr) (h : home) : conv := default no_conv (h !! sid).
Definition put (sid : pystr) (c : conv) (h : home) : home := <[sid := c]> h.

Section steps.
Context `{PyLib}.
Variable local_wall : Z -> res Z.
Variables summary_prompt fold_prompt condense_prompt : pystr -> pystr -> pystr -> Z -> Z -> pystr.
Variable persona_name : pystr.

(** ** How a part ends *)
Definition after_pass (p : pass) (o : outcome) : place :=
  match pa_after p with None => Done o | Some r => LkTry (WantRoll r) end.
Definition lock_busy (w : want) : place :=
  match w with WantPass p => after_pass p PassLocked | WantRoll _ => Done NotRolled end.
Definition lock_taken (w : want) : place := match w with WantPass p => PaRead p | WantRoll r => RoGuard r end.

(** An exception in a pass, and in the rollover's section: the locks are released. *)
Definition pass_raises (p : pass) (e : exn) : place := Unlock (pa_sid p) (Done (Failed e)).
Definition roll_ends (r : rolling) (o : outcome) : place := FreeAppend (ro_sid r) (Unlock (ro_sid r) (Done o)).

Definition archived (a : archiving) : place :=
  match ac_then a with ThenPass p pl => PaReread p pl | ThenRoll r seed kept => RoDrop r seed kept end.
Definition archive_failed (a : archiving) (e : exn) : place :=
  match ac_then a with
  | ThenPass p _ => Unlock (pa_sid p) (after_pass p PassArchiveFailed)
  | ThenRoll r _ _ => roll_ends r (Failed e)
  end.

(** The pass [perform_rollover] runs before it takes the lock. *)
Definition fold_pass (r : rolling) : pass :=
  {| pa_sid := ro_sid r; pa_now := ro_now r; pa_after := Some r;
     pa_job := match ro_mode r with SummaryOnly => Compact 0 true 0 None | TiersPlusTail => Cascade (Z.of_nat ROLLOVER_TAIL) end |}.

(** ** [acquire_compaction_lock] *)
Definition lock_step (i : nat) (p : place) (r : readings) (h : home) : option (place * home) :=
  let create w :=
    let c := conv_of (want_sid w) h in
    match compacting c with
    | Some _ => None
    | None => Some (LkWrite w, put (want_sid w) (set_compacting (Some {| lk_owner := i; lk_written := false; lk_mtime := clock r |}) c) h)
    end in
  match p with
  | LkTry w => Some (if fault r then (Done (Failed OSError), h) else default (LkPayload w, h) (create w))
  | LkWrite w =>
      let c := conv_of (want_sid w) h in
      Some (if fault r then (Done (Failed OSError), h) else
            (lock_taken w,
             match compacting c with
             | Some l => if bool_decide (lk_owner l = i)
                         then put (want_sid w) (set_compacting (Some {| lk_owner := i; lk_written := true; lk_mtime := clock r |}) c) h else h
             | None => h
             end))
  | LkPayload w =>
      let payload := if fault r then None else compacting (conv_of (want_sid w) h) in
      Some (if reap_now payload (seems_alive r) then LkUnlink w else LkAge w, h)
  | LkAge w =>
      let lock := if fault r then None else compacting (conv_of (want_sid w) h) in
      Some (if reap_for_age lock (clock r) LOCK_STALE then LkUnlink w else lock_busy w, h)
  | LkUnlink w =>
      Some (if fault r then (Done (Failed OSError), h)
            else (LkRetry w, put (want_sid w) (release_compaction_lock (conv_of (want_sid w) h)) h))
  | LkRetry w => Some (if fault r then (Done (Failed OSError), h) else default (lock_busy w, h) (create w))
  | Unlock sid q =>
      Some (if fault r then (Done (Failed OSError), h) else (q, put sid (release_compaction_lock (conv_of sid h)) h))
  | _ => None
  end.

(** ** [archive_once] *)
Definition archive_step (p : place) (r : readings) (h : home) : option (place * home) :=
  match p with
  | AcMarker a =>
      Some (match archive_batch_key (ac_records a) (ac_gen a) with
            | Err e => archive_failed a e
            | Ok key =>
                if bool_decide ((if fault r then None else read_archive_marker (conv_of (ac_sid a) h)) = Some key)
                then archived a else AcAppend a key
            end, h)
  | AcAppend a key =>
      Some (match append_archive (size_known r) (ac_records a) (if fault r then Some (cut r) else None) (conv_of (ac_sid a) h) with
            | Err e => (archive_failed a e, h)
            | Ok c => (if fault r then archive_failed a OSError else AcMark a key, put (ac_sid a) c h)
            end)
  | AcMark a key =>
      Some (if fault r then (archive_failed a OSError, h)
            else (archived a, put (ac_sid a) (write_archive_marker key (conv_of (ac_sid a) h)) h))
  | _ => None
  end.

(** ** The passes *)
Definition rewrite_at (sid : pystr) (rows : list json) (h : home) : res home :=
  c ← rewrite_session_atomic rows (conv_of sid h); mret (put sid c h).

Definition pass_step (p : place) (r : readings) (h : home) : option (place * home) :=
  match p with
  | PaRead p =>
      Some (if fault r then pass_raises p OSError else PaCursor p (read_session (conv_of (pa_sid p) h)), h)
  | PaCursor p turns =>
      Some (if fault r then pass_raises p OSError else
            match job_plan local_wall summary_prompt fold_prompt condense_prompt (pa_job p) (model r) persona_name (pa_sid p)
                    (pa_now p) turns (read_cursor (conv_of (pa_sid p) h)) with
            | Err e => pass_raises p e
            | Ok (inl no) => Unlock (pa_sid p) (after_pass p (PassNothing no))
            | Ok (inr pl) =>
                if no_rows (pl_records pl) then PaReread p pl
                else AcMarker {| ac_sid := pa_sid p; ac_records := pl_records pl; ac_gen := pl_gen pl; ac_then := ThenPass p pl |}
            end, h)
  | PaReread p pl =>
      Some (if fault r then pass_raises p OSError
            else PaReplace p pl (installed_rows pl (read_session (conv_of (pa_sid p) h))), h)
  | PaReplace p pl rows =>
      Some (match (if fault r then Err OSError else rewrite_at (pa_sid p) rows h) with
            | Err e => (pass_raises p e, h)
            | Ok h => (Unlock (pa_sid p) (after_pass p (PassDone (pl_gen pl) (length (pl_removable pl)))), h)
            end)
  | _ => None
  end.

(** ** [_ts_span], [maybe_weekly_rollover] *)
Definition ts_span (raw : list json) : option (Z * Z) :=
  match omap ts_of raw with
  | [] => None
  | d :: ds => Some (fold_left (fun a b => Z.min a (at_utc b)) ds (at_utc d), fold_left (fun a b => Z.max a (at_utc b)) ds (at_utc d))
  end.

Definition weekly_due (turns : list json) (now_ weekly_age quiet_gap : Z) (in_flight : bool) : bool :=
  let raw := (split_buffer turns).2 in
  match ts_span raw with
  | Some (oldest, newest) => (weekly_age <=? now_ - oldest)%Z && (quiet_gap <=? now_ - newest)%Z && negb in_flight
  | None => false
  end.

(** ** [perform_rollover] *)

(** The rows carried into the successor, and the raw turns that are not. *)
Definition seed_of (mode : seed_mode) (turns : list json) : list json * list json :=
  let '(summary, raw) := split_buffer turns in
  match mode with
  | SummaryOnly => (match summary with None => [] | Some s => s :: raw end, [])
  | TiersPlusTail =>
      let n := (length raw - ROLLOVER_TAIL)%nat in (option_list summary ++ drop n raw, take n raw)
  end.

(** [{**r, "session_id": new}]. *)
Definition restamp (new : pystr) (r : json) : json :=
  match r with JObj kvs => JObj (dict_set (u "session_id") (JStr new) kvs) | _ => r end.

Definition roll_step (i : nat) (p : place) (r : readings) (h : home) : option (place * home) :=
  let old ro := conv_of (ro_sid ro) h in
  match p with
  | WkRead ro weekly_age quiet_gap =>
      Some (if fault r then Done (Failed OSError)
            else if weekly_due (read_session (old ro)) (ro_now ro) weekly_age quiet_gap (busy r) then RoExtract ro
            else Done NotRolled, h)
  | RoExtract ro =>
      Some (match extracted r with
            | Some true => LkTry (WantPass (fold_pass ro))
            | Some false => Done NotRolled
            | None => Done (Failed ThrottleDeferred)
            end, h)
  | RoGuard ro =>
      if fault r then Some (RoRead ro, h) else
      match appending (old ro) with
      | None => Some (RoRead ro, put (ro_sid ro) (set_appending (Some i) (old ro)) h)
      | Some _ => None
      end
  | RoRead ro =>
      Some (if fault r then roll_ends ro (Failed OSError) else
            let turns := read_session (old ro) in
            let '(seed, not_carried) := seed_of (ro_mode ro) turns in
            if no_rows seed then roll_ends ro NotRolled
            else if no_rows not_carried then RoCursor ro seed
            else match summary_gen (split_buffer turns).1 with
                 | Err e => roll_ends ro (Failed e)
                 | Ok gen => AcMarker {| ac_sid := ro_sid ro; ac_records := not_carried; ac_gen := gen;
                     ac_then := ThenRoll ro seed (without_first (length not_carried) (fun t => negb (is_summary t)) turns) |}
                 end, h)
  | RoDrop ro seed kept =>
      Some (match (if fault r then Err OSError else rewrite_at (ro_sid ro) kept h) with
            | Err e => (roll_ends ro (Failed e), h)
            | Ok h => (RoCursor ro seed, h)
            end)
  | RoCursor ro seed => Some (if fault r then roll_ends ro (Failed OSError) else RoSeed ro seed (read_cursor (old ro)), h)
  | RoSeed ro seed cur =>
      match h !! ro_new ro with
      | Some _ => None
      | None => Some (match (if fault r then Err OSError else rewrite_at (ro_new ro) (map (restamp (ro_new ro)) seed) h) with
                      | Err e => (roll_ends ro (Failed e), h)
                      | Ok h => (RoCarry ro cur, h)
                      end)
      end
  | RoCarry ro cur =>
      Some (match cur with
            | None => (RoPoint ro, h)
            | Some s => match (if fault r then Err OSError else write_cursor s (conv_of (ro_new ro) h)) with
                        | Err e => (roll_ends ro (Failed e), h)
                        | Ok c => (RoPoint ro, put (ro_new ro) c h)
                        end
            end)
  | RoPoint ro =>
      Some (match (if fault r then Err OSError else write_rolled_to (ro_new ro) (ro_at ro) (old ro)) with
            | Err e => (roll_ends ro (Failed e), h)
            | Ok c => (RoDelete ro, put (ro_sid ro) c h)
            end)
  | RoDelete ro =>
      Some (if fault r then (roll_ends ro (Failed OSError), h)
            else (RoDelCursor ro, put (ro_sid ro) (delete_session_buffer (old ro)) h))
  | RoDelCursor ro =>
      Some (if fault r then (roll_ends ro (Failed OSError), h)
            else (RoDelBackoff ro, put (ro_sid ro) (delete_cursor (old ro)) h))
  | RoDelBackoff ro =>
      Some (if fault r then (roll_ends ro (Failed OSError), h)
            else (roll_ends ro (RolledTo (ro_new ro)), put (ro_sid ro) (delete_backoff (old ro)) h))
  | FreeAppend sid q =>
      let c := conv_of sid h in
      Some (q, if bool_decide (appending c = Some i) then put sid (set_appending None c) h else h)
  | _ => None
  end.

Definition step (i : nat) (p : place) (r : readings) (h : home) : option (place * home) :=
  match p with
  | LkTry _ | LkWrite _ | LkPayload _ | LkAge _ | LkUnlink _ | LkRetry _ | Unlock _ _ => lock_step i p r h
  | AcMarker _ | AcAppend _ _ | AcMark _ _ => archive_step p r h
  | PaRead _ | PaCursor _ _ | PaReread _ _ | PaReplace _ _ _ => pass_step p r h
  | Done _ | Dead => None
  | _ => roll_step i p r h
  end.

(** ** The system *)
Record system := {
  convs : home;
  threads : list place;
  said : list identity;                    (* of every turn that reached a buffer whole *)
  presented : list (Z * list json) }.      (* every batch given to [archive_once] *)

Inductive move :=
| Start (p : place)
| Turn (i : nat) (r : readings)
| Kill (i : nat)
| Say (turn : json) (fresh_id now_iso : pystr) (cut_ : option nat)   (* [ingest_turn] *)
| MoveCursor (sid ts : pystr).                                        (* the extraction writes its cursor *)

Definition entry (p : place) : bool :=
  match p with WkRead _ _ _ | RoExtract _ => true | LkTry (WantPass p) => bool_decide (pa_after p = None) | _ => false end.

(** The locks the operating system releases when a thread's process dies. *)
Definition release_of (i : nat) (h : home) : home :=
  (fun c => if bool_decide (appending c = Some i) then set_appending None c else c) <$> h.

(** [ingest_turn]'s append, which waits while a rollover holds the append lock. *)
Definition say (turn : json) (fresh_id now_iso : pystr) (cut_ : option nat) (h : home) : option (home * list identity) :=
  match ingest_record turn fresh_id now_iso with
  | Err _ => None
  | Ok (sid, rec) =>
      let c := conv_of sid h in
      match appending c, encode_jsonl false [rec] with
      | None, Ok _ =>
          let c' := set_buffer (file_append (buffer c) [rec] cut_) c in
          Some (put sid c' h, map turn_identity (drop (length (read_session c)) (read_session c')))
      | _, _ => None
      end
  end.

Definition sys_step (m : move) (s : system) : option system :=
  match m with
  | Start p => if entry p then Some {| convs := convs s; threads := threads s ++ [p]; said := said s; presented := presented s |} else None
  | Turn i r =>
      p ← threads s !! i;
      '(p', h) ← step i p r (convs s);
      Some {| convs := h; threads := <[i := p']> (threads s); said := said s;
              presented := match p with AcMarker a => (ac_gen a, ac_records a) :: presented s | _ => presented s end |}
  | Kill i =>
      _ ← threads s !! i;
      Some {| convs := release_of i (convs s); threads := <[i := Dead]> (threads s); said := said s; presented := presented s |}
  | Say turn fresh_id now_iso cut_ =>
      '(h, new) ← say turn fresh_id now_iso cut_ (convs s);
      Some {| convs := h; threads := threads s; said := new ++ said s; presented := presented s |}
  | MoveCursor sid ts =>
      match write_cursor ts (conv_of sid (convs s)) with
      | Ok c => Some {| convs := put sid c (convs s); threads := threads s; said := said s; presented := presented s |}
      | Err _ => None
      end
  end.

Fixpoint sys_run (ms : list move) (s : system) : option system :=
  match ms with [] => Some s | m :: ms => s' ← sys_step m s; sys_run ms s' end.

Definition nobody : system := {| convs := ∅; threads := []; said := []; presented := [] |}.
End steps.
