(* ===== verification/RolloverFacts.v ===== *)
(** Theorems about [Rollover]: no turn of a chat is ever lost to compaction or
    rollover, whatever the interleaving, the crashes and the failed accesses.  A
    turn is followed by its identity: it is archived, or in a buffer that every
    thread at work there will keep it in or move it from. *)
From S2P Require Import Prelude PyFloat PyTime Json Crypto Protocol PyVal ConnectCode JsonCut Jsonl Buffer Compaction Rollover.

(** The cases of a step. *)
Ltac step_cases Hs :=
  unfold Rollover.step in Hs;
  match type of Hs with match ?p with _ => _ end = _ => destruct p end;
  cbn [lock_step archive_step pass_step roll_step] in Hs; try discriminate Hs;
  unfold default in Hs; repeat case_match; simplify_eq/=.

Section identities.
Context `{PyLib}.

Definition ids (rows : list json) : list identity := map turn_identity rows.

(** The identity of a turn as [ingest_turn] writes it, not of a summary row. *)
Definition raw_identity (x : identity) : Prop :=
  exists a b c, x = (JStr a, JStr b, JStr c) /\ b <> u "summary".

Lemma raw_identity_text x : raw_identity x -> exists a b c, x = (JStr a, JStr b, JStr c).
Proof. intros (a & b & c & -> & _). eauto. Qed.

Lemma raw_not_summary x t : raw_identity x -> turn_identity t = x -> is_summary t = false.
Proof.
  intros (a & b & c & -> & Hb) [= _ Hsp _]. unfold is_summary, speaker_is, jis_str. rewrite Hsp.
  by apply bool_decide_eq_false_2.
Qed.

Lemma ids_app a b : ids (a ++ b) = ids a ++ ids b.
Proof. apply map_app. Qed.

Lemma ids_in x l : x ∈ ids l <-> exists t, turn_identity t = x /\ t ∈ l.
Proof. unfold ids. rewrite list_elem_of_In, in_map_iff. setoid_rewrite list_elem_of_In. done. Qed.

Lemma ids_filter x P l : (forall t, turn_identity t = x -> P t = true) -> x ∈ ids l -> x ∈ ids (List.filter P l).
Proof.
  intros HP (t & Ht & Hl)%ids_in. apply ids_in. exists t. split; [done|]. apply list_elem_of_In, filter_In. split; [by apply list_elem_of_In|auto].
Qed.

Lemma ids_raw x l : raw_identity x -> x ∈ ids l -> x ∈ ids (split_buffer l).2.
Proof. intros Hx. apply ids_filter. intros t Ht. by rewrite (raw_not_summary x t Hx Ht). Qed.

Lemma remove_identity_sub i l x : x ∈ remove_identity i l -> x ∈ l.
Proof. induction l as [|j l IH]; simpl; [done|]. case_match; set_solver. Qed.

Lemma subtract_keeps x archived_ rows : raw_identity x -> x ∈ ids rows -> x ∈ ids (subtract archived_ rows) \/ x ∈ archived_.
Proof.
  intros Hx. revert archived_. induction rows as [|t rows IH]; intros arch Hin; [by left|]. cbn [subtract].
  destruct (existsb _ arch) eqn:He.
  - apply existsb_exists in He as (j & Hj & Hs). pose proof (same_identity_text x (turn_identity t) (raw_identity_text x Hx)) as Hst.
    destruct (same_identity x (turn_identity t)).
    + right. rewrite (proj1 Hst eq_refl) in *. apply same_identity_text in Hs as ->; [by apply list_elem_of_In|by apply raw_identity_text].
    + destruct (IH (remove_identity (turn_identity t) arch)) as [Hl|Hr]; [|by left|right; by eapply remove_identity_sub].
      unfold ids in Hin. cbn [map] in Hin. apply elem_of_cons in Hin as [E|?]; [by apply Hst in E|done].
  - unfold ids in *. cbn [map] in *. apply elem_of_cons in Hin as [->|Hin]; [left; constructor|].
    destruct (IH arch Hin) as [?|?]; [left; by constructor|by right].
Qed.

Lemma installed_keeps x p rows : raw_identity x -> x ∈ ids rows -> x ∈ ids (installed_rows p rows) \/ x ∈ ids (pl_removable p).
Proof.
  intros Hx Hin. destruct (subtract_keeps x (ids (pl_removable p)) _ Hx (ids_raw x rows Hx Hin)) as [Hl|?]; [left|by right].
  unfold installed_rows, ids in *. cbn [map]. by constructor.
Qed.

Lemma without_first_keeps x n P l : (forall t, turn_identity t = x -> P t = true) -> x ∈ ids l ->
  x ∈ ids (without_first n P l) \/ x ∈ ids (take n (List.filter P l)).
Proof.
  intros HP. revert n. induction l as [|t l IH]; intros n Hin; [by left|]. destruct n as [|n]; [by left|].
  unfold ids in *. cbn [without_first List.filter map] in *. destruct (P t) eqn:E; cbn [take map].
  - apply elem_of_cons in Hin as [->|Hin]; [right; constructor|]. destruct (IH n Hin); [by left|right; by constructor].
  - apply elem_of_cons in Hin as [Ht|Hin]; [rewrite HP in E; done|]. destruct (IH (S n) Hin); [left; by constructor|by right].
Qed.

Lemma dict_get_set_ne k k' v kvs : k <> k' -> dict_get k (dict_set k' v kvs) = dict_get k kvs.
Proof.
  intros Hk. induction kvs as [|[k0 v0] kvs IH]; simpl.
  - by rewrite bool_decide_eq_false_2.
  - repeat case_bool_decide; subst; simpl; repeat case_bool_decide; congruence.
Qed.

Lemma restamp_identity new r : turn_identity (restamp new r) = turn_identity r.
Proof.
  destruct r as [| | | | | |kvs]; try done. unfold turn_identity, jget_none, jget, restamp.
  by rewrite !dict_get_set_ne by (vm_compute; discriminate).
Qed.

Lemma restamp_ids new l : ids (map (restamp new) l) = ids l.
Proof. unfold ids. rewrite map_map. apply map_ext. apply restamp_identity. Qed.

Lemma seed_keeps x mode turns seed not_carried : raw_identity x -> seed_of mode turns = (seed, not_carried) -> no_rows seed = false ->
  x ∈ ids turns -> x ∈ ids seed \/ x ∈ ids not_carried.
Proof.
  intros Hx Hs Hne Hin. apply ids_raw in Hin; [|done]. unfold seed_of in Hs. destruct (split_buffer turns) as [summary raw]. cbn [snd] in Hin.
  destruct mode.
  - destruct summary as [s|]; simplify_eq. left. unfold ids. cbn [map]. by constructor.
  - simplify_eq. rewrite <- (take_drop (length raw - ROLLOVER_TAIL) raw) in Hin. rewrite ids_app in Hin. rewrite ids_app.
    apply elem_of_app in Hin as [?|?]; [by right|left; set_solver].
Qed.

Lemma not_carried_take mode turns seed not_carried : seed_of mode turns = (seed, not_carried) ->
  not_carried = take (length not_carried) (split_buffer turns).2.
Proof.
  unfold seed_of. destruct (split_buffer turns) as [summary raw]. cbn [snd]. destruct mode; intros [= <- <-]; [done|].
  rewrite length_take. f_equal. lia.
Qed.

(** ** What the operations of a session keep *)
Lemma file_append_rows file rs cut :
  exists added, rows_of (file_append file rs cut) = rows_of file ++ added /\ (cut = None -> added = rs).
Proof.
  unfold file_append. destruct rs as [|v rs]; cbn [no_rows]; [exists []; split; [by rewrite app_nil_r|done]|].
  assert (rows_of file = f_rows (default empty_file file)) as -> by (by destruct file). cbn [no_rows].
  destruct cut as [[|k]|]; cbn [rows_of f_rows]; [exists []; split; [by rewrite app_nil_r|done]|by eexists..].
Qed.

Lemma rows_default file : f_rows (default empty_file file) = rows_of file.
Proof. by destruct file. Qed.

(** An archive write adds its records at the end of the archive, whatever segment it
    chooses; one that is cut short adds some of them. *)
Lemma append_archive_rows size_known rs cut (c c' : conv) : append_archive size_known rs cut c = Ok c' ->
  (exists added, read_archive c' = read_archive c ++ added /\ (cut = None -> added = rs)) /\
  read_session c' = read_session c /\ appending c' = appending c /\ marker c' = marker c.
Proof.
  unfold append_archive. intros Hc.
  destruct rs as [|v rs]; cbn [no_rows] in Hc; [injection Hc as <-; split; [exists []; split; [by rewrite app_nil_r|done]|done]|].
  destruct (encode_jsonl false (v :: rs)) as [data|]; [|done]. injection Hc as <-.
  set (t := archive_target c size_known _).
  assert (t = ToLegacy -> segments c = []) as Hleg.
  { unfold t, archive_target. cbv zeta. destruct (last (segments c)) as [[n f]|] eqn:El; [case_match; done|]. by apply last_None in El. }
  assert (t = ToLast -> is_Some (last (segments c))) as Hlast.
  { unfold t, archive_target. cbv zeta. destruct (last (segments c)) as [[n f]|]; [by eexists|]. destruct (legacy c); [by case_match|done]. }
  clearbody t. split; [|by destruct t; cbn; [|destruct (last (segments c)) as [[n f]|]|]].
  unfold read_archive. destruct t as [| |n]; cbn [append_to_target].
  - rewrite (Hleg eq_refl). cbn [set_archive segments legacy map concat]. destruct (file_append_rows (legacy c) (v :: rs) cut) as (added & -> & Ha).
    exists added. by rewrite !app_nil_r.
  - destruct (Hlast eq_refl) as [[n f] Hl]. rewrite Hl. cbn [set_archive segments legacy].
    destruct (file_append_rows (Some f) (v :: rs) cut) as (added & Hr & Ha). exists added. split; [|done].
    rewrite map_app, concat_app. cbn [map concat snd]. rewrite rows_default, Hr, app_nil_r.
    assert (segments c = removelast (segments c) ++ [(n, f)]) as Hs.
    { destruct (exists_last (l := segments c)) as (l & y & E); [by intros E; rewrite E in Hl|]. rewrite E in *.
      rewrite last_snoc in Hl. injection Hl as ->. by rewrite removelast_last. }
    rewrite Hs at 2. rewrite map_app, concat_app. cbn [map concat snd rows_of]. by rewrite app_nil_r, <- !(assoc_L (++)).
  - cbn [set_archive segments legacy]. destruct (file_append_rows None (v :: rs) cut) as (added & Hr & Ha). exists added. split; [|done].
    rewrite map_app, concat_app. cbn [map concat snd]. rewrite rows_default, Hr, app_nil_r. by rewrite (assoc_L (++)).
Qed.

Lemma conv_of_put (sid sid' : pystr) (c : conv) (h : home) : conv_of sid (put sid' c h) = if decide (sid' = sid) then c else conv_of sid h.
Proof. unfold conv_of, put. rewrite lookup_insert. by case_decide. Qed.

Lemma is_Some_put (sid sid' : pystr) (c : conv) (h : home) : is_Some (put sid' c h !! sid) <-> sid' = sid \/ is_Some (h !! sid).
Proof. unfold put. destruct (decide (sid' = sid)) as [->|]; [rewrite lookup_insert_eq; naive_solver|rewrite lookup_insert_ne by done; naive_solver]. Qed.

(** ** The threads on the sessions *)
Definition in_archive (x : identity) (h : home) : Prop := exists sid, x ∈ ids (read_archive (conv_of sid h)).
Definition in_buffer (x : identity) (sid : pystr) (h : home) : Prop := x ∈ ids (read_session (conv_of sid h)).
Definition all_archived (l : list json) (h : home) : Prop := forall x, x ∈ ids l -> in_archive x h.

(** What another thread's step or a process's death leaves alone. *)
Record undisturbed (i : nat) (h h' : home) : Prop := {
  un_there : forall sid, is_Some (h !! sid) -> is_Some (h' !! sid);
  un_locks : forall sid j, j <> i -> appending (conv_of sid h) = Some j -> appending (conv_of sid h') = Some j;
  un_archive : forall x, in_archive x h -> in_archive x h';
}.

Lemma undisturbed_refl i h : undisturbed i h h.
Proof. by split. Qed.

Lemma undisturbed_put i sid (c' : conv) h :
  (forall j, j <> i -> appending (conv_of sid h) = Some j -> appending c' = Some j) ->
  (exists added, read_archive c' = read_archive (conv_of sid h) ++ added) -> undisturbed i h (put sid c' h).
Proof.
  intros Ha [added Har]. split.
  - intros sid' Hs. apply is_Some_put. by right.
  - intros sid' j Hj Hs. rewrite conv_of_put. case_decide; [subst; auto|done].
  - intros x [sid' Hx]. exists sid'. rewrite conv_of_put. case_decide; [|done]. subst. rewrite Har, ids_app. apply elem_of_app. by left.
Qed.

Lemma undisturbed_archived i h h' l : undisturbed i h h' -> all_archived l h -> all_archived l h'.
Proof. intros [_ _ Hu] Hl x Hx. apply Hu. by apply Hl. Qed.

(** The session a thread works on once it has the compaction lock. *)
Fixpoint inside (p : place) : option pystr :=
  match p with
  | FreeAppend _ q | Unlock _ q => inside q
  | LkWrite w => Some (want_sid w)
  | PaRead p | PaCursor p _ | PaReread p _ | PaReplace p _ _ => Some (pa_sid p)
  | AcMarker a | AcAppend a _ | AcMark a _ => Some (ac_sid a)
  | RoGuard r | RoRead r | RoDrop r _ _ | RoCursor r _ | RoSeed r _ _ | RoCarry r _ | RoPoint r
  | RoDelete r | RoDelCursor r | RoDelBackoff r => Some (ro_sid r)
  | _ => None
  end.

(** The session whose append lock a thread holds. *)
Definition holding (p : place) : option pystr :=
  match p with
  | AcMarker a | AcAppend a _ | AcMark a _ => match ac_then a with ThenPass _ _ => None | ThenRoll _ _ _ => Some (ac_sid a) end
  | RoRead r | RoDrop r _ _ | RoCursor r _ | RoSeed r _ _ | RoCarry r _ | RoPoint r
  | RoDelete r | RoDelCursor r | RoDelBackoff r => Some (ro_sid r)
  | _ => None
  end.

(** What a thread still carries of a turn that is in the buffer it works on. *)
Definition carries (x : identity) (p : place) : Prop :=
  match p with
  | AcMarker a | AcAppend a _ | AcMark a _ =>
      match ac_then a with
      | ThenPass _ _ => True
      | ThenRoll _ seed kept => x ∈ ids (ac_records a) \/ x ∈ ids seed /\ x ∈ ids kept
      end
  | PaReplace _ _ rows => x ∈ ids rows
  | RoDrop _ seed kept => x ∈ ids seed /\ x ∈ ids kept
  | RoCursor _ seed | RoSeed _ seed _ => x ∈ ids seed
  | RoCarry _ _ | RoPoint _ | RoDelete _ => False
  | _ => True
  end.

Definition guards (x : identity) (sid : pystr) (p : place) : Prop := inside p = Some sid -> carries x p.

(** The turn is in the buffer of the session and no thread at work there drops it. *)
Definition guarded (x : identity) (sid : pystr) (h : home) (l : list place) : Prop :=
  in_buffer x sid h /\ forall p, p ∈ l -> guards x sid p.

Definition safe (x : identity) (h : home) (l : list place) : Prop := in_archive x h \/ exists sid, guarded x sid h l.

(** What a thread relies on. *)
Definition batch_ok (a : archiving) : Prop :=
  match ac_then a with
  | ThenPass p pl => ac_sid a = pa_sid p /\ forall x, x ∈ ids (pl_removable pl) -> x ∈ ids (ac_records a)
  | ThenRoll r _ _ => ac_sid a = ro_sid r
  end.

Definition batch_of (a : archiving) : Z * list json := (ac_gen a, ac_records a).

Definition work_ok (h : home) (pres : list (Z * list json)) (p : place) : Prop :=
  match p with
  | AcMarker a => batch_ok a
  | AcAppend a key => batch_ok a /\ archive_batch_key (ac_records a) (ac_gen a) = Ok key /\ batch_of a ∈ pres
  | AcMark a key => batch_ok a /\ archive_batch_key (ac_records a) (ac_gen a) = Ok key /\ batch_of a ∈ pres /\ all_archived (ac_records a) h
  | PaReread _ pl => all_archived (pl_removable pl) h
  | FreeAppend _ q | Unlock _ q => inside q = None
  | _ => True
  end.

Record thread_ok (h : home) (pres : list (Z * list json)) (i : nat) (p : place) : Prop := {
  tk_work : work_ok h pres p;
  tk_inside : forall sid, inside p = Some sid -> is_Some (h !! sid);
  tk_holding : forall sid, holding p = Some sid -> appending (conv_of sid h) = Some i;
}.

(** A marker names a batch whose records are all archived. *)
Definition markers_ok (h : home) (pres : list (Z * list json)) : Prop :=
  forall sid key, marker (conv_of sid h) = Some key ->
  exists b, b ∈ pres /\ archive_batch_key b.2 b.1 = Ok key /\ all_archived b.2 h.

(** Batches with the same key are batches of the same turns. *)
Definition no_collision (pres : list (Z * list json)) : Prop :=
  forall b b' key, b ∈ pres -> b' ∈ pres -> archive_batch_key b.2 b.1 = Ok key -> archive_batch_key b'.2 b'.1 = Ok key -> ids b.2 = ids b'.2.

Lemma thread_undisturbed i j h h' pres pres' p : undisturbed i h h' -> (forall b, b ∈ pres -> b ∈ pres') -> j <> i ->
  thread_ok h pres j p -> thread_ok h' pres' j p.
Proof.
  intros Hu Hp Hj [Hw Hi Hh]. pose proof Hu as [Ht Hl Ha]. split; [|auto..].
  destruct p; cbn [work_ok] in *; try done; try (naive_solver (eauto using undisturbed_archived)).
Qed.

Lemma key_stripped records g key : archive_batch_key records g = Ok key -> strip key = key.
Proof.
  unfold archive_batch_key. destruct (encode _) as [b|]; [|done]. intros [= <-].
  apply strip_by_id. unfold to_hex. apply Forall_concat, Forall_map. eapply Forall_impl; [apply sha256_bytes|].
  intros y Hy. unfold byte_ok in Hy. assert (forall n, (n < 16)%N -> is_space (hex_digit n) = false) as Hd.
  { intros n Hn. unfold is_space. rewrite hex_digit_not_space by done. unfold hex_digit.
    destruct (N.ltb_spec n 10); (rewrite (proj2 (N.ltb_lt _ 128)) by lia); cbn [orb]; apply andb_false_iff;
      rewrite !N.leb_gt; lia. }
  repeat constructor; apply Hd; [apply N.Div0.div_lt_upper_bound; lia|by apply N.mod_lt].
Qed.



Variable local_wall : Z -> res Z.
Variables summary_prompt fold_prompt condense_prompt : pystr -> pystr -> pystr -> Z -> Z -> pystr.
Variable persona_name : pystr.
Abbreviation step := (step local_wall summary_prompt fold_prompt condense_prompt persona_name).

(** The buffer a step replaces. *)
Definition writes (p : place) : option (pystr * list json) :=
  match p with
  | PaReplace p _ rows => Some (pa_sid p, rows)
  | RoDrop r _ kept => Some (ro_sid r, kept)
  | RoSeed r seed _ => Some (ro_new r, map (restamp (ro_new r)) seed)
  | RoDelete r => Some (ro_sid r, [])
  | _ => None
  end.

(** The change a step makes to the files of one session. *)
Record edit (i : nat) (p : place) (sid : pystr) (c c' : conv) : Prop := {
  ed_archive : exists added, read_archive c' = read_archive c ++ added;
  ed_locks : appending c' = appending c \/ (exists r, p = RoGuard r) /\ appending c = None /\ appending c' = Some i
             \/ (exists sid q, p = FreeAppend sid q) /\ appending c = Some i /\ appending c' = None;
  ed_marker : marker c' = marker c \/ exists a key, p = AcMark a key /\ marker c' = Some key;
  ed_buffer : read_session c' = read_session c \/ writes p = Some (sid, read_session c');
}.

Lemma rewrite_at_put sid rows h h' : rewrite_at sid rows h = Ok h' ->
  h' = put sid (set_buffer (Some (file_of rows)) (conv_of sid h)) h.
Proof. unfold rewrite_at, rewrite_session_atomic. by destruct (encode_jsonl false rows); intros [= <-]. Qed.

(** A field of the session's files that no reader of the turns looks at. *)
Lemma edit_aside i p sid c c' : read_archive c' = read_archive c -> appending c' = appending c -> marker c' = marker c ->
  read_session c' = read_session c -> edit i p sid c c'.
Proof. intros Ha Hl Hm Hb. split; [exists []; by rewrite app_nil_r|by left..]. Qed.

Lemma edit_buffer i p sid rows c f : writes p = Some (sid, rows) -> rows_of f = rows -> edit i p sid c (set_buffer f c).
Proof. intros Hw Hf. split; [exists []; by rewrite app_nil_r|by left|by left|right]. by rewrite Hw, <- Hf. Qed.

Lemma edit_append i p sid size_known rs cut c c' : append_archive size_known rs cut c = Ok c' -> edit i p sid c c'.
Proof.
  intros ((added & Ha & _) & Hb & Hl & Hm)%append_archive_rows. split; [by exists added|by left..].
Qed.

Lemma write_cursor_put ts (c c' : conv) : write_cursor ts c = Ok c' -> c' = set_cursor (Some ts) c.
Proof. unfold write_cursor. by destruct (fromisoformat _); intros [= <-]. Qed.

Lemma write_rolled_to_put s at_ (c c' : conv) : write_rolled_to s at_ c = Ok c' -> exists v, c' = set_rolled_to v c.
Proof. unfold write_rolled_to. destruct (valid_session_id _); intros [= <-]. by eexists. Qed.

Lemma step_edit i p r h p' h' : step i p r h = Some (p', h') ->
  h' = h \/ exists sid c', h' = put sid c' h /\ edit i p sid (conv_of sid h) c'.
Proof.
  intros Hs. step_cases Hs; try (by left); right.
  all: try (eexists _, _; split; [reflexivity|by apply edit_aside]).
  all: try (match goal with H : rewrite_at _ _ _ = Ok _ |- _ => apply rewrite_at_put in H as -> end;
            eexists _, _; split; [reflexivity|by eapply edit_buffer]).
  all: eexists _, _; (split; [reflexivity|]).
  - by eapply edit_append.
  - by eapply edit_append.
  - split; [exists []; by rewrite app_nil_r|by left|right; by eexists _, _|by left].
  - split; [exists []; by rewrite app_nil_r|right; left; split; [by eexists|done]|by left..].
  - match goal with H : write_cursor _ _ = Ok _ |- _ => apply write_cursor_put in H as -> end. by apply edit_aside.
  - match goal with H : write_rolled_to _ _ _ = Ok _ |- _ => apply write_rolled_to_put in H as [v ->] end. by apply edit_aside.
  - by eapply edit_buffer.
  - split; [exists []; by rewrite app_nil_r|right; right; split; [by eexists _, _|]|by left..].
    match goal with H : bool_decide _ = true |- _ => by apply bool_decide_eq_true in H end.
Qed.

Lemma step_undisturbed i p r h p' h' : step i p r h = Some (p', h') -> undisturbed i h h'.
Proof.
  intros [->|(sid & c' & -> & [Ha Hl _ _])]%step_edit; [apply undisturbed_refl|].
  apply undisturbed_put; [|done]. intros j Hj Hc. destruct Hl as [->|[(_ & Hn & _)|(_ & Hn & _)]]; congruence.
Qed.

(** The steps of a thread keep what it relies on. *)
Lemma archived_ok h pres a : batch_ok a -> all_archived (ac_records a) h -> work_ok h pres (archived a).
Proof. unfold batch_ok, archived. destruct (ac_then a); [|done]. intros [_ Hsub] Ha x Hx. apply Ha. by apply Hsub. Qed.

Lemma marker_archives h pres a sid key : markers_ok h pres -> no_collision (batch_of a :: pres) ->
  archive_batch_key (ac_records a) (ac_gen a) = Ok key -> read_archive_marker (conv_of sid h) = Some key ->
  all_archived (ac_records a) h.
Proof.
  intros Hm Hc Hk Hr. unfold read_archive_marker in Hr. destruct (marker (conv_of sid h)) as [text|] eqn:Ht; [|done].
  cbn [mbind option_bind] in Hr. case_bool_decide; [done|]. injection Hr as Hr.
  destruct (Hm sid text Ht) as (b & Hb & Hkb & Hall). pose proof (key_stripped _ _ _ Hkb) as Hs. rewrite Hs in Hr. subst text.
  unfold all_archived. change (ac_records a) with (batch_of a).2. rewrite (Hc (batch_of a) b key); [done|by left|by right|done|done].
Qed.

Lemma planned_removable j model name sid now_ turns c s p : read_cursor c = Some s ->
  job_plan local_wall summary_prompt fold_prompt condense_prompt j model name sid now_ turns (Some s) = Ok (inr p) ->
  forall x, x ∈ ids (pl_removable p) -> x ∈ ids (pl_records p).
Proof.
  intros (at_ & Ha)%read_cursor_parses Hp x Hx.
  destruct (job_sound _ _ _ _ _ _ _ _ _ _ _ _ _ Ha Hp) as [_ _ (old & -> & _) _]. rewrite ids_app. apply elem_of_app. by left.
Qed.

Lemma idle_work h pres q : inside q = None -> work_ok h pres q.
Proof. by destruct q. Qed.

Lemma idle_ok h pres i q : inside q = None -> thread_ok h pres i q.
Proof.
  intros Hq. split; [by apply idle_work|by rewrite Hq|].
  intros sid Hh. destruct q; try discriminate Hq; discriminate Hh.
Qed.

Lemma idle_guards x sid q : inside q = None -> guards x sid q.
Proof. unfold guards. by intros ->. Qed.

Lemma after_pass_idle p o : inside (after_pass p o) = None.
Proof. unfold after_pass. by destruct (pa_after p). Qed.
Lemma lock_busy_idle w : inside (lock_busy w) = None.
Proof. destruct w; [apply after_pass_idle|done]. Qed.
Lemma archive_failed_idle a e : inside (archive_failed a e) = None.
Proof. unfold archive_failed. destruct (ac_then a); [apply after_pass_idle|done]. Qed.
Lemma lock_taken_inside w : inside (lock_taken w) = Some (want_sid w).
Proof. by destruct w. Qed.
Lemma archived_inside a : batch_ok a -> inside (archived a) = Some (ac_sid a).
Proof. unfold batch_ok, archived. destruct (ac_then a); cbn; [intros [-> _]|intros ->]; done. Qed.

Definition presented_after (p : place) (pres : list (Z * list json)) : list (Z * list json) :=
  match p with AcMarker a => batch_of a :: pres | _ => pres end.

Lemma step_work i p r h p' h' pres : step i p r h = Some (p', h') -> markers_ok h pres -> no_collision (presented_after p pres) ->
  work_ok h pres p -> work_ok h' (presented_after p pres) p'.
Proof.
  intros Hs Hm Hc Hw. pose proof (step_undisturbed _ _ _ _ _ _ Hs) as Hu. step_cases Hs.
  all: try solve [done|apply after_pass_idle|apply lock_busy_idle|apply idle_work; auto using after_pass_idle, lock_busy_idle, archive_failed_idle].
  all: try (by destruct w).
  - intros x Hx. match goal with H : job_plan _ _ _ _ _ _ _ _ _ _ _ = Ok _ |- _ => revert H end.
    destruct (read_cursor _) as [s|] eqn:Hcur; intros Hp; [|by apply job_needs_cursor in Hp].
    eapply planned_removable in Hx; [|done..]. destruct (pl_records p0); [by apply not_elem_of_nil in Hx|done].
  - split; [done|]. cbn [ac_records ac_then]. intros x Hx. match goal with H : job_plan _ _ _ _ _ _ _ _ _ _ _ = Ok _ |- _ => revert H end.
    destruct (read_cursor _) as [s|] eqn:Hcur; intros Hp; [|by apply job_needs_cursor in Hp].
    by eapply planned_removable in Hx.
  - apply archived_ok; [done|]. match goal with H : bool_decide _ = true |- _ => apply bool_decide_eq_true in H end.
    destruct (fault r); [done|]. by eapply marker_archives.
  - split_and!; try done. by left.
  - split_and!; try done. by left.
  - destruct Hw as (Hb & Hk & Hin). split_and!; try done. intros x Hx.
    match goal with H : append_archive _ _ _ _ = Ok _ |- _ => apply append_archive_rows in H as ((added & Ha & Hadd) & _) end.
    exists (ac_sid a). rewrite conv_of_put, decide_True by done. rewrite Ha, Hadd, ids_app by done. apply elem_of_app. by right.
  - destruct Hw as (Hb & Hk & Hin & Hall). apply archived_ok; [done|]. by eapply undisturbed_archived.
Qed.

(** Where a thread is, or gets to by a step, there are files. *)
Lemma step_inside i p r h p' h' pres : step i p r h = Some (p', h') -> work_ok h pres p ->
  forall sid, inside p' = Some sid -> inside p = Some sid \/ is_Some (h' !! sid).
Proof.
  intros Hs Hw sid Hin. step_cases Hs; try (by left); try (right; by apply is_Some_put; left).
  all: try solve [exfalso; revert Hin; rewrite ?after_pass_idle, ?lock_busy_idle, ?archive_failed_idle; done].
  all: try (rewrite lock_taken_inside in Hin; by left).
  all: rewrite archived_inside in Hin by (by destruct Hw || done); by left.
Qed.

Lemma idle_holding q : inside q = None -> holding q = None.
Proof. by destruct q. Qed.
Lemma lock_taken_holding w : holding (lock_taken w) = None.
Proof. by destruct w. Qed.
Lemma archived_holding a : batch_ok a -> holding (archived a) = holding (AcMarker a).
Proof. unfold batch_ok, archived. cbn [holding]. destruct (ac_then a); cbn; [done|by intros ->]. Qed.

Lemma step_takes i p r h p' h' pres : step i p r h = Some (p', h') -> work_ok h pres p ->
  forall sid, holding p' = Some sid -> holding p = Some sid \/ exists r0, p = RoGuard r0 /\ sid = ro_sid r0.
Proof.
  intros Hs Hw sid Hin. step_cases Hs; try (by left).
  all: try solve [exfalso; revert Hin; rewrite ?lock_taken_holding, ?idle_holding by auto using after_pass_idle, lock_busy_idle, archive_failed_idle; done].
  all: try (right; by eexists).
  all: rewrite archived_holding in Hin by (by destruct Hw || done); by left.
Qed.

Lemma step_holding i p r h p' h' pres : step i p r h = Some (p', h') -> thread_ok h pres i p ->
  (match p with RoGuard _ => fault r = false | _ => True end) ->
  forall sid, holding p' = Some sid -> appending (conv_of sid h') = Some i.
Proof.
  intros Hs [Hw _ Hh] Hg sid Hin. destruct (step_takes _ _ _ _ _ _ _ Hs Hw sid Hin) as [Hp|(r0 & -> & ->)].
  - specialize (Hh sid Hp). apply step_edit in Hs as [->|(sid' & c' & -> & [_ Hl _ _])]; [done|]. rewrite conv_of_put. case_decide; [subst|done].
    destruct Hl as [->|[([? ->] & _)|([? [? ->]] & _)]]; done.
  - unfold Rollover.step, roll_step in Hs. rewrite Hg in Hs. case_match; [done|]. injection Hs as <- <-.
    by rewrite conv_of_put, decide_True.
Qed.

Lemma step_markers i p r h p' h' pres : step i p r h = Some (p', h') -> work_ok h pres p -> markers_ok h pres ->
  markers_ok h' (presented_after p pres).
Proof.
  intros Hs Hw Hm sid key Hk. pose proof (step_undisturbed _ _ _ _ _ _ Hs) as Hu.
  assert (forall b, b ∈ pres -> b ∈ presented_after p pres) as Hp by (intros b Hb; destruct p; try done; by right).
  assert (marker (conv_of sid h) = Some key \/ exists a, p = AcMark a key) as [Hold|[a ->]].
  - apply step_edit in Hs as [->|(sid' & c' & -> & [_ _ Hmk _])]; [by left|]. rewrite conv_of_put in Hk. case_decide; [subst|by left].
    destruct Hmk as [<-|(a & k & -> & Hk')]; [by left|right]. exists a. congruence.
  - destruct (Hm sid key Hold) as (b & Hb & Hkb & Hall). exists b. split_and!; eauto using undisturbed_archived.
  - destruct Hw as (_ & Hka & Hin & Hall). exists (batch_of a). split_and!; eauto using undisturbed_archived.
Qed.

(** ** A turn stays where it is, is archived, or moves to a fresh session *)
Lemma step_buffer x sid i p r h p' h' : step i p r h = Some (p', h') -> in_buffer x sid h -> guards x sid p ->
  (forall s, inside p = Some s -> is_Some (h !! s)) -> in_buffer x sid h'.
Proof.
  intros Hs Hx Hg Hin. unfold in_buffer in *. pose proof Hs as He. apply step_edit in He as [->|(sid' & c' & -> & [_ _ _ Hb])]; [done|].
  rewrite conv_of_put. case_decide; [subst sid'|done]. destruct Hb as [->|Hw]; [done|]. unfold guards in Hg.
  destruct p; try discriminate Hw; injection Hw as Hsid Hrows; rewrite <- Hrows; cbn [inside carries] in *.
  - apply Hg. by f_equal.
  - apply Hg. by f_equal.
  - unfold Rollover.step, roll_step in Hs. rewrite Hsid in Hs. unfold conv_of in Hx. destruct (h !! sid); [done|]. by apply not_elem_of_nil in Hx.
  - exfalso. apply Hg. by f_equal.
Qed.

Lemma archived_guards a h x sid : batch_ok a -> all_archived (ac_records a) h -> guards x sid (AcMarker a) ->
  in_archive x h \/ guards x sid (archived a).
Proof.
  intros Hb Ha Hg. unfold guards in *. rewrite archived_inside by done. cbn [inside carries] in Hg.
  unfold archived, batch_ok in *. destruct (ac_then a) as [p pl|r seed kept]; cbn [carries]; [by right|].
  destruct (decide (ac_sid a = sid)) as [<-|Hne]; [|right; congruence].
  destruct (Hg eq_refl) as [Hx|Hx]; [left; by apply Ha|by right].
Qed.

Lemma seed_guards x r h seed dropped : raw_identity x -> in_buffer x (ro_sid r) h ->
  let turns := read_session (conv_of (ro_sid r) h) in
  seed_of (ro_mode r) turns = (seed, dropped) -> no_rows seed = false ->
  x ∈ ids dropped \/ x ∈ ids seed /\ x ∈ ids (without_first (length dropped) (fun t => negb (is_summary t)) turns).
Proof.
  cbv zeta. intros Hraw Hx Hs Hne. destruct (seed_keeps x _ _ _ _ Hraw Hs Hne Hx) as [Hseed|Hd]; [|by left].
  destruct (without_first_keeps x (length dropped) (fun t => negb (is_summary t)) (read_session (conv_of (ro_sid r) h))) as [Hk|Ht]; [|done|by right|left].
  - intros t Ht. by rewrite (raw_not_summary x t Hraw Ht).
  - rewrite (not_carried_take _ _ _ _ Hs). exact Ht.
Qed.

Lemma step_guards x sid i p r h p' h' pres : step i p r h = Some (p', h') -> raw_identity x -> work_ok h pres p ->
  markers_ok h pres -> no_collision (presented_after p pres) -> in_buffer x sid h -> guards x sid p ->
  in_archive x h' \/ guards x sid p' \/ exists r0 seed cur, p = RoSeed r0 seed cur /\ p' = RoCarry r0 cur.
Proof.
  intros Hs Hraw Hw Hm Hc Hx Hg. pose proof (step_undisturbed _ _ _ _ _ _ Hs) as Hu. unfold guards in Hg. step_cases Hs.
  all: try solve [right; left; unfold guards; cbn [inside carries]; rewrite ?after_pass_idle, ?lock_busy_idle, ?archive_failed_idle; done].
  all: try (right; left; by destruct w).
  all: try (right; left; by apply idle_guards).
  all: try (right; right; by eexists _, _, _).
  - destruct (archived_guards a h' x sid) as [?|?]; [done| |done|by left|by right; left].
    match goal with H : bool_decide _ = true |- _ => apply bool_decide_eq_true in H end.
    destruct (fault r); [done|]. by eapply marker_archives.
  - destruct Hw as (Hb & _ & _ & Ha). eapply undisturbed_archived in Ha; [|done].
    destruct (archived_guards a _ x sid Hb Ha) as [?|?]; [done|by left|by right; left].
  - destruct (decide (pa_sid p = sid)) as [<-|Hne]; [|right; left; unfold guards; cbn [inside ac_sid]; congruence].
    destruct (installed_keeps x pl _ Hraw Hx) as [?|?]; [right; left; by intros _|left; by apply Hw].
  - destruct (decide (ro_sid r0 = sid)) as [<-|Hne]; [|right; left; unfold guards; cbn [inside ac_sid]; congruence].
    right; left. intros _. cbn [carries]. match goal with H : seed_of _ _ = (_, _) |- _ => rename H into Hso end.
    destruct (seed_guards x r0 h' _ _ Hraw Hx Hso) as [Hn|[? _]]; [done| |done]. destruct l0; [by apply not_elem_of_nil in Hn|done].
  - destruct (decide (ro_sid r0 = sid)) as [<-|Hne]; [|right; left; unfold guards; cbn [inside ac_sid]; congruence].
    right; left. intros _. cbn [carries]. by apply seed_guards.
  - right; left. unfold guards. cbn [inside carries]. naive_solver.
Qed.

(** A rollover that seeds its successor moves the turn there. *)
Lemma turn_moves x i r h pres r0 seed cur h' (l : list place) :
  step i (RoSeed r0 seed cur) r h = Some (RoCarry r0 cur, h') -> x ∈ ids seed ->
  thread_ok h pres i (RoSeed r0 seed cur) -> (forall q, q ∈ l -> forall sid, inside q = Some sid -> is_Some (h !! sid)) ->
  in_buffer x (ro_new r0) h' /\ guards x (ro_new r0) (RoCarry r0 cur) /\ forall q, q ∈ l -> guards x (ro_new r0) q.
Proof.
  intros Hs Hx [_ Hin _] Hl. unfold Rollover.step, roll_step in Hs.
  destruct (h !! ro_new r0) as [|] eqn:Hnew; [done|].
  assert (forall q, (forall sid, inside q = Some sid -> is_Some (h !! sid)) -> guards x (ro_new r0) q) as Hg.
  { intros q Hq Hiq. destruct (Hq _ Hiq) as [c Hc]. congruence. }
  split; [|split; [by apply Hg|intros q Hq; apply Hg; by apply Hl]].
  destruct (fault r); [discriminate Hs|]. destruct (rewrite_at _ _ _) as [h1|] eqn:Hr; [|discriminate Hs].
  injection Hs as <-. apply rewrite_at_put in Hr as ->. unfold in_buffer. rewrite conv_of_put, decide_True by done.
  change (x ∈ ids (map (restamp (ro_new r0)) seed)). by rewrite restamp_ids.
Qed.

Lemma elem_of_updated {A} (q p : A) (i : nat) (l : list A) : q ∈ <[i:=p]> l -> q = p \/ q ∈ l.
Proof.
  intros (j & Hj)%list_elem_of_lookup. apply list_lookup_insert_Some in Hj as [(_ & -> & _)|(_ & Hj)]; [by left|right].
  by eapply list_elem_of_lookup_2.
Qed.

Lemma safe_turn x i p r h p' h' pres l : step i p r h = Some (p', h') -> raw_identity x -> l !! i = Some p ->
  (forall j q, l !! j = Some q -> thread_ok h pres j q) -> markers_ok h pres -> no_collision (presented_after p pres) ->
  safe x h l -> safe x h' (<[i := p']> l).
Proof.
  intros Hs Hraw Hi Hl Hm Hc [Ha|(sid & Hx & Hg)].
  { left. by apply (step_undisturbed _ _ _ _ _ _ Hs). }
  pose proof (Hl i p Hi) as Hp. pose proof Hp as [Hw Hin _]. pose proof (Hg p (list_elem_of_lookup_2 _ _ _ Hi)) as Hgp.
  destruct (step_guards x sid i p r h p' h' pres Hs Hraw Hw Hm Hc Hx Hgp) as [Ha|[Hg'|(r0 & seed & cur & -> & ->)]]; [by left| |].
  - right. exists sid. split; [by eapply step_buffer|]. intros q [->|Hq]%elem_of_updated; [done|by apply Hg].
  - right. destruct (decide (ro_sid r0 = sid)) as [Hsid|Hne].
    + destruct (turn_moves x i r h pres r0 seed cur h' l Hs) as (Hx' & Hg' & Hq').
      * apply Hgp. cbn [inside]. by f_equal.
      * done.
      * intros q (j & Hj)%list_elem_of_lookup s0 Hs0. by apply (tk_inside _ _ _ _ (Hl j q Hj)).
      * exists (ro_new r0). split; [done|]. intros q [->|Hq]%elem_of_updated; [done|by apply Hq'].
    + exists sid. split; [by eapply step_buffer|]. intros q [->|Hq]%elem_of_updated; [|by apply Hg].
      unfold guards. cbn [inside]. congruence.
Qed.

(** ** The system *)
Abbreviation sys_step := (sys_step local_wall summary_prompt fold_prompt condense_prompt persona_name).
Abbreviation sys_run := (sys_run local_wall summary_prompt fold_prompt condense_prompt persona_name).

Definition replacing (sid : pystr) (p : place) : bool :=
  match p with PaReplace p _ _ => bool_decide (pa_sid p = sid) | _ => false end.

(** No turn is appended between the last read of a pass and its write of the
    buffer, and the append lock of a rollover is granted (POSIX, no fault). *)
Definition calm_move (m : move) (s : system) : bool :=
  match m with
  | Say turn fresh_id now_iso _ =>
      match ingest_record turn fresh_id now_iso with Ok (sid, _) => negb (existsb (replacing sid) (threads s)) | Err _ => true end
  | Turn i r => match threads s !! i with Some (RoGuard _) => negb (fault r) | _ => true end
  | _ => true
  end.

Fixpoint calm (ms : list move) (s : system) : bool :=
  match ms with
  | [] => true
  | m :: ms => calm_move m s && match sys_step m s with Some s' => calm ms s' | None => true end
  end.

Record system_ok (s : system) : Prop := {
  so_threads : forall i p, threads s !! i = Some p -> thread_ok (convs s) (presented s) i p;
  so_markers : markers_ok (convs s) (presented s);
  so_said : forall x, x ∈ said s -> raw_identity x -> safe x (convs s) (threads s);
}.

Lemma nobody_ok : system_ok nobody.
Proof.
  split; cbn; [done| |intros x Hx; by apply not_elem_of_nil in Hx].
  intros sid key. unfold conv_of. by rewrite lookup_empty.
Qed.

Lemma start_ok p s : entry p = true -> system_ok s ->
  system_ok {| convs := convs s; threads := threads s ++ [p]; said := said s; presented := presented s |}.
Proof.
  intros He [Ht Hm Hs]. assert (inside p = None) as Hp by (destruct p as [| |[]| | | | | | | | | | | | | | | | | | | | | | | | | |]; done). split; cbn.
  - intros i q Hq. apply lookup_app_Some in Hq as [Hq|[_ Hq]]; [by apply Ht|].
    destruct (i - length (threads s))%nat; [|done]. injection Hq as <-. by apply idle_ok.
  - done.
  - intros x Hx Hr. destruct (Hs x Hx Hr) as [Ha|(sid & Hb & Hg)]; [by left|right; exists sid]. split; [done|].
    intros q [Hq|Hq%list_elem_of_singleton]%elem_of_app; [by apply Hg|subst; by apply idle_guards].
Qed.

(** A change of the files that no thread made keeps the invariant when it keeps the
    buffers, and the archives and locks the threads rely on. *)
Lemma files_ok h' l s : system_ok s -> (forall sid, is_Some (convs s !! sid) -> is_Some (h' !! sid)) ->
  (forall sid, read_archive (conv_of sid h') = read_archive (conv_of sid (convs s)) /\ marker (conv_of sid h') = marker (conv_of sid (convs s)) /\
     forall x, x ∈ ids (read_session (conv_of sid (convs s))) -> x ∈ ids (read_session (conv_of sid h'))) ->
  (forall i p, l !! i = Some p -> inside p = None \/ threads s !! i = Some p /\
     forall sid, appending (conv_of sid (convs s)) = Some i -> appending (conv_of sid h') = Some i) ->
  system_ok {| convs := h'; threads := l; said := said s; presented := presented s |}.
Proof.
  intros [Ht Hm Hs] Hthere Hsame Hl.
  assert (forall x, in_archive x (convs s) -> in_archive x h') as Har.
  { intros x [sid Hx]. exists sid. by destruct (Hsame sid) as [-> _]. }
  assert (forall rows, all_archived rows (convs s) -> all_archived rows h') as Hall by (intros rows Hr x Hx; apply Har, Hr, Hx).
  split; cbn.
  - intros i p Hi. destruct (Hl i p Hi) as [Hidle|[Hold Hlock]]; [by apply idle_ok|]. destruct (Ht i p Hold) as [Hw Hin Hh].
    split; [|auto..]. destruct p; cbn [work_ok] in *; naive_solver.
  - intros sid key Hk. destruct (Hsame sid) as (_ & Hmk & _). rewrite Hmk in Hk. destruct (Hm sid key Hk) as (b & ? & ? & ?). exists b. auto.
  - intros x Hx Hr. destruct (Hs x Hx Hr) as [Ha|(sid & Hb & Hg)]; [by left; apply Har|right; exists sid].
    split; [by apply Hsame|]. intros q (j & Hj)%list_elem_of_lookup. destruct (Hl j q Hj) as [Hidle|[Hold _]]; [by apply idle_guards|].
    apply Hg. by eapply list_elem_of_lookup_2.
Qed.

Lemma put_same sid' c' h sid : read_archive c' = read_archive (conv_of sid' h) -> marker c' = marker (conv_of sid' h) ->
  (forall x, x ∈ ids (read_session (conv_of sid' h)) -> x ∈ ids (read_session c')) ->
  read_archive (conv_of sid (put sid' c' h)) = read_archive (conv_of sid h) /\ marker (conv_of sid (put sid' c' h)) = marker (conv_of sid h) /\
    forall x, x ∈ ids (read_session (conv_of sid h)) -> x ∈ ids (read_session (conv_of sid (put sid' c' h))).
Proof. intros Ha Hm Hb. rewrite conv_of_put. case_decide; [by subst|done]. Qed.

Lemma cursor_ok sid ts s c : write_cursor ts (conv_of sid (convs s)) = Ok c -> system_ok s ->
  system_ok {| convs := put sid c (convs s); threads := threads s; said := said s; presented := presented s |}.
Proof.
  intros ->%write_cursor_put Hs. apply files_ok; [done|..].
  - intros s' Hs'. apply is_Some_put. by right.
  - intros s'. by apply put_same.
  - intros i p Hp. right. split; [done|]. intros s' Ha. rewrite conv_of_put. by case_decide; [subst|].
Qed.

Lemma conv_of_release sid i h : conv_of sid (release_of i h) =
  let c := conv_of sid h in if bool_decide (appending c = Some i) then set_appending None c else c.
Proof. unfold conv_of, release_of. rewrite lookup_fmap. by destruct (h !! sid). Qed.

Lemma kill_ok i s : system_ok s ->
  system_ok {| convs := release_of i (convs s); threads := <[i := Dead]> (threads s); said := said s; presented := presented s |}.
Proof.
  intros Hs. apply files_ok; [done|..].
  - intros sid. unfold release_of. rewrite lookup_fmap. intros [c ->]. by eexists.
  - intros sid. rewrite conv_of_release. cbv zeta. by case_bool_decide.
  - intros j p Hj. apply list_lookup_insert_Some in Hj as [(_ & <- & _)|(Hne & Hj)]; [by left|right; split; [done|]].
    intros sid Ha. rewrite conv_of_release. cbv zeta. rewrite bool_decide_eq_false_2; [done|congruence].
Qed.

Lemma turn_ok i r s s' : sys_step (Turn i r) s = Some s' -> calm_move (Turn i r) s = true -> no_collision (presented s') ->
  system_ok s -> system_ok s'.
Proof.
  intros Hs Hcalm Hc [Ht Hm Hsaid]. unfold Rollover.sys_step in Hs. destruct (threads s !! i) as [p|] eqn:Hi; [|done]. cbn [mbind option_bind] in Hs.
  destruct (step i p r (convs s)) as [[p' h']|] eqn:Hst; [|done]. cbn [mbind option_bind] in Hs. injection Hs as <-.
  assert (match p with AcMarker a => (ac_gen a, ac_records a) :: presented s | _ => presented s end = presented_after p (presented s)) as Hpres by (by destruct p).
  cbn [presented] in Hc. rewrite Hpres in *. pose proof (step_undisturbed _ _ _ _ _ _ Hst) as Hu. pose proof (Ht i p Hi) as Hp. pose proof Hp as [Hw Hin Hh].
  assert (forall b, b ∈ presented s -> b ∈ presented_after p (presented s)) as Hsub by (intros b Hb; destruct p; try done; by right).
  split; cbn.
  - intros j q Hj. apply list_lookup_insert_Some in Hj as [(<- & <- & _)|(Hne & Hj)]; [|by eapply thread_undisturbed; eauto].
    split; [by eapply step_work| |].
    + intros sid Hsid. destruct (step_inside _ _ _ _ _ _ _ Hst Hw sid Hsid) as [?|?]; [|done]. apply Hu. by apply Hin.
    + eapply step_holding; [done..|]. cbn [calm_move] in Hcalm. rewrite Hi in Hcalm. destruct p; try done. by apply negb_true_iff in Hcalm.
  - by eapply step_markers.
  - intros x Hx Hr. eapply safe_turn; eauto.
Qed.

Lemma say_inv turn fresh_id now_iso cut_ h h' new : say turn fresh_id now_iso cut_ h = Some (h', new) ->
  exists sid rec, ingest_record turn fresh_id now_iso = Ok (sid, rec) /\ appending (conv_of sid h) = None /\
    h' = put sid (set_buffer (file_append (buffer (conv_of sid h)) [rec] cut_) (conv_of sid h)) h /\
    forall x, x ∈ new -> in_buffer x sid h'.
Proof.
  unfold say. destruct (ingest_record turn fresh_id now_iso) as [[sid rec]|]; [|done].
  destruct (appending (conv_of sid h)) eqn:Ha; [done|]. destruct (encode_jsonl false [rec]); [|done]. intros [= <- <-].
  exists sid, rec. split_and!; try done. intros x Hx. unfold in_buffer. rewrite conv_of_put, decide_True by done.
  unfold ids. revert Hx. rewrite !list_elem_of_In, !in_map_iff. intros (t & Ht & Hin). exists t. split; [done|].
  rewrite <- (take_drop (length (read_session (conv_of sid h)))). apply in_or_app. by right.
Qed.

Lemma say_ok turn fresh_id now_iso cut_ s s' : sys_step (Say turn fresh_id now_iso cut_) s = Some s' ->
  calm_move (Say turn fresh_id now_iso cut_) s = true -> system_ok s -> system_ok s'.
Proof.
  intros Hs Hcalm Hok. unfold Rollover.sys_step in Hs. destruct (say _ _ _ _ _) as [[h new]|] eqn:Hsay; [|done].
  cbn [mbind option_bind] in Hs. injection Hs as <-. apply say_inv in Hsay as (sid & rec & Hrec & Ha & Hh & Hnew).
  assert (system_ok {| convs := h; threads := threads s; said := said s; presented := presented s |}) as [Ht Hm Hsaid].
  { rewrite Hh. apply files_ok; [done|..].
    - intros s' Hs'. apply is_Some_put. by right.
    - intros s'. apply put_same; [done..|]. intros x Hx. unfold read_session. cbn [set_buffer buffer].
      destruct (file_append_rows (buffer (conv_of sid (convs s))) [rec] cut_) as (added & -> & _). rewrite ids_app. apply elem_of_app. by left.
    - intros i p Hp. right. split; [done|]. intros s' Hl. rewrite conv_of_put. by case_decide; [subst|]. }
  split; cbn in *; [done..|]. intros x [Hx|Hx]%elem_of_app Hr; [|by apply Hsaid]. right. exists sid. split; [by apply Hnew|].
  intros p Hp Hsid. apply list_elem_of_lookup in Hp as [i Hp].
  assert (forall q, threads s !! i = Some q -> holding q <> Some sid) as Hfree.
  { intros q Hq Hh'. pose proof (tk_holding _ _ _ _ (so_threads s Hok i q Hq) sid Hh'). congruence. }
  specialize (Hfree p Hp). rewrite Hrec in Hcalm. apply negb_true_iff in Hcalm.
  assert (replacing sid p = false) as Hnr.
  { apply not_true_is_false. intros Hrep. assert (existsb (replacing sid) (threads s) = true); [|congruence].
    apply existsb_exists. exists p. split; [|done]. apply list_elem_of_In. by eapply list_elem_of_lookup_2. }
  destruct p; cbn [inside holding carries replacing] in *; try done.
  all: try (destruct (ac_then a); [done|congruence]).
  injection Hsid as <-. by rewrite bool_decide_eq_true_2 in Hnr.
Qed.

Lemma sys_step_ok m s s' : sys_step m s = Some s' -> calm_move m s = true -> no_collision (presented s') -> system_ok s -> system_ok s'.
Proof.
  intros Hs Hc Hn Hok. destruct m as [p|i r|i|turn fresh_id now_iso cut_|sid ts].
  - cbn in Hs. destruct (entry p) eqn:He; [|done]. injection Hs as <-. by apply start_ok.
  - by eapply turn_ok.
  - unfold Rollover.sys_step in Hs. destruct (threads s !! i); [|done]. injection Hs as <-. by apply kill_ok.
  - by eapply say_ok.
  - unfold Rollover.sys_step in Hs. destruct (write_cursor _ _) eqn:Hw; [|done]. injection Hs as <-. by eapply cursor_ok.
Qed.

Lemma sys_step_presented m s s' b : sys_step m s = Some s' -> b ∈ presented s -> b ∈ presented s'.
Proof.
  intros Hs Hb. unfold Rollover.sys_step in Hs. destruct m; repeat case_match; simplify_option_eq; repeat case_match; simplify_eq/=; try done; by right.
Qed.

Lemma sys_run_presented ms s s' b : sys_run ms s = Some s' -> b ∈ presented s -> b ∈ presented s'.
Proof.
  revert s. induction ms as [|m ms IH]; intros s Hs; [by injection Hs as <-|]. cbn [Rollover.sys_run] in Hs.
  destruct (sys_step m s) as [s1|] eqn:Hm; [|done]. intros Hb. eapply IH; [exact Hs|]. by eapply sys_step_presented.
Qed.

Lemma sys_run_ok ms s s' : sys_run ms s = Some s' -> calm ms s = true -> no_collision (presented s') -> system_ok s -> system_ok s'.
Proof.
  revert s. induction ms as [|m ms IH]; intros s Hs Hc Hn Hok; [by injection Hs as <-|]. cbn [Rollover.sys_run] in Hs.
  cbn [calm] in Hc. apply andb_true_iff in Hc as [Hc1 Hc2]. destruct (sys_step m s) as [s1|] eqn:Hm; [|done].
  cbn [mbind option_bind] in Hs. eapply IH; [done..|]. eapply sys_step_ok; [done..| |done].
  intros b b' key Hb Hb'. apply Hn; by eapply sys_run_presented.
Qed.

End identities.

(** ** A run *)
Definition demo_turn (text ts : string) : json :=
  JObj [(u "session_id", JStr (u "s")); (u "speaker", JStr (u "user")); (u "text", JStr (u text)); (u "ts", JStr (u ts))].

Definition demo_readings : readings :=
  {| clock := 0; fault := false; cut := 0; size_known := true; seems_alive := true; busy := false; extracted := Some true;
     model := fun _ _ => Breaks |}.

Definition demo_now : Z := match fromisoformat (H := ascii_pylib) (u "2026-03-05T00:00:00+00:00") with Ok d => at_utc d | Err _ => 0 end.

Definition demo_pass : pass :=
  {| pa_sid := u "s"; pa_job := Compact day false 1 None; pa_now := demo_now; pa_after := None |}.

Definition demo_moves : list move :=
  [Say (demo_turn "one" "2026-03-01T10:00:00+00:00") [] [] None; Say (demo_turn "two" "2026-03-01T11:00:00+00:00") [] [] None;
   MoveCursor (u "s") (u "2026-03-01T11:00:00+00:00"); Say (demo_turn "three" "2026-03-04T20:00:00+00:00") [] [] None;
   Start (LkTry (WantPass demo_pass))] ++ repeat (Turn 0 demo_readings) 6 ++
  [Say (demo_turn "four" "2026-03-04T21:00:00+00:00") [] [] None] ++ repeat (Turn 0 demo_readings) 4.

Definition no_prompt : pystr -> pystr -> pystr -> Z -> Z -> pystr := fun _ _ _ _ _ => [].

Definition demo_run : option system :=
  sys_run (H := ascii_pylib) (fun t => Ok t) no_prompt no_prompt no_prompt (u "N") demo_moves nobody.

Definition demo_end : system := default nobody demo_run.

Lemma demo_no_collision : no_collision (H := ascii_pylib) (presented demo_end).
Proof.
  assert (exists b, presented demo_end = [b]) as [b ->] by (eexists; vm_compute; reflexivity).
  intros b1 b2 key Hb1%list_elem_of_singleton Hb2%list_elem_of_singleton _ _. by subst.
Qed.

