(* ===== verification/CloseFacts.v ===== *)
(** Setting a failing chunk aside, and closing a session: what [Pipeline]'s two
    operations that take rows out of a session's buffer or out of the reach of its
    cursor leave of them, in every environment and wherever they stop. *)
From S2P Require Import Prelude PyFloat PyTime Json Crypto Protocol ConnectCode PyVal JsonCut StateFile Jsonl Buffer Compaction Chunks ChunkFacts Extract Pipeline PipelineFacts ReportFacts CatchUp RolloverFacts.

(** ** Runs and the files they leave *)
Section post.
Context `{PyLib, Outside}.

(** [m] returns with [Q], or stops with its files as [E] says. *)
Definition post {A} (m : I A) (s : ingest) (E : conv -> option jfile -> Prop) (Q : A -> ingest -> Prop) : Prop :=
  match m s with (Ok a, s') => Q a s' | (Err _, s') => E (i_conv s') (i_poison s') end.

Lemma post_bind {A B} (m : I A) (k : A -> I B) s E P Q :
  post m s E P -> (forall a s1, P a s1 -> post (k a) s1 E Q) -> post (m ≫= k) s E Q.
Proof. unfold post. rewrite bind_run. destruct (m s) as [[a|e] s1]; [|done]. intros Hp Hk. by apply Hk. Qed.

Lemma post_ret {A} (a : A) s E (Q : A -> ingest -> Prop) : Q a s -> post (mret a) s E Q.
Proof. done. Qed.

Lemma post_weaken {A} (m : I A) s E (P Q : A -> ingest -> Prop) : post m s E P -> (forall a s1, P a s1 -> Q a s1) -> post m s E Q.
Proof. unfold post. destruct (m s) as [[a|e] s1]; auto. Qed.

(** Steps that leave the files alone. *)
Definition stays {A} (m : I A) (s : ingest) (V : A -> Prop) : Prop :=
  forall E : conv -> option jfile -> Prop, E (i_conv s) (i_poison s) ->
  post m s E (fun a s1 => i_conv s1 = i_conv s /\ i_poison s1 = i_poison s /\ V a).

Lemma stays_bind {A B} (m : I A) (k : A -> I B) s E V Q : stays m s V -> E (i_conv s) (i_poison s) ->
  (forall a s1, i_conv s1 = i_conv s -> i_poison s1 = i_poison s -> V a -> post (k a) s1 E Q) -> post (m ≫= k) s E Q.
Proof. intros Hm He Hk. eapply post_bind; [by apply Hm|]. intros a s1 (Hc & Hp & Hv). by apply Hk. Qed.

Lemma stays_weaken {A} (m : I A) s (V W : A -> Prop) : stays m s V -> (forall a, V a -> W a) -> stays m s W.
Proof. intros Hm Hw E He. eapply post_weaken; [by apply Hm|]. intros a s1 (? & ? & ?). auto. Qed.

Lemma stays_then {A B} (m : I A) (k : A -> I B) s V W : stays m s V ->
  (forall a s1, i_conv s1 = i_conv s -> i_poison s1 = i_poison s -> V a -> stays (k a) s1 W) -> stays (m ≫= k) s W.
Proof.
  intros Hm Hk E He. eapply stays_bind; [exact Hm|exact He|]. intros a s1 Hc Hp Hv. rewrite <- Hc, <- Hp in *.
  eapply post_weaken; [by apply (Hk a s1)|]. done.
Qed.

Lemma stays_gets {A} (f : ingest -> A) s : stays (gets f) s (eq (f s)).
Proof. by intros E He. Qed.
Lemma stays_ret {A} (a : A) s (V : A -> Prop) : V a -> stays (mret a) s V.
Proof. intros Hv E He. by apply post_ret. Qed.
Lemma stays_of_res {A} (r : res A) s : stays (of_res r) s (fun a => r = Ok a).
Proof. intros E He. unfold post, of_res. by destruct r. Qed.
Lemma stays_probe s : stays probe s (fun _ => True).
Proof. intros E He. unfold post, probe. munfold. by destruct (disk _). Qed.
Lemma stays_touch s : stays touch s (fun _ => True).
Proof. intros E He. unfold post, touch, probe. munfold. by destruct (disk _). Qed.

Lemma stays_cursor s : stays read_cursor_file s (eq (read_cursor (i_conv s))).
Proof.
  unfold read_cursor_file. eapply stays_then; [apply stays_touch|]. intros _ s1 Hc _ _.
  eapply stays_then; [apply stays_gets|]. intros c s2 _ _ <-. apply stays_ret. by rewrite Hc.
Qed.
Lemma stays_rows s : stays read_rows s (eq (read_session (i_conv s))).
Proof.
  unfold read_rows. eapply stays_then; [apply stays_touch|]. intros _ s1 Hc _ _.
  eapply stays_then; [apply stays_gets|]. intros c s2 _ _ <-. apply stays_ret. by rewrite Hc.
Qed.
Lemma stays_to_do s : stays rows_after_cursor s (eq (to_do (i_conv s))).
Proof.
  unfold rows_after_cursor. eapply stays_then; [apply stays_cursor|]. intros cur s1 Hc _ <-.
  eapply stays_then; [apply stays_rows|]. intros rows s2 _ _ <-. apply stays_ret. unfold to_do. by rewrite Hc.
Qed.
Lemma stays_backoff s : stays backoff_state s (fun b => b = None \/ b = read_backoff (i_conv s)).
Proof.
  unfold backoff_state. eapply stays_then; [apply stays_probe|]. intros ok s1 Hc _ _.
  eapply stays_then; [apply stays_gets|]. intros c s2 _ _ <-. apply stays_ret. rewrite Hc. destruct ok; auto.
Qed.

(** Appending to the file of rows set aside: all of them, or the first ones. *)
Lemma post_set_aside rs s (E : conv -> option jfile -> Prop) :
  (forall f more, rows_of f = rows_of (i_poison s) ++ more -> E (i_conv s) f) ->
  post (appending on_poison rs) s E (fun _ s1 => i_conv s1 = i_conv s /\ rows_of (i_poison s1) = rows_of (i_poison s) ++ rs).
Proof.
  intros He. assert (forall cut, exists more, rows_of (file_append (i_poison s) rs cut) = rows_of (i_poison s) ++ more /\ (cut = None -> more = rs)) as Hf.
  { intros cut. unfold file_append. destruct (no_rows rs) eqn:Hn; [exists []; rewrite app_nil_r; split; [done|]; by destruct rs|].
    assert (f_rows (default empty_file (i_poison s)) = rows_of (i_poison s)) as Hr by (by destruct (i_poison s)).
    destruct cut as [[|k]|]; cbn [rows_of f_rows].
    - exists []. by rewrite app_nil_r, <- Hr.
    - eexists. by rewrite Hr.
    - exists rs. by rewrite Hr. }
  unfold post, appending. munfold. destruct (disk _).
  - destruct (Hf None) as (more & Heq & Hm). rewrite Hm in Heq by done. done.
  - destruct (Hf (Some (cut_at (i_trace s)))) as (more & Heq & _). by apply (He _ more).
  - destruct (Hf (Some (cut_at (i_trace s)))) as (more & Heq & _). by apply (He _ more).
Qed.
End post.

(** ** Setting the failing chunk aside *)
Section set_aside.
Context `{PyLib, Outside}.
Variable user_name : option pystr.
Variable persona_name : pystr.
Variable chunk_chars : json.
Abbreviation chunks_now := (chunks_now user_name persona_name chunk_chars).
Abbreviation poison_unextracted_span := (poison_unextracted_span user_name persona_name chunk_chars).

(** The rows a pass would take up to the recorded end. *)
Definition failing_rows (e : option Z) (v : conv) : list json := List.filter (up_to e) (to_do v).

Lemma up_to_before e a t b : up_to e t = true -> stamp_of t = Some b -> (a <= b)%Z -> forall t', stamp_of t' = Some a -> up_to e t' = true.
Proof. unfold up_to. intros Ht Hs Hle t' Hs'. rewrite Hs in Ht. rewrite Hs'. destruct e; [|done]. apply Z.leb_le in Ht. apply Z.leb_le. lia. Qed.

(** The cursor at the end of the first chunk leaves the rows that are not in it. *)
Lemma moved_past v e c cs : plain_rows (read_session v) -> chunks_now (failing_rows e v) = Ok (c :: cs) ->
  (exists ts d, ready c ts d) /\ (forall t, t ∈ ch_turns c -> t ∈ to_do v) /\
  forall w, read_session w = read_session v -> cursor w = ch_cursor c -> forall t,
    (t ∈ to_do w <-> t ∈ to_do v /\ t ∉ ch_turns c) /\ (t ∈ to_do v -> t ∈ to_do w \/ t ∈ ch_turns c).
Proof.
  intros Hp Hc. destruct (cut_exists v) as [cut Hcut]. pose proof (to_do_left v cut Hp Hcut) as Hleft. pose proof (to_do_plain v Hp) as Hplain.
  unfold Pipeline.chunks_now in Hc. destruct (chunks_in_time _ _ _ _ _ Hc) as (Hall & Hne & _).
  assert (failing_rows e v = concat (map ch_turns (c :: cs))) as Hrows.
  { rewrite Hall. unfold failing_rows, to_do. rewrite !filter_filter. apply filter_same, Forall_forall. intros t _. unfold not_summary. by destruct (speaker_is _ _), (up_to e t). }
  assert (forall t, t ∈ failing_rows e v <-> t ∈ to_do v /\ up_to e t = true) as Hin.
  { intros t. unfold failing_rows. rewrite !list_elem_of_In, filter_In. done. }
  assert (forall t, t ∈ ch_turns c -> t ∈ failing_rows e v) as Hsub by (intros t Ht; rewrite Hrows; cbn [map concat]; apply elem_of_app; by left).
  destruct (first_chunk_end _ _ _ _ _ _ Hc) as (t0 & s & Ht0 & Hs & Hcur & Hle & Hlt).
  { apply Forall_cons in Hne as [Hne _]. destruct (ch_turns c) as [|t l] eqn:Hl; [done|]. exists t. split; [by left|].
    destruct (Hplain t) as (x & d & []); [apply Hin, Hsub; by left|]. by eexists. }
  destruct (proj1 (Hin t0) (Hsub t0 Ht0)) as [Ht0v Hup]. destruct (Hplain t0 Ht0v) as (x & d & [Hx Hxne Hxs Hiso Hst]).
  rewrite Hx in Hcur. cbn [py_str] in Hcur. rewrite Hst in Hs. injection Hs as <-.
  split_and!; [by exists x, d|intros t Ht; by apply Hin, Hsub|]. intros w Hw Hwc t.
  assert (read_cursor w = Some x) as Hread by (unfold read_cursor; rewrite Hwc, Hcur; cbn [mbind option_bind]; rewrite Hxs, bool_decide_eq_false_2 by done; by rewrite Hiso).
  rewrite (to_do_left w (Some (at_utc d))); [|by rewrite Hw|unfold cut_of; rewrite Hread; by exists d].
  assert (forall a, cut = Some a -> (a < at_utc d)%Z) as Hcutd.
  { intros a ->. rewrite Hleft in Ht0v. apply list_elem_of_In, filter_In in Ht0v as [_ Hk]. apply andb_true_iff in Hk as [_ Hk].
    unfold later_than in Hk. rewrite Hst in Hk. by apply Z.ltb_lt in Hk. }
  assert (t ∈ rows_left (Some (at_utc d)) (read_session w) <-> t ∈ to_do v /\ exists b, stamp_of t = Some b /\ (at_utc d < b)%Z) as ->.
  { rewrite Hw, Hleft. unfold rows_left. rewrite !list_elem_of_In, !filter_In, !andb_true_iff. unfold later_than. split.
    - intros (Ht & Hn & Hl). destruct (stamp_of t) as [b|] eqn:Hb; [|done]. apply Z.ltb_lt in Hl. split_and!; [done|done| |by exists b].
      destruct cut as [a|]; [|done]. specialize (Hcutd a eq_refl). apply Z.ltb_lt. lia.
    - intros ((Ht & Hn & _) & b & -> & Hl). split_and!; [done|done|by apply Z.ltb_lt]. }
  assert (forall b, t ∈ to_do v -> stamp_of t = Some b -> (b <= at_utc d)%Z -> t ∈ ch_turns c) as Hmember.
  { intros b Htv Hb Hge. assert (t ∈ failing_rows e v) as Htf by (apply Hin; split; [done|by eapply (up_to_before e _ t0)]).
    rewrite Hrows in Htf. cbn [map concat] in Htf. apply elem_of_app in Htf as [Htf|Htf]; [done|]. specialize (Hlt t _ Htf Hb). lia. }
  split; [split|].
  - intros (Htv & b & Hb & Hl). split; [done|]. intros Htc. specialize (Hle t b Htc Hb). lia.
  - intros [Htv Hnc]. split; [done|]. destruct (Hplain t Htv) as (y & d' & [_ _ _ _ Hb]). exists (at_utc d'). split; [done|].
    destruct (Z.lt_ge_cases (at_utc d) (at_utc d')) as [|Hge]; [done|]. by destruct (Hnc (Hmember _ Htv Hb Hge)).
  - intros Htv. destruct (Hplain t Htv) as (y & d' & [_ _ _ _ Hb]). destruct (Z.lt_ge_cases (at_utc d) (at_utc d')) as [Hl|Hge].
    + left. split; [done|]. by exists (at_utc d').
    + right. by apply (Hmember _ Htv Hb).
Qed.

(** Nothing is lost: the buffer is as it was, rows were only added to those set aside,
    and a row that waited for a pass still waits for one, or was set aside. *)
Definition nothing_lost (v : conv) (p : option jfile) (w : conv) (f : option jfile) : Prop :=
  read_session w = read_session v /\ exists more, rows_of f = rows_of p ++ more /\ forall t, t ∈ to_do v -> t ∈ to_do w \/ t ∈ more.

Lemma still_there v p w f : read_session w = read_session v -> to_do w = to_do v -> (exists more, rows_of f = rows_of p ++ more) -> nothing_lost v p w f.
Proof. intros Hs Ht (more & Hm). split; [done|]. exists more. split; [done|]. rewrite Ht. auto. Qed.

Lemma unchanged_lost v p : nothing_lost v p v p.
Proof. apply still_there; try done. exists []. by rewrite app_nil_r. Qed.

Lemma to_do_backoff b v : to_do (set_backoff b v) = to_do v.
Proof. done. Qed.

(** The chunk that is set aside, when there is one. *)
Definition set_aside_as (e : option Z) (v w : conv) (p f : option jfile) (n : Z) : Prop :=
  failing_rows e v = [] /\ n = 0%Z /\ f = p /\ to_do w = to_do v \/
  exists c cs, chunks_now (failing_rows e v) = Ok (c :: cs) /\ n = Z.of_nat (length (ch_turns c)) /\
    rows_of f = rows_of p ++ ch_turns c /\ forall t, t ∈ to_do w <-> t ∈ to_do v /\ t ∉ ch_turns c.

Lemma post_clear s (E : conv -> option jfile -> Prop) (Q : unit -> ingest -> Prop) : E (i_conv s) (i_poison s) ->
  (forall s1, i_conv s1 = set_backoff None (i_conv s) -> i_poison s1 = i_poison s -> Q tt s1) -> post clear_backoff s E Q.
Proof.
  intros He Hq. unfold clear_backoff. eapply stays_bind; [apply stays_touch|done|]. intros _ s1 Hc Hp _. apply Hq; [|done]. cbn. by rewrite Hc.
Qed.

Lemma post_move ts d s (E : conv -> option jfile -> Prop) (Q : unit -> ingest -> Prop) : flexible_iso ts = Some d -> E (i_conv s) (i_poison s) ->
  (forall s1, i_conv s1 = set_cursor (Some ts) (i_conv s) -> i_poison s1 = i_poison s -> Q tt s1) -> post (move_cursor ts) s E Q.
Proof.
  intros Hd He Hq. destruct (flexible_parses ts d Hd) as [x Hx]. unfold move_cursor.
  eapply stays_bind; [apply stays_of_res|done|]. intros _ s1 Hc1 Hp1 _. rewrite <- Hc1, <- Hp1 in He.
  eapply stays_bind; [apply stays_touch|done|]. intros _ s2 Hc2 Hp2 _. unfold post, conv_op, write_cursor. rewrite !bind_run. unfold gets. cbv beta iota.
  rewrite Hx. cbn [mbind res_bind mret res_ret]. apply Hq; cbn; [by rewrite Hc2, Hc1|by rewrite Hp2].
Qed.

Lemma post_span e s (Q : option Z -> ingest -> Prop) : plain_rows (read_session (i_conv s)) ->
  (forall n s1, nothing_lost (i_conv s) (i_poison s) (i_conv s1) (i_poison s1) -> backoff (i_conv s1) = None ->
     set_aside_as e (i_conv s) (i_conv s1) (i_poison s) (i_poison s1) n -> Q (Some n) s1) ->
  post (match failing_rows e (i_conv s) with
        | [] => clear_backoff;; mret (Some 0%Z)
        | turns =>
            chunks ← of_res (chunks_now turns);
            failing ← of_option IndexError (head chunks);
            touch;;
            _ ← of_res (encode_jsonl false (ch_turns failing));
            appending on_poison (ch_turns failing);;
            (match ch_cursor failing with Some ((_ :: _) as ts) => move_cursor ts | _ => mret tt end);;
            clear_backoff;;
            mret (Some (Z.of_nat (length (ch_turns failing))))
        end) s (nothing_lost (i_conv s) (i_poison s)) Q.
Proof.
  intros Hp Hq. pose proof (unchanged_lost (i_conv s) (i_poison s)) as Hsame. destruct (failing_rows e (i_conv s)) as [|t0 turns] eqn:Hf.
  { eapply post_bind; [apply post_clear with (Q := fun _ s1 => i_conv s1 = set_backoff None (i_conv s) /\ i_poison s1 = i_poison s); [done|by auto]|].
    intros _ s1 [Hc Hps]. apply post_ret, Hq; [rewrite Hc, Hps; apply still_there; try done; exists []; by rewrite app_nil_r|by rewrite Hc|]. left. by rewrite Hc. }
  rewrite <- Hf. clear t0 turns Hf.
  eapply stays_bind; [apply stays_of_res|done|]. intros chunks s1 Hc1 Hp1 Hch. destruct chunks as [|c cs]; [unfold post; rewrite bind_run; cbn [head of_option]; munfold; by rewrite Hc1, Hp1|].
  destruct (moved_past _ _ _ _ Hp Hch) as ((ts & d & Hcur & Hne & _ & Hd) & _ & Hmoved). cbn [head of_option].
  eapply stays_bind; [by apply (stays_ret c s1 (eq c))|by rewrite Hc1, Hp1|]. intros ? s2 Hc2 Hp2 <-.
  assert (i_conv s2 = i_conv s) as Hc by congruence. assert (i_poison s2 = i_poison s) as Hps by congruence. clear s1 Hc1 Hp1 Hc2 Hp2.
  eapply stays_bind; [apply stays_touch|by rewrite Hc, Hps|]. intros _ s3 Hc3 Hp3 _.
  eapply stays_bind; [apply stays_of_res|by rewrite Hc3, Hp3, Hc, Hps|]. intros _ s4 Hc4 Hp4 _.
  assert (i_conv s4 = i_conv s) as Hcc by congruence. assert (i_poison s4 = i_poison s) as Hpp by congruence. clear s2 s3 Hc Hps Hc3 Hp3 Hc4 Hp4.
  eapply post_bind. { apply post_set_aside. intros f more Hm. rewrite Hcc, Hpp in *. apply still_there; [done..|by exists more]. }
  intros _ s5 [Hc5 Hp5]. rewrite Hcc in Hc5. rewrite Hpp in Hp5. rewrite Hcur. destruct ts as [|x ts]; [done|].
  eapply post_bind. { apply (post_move _ d _ _ (fun _ s6 => i_conv s6 = set_cursor (Some (x :: ts)) (i_conv s) /\ i_poison s6 = i_poison s5)); [done| |].
    - rewrite Hc5. apply still_there; [done..|by eexists].
    - intros s6 -> ->. by rewrite Hc5. }
  intros _ s6 [Hc6 Hp6].
  pose proof (Hmoved (i_conv s6) ltac:(by rewrite Hc6) ltac:(by rewrite Hc6)) as Hleft.
  eapply post_bind. { apply post_clear with (Q := fun _ s7 => i_conv s7 = set_backoff None (i_conv s6) /\ i_poison s7 = i_poison s6); [|by auto].
    split; [by rewrite Hc6|]. exists (ch_turns c). split; [by rewrite Hp6|]. intros t Ht. by apply Hleft. }
  intros _ s7 [Hc7 Hp7]. apply post_ret, Hq; rewrite Hc7; [|done|].
  { split; [by rewrite Hc6|]. exists (ch_turns c). split; [by rewrite Hp7, Hp6|]. intros t Ht. by apply Hleft. }
  right. exists c, cs. split_and!; [done|done|by rewrite Hp7, Hp6|]. intros t. apply (Hleft t).
Qed.

End set_aside.

(** ** What a pass does to a session's files *)
Section conv_pres.
Context `{PyLib, Outside}.
Context (C : conv -> conv -> Prop) `{!PreOrder C}.
Hypothesis C_cursor : forall x c, C c (set_cursor x c).
Hypothesis C_backoff : forall x c, C c (set_backoff x c).
Hypothesis C_others : forall t h c, C c (others t h c).

Definition files_rel (s s' : ingest) : Prop := C (i_conv s) (i_conv s').

#[export] Instance files_rel_preorder : PreOrder files_rel.
Proof. split; [by intros s; unfold files_rel|]. intros s1 s2 s3 H1 H2. unfold files_rel in *. by etrans. Qed.

Lemma files_same s s' : i_conv s' = i_conv s -> files_rel s s'.
Proof. unfold files_rel. by intros ->. Qed.

Lemma files_on_since f : pres files_rel (on_since f). Proof. intros s. by apply files_same. Qed.
Lemma files_on_souls f : pres files_rel (on_souls f). Proof. intros s. by apply files_same. Qed.
Lemma files_on_report f : pres files_rel (on_report f). Proof. intros s. by apply files_same. Qed.
Lemma files_log e : pres files_rel (log e). Proof. intros s. by apply files_same. Qed.
Lemma files_on_conv f : (forall c, C c (f c)) -> pres files_rel (on_conv f). Proof. intros Hf s. apply Hf. Qed.
Lemma files_conv_op f : (forall c c', f c = Ok c' -> C c c') -> pres files_rel (conv_op f).
Proof.
  intros Hf s. unfold conv_op. rewrite bind_run. unfold gets. cbv beta iota. destruct (f (i_conv s)) as [c'|e] eqn:He; [|by apply files_same].
  by apply Hf.
Qed.
Lemma files_ask {A} (mk : res A -> event) answer : pres files_rel (ask mk answer).
Proof. unfold ask. pres_step; [by pres_auto|]. pres_step; [apply files_log|]. by pres_auto. Qed.
Lemma files_probe : pres files_rel probe.
Proof. unfold probe. pres_step; [by pres_auto|]. pres_step; [apply files_log|]. by pres_auto. Qed.
Lemma files_touch : pres files_rel touch.
Proof. unfold touch. pres_step; [apply files_probe|]. by pres_auto. Qed.
Lemma files_meanwhile h : pres files_rel (meanwhile h).
Proof. unfold meanwhile. pres_step; [by pres_auto|]. pres_step; [apply files_log|]. apply files_on_conv. intros c. apply C_others. Qed.
Lemma files_appending put rs : (forall f, pres files_rel (put f)) -> pres files_rel (appending put rs).
Proof.
  intros Hp. unfold appending. pres_step; [by pres_auto|]. pres_step; [apply files_log|]. destruct (disk _); [done| |]; (pres_step; [done|]; by pres_auto).
Qed.
Lemma files_cursor ts : pres files_rel (conv_op (write_cursor ts)).
Proof. apply files_conv_op. intros c c'. unfold write_cursor. destruct (fromisoformat _); [|done]. by intros [= <-]. Qed.
Lemma files_backoff f first e : pres files_rel (conv_op (write_backoff f first e)).
Proof. apply files_conv_op. intros c c'. unfold write_backoff. destruct (fromisoformat _); [|done]. by intros [= <-]. Qed.
Lemma files_forget : pres files_rel (on_conv delete_backoff). Proof. apply files_on_conv. intros c. apply C_backoff. Qed.
Lemma files_forget_cursor : pres files_rel (on_conv delete_cursor). Proof. apply files_on_conv. intros c. apply C_cursor. Qed.

Hint Resolve files_on_since files_on_souls files_on_report files_log files_ask files_probe files_touch files_meanwhile files_appending files_cursor
  files_backoff files_forget files_forget_cursor : pres.
Ltac files_auto := repeat (progress (pres_auto; handlers)).

Variable prompt_of : pystr -> pystr.
Variable sid : pystr.
Variable user_name : option pystr.
Variable persona_name : pystr.
Variable valid_emotions : list pystr.
Variable chunk_chars : json.
Variables (max_retries crystallize_threshold : Z).

Lemma files_link_to id related n : pres files_rel (link_to id related n).
Proof. revert n. induction related as [|r related IH]; intros n; cbn [link_to]; files_auto. Qed.
Hint Resolve files_link_to : pres.
Lemma files_one_item q m : pres files_rel (one_item sid crystallize_threshold q m).
Proof.
  unfold one_item, is_duplicate, commit_item, is_soul_candidate_queued, queue_soul_candidate, bump, now, try_except. files_auto.
Qed.
Lemma files_attempts n t : pres files_rel (attempts prompt_of n t).
Proof. induction n as [|n IH]; cbn [attempts]; unfold ask_model; files_auto. Qed.
Hint Resolve files_one_item files_attempts : pres.
Lemma files_stages t q : pres files_rel (run_chunk_stages prompt_of sid valid_emotions max_retries crystallize_threshold t q).
Proof. unfold run_chunk_stages, extract_items_with_status, bump. files_auto. Qed.
Hint Resolve files_stages : pres.
Lemma files_pieces ps : pres files_rel (run_pieces prompt_of sid valid_emotions max_retries crystallize_threshold ps).
Proof. induction ps as [|p ps IH]; cbn [run_pieces]; files_auto. Qed.
Hint Resolve files_pieces : pres.
Lemma files_record e : pres files_rel (record_extraction_failure e).
Proof. unfold record_extraction_failure, backoff_state, now. files_auto. Qed.
Lemma files_clear : pres files_rel clear_backoff.
Proof. unfold clear_backoff. files_auto. Qed.
Lemma files_move_past c : pres files_rel (move_past c).
Proof. unfold move_past, move_cursor. files_auto. Qed.
Hint Resolve files_record files_clear files_move_past : pres.
Lemma files_loop rf mc i cs : pres files_rel (chunk_loop prompt_of sid valid_emotions max_retries crystallize_threshold rf mc i cs).
Proof. revert i. induction cs as [|c cs IH]; intros i; cbn [chunk_loop]; files_auto. Qed.
Hint Resolve files_loop : pres.
Lemma files_run_chunks rf mc turns :
  pres files_rel (run_chunks prompt_of sid user_name persona_name valid_emotions chunk_chars max_retries crystallize_threshold rf mc turns).
Proof. unfold run_chunks, mark_chunked_extraction, now. files_auto. Qed.
Lemma files_read_cursor : pres files_rel read_cursor_file.
Proof. unfold read_cursor_file. files_auto. Qed.
Lemma files_read_rows : pres files_rel read_rows.
Proof. unfold read_rows. files_auto. Qed.
Hint Resolve files_read_cursor files_read_rows : pres.
Lemma files_to_do : pres files_rel rows_after_cursor.
Proof. unfold rows_after_cursor. files_auto. Qed.
End conv_pres.

(** ** Closing a session *)
Section close.
Context `{PyLib, Outside}.
Variable x : json.

(** The row is in the session's buffer or in its archive. *)
Definition kept (c : conv) : Prop := x ∈ read_session c \/ x ∈ read_archive c.

(** When the marker names a close's batch that holds the row, the row is archived. *)
Definition truthful (c : conv) : Prop := forall rows key,
  read_archive_marker c = Some key -> archive_batch_key rows CLOSE_BATCH_GEN = Ok key -> x ∈ rows -> x ∈ read_archive c.

(** A change that archives grow by, that takes no row out of the buffer before it is
    archived, and that writes only true markers. *)
Record safe (c c' : conv) : Prop := {
  sf_archive : x ∈ read_archive c -> x ∈ read_archive c';
  sf_kept : kept c -> kept c';
  sf_marker : truthful c -> truthful c';
}.

#[export] Instance safe_preorder : PreOrder safe.
Proof. split; [by intros c; split|]. intros c1 c2 c3 [] []. split; auto. Qed.

Hypothesis others_safe : forall t h c, safe c (others t h c).

Lemma safe_cursor v c : safe c (set_cursor v c). Proof. by split. Qed.
Lemma safe_backoff v c : safe c (set_backoff v c). Proof. by split. Qed.

Lemma pres_then {A B} R (m : I A) (k : A -> I B) s (G : ingest -> Prop) : pres R m -> (forall s1, R s s1 -> G s1) ->
  (forall a s1, R s s1 -> G (k a s1).2) -> G ((m ≫= k) s).2.
Proof. intros Hm Hg Hk. specialize (Hm s). rewrite bind_run. destruct (m s) as [[a|e] s1]; [by apply Hk|by apply Hg]. Qed.

Abbreviation quiet_step := (pres (files_rel safe)).

Lemma append_keeps sk cut s : kept (i_conv s) ->
  kept (i_conv (conv_op (append_archive sk (read_session (i_conv s)) cut) s).2) /\
  forall u0, (conv_op (append_archive sk (read_session (i_conv s)) cut) s).1 = Ok u0 -> cut = None ->
    x ∈ read_archive (i_conv (conv_op (append_archive sk (read_session (i_conv s)) cut) s).2).
Proof.
  intros Hk. unfold conv_op. rewrite bind_run. unfold gets. cbv beta iota. destruct (append_archive sk _ cut (i_conv s)) as [c'|e] eqn:Ha; [|by split].
  apply append_archive_rows in Ha as ((added & Har & Hadd) & Hs & _). cbn. split.
  - destruct Hk as [Hk|Hk]; [left; by rewrite Hs|]. right. rewrite Har. apply elem_of_app. by left.
  - intros _ _ Hcut. rewrite Har, Hadd by done. apply elem_of_app. destruct Hk; [by right|by left].
Qed.

Lemma archive_saves s : truthful (i_conv s) -> kept (i_conv s) ->
  match archive_buffer s with
  | (Ok _, s') => x ∈ read_archive (i_conv s')
  | (Err _, s') => kept (i_conv s')
  end.
Proof.
  intros Ht Hk. unfold archive_buffer. rewrite bind_run.
  pose proof (stays_rows s (fun c _ => c = i_conv s) eq_refl) as Hrows. unfold post in Hrows.
  destruct (read_rows s) as [[rows|e] s1]; [|by rewrite Hrows]. destruct Hrows as (Hc1 & _ & <-). rewrite <- Hc1 in *. clear s Hc1.
  set (rows := read_session (i_conv s1)) in *. unfold archive_batch. destruct rows as [|t rows'] eqn:Hr.
  { rewrite bind_run. cbn. destruct Hk as [Hk|Hk]; [|done]. unfold rows in Hr. rewrite Hr in Hk. by apply not_elem_of_nil in Hk. }
  rewrite <- Hr. clear t rows' Hr. rewrite !bind_run. unfold of_res. destruct (archive_batch_key rows CLOSE_BATCH_GEN) as [key|e] eqn:Hkey; [|done].
  rewrite !bind_run. pose proof (stays_probe s1 (fun c _ => c = i_conv s1) eq_refl) as Hprobe. unfold post in Hprobe.
  destruct (probe s1) as [[ok|e] s2]; [|by rewrite Hprobe]. destruct Hprobe as (Hc2 & _ & _). rewrite !bind_run. unfold gets at 1 2. cbv beta iota.
  rewrite Hc2. destruct (bool_decide _) eqn:Hmark.
  { apply bool_decide_eq_true in Hmark. destruct ok; [|done]. cbn. rewrite andb_false_r. cbn. rewrite Hc2.
    destruct Hk as [Hk|Hk]; [by apply (Ht rows key)|done]. }
  rewrite !bind_run. destruct (encode_jsonl false rows) as [data|e]; [|by rewrite Hc2].
  rewrite !bind_run. unfold gets, log, modify. cbv beta iota. cbn [i_conv]. rewrite !bind_run.
  set (s3 := {| i_conv := i_conv s2; i_poison := _ |}). assert (i_conv s3 = i_conv s1) as Hc3 by (by cbn).
  assert (kept (i_conv s3)) as Hk3 by (by rewrite Hc3). assert (read_session (i_conv s3) = rows) as Hr3 by (by rewrite Hc3). clearbody s3.
  destruct (disk (i_trace s2)).
  2, 3: rewrite !bind_run; pose proof (append_keeps (size_known (i_trace s2)) (Some (cut_at (i_trace s2))) s3 Hk3) as [Hk4 _]; rewrite Hr3 in Hk4;
    by destruct (conv_op _ s3) as [[[]|e] s4].
  pose proof (append_keeps (size_known (i_trace s2)) None s3 Hk3) as [Hk4 Ha4]. rewrite Hr3 in *.
  destruct (conv_op _ s3) as [[[]|e] s4]; [|done]. cbn [fst snd] in *. specialize (Ha4 tt eq_refl eq_refl).
  rewrite bind_run. pose proof (stays_touch s4 (fun c _ => c = i_conv s4) eq_refl) as Ht4. unfold post in Ht4.
  destruct (touch s4) as [[[]|e] s5]; [|by rewrite Ht4]. destruct Ht4 as (Hc5 & _ & _). rewrite bind_run. unfold on_conv, modify. cbv beta iota. cbn [i_conv mret M_ret].
  unfold mret, M_ret. rewrite Hc5. destruct (negb _ && _); cbn; [by right|done].
Qed.

(** Once the row is archived, nothing the removal does loses it. *)
Definition archived_row (c c' : conv) : Prop := x ∈ read_archive c -> x ∈ read_archive c'.

#[export] Instance archived_row_preorder : PreOrder archived_row.
Proof. split; [by intros c|]. intros c1 c2 c3 H1 H2. unfold archived_row in *. auto. Qed.

Lemma archived_kept c : x ∈ read_archive c -> kept c. Proof. by right. Qed.

Lemma files_arch_others t h c : archived_row c (others t h c). Proof. by destruct (others_safe t h c). Qed.

Lemma removal_keeps held turns s : truthful (i_conv s) -> kept (i_conv s) -> kept (i_conv (close_removal held turns s).2).
Proof.
  intros Ht Hk. set (G := fun s' => kept (i_conv s')). change (G (close_removal held turns s).2).
  assert (forall s1, files_rel safe s s1 -> G s1) as Hg by (intros s1 [_ Hs _]; by apply Hs). unfold close_removal.
  apply (pres_then (files_rel safe)); [by pres_auto|done|]. intros seen s1 Hs1.
  apply (pres_then (files_rel safe)); [by apply files_read_cursor; apply _|intros s2 Hs2; apply Hg; by etrans|]. intros cur s2 Hs2.
  apply (pres_then (files_rel safe)); [by apply files_read_rows; apply _|intros s3 Hs3; apply Hg; etrans; [exact Hs1|by etrans]|]. intros rows s3 Hs3.
  assert (files_rel safe s s3) as Hs by (etrans; [exact Hs1|by etrans]). clear s1 s2 Hs1 Hs2 Hs3.
  apply (pres_then (files_rel safe)); [by pres_auto|intros s4 Hs4; apply Hg; by etrans|]. intros late s4 Hs4.
  assert (files_rel safe s s4) as Hs' by (by etrans). clear s3 Hs Hs4. destruct late; [|exact (Hg s4 Hs')].
  apply (pres_then (files_rel safe)); [apply files_meanwhile; [apply _|exact others_safe]|intros s5 Hs5; apply Hg; by etrans|]. intros [] s5 Hs5.
  assert (files_rel safe s s5) as [Ha5 Hk5 Ht5] by (by etrans). rewrite bind_run. pose proof (archive_saves s5 (Ht5 Ht) (Hk5 Hk)) as Hs6.
  destruct (archive_buffer s5) as [[archived|e] s6]; [|done].
  assert (forall m : I unit, pres (files_rel archived_row) m -> G (m s6).2) as Htail by (intros m Hm; right; by apply Hm). apply Htail.
  assert (forall rows : list json, pres (files_rel archived_row) (on_report (set_end false))) as Hrep by (intros; by apply files_on_report; apply _).
  pose proof files_arch_others as Hoth.
  pres_step; [by apply files_meanwhile; [apply _|exact Hoth]|]. pres_step; [by apply files_read_rows; apply _|].
  destruct (negb _); [apply files_on_report; apply _|].
  pres_step; [by apply files_meanwhile; [apply _|exact Hoth]|]. pres_step; [by apply files_touch; apply _|]. pres_step; [apply files_on_conv; intros c Hx; exact Hx|].
  pres_step; [by apply files_touch; apply _|]. pres_step; [apply files_on_conv; intros c Hx; exact Hx|]. apply files_clear; [apply _|intros v c Hx; exact Hx].
Qed.
End close.

(** ** A pass that reached the end *)
Section ends.
Context `{PyLib, Outside}.
Variable prompt_of : pystr -> pystr.
Variable sid : pystr.
Variable user_name : option pystr.
Variable persona_name : pystr.
Variable valid_emotions : list pystr.
Variable chunk_chars : json.
Variables (max_retries crystallize_threshold : Z).
Abbreviation served_in := (served_in valid_emotions).
Abbreviation chunk_loop := (chunk_loop prompt_of sid valid_emotions max_retries crystallize_threshold).
Abbreviation chunks_now := (chunks_now user_name persona_name chunk_chars).
Abbreviation run_chunks := (run_chunks prompt_of sid user_name persona_name valid_emotions chunk_chars max_retries crystallize_threshold).
Abbreviation snapshot := (extract_session_snapshot prompt_of sid user_name persona_name valid_emotions chunk_chars max_retries crystallize_threshold).
Abbreviation close_session := (close_session prompt_of sid user_name persona_name valid_emotions chunk_chars max_retries crystallize_threshold).
Abbreviation close_session_locked := (close_session_locked prompt_of sid user_name persona_name valid_emotions chunk_chars max_retries crystallize_threshold).

(** [m] took the rows waiting in [s] to the end, when it says so. *)
Definition served_all (turns : list json) (s s' : ingest) : Prop := exists cs es,
  chunks_now turns = Ok cs /\ adds es s s' /\ served_in (concat (map ch_pieces cs)) es.

Lemma loop_served rf mc i cs s : fresh (i_report s) ->
  match chunk_loop rf mc i cs s with
  | (Ok _, s') => reached_end (i_report s') = true -> exists es, adds es s s' /\ served_in (concat (map ch_pieces cs)) es
  | _ => True
  end.
Proof.
  revert i s. induction cs as [|c cs IH]; intros i s Hf; cbn [Pipeline.chunk_loop].
  { intros _. exists []. split; [by apply adds_nil|constructor]. }
  pose proof Hf as [[_ [= _ _ _ He]] _]. destruct (match mc with Some _ => _ | None => _ end); [cbn; by rewrite He|].
  rewrite bind_run. destruct (pieces_run prompt_of sid persona_name valid_emotions max_retries crystallize_threshold (ch_pieces c) s) as (es & Ht & _ & Hok).
  pose proof (triple_pieces prompt_of sid valid_emotions max_retries crystallize_threshold persona_name (ch_pieces c) (false, false, false, false) s) as Hp.
  destruct (run_pieces _ _ _ _ _ (ch_pieces c) s) as [[r|e] s1]; [|done]. cbn [fst snd] in *.
  assert (stage_end (false, false, false, false) r (i_report s1)) as Hst by (apply Hp; exact Hf). clear Hf.
  assert (forall k : I unit, pres same_report k -> reached_end (i_report s1) = false ->
    match k s1 with (Ok _, s') => reached_end (i_report s') = true -> exists es, adds es s s' /\ served_in (concat (map ch_pieces (c :: cs))) es | _ => True end) as Hstop.
  { intros k Hk Hr. destruct (Hk s1) as [_ Hrep]. destruct (k s1) as [[a|e] s2]; [|done]. cbn in Hrep. rewrite <- Hrep. by rewrite Hr. }
  destruct r.
  - rewrite bind_run. assert (pres same_report (if rf then clear_backoff else mret tt)) as Hk by (destruct rf; within_auto).
    destruct (Hk s1) as [(es2 & Ht2 & _) Hr2]. destruct ((if rf then clear_backoff else mret tt) s1) as [[[]|e] s2]; [|done]. cbn [fst snd] in *.
    rewrite bind_run. assert (pres same_report (move_past c)) as Hm by (unfold move_past, move_cursor; destruct (ch_cursor c) as [[|x ts]|]; within_auto).
    destruct (Hm s2) as [(es3 & Ht3 & _) Hr3]. destruct (move_past c s2) as [[[]|e] s3]; [|done]. cbn [fst snd] in *.
    assert (fresh (i_report s3)) as Hf by (by rewrite <- Hr3, <- Hr2). specialize (IH (i + 1)%Z s3 Hf).
    destruct (chunk_loop rf mc (i + 1)%Z cs s3) as [[a|e] s4]; [|done]. intros Hend. destruct (IH Hend) as (es4 & Ht4 & Hs4).
    exists (es ++ es2 ++ es3 ++ es4). split; [by do 3 (eapply adds_trans; [eassumption|])|]. cbn [map concat]. apply served_in_app; [by apply Hok|].
    by do 2 apply served_in_before.
  - cbn. destruct Hst as [[_ [= _ _ _ Hr]] _]. by rewrite Hr.
  - apply Hstop; [destruct rf; within_auto|]. by destruct Hst as [[_ [= _ _ _ Hr]] _].
  - apply Hstop; [destruct rf; within_auto|]. by destruct Hst as [[_ [= _ _ _ Hr]] _].
Qed.

Lemma served_after turns s s1 s' : served_all turns s s1 -> (exists es, adds es s1 s') -> served_all turns s s'.
Proof. intros (cs & es & Hc & Ht & Hs) (es' & Ht'). exists cs, (es ++ es'). split_and!; [done|by eapply adds_trans|by apply served_in_after]. Qed.
Lemma served_before turns s s1 s' : (exists es, adds es s s1) -> served_all turns s1 s' -> served_all turns s s'.
Proof. intros (es' & Ht') (cs & es & Hc & Ht & Hs). exists cs, (es' ++ es). split_and!; [done|by eapply adds_trans|by apply served_in_before]. Qed.

Lemma run_chunks_served rf mc turns s a s' : fresh (i_report s) -> run_chunks rf mc turns s = (Ok a, s') -> reached_end (i_report s') = true ->
  served_all turns s s'.
Proof.
  intros Hf. unfold Pipeline.run_chunks. rewrite bind_run.
  assert (pres same_report (mark_chunked_extraction sid (min_stamp turns))) as Hm by within_auto.
  destruct (Hm s) as [(es0 & Ht0 & _) Hr0]. destruct (mark_chunked_extraction _ _ s) as [[[]|e] s1]; [|done]. cbn [fst snd] in *.
  rewrite bind_run. unfold of_res. destruct (chunks_now turns) as [cs|e] eqn:Hcs; [|done]. intros Hrun Hend.
  rewrite Hr0 in Hf. pose proof (loop_served rf mc 0 cs s1 Hf) as Hl. rewrite Hrun in Hl. destruct (Hl Hend) as (es & Ht & Hs).
  exists cs, (es0 ++ es). split_and!; [done|by eapply adds_trans|by apply served_in_before].
Qed.

Lemma nothing_to_do : chunks_now [] = Ok [].
Proof.
  unfold Pipeline.chunks_now, chunk_turns. assert (0 < extraction_chunk_chars chunk_chars)%Z as Hpos.
  { unfold extraction_chunk_chars, CHUNK_CHARS_DEFAULT. destruct chunk_chars; try lia. destruct (Z.ltb_spec 0 z); lia. }
  destruct (Z.leb_spec (extraction_chunk_chars chunk_chars) 0); [lia|]. done.
Qed.

(** Steps before a pass. *)
Lemma prepared {A} (m : I A) s a s1 V : stays m s V -> pres same_report m -> m s = (Ok a, s1) ->
  i_conv s1 = i_conv s /\ (exists es, adds es s s1) /\ i_report s1 = i_report s /\ V a.
Proof.
  intros Hm Hp Hrun. specialize (Hm (fun _ _ => True) ltac:(constructor)). unfold post in Hm. destruct (Hp s) as [(es & Ht & _) Hr]. rewrite Hrun in *.
  cbn in *. destruct Hm as (? & _ & ?). split_and!; [done|by exists es|done|done].
Qed.

Lemma stays_window s : stays in_backoff_window s (fun _ => True).
Proof.
  unfold in_backoff_window, now. eapply stays_then; [apply stays_backoff|]. intros [state|] s1 _ _ _; [|by apply stays_ret].
  eapply stays_then; [apply stays_of_res|]. intros at_ s2 _ _ _. destruct (negb at_); [by apply stays_ret|].
  eapply stays_then; [apply stays_of_res|]. intros first s3 _ _ _. eapply stays_then; [apply stays_of_res|]. intros d s4 _ _ _.
  eapply stays_then; [apply stays_gets|]. intros n s5 _ _ _. by apply stays_ret.
Qed.

(** Running [m] first: what it returned, and the rest. *)
Ltac first_run H a s1 := rewrite bind_run in H; match type of H with context [let (_, _) := ?m ?s in _] =>
  let E := fresh "E" in destruct (m s) as [[a|?] s1] eqn:E; [|discriminate H] end.

Lemma under_lock (body : I unit) s r s' : reporting (under_extract_lock (on_report set_busy) body) s = (Ok r, s') -> reached_end r = true ->
  exists s1 u0, i_conv s1 = i_conv s /\ (exists es, adds es s s1) /\ fresh (i_report s1) /\ body s1 = (Ok u0, s') /\ i_report s' = r.
Proof.
  intros Hrun Hend. unfold reporting in Hrun. rewrite bind_run in Hrun. unfold on_report at 1, modify in Hrun. cbv beta iota in Hrun.
  set (s0 := {| i_conv := i_conv s; i_report := new_report |}) in Hrun. first_run Hrun u1 s2. unfold gets in Hrun. injection Hrun as <- <-.
  unfold under_extract_lock in E. first_run E u2 s3. destruct (prepared touch s0 u2 s3 (fun _ => True)) as (Hc3 & (es & Ht3) & Hr3 & _); [apply stays_touch|within_auto|done|].
  rewrite bind_run in E. unfold gets in E. cbv beta iota in E. destruct (extract_lock_free _).
  - exists s3, u1. split_and!; [by rewrite Hc3|by exists es| |done|done]. rewrite Hr3. by split.
  - unfold on_report, modify in E. injection E as _ <-. cbn in Hend. by rewrite Hr3 in Hend.
Qed.

(** A snapshot that reached the end has sent all that waited, and its items are in. *)
Lemma snapshot_served mc s r s' : snapshot mc s = (Ok r, s') -> reached_end r = true -> served_all (to_do (i_conv s)) s s'.
Proof.
  intros Hrun Hend. destruct (under_lock _ _ _ _ Hrun Hend) as (s1 & [] & Hc1 & Ht1 & Hf & Hbody & Hr). clear Hrun. rewrite <- Hc1. apply (served_before _ _ s1); [done|].
  subst r. unfold extract_session_snapshot_locked in Hbody. first_run Hbody wait s2.
  destruct (prepared _ _ _ _ _ (stays_window s1) ltac:(unfold in_backoff_window, now; within_auto) E) as (Hc2 & Ht2 & Hr2 & _). clear E.
  destruct wait.
  { unfold bump, on_report in Hbody. rewrite bind_run in Hbody. unfold modify in Hbody. injection Hbody as <-. cbn in Hend.
    rewrite Hr2 in Hend. destruct Hf as [[_ [= _ _ _ He]] _]. by rewrite He in Hend. }
  first_run Hbody turns s3. destruct (prepared _ _ _ _ _ (stays_to_do s2) ltac:(unfold rows_after_cursor; within_auto) E) as (Hc3 & Ht3 & Hr3 & <-). clear E.
  rewrite <- Hc2. apply (served_before _ _ s2); [done|]. apply (served_before _ _ s3); [done|].
  assert (fresh (i_report s3)) as Hf3 by (by rewrite Hr3, Hr2). destruct (to_do (i_conv s2)) as [|t turns] eqn:Htodo.
  - unfold on_report, modify in Hbody. injection Hbody as <-. exists [], []. split_and!; [apply nothing_to_do|by apply adds_nil|constructor].
  - first_run Hbody u4 s4. first_run Hbody u5 s5. unfold mret, M_ret in Hbody. injection Hbody as <-.
    destruct (prepared _ _ _ _ _ (stays_cursor s4) ltac:(within_auto) E0) as (_ & Ht5 & Hr5 & _).
    eapply served_after; [|exact Ht5]. eapply run_chunks_served; [exact Hf3|exact E|]. by rewrite <- Hr5.
Qed.

(** ** A close that reached the end *)
Definition gone (c : conv) : Prop := buffer c = None /\ cursor c = None /\ backoff c = None.

Lemma clear_gone s a s' : buffer (i_conv s) = None -> cursor (i_conv s) = None -> clear_backoff s = (Ok a, s') -> gone (i_conv s').
Proof.
  intros Hb Hc Hrun. unfold clear_backoff in Hrun. first_run Hrun u0 s1.
  destruct (prepared _ _ _ _ _ (stays_touch s) ltac:(within_auto) E) as (Hc1 & _). unfold on_conv, modify in Hrun. injection Hrun as _ <-.
  unfold gone. cbn. by rewrite Hc1.
Qed.

Lemma removal_gone held turns s a s' : close_removal held turns s = (Ok a, s') -> reached_end (i_report s') = true -> gone (i_conv s').
Proof.
  unfold close_removal. intros Hrun Hend. first_run Hrun seen s1. clear E. first_run Hrun cur s2. clear E. first_run Hrun rows s3. clear E. first_run Hrun late s4. clear E.
  destruct late as [|t late]; [|unfold on_report, modify in Hrun; by injection Hrun as _ <-].
  first_run Hrun u5 s5. clear E. first_run Hrun archived s6. clear E. first_run Hrun u7 s7. clear E. first_run Hrun rows' s8. clear E.
  destruct (negb _); [unfold on_report, modify in Hrun; by injection Hrun as _ <-|].
  first_run Hrun u9 s9. clear E. first_run Hrun u10 s10. clear E. first_run Hrun u11 s11. unfold on_conv, modify in E. injection E as _ <-.
  first_run Hrun u12 s12. destruct (prepared _ _ _ _ _ (stays_touch _) ltac:(within_auto) E) as (Hc12 & _). clear E.
  first_run Hrun u13 s13. unfold on_conv, modify in E. injection E as _ <-. apply clear_gone in Hrun; [done|cbn; by rewrite Hc12|done].
Qed.

Lemma removal_adds held turns s : exists es, adds es s (close_removal held turns s).2.
Proof.
  assert (pres (within all_events any_report) (close_removal held turns)) as Hp.
  { unfold close_removal, archive_buffer, archive_batch. within_auto. }
  destruct (Hp s) as [(es & Ht & _) _]. by exists es.
Qed.

Lemma close_served s r s' : close_session s = (Ok r, s') -> reached_end r = true -> gone (i_conv s') /\ served_all (to_do (i_conv s)) s s'.
Proof.
  intros Hrun Hend. destruct (under_lock _ _ _ _ Hrun Hend) as (s1 & u1 & Hc1 & Ht1 & Hf & Hbody & Hr). clear Hrun. rewrite <- Hc1. subst r.
  enough (gone (i_conv s') /\ served_all (to_do (i_conv s1)) s1 s') as [? ?] by (split; [done|]; by apply (served_before _ _ s1)). clear s Hc1 Ht1.
  unfold Pipeline.close_session_locked in Hbody. first_run Hbody turns s2.
  destruct (prepared _ _ _ _ _ (stays_to_do s1) ltac:(unfold rows_after_cursor; within_auto) E) as (_ & Ht2 & Hr2 & <-). clear E.
  set (turns := to_do (i_conv s1)) in *. first_run Hbody u3 s3. first_run Hbody d s4. unfold gets in E0. injection E0 as <- <-.
  destruct (reached_end (i_report s3)) eqn:He3; cbn [negb] in Hbody; [|unfold mret, M_ret in Hbody; injection Hbody as _ <-; by rewrite He3 in Hend].
  assert (served_all turns s1 s3) as Hserved.
  { apply (served_before _ _ s2); [done|]. destruct turns as [|t l] eqn:Hturns.
    - unfold on_report, modify in E. injection E as _ <-. exists [], []. split_and!; [apply nothing_to_do|by apply adds_nil|constructor].
    - eapply run_chunks_served; [|exact E|done]. by rewrite Hr2. }
  first_run Hbody u5 s5. assert (pres same_report (meanwhile false)) as Hm by within_auto. destruct (Hm s3) as [(es5 & Ht5 & _) _]. rewrite E0 in Ht5. clear E0.
  first_run Hbody held s6. assert (pres same_report probe) as Hpr by within_auto. destruct (Hpr s5) as [(es6 & Ht6 & _) _]. rewrite E0 in Ht6. clear E0.
  split; [by eapply removal_gone|]. apply (served_after _ _ s3); [done|]. destruct (removal_adds held turns s6) as (es & Ht). rewrite Hbody in Ht.
  eexists. eapply adds_trans; [exact Ht5|]. eapply adds_trans; [exact Ht6|exact Ht].
Qed.

Lemma close_keeps x s : (forall t h c, safe x c (others t h c)) -> truthful x (i_conv s) -> kept x (i_conv s) -> kept x (i_conv (close_session s).2).
Proof.
  intros Hoth Ht Hk. set (G := fun s' => kept x (i_conv s')). change (G (close_session s).2).
  assert (forall s1, files_rel (safe x) s s1 -> G s1) as Hg by (intros s1 [_ Hs _]; by apply Hs).
  unfold Pipeline.close_session, reporting. apply (pres_then (files_rel (safe x))); [by apply files_on_report; apply _|done|]. intros [] s1 Hs1.
  assert (forall m : I unit, G (m s1).2 -> G ((m;; gets i_report) s1).2) as Hlast by (intros m; rewrite bind_run; by destruct (m s1) as [[a|e] s2]).
  apply Hlast. clear Hlast. unfold under_extract_lock.
  apply (pres_then (files_rel (safe x))); [by apply files_touch; apply _|intros s2 Hs2; apply Hg; by etrans|]. intros [] s2 Hs2.
  apply (pres_then (files_rel (safe x))); [by pres_auto|intros s3 Hs3; apply Hg; etrans; [exact Hs1|by etrans]|]. intros free s3 Hs3.
  assert (files_rel (safe x) s s3) as Hs by (etrans; [exact Hs1|by etrans]). clear s1 s2 Hs1 Hs2 Hs3.
  destruct free; [|exact (Hg s3 Hs)]. unfold Pipeline.close_session_locked.
  apply (pres_then (files_rel (safe x))); [by apply files_to_do; apply _|intros s4 Hs4; apply Hg; by etrans|]. intros turns s4 Hs4.
  apply (pres_then (files_rel (safe x))); [|intros s5 Hs5; apply Hg; etrans; [exact Hs|by etrans]|].
  { destruct turns; [by apply files_on_report; apply _|]. apply files_run_chunks; [apply _|by apply safe_cursor|by apply safe_backoff|exact Hoth]. }
  intros [] s5 Hs5. assert (files_rel (safe x) s s5) as Hs' by (etrans; [exact Hs|by etrans]). clear s3 s4 Hs Hs4 Hs5.
  apply (pres_then (files_rel (safe x))); [by pres_auto|intros s6 Hs6; apply Hg; by etrans|]. intros d s6 Hs6.
  destruct (negb d); [apply Hg; by etrans|].
  apply (pres_then (files_rel (safe x))); [apply files_meanwhile; [apply _|exact Hoth]|intros s7 Hs7; apply Hg; etrans; [exact Hs'|by etrans]|]. intros [] s7 Hs7.
  apply (pres_then (files_rel (safe x))); [by apply files_probe; apply _|intros s8 Hs8; apply Hg; do 2 (etrans; [eassumption|]); by etrans|]. intros held s8 Hs8.
  assert (files_rel (safe x) s s8) as [_ Hk8 Ht8] by (do 2 (etrans; [eassumption|]); by etrans).
  apply removal_keeps; [exact Hoth|by apply Ht8|by apply Hk8].
Qed.


(** ** The gate of a rollover *)
Abbreviation poison_unextracted_span := (poison_unextracted_span user_name persona_name chunk_chars).
Abbreviation extraction_allows_rollover :=
  (extraction_allows_rollover prompt_of sid user_name persona_name valid_emotions chunk_chars max_retries crystallize_threshold).

Lemma try_pass_ran s r s' : try_pass prompt_of sid user_name persona_name valid_emotions chunk_chars max_retries crystallize_threshold s = (Ok (Ran r), s') ->
  snapshot None s = (Ok r, s').
Proof.
  unfold try_pass, catch. rewrite bind_run. destruct (snapshot None s) as [[r'|e] s1]; [by intros [= <- <-]|].
  destruct e; cbn; unfold mret, M_ret; try (by intros [=]); repeat case_match; try by intros [=].
Qed.

Lemma completed_end r : completed r = true -> reached_end r = true.
Proof. unfold completed. by destruct (reached_end r). Qed.

End ends.


#[local] Existing Instance ascii_pylib.

(** A session whose first exchange was never extracted, after three failed passes. *)
Definition stuck : ingest :=
  {| i_conv := set_backoff (Some (JObj [(u "failures", JInt 3); (u "first_failure_at", JStr (u "2026-03-01T11:00:00Z"));
                                        (u "failing_end_ts", JStr (u "2026-03-01T10:00:01Z"))])) (i_conv talked);
     i_poison := None; i_since := None; i_souls := None; i_report := new_report; i_trace := [] |}.


Lemma quiet_safe x t h c : safe x c (@others quiet t h c).
Proof. done. Qed.


