(* ===== verification/PassFacts.v ===== *)
(** Theorems about [Rollover]: the compaction lock excludes as long as nobody reaps
    it, and does not when somebody does; a pass that runs alone is a sequential
    function of the session's files, and archives before it rewrites. *)
From S2P Require Import Prelude PyFloat PyTime Json Crypto Protocol PyVal ConnectCode JsonCut Jsonl Buffer Compaction Rollover RolloverFacts.

Section locks.
Context `{PyLib}.
Variable local_wall : Z -> res Z.
Variables summary_prompt fold_prompt condense_prompt : pystr -> pystr -> pystr -> Z -> Z -> pystr.
Variable persona_name : pystr.
Abbreviation step := (step local_wall summary_prompt fold_prompt condense_prompt persona_name).
Abbreviation sys_step := (sys_step local_wall summary_prompt fold_prompt condense_prompt persona_name).
Abbreviation sys_run := (sys_run local_wall summary_prompt fold_prompt condense_prompt persona_name).

(** ** Exclusion *)

(** The session whose compaction lock a thread has. *)
Fixpoint locked (p : place) : option pystr :=
  match p with
  | LkWrite w => Some (want_sid w)
  | PaRead p | PaCursor p _ | PaReread p _ | PaReplace p _ _ => Some (pa_sid p)
  | AcMarker a | AcAppend a _ | AcMark a _ =>
      match ac_then a with ThenPass p _ => Some (pa_sid p) | ThenRoll r _ _ => Some (ro_sid r) end
  | RoGuard r | RoRead r | RoDrop r _ _ | RoCursor r _ | RoSeed r _ _ | RoCarry r _ | RoPoint r
  | RoDelete r | RoDelCursor r | RoDelBackoff r => Some (ro_sid r)
  | FreeAppend _ q => locked q
  | Unlock sid _ => Some sid
  | _ => None
  end.

(** After the release a thread has no lock. *)
Fixpoint releases (p : place) : Prop :=
  match p with FreeAppend _ q => releases q | Unlock _ q => locked q = None | _ => True end.

Lemma after_pass_unlocked p o : locked (after_pass p o) = None.
Proof. unfold after_pass. by destruct (pa_after p). Qed.
Lemma lock_busy_unlocked w : locked (lock_busy w) = None.
Proof. destruct w; [apply after_pass_unlocked|done]. Qed.
Lemma lock_taken_locked w : locked (lock_taken w) = Some (want_sid w).
Proof. by destruct w. Qed.
Lemma archived_locked a : locked (archived a) = locked (AcMarker a).
Proof. unfold archived. cbn [locked]. by destruct (ac_then a). Qed.
Lemma archive_failed_locked a e : locked (archive_failed a e) = locked (AcMarker a).
Proof. unfold archive_failed. cbn [locked]. by destruct (ac_then a). Qed.
Lemma releases_unlocked p : locked p = None -> releases p.
Proof. by induction p. Qed.

Lemma archived_releases a : releases (archived a).
Proof. unfold archived. by destruct (ac_then a). Qed.
Lemma archive_failed_releases a e : releases (archive_failed a e).
Proof. unfold archive_failed. destruct (ac_then a); [apply after_pass_unlocked|done]. Qed.

Lemma step_releases i p r h p' h' : step i p r h = Some (p', h') -> releases p -> releases p'.
Proof.
  intros Hs Hr. step_cases Hs.
  all: try solve [done|by destruct w|apply after_pass_unlocked|apply releases_unlocked; auto using after_pass_unlocked, lock_busy_unlocked|
                  apply archived_releases|apply archive_failed_releases].
Qed.

Lemma append_archive_aside size_known rs cut (c c' : conv) : append_archive size_known rs cut c = Ok c' ->
  compacting c' = compacting c /\ buffer c' = buffer c.
Proof.
  unfold append_archive. destruct (no_rows rs); [by intros [= <-]|]. destruct (encode_jsonl false rs); [|done].
  cbn [mbind res_bind]. intros [= <-]. destruct (archive_target _ _ _); cbn; [done| |done]. by destruct (last (segments c)) as [[n f]|].
Qed.

(** What a step does to the compaction lock of a session. *)
Lemma step_lock i p r h p' h' sid : step i p r h = Some (p', h') -> (forall w, p <> LkUnlink w) ->
  compacting (conv_of sid h') = compacting (conv_of sid h) \/
  locked p' = Some sid /\ (exists l, compacting (conv_of sid h') = Some l /\ lk_owner l = i) /\
    (forall l, compacting (conv_of sid h) = Some l -> lk_owner l = i) \/
  (exists q, p = Unlock sid q) /\ compacting (conv_of sid h') = None.
Proof.
  intros Hs Hp. step_cases Hs; try (by left).
  all: repeat match goal with
       | H : rewrite_at _ _ _ = Ok _ |- _ => apply rewrite_at_put in H as ->
       | H : write_cursor _ _ = Ok _ |- _ => apply write_cursor_put in H as ->
       | H : write_rolled_to _ _ _ = Ok _ |- _ => apply write_rolled_to_put in H as [? ->]
       | H : append_archive _ _ _ _ = Ok _ |- _ => apply append_archive_aside in H as [? _]
       end.
  all: rewrite conv_of_put; match goal with |- context [decide (?a = ?b)] => destruct (decide (a = b)) as [Hsid|_]; [|by left] end.
  all: rewrite <- ?Hsid in *; try (by left).
  - right; left. split_and!; [done|by eexists|congruence].
  - right; left. match goal with H : bool_decide _ = true |- _ => apply bool_decide_eq_true in H end.
    split_and!; [apply lock_taken_locked|by eexists|congruence].
  - by destruct (Hp w).
  - right; left. split_and!; [done|by eexists|congruence].
  - right; right. split; [by eexists|done].
Qed.

Lemma step_locked i p r h p' h' sid : step i p r h = Some (p', h') -> releases p -> locked p' = Some sid ->
  (exists l, compacting (conv_of sid h') = Some l /\ lk_owner l = i) \/ locked p = Some sid /\ forall q, p <> Unlock sid q.
Proof.
  intros Hs Hr Hl. step_cases Hs.
  all: try solve [right; done|exfalso; revert Hl; rewrite ?after_pass_unlocked, ?lock_busy_unlocked; done].
  all: try solve [left; rewrite conv_of_put, decide_True by done; by eexists].
  all: right; split; [|done]; revert Hl; rewrite ?lock_taken_locked, ?archived_locked, ?archive_failed_locked; done.
Qed.

(** Every thread inside has the lock in its name. *)
Definition locks_ok (s : system) : Prop :=
  forall i p, threads s !! i = Some p -> releases p /\
  forall sid, locked p = Some sid -> exists l, compacting (conv_of sid (convs s)) = Some l /\ lk_owner l = i.

(** No lock is reaped. *)
Definition unreaped_move (m : move) (s : system) : bool :=
  match m with Turn i _ => match threads s !! i with Some (LkUnlink _) => false | _ => true end | _ => true end.

Fixpoint unreaped (ms : list move) (s : system) : bool :=
  match ms with
  | [] => true
  | m :: ms => unreaped_move m s && match sys_step m s with Some s' => unreaped ms s' | None => true end
  end.

Lemma locks_put sid' c' s l : locks_ok s -> compacting c' = compacting (conv_of sid' (convs s)) ->
  locks_ok {| convs := put sid' c' (convs s); threads := threads s; said := l; presented := presented s |}.
Proof.
  intros Hs Hc i p Hp. destruct (Hs i p Hp) as [Hr Hl]. split; [done|]. intros sid Hsid. cbn [convs]. rewrite conv_of_put.
  destruct (decide (sid' = sid)) as [<-|_]; [rewrite Hc|]; by apply Hl.
Qed.

Lemma locks_step m s s' : sys_step m s = Some s' -> unreaped_move m s = true -> locks_ok s -> locks_ok s'.
Proof.
  intros Hs Hu Hok. destruct m as [p|i r|i|turn fresh_id now_iso cut_|sid ts]; unfold Rollover.sys_step in Hs.
  - destruct (entry p) eqn:He; [|done]. injection Hs as <-. intros i q Hq. cbn in Hq.
    apply lookup_app_Some in Hq as [Hq|[_ Hq]]; [by apply Hok|]. destruct (i - length (threads s))%nat; [|done].
    injection Hq as <-. destruct p; try discriminate He; done.
  - destruct (threads s !! i) as [p|] eqn:Hi; [|done]. cbn [mbind option_bind] in Hs.
    destruct (step i p r (convs s)) as [[p' h']|] eqn:Hst; [|done]. cbn [mbind option_bind] in Hs. injection Hs as <-.
    assert (forall w, p <> LkUnlink w) as Hnot by (intros w ->; cbn [unreaped_move] in Hu; by rewrite Hi in Hu).
    destruct (Hok i p Hi) as [Hr Hl]. intros j q Hj. cbn [convs threads] in *.
    apply list_lookup_insert_Some in Hj as [(<- & <- & _)|(Hne & Hj)].
    + split; [by eapply step_releases|]. intros sid Hsid. destruct (step_locked _ _ _ _ _ _ _ Hst Hr Hsid) as [?|[Hp Hq]]; [done|].
      destruct (step_lock _ _ _ _ _ _ sid Hst Hnot) as [->|[(_ & ? & _)|[[q Hpq] _]]]; [by apply Hl|done|by destruct (Hq q)].
    + destruct (Hok j q Hj) as [Hrj Hlj]. split; [done|]. intros sid Hsid. destruct (Hlj sid Hsid) as (l & Hc & Ho).
      destruct (step_lock _ _ _ _ _ _ sid Hst Hnot) as [->|[(_ & _ & Hold)|[[q' ->] _]]]; [by exists l| |].
      * specialize (Hold l Hc). congruence.
      * destruct (Hl sid eq_refl) as (l' & Hc' & Ho'). congruence.
  - destruct (threads s !! i); [|done]. injection Hs as <-. intros j q Hj. cbn [convs threads] in *.
    apply list_lookup_insert_Some in Hj as [(_ & <- & _)|(Hne & Hj)]; [done|]. destruct (Hok j q Hj) as [Hr Hl]. split; [done|].
    intros sid Hsid. rewrite conv_of_release. cbv zeta. destruct (Hl sid Hsid) as (l & Hc & Ho). exists l. by destruct (bool_decide _).
  - destruct (say _ _ _ _ _) as [[h new]|] eqn:Hsay; [|done]. cbn [mbind option_bind] in Hs. injection Hs as <-.
    apply say_inv in Hsay as (sid & rec & _ & _ & -> & _). by apply locks_put.
  - destruct (write_cursor _ _) as [c|] eqn:Hw; [|done]. injection Hs as <-. apply write_cursor_put in Hw as ->. by apply locks_put.
Qed.

Lemma locks_run ms s s' : sys_run ms s = Some s' -> unreaped ms s = true -> locks_ok s -> locks_ok s'.
Proof.
  revert s. induction ms as [|m ms IH]; intros s Hs Hu Hok; [by injection Hs as <-|]. cbn [Rollover.sys_run] in Hs.
  cbn [unreaped] in Hu. apply andb_true_iff in Hu as [Hu1 Hu2]. destruct (sys_step m s) as [s1|] eqn:Hm; [|done].
  cbn [mbind option_bind] in Hs. eapply IH; [done..|]. by eapply locks_step.
Qed.

(** At most one thread has the compaction lock of a session. *)
Definition exclusive (s : system) : Prop :=
  forall i j p q sid, threads s !! i = Some p -> threads s !! j = Some q -> locked p = Some sid -> locked q = Some sid -> i = j.

(** C20: the compaction lock excludes.  In any run in which no lock is reaped (threads
    may fail, die and leave locks behind), at any moment at most one thread is
    between taking a session's lock and releasing it: no two passes or rollovers
    rewrite the same buffer at the same time. *)
Theorem lock_excludes ms s : sys_run ms nobody = Some s -> unreaped ms nobody = true -> exclusive s.
Proof.
  intros Hs Hu. unfold exclusive. intros i j p q sid Hi Hj Hp Hq. assert (locks_ok s) as Hok by (by eapply locks_run).
  destruct (proj2 (Hok i p Hi) sid Hp) as (l & Hl & Ho), (proj2 (Hok j q Hj) sid Hq) as (l' & Hl' & Ho'). congruence.
Qed.

(** ** One pass alone *)

(** [archive_once] as one function: the files after it, and whether it got to its end. *)
Definition archive_once (size_known : bool) (cut : option nat) (records : list json) (gen : Z) (c : conv) : conv * bool :=
  match archive_batch_key records gen with
  | Err _ => (c, false)
  | Ok key =>
      if bool_decide (read_archive_marker c = Some key) then (c, true)
      else match append_archive size_known records cut c with
           | Err _ => (c, false)
           | Ok c' => if bool_decide (is_Some cut) then (c', false) else (write_archive_marker key c', true)
           end
  end.

(** A whole pass as one function of the session's files, when every access works
    but for the archive append, which stops after [cut_] bytes if it fails. *)
Definition run_pass (p : pass) (r : readings) (cut_ : option nat) (c : conv) : outcome * conv :=
  match job_plan local_wall summary_prompt fold_prompt condense_prompt (pa_job p) (model r) persona_name (pa_sid p)
          (pa_now p) (read_session c) (read_cursor c) with
  | Err e => (Failed e, c)
  | Ok (inl no) => (PassNothing no, c)
  | Ok (inr pl) =>
      let '(c, ok) := if no_rows (pl_records pl) then (c, true) else archive_once (size_known r) cut_ (pl_records pl) (pl_gen pl) c in
      if negb ok then (PassArchiveFailed, c) else
      match rewrite_session_atomic (installed_rows pl (read_session c)) c with
      | Err e => (Failed e, c)
      | Ok c => (PassDone (pl_gen pl) (length (pl_removable pl)), c)
      end
  end.

(** A thread running alone until it is done. *)
Fixpoint alone (n : nat) (rd : place -> readings) (i : nat) (p : place) (h : home) : option (place * home) :=
  match p, n with
  | Done _, _ => Some (p, h)
  | _, O => None
  | _, S n => '(p', h') ← step i p (rd p) h; alone n rd i p' h'
  end.

(** The readings [r], with the archive append failing after [cut_] bytes. *)
Definition appends (r : readings) (cut_ : option nat) (p : place) : readings :=
  match p with
  | AcAppend _ _ => {| clock := clock r; fault := bool_decide (is_Some cut_); cut := default 0%nat cut_; size_known := size_known r;
                       seems_alive := seems_alive r; busy := busy r; extracted := extracted r; model := model r |}
  | _ => r
  end.

Lemma put_put sid c c' h : put sid c (put sid c' h) = put sid c h.
Proof. unfold put. by rewrite insert_insert_eq. Qed.

Lemma conv_of_put_eq sid c h : conv_of sid (put sid c h) = c.
Proof. by rewrite conv_of_put, decide_True. Qed.

Lemma append_archive_locked size_known rs cut l c :
  append_archive size_known rs cut (set_compacting l c) = (c' ← append_archive size_known rs cut c; mret (set_compacting l c')).
Proof.
  unfold append_archive. destruct (no_rows rs); [done|]. destruct (encode_jsonl false rs); [|done]. cbn [mbind res_bind].
  change (archive_target (set_compacting l c)) with (archive_target c). destruct (archive_target c _ _); cbn; [done| |done].
  by destruct (last (segments c)) as [[n f]|].
Qed.

Lemma unlock_done i n rd o sid h c : fault (rd (Unlock sid (Done o))) = false -> conv_of sid h = c ->
  alone (S n) rd i (Unlock sid (Done o)) h = Some (Done o, put sid (set_compacting None c) h).
Proof. intros Hf <-. cbn [alone]. unfold Rollover.step, lock_step. rewrite Hf. cbn [mbind option_bind]. by destruct n. Qed.

Lemma set_compacting_back l c : compacting c = None -> set_compacting None (set_compacting l c) = c.
Proof. destruct c; cbn. by intros ->. Qed.

Section alone.
Variables (p : pass) (r : readings) (cut_ : option nat) (i : nat).
Hypothesis Hafter : pa_after p = None.
Hypothesis Hfault : fault r = false.

Let rd := appends r cut_.
Let lk c := set_compacting (Some {| lk_owner := i; lk_written := true; lk_mtime := clock r |}) c.

Lemma pass_unlocks n o h c : conv_of (pa_sid p) h = lk c -> compacting c = None ->
  alone (S n) rd i (Unlock (pa_sid p) (Done o)) h = Some (Done o, put (pa_sid p) c h).
Proof. intros Hc Hn. erewrite unlock_done by done. unfold lk. by rewrite set_compacting_back. Qed.

Lemma alone_step n q q' h h' : (forall o, q <> Done o) -> step i q (rd q) h = Some (q', h') ->
  alone (S n) rd i q h = alone n rd i q' h'.
Proof. intros Hq Hs. cbn [alone]. rewrite Hs. by destruct q. Qed.

Lemma pass_rewrites n pl h c : conv_of (pa_sid p) h = lk c -> compacting c = None ->
  alone (S (S (S n))) rd i (PaReread p pl) h =
  let '(o, c') := match rewrite_session_atomic (installed_rows pl (read_session c)) c with
                  | Err e => (Failed e, c) | Ok c' => (PassDone (pl_gen pl) (length (pl_removable pl)), c') end in
  Some (Done o, put (pa_sid p) c' h).
Proof.
  intros Hc Hn. set (rows := installed_rows pl (read_session c)).
  erewrite (alone_step _ (PaReread p pl)); [|done|].
  2: { unfold Rollover.step, pass_step. change (rd _) with r. rewrite Hfault, Hc. reflexivity. }
  change (read_session (lk c)) with (read_session c). fold rows. clearbody rows.
  unfold rewrite_session_atomic. destruct (encode_jsonl false rows) as [b|e] eqn:He; cbn [mbind res_bind].
  - erewrite (alone_step _ (PaReplace p pl rows)); [|done|].
    2: { unfold Rollover.step, pass_step, rewrite_at, rewrite_session_atomic. change (rd _) with r. rewrite Hfault, He. reflexivity. }
    unfold after_pass. rewrite Hafter, Hc. rewrite (pass_unlocks n _ _ (set_buffer (Some (file_of rows)) c)); [|by rewrite conv_of_put_eq|done].
    by rewrite put_put.
  - erewrite (alone_step _ (PaReplace p pl rows)); [|done|].
    2: { unfold Rollover.step, pass_step, rewrite_at, rewrite_session_atomic. change (rd _) with r. rewrite Hfault, He. reflexivity. }
    unfold pass_raises. by rewrite (pass_unlocks n _ _ c).
Qed.

Lemma pass_archives n pl h c : conv_of (pa_sid p) h = lk c -> compacting c = None ->
  alone (S (S (S (S (S (S n)))))) rd i (AcMarker {| ac_sid := pa_sid p; ac_records := pl_records pl; ac_gen := pl_gen pl; ac_then := ThenPass p pl |}) h =
  let '(c, ok) := archive_once (size_known r) cut_ (pl_records pl) (pl_gen pl) c in
  let '(o, c') := if negb ok then (PassArchiveFailed, c) else
    match rewrite_session_atomic (installed_rows pl (read_session c)) c with
    | Err e => (Failed e, c) | Ok c' => (PassDone (pl_gen pl) (length (pl_removable pl)), c') end in
  Some (Done o, put (pa_sid p) c' h).
Proof.
  intros Hc Hn. set (a := {| ac_sid := pa_sid p; ac_records := pl_records pl; ac_gen := pl_gen pl; ac_then := ThenPass p pl |}).
  assert (forall m, archive_failed a m = Unlock (pa_sid p) (Done PassArchiveFailed)) as Hfail.
  { intros m. unfold archive_failed, after_pass. cbn [ac_then a]. by rewrite Hafter. }
  assert (archived a = PaReread p pl) as Harch by done.
  erewrite (alone_step _ (AcMarker a)); [|done|].
  2: { unfold Rollover.step, archive_step. change (rd _) with r. rewrite Hfault. cbn [ac_sid a]. rewrite Hc. reflexivity. }
  change (read_archive_marker (lk c)) with (read_archive_marker c). unfold archive_once. cbn [ac_records ac_gen a].
  destruct (archive_batch_key (pl_records pl) (pl_gen pl)) as [key|e].
  2: { rewrite Hfail. by apply pass_unlocks. }
  destruct (bool_decide (read_archive_marker c = Some key)).
  { rewrite Harch. by apply pass_rewrites. }
  assert (step i (AcAppend a key) (rd (AcAppend a key)) h =
    Some match append_archive (size_known r) (pl_records pl) cut_ c with
         | Err e => (archive_failed a e, h)
         | Ok c' => (if bool_decide (is_Some cut_) then archive_failed a OSError else AcMark a key, put (pa_sid p) (lk c') h)
         end) as Happ.
  { unfold Rollover.step, archive_step. cbn [ac_sid ac_records a]. rewrite Hc. unfold lk. rewrite append_archive_locked.
    change (size_known (rd (AcAppend a key))) with (size_known r). change (fault (rd (AcAppend a key))) with (bool_decide (is_Some cut_)).
    change (cut (rd (AcAppend a key))) with (default 0%nat cut_).
    replace (if bool_decide (is_Some cut_) then Some (default 0%nat cut_) else None) with cut_ by (by destruct cut_).
    by destruct (append_archive _ _ _ c). }
  destruct (append_archive (size_known r) (pl_records pl) cut_ c) as [c'|e] eqn:Hap.
  2: { rewrite (alone_step _ (AcAppend a key) _ _ _ ltac:(done) Happ), Hfail. by apply pass_unlocks. }
  assert (compacting c' = None) as Hn' by (by apply append_archive_aside in Hap as [-> _]).
  rewrite (alone_step _ (AcAppend a key) _ _ _ ltac:(done) Happ). destruct (bool_decide (is_Some cut_)).
  { rewrite Hfail. cbn [negb]. rewrite (pass_unlocks _ _ _ c'); [by rewrite put_put|by rewrite conv_of_put_eq|done]. }
  erewrite (alone_step _ (AcMark a key)); [|done|].
  2: { unfold Rollover.step, archive_step. change (rd _) with r. rewrite Hfault. cbn [ac_sid a]. rewrite conv_of_put_eq, put_put, Harch. reflexivity. }
  cbn [negb]. rewrite (pass_rewrites _ pl _ (write_archive_marker key c')); [|by rewrite conv_of_put_eq|done].
  destruct (rewrite_session_atomic _ _); by rewrite put_put.
Qed.
End alone.

(** C30: a pass that nothing disturbs is its sequential reading.  A compaction, a
    cascade or an emergency fold on a session whose lock is free comes to its end
    within ten accesses, and ends with the outcome, and leaves exactly the files,
    of: plan; archive the records, or fail with the rest untouched; re-read and
    install the rows; release the lock.  No other session is touched, and the
    lock is free again. *)
Theorem pass_alone p r cut_ i h :
  pa_after p = None -> fault r = false -> compacting (conv_of (pa_sid p) h) = None ->
  let c := conv_of (pa_sid p) h in
  alone 10 (appends r cut_) i (LkTry (WantPass p)) h =
  Some (Done (run_pass p r cut_ c).1, put (pa_sid p) (run_pass p r cut_ c).2 h).
Proof.
  intros Ha Hf Hn. cbv zeta. set (c := conv_of (pa_sid p) h) in *.
  set (lk := set_compacting (Some {| lk_owner := i; lk_written := true; lk_mtime := clock r |}) c).
  assert (alone 10 (appends r cut_) i (LkTry (WantPass p)) h =
    alone 7 (appends r cut_) i (PaCursor p (read_session c)) (put (pa_sid p) lk h)) as ->.
  { erewrite alone_step; [|done|]. 2: { unfold Rollover.step, lock_step. cbn [appends want_sid]. rewrite Hf. fold c. rewrite Hn. reflexivity. }
    erewrite alone_step; [|done|].
    2: { unfold Rollover.step, lock_step. cbn [appends want_sid]. rewrite Hf, conv_of_put_eq. cbn [compacting set_compacting lk_owner].
         rewrite bool_decide_eq_true_2, put_put by done. reflexivity. }
    erewrite alone_step; [|done|]. 2: { unfold Rollover.step, pass_step. cbn [appends lock_taken]. rewrite Hf, conv_of_put_eq. reflexivity. }
    reflexivity. }
  set (h1 := put (pa_sid p) lk h). assert (conv_of (pa_sid p) h1 = lk) as Hc1 by (apply conv_of_put_eq).
  unfold run_pass. set (plan_ := job_plan _ _ _ _ _ _ _ _ _ _ _).
  assert (step i (PaCursor p (read_session c)) (appends r cut_ (PaCursor p (read_session c))) h1 =
    Some (match plan_ with
          | Err e => pass_raises p e
          | Ok (inl no) => Unlock (pa_sid p) (after_pass p (PassNothing no))
          | Ok (inr pl) =>
              if no_rows (pl_records pl) then PaReread p pl
              else AcMarker {| ac_sid := pa_sid p; ac_records := pl_records pl; ac_gen := pl_gen pl; ac_then := ThenPass p pl |}
          end, h1)) as Hstep.
  { unfold Rollover.step, pass_step. cbn [appends]. by rewrite Hf, Hc1. }
  rewrite (alone_step r cut_ i 6 (PaCursor p (read_session c)) _ _ _ ltac:(done) Hstep). unfold after_pass. rewrite Ha.
  assert (forall c', put (pa_sid p) c' h1 = put (pa_sid p) c' h) as Hput by (intros; apply put_put).
  destruct plan_ as [[no|pl]|e].
  - rewrite (pass_unlocks p r cut_ i Hf 5 _ _ c) by done. by rewrite Hput.
  - destruct (no_rows (pl_records pl)).
    + rewrite (pass_rewrites p r cut_ i Ha Hf 3 pl _ c) by done. cbn [negb]. by destruct (rewrite_session_atomic _ _); rewrite Hput.
    + rewrite (pass_archives p r cut_ i Ha Hf 0 pl _ c) by done. destruct (archive_once _ _ _ _ _) as [c' []]; cbn [negb]; [|by rewrite Hput].
      by destruct (rewrite_session_atomic _ _); rewrite Hput.
  - unfold pass_raises. rewrite (pass_unlocks p r cut_ i Hf 5 _ _ c) by done. by rewrite Hput.
Qed.

Lemma archive_once_rows size_known cut_ records gen c :
  let '(c', ok) := archive_once size_known cut_ records gen c in
  buffer c' = buffer c /\ (exists added, read_archive c' = read_archive c ++ added) /\
  (ok = true -> read_archive c' = read_archive c ++ records \/
                (exists key, archive_batch_key records gen = Ok key /\ read_archive_marker c = Some key) /\ read_archive c' = read_archive c).
Proof.
  unfold archive_once. assert (exists added, read_archive c = read_archive c ++ added) as Hnone by (exists []; by rewrite app_nil_r).
  destruct (archive_batch_key records gen) as [key|]; [|done]. case_bool_decide as Hm; [split_and!; [done..|right; split; [by exists key|done]]|].
  destruct (append_archive size_known records cut_ c) as [c'|] eqn:Hap; [|done].
  assert (buffer c' = buffer c) as Hb by (by eapply append_archive_aside). apply append_archive_rows in Hap as ((added & Ha & Hadd) & _).
  case_bool_decide as Hcut; [split_and!; [done|by exists added|done]|]. split_and!; [done|by exists added|]. intros _. left.
  change (read_archive c' = read_archive c ++ records). rewrite Ha, Hadd; [done|]. destruct cut_; [|done]. by destruct Hcut.
Qed.

End locks.

(** ** The lock is not exclusive when it is reaped *)
Section race.
Context `{PyLib}.
Variable local_wall : Z -> res Z.
Variables summary_prompt fold_prompt condense_prompt : pystr -> pystr -> pystr -> Z -> Z -> pystr.
Variable persona_name : pystr.
Abbreviation sys_step := (sys_step local_wall summary_prompt fold_prompt condense_prompt persona_name).
Abbreviation sys_run := (sys_run local_wall summary_prompt fold_prompt condense_prompt persona_name).

(** No access fails, and the holder of a lock is judged alive exactly when it is. *)
Definition honest_move (m : move) (s : system) : bool :=
  match m with
  | Turn i r =>
      negb (fault r) &&
      match threads s !! i with
      | Some (LkPayload w) =>
          match compacting (conv_of (want_sid w) (convs s)) with
          | Some l => eqb (seems_alive r) (match threads s !! lk_owner l with Some Dead | None => false | _ => true end)
          | None => true
          end
      | _ => true
      end
  | _ => true
  end.

Fixpoint honest (ms : list move) (s : system) : bool :=
  match ms with
  | [] => true
  | m :: ms => honest_move m s && match sys_step m s with Some s' => honest ms s' | None => true end
  end.

Definition kills (ms : list move) : nat := length (List.filter (fun m => match m with Kill _ => true | _ => false end) ms).

Definition found (alive : bool) : readings :=
  {| clock := 0; fault := false; cut := 0; size_known := true; seems_alive := alive; busy := false; extracted := None;
     model := fun _ _ => Breaks |}.

Definition contenders (n : nat) : list move := repeat (Start (LkTry (WantPass demo_pass))) n.

(** The second thread reads the lock before its creator has written it. *)
Definition unwritten_race : list move :=
  let t i := Turn i (found true) in contenders 2 ++ [t 0; t 1; t 1; t 0; t 1; t 1; t 1]%nat.

(** Two threads find the lock of a dead one. *)
Definition dead_race : list move :=
  let t i := Turn i (found false) in
  contenders 3 ++ [t 0; t 0; Kill 0; t 1; t 2; t 1; t 2; t 1; t 1; t 1; t 2; t 2; t 2]%nat.

(** a reaped lock does not exclude.  Without a fault and without a crash two
    passes enter the critical section of one session: the second reads the lock
    file between its exclusive creation and the writing of its payload, takes it
    for a dead process's, and removes it.  And when one process did die with the
    lock, two others that find it dead both enter: the second removes the lock
    the first has just created. *)
Theorem reaped_lock_races :
  (exists s, sys_run unwritten_race nobody = Some s /\ honest unwritten_race nobody = true /\ kills unwritten_race = 0%nat /\
     threads s = [PaRead demo_pass; PaRead demo_pass]) /\
  (exists s, sys_run dead_race nobody = Some s /\ honest dead_race nobody = true /\ kills dead_race = 1%nat /\
     threads s = [Dead; PaRead demo_pass; PaRead demo_pass]).
Proof. split; eexists; (split; [vm_compute; reflexivity|]); split_and!; vm_compute; reflexivity. Qed.
End race.

#[local] Existing Instance ascii_pylib.

(** Two passes on one session, one inside and one turned away. *)
Definition demo_contention : list move := contenders 2 ++ repeat (Turn 0 (found true)) 3 ++ repeat (Turn 1 (found true)) 3.

Lemma lock_excludes_witness :
  exclusive (default nobody (sys_run (fun t => Ok t) no_prompt no_prompt no_prompt (u "N") demo_contention nobody)).
Proof.
  apply (lock_excludes (fun t => Ok t) no_prompt no_prompt no_prompt (u "N") demo_contention); vm_compute; reflexivity.
Defined.

(** The session of [demo_moves] before its pass. *)
Definition demo_ready : home :=
  match sys_run (fun t => Ok t) no_prompt no_prompt no_prompt (u "N") (take 4 demo_moves) nobody with Some s => convs s | None => ∅ end.

Lemma pass_alone_witness : exists h,
  alone (fun t => Ok t) no_prompt no_prompt no_prompt (u "N") 10 (appends demo_readings None) 0 (LkTry (WantPass demo_pass)) demo_ready =
  Some (Done (PassDone 1 2), h) /\ length (read_archive (conv_of (u "s") h)) = 2%nat.
Proof.
  eexists. rewrite (pass_alone (fun t => Ok t) no_prompt no_prompt no_prompt (u "N") demo_pass demo_readings None 0 demo_ready);
    [split; vm_compute; reflexivity|reflexivity..|vm_compute; reflexivity].
Defined.
