(* ===== verification/Throttle.v ===== *)
(** [brain/bridge/cli_throttle.py]: the process-global throttle of background
    model calls.  Every critical section ([with _lock]) is one atomic operation
    on the module's state; the functions compose the sections as the code does,
    and a system of threads interleaves them arbitrarily.  What a call reads from
    outside (the monotonic clock, the tunables file) is an argument, and may be
    an exception.  Theorems: the system refines a counting semaphore with reply
    priority, replies drain and waiters are released, a watch is exact, and a
    reply-start callback runs at most once and is never missed. *)
From S2P Require Import Prelude PyFloat PyTime Json Crypto Protocol PyVal.
From Stdlib Require Import Floats.SpecFloat.

(** ** The module's state *)

(** What leaves the module: a hook's callback, and its log lines. *)
Inductive event :=
| EvCallback (hook : nat)
| EvIdleError (key : pystr)                    (* logged in full *)
| EvIdleStillFailing (key : pystr) (suppressed : Z)
| EvIdleRecovered
| EvFailOpen                                   (* a slot-cap failure, reported available *)
| EvSeedFailed.

(** The module's globals; a hook is named by its creation number. *)
Record throttle := {
  last_message_mono : float;
  inflight_replies : Z;
  replies_started : Z;
  inflight_background : Z;
  start_hooks : list nat;
  fired : list nat;               (* the [_fired] flags of the hooks *)
  next_hook : nat;
  shutdown : bool;
  err_last_key : option pystr;
  err_last_logged_mono : float;
  err_suppressed_count : Z;
  out : list event;               (* newest first *)
}.

Definition minus_inf : float := S754_infinity true.

(** The module as imported. *)
Definition fresh_throttle : throttle :=
  {| last_message_mono := minus_inf; inflight_replies := 0; replies_started := 0;
     inflight_background := 0; start_hooks := []; fired := []; next_hook := 0; shutdown := false;
     err_last_key := None; err_last_logged_mono := minus_inf; err_suppressed_count := 0; out := [] |}.

Definition set_activity (t : float) (inflight started : Z) (s : throttle) : throttle :=
  {| last_message_mono := t; inflight_replies := inflight; replies_started := started;
     inflight_background := inflight_background s; start_hooks := start_hooks s; fired := fired s;
     next_hook := next_hook s; shutdown := shutdown s; err_last_key := err_last_key s;
     err_last_logged_mono := err_last_logged_mono s; err_suppressed_count := err_suppressed_count s;
     out := out s |}.

Definition set_background (n : Z) (s : throttle) : throttle :=
  {| last_message_mono := last_message_mono s; inflight_replies := inflight_replies s;
     replies_started := replies_started s; inflight_background := n; start_hooks := start_hooks s;
     fired := fired s; next_hook := next_hook s; shutdown := shutdown s; err_last_key := err_last_key s;
     err_last_logged_mono := err_last_logged_mono s; err_suppressed_count := err_suppressed_count s;
     out := out s |}.

Definition set_hooks (hooks fired_ : list nat) (next : nat) (s : throttle) : throttle :=
  {| last_message_mono := last_message_mono s; inflight_replies := inflight_replies s;
     replies_started := replies_started s; inflight_background := inflight_background s;
     start_hooks := hooks; fired := fired_; next_hook := next; shutdown := shutdown s;
     err_last_key := err_last_key s; err_last_logged_mono := err_last_logged_mono s;
     err_suppressed_count := err_suppressed_count s; out := out s |}.

Definition set_err (key : option pystr) (logged : float) (suppressed : Z) (s : throttle) : throttle :=
  {| last_message_mono := last_message_mono s; inflight_replies := inflight_replies s;
     replies_started := replies_started s; inflight_background := inflight_background s;
     start_hooks := start_hooks s; fired := fired s; next_hook := next_hook s; shutdown := shutdown s;
     err_last_key := key; err_last_logged_mono := logged; err_suppressed_count := suppressed;
     out := out s |}.

Definition set_shutdown (b : bool) (s : throttle) : throttle :=
  {| last_message_mono := last_message_mono s; inflight_replies := inflight_replies s;
     replies_started := replies_started s; inflight_background := inflight_background s;
     start_hooks := start_hooks s; fired := fired s; next_hook := next_hook s; shutdown := b;
     err_last_key := err_last_key s; err_last_logged_mono := err_last_logged_mono s;
     err_suppressed_count := err_suppressed_count s; out := out s |}.

Definition log (e : event) (s : throttle) : throttle :=
  {| last_message_mono := last_message_mono s; inflight_replies := inflight_replies s;
     replies_started := replies_started s; inflight_background := inflight_background s;
     start_hooks := start_hooks s; fired := fired s; next_hook := next_hook s; shutdown := shutdown s;
     err_last_key := err_last_key s; err_last_logged_mono := err_last_logged_mono s;
     err_suppressed_count := err_suppressed_count s; out := e :: out s |}.

Abbreviation T := (M throttle).

(** [try: m  except Exception as e: h e]. *)
Definition guarded {A} (m : T A) (h : exn -> T A) : T A :=
  catch m (fun e => if is_Exception e then Some (h e) else None).

(** [try: m  finally: f]. *)
Definition finally_ {A} (m : T A) (f : T unit) : T A := fun s =>
  let '(r, s1) := m s in
  match f s1 with
  | (Ok _, s2) => (r, s2)
  | (Err e, s2) => (Err e, s2)
  end.

(** What one call reads: [time.monotonic()] (and again, for the error log), the
    lull and the concurrency cap. *)
Record reads := { clock : res float; log_clock : res float; lull : res float; cap : res Z }.

Definition ERROR_LOG_INTERVAL_S : float := fofZ 600.

(** [time.monotonic() if now is None else now]. *)
Definition now_or (given : option float) (clock_ : res float) : T float :=
  match given with Some t => mret t | None => of_res clock_ end.

(** ** Shutdown *)
Definition request_shutdown : T unit := modify (set_shutdown true).
Definition clear_shutdown : T unit := modify (set_shutdown false).
Definition shutdown_requested : T bool := gets shutdown.

(** [reset], the tests' helper. *)
Definition reset : T unit := modify (fun s =>
  {| last_message_mono := minus_inf; inflight_replies := 0; replies_started := replies_started s;
     inflight_background := 0; start_hooks := []; fired := fired s; next_hook := next_hook s;
     shutdown := false; err_last_key := None; err_last_logged_mono := minus_inf;
     err_suppressed_count := 0; out := out s |}).

(** ** Replies *)
Definition mark_interactive_active (at_ : option float) (r : reads) : T unit :=
  t ← now_or at_ (clock r);
  modify (fun s => set_activity t (inflight_replies s) (replies_started s) s).

(** The section of [note_user_message]: the hooks to fire. *)
Definition start_reply (at_ : option float) (r : reads) : T (list nat) :=
  t ← now_or at_ (clock r);
  modify (fun s => set_activity t (inflight_replies s + 1) (replies_started s + 1) s);;
  gets start_hooks.

(** [_StartHook.fire]: the guard, then the callback (whose exceptions are
    swallowed). *)
Definition fire (h : nat) : T unit := modify (fun s =>
  if decide (h ∈ fired s) then s
  else log (EvCallback h) (set_hooks (start_hooks s) (h :: fired s) (next_hook s) s)).

Definition note_user_message (at_ : option float) (r : reads) : T unit :=
  hooks ← start_reply at_ r;
  for_each hooks fire.

Definition note_reply_end (at_ : option float) (r : reads) : T unit :=
  t ← now_or at_ (clock r);
  modify (fun s => set_activity t (Z.max 0 (inflight_replies s - 1)) (replies_started s) s).

(** [wait_for_no_reply_in_flight]: whether the waiter may go on. *)
Definition no_reply_in_flight : T bool := gets (fun s => inflight_replies s =? 0)%Z.
Definition reply_in_flight : T bool := gets (fun s => 0 <? inflight_replies s)%Z.

(** ** Watches *)
Record ReplyWatch := { w_started : Z; w_idle : bool }.

(** [reply_watch()]. *)
Definition reply_watch : T ReplyWatch := gets (fun s =>
  {| w_started := replies_started s; w_idle := (inflight_replies s =? 0)%Z |}).

(** [still_clear()]. *)
Definition still_clear (w : ReplyWatch) : T bool :=
  if negb (w_idle w) then mret false else gets (fun s => replies_started s =? w_started w)%Z.

(** The section of [on_reply_start] that registers the hook. *)
Definition add_hook : T nat :=
  h ← gets next_hook;
  modify (fun s => set_hooks (start_hooks s ++ [h]) (fired s) (S h) s);;
  mret h.

(** [_start_hooks.remove(hook)]. *)
Fixpoint remove_first (h : nat) (l : list nat) : list nat :=
  match l with
  | [] => []
  | x :: l' => if bool_decide (x = h) then l' else x :: remove_first h l'
  end.

Definition unregister (h : nat) : T unit :=
  modify (fun s => set_hooks (remove_first h (start_hooks s)) (fired s) (next_hook s) s).

(** [on_reply_start]: the hook, to be given to [unregister]. *)
Definition on_reply_start (w : ReplyWatch) : T nat :=
  h ← add_hook;
  clear ← still_clear w;
  (if negb clear then fire h else mret tt);;
  mret h.

(** ** Idleness *)
Definition time_since_last_message (now : option float) (r : reads) : T float :=
  t ← now_or now (clock r);
  gets (fun s => fsub t (last_message_mono s)).

Definition chat_activity_marker : T float := gets last_message_mono.

(** The section of [is_chat_idle]. *)
Definition read_activity (now : option float) (r : reads) : T (Z * float) :=
  t ← now_or now (clock r);
  gets (fun s => (inflight_replies s, fsub t (last_message_mono s))).

(** [inflight == 0 and elapsed >= _lull_seconds()]. *)
Definition judge (seen : Z * float) (r : reads) : res bool :=
  if (seen.1 =? 0)%Z then l ← lull r; mret (fle l seen.2) else mret false.

Definition note_is_chat_idle_recovery : T unit := modify (fun s =>
  let s' := set_err None (err_last_logged_mono s) 0 s in
  match err_last_key s with Some _ => log EvIdleRecovered s' | None => s' end).

Section idle.
(** [f"{type(exc).__name__}:{exc}"]. *)
Variable exn_key : exn -> pystr.

Definition log_is_chat_idle_error (e : exn) (r : reads) : T unit :=
  let key := exn_key e in
  now ← of_res (log_clock r);
  modify (fun s =>
    if bool_decide (Some key <> err_last_key s) then
      log (EvIdleError key) (set_err (Some key) now 0 s)
    else if fle ERROR_LOG_INTERVAL_S (fsub now (err_last_logged_mono s)) then
      log (EvIdleStillFailing key (err_suppressed_count s)) (set_err (err_last_key s) now 0 s)
    else set_err (err_last_key s) (err_last_logged_mono s) (err_suppressed_count s + 1) s).

(** The [except] clause of [is_chat_idle]. *)
Definition idle_failed (e : exn) (r : reads) : T bool :=
  guarded (log_is_chat_idle_error e r) (fun _ => mret tt);;
  mret false.

Definition is_chat_idle (now : option float) (r : reads) : T bool :=
  stop ← gets shutdown;
  if (stop : bool) then mret false else
  guarded
    (seen ← read_activity now r;
     idle ← of_res (judge seen r);
     note_is_chat_idle_recovery;;
     mret idle)
    (fun e => idle_failed e r).

Definition should_yield (now : option float) (r : reads) : T bool :=
  idle ← is_chat_idle now r; mret (negb idle).

(** ** Background slots *)
Definition slot_available (now : option float) (r : reads) : T bool :=
  guarded
    (idle ← is_chat_idle now r;
     if negb idle then mret false else
     c ← of_res (cap r);
     gets (fun s => inflight_background s <? c)%Z)
    (fun _ => modify (log EvFailOpen);; mret true).

(** The section of [acquire_background]. *)
Definition take_slot (r : reads) : T bool :=
  c ← of_res (cap r);
  n ← gets inflight_background;
  if (c <=? n)%Z then mret false else
  modify (set_background (n + 1));;
  mret true.

Definition acquire_background (now : option float) (r : reads) : T bool :=
  guarded
    (idle ← is_chat_idle now r;
     if negb idle then mret false else take_slot r)
    (fun _ => modify (log EvFailOpen);; mret true).

Definition release_background : T unit :=
  modify (fun s => set_background (Z.max 0 (inflight_background s - 1)) s).

(** [with background_slot() as granted: body(granted)]. *)
Definition background_slot {A} (now : option float) (r : reads) (body : bool -> T A) : T A :=
  acquired ← acquire_background now r;
  if negb acquired then body false else finally_ (body true) release_background.

End idle.

(** ** Seeding the anchor from the saved conversations *)
Section seed.
Context `{PyLib}.

(** [_parse_saved_ts]: an aware instant; a naive stamp is UTC. *)
Definition parse_saved_ts (raw : json) : res Z :=
  match raw with
  | JNull => Err ValueError
  | v => d ← fromisoformat (concat (map (fun c => if (c =? 90)%N then u "+00:00" else [c]) (py_str v)));
         mret (wall d - default 0 (offset d))%Z
  end.

(** One session's last row, as the strict tail read returns or raises it. *)
Definition newer_saved (newest : option Z) (tail : res (list json)) : res (option Z) :=
  rows ← tail;
  match rows with
  | [] => mret newest
  | row :: _ =>
      ts ← get_or (u "ts") JNull row;
      parsed ← parse_saved_ts ts;
      mret (match newest with
            | Some n => if (n <? parsed)%Z then Some parsed else Some n
            | None => Some parsed
            end)
  end.

Fixpoint newest_saved (newest : option Z) (tails : list (res (list json))) : res (option Z) :=
  match tails with
  | [] => mret newest
  | t :: tails => n ← newer_saved newest t; newest_saved n tails
  end.

(** [active]: the tail of every active session, or the failure of listing them. *)
Definition seed_last_message_from_active_conversations (active : res (list (res (list json))))
    (wall_now : Z) (now_mono : option float) (r : reads) : T unit :=
  mono_now ← now_or now_mono (clock r);
  match (tails ← active; newest_saved None tails) with
  | Err e =>
      if is_Exception e then
        modify (fun s => set_activity mono_now (inflight_replies s) (replies_started s) (log EvSeedFailed s))
      else raise e
  | Ok None => mret tt
  | Ok (Some newest) =>
      let elapsed := pymax f0 (total_seconds (wall_now - newest)) in
      modify (fun s => set_activity (fsub mono_now elapsed) (inflight_replies s) (replies_started s) s)
  end.
End seed.

(** ** Threads

    Where a thread is between two critical sections. *)
Inductive pc :=
(* a background runner in [background_slot] *)
| BgStart
| BgSeen (seen : Z * float)      (* the activity was read *)
| BgFailed (e : exn)             (* ... or reading it raised *)
| BgJudged (idle : bool)
| BgClear                        (* [is_chat_idle] returned True *)
| BgHolding (counted : bool)     (* in the body; [false]: allowed by the fail-open branch *)
| BgDone
(* a chat turn: [respond] *)
| ReplyStart
| ReplyFiring (hooks : list nat) (* [note_user_message] is firing the hooks it copied *)
| ReplyRunning
| ReplyDone
(* [wait_for_no_reply_in_flight] *)
| WaitStart
| WaitDone
(* a measurement: a watch, then [on_reply_start], then [unregister] *)
| WatchStart
| WatchTaken (w : ReplyWatch)
| WatchAdded (w : ReplyWatch) (h : nat)
| WatchFire (w : ReplyWatch) (h : nat)
| WatchOn (w : ReplyWatch) (h : nat)
| WatchOff (h : nat).

Definition initial_pc (p : pc) : bool :=
  match p with BgStart | ReplyStart | WaitStart | WatchStart => true | _ => false end.

Record system := { mem_ : throttle; threads : list pc }.

Section threads.
Variable exn_key : exn -> pystr.

(** The next critical section of a thread; [None]: it has none, or is blocked. *)
Definition thread_step (p : pc) (r : reads) (s : throttle) : option (pc * throttle) :=
  match p with
  | BgStart =>
      if shutdown s then Some (BgDone, s) else
      match read_activity None r s with
      | (Ok seen, s') => Some (BgSeen seen, s')
      | (Err e, s') => Some (BgFailed e, s')
      end
  | BgSeen seen =>
      match judge seen r with
      | Ok idle => Some (BgJudged idle, s)
      | Err e => Some (BgFailed e, s)
      end
  | BgFailed e => Some (BgDone, (idle_failed exn_key e r s).2)
  | BgJudged idle => Some (if idle then BgClear else BgDone, (note_is_chat_idle_recovery s).2)
  | BgClear =>
      match take_slot r s with
      | (Ok granted, s') => Some (if granted then BgHolding true else BgDone, s')
      | (Err _, s') => Some (BgHolding false, log EvFailOpen s')
      end
  | BgHolding _ => Some (BgDone, (release_background s).2)
  | ReplyStart =>
      match start_reply None r s with
      | (Ok hooks, s') => Some (ReplyFiring hooks, s')
      | (Err _, s') => Some (ReplyDone, s')
      end
  | ReplyFiring [] => Some (ReplyRunning, s)
  | ReplyFiring (h :: hooks) => Some (ReplyFiring hooks, (fire h s).2)
  | ReplyRunning => Some (ReplyDone, (note_reply_end None r s).2)
  | WaitStart => if (inflight_replies s =? 0)%Z then Some (WaitDone, s) else None
  | WatchStart =>
      match reply_watch s with
      | (Ok w, _) => Some (WatchTaken w, s)
      | (Err _, _) => None
      end
  | WatchTaken w =>
      match add_hook s with
      | (Ok h, s') => Some (WatchAdded w h, s')
      | (Err _, _) => None
      end
  | WatchAdded w h =>
      match still_clear w s with
      | (Ok clear, _) => Some (if clear then WatchOn w h else WatchFire w h, s)
      | (Err _, _) => None
      end
  | WatchFire w h => Some (WatchOn w h, (fire h s).2)
  | WatchOn w h => Some (WatchOff h, (unregister h s).2)
  | BgDone | ReplyDone | WaitDone | WatchOff _ => None
  end.

(** One event of the system: a thread appears, runs its next section with the
    given readings, or the bridge is told to stop. *)
Inductive move := Spawn (p : pc) | Run (t : nat) (r : reads) | Stop.

Definition sys_step (m : move) (sys : system) : option system :=
  match m with
  | Spawn p =>
      if initial_pc p then Some {| mem_ := mem_ sys; threads := threads sys ++ [p] |} else None
  | Run t r =>
      p ← threads sys !! t;
      '(p', s') ← thread_step p r (mem_ sys);
      Some {| mem_ := s'; threads := <[t := p']> (threads sys) |}
  | Stop => Some {| mem_ := (request_shutdown (mem_ sys)).2; threads := threads sys |}
  end.

Fixpoint sys_run (ms : list move) (sys : system) : option system :=
  match ms with
  | [] => Some sys
  | m :: ms => sys' ← sys_step m sys; sys_run ms sys'
  end.

Definition fresh_system : system := {| mem_ := fresh_throttle; threads := [] |}.
End threads.

(** ** Counting threads *)
Fixpoint tally {A} (f : A -> bool) (l : list A) : Z :=
  match l with [] => 0 | x :: l => Z.b2z (f x) + tally f l end.

Lemma tally_nonneg {A} (f : A -> bool) l : (0 <= tally f l)%Z.
Proof. induction l as [|x l IH]; simpl; [lia|]. destruct (f x); simpl; lia. Qed.

Lemma tally_app {A} (f : A -> bool) l k : tally f (l ++ k) = (tally f l + tally f k)%Z.
Proof. induction l as [|x l IH]; simpl; lia. Qed.

Lemma tally_insert {A} (f : A -> bool) l i x y :
  l !! i = Some x -> tally f (<[i := y]> l) = (tally f l - Z.b2z (f x) + Z.b2z (f y))%Z.
Proof.
  revert i. induction l as [|z l IH]; intros [|i] Hi; simplify_eq/=; [lia|]. rewrite (IH _ Hi). lia.
Qed.

Lemma tally_lookup {A} (f : A -> bool) l i x : l !! i = Some x -> f x = true -> (1 <= tally f l)%Z.
Proof.
  intros Hi Hx. apply list_elem_of_split_length in Hi as (l1 & l2 & -> & _).
  rewrite tally_app. simpl. rewrite Hx. pose proof (tally_nonneg f l1). pose proof (tally_nonneg f l2). simpl. lia.
Qed.

Lemma tally_zero {A} (f : A -> bool) l i x : tally f l = 0%Z -> l !! i = Some x -> f x = false.
Proof. intros H0 Hi. destruct (f x) eqn:Hx; [|done]. pose proof (tally_lookup f l i x Hi Hx). lia. Qed.

Lemma tally_fmap {A B} (f : B -> bool) (g : A -> B) l : tally f (g <$> l) = tally (fun x => f (g x)) l.
Proof. induction l as [|x l IH]; csimpl; [done|]. by rewrite IH. Qed.

Lemma tally_ext {A} (f g : A -> bool) l : (forall x, f x = g x) -> tally f l = tally g l.
Proof. intros Hfg. induction l as [|x l IH]; simpl; [done|]. by rewrite IH, Hfg. Qed.

(** ** What each section does to the counters *)
Definition holding (p : pc) : bool := match p with BgHolding _ => true | _ => false end.
Definition replying (p : pc) : bool := match p with ReplyFiring _ | ReplyRunning => true | _ => false end.
Definition uncounted (p : pc) : bool := match p with BgHolding false => true | _ => false end.

Definition same_counters (s s' : throttle) : Prop :=
  inflight_replies s' = inflight_replies s /\ inflight_background s' = inflight_background s /\
  replies_started s' = replies_started s /\ shutdown s' = shutdown s.

#[export] Instance same_counters_preorder : PreOrder same_counters.
Proof. split; [by intros ?|]. intros ??? (?&?&?&?) (?&?&?&?). split_and!; congruence. Qed.

Lemma same_fire h s : same_counters s (fire h s).2.
Proof. unfold fire. simpl. by case_decide. Qed.

Lemma same_recovery s : same_counters s (note_is_chat_idle_recovery s).2.
Proof. unfold note_is_chat_idle_recovery. simpl. by destruct (err_last_key s). Qed.

Section counters.
Variable exn_key : exn -> pystr.

Lemma same_idle_failed e r s : same_counters s (idle_failed exn_key e r s).2.
Proof.
  unfold idle_failed, guarded, log_is_chat_idle_error, catch. rewrite !bind_run. unfold of_res.
  destruct (log_clock r) as [t|e']; simpl.
  - case_bool_decide; simpl; [done|]. by destruct (fle _ _).
  - by destruct (is_Exception e').
Qed.

(** The readings of a run without a fault of the clock or of the cap tunable,
    and with no cap above [N]. *)
Definition sound_reads (N : Z) (r : reads) : Prop :=
  (exists t, clock r = Ok t) /\ exists c, cap r = Ok c /\ (c <= N)%Z.

Definition sound_move (N : Z) (m : move) : Prop :=
  match m with Run _ r => sound_reads N r | _ => True end.

Lemma thread_step_counters N p r s p' s' :
  sound_reads N r -> thread_step exn_key p r s = Some (p', s') ->
  (holding p = true -> 1 <= inflight_background s)%Z ->
  (replying p = true -> 1 <= inflight_replies s)%Z ->
  (inflight_background s' = inflight_background s - Z.b2z (holding p) + Z.b2z (holding p'))%Z /\
  (inflight_replies s' = inflight_replies s - Z.b2z (replying p) + Z.b2z (replying p'))%Z /\
  replies_started s' = (replies_started s + (match p with ReplyStart => 1 | _ => 0 end))%Z /\
  (uncounted p' = false) /\
  (holding p = false -> holding p' = true -> (inflight_background s < N)%Z) /\
  shutdown s' = shutdown s.
Proof.
  intros [[t Ht] (c & Hc & HN)] Hstep Hh Hr. destruct p; cbn [thread_step holding replying] in *; try done.
  - destruct (shutdown s) eqn:Es; simplify_eq; [split_and!; try done; simpl; lia|].
    unfold read_activity, now_or in Hstep. rewrite bind_run, Ht in Hstep. simpl in Hstep. simplify_eq.
    split_and!; simpl; try done; lia.
  - destruct (judge seen r) as [i|e]; simplify_eq; split_and!; simpl; try done; lia.
  - simplify_eq. destruct (same_idle_failed e r s) as (-> & -> & -> & ->). split_and!; simpl; try done; lia.
  - simplify_eq. destruct (same_recovery s) as (-> & -> & -> & ->). destruct idle; split_and!; simpl; try done; lia.
  - unfold take_slot in Hstep. rewrite bind_run, Hc in Hstep. cbn [of_res] in Hstep. rewrite bind_run in Hstep.
    cbn [gets] in Hstep. destruct (c <=? inflight_background s)%Z eqn:Ec; simplify_eq/=.
    + split_and!; simpl; try done; lia.
    + split_and!; simpl; try done; lia.
  - simplify_eq. specialize (Hh eq_refl). destruct counted; split_and!; simpl; try done; lia.
  - unfold start_reply, now_or in Hstep. rewrite bind_run, Ht in Hstep. simpl in Hstep. simplify_eq.
    split_and!; simpl; try done; lia.
  - destruct hooks as [|h hooks]; simplify_eq; [split_and!; simpl; try done; lia|].
    pose proof (same_fire h s) as (-> & -> & -> & ->). split_and!; simpl; try done; lia.
  - simplify_eq. specialize (Hr eq_refl). unfold note_reply_end, now_or. rewrite bind_run, Ht. simpl.
    split_and!; simpl; try done; lia.
  - destruct (inflight_replies s =? 0)%Z; simplify_eq. split_and!; simpl; try done; lia.
  - cbn in Hstep. simplify_eq. split_and!; simpl; try done; lia.
  - unfold add_hook in Hstep. munfold. simplify_eq. split_and!; simpl; try done; lia.
  - unfold still_clear in Hstep. destruct (negb (w_idle w)); simpl in Hstep; simplify_eq.
    + split_and!; simpl; try done; lia.
    + destruct (replies_started s' =? w_started w)%Z; split_and!; simpl; try done; lia.
  - simplify_eq. pose proof (same_fire h s) as (-> & -> & -> & ->). split_and!; simpl; try done; lia.
  - simplify_eq. split_and!; simpl; try done; lia.
Qed.
End counters.

(** ** The abstract specification: a semaphore of [N] slots with reply priority *)
Inductive role := Outside | Ready | Holder | Replying | Waiting.

Definition is_holder (r : role) : bool := match r with Holder => true | _ => false end.
Definition is_replying (r : role) : bool := match r with Replying => true | _ => false end.

Record sem := { stopped : bool; roles : list role }.

Definition become (t : nat) (r : role) (a : sem) : sem :=
  {| stopped := stopped a; roles := <[t := r]> (roles a) |}.

(** A reply is never held up; a slot is granted only to a party that found no
    reply in flight (and no stop) before, and only while fewer than [N] are
    held; a waiter wakes only when no reply is in flight. *)
Inductive sem_step (N : Z) : sem -> sem -> Prop :=
| Sem_skip a : sem_step N a a
| Sem_stop a : sem_step N a {| stopped := true; roles := roles a |}
| Sem_arrive a r : r = Outside \/ r = Waiting ->
    sem_step N a {| stopped := stopped a; roles := roles a ++ [r] |}
| Sem_ready a t : roles a !! t = Some Outside -> stopped a = false ->
    tally is_replying (roles a) = 0%Z -> sem_step N a (become t Ready a)
| Sem_give_up a t : roles a !! t = Some Ready -> sem_step N a (become t Outside a)
| Sem_grant a t : roles a !! t = Some Ready -> (tally is_holder (roles a) < N)%Z ->
    sem_step N a (become t Holder a)
| Sem_release a t : roles a !! t = Some Holder -> sem_step N a (become t Outside a)
| Sem_reply a t : roles a !! t = Some Outside -> sem_step N a (become t Replying a)
| Sem_reply_end a t : roles a !! t = Some Replying -> sem_step N a (become t Outside a)
| Sem_wake a t : roles a !! t = Some Waiting -> tally is_replying (roles a) = 0%Z ->
    sem_step N a (become t Outside a).

Definition role_of (p : pc) : role :=
  match p with
  | BgSeen seen => if (seen.1 =? 0)%Z then Ready else Outside
  | BgJudged true | BgClear => Ready
  | BgHolding _ => Holder
  | ReplyFiring _ | ReplyRunning => Replying
  | WaitStart => Waiting
  | _ => Outside
  end.

Definition abs (sys : system) : sem :=
  {| stopped := shutdown (mem_ sys); roles := role_of <$> threads sys |}.

(** The counters are the numbers of threads they stand for. *)
Definition counters_exact (sys : system) : Prop :=
  inflight_background (mem_ sys) = tally holding (threads sys) /\
  inflight_replies (mem_ sys) = tally replying (threads sys) /\
  tally uncounted (threads sys) = 0%Z.

Lemma tally_roles_holder l : tally is_holder (role_of <$> l) = tally holding l.
Proof.
  rewrite tally_fmap. apply tally_ext. intros p. destruct p as [|seen| |[]| | | | | | | | | | | | | | |]; try done.
  simpl. by destruct (seen.1 =? 0)%Z.
Qed.

Lemma tally_roles_replying l : tally is_replying (role_of <$> l) = tally replying l.
Proof.
  rewrite tally_fmap. apply tally_ext. intros p. destruct p as [|seen| |[]| | | | | | | | | | | | | | |]; try done.
  simpl. by destruct (seen.1 =? 0)%Z.
Qed.

Section refinement.
Variable exn_key : exn -> pystr.

Lemma counters_step N m sys sys' :
  sound_move N m -> sys_step exn_key m sys = Some sys' -> counters_exact sys -> counters_exact sys'.
Proof.
  intros Hm Hstep (Hb & Hr & Hu). destruct m as [p|t r|]; simpl in Hstep.
  - destruct (initial_pc p) eqn:Hp; simplify_eq. unfold counters_exact. simpl. rewrite !tally_app.
    rewrite Hb, Hr, Hu. destruct p; try done; simpl; lia.
  - destruct (threads sys !! t) as [p|] eqn:Ht; [|done]. simpl in Hstep.
    destruct (thread_step exn_key p r (mem_ sys)) as [[p' s']|] eqn:Hp; simplify_eq/=.
    destruct (thread_step_counters exn_key N p r (mem_ sys) p' s' Hm Hp) as (Eb & Er & _ & Eu & _).
    { intros Hh. rewrite Hb. by eapply tally_lookup. }
    { intros Hh. rewrite Hr. by eapply tally_lookup. }
    unfold counters_exact. simpl. rewrite !(tally_insert _ _ _ _ _ Ht), Eb, Er, Eu, Hb, Hr.
    split_and!; [lia|lia|]. rewrite (tally_zero _ _ _ _ Hu Ht), Hu. done.
  - simplify_eq. by split_and!.
Qed.

(** Which role a section moves a thread to. *)
Lemma thread_step_role N p r s p' s' :
  sound_reads N r -> thread_step exn_key p r s = Some (p', s') ->
  role_of p' = role_of p \/
  match role_of p, role_of p' with
  | Outside, Ready => shutdown s = false /\ inflight_replies s = 0%Z
  | Ready, Holder => (inflight_background s < N)%Z
  | Ready, Outside | Holder, Outside | Outside, Replying | Replying, Outside => True
  | Waiting, Outside => inflight_replies s = 0%Z
  | _, _ => False
  end.
Proof.
  intros [[t Ht] (c & Hc & HN)] Hstep. destruct p; cbn [thread_step] in Hstep; try done.
  - destruct (shutdown s) eqn:Es; simplify_eq; [by left|].
    unfold read_activity, now_or in Hstep. rewrite bind_run, Ht in Hstep. simpl in Hstep. simplify_eq. simpl.
    destruct (inflight_replies s' =? 0)%Z eqn:E0; [right|by left]. split; [done|lia].
  - unfold judge in Hstep. simpl. destruct (seen.1 =? 0)%Z; [|simpl in Hstep; simplify_eq; by left].
    destruct (lull r) as [l|e]; simpl in Hstep; simplify_eq; [|by right].
    destruct (fle l seen.2); [by left|by right].
  - simplify_eq. by left.
  - simplify_eq. by left; destruct idle.
  - unfold take_slot in Hstep. rewrite bind_run, Hc in Hstep. cbn [of_res] in Hstep. rewrite bind_run in Hstep.
    cbn [gets] in Hstep. destruct (c <=? inflight_background s)%Z eqn:Ec; simplify_eq/=; right; [done|]. simpl. lia.
  - simplify_eq. by right.
  - unfold start_reply, now_or in Hstep. rewrite bind_run, Ht in Hstep. simpl in Hstep. simplify_eq. by right.
  - destruct hooks; simplify_eq; by left.
  - simplify_eq. by right.
  - destruct (inflight_replies s =? 0)%Z eqn:E0; simplify_eq. right. simpl. lia.
  - destruct (reply_watch s) as [[w|] s0]; simplify_eq; by left.
  - destruct (add_hook s) as [[h|] s0]; simplify_eq; by left.
  - destruct (still_clear w s) as [[b|] s0]; simplify_eq. left. by destruct b.
  - simplify_eq. by left.
  - simplify_eq. by left.
Qed.

Lemma refines_step N m sys sys' :
  sound_move N m -> sys_step exn_key m sys = Some sys' -> counters_exact sys ->
  sem_step N (abs sys) (abs sys').
Proof.
  intros Hm Hstep (Hb & Hr & _). destruct m as [p|t r|]; simpl in Hstep.
  - destruct (initial_pc p) eqn:Hp; simplify_eq. unfold abs. simpl. rewrite fmap_app.
    apply Sem_arrive. destruct p; try done; simpl; auto.
  - destruct (threads sys !! t) as [p|] eqn:Ht; [|done]. simpl in Hstep.
    destruct (thread_step exn_key p r (mem_ sys)) as [[p' s']|] eqn:Hp; simplify_eq/=.
    assert (shutdown s' = shutdown (mem_ sys)) as Es.
    { eapply (thread_step_counters exn_key N p r); try done.
      - intros Hh. rewrite Hb. by eapply tally_lookup.
      - intros Hh. rewrite Hr. by eapply tally_lookup. }
    assert (roles (abs sys) !! t = Some (role_of p)) as Hl by (simpl; by rewrite list_lookup_fmap, Ht).
    assert (abs {| mem_ := s'; threads := <[t := p']> (threads sys) |} = become t (role_of p') (abs sys)) as ->.
    { unfold abs, become. simpl. by rewrite Es, list_fmap_insert. }
    rewrite <- tally_roles_holder in Hb. rewrite <- tally_roles_replying in Hr.
    destruct (thread_step_role N p r (mem_ sys) p' s' Hm Hp) as [E|Hrole].
    + rewrite E. assert (become t (role_of p) (abs sys) = abs sys) as ->.
      { unfold become, abs in *. simpl in *. by rewrite list_insert_id. }
      apply Sem_skip.
    + assert (inflight_replies (mem_ sys) = 0%Z -> tally is_replying (roles (abs sys)) = 0%Z) as H0 by (simpl; lia).
      destruct (role_of p), (role_of p'); try done.
      * destruct Hrole. by apply Sem_ready; auto.
      * by apply Sem_reply.
      * by apply Sem_give_up.
      * apply Sem_grant; [done|]. simpl. lia.
      * by apply Sem_release.
      * by apply Sem_reply_end.
      * by apply Sem_wake; auto.
  - simplify_eq. unfold abs. simpl. apply (Sem_stop N (abs sys)).
Qed.

Lemma sys_run_refines N ms sys sys' :
  Forall (sound_move N) ms -> sys_run exn_key ms sys = Some sys' -> counters_exact sys ->
  counters_exact sys' /\ rtc (sem_step N) (abs sys) (abs sys').
Proof.
  intros Hms. revert sys. induction Hms as [|m ms Hm Hms IH]; intros sys Hrun Hc; simpl in Hrun.
  - simplify_eq. split; [done|apply rtc_refl].
  - destruct (sys_step exn_key m sys) as [sys1|] eqn:Hstep; [|done]. simpl in Hrun.
    destruct (IH sys1 Hrun) as [Hc' Hr']; [by eapply counters_step|]. split; [done|].
    eapply rtc_l; [by eapply refines_step|done].
Qed.
End refinement.

Lemma fresh_exact : counters_exact fresh_system.
Proof. done. Qed.

(** The semaphore never gives out more than its slots. *)
Lemma sem_step_bound N a a' :
  sem_step N a a' -> (tally is_holder (roles a) <= Z.max 0 N)%Z -> (tally is_holder (roles a') <= Z.max 0 N)%Z.
Proof.
  intros Hstep Hb. destruct Hstep; simpl in *; rewrite ?tally_app;
    try (erewrite tally_insert by done); simpl; try done; try lia.
  destruct H as [-> | ->]; simpl; lia.
Qed.

Lemma sem_bound N a a' :
  rtc (sem_step N) a a' -> (tally is_holder (roles a) <= Z.max 0 N)%Z -> (tally is_holder (roles a') <= Z.max 0 N)%Z.
Proof. induction 1; eauto using sem_step_bound. Qed.

(** ** Replies drain *)

(** The sections a started reply still has to run. *)
Definition remaining (p : pc) : Z :=
  match p with ReplyFiring hooks => Z.of_nat (length hooks) + 2 | ReplyRunning => 1 | _ => 0 end.

Fixpoint work (l : list pc) : Z := match l with [] => 0 | p :: l => remaining p + work l end.

Lemma remaining_nonneg p : (0 <= remaining p)%Z.
Proof. destruct p; simpl; lia. Qed.

Lemma work_nonneg l : (0 <= work l)%Z.
Proof. induction l as [|p l IH]; simpl; [lia|]. pose proof (remaining_nonneg p). lia. Qed.

Lemma work_app l k : work (l ++ k) = (work l + work k)%Z.
Proof. induction l as [|p l IH]; simpl; lia. Qed.

Lemma work_insert l i p q :
  l !! i = Some p -> work (<[i := q]> l) = (work l - remaining p + remaining q)%Z.
Proof. revert i. induction l as [|z l IH]; intros [|i] Hi; simplify_eq/=; [lia|]. rewrite (IH _ Hi). lia. Qed.

Lemma work_zero l : work l = 0%Z -> tally replying l = 0%Z.
Proof.
  induction l as [|p l IH]; simpl; [done|]. intros H0. pose proof (remaining_nonneg p). pose proof (work_nonneg l).
  rewrite IH by lia. destruct p; simpl in *; lia.
Qed.

Lemma work_positive l : work l <> 0%Z -> exists t p, l !! t = Some p /\ replying p = true.
Proof.
  induction l as [|p l IH]; simpl; [done|]. intros H0. destruct (replying p) eqn:Hp.
  - by exists 0%nat, p.
  - destruct IH as (t & q & Ht & Hq); [|by exists (S t), q]. destruct p; simpl in *; done || lia.
Qed.

(** How many moves of a run are by a thread at a place [sel] selects. *)
Definition moves_from (sel : pc -> bool) (m : move) (sys : system) : Z :=
  match m with
  | Run t _ => match threads sys !! t with Some p => Z.b2z (sel p) | None => 0 end
  | _ => 0
  end.

Definition starting (p : pc) : bool := match p with ReplyStart => true | _ => false end.

Section drain.
Variable exn_key : exn -> pystr.

Fixpoint count_moves (sel : pc -> bool) (ms : list move) (sys : system) : Z :=
  match ms with
  | [] => 0
  | m :: ms => moves_from sel m sys
      + match sys_step exn_key m sys with Some sys' => count_moves sel ms sys' | None => 0 end
  end.

Lemma count_moves_nonneg sel ms sys : (0 <= count_moves sel ms sys)%Z.
Proof.
  revert sys. induction ms as [|m ms IH]; intros sys; simpl; [lia|].
  assert (0 <= moves_from sel m sys)%Z.
  { unfold moves_from. destruct m as [|t|]; try lia. destruct (threads sys !! t) as [p|]; [|lia]. destruct (sel p); simpl; lia. }
  destruct (sys_step exn_key m sys) as [sys'|]; [specialize (IH sys')|]; lia.
Qed.

Lemma thread_step_remaining p r s p' s' :
  thread_step exn_key p r s = Some (p', s') -> starting p = false ->
  remaining p' = (remaining p - Z.b2z (replying p))%Z.
Proof.
  intros Hstep Hs. destruct p; cbn [thread_step] in Hstep; try done;
    repeat match type of Hstep with
    | context [match ?x with _ => _ end] => destruct x; try discriminate Hstep
    end; simplify_eq/=; lia.
Qed.

Lemma started_step N m sys sys' :
  sound_move N m -> sys_step exn_key m sys = Some sys' -> counters_exact sys ->
  replies_started (mem_ sys') = (replies_started (mem_ sys) + moves_from starting m sys)%Z.
Proof.
  intros Hm Hstep (Hb & Hr & _). destruct m as [p|t r|]; simpl in Hstep.
  - destruct (initial_pc p); simplify_eq. simpl. lia.
  - simpl. destruct (threads sys !! t) as [p|] eqn:Ht; [|done]. simpl in Hstep.
    destruct (thread_step exn_key p r (mem_ sys)) as [[p' s']|] eqn:Hp; simplify_eq/=.
    destruct (thread_step_counters exn_key N p r (mem_ sys) p' s' Hm Hp) as (_ & _ & -> & _).
    { intros Hh. rewrite Hb. by eapply tally_lookup. }
    { intros Hh. rewrite Hr. by eapply tally_lookup. }
    by destruct p.
  - simplify_eq. simpl. lia.
Qed.

Lemma started_run N ms sys sys' :
  Forall (sound_move N) ms -> sys_run exn_key ms sys = Some sys' -> counters_exact sys ->
  replies_started (mem_ sys') = (replies_started (mem_ sys) + count_moves starting ms sys)%Z.
Proof.
  intros Hms. revert sys. induction Hms as [|m ms Hm Hms IH]; intros sys Hrun Hc; simpl in Hrun |- *.
  - simplify_eq. lia.
  - destruct (sys_step exn_key m sys) as [sys1|] eqn:Hstep; [|done]. simpl in Hrun.
    rewrite (IH sys1 Hrun) by (by eapply counters_step). rewrite (started_step N m sys sys1) by done. lia.
Qed.

Lemma work_step m sys sys' :
  sys_step exn_key m sys = Some sys' -> moves_from starting m sys = 0%Z ->
  work (threads sys') = (work (threads sys) - moves_from replying m sys)%Z.
Proof.
  intros Hstep Hns. destruct m as [p|t r|]; simpl in Hstep.
  - destruct (initial_pc p) eqn:Hp; simplify_eq. simpl. rewrite work_app. destruct p; try done; simpl; lia.
  - simpl in *. destruct (threads sys !! t) as [p|] eqn:Ht; [|done]. simpl in Hstep.
    destruct (thread_step exn_key p r (mem_ sys)) as [[p' s']|] eqn:Hp; simplify_eq/=.
    rewrite (work_insert _ _ _ _ Ht), (thread_step_remaining _ _ _ _ _ Hp); [lia|]. by destruct p.
  - simplify_eq. simpl. lia.
Qed.

Lemma work_run ms sys sys' :
  sys_run exn_key ms sys = Some sys' -> count_moves starting ms sys = 0%Z ->
  (work (threads sys') + count_moves replying ms sys)%Z = work (threads sys).
Proof.
  revert sys. induction ms as [|m ms IH]; intros sys Hrun Hns; simpl in Hrun, Hns |- *.
  - simplify_eq. lia.
  - destruct (sys_step exn_key m sys) as [sys1|] eqn:Hstep; [|done]. simpl in Hrun.
    assert (0 <= moves_from starting m sys)%Z.
    { unfold moves_from. destruct m as [|t|]; try lia. destruct (threads sys !! t) as [[]|]; simpl; lia. }
    pose proof (count_moves_nonneg starting ms sys1).
    specialize (IH sys1 Hrun ltac:(lia)). pose proof (work_step m sys sys1 Hstep ltac:(lia)). lia.
Qed.

Lemma reply_enabled p r s : replying p = true -> is_Some (thread_step exn_key p r s).
Proof. destruct p as [| | | | | | | |hooks| | | | | | | | | |]; try done. by destruct hooks. Qed.
End drain.

(** ** Reply-start callbacks *)
Definition callbacks (evs : list event) : list nat :=
  omap (fun e => match e with EvCallback h => Some h | _ => None end) evs.

(** The watch and hook of a thread between registering and unregistering. *)
Definition watching (p : pc) : option (ReplyWatch * nat) :=
  match p with WatchAdded w h | WatchFire w h | WatchOn w h => Some (w, h) | _ => None end.

Definition pending (p : pc) : list nat := match p with ReplyFiring hooks => hooks | _ => [] end.

Definition unbroken (w : ReplyWatch) (s : throttle) : Prop :=
  w_idle w = true /\ replies_started s = w_started w.

Lemma still_clear_spec w s : exists b, still_clear w s = (Ok b, s) /\ (b = true <-> unbroken w s).
Proof.
  unfold still_clear, unbroken. destruct (w_idle w); simpl.
  - exists (replies_started s =? w_started w)%Z. split; [done|]. rewrite Z.eqb_eq. naive_solver.
  - exists false. split; [done|]. naive_solver.
Qed.

(** Hook [h] was taken up by a reply's start (or by a watch no longer clear). *)
Definition taken_up (l : list pc) (s : throttle) (h : nat) : Prop :=
  h ∈ fired s \/ exists t p, l !! t = Some p /\ h ∈ pending p.

Record hooks_ok (s : throttle) (l : list pc) : Prop := {
  ho_fired : callbacks (out s) = fired s /\ NoDup (fired s);
  ho_fresh : Forall (fun h => h < next_hook s)%nat (start_hooks s) /\ NoDup (start_hooks s) /\
    forall h, taken_up l s h -> (h < next_hook s)%nat;
  ho_taken t w : l !! t = Some (WatchTaken w) -> (w_started w <= replies_started s)%Z;
  ho_watch t p w h : l !! t = Some p -> watching p = Some (w, h) ->
    h ∈ start_hooks s /\ (w_started w <= replies_started s)%Z;
  ho_early t p w h : l !! t = Some p -> watching p = Some (w, h) -> unbroken w s -> ~ taken_up l s h;
  ho_on t w h : l !! t = Some (WatchOn w h) -> unbroken w s \/ taken_up l s h;
  ho_late t w h : l !! t = Some (WatchFire w h) -> ~ unbroken w s;
  ho_unique t t' p p' w w' h : l !! t = Some p -> l !! t' = Some p' ->
    watching p = Some (w, h) -> watching p' = Some (w', h) -> t = t';
}.

Lemma taken_up_other l s h t p p' :
  l !! t = Some p -> taken_up (<[t := p']> l) s h -> taken_up l s h \/ h ∈ pending p'.
Proof.
  intros Ht [Hf|(t' & q & Hq & Hh)]; [by left; left|].
  apply list_lookup_insert_Some in Hq as [(<- & <- & _)|[Hne Hq]]; [by right|]. left. right. by exists t', q.
Qed.

Lemma taken_up_keep l s h t p p' :
  l !! t = Some p -> taken_up l s h -> (h ∈ pending p -> h ∈ fired s \/ h ∈ pending p') ->
  taken_up (<[t := p']> l) s h.
Proof.
  intros Ht [Hf|(t' & q & Hq & Hh)] Hp; [by left|].
  destruct (decide (t' = t)) as [->|Hne].
  - simplify_eq. destruct (Hp Hh); [by left|]. right. exists t, p'. split; [|done].
    apply list_lookup_insert_eq. by eapply lookup_lt_Some.
  - right. exists t', q. split; [|done]. by rewrite list_lookup_insert_ne.
Qed.

(** The parts of the state the hooks live in. *)
Definition hook_same (s s' : throttle) : Prop :=
  start_hooks s' = start_hooks s /\ fired s' = fired s /\ next_hook s' = next_hook s /\
  replies_started s' = replies_started s /\ callbacks (out s') = callbacks (out s).

Lemma taken_up_same s s' l h : fired s' = fired s -> taken_up l s' h <-> taken_up l s h.
Proof. unfold taken_up. by intros ->. Qed.

(** A section that is about no hook: the thread moves, the hooks stay. *)
Lemma hooks_quiet s s' l t p p' :
  hooks_ok s l -> l !! t = Some p -> hook_same s s' ->
  watching p' = None \/ (exists w h, watching p = Some (w, h) /\ watching p' = Some (w, h) /\
    (forall w' h', p' = WatchOn w' h' -> unbroken w s) /\ forall w' h', p' = WatchFire w' h' -> ~ unbroken w s) ->
  pending p' = pending p -> (forall w, p' = WatchTaken w -> (w_started w <= replies_started s)%Z) ->
  hooks_ok s' (<[t := p']> l).
Proof.
  intros [[Hc Hnd] (Hlt & Hnh & Htk) Hta Hw He Ho Hl Hu] Ht (E1 & E2 & E3 & E4 & E5) Hwp Hpp Htaken.
  assert (forall h, taken_up (<[t := p']> l) s' h <-> taken_up l s h) as Htu.
  { intros h. rewrite (taken_up_same s s') by done. split.
    - intros [H|H]%(taken_up_other _ _ _ _ _ _ Ht); [done|]. right. exists t, p. by rewrite <- Hpp.
    - intros H. eapply taken_up_keep; [done|done|]. rewrite Hpp. by right. }
  assert (forall w, unbroken w s' <-> unbroken w s) as Hcl by (intros w; unfold unbroken; by rewrite E4).
  assert (forall t' q w h, <[t := p']> l !! t' = Some q -> watching q = Some (w, h) ->
    exists q', l !! t' = Some q' /\ watching q' = Some (w, h)) as Hold.
  { intros t' q w h [(<- & <- & _)|[Hne Hq]]%list_lookup_insert_Some Hwq; [|by exists q].
    destruct Hwp as [?|(w0 & h0 & Hp & Hp' & _)]; simplify_eq. by exists p. }
  split.
  - by rewrite E5, E2.
  - rewrite E1, E3. split_and!; [done..|]. intros h. rewrite Htu. apply Htk.
  - intros t' w [(<- & Hq & _)|[Hne Hq]]%list_lookup_insert_Some; rewrite E4; eauto.
  - intros t' q w h Hq Hwq. destruct (Hold t' q w h Hq Hwq) as (q' & Hq' & Hwq'). rewrite E1, E4. by eapply Hw.
  - intros t' q w h Hq Hwq Hclr. destruct (Hold t' q w h Hq Hwq) as (q' & Hq' & Hwq').
    rewrite Htu. eapply He; [done..|]. by apply Hcl.
  - intros t' w h [(<- & Hq & _)|[Hne Hq]]%list_lookup_insert_Some; rewrite Htu, Hcl; [|by eapply Ho].
    destruct Hwp as [?|(w0 & h0 & Hp & Hp' & Hon & _)]; simplify_eq/=. left. eauto.
  - intros t' w h [(<- & Hq & _)|[Hne Hq]]%list_lookup_insert_Some; rewrite Hcl; [|by eapply Hl].
    destruct Hwp as [?|(w0 & h0 & Hp & Hp' & _ & Hoff)]; simplify_eq/=. eauto.
  - intros t1 t2 q1 q2 w1 w2 h Hq1 Hq2 Hw1 Hw2.
    destruct (Hold t1 q1 w1 h Hq1 Hw1) as (q1' & ? & ?), (Hold t2 q2 w2 h Hq2 Hw2) as (q2' & ? & ?). by eapply Hu.
Qed.

(** A reply starts: every registered hook is taken up. *)
Lemma hooks_reply_starts s s' l t p :
  hooks_ok s l -> l !! t = Some p -> watching p = None -> pending p = [] ->
  start_hooks s' = start_hooks s -> fired s' = fired s -> next_hook s' = next_hook s ->
  replies_started s' = (replies_started s + 1)%Z -> out s' = out s ->
  hooks_ok s' (<[t := ReplyFiring (start_hooks s)]> l).
Proof.
  intros [[Hc Hnd] (Hlt & Hnh & Htk) Hta Hw He Ho Hl Hu] Ht Hwp Hpp E1 E2 E3 E4 E5.
  set (p' := ReplyFiring (start_hooks s)).
  assert (forall h, taken_up (<[t := p']> l) s' h <-> taken_up l s h \/ h ∈ start_hooks s) as Htu.
  { intros h. rewrite (taken_up_same s s') by done. split.
    - intros [H|H]%(taken_up_other _ _ _ _ _ _ Ht); auto.
    - intros [H|H]; [eapply taken_up_keep; [done|done|]; rewrite Hpp; intros ?%not_elem_of_nil; done|].
      right. exists t, p'. split; [apply list_lookup_insert_eq; by eapply lookup_lt_Some|done]. }
  assert (forall t' q w h, <[t := p']> l !! t' = Some q -> watching q = Some (w, h) -> l !! t' = Some q) as Hold.
  { by intros t' q w h [(<- & <- & _)|[Hne Hq]]%list_lookup_insert_Some Hwq. }
  split.
  - by rewrite E5, E2.
  - rewrite E1, E3. split_and!; [done..|]. intros h [H|H]%Htu; [by apply Htk|]. by eapply Forall_forall in Hlt.
  - intros t' w [(_ & Hq & _)|[Hne Hq]]%list_lookup_insert_Some; [done|]. rewrite E4. specialize (Hta _ _ Hq). lia.
  - intros t' q w h Hq Hwq. rewrite E1, E4. destruct (Hw t' q w h) as [? ?]; [by eapply Hold|done|]. split; [done|lia].
  - intros t' q w h Hq Hwq [_ Hst]. destruct (Hw t' q w h) as [? ?]; [by eapply Hold|done|]. lia.
  - intros t' w h Hq. right. apply Htu. right. eapply (Hw t' (WatchOn w h)); [by eapply Hold|done].
  - intros t' w h Hq [_ Hst]. destruct (Hw t' (WatchFire w h) w h) as [? ?]; [by eapply Hold|done|]. lia.
  - intros t1 t2 q1 q2 w1 w2 h Hq1 Hq2 Hw1 Hw2. eapply Hu; [by eapply Hold|by eapply Hold|done|done].
Qed.

Lemma fire_effect h s :
  let s' := (fire h s).2 in
  start_hooks s' = start_hooks s /\ next_hook s' = next_hook s /\ replies_started s' = replies_started s /\
  (forall k, k ∈ fired s' <-> k = h \/ k ∈ fired s) /\
  (callbacks (out s) = fired s -> NoDup (fired s) -> callbacks (out s') = fired s' /\ NoDup (fired s')).
Proof.
  unfold fire. simpl. case_decide as Hd; simpl.
  - split_and!; [done..| |done]. intros k. split; [by right|]. by intros [->|].
  - split_and!; [done..| |].
    { intros k. by rewrite elem_of_cons. } intros -> Hnd. split; [done|]. by constructor.
Qed.

(** A hook that was taken up runs: the thread [t] drops it, or registered it on
    a watch that is no longer clear. *)
Lemma hooks_fire s l t p p' h :
  hooks_ok s l -> l !! t = Some p -> (h < next_hook s)%nat ->
  (watching p = None /\ watching p' = None /\ pending p = h :: pending p') \/
  (exists w, p = WatchFire w h /\ p' = WatchOn w h /\ ~ unbroken w s) ->
  (forall w, p' <> WatchTaken w) ->
  (forall t' q w, l !! t' = Some q -> watching q = Some (w, h) -> ~ unbroken w s) ->
  hooks_ok (fire h s).2 (<[t := p']> l).
Proof.
  intros [[Hc Hnd] (Hlt & Hnh & Htk) Hta Hw He Ho Hl Hu] Ht Hh Hp Hnt Hncl.
  destruct (fire_effect h s) as (E1 & E3 & E4 & Ef & Ec). set (s' := (fire h s).2) in *.
  assert (forall k, taken_up (<[t := p']> l) s' k <-> taken_up l s k \/ k = h) as Htu.
  { intros k. split.
    - intros [H|(t' & q & Hq & Hk)].
      + apply Ef in H as [->|H]; [by right|left; by left].
      + apply list_lookup_insert_Some in Hq as [(<- & <- & _)|[Hne Hq]].
        * left. right. exists t, p. split; [done|]. destruct Hp as [(_ & _ & ->)|(w & -> & -> & _)]; [by right|done].
        * left. right. by exists t', q.
    - intros [[H|(t' & q & Hq & Hk)]| ->].
      + left. apply Ef. by right.
      + destruct (decide (t' = t)) as [->|Hne].
        * simplify_eq. destruct Hp as [(_ & _ & Ep)|(w & -> & -> & _)]; [|by apply not_elem_of_nil in Hk].
          rewrite Ep in Hk. apply elem_of_cons in Hk as [->|Hk]; [left; apply Ef; by left|].
          right. exists t, p'. split; [apply list_lookup_insert_eq; by eapply lookup_lt_Some|done].
        * right. exists t', q. split; [by rewrite list_lookup_insert_ne|done].
      + left. apply Ef. by left. }
  assert (forall w, unbroken w s' <-> unbroken w s) as Hcl by (intros w; unfold unbroken; by rewrite E4).
  assert (forall t' q w k, <[t := p']> l !! t' = Some q -> watching q = Some (w, k) ->
    exists q', l !! t' = Some q' /\ watching q' = Some (w, k)) as Hold.
  { intros t' q w k [(<- & <- & _)|[Hne Hq]]%list_lookup_insert_Some Hwq; [|by exists q].
    destruct Hp as [(_ & ? & _)|(w0 & -> & -> & _)]; simplify_eq/=. by eexists. }
  split.
  - by apply Ec.
  - rewrite E1, E3. split_and!; [done..|]. intros k [H| ->]%Htu; [by apply Htk|done].
  - intros t' w [(_ & Hq & _)|[Hne Hq]]%list_lookup_insert_Some; [by destruct (Hnt w)|]. rewrite E4. eauto.
  - intros t' q w k Hq Hwq. destruct (Hold t' q w k Hq Hwq) as (q' & Hq' & Hwq'). rewrite E1, E4. by eapply Hw.
  - intros t' q w k Hq Hwq Hclr. destruct (Hold t' q w k Hq Hwq) as (q' & Hq' & Hwq'). apply Hcl in Hclr.
    intros [H| ->]%Htu; [by eapply He|]. by eapply Hncl.
  - intros t' w k [(<- & Hq & _)|[Hne Hq]]%list_lookup_insert_Some; rewrite Htu, Hcl.
    + destruct Hp as [(_ & ? & _)|(w0 & -> & -> & _)]; simplify_eq/=. by right; right.
    + destruct (Ho t' w k Hq); tauto.
  - intros t' w k [(_ & Hq & _)|[Hne Hq]]%list_lookup_insert_Some; rewrite Hcl; [|by eapply Hl].
    destruct Hp as [(_ & ? & _)|(w0 & _ & -> & _)]; simplify_eq/=.
  - intros t1 t2 q1 q2 w1 w2 k Hq1 Hq2 Hw1 Hw2.
    destruct (Hold t1 q1 w1 k Hq1 Hw1) as (q1' & ? & ?), (Hold t2 q2 w2 k Hq2 Hw2) as (q2' & ? & ?). by eapply Hu.
Qed.

Lemma hooks_add s l t w :
  hooks_ok s l -> l !! t = Some (WatchTaken w) ->
  hooks_ok (set_hooks (start_hooks s ++ [next_hook s]) (fired s) (S (next_hook s)) s)
    (<[t := WatchAdded w (next_hook s)]> l).
Proof.
  intros [[Hc Hnd] (Hlt & Hnh & Htk) Hta Hw He Ho Hl Hu] Ht. set (h := next_hook s) in *.
  set (p' := WatchAdded w h). set (s' := set_hooks _ _ _ _).
  assert (forall k, taken_up (<[t := p']> l) s' k <-> taken_up l s k) as Htu.
  { intros k. rewrite (taken_up_same s s') by done. split.
    - intros [H|H]%(taken_up_other _ _ _ _ _ _ Ht); [done|]. by apply not_elem_of_nil in H.
    - intros H. eapply taken_up_keep; [done|done|]. by intros H'%not_elem_of_nil. }
  assert (forall k, k ∈ start_hooks s -> (k < h)%nat) as Hlt' by (by apply Forall_forall).
  assert (forall t' q w' k, <[t := p']> l !! t' = Some q -> watching q = Some (w', k) ->
    (t' = t /\ w' = w /\ k = h) \/ (t' <> t /\ l !! t' = Some q)) as Hold.
  { intros t' q w' k [(<- & <- & _)|[Hne Hq]]%list_lookup_insert_Some Hwq; simplify_eq/=; auto. }
  split.
  - done.
  - simpl. split_and!.
    + apply Forall_app. split; [|constructor; [|constructor]; lia]. eapply Forall_impl; [done|]. simpl. lia.
    + apply NoDup_app. split_and!; [done| |apply NoDup_singleton]. intros k Hk%Hlt' ->%list_elem_of_singleton. lia.
    + intros k H%Htu%Htk. lia.
  - intros t' w' [(_ & Hq & _)|[Hne Hq]]%list_lookup_insert_Some; [done|]. eauto.
  - intros t' q w' k Hq Hwq. destruct (Hold _ _ _ _ Hq Hwq) as [(-> & -> & ->)|[Hne Hq']]; simpl.
    + split; [apply elem_of_app; right; by apply list_elem_of_singleton|]. eauto.
    + destruct (Hw t' q w' k Hq' Hwq). split; [|done]. apply elem_of_app. by left.
  - intros t' q w' k Hq Hwq Hclr. rewrite Htu.
    destruct (Hold _ _ _ _ Hq Hwq) as [(-> & -> & ->)|[Hne Hq']].
    + intros H%Htk. lia.
    + by eapply He.
  - intros t' w' k [(_ & Hq & _)|[Hne Hq]]%list_lookup_insert_Some; [done|]. rewrite Htu. by eapply Ho.
  - intros t' w' k [(_ & Hq & _)|[Hne Hq]]%list_lookup_insert_Some; [done|]. by eapply (Hl t').
  - intros t1 t2 q1 q2 w1 w2 k Hq1 Hq2 Hw1 Hw2.
    destruct (Hold _ _ _ _ Hq1 Hw1) as [(-> & -> & ->)|[Hne1 Hq1']],
      (Hold _ _ _ _ Hq2 Hw2) as [(-> & -> & ?)|[Hne2 Hq2']]; [done| | |by eapply Hu].
    + destruct (Hw _ _ _ _ Hq2' Hw2) as [H _]. apply Hlt' in H. lia.
    + subst. destruct (Hw _ _ _ _ Hq1' Hw1) as [H _]. apply Hlt' in H. lia.
Qed.

Lemma remove_first_spec h l : NoDup l -> NoDup (remove_first h l) /\ forall k, k ∈ remove_first h l <-> k ∈ l /\ k <> h.
Proof.
  induction l as [|x l IH]; intros Hnd; simpl; [split; [done|]; set_solver|].
  apply NoDup_cons in Hnd as [Hx Hnd]. destruct (IH Hnd) as [IH1 IH2]. case_bool_decide as E.
  - subst. split; [done|]. set_solver.
  - split; [constructor; [by rewrite IH2; intros [? _]|done]|]. intros k. rewrite !elem_of_cons, IH2. naive_solver.
Qed.

Lemma hooks_remove s l t w h :
  hooks_ok s l -> l !! t = Some (WatchOn w h) ->
  hooks_ok (set_hooks (remove_first h (start_hooks s)) (fired s) (next_hook s) s) (<[t := WatchOff h]> l).
Proof.
  intros [[Hc Hnd] (Hlt & Hnh & Htk) Hta Hw He Ho Hl Hu] Ht.
  set (p' := WatchOff h). set (s' := set_hooks _ _ _ _).
  destruct (remove_first_spec h (start_hooks s) Hnh) as [Hr1 Hr2].
  assert (forall k, taken_up (<[t := p']> l) s' k <-> taken_up l s k) as Htu.
  { intros k. rewrite (taken_up_same s s') by done. split.
    - intros [H|H]%(taken_up_other _ _ _ _ _ _ Ht); [done|]. by apply not_elem_of_nil in H.
    - intros H. eapply taken_up_keep; [done|done|]. by intros H'%not_elem_of_nil. }
  assert (forall t' q w' k, <[t := p']> l !! t' = Some q -> watching q = Some (w', k) -> t' <> t /\ l !! t' = Some q) as Hold.
  { intros t' q w' k [(<- & <- & _)|[Hne Hq]]%list_lookup_insert_Some Hwq; simplify_eq/=; auto. }
  split.
  - done.
  - simpl. split_and!; [|done|].
    + apply Forall_forall. intros k [Hk _]%Hr2. by eapply Forall_forall in Hlt.
    + intros k H%Htu%Htk. lia.
  - intros t' w' [(_ & Hq & _)|[Hne Hq]]%list_lookup_insert_Some; [done|]. eauto.
  - intros t' q w' k Hq Hwq. destruct (Hold _ _ _ _ Hq Hwq) as [Hne Hq'].
    destruct (Hw t' q w' k Hq' Hwq). split; [|done]. simpl. apply Hr2. split; [done|]. intros ->.
    by destruct Hne; eapply Hu.
  - intros t' q w' k Hq Hwq Hclr. rewrite Htu. destruct (Hold _ _ _ _ Hq Hwq) as [Hne Hq']. by eapply He.
  - intros t' w' k [(_ & Hq & _)|[Hne Hq]]%list_lookup_insert_Some; [done|]. rewrite Htu. by eapply Ho.
  - intros t' w' k [(_ & Hq & _)|[Hne Hq]]%list_lookup_insert_Some; [done|]. by eapply (Hl t').
  - intros t1 t2 q1 q2 w1 w2 k Hq1 Hq2 Hw1 Hw2.
    destruct (Hold _ _ _ _ Hq1 Hw1) as [_ ?], (Hold _ _ _ _ Hq2 Hw2) as [_ ?]. by eapply Hu.
Qed.

Lemma hooks_spawn s l p : initial_pc p = true -> hooks_ok s l -> hooks_ok s (l ++ [p]).
Proof.
  intros Hp [Hf (Hlt & Hnh & Htk) Hta Hw He Ho Hla Hu].
  assert (forall t q, (l ++ [p]) !! t = Some q -> l !! t = Some q \/ (t = length l /\ q = p)) as Hl.
  { intros t q [?|[Hlen Hq]]%lookup_app_Some; [by left|]. apply list_lookup_singleton_Some in Hq as [Hq ->].
    right. split; [lia|done]. }
  assert (watching p = None /\ pending p = []) as [Hwp Hpp] by (by destruct p).
  assert (forall h, taken_up (l ++ [p]) s h <-> taken_up l s h) as Htu.
  { intros h. split; (intros [H|(t & q & Hq & Hh)]; [by left|]).
    - destruct (Hl _ _ Hq) as [H|[_ ->]]; [right; by exists t, q|]. rewrite Hpp in Hh. by apply not_elem_of_nil in Hh.
    - right. exists t, q. split; [by apply lookup_app_l_Some|done]. }
  assert (forall t q w h, (l ++ [p]) !! t = Some q -> watching q = Some (w, h) -> l !! t = Some q) as Hold.
  { intros t q w h Hq Hwq. destruct (Hl _ _ Hq) as [H|[_ ->]]; [done|congruence]. }
  split; [done| | | | | | |].
  - split_and!; [done..|]. intros h. rewrite Htu. apply Htk.
  - intros t w Hq. destruct (Hl _ _ Hq) as [H|[_ <-]]; [eauto|done].
  - intros t q w h Hq Hwq. by eapply Hw; [eapply Hold|].
  - intros t q w h Hq Hwq Hc. rewrite Htu. by eapply He; [eapply Hold| |].
  - intros t w h Hq. rewrite Htu. by eapply Ho, Hold.
  - intros t w h Hq. by eapply Hla, Hold.
  - intros t t' q q' w w' h H1 H2 H3 H4. eapply Hu; [by eapply Hold|by eapply Hold|done|done].
Qed.

Section hook_runs.
Variable exn_key : exn -> pystr.

Lemma hook_same_idle_failed e r s : hook_same s (idle_failed exn_key e r s).2.
Proof.
  unfold idle_failed, guarded, log_is_chat_idle_error, catch. rewrite !bind_run. unfold of_res.
  destruct (log_clock r) as [t|e']; simpl.
  - case_bool_decide; simpl; [done|]. by destruct (fle _ _).
  - by destruct (is_Exception e').
Qed.

Lemma hook_same_recovery s : hook_same s (note_is_chat_idle_recovery s).2.
Proof. unfold note_is_chat_idle_recovery. simpl. by destruct (err_last_key s). Qed.

Lemma hook_same_take r s : hook_same s (take_slot r s).2.
Proof.
  unfold take_slot. rewrite bind_run. unfold of_res. destruct (cap r); [|done]. rewrite bind_run. cbn [gets].
  by destruct (_ <=? _)%Z.
Qed.

(** A section that is about no hook, once its state is computed. *)
Ltac quiet := eapply hooks_quiet; [eassumption|eassumption|done|by left|done|done].

Lemma hooks_thread_step p r s p' s' l t :
  hooks_ok s l -> l !! t = Some p -> thread_step exn_key p r s = Some (p', s') -> hooks_ok s' (<[t := p']> l).
Proof.
  intros Hok Ht Hstep. destruct p; cbn [thread_step] in Hstep; try done.
  - destruct (shutdown s); simplify_eq; [quiet|].
    unfold read_activity, now_or in Hstep. rewrite bind_run in Hstep. unfold of_res in Hstep.
    destruct (clock r); simpl in Hstep; simplify_eq; quiet.
  - destruct (judge seen r); simplify_eq; quiet.
  - simplify_eq. eapply hooks_quiet; [done|done|apply hook_same_idle_failed|by left|done|done].
  - simplify_eq. eapply hooks_quiet; [done|done|apply hook_same_recovery|left|..]; by destruct idle.
  - pose proof (hook_same_take r s) as Hs. destruct (take_slot r s) as [[granted|e] s1]; simplify_eq.
    + eapply hooks_quiet; [done|done|exact Hs|left|..]; by destruct granted.
    + eapply hooks_quiet; [done|done|exact Hs|by left|done|done].
  - simplify_eq. quiet.
  - unfold start_reply, now_or in Hstep. rewrite bind_run in Hstep. unfold of_res in Hstep.
    destruct (clock r) as [t0|e]; simpl in Hstep; simplify_eq; [|quiet].
    by eapply hooks_reply_starts.
  - destruct hooks as [|h hooks]; simplify_eq; [quiet|].
    assert (taken_up l s h) as Hh by (right; eexists _, _; split; [done|by left]).
    eapply hooks_fire; [done|done| |by left|done|].
    + by apply (ho_fresh s l Hok).
    + intros t' q w Hq Hwq Hc. by eapply (ho_early s l Hok).
  - simplify_eq. unfold note_reply_end, now_or. rewrite bind_run. unfold of_res.
    destruct (clock r); quiet.
  - destruct (inflight_replies s =? 0)%Z; simplify_eq. quiet.
  - cbn in Hstep. simplify_eq. eapply hooks_quiet; [done|done|done|by left|done|]. intros w [= <-]. simpl. lia.
  - unfold add_hook in Hstep. munfold. simplify_eq. by apply hooks_add.
  - destruct (still_clear_spec w s) as (b & Hb & Hclr). rewrite Hb in Hstep. simplify_eq.
    eapply hooks_quiet; [done|done|done| |by destruct b|by destruct b].
    right. exists w, h. split; [done|]. split; [by destruct b|]. split; intros w' h' H.
    + destruct b; [|done]. by apply Hclr.
    + destruct b; [done|]. rewrite <- Hclr. done.
  - simplify_eq. pose proof (ho_late s l Hok _ _ _ Ht) as Hnc.
    destruct (ho_watch s l Hok t _ w h Ht eq_refl) as [Hin _].
    eapply hooks_fire; [done|done| | |done|].
    + pose proof (ho_fresh s l Hok) as (Hlt & _). by eapply Forall_forall in Hlt.
    + right. by exists w.
    + intros t' q w' Hq Hwq. pose proof (ho_unique s l Hok t' t q _ w' w h Hq Ht Hwq eq_refl) as ->. simplify_eq/=. done.
  - simplify_eq. by apply (hooks_remove s l t w h).
Qed.

Lemma hooks_step m sys sys' :
  sys_step exn_key m sys = Some sys' -> hooks_ok (mem_ sys) (threads sys) -> hooks_ok (mem_ sys') (threads sys').
Proof.
  intros Hstep Hok. destruct m as [p|t r|]; simpl in Hstep.
  - destruct (initial_pc p) eqn:Hp; simplify_eq. by apply hooks_spawn.
  - destruct (threads sys !! t) as [p|] eqn:Ht; [|done]. simpl in Hstep.
    destruct (thread_step exn_key p r (mem_ sys)) as [[p' s']|] eqn:Hp; simplify_eq/=. by eapply hooks_thread_step.
  - simplify_eq. by destruct Hok.
Qed.

Lemma hooks_run ms sys sys' :
  sys_run exn_key ms sys = Some sys' -> hooks_ok (mem_ sys) (threads sys) -> hooks_ok (mem_ sys') (threads sys').
Proof.
  revert sys. induction ms as [|m ms IH]; intros sys Hrun Hok; simpl in Hrun; [by simplify_eq|].
  destruct (sys_step exn_key m sys) as [sys1|] eqn:Hstep; [|done]. simpl in Hrun. by eapply IH, hooks_step.
Qed.
End hook_runs.

Lemma hooks_fresh : hooks_ok fresh_throttle [].
Proof.
  split; simpl; try done.
  - split; [done|constructor].
  - split_and!; [constructor|constructor|]. by intros h [?%not_elem_of_nil|(? & ? & ? & _)].
Qed.

(** ** Properties *)
Section properties.
Variable exn_key : exn -> pystr.


(** Waiters are released: once no further reply starts, every move of a chat
    turn uses up one unit of a finite amount of work, a started turn can always
    move, and when the work is done every thread in [wait_for_no_reply_in_flight]
    goes through. *)
Theorem waiters_released (N : Z) (ms0 ms : list move) (sys sys' : system) :
  Forall (sound_move N) (ms0 ++ ms) -> sys_run exn_key ms0 fresh_system = Some sys ->
  sys_run exn_key ms sys = Some sys' -> count_moves exn_key starting ms sys = 0%Z ->
  (work (threads sys') + count_moves exn_key replying ms sys)%Z = work (threads sys) /\
  (work (threads sys') <> 0%Z ->
     exists t p, threads sys' !! t = Some p /\ replying p = true /\
       forall r, is_Some (sys_step exn_key (Run t r) sys')) /\
  (work (threads sys') = 0%Z -> forall t r, threads sys' !! t = Some WaitStart ->
     exists sys'', sys_step exn_key (Run t r) sys' = Some sys'' /\ threads sys'' !! t = Some WaitDone).
Proof.
  intros [H0 H1]%Forall_app Hr0 Hr1 Hns.
  destruct (sys_run_refines exn_key N ms0 _ _ H0 Hr0 fresh_exact) as [Hc _].
  destruct (sys_run_refines exn_key N ms _ _ H1 Hr1 Hc) as [(_ & Hr & _) _].
  split; [by apply work_run|]. split.
  - intros (t & p & Ht & Hp)%work_positive. exists t, p. split_and!; [done..|]. intros r. simpl. rewrite Ht. simpl.
    destruct (reply_enabled exn_key p r (mem_ sys') Hp) as [[p' s'] ->]. simpl. by eexists.
  - intros Hz%work_zero t r Ht. simpl. rewrite Ht. simpl. rewrite Hr, Hz. simpl. eexists. split; [done|]. simpl.
    apply list_lookup_insert_eq. by eapply lookup_lt_Some.
Qed.

(** A watch is exact: a snapshot taken at one moment says "still clear" later
    exactly when no chat turn was running at the snapshot and none has started
    since, not even one that already ended. *)
Theorem watch_exact (N : Z) (ms0 ms : list move) (sys sys' : system) (w : ReplyWatch) :
  Forall (sound_move N) (ms0 ++ ms) -> sys_run exn_key ms0 fresh_system = Some sys ->
  (reply_watch (mem_ sys)).1 = Ok w -> sys_run exn_key ms sys = Some sys' ->
  exists b, (still_clear w (mem_ sys')).1 = Ok b /\
    (b = true <-> tally replying (threads sys) = 0%Z /\ count_moves exn_key starting ms sys = 0%Z).
Proof.
  intros [H0 H1]%Forall_app Hr0 [= <-] Hr1.
  destruct (sys_run_refines exn_key N ms0 _ _ H0 Hr0 fresh_exact) as [Hc _].
  destruct (still_clear_spec {| w_started := replies_started (mem_ sys); w_idle := (inflight_replies (mem_ sys) =? 0)%Z |}
    (mem_ sys')) as (b & Hb & Hclr).
  exists b. rewrite Hb. split; [done|]. rewrite Hclr. unfold unbroken. cbn [w_idle w_started].
  rewrite (started_run exn_key N ms sys sys' H1 Hr1 Hc). destruct Hc as (_ & <- & _).
  rewrite Z.eqb_eq. pose proof (count_moves_nonneg exn_key starting ms sys). lia.
Qed.

(** C34: A reply-start callback runs at most once, never before its watch is broken,
    and is never missed: in every reachable state, when the watch of a still
    registered callback is no longer clear and no chat turn is in the middle of
    firing, it has run. *)
Theorem callback_exactly_once (ms : list move) (sys : system) :
  sys_run exn_key ms fresh_system = Some sys ->
  NoDup (callbacks (out (mem_ sys))) /\
  forall t w h, threads sys !! t = Some (WatchOn w h) ->
    ((still_clear w (mem_ sys)).1 = Ok true -> h ∉ callbacks (out (mem_ sys))) /\
    ((still_clear w (mem_ sys)).1 = Ok false -> Forall (fun p => pending p = []) (threads sys) ->
       h ∈ callbacks (out (mem_ sys))).
Proof.
  intros Hrun. pose proof (hooks_run exn_key ms _ _ Hrun hooks_fresh) as Hok.
  destruct (ho_fired _ _ Hok) as [-> Hnd]. split; [done|]. intros t w h Ht.
  destruct (still_clear_spec w (mem_ sys)) as (b & -> & Hb). cbn [fst]. split.
  - intros [= ->] Hf. eapply (ho_early _ _ Hok t _ w h); [done|done|by apply Hb|by left].
  - intros [= ->] Hp. destruct (ho_on _ _ Hok t w h Ht) as [Hu|[Hf|(t' & p & Ht' & Hh)]]; [|done|].
    + by apply Hb in Hu.
    + eapply Forall_lookup_1 in Hp; [|done]. simpl in Hp. rewrite Hp in Hh. by apply not_elem_of_nil in Hh.
Qed.
End properties.

(** ** One call at a time *)
Section calls.
Variable exn_key : exn -> pystr.

(** No reading is the death of the process. *)
Definition calm (r : reads) : Prop :=
  (forall e, clock r = Err e -> is_Exception e = true) /\ (forall e, log_clock r = Err e -> is_Exception e = true) /\
  (forall e, lull r = Err e -> is_Exception e = true) /\ (forall e, cap r = Err e -> is_Exception e = true).

Lemma idle_failed_ok e r s : calm r -> exists s', idle_failed exn_key e r s = (Ok false, s').
Proof.
  intros (_ & Hl & _ & _). unfold idle_failed, guarded, catch, log_is_chat_idle_error. rewrite !bind_run. unfold of_res.
  destruct (log_clock r) as [t|e']; simpl; [by eexists|]. rewrite (Hl e' eq_refl). by eexists.
Qed.

(** What [is_chat_idle] computes, in the order of its sections. *)
Lemma is_chat_idle_run r s :
  calm r ->
  is_chat_idle exn_key None r s =
    if shutdown s then (Ok false, s) else
    match clock r with
    | Err e => idle_failed exn_key e r s
    | Ok t =>
        match judge (inflight_replies s, fsub t (last_message_mono s)) r with
        | Ok idle => (Ok idle, (note_is_chat_idle_recovery s).2)
        | Err e => idle_failed exn_key e r s
        end
    end.
Proof.
  intros (Hc & _ & Hl & _). unfold is_chat_idle. rewrite bind_run. cbn [gets].
  destruct (shutdown s); [done|]. unfold guarded, catch, read_activity, now_or.
  rewrite !bind_run. unfold of_res. destruct (clock r) as [t|e] eqn:Et; cbn [gets].
  - destruct (judge _ r) as [idle|e] eqn:Ej; [done|].
    unfold judge in Ej. destruct (_ =? 0)%Z; [|done]. destruct (lull r) as [l|e'] eqn:El; simplify_eq/=.
    by rewrite (Hl _ eq_refl).
  - by rewrite (Hc _ eq_refl).
Qed.

Lemma is_chat_idle_spec (r : reads) (s : throttle) :
  calm r ->
  exists b s', is_chat_idle exn_key None r s = (Ok b, s') /\ same_counters s s' /\ hook_same s s' /\
    (b = true <-> shutdown s = false /\ inflight_replies s = 0%Z /\
       exists t l, clock r = Ok t /\ lull r = Ok l /\ fle l (fsub t (last_message_mono s)) = true).
Proof.
  intros Hr. rewrite (is_chat_idle_run r s Hr). destruct (shutdown s) eqn:Es.
  { eexists _, _. split; [done|]. split_and!; try done. naive_solver. }
  destruct (clock r) as [t|e] eqn:Et.
  - unfold judge. cbn [fst snd]. destruct (inflight_replies s =? 0)%Z eqn:E0.
    + destruct (lull r) as [l|e] eqn:El; cbn [mbind res_bind].
      * eexists _, _. split; [done|]. split; [apply same_recovery|]. split; [apply hook_same_recovery|].
        split; [intros; split_and!; [done|lia|by eauto]|]. intros (_ & _ & t' & l' & ? & ? & ?). by simplify_eq.
      * destruct (idle_failed_ok e r s Hr) as [s' Hs]. exists false, s'. rewrite Hs. split; [done|].
        pose proof (same_idle_failed exn_key e r s) as H1. pose proof (hook_same_idle_failed exn_key e r s) as H2.
        rewrite Hs in H1, H2. split_and!; try done. naive_solver.
    + eexists _, _. split; [done|]. split; [apply same_recovery|]. split; [apply hook_same_recovery|].
      split; [done|]. intros (_ & Hz & _). lia.
  - destruct (idle_failed_ok e r s Hr) as [s' Hs]. exists false, s'. rewrite Hs. split; [done|].
    pose proof (same_idle_failed exn_key e r s) as H1. pose proof (hook_same_idle_failed exn_key e r s) as H2.
    rewrite Hs in H1, H2. split_and!; try done. naive_solver.
Qed.

(** [is_chat_idle] fails closed: it always answers, answers True only when no
    stop was asked, no reply is in flight and the lull has passed on a clock that
    was read, and never touches the counters or the hooks. *)
Theorem idle_fails_closed (r : reads) (s : throttle) :
  calm r ->
  exists b s', is_chat_idle exn_key None r s = (Ok b, s') /\ same_counters s s' /\ hook_same s s' /\
    (b = true <-> shutdown s = false /\ inflight_replies s = 0%Z /\
       exists t l, clock r = Ok t /\ lull r = Ok l /\ fle l (fsub t (last_message_mono s)) = true).
Proof. apply is_chat_idle_spec. Qed.

(** The thread that calls [acquire_background], after it returned. *)
Definition after_acquire (r : reads) (granted : bool) : pc :=
  if granted then BgHolding (match cap r with Ok _ => true | Err _ => false end) else BgDone.

(** One thread alone, all its sections with the same readings. *)
Definition solo (n : nat) (r : reads) (p : pc) (s : throttle) : option system :=
  sys_run exn_key (replicate n (Run 0 r)) {| mem_ := s; threads := [p] |}.

Lemma solo_step n r p s p' s' :
  thread_step exn_key p r s = Some (p', s') -> solo (S n) r p s = solo n r p' s'.
Proof. intros Hp. unfold solo. simpl. by rewrite Hp. Qed.

Lemma solo_failed r e s s' : idle_failed exn_key e r s = (Ok false, s') ->
  solo 1 r (BgFailed e) s = Some {| mem_ := s'; threads := [BgDone] |}.
Proof. intros Hf. rewrite (solo_step 0 r _ s BgDone s'); [done|]. cbn [thread_step]. by rewrite Hf. Qed.

(** The sections of [is_chat_idle] within the runner's thread. *)
Lemma solo_idle (r : reads) (s : throttle) (k : nat) :
  calm r ->
  exists (b : bool) (s' : throttle) (n : nat), is_chat_idle exn_key None r s = (Ok b, s') /\
    if b then solo (n + k) r BgStart s = solo k r BgClear s'
    else solo n r BgStart s = Some {| mem_ := s'; threads := [BgDone] |}.
Proof.
  intros Hr. rewrite (is_chat_idle_run r s Hr). destruct (shutdown s) eqn:Es.
  { exists false, s, 1%nat. split; [done|]. rewrite (solo_step 0 r _ s BgDone s); [done|]. cbn [thread_step]. by rewrite Es. }
  assert (thread_step exn_key BgStart r s = match clock r with
    | Ok t => Some (BgSeen (inflight_replies s, fsub t (last_message_mono s)), s)
    | Err e => Some (BgFailed e, s) end) as Hstart.
  { cbn [thread_step]. rewrite Es. unfold read_activity, now_or. rewrite bind_run. unfold of_res. by destruct (clock r). }
  destruct (clock r) as [t|e]; [|destruct (idle_failed_ok e r s Hr) as [s' Hf]; exists false, s', 2%nat;
    split; [done|]; by rewrite (solo_step _ _ _ _ _ _ Hstart), (solo_failed r e s s')].
  set (seen := (inflight_replies s, fsub t (last_message_mono s))) in *.
  destruct (judge seen r) as [b|e] eqn:Ej.
  - exists b, (note_is_chat_idle_recovery s).2, 3%nat. split; [done|].
    assert (thread_step exn_key (BgSeen seen) r s = Some (BgJudged b, s)) as Hj by (cbn [thread_step]; by rewrite Ej).
    assert (thread_step exn_key (BgJudged b) r s =
      Some (if b then BgClear else BgDone, (note_is_chat_idle_recovery s).2)) as Hd by done.
    destruct b; cbn [Nat.add];
      by rewrite (solo_step _ _ _ _ _ _ Hstart), (solo_step _ _ _ _ _ _ Hj), (solo_step _ _ _ _ _ _ Hd).
  - destruct (idle_failed_ok e r s Hr) as [s' Hf]. exists false, s', 3%nat. split; [done|].
    rewrite (solo_step _ _ _ _ _ _ Hstart), (solo_step _ r (BgSeen seen) s (BgFailed e) s); [by apply solo_failed|].
    cbn [thread_step]. by rewrite Ej.
Qed.

(** [acquire_background] is its critical sections: run without interruption,
    the sections of a runner's thread end in the state the function ends in,
    holding a slot exactly when the function returns True (also when the cap
    cannot be read). *)
Theorem acquire_is_its_sections (r : reads) (s : throttle) :
  calm r ->
  exists b n, (acquire_background exn_key None r s).1 = Ok b /\ 
    solo n r BgStart s = Some {| mem_ := (acquire_background exn_key None r s).2; threads := [after_acquire r b] |}.
Proof.
  intros Hr. destruct (solo_idle r s 1 Hr) as (b & s' & n & Hi & Hs).
  unfold acquire_background, guarded, catch. rewrite bind_run, Hi. destruct b; [|by exists false, n].
  cbn [negb].
  assert (forall p m, thread_step exn_key BgClear r s' = Some (p, m) -> solo (n + 1) r BgStart s = Some {| mem_ := m; threads := [p] |}) as Hlast.
  { intros p m Hp. by rewrite Hs, (solo_step _ _ _ _ _ _ Hp). }
  cbn [thread_step] in Hlast. unfold after_acquire, take_slot in *. rewrite bind_run in Hlast |- *. unfold of_res in *.
  destruct Hr as (_ & _ & _ & Hcap). destruct (cap r) as [c|e].
  - rewrite bind_run in Hlast |- *. cbn [gets] in *. destruct (c <=? inflight_background s')%Z.
    + exists false, (n + 1)%nat. split; [done|]. by apply Hlast.
    + exists true, (n + 1)%nat. split; [done|]. by apply Hlast.
  - rewrite (Hcap e eq_refl). exists true, (n + 1)%nat. split; [done|]. by apply Hlast.
Qed.
End calls.

(** ** Error logging, slots as a context manager, seeding *)
Section more.
Variable exn_key : exn -> pystr.

(** A persistent fault is logged once per interval, not once per check: of any
    number of further failures with the same text inside the interval none is
    logged and all are counted, and the next one after it is logged with that
    count. *)
Theorem repeats_are_counted (e : exn) (rs : list reads) (r : reads) (s : throttle) (t : float) :
  err_last_key s = Some (exn_key e) ->
  Forall (fun r => exists t, log_clock r = Ok t /\
    fle ERROR_LOG_INTERVAL_S (fsub t (err_last_logged_mono s)) = false) rs ->
  log_clock r = Ok t -> fle ERROR_LOG_INTERVAL_S (fsub t (err_last_logged_mono s)) = true ->
  let s1 := (for_each rs (log_is_chat_idle_error exn_key e) s).2 in
  out s1 = out s /\
  out (log_is_chat_idle_error exn_key e r s1).2 =
    EvIdleStillFailing (exn_key e) (err_suppressed_count s + Z.of_nat (length rs)) :: out s.
Proof.
  intros Hk Hrs Hr Ht. cbn zeta.
  enough (exists s1, for_each rs (log_is_chat_idle_error exn_key e) s = (Ok tt, s1) /\ out s1 = out s /\
    err_last_key s1 = Some (exn_key e) /\ err_last_logged_mono s1 = err_last_logged_mono s /\
    err_suppressed_count s1 = (err_suppressed_count s + Z.of_nat (length rs))%Z) as (s1 & -> & Eo & Ek & El & Ec).
  { simpl. split; [done|]. unfold log_is_chat_idle_error. rewrite bind_run, Hr. simpl. rewrite Ek.
    rewrite bool_decide_eq_false_2 by (intros H; by apply H). rewrite El, Ht. simpl. by rewrite Eo, Ec. }
  clear r t Hr Ht. revert s Hk Hrs. induction rs as [|r rs IH]; intros s Hk Hrs.
  - exists s. split; [done|]. split_and!; try done. simpl. lia.
  - apply Forall_cons in Hrs as [(t & Ht & Hlt) Hrs].
    assert (log_is_chat_idle_error exn_key e r s =
      (Ok tt, set_err (err_last_key s) (err_last_logged_mono s) (err_suppressed_count s + 1) s)) as Hstep.
    { unfold log_is_chat_idle_error. rewrite bind_run, Ht. simpl. unfold modify. rewrite Hk.
      rewrite bool_decide_eq_false_2 by (intros H; by apply H). by rewrite Hlt. }
    rewrite (for_each_step _ _ _ _ _ Hstep). destruct (IH (set_err (err_last_key s) (err_last_logged_mono s) (err_suppressed_count s + 1) s) Hk Hrs)
      as (s1 & -> & Eo & Ek & El & Ec).
    exists s1. split; [done|]. rewrite Eo, El, Ec. simpl. split_and!; try done. lia.
Qed.

Lemma finally_released {A} (body : bool -> T A) s n :
  (0 <= n)%Z -> (forall b s, inflight_background (body b s).2 = inflight_background s) ->
  inflight_background (finally_ (body true) release_background (set_background (n + 1) s)).2 = n.
Proof.
  intros Hn Hbody. unfold finally_. specialize (Hbody true (set_background (n + 1) s)).
  destruct (body true _) as [x s2]. simpl in *. rewrite Hbody. lia.
Qed.

(** A slot is returned whatever its body does: after [with background_slot()]
    the number of slots held is what it was, when the body raised too, provided
    the body itself leaves the count alone; only the fail-open grant (the cap
    could not be read) gives back one slot too many. *)
Theorem slot_is_returned {A} (r : reads) (body : bool -> T A) (s : throttle) :
  calm r -> (0 <= inflight_background s)%Z ->
  (forall b s, inflight_background (body b s).2 = inflight_background s) ->
  let n := inflight_background s in
  inflight_background (background_slot exn_key None r body s).2 =
    match (acquire_background exn_key None r s).1, cap r with
    | Ok true, Err _ => Z.max 0 (n - 1)
    | _, _ => n
    end.
Proof.
  intros Hr Hn Hbody. cbn zeta. unfold background_slot. rewrite bind_run.
  destruct (is_chat_idle_spec exn_key r s Hr) as (b & s' & Hi & (_ & Hb & _) & _).
  unfold acquire_background, guarded, catch. rewrite bind_run, Hi. rewrite <- Hb in *. destruct b; cbn [negb].
  - unfold take_slot. rewrite bind_run. unfold of_res. destruct Hr as (_ & _ & _ & Hcap). destruct (cap r) as [c|e].
    + rewrite bind_run. cbn [gets]. destruct (c <=? inflight_background s')%Z; cbn [negb]; [apply Hbody|].
      rewrite bind_run. cbn [modify mret M_ret negb fst]. by apply finally_released.
    + rewrite (Hcap e eq_refl). rewrite bind_run. cbn [modify mret M_ret negb fst].
      unfold finally_. specialize (Hbody true (log EvFailOpen s')).
      destruct (body true _) as [x s2]. simpl in *. by rewrite Hbody.
  - cbn [fst]. destruct (cap r); apply Hbody.
Qed.
End more.

Section seeding.
Context `{PyLib}.

(** The stamp of one session's last row. *)
Definition saved_stamp (tail : res (list json)) (p : Z) : Prop :=
  exists row rows ts, tail = Ok (row :: rows) /\ get_or (u "ts") JNull row = Ok ts /\ parse_saved_ts ts = Ok p.

Lemma newer_saved_max newest tail o :
  newer_saved newest tail = Ok o ->
  (forall p, saved_stamp tail p -> exists n, o = Some n /\ (p <= n)%Z) /\
  (forall n, newest = Some n -> exists n', o = Some n' /\ (n <= n')%Z) /\
  (forall n, o = Some n -> newest = Some n \/ saved_stamp tail n).
Proof.
  unfold newer_saved, saved_stamp. destruct tail as [[|row rows]|e]; cbn [mbind res_bind]; intros Ho; simplify_eq.
  - unfold mret, res_ret in Ho. simplify_eq. split; [by intros p (? & ? & ? & ? & _)|]. split; [eauto using Z.le_refl|auto].
  - destruct (get_or (u "ts") JNull row) as [ts|e] eqn:Et; [|done]. cbn [mbind res_bind] in Ho.
    destruct (parse_saved_ts ts) as [p|e] eqn:Ep; [|done]. cbn [mbind res_bind] in Ho. unfold mret, res_ret in Ho.
    simplify_eq. split_and!.
    + intros p' (row' & rows' & ts' & ? & ? & ?). simplify_eq.
      assert (ts' = ts) as -> by congruence. assert (p' = p) as -> by congruence. destruct newest as [n|]; [|eauto using Z.le_refl].
      exists (if n <? p then p else n)%Z. split; [by destruct (n <? p)%Z|]. destruct (n <? p)%Z eqn:E; lia.
    + intros n ->. exists (if n <? p then p else n)%Z. split; [by destruct (n <? p)%Z|]. destruct (n <? p)%Z eqn:E; lia.
    + intros n Hn. destruct newest as [n0|]; [|simplify_eq; right; by eauto 8].
      destruct (n0 <? p)%Z; simplify_eq; [right; by eauto 8|by left].
Qed.

Lemma newest_saved_max tails : forall newest o,
  newest_saved newest tails = Ok o ->
  (forall tail p, tail ∈ tails -> saved_stamp tail p -> exists n, o = Some n /\ (p <= n)%Z) /\
  (forall n, newest = Some n -> exists n', o = Some n' /\ (n <= n')%Z) /\
  (forall n, o = Some n -> newest = Some n \/ exists tail, tail ∈ tails /\ saved_stamp tail n).
Proof.
  induction tails as [|tail tails IH]; intros newest o Ho; simpl in Ho.
  - unfold mret, res_ret in Ho. simplify_eq. split; [by intros ?? ?%not_elem_of_nil|]. split; eauto using Z.le_refl.
  - destruct (newer_saved newest tail) as [o1|e] eqn:E1; [|done]. cbn [mbind res_bind] in Ho.
    destruct (newer_saved_max _ _ _ E1) as (A1 & A2 & A3). destruct (IH _ _ Ho) as (B1 & B2 & B3). split_and!.
    + intros t p [->|Ht]%elem_of_cons Hp; [|by eapply B1].
      destruct (A1 p Hp) as (n & -> & Hn). destruct (B2 n eq_refl) as (n' & -> & Hn'). eexists. split; [done|lia].
    + intros n ->. destruct (A2 n eq_refl) as (n1 & -> & Hn). destruct (B2 n1 eq_refl) as (n' & -> & Hn').
      eexists. split; [done|lia].
    + intros n Hn. destruct (B3 n Hn) as [H1|(t & Ht & Hp)].
      * destruct (A3 n H1) as [?|?]; [by left|]. right. exists tail. split; [by left|done].
      * right. exists t. split; [by right|done].
Qed.

(** Seeding at bridge start is fail-closed and exact: when every saved tail can
    be read, the anchor is placed as long ago as the newest saved stamp (never in
    the future), or left alone when nothing was saved; when any of them cannot be
    read or parsed, the chat counts as active right now. *)
Theorem seed_is_fail_closed (active : res (list (res (list json)))) (wall_now : Z) (mono : float)
    (r : reads) (s : throttle) :
  (forall e, (tails ← active; newest_saved None tails) = Err e -> is_Exception e = true) ->
  exists s', seed_last_message_from_active_conversations active wall_now (Some mono) r s = (Ok tt, s') /\
    ((exists e, (tails ← active; newest_saved None tails) = Err e) /\ last_message_mono s' = mono \/
     (exists tails newest, active = Ok tails /\ newest_saved None tails = Ok (Some newest) /\
        last_message_mono s' = fsub mono (pymax f0 (total_seconds (wall_now - newest))) /\
        (exists tail, tail ∈ tails /\ saved_stamp tail newest) /\
        forall tail p, tail ∈ tails -> saved_stamp tail p -> (p <= newest)%Z) \/
     (exists tails, active = Ok tails /\ s' = s /\ forall tail p, tail ∈ tails -> ~ saved_stamp tail p)).
Proof.
  intros He. unfold seed_last_message_from_active_conversations, now_or. rewrite bind_run. cbn [mret M_ret].
  destruct active as [tails|e].
  - cbn [mbind res_bind] in *. destruct (newest_saved None tails) as [[n|]|e] eqn:En.
    + eexists. split; [done|]. right. left. exists tails, n. split_and!; try done.
      * destruct (newest_saved_max _ _ _ En) as (_ & _ & H3). by destruct (H3 n eq_refl).
      * intros tail p Ht Hp. destruct (newest_saved_max _ _ _ En) as (H1 & _). by destruct (H1 _ _ Ht Hp) as (? & [= <-] & ?).
    + eexists. split; [done|]. right. right. exists tails. split_and!; try done.
      intros tail p Ht Hp. destruct (newest_saved_max _ _ _ En) as (H1 & _). by destruct (H1 _ _ Ht Hp) as (? & ? & ?).
    + rewrite (He e eq_refl). eexists. split; [done|]. left. split; [by eexists|done].
  - cbn [mbind res_bind] in *. rewrite (He e eq_refl). eexists. split; [done|]. left. split; [by eexists|done].
Qed.
End seeding.

(** ** Witnesses *)

(** Readings at [t] seconds, with a lull of 10 s and a cap of 1. *)
Definition demo_reads (t : Z) : reads :=
  {| clock := Ok (fofZ t); log_clock := Ok (fofZ t); lull := Ok (fofZ 10); cap := Ok 1%Z |}.
Definition no_cap (t : Z) : reads :=
  {| clock := Ok (fofZ t); log_clock := Ok (fofZ t); lull := Ok (fofZ 10); cap := Err ValueError |}.
Definition demo_key (e : exn) : pystr := u "ValueError:boom".

(** A runner takes a slot, a second is refused, a chat turn starts and ends. *)
Definition demo_moves : list move :=
  [Spawn BgStart; Spawn BgStart; Spawn ReplyStart; Spawn WaitStart; Spawn WatchStart]
  ++ map (fun t => Run t (demo_reads 20)) [4; 4; 4; 0; 1; 0; 1; 0; 1; 2; 0; 1; 2; 2]%nat.
Definition demo_end : list move := [Run 2%nat (demo_reads 30); Run 0%nat (demo_reads 30)].

Lemma demo_sound : Forall (sound_move 1) demo_moves /\ Forall (sound_move 1) demo_end.
Proof.
  assert (forall t, sound_reads 1 (demo_reads t)) as H.
  { intros t. split; [by eexists|]. exists 1%Z. split; [done|lia]. }
  split; [|by forall_list; apply H].
  apply Forall_app. split; [by forall_list|]. apply Forall_map, Forall_true. intros t. apply H.
Qed.


Lemma waiters_released_witness :
  exists sys sys' sys'', sys_run demo_key demo_moves fresh_system = Some sys /\
    sys_run demo_key demo_end sys = Some sys' /\ threads sys' !! 3%nat = Some WaitStart /\
    sys_step demo_key (Run 3 (demo_reads 31)) sys' = Some sys'' /\ threads sys'' !! 3%nat = Some WaitDone.
Proof.
  destruct (sys_run demo_key demo_moves fresh_system) as [sys|] eqn:E; [|by vm_compute in E].
  pose proof E as Es. vm_compute in Es. injection Es as Es.
  destruct (sys_run demo_key demo_end sys) as [sys'|] eqn:E'; [|by subst sys; vm_compute in E'].
  assert (threads sys' !! 3%nat = Some WaitStart) as Hw.
  { subst sys. vm_compute in E'. injection E' as <-. vm_compute. reflexivity. }
  destruct demo_sound as [H1 H2].
  destruct (waiters_released demo_key 1 demo_moves demo_end sys sys') as (_ & _ & Hgo).
  - apply Forall_app_2; [exact H1|exact H2].
  - exact E.
  - exact E'.
  - subst sys. vm_compute. reflexivity.
  - destruct (Hgo ltac:(subst sys; vm_compute in E'; injection E' as <-; vm_compute; reflexivity) 3%nat (demo_reads 31) Hw)
      as (sys'' & Hs & Hd).
    exists sys, sys', sys''. by split_and!.
Defined.

Lemma watch_exact_witness :
  exists sys sys' w b, sys_run demo_key demo_moves fresh_system = Some sys /\ (reply_watch (mem_ sys)).1 = Ok w /\
    sys_run demo_key demo_end sys = Some sys' /\ (still_clear w (mem_ sys')).1 = Ok b /\ b = false.
Proof.
  destruct (sys_run demo_key demo_moves fresh_system) as [sys|] eqn:E; [|by vm_compute in E].
  pose proof E as Es. vm_compute in Es. injection Es as Es.
  destruct (sys_run demo_key demo_end sys) as [sys'|] eqn:E'; [|by subst sys; vm_compute in E'].
  destruct demo_sound as [H1 H2].
  destruct (watch_exact demo_key 1 demo_moves demo_end sys sys'
    {| w_started := replies_started (mem_ sys); w_idle := (inflight_replies (mem_ sys) =? 0)%Z |}) as (b & Hb & Hiff);
    [apply Forall_app_2; [exact H1|exact H2]|exact E|reflexivity|exact E'|].
  eexists sys, sys', _, b. split_and!; [reflexivity|reflexivity|exact E'|exact Hb|]. destruct b; [|reflexivity].
  destruct (proj1 Hiff eq_refl) as [Hr _]. subst sys. vm_compute in Hr. discriminate Hr.
Defined.

(** The chat turn of the third thread broke the watch of the fifth. *)
Lemma callback_exactly_once_witness :
  exists sys w, sys_run demo_key demo_moves fresh_system = Some sys /\
    threads sys !! 4%nat = Some (WatchOn w 0) /\ 0%nat ∈ callbacks (out (mem_ sys)).
Proof.
  destruct (sys_run demo_key demo_moves fresh_system) as [sys|] eqn:E; [|by vm_compute in E].
  pose proof E as Es. vm_compute in Es. injection Es as Es.
  exists sys, {| w_started := 0; w_idle := true |}.
  assert (threads sys !! 4%nat = Some (WatchOn {| w_started := 0; w_idle := true |} 0)) as Hw
    by (subst sys; vm_compute; reflexivity).
  split; [done|]. split; [done|].
  destruct (callback_exactly_once demo_key demo_moves sys E) as [_ Hc].
  apply (Hc 4%nat _ 0%nat Hw).
  - subst sys. vm_compute. reflexivity.
  - subst sys. by repeat (apply Forall_cons; split; [reflexivity|]).
Defined.

Lemma idle_fails_closed_witness :
  exists s', is_chat_idle demo_key None {| clock := Ok f0; log_clock := Ok f0; lull := Err ValueError; cap := Ok 1%Z |}
    fresh_throttle = (Ok false, s').
Proof.
  destruct (idle_fails_closed demo_key {| clock := Ok f0; log_clock := Ok f0; lull := Err ValueError; cap := Ok 1%Z |}
    fresh_throttle) as (b & s' & Hi & _ & _ & Hb).
  - split_and!; intros e [= <-]; done.
  - destruct b; [|by exists s']. destruct (proj1 Hb eq_refl) as (_ & _ & t & l & _ & Hl & _). discriminate Hl.
Defined.

Lemma acquire_is_its_sections_witness :
  exists n sys, solo demo_key n (demo_reads 20) BgStart fresh_throttle = Some sys /\ threads sys = [BgHolding true].
Proof.
  destruct (acquire_is_its_sections demo_key (demo_reads 20) fresh_throttle) as (b & n & Hb & Hs).
  - split_and!; by intros e ?.
  - exists n. eexists. split; [exact Hs|]. vm_compute in Hb. by injection Hb as <-.
Defined.

Lemma seed_is_fail_closed_witness :
  let H := ascii_pylib in
  exists s', seed_last_message_from_active_conversations (Ok [Err JSONDecodeError]) 0 (Some (fofZ 5)) (demo_reads 5)
      fresh_throttle = (Ok tt, s') /\ last_message_mono s' = fofZ 5.
Proof.
  intros H.
  destruct (seed_is_fail_closed (H := H) (Ok [Err JSONDecodeError]) 0 (fofZ 5) (demo_reads 5) fresh_throttle)
    as (s' & Hs & [(_ & He)|[(tails & newest & [= <-] & Hn & _)|(tails & [= <-] & -> & _)]]).
  - by intros e [= <-].
  - by exists s'.
  - discriminate Hn.
  - vm_compute in Hs. discriminate Hs.
Defined.

(** A slot granted by the fail-open branch is returned although it was never
    counted: the return frees another runner's slot, and with the cap at one and
    readable again two counted runners hold a slot at once. *)
Theorem fail_open_frees_anothers_slot :
  exists sys,
    sys_run demo_key
      ([Spawn BgStart; Spawn BgStart; Spawn BgStart]
       ++ replicate 4 (Run 0 (no_cap 20)) ++ replicate 4 (Run 1 (demo_reads 20))
       ++ [Run 0 (demo_reads 20)] ++ replicate 4 (Run 2 (demo_reads 20))) fresh_system = Some sys /\
    threads sys = [BgDone; BgHolding true; BgHolding true] /\ inflight_background (mem_ sys) = 1%Z.
Proof. eexists. split; [vm_compute; reflexivity|]. by split. Qed.
