(* ===== verification/WriteGuard.v ===== *)
(** [brain/files/write_guard.py]: which paths a proposed write may touch.  What
    the operating system says of paths (expansion and resolution, real paths in
    normal case, the home directory) is the argument [fsview] of every check; the
    tree of files is a finite map.  Theorems: an accepted target is outside every
    protected location, a create never names something that exists and an append
    names an existing file, within the size limits. *)
From S2P Require Import Prelude Json.

(** A file, a directory, or anything else at a path. *)
Inductive node := NFile (data : pybytes) | NDir | NOther.

Abbreviation tree := (gmap pystr node).

(** What the operating system answers at one moment. *)
Record fsview := {
  v_resolve : pystr -> res pystr;   (* Path(expandvars(expanduser(p))).resolve() *)
  v_real : pystr -> res pystr;      (* normcase(realpath(p)) *)
  v_home : pystr;                   (* Path.home() *)
}.

Definition MAX_WRITE_BYTES : Z := 1 * 1024 * 1024.
Definition MAX_RESULT_FILE_BYTES : Z := 25 * 1024 * 1024.

Definition HOME_DENY : list pystr := map u
  [".zshrc"; ".bashrc"; ".bash_profile"; ".profile"; ".zprofile"; ".zshenv"; ".zlogin";
   ".ssh"; ".aws"; ".gnupg"; ".netrc"; ".config/gh"; "Library/LaunchAgents"]%string.
Definition ABS_DENY : list pystr := map u
  ["/etc"; "/usr"; "/bin"; "/sbin"; "/System"; "/Library"; "/private/etc";
   "/Applications"; "/Library/LaunchDaemons"]%string.

(** The error texts, up to the path or exception they quote. *)
Inductive guard_error :=
| BadPath
| Denied (resolved : pystr)
| Exists_ (resolved : pystr)
| NotAFile (resolved : pystr)
| UnknownOp
| TooLarge (nbytes : Z)
| OverCeiling.

(** [GuardResult]: accepted with the resolved path, or refused. *)
Inductive GuardResult := Accepted (resolved : pystr) | Refused (error : guard_error).

(** [c == p or c.startswith(p + os.sep)]. *)
Definition path_within (c p : pystr) : bool := bool_decide (c = p) || starts_with (p ++ u "/") c.

Definition is_within (v : fsview) (child parent : pystr) : res bool :=
  match (c ← v_real v child; p ← v_real v parent; Ok (c, p)) with
  | Ok (c, p) => Ok (path_within c p)
  | Err OSError => Ok false
  | Err e => Err e
  end.

Definition is_within_authorized (v : fsview) (resolved : pystr) (folder : option pystr) : res bool :=
  match folder with Some f => is_within v resolved f | None => Ok false end.

(** The first of [roots] that holds [resolved] decides. *)
Fixpoint within_any (v : fsview) (resolved : pystr) (roots : list pystr) : res bool :=
  match roots with
  | [] => Ok false
  | p :: roots => b ← is_within v resolved p; if (b : bool) then Ok true else within_any v resolved roots
  end.

Definition protected_roots (v : fsview) (persona_dir : pystr) : list pystr :=
  map (fun rel => v_home v ++ u "/" ++ rel) HOME_DENY ++ ABS_DENY ++ [persona_dir].

Definition denied (v : fsview) (resolved persona_dir : pystr) : res bool :=
  within_any v resolved (protected_roots v persona_dir).

Definition exists_ (t : tree) (p : pystr) : bool := bool_decide (is_Some (t !! p)).
Definition is_file (t : tree) (p : pystr) : bool := match t !! p with Some (NFile _) => true | _ => false end.

Definition check_write_target (v : fsview) (t : tree) (persona_dir raw_path : pystr) (op : json) : res GuardResult :=
  match v_resolve v raw_path with
  | Err e => if bool_decide (e = OSError) || is_ValueError e then Ok (Refused BadPath) else Err e
  | Ok resolved =>
      d ← denied v resolved persona_dir;
      if (d : bool) then Ok (Refused (Denied resolved)) else
      if jis_str (u "create") op then
        if exists_ t resolved then Ok (Refused (Exists_ resolved)) else Ok (Accepted resolved)
      else if jis_str (u "append") op then
        if negb (exists_ t resolved) || negb (is_file t resolved) then Ok (Refused (NotAFile resolved))
        else Ok (Accepted resolved)
      else Ok (Refused UnknownOp)
  end.

(** [resolved.stat().st_size]; a directory's size is the system's business. *)
Definition st_size (t : tree) (p : pystr) : Z :=
  match t !! p with Some (NFile data) => Z.of_nat (length data) | _ => 0 end.

Definition check_size (t : tree) (content op : json) (resolved : pystr) : res GuardResult :=
  match content with
  | JStr s =>
      b ← or_raise UnicodeError (utf8_encode s);
      let nbytes := Z.of_nat (length b) in
      if (MAX_WRITE_BYTES <? nbytes)%Z then Ok (Refused (TooLarge nbytes)) else
      if jis_str (u "append") op && exists_ t resolved
         && (MAX_RESULT_FILE_BYTES <? st_size t resolved + nbytes)%Z
      then Ok (Refused OverCeiling) else Ok (Accepted resolved)
  | _ => Err AttributeError
  end.

(** ** Lemmas *)
Lemma path_within_spec c p : path_within c p = true <-> c = p \/ exists rest, c = p ++ u "/" ++ rest.
Proof.
  unfold path_within. rewrite orb_true_iff, bool_decide_eq_true, starts_with_spec.
  by setoid_rewrite <- (assoc_L (++)).
Qed.

Lemma within_any_false v resolved roots :
  within_any v resolved roots = Ok false ->
  forall p, p ∈ roots -> is_within v resolved p = Ok false.
Proof.
  induction roots as [|q roots IH]; intros Hw p Hp; [by apply not_elem_of_nil in Hp|]. simpl in Hw.
  destruct (is_within v resolved q) as [[]|] eqn:Hq; try done. simpl in Hw.
  apply elem_of_cons in Hp as [->|Hp]; [done|by apply IH].
Qed.

Lemma is_within_false v c p rc rp :
  is_within v c p = Ok false -> v_real v c = Ok rc -> v_real v p = Ok rp ->
  rc <> rp /\ forall rest, rc <> rp ++ u "/" ++ rest.
Proof.
  unfold is_within. intros Hw Hc Hp. rewrite Hc, Hp in Hw. simpl in Hw. injection Hw as Hw.
  split; [intros ->|intros rest ->]; apply not_true_iff_false in Hw; apply Hw, path_within_spec; eauto.
Qed.

(** The locations the tool must not write to. *)
Definition off_limits (v : fsview) (persona_dir p : pystr) : Prop :=
  p = persona_dir \/ p ∈ ABS_DENY \/ exists rel, rel ∈ HOME_DENY /\ p = v_home v ++ u "/" ++ rel.

Lemma off_limits_protected v persona_dir p : off_limits v persona_dir p -> p ∈ protected_roots v persona_dir.
Proof.
  unfold protected_roots. rewrite !elem_of_app, list_elem_of_singleton, list_elem_of_fmap.
  intros [->|[Ha|(rel & Hr & ->)]]; eauto.
Qed.

(** What an accepted target is. *)
Record target_ok (v : fsview) (t : tree) (persona_dir : pystr) (op : json) (resolved : pystr) : Prop := {
  tk_outside p rp rr : off_limits v persona_dir p -> v_real v p = Ok rp -> v_real v resolved = Ok rr ->
    rr <> rp /\ forall rest, rr <> rp ++ u "/" ++ rest;
  tk_op : op = JStr (u "create") /\ t !! resolved = None \/
          op = JStr (u "append") /\ exists data, t !! resolved = Some (NFile data);
}.

Lemma jis_str_true s v : jis_str s v = true -> v = JStr s.
Proof. destruct v; try done. simpl. intros H. f_equal. by apply bool_decide_eq_true in H. Qed.

Lemma check_write_target_ok v t persona_dir raw op resolved :
  check_write_target v t persona_dir raw op = Ok (Accepted resolved) ->
  v_resolve v raw = Ok resolved /\ target_ok v t persona_dir op resolved.
Proof.
  unfold check_write_target. destruct (v_resolve v raw) as [p|e] eqn:Hr; [|by destruct (_ || _)].
  destruct (denied v p persona_dir) as [[]|] eqn:Hd; try done. cbn [mbind res_bind]. intros Ht.
  assert (resolved = p /\ (op = JStr (u "create") /\ t !! p = None \/
    op = JStr (u "append") /\ exists data, t !! p = Some (NFile data))) as [-> Hop].
  { destruct (jis_str (u "create") op) eqn:Hc.
    - unfold exists_ in Ht. case_bool_decide as He; simplify_eq. split; [done|]. left. split; [by apply jis_str_true|].
      by apply eq_None_not_Some.
    - destruct (jis_str (u "append") op) eqn:Ha; [|done]. unfold exists_, is_file in Ht.
      destruct (t !! p) as [[data| |]|] eqn:Hp; simpl in Ht; simplify_eq.
      split; [done|]. right. split; [by apply jis_str_true|by exists data]. }
  split; [done|]. split; [|done]. intros q rp rr Hq%off_limits_protected Hrq Hrr.
  eapply is_within_false; [|done|done]. by eapply within_any_false.
Qed.

Lemma check_size_ok t content op resolved p :
  check_size t content op resolved = Ok (Accepted p) ->
  p = resolved /\ exists s b, content = JStr s /\ utf8_encode s = Some b /\
    (Z.of_nat (length b) <= MAX_WRITE_BYTES)%Z /\
    (op = JStr (u "append") -> forall data, t !! resolved = Some (NFile data) ->
       (Z.of_nat (length data + length b) <= MAX_RESULT_FILE_BYTES)%Z).
Proof.
  unfold check_size. destruct content as [| | | |s| |]; try done.
  destruct (utf8_encode s) as [b|] eqn:Hb; [|done]. cbn [or_raise mbind res_bind].
  destruct (MAX_WRITE_BYTES <? Z.of_nat (length b))%Z eqn:Hm; [done|].
  destruct (_ && _) eqn:Hc; intros Ht; simplify_eq. split; [done|]. exists s, b. split_and!; [done..|lia|].
  intros -> data Hd. unfold exists_, st_size in Hc. rewrite Hd in Hc.
  rewrite bool_decide_eq_true_2 in Hc by (by eexists). simpl in Hc. lia.
Qed.

(** ** Properties *)


(** ** Witnesses *)
Definition demo_view : fsview := {| v_resolve p := Ok p; v_real p := Ok p; v_home := u "/home/ann" |}.
Definition demo_tree : tree := {[ u "/home/ann/note.md" := NFile [104; 105]%N ]}.

