(* ===== verification/Pending.v ===== *)
(** [brain/memory/pending.py]: the queue of memory candidates.  What the program
    remembers by itself is appended to a queue file; the consolidation gate claims the
    whole queue, works through it and settles each entry, and the batch is kept in a
    processing file until then, so that a kill loses nothing.

    The record [pending] is the four files; a file is its lines, each a record or a
    line that cannot be read.  An operation is a program of the state-error monad over
    them; the class [PendingDisk] says of each access whether it works, fails, or is
    where the process dies, and where a cut append stops.  The file lock excludes, as
    it does unless the file system refuses it.  The theorems are in [PendingFacts]. *)
From S2P Require Import Prelude PyFloat PyTime Json Crypto Protocol PyVal StateFile Jsonl Buffer Compaction Pipeline.

Inductive line := Rec (e : json) | Bad (raw : pystr).
Inductive queue_file := QUEUE | PROCESSING.

(** A damaged line that was kept aside; its raw bytes stand for their two encodings. *)
Record kept_line := { kl_at : Z; kl_from : queue_file; kl_position : nat; kl_raw : pystr }.

Record pending := {
  pq_queue : option (list line);        (* pending_candidates.jsonl *)
  pq_processing : option (list line);   (* pending_candidates.processing.jsonl *)
  pq_settled : option (list line);      (* pending_candidates.settled.jsonl *)
  pq_damaged : list kept_line;          (* pending_candidates.damaged.jsonl *)
  pq_time : nat;                        (* the accesses so far *)
}.

Class PendingDisk := {
  pd_disk : nat -> fault;
  pd_cut : nat -> nat;         (* where an append that fails stops *)
  pd_landed : nat -> bool;     (* whether a rename or removal took effect before the process died *)
  pd_clock : nat -> Z;
  uuid4_hex : nat -> pystr;
}.

Abbreviation Q := (M pending).

Definition recs (ls : option (list line)) : list json := omap (fun l => match l with Rec e => Some e | Bad _ => None end) (default [] ls).

Definition set_queue (f : option (list line) -> option (list line)) (s : pending) : pending :=
  {| pq_queue := f (pq_queue s); pq_processing := pq_processing s; pq_settled := pq_settled s; pq_damaged := pq_damaged s; pq_time := pq_time s |}.
Definition set_processing (f : option (list line) -> option (list line)) (s : pending) : pending :=
  {| pq_queue := pq_queue s; pq_processing := f (pq_processing s); pq_settled := pq_settled s; pq_damaged := pq_damaged s; pq_time := pq_time s |}.
Definition set_settled (f : option (list line) -> option (list line)) (s : pending) : pending :=
  {| pq_queue := pq_queue s; pq_processing := pq_processing s; pq_settled := f (pq_settled s); pq_damaged := pq_damaged s; pq_time := pq_time s |}.
Definition on_damaged (f : list kept_line -> list kept_line) : Q unit := modify (fun s =>
  {| pq_queue := pq_queue s; pq_processing := pq_processing s; pq_settled := pq_settled s; pq_damaged := f (pq_damaged s); pq_time := pq_time s |}).

(** The number of the next access. *)
Definition access : Q nat := fun s =>
  (Ok (pq_time s), {| pq_queue := pq_queue s; pq_processing := pq_processing s; pq_settled := pq_settled s; pq_damaged := pq_damaged s; pq_time := S (pq_time s) |}).

Section pending.
Context `{PendingDisk}.

(** ** Accesses *)
Definition check_access : Q unit :=
  t ← access;
  match pd_disk t with Works => mret tt | Fails => raise OSError | Dies => raise Crash end.

Definition reading (file : pending -> option (list line)) : Q (list line) := check_access;; ls ← gets file; mret (default [] ls).

(** The lines that the first [k] bytes of these records' text make. *)
Fixpoint lines_made (rs : list json) (k : nat) : list line :=
  match rs with
  | [] => []
  | e :: rs =>
      let t := dumps_default e in
      if (k =? 0)%nat then [] else if (k <? length t)%nat then [Bad (take k t)] else Rec e :: lines_made rs (k - length t - 1)
  end.

(** An append of records to the file that [set] changes. *)
Definition adding (set : (option (list line) -> option (list line)) -> pending -> pending) (rs : list json) : Q unit :=
  t ← access;
  let add ls f := Some (default [] f ++ ls) in
  match pd_disk t with
  | Works => modify (set (add (map Rec rs)))
  | Fails => modify (set (add (lines_made rs (pd_cut t))));; raise OSError
  | Dies => modify (set (add (lines_made rs (pd_cut t))));; raise Crash
  end.

(** An atomic save, or a removal. *)
Definition replacing (set : (option (list line) -> option (list line)) -> pending -> pending) (ls : option (list line)) : Q unit :=
  t ← access;
  match pd_disk t with
  | Works => modify (set (fun _ => ls))
  | Fails => raise OSError
  | Dies => (if pd_landed t then modify (set (fun _ => ls)) else mret tt);; raise Crash
  end.

Definition now_iso : Q pystr := t ← access; mret (isoformat (pd_clock t)).
Definition fresh_id : Q pystr := t ← access; mret (uuid4_hex t).

(** ** Enqueueing *)

(** [clamp_nonfinite] of [brain/utils/finite.py]. *)
Fixpoint clamp_nonfinite (v : json) : json :=
  match v with
  | JFloat f => if is_finite f then v else JFloat f0
  | JArr l => JArr (map clamp_nonfinite l)
  | JObj kvs => JObj (map (fun kv => (kv.1, clamp_nonfinite kv.2)) kvs)
  | _ => v
  end.

(** [{**e, k: v}]. *)
Definition with_key (k : string) (v : json) (e : json) : json := match e with JObj kvs => JObj (dict_set (u k) v kvs) | _ => e end.

(** The line of a candidate; [mem] is its [to_dict()]. *)
Definition queue_entry (mem : json) (source : json) (now : pystr) : json :=
  clamp_nonfinite (with_key "_enqueued_at" (JStr now) (with_key "_source" source mem)).

Definition enqueue (mem source : json) : Q unit :=
  n ← now_iso;
  let entry := queue_entry mem source n in
  _ ← of_res (encode_jsonl false [entry]);
  adding set_queue [entry].

Definition REAPPRAISE : pystr := u "reappraise_importance".

Definition reappraisal_item (source : json) (now memory_id : pystr) : json :=
  JObj [(u "_route", JStr REAPPRAISE); (u "memory_id", JStr memory_id); (u "_source", source); (u "_enqueued_at", JStr now)].

Definition enqueue_reappraisals (memory_ids : list pystr) (source : json) : Q Z :=
  match memory_ids with
  | [] => mret 0%Z
  | _ =>
      n ← now_iso;
      let items := map (reappraisal_item source n) memory_ids in
      _ ← of_res (encode_jsonl false items);
      adding set_queue items;;
      mret (Z.of_nat (length items))
  end.

Definition enqueue_reappraisal (memory_id : pystr) (source : json) : Q unit := enqueue_reappraisals [memory_id] source;; mret tt.

(** ** Reading, with the damaged lines kept aside *)
Fixpoint damaged_lines (position : nat) (ls : list line) : list (nat * pystr) :=
  match ls with
  | [] => []
  | Rec _ :: ls => damaged_lines (S position) ls
  | Bad raw :: ls => (position, raw) :: damaged_lines (S position) ls
  end.

Definition keep_aside (rs : list kept_line) : Q unit :=
  t ← access;
  match pd_disk t with
  | Works => on_damaged (fun d => d ++ rs)
  | Fails => on_damaged (fun d => d ++ take (pd_cut t) rs);; raise OSError
  | Dies => on_damaged (fun d => d ++ take (pd_cut t) rs);; raise Crash
  end.

Definition file_of_name (f : queue_file) : pending -> option (list line) := match f with QUEUE => pq_queue | PROCESSING => pq_processing end.

Definition read_keeping_damaged (f : queue_file) : Q (list json * bool) :=
  ls ← reading (file_of_name f);
  match damaged_lines 1 ls with
  | [] => mret (recs (Some ls), false)
  | damaged =>
      t ← access;
      keep_aside (map (fun d => {| kl_at := pd_clock t; kl_from := f; kl_position := d.1; kl_raw := d.2 |}) damaged);;
      mret (recs (Some ls), true)
  end.

(** ** Taking the queue *)
Definition drain : Q (list json) :=
  exists_ ← gets (fun s => bool_decide (is_Some (pq_queue s)));
  if negb exists_ then mret [] else
  check_access;;
  '(rows, _) ← read_keeping_damaged QUEUE;
  replacing set_queue (Some []);;
  mret rows.

(** Membership in a set of values: an unhashable one raises. *)
Definition in_set (v : json) (xs : list json) : res bool := if hashable v then Ok (existsb (py_eq v) xs) else Err TypeError.

Fixpoint hash_all (vs : list json) : res (list json) :=
  match vs with [] => Ok [] | v :: vs => if hashable v then rest ← hash_all vs; mret (v :: rest) else Err TypeError end.

Definition claim_id (e : json) : json := jget_none (u "_claim_id") e.

(** The entries the settled ids do not list. *)
Fixpoint unsettled (settled : list json) (entries : list json) : res (list json) :=
  match entries with
  | [] => Ok []
  | e :: entries => done_ ← in_set (claim_id e) settled; rest ← unsettled settled entries; mret (if (done_ : bool) then rest else e :: rest)
  end.

(** One re-appraise item per memory id. *)
Fixpoint drop_repeats (seen : list json) (entries : list json) : res (list json) :=
  match entries with
  | [] => Ok []
  | e :: entries =>
      if jis_str REAPPRAISE (jget_none (u "_route") e) then
        let id := jget_none (u "memory_id") e in
        repeat_ ← in_set id seen;
        if (repeat_ : bool) then drop_repeats seen entries else
        rest ← drop_repeats (id :: seen) entries; mret (e :: rest)
      else rest ← drop_repeats seen entries; mret (e :: rest)
  end.

Fixpoint stamp_all (entries : list json) : Q (list json) :=
  match entries with
  | [] => mret []
  | e :: entries => id ← fresh_id; rest ← stamp_all entries; mret (with_key "_claim_id" (JStr id) e :: rest)
  end.

(** What a save with [nonfinite="null"] writes of a record. *)
Definition nulled (e : json) : json := if finite_json e then e else null_nonfinite e.

Record batch := { b_entries : list json; b_settled : list json }.

Definition settled_ids : Q (list json) :=
  exists_ ← gets (fun s => bool_decide (is_Some (pq_settled s)));
  if negb exists_ then mret [] else
  ls ← reading pq_settled;
  of_res (hash_all (map (jget_none (u "id")) (recs (Some ls)))).

(** The entries an earlier claim left unsettled. *)
Definition left_over : Q (list json) :=
  has_processing ← gets (fun s => bool_decide (is_Some (pq_processing s)));
  if negb has_processing then mret [] else
  settled ← settled_ids;
  '(kept, _) ← read_keeping_damaged PROCESSING;
  of_res (unsettled settled kept).

Definition queued_rows : Q (list json * bool) :=
  has_queue ← gets (fun s => bool_decide (is_Some (pq_queue s)));
  if (has_queue : bool) then read_keeping_damaged QUEUE else mret ([], false).

(** The writes of a claim: the processing file, the settled file, the queue. *)
Definition write_claim (had_files : bool) (queued : list json) (queue_damaged : bool) (entries : list json) : Q batch :=
  match entries with
  | [] =>
      (if had_files then replacing set_processing None;; replacing set_settled None else mret tt);;
      (if queue_damaged then replacing set_queue (Some []) else mret tt);;
      mret {| b_entries := []; b_settled := [] |}
  | _ =>
      replacing set_processing (Some (map (fun e => Rec (nulled e)) entries));;
      replacing set_settled (Some []);;
      (if match queued with [] => queue_damaged | _ => true end then replacing set_queue (Some []) else mret tt);;
      mret {| b_entries := entries; b_settled := [] |}
  end.

Definition claim : Q batch :=
  check_access;;
  had_files ← gets (fun s => bool_decide (is_Some (pq_processing s)) || bool_decide (is_Some (pq_settled s)));
  leftovers ← left_over;
  '(queued, queue_damaged) ← queued_rows;
  combined ← of_res (drop_repeats [] (leftovers ++ queued));
  entries ← stamp_all combined;
  write_claim had_files queued queue_damaged entries.

Definition settle (b : batch) (entry : json) : Q batch :=
  let id := claim_id entry in
  if negb (jtruthy id) then mret b else
  done_ ← of_res (in_set id (b_settled b));
  if (done_ : bool) then mret b else
  ok ← catch (adding set_settled [JObj [(u "id", id)]];; mret true) (fun e => match e with OSError => Some (mret false) | _ => None end);
  mret (if (ok : bool) then {| b_entries := b_entries b; b_settled := id :: b_settled b |} else b).

Definition all_settled (b : batch) : res bool := rest ← unsettled (b_settled b) (b_entries b); mret (no_rows rest).

Definition close (b : batch) : Q unit :=
  done_ ← of_res (all_settled b);
  if negb done_ then mret tt else
  replacing set_processing None;;
  replacing set_settled None.

(** [route_write]; [create] is the memory store's. *)
Definition route_write (create : json -> Q json) (mem source : json) : Q json :=
  bypass ← of_res (in_set (jget_none (u "memory_type") mem) (map JStr GATE_BYPASS_TYPES));
  if (bypass : bool) then create mem else enqueue mem source;; mret (jget_none (u "id") mem).

(** ** The gate at work: [_run_locked] of [brain/engines/consolidation.py]

    One run of the gate at a time holds a claimed batch; it settles entries of it in
    any order, and closes it.  An exception ends the run, and a kill the process. *)
Record gate := { g_files : pending; g_batch : option batch }.

Inductive op :=
  | OpEnqueue (mem source : json)
  | OpReappraise (memory_ids : list pystr) (source : json)
  | OpClaim
  | OpSettle (n : nat)          (* the entry at this place of the batch *)
  | OpClose
  | OpDie.

(** Run [m]; [after] is the batch afterwards, when it returned. *)
Definition during {A} (m : Q A) (after : A -> option batch) (on_error : exn -> option batch) (g : gate) : gate :=
  match m (g_files g) with
  | (Ok a, s) => {| g_files := s; g_batch := after a |}
  | (Err e, s) => {| g_files := s; g_batch := on_error e |}
  end.

(** A producer that fails leaves the run of the gate alone, unless the process died. *)
Definition survives (b : option batch) (e : exn) : option batch := match e with Crash => None | _ => b end.

Definition step (o : op) (g : gate) : gate :=
  match o, g_batch g with
  | OpEnqueue mem source, b => during (enqueue mem source) (fun _ => b) (survives b) g
  | OpReappraise ids source, b => during (enqueue_reappraisals ids source) (fun _ => b) (survives b) g
  | OpClaim, _ => during claim Some (fun _ => None) g
  | OpSettle n, Some b => match b_entries b !! n with Some e => during (settle b e) Some (fun _ => None) g | None => g end
  | OpClose, Some b => during (close b) (fun _ => None) (fun _ => None) g
  | OpDie, _ => {| g_files := g_files g; g_batch := None |}
  | _, None => g
  end.

Fixpoint run (ops : list op) (g : gate) : gate := match ops with [] => g | o :: ops => run ops (step o g) end.

Definition settle_all (b : batch) : Q batch := fold_each (b_entries b) b settle.
End pending.

Definition no_files : gate := {| g_files := {| pq_queue := None; pq_processing := None; pq_settled := None; pq_damaged := []; pq_time := 0 |}; g_batch := None |}.
