(* ===== verification/PendingFacts.v ===== *)
(** Theorems about [Pending]: no candidate is lost, whatever fails and wherever the
    process dies, a claim takes exactly what waits, and a round that nothing disturbs
    leaves nothing behind. *)
From S2P Require Import Prelude PyFloat PyTime Json Crypto Protocol PyVal StateFile Jsonl Buffer Compaction Pipeline WriteGuard RolloverFacts Pending.

(** ** Items *)

(** What an entry is about: a re-appraise request is its memory, a candidate is the
    entry itself, without the mark of its claim. *)
Definition unmarked (kvs : list (pystr * json)) : list (pystr * json) := List.filter (fun kv => negb (bool_decide (kv.1 = u "_claim_id"))) kvs.
Definition core (e : json) : json := null_nonfinite (match e with JObj kvs => JObj (unmarked kvs) | _ => e end).
Definition reappraises (e : json) : bool := jis_str REAPPRAISE (jget_none (u "_route") e).
Definition item (e : json) : json + pystr :=
  if reappraises e then match jget_none (u "memory_id") e with JStr m => inr m | _ => inl (core e) end else inl (core e).

(** An entry as the program writes them. *)
Record typed (e : json) : Prop := {
  ty_obj : is_obj e = true;
  ty_id : reappraises e = true -> exists m, jget_none (u "memory_id") e = JStr m;
}.

Lemma null_idem v : null_nonfinite (null_nonfinite v) = null_nonfinite v.
Proof.
  induction v as [| | |f| |l IH|kvs IH] using json_ind'; cbn [null_nonfinite]; try done.
  - destruct (is_finite f) eqn:Hf; [|done]. cbn [null_nonfinite]. by rewrite Hf.
  - f_equal. induction IH as [|v l Hv _ IH]; [done|]. cbn. by rewrite Hv, IH.
  - f_equal. induction IH as [|v l Hv _ IH]; [done|]. cbn. by rewrite Hv, IH.
Qed.

Lemma get_nulled k e : jget_none k (null_nonfinite e) = null_nonfinite (jget_none k e).
Proof.
  unfold jget_none, jget. destruct e as [| | |f| | |kvs]; try done; cbn [null_nonfinite]; [by destruct (is_finite f)|].
  induction kvs as [|[k' v] kvs IH]; [done|]. cbn. by case_bool_decide.
Qed.

Lemma get_text_nulled k e s : jget_none k (nulled e) = JStr s <-> jget_none k e = JStr s.
Proof.
  unfold nulled. destruct (finite_json e); [done|]. rewrite get_nulled. destruct (jget_none k e) as [| | |f| | |]; cbn; try done.
  by destruct (is_finite f).
Qed.

Lemma route_nulled e : reappraises (nulled e) = reappraises e.
Proof.
  unfold reappraises. destruct (jis_str REAPPRAISE (jget_none (u "_route") e)) eqn:He.
  - apply jis_str_true in He. apply (proj2 (get_text_nulled _ _ _)) in He. rewrite He. cbn. by rewrite bool_decide_eq_true_2.
  - apply not_true_iff_false in He. apply not_true_iff_false. intros Hn. apply He. apply jis_str_true in Hn. apply (proj1 (get_text_nulled _ _ _)) in Hn.
    rewrite Hn. cbn. by rewrite bool_decide_eq_true_2.
Qed.

Lemma core_nulled e : core (nulled e) = core e.
Proof.
  unfold nulled. destruct (finite_json e); [done|]. unfold core. destruct e as [| | |f| | |kvs]; try apply null_idem.
  - cbn. destruct (is_finite f) eqn:Hf; [cbn; by rewrite Hf|done].
  - cbn [null_nonfinite]. f_equal. unfold unmarked. induction kvs as [|[k v] kvs IH]; [done|]. cbn.
    case_bool_decide; cbn; [done|]. by rewrite null_idem, IH.
Qed.

Lemma item_nulled e : item (nulled e) = item e.
Proof.
  unfold item. rewrite route_nulled, core_nulled. destruct (reappraises e); [|done].
  destruct (jget_none (u "memory_id") e) as [| | | |m| |] eqn:He.
  5: { apply (proj2 (get_text_nulled _ _ _)) in He. by rewrite He. }
  all: destruct (jget_none (u "memory_id") (nulled e)) eqn:Hn; try done; apply (proj1 (get_text_nulled _ _ _)) in Hn; congruence.
Qed.

Lemma get_marked k v e : u k <> u "_claim_id" -> jget_none (u k) (with_key "_claim_id" v e) = jget_none (u k) e.
Proof. intros Hk. unfold jget_none, jget, with_key. destruct e; try done. by rewrite dict_get_set_ne. Qed.

Lemma unmarked_set v kvs : unmarked (dict_set (u "_claim_id") v kvs) = unmarked kvs.
Proof.
  induction kvs as [|[k w] kvs IH]; [done|]. cbn [dict_set]. case_bool_decide as Hk; unfold unmarked in *; cbn [List.filter fst].
  - subst. done.
  - by rewrite IH.
Qed.

Lemma item_marked v e : item (with_key "_claim_id" v e) = item e.
Proof.
  unfold item, reappraises. rewrite !get_marked by done. assert (core (with_key "_claim_id" v e) = core e) as ->; [|done].
  unfold core, with_key. destruct e; try done. by rewrite unmarked_set.
Qed.

Lemma typed_marked v e : typed e -> typed (with_key "_claim_id" v e).
Proof. intros [Ho Hi]. split; [by destruct e|]. unfold reappraises. rewrite !get_marked by done. exact Hi. Qed.

Lemma typed_nulled e : typed e -> typed (nulled e).
Proof.
  intros [Ho Hi]. split; [unfold nulled; destruct (finite_json e); [done|by destruct e]|]. rewrite route_nulled. intros Hr.
  destruct (Hi Hr) as [m Hm]. exists m. by apply get_text_nulled.
Qed.

Lemma marked_id v e : is_obj e = true -> claim_id (with_key "_claim_id" v e) = v.
Proof.
  intros Ho. unfold claim_id, jget_none, jget, with_key. destruct e as [| | | | | |kvs]; try done. clear Ho.
  induction kvs as [|[k w] kvs IH]; cbn; [by rewrite bool_decide_eq_true_2|]. case_bool_decide; cbn; [subst; by rewrite bool_decide_eq_true_2|].
  by rewrite bool_decide_eq_false_2.
Qed.

(** Dropping repeats drops no item. *)
Lemma repeats_kept seen l l' : drop_repeats seen l = Ok l' -> Forall typed l ->
  (forall e, e ∈ l' -> e ∈ l) /\ forall e, e ∈ l -> item e ∈ map item l' \/ exists m, item e = inr m /\ JStr m ∈ seen.
Proof.
  revert seen l'. induction l as [|e l IH]; intros seen l' Hl Ht; [injection Hl as <-; split; [done|]; intros e He; by apply not_elem_of_nil in He|].
  apply Forall_cons in Ht as [Hte Ht]. cbn [drop_repeats] in Hl. cbv zeta in Hl. fold (reappraises e) in Hl. destruct (reappraises e) eqn:Hr.
  - destruct (ty_id e Hte Hr) as [m Hm]. assert (item e = inr m) as Hi by (unfold item; by rewrite Hr, Hm). rewrite Hm in Hl.
    unfold in_set in Hl. cbn [hashable mbind res_bind] in Hl. destruct (existsb (py_eq (JStr m)) seen) eqn:Hs.
    + destruct (IH seen l' Hl Ht) as [Hsub Hin]. split; [intros e' He'; right; by apply Hsub|]. intros e' [->|He']%elem_of_cons; [|by apply Hin].
      right. exists m. split; [done|]. apply existsb_exists in Hs as (v & Hv & Heq). apply py_eq_str in Heq as ->. by apply list_elem_of_In.
    + destruct (drop_repeats (JStr m :: seen) l) as [rest|] eqn:Hrest; [|done]. cbn [mbind res_bind] in Hl. injection Hl as <-.
      destruct (IH _ _ Hrest Ht) as [Hsub Hin]. split; [intros e' [->|He']%elem_of_cons; [by left|right; by apply Hsub]|].
      intros e' [->|He']%elem_of_cons; [left; by left|]. destruct (Hin e' He') as [|(m' & Hm' & Hs')]; [left; by right|].
      apply elem_of_cons in Hs' as [[= ->]|Hs']; [left; rewrite Hm', <- Hi; by left|]. right. by exists m'.
  - destruct (drop_repeats seen l) as [rest|] eqn:Hrest; [|done]. cbn [mbind res_bind] in Hl. injection Hl as <-.
    destruct (IH _ _ Hrest Ht) as [Hsub Hin]. split; [intros e' [->|He']%elem_of_cons; [by left|right; by apply Hsub]|].
    intros e' [->|He']%elem_of_cons; [left; by left|]. destruct (Hin e' He') as [|Hs']; [left; by right|by right].
Qed.

(** ** States *)
Section facts.
Context `{PendingDisk}.

Definition settled_list (s : pending) : list json := map (jget_none (u "id")) (recs (pq_settled s)).

(** The item is in the queue, or in the processing file and not settled. *)
Definition waits (s : pending) (x : json + pystr) : Prop :=
  x ∈ map item (recs (pq_queue s)) \/ exists e, e ∈ recs (pq_processing s) /\ item e = x /\ claim_id e ∉ settled_list s.

(** An id that [uuid4] has given. *)
Definition given (s : pending) (v : json) : Prop := exists t, (t < pq_time s)%nat /\ v = JStr (uuid4_hex t).

Record ok (s : pending) : Prop := {
  ok_queue : Forall typed (recs (pq_queue s));
  ok_processing : Forall typed (recs (pq_processing s));
  ok_ids : Forall (fun e => given s (claim_id e)) (recs (pq_processing s));
  ok_settled : Forall (given s) (settled_list s);
}.

(** What a batch in hand says of the files. *)
Record held (b : batch) (s : pending) : Prop := {
  he_entries : recs (pq_processing s) = map nulled (b_entries b);
  he_ids : NoDup (map claim_id (b_entries b));
  he_given : Forall (fun e => given s (claim_id e)) (b_entries b);
  he_settled : forall v, v ∈ b_settled b -> v ∈ settled_list s;
}.

(** The same three files, perhaps later. *)
Record later (s s' : pending) : Prop := {
  la_queue : pq_queue s' = pq_queue s;
  la_processing : pq_processing s' = pq_processing s;
  la_settled : pq_settled s' = pq_settled s;
  la_time : (pq_time s <= pq_time s')%nat;
}.

#[export] Instance later_preorder : PreOrder later.
Proof. split; [by split|]. intros s1 s2 s3 [] []. split; congruence || lia. Qed.

Definition quiet_from (t : nat) : Prop := forall t', (t <= t')%nat -> pd_disk t' = Works.
Definition faulty (s : pending) : Prop := ~ quiet_from (pq_time s).

Lemma faulty_at s t : (pq_time s <= t)%nat -> pd_disk t <> Works -> faulty s.
Proof. intros Ht Hd Hq. by apply Hd, Hq. Qed.

Lemma given_later s s' v : (pq_time s <= pq_time s')%nat -> given s v -> given s' v.
Proof. intros Ht (t & Hlt & ->). exists t. split; [lia|done]. Qed.

Lemma given_text s v : given s v -> exists i, v = JStr i.
Proof. intros (t & _ & ->). by eexists. Qed.

Lemma later_waits s s' x : later s s' -> waits s x <-> waits s' x.
Proof. intros [Hq Hp Hs _]. unfold waits, settled_list. by rewrite Hq, Hp, Hs. Qed.

Lemma later_ok s s' : later s s' -> ok s -> ok s'.
Proof.
  intros [Hq Hp Hs Ht] [O1 O2 O3 O4]. split; unfold settled_list in *; rewrite ?Hq, ?Hp, ?Hs; try done.
  - eapply Forall_impl; [exact O3|]. intros e. by apply given_later.
  - eapply Forall_impl; [exact O4|]. intros e. by apply given_later.
Qed.

Lemma later_held b s s' : later s s' -> held b s -> held b s'.
Proof.
  intros [Hq Hp Hs Ht] [H1 H2 H3 H4]. split; unfold settled_list in *; rewrite ?Hp, ?Hs; try done.
  eapply Forall_impl; [exact H3|]. intros e. by apply given_later.
Qed.

Lemma nulled_id s e : given s (claim_id e) -> claim_id (nulled e) = claim_id e.
Proof. intros (t & _ & Ht). rewrite Ht. by apply (proj2 (get_text_nulled _ _ _)). Qed.

(** ** What a program leaves, however it ends *)
Definition ends {A} (m : Q A) (s : pending) (E : pending -> Prop) (R : A -> pending -> Prop) : Prop :=
  match m s with (Ok a, s') => R a s' | (Err _, s') => E s' end.

Lemma ends_bind {A B} (m : Q A) (k : A -> Q B) s E R1 R :
  ends m s E R1 -> (forall a s', R1 a s' -> ends (k a) s' E R) -> ends (m ≫= k) s E R.
Proof. unfold ends. rewrite bind_run. destruct (m s) as [[a|e] s']; [|done]. intros Hm Hk. by apply Hk. Qed.

Lemma ends_gets {A B} (f : pending -> A) (k : A -> Q B) s E R : ends (k (f s)) s E R -> ends (gets f ≫= k) s E R.
Proof. done. Qed.

Lemma ends_res {A B} (r : res A) (k : A -> Q B) s (E : pending -> Prop) R :
  match r with Ok a => ends (k a) s E R | Err _ => E s end -> ends (of_res r ≫= k) s E R.
Proof. unfold ends. rewrite bind_run. by destruct r. Qed.

Lemma ends_check s0 s : (pq_time s0 <= pq_time s)%nat -> ends check_access s (fun s' => faulty s0 /\ later s s') (fun _ s' => later s s').
Proof.
  intros Ht. unfold ends, check_access. rewrite bind_run. cbn. assert (later s (access s).2) as Hl by (split; cbn; lia || done).
  cbn in Hl. destruct (pd_disk (pq_time s)) eqn:Hd; cbn; try done; split; try done; apply (faulty_at _ (pq_time s)); congruence || lia.
Qed.

Lemma ends_read s0 s file : (pq_time s0 <= pq_time s)%nat -> (forall s', later s s' -> file s' = file s) ->
  ends (reading file) s (fun s' => faulty s0 /\ later s s') (fun ls s' => later s s' /\ ls = default [] (file s)).
Proof.
  intros Ht Hf. unfold reading. eapply ends_bind; [by apply ends_check|]. intros [] s' Hl. apply ends_gets. split; [done|]. f_equal. by apply Hf.
Qed.

Lemma ends_aside s0 s rs : (pq_time s0 <= pq_time s)%nat -> ends (keep_aside rs) s (fun s' => faulty s0 /\ later s s') (fun _ s' => later s s').
Proof.
  intros Ht. unfold ends, keep_aside. rewrite bind_run. cbn.
  assert (pd_disk (pq_time s) <> Works -> faulty s0) as Hf by (by apply faulty_at).
  destruct (pd_disk (pq_time s)) eqn:Hd; cbn; [|split; [by apply Hf|]|split; [by apply Hf|]]; split; cbn; done || lia.
Qed.

Lemma ends_read_kept s0 s f : (pq_time s0 <= pq_time s)%nat ->
  ends (read_keeping_damaged f) s (fun s' => faulty s0 /\ later s s') (fun r s' => later s s' /\ r.1 = recs (file_of_name f s)).
Proof.
  intros Ht. unfold read_keeping_damaged. eapply ends_bind.
  { apply (ends_read s0); [done|]. intros s' []. by destruct f. }
  intros ls s1 [Hl1 ->]. destruct (damaged_lines _ _) as [|d ds]; [by split|]. eapply (ends_bind access _ _ _ (fun _ s' => later s s')).
  { unfold ends. cbn. etrans; [exact Hl1|]. split; cbn; lia || done. }
  intros t s2 Hl2. pose proof (la_time _ _ Hl2) as Ht2. eapply ends_bind.
  { pose proof (ends_aside s0 s2 (map (fun d => {| kl_at := pd_clock t; kl_from := f; kl_position := d.1; kl_raw := d.2 |}) (d :: ds)) ltac:(lia)) as Ha.
    unfold ends in *. destruct (keep_aside _ _) as [[[]|] s3]; [|destruct Ha; split; [done|by etrans]]. instantiate (1 := fun _ s' => later s s'). cbn. by etrans. }
  intros [] s3 Hl3. by split.
Qed.

(** ** Writing *)
Abbreviation setter := ((option (list line) -> option (list line)) -> pending -> pending).

Definition put (ls : option (list line)) : option (list line) -> option (list line) := fun _ => ls.
Definition more (ls : list line) : option (list line) -> option (list line) := fun f => Some (default [] f ++ ls).

(** A setter of one of the three files. *)
Class FileSetter (set : setter) : Prop := set_access f s : later (set f s) (set f (access s).2).
#[export] Instance set_queue_file : FileSetter set_queue. Proof. split; cbn; done || lia. Qed.
#[export] Instance set_processing_file : FileSetter set_processing. Proof. split; cbn; done || lia. Qed.
#[export] Instance set_settled_file : FileSetter set_settled. Proof. split; cbn; done || lia. Qed.

Lemma later_access s : later s (access s).2.
Proof. split; cbn; done || lia. Qed.

Lemma ends_replace s0 s set ls `{!FileSetter set} : (pq_time s0 <= pq_time s)%nat ->
  ends (replacing set ls) s (fun s' => faulty s0 /\ (later s s' \/ later (set (put ls) s) s')) (fun _ s' => later (set (put ls) s) s').
Proof.
  intros Ht. unfold ends, replacing. rewrite bind_run. pose proof (later_access s). pose proof (set_access (put ls) s). cbn in *.
  assert (pd_disk (pq_time s) <> Works -> faulty s0) as Hf by (by apply faulty_at).
  destruct (pd_disk (pq_time s)) eqn:Hd; cbn; [done|split; [by apply Hf|by left]|].
  destruct (pd_landed (pq_time s)); (split; [by apply Hf|]); [by right|by left].
Qed.

Lemma made_records rs k : recs (Some (lines_made rs k)) ⊆ rs.
Proof.
  revert k. induction rs as [|e rs IH]; intros k; [done|]. cbn [lines_made]. cbv zeta. destruct (k =? 0)%nat; [apply list_subseteq_nil|].
  destruct (k <? length (dumps_default e))%nat; [apply list_subseteq_nil|]. intros x Hx. cbn in Hx. apply elem_of_cons in Hx as [->|Hx]; [by left|].
  right. by eapply IH.
Qed.

Lemma recs_rec rs : recs (Some (map Rec rs)) = rs.
Proof. induction rs as [|e rs IH]; [done|]. cbn. f_equal. exact IH. Qed.

Lemma recs_more f ls : recs (more ls f) = recs f ++ recs (Some ls).
Proof. unfold recs, more. cbn. by rewrite omap_app. Qed.

Lemma ends_add s0 s set rs `{!FileSetter set} : (pq_time s0 <= pq_time s)%nat ->
  ends (adding set rs) s (fun s' => faulty s0 /\ exists ls, recs (Some ls) ⊆ rs /\ later (set (more ls) s) s') (fun _ s' => later (set (more (map Rec rs)) s) s').
Proof.
  intros Ht. unfold ends, adding. rewrite bind_run. cbn.
  assert (pd_disk (pq_time s) <> Works -> faulty s0) as Hf by (by apply faulty_at).
  destruct (pd_disk (pq_time s)) eqn:Hd; cbn; [apply (set_access (more _) s)|..]; (split; [by apply Hf|]); eexists; (split; [apply made_records|]);
    apply (set_access (more _) s).
Qed.

Lemma ok_more_queue s ls : ok s -> Forall typed (recs (Some ls)) -> ok (set_queue (more ls) s).
Proof. intros [O1 O2 O3 O4] Hls. split; try done. cbn [pq_queue set_queue]. rewrite recs_more. by apply Forall_app. Qed.

Lemma waits_more_queue s ls x : waits (set_queue (more ls) s) x <-> waits s x \/ x ∈ map item (recs (Some ls)).
Proof. unfold waits. cbn [pq_queue pq_processing set_queue]. rewrite recs_more, map_app, elem_of_app. unfold settled_list. cbn. tauto. Qed.

Lemma held_more_queue b s ls : held b s -> held b (set_queue (more ls) s).
Proof. intros []. by split. Qed.

(** ** Taking what waits *)
Lemma in_text_set i xs : exists b : bool, in_set (JStr i) xs = Ok b /\ if b then JStr i ∈ xs else JStr i ∉ xs.
Proof.
  exists (existsb (py_eq (JStr i)) xs). split; [done|]. destruct (existsb _ _) eqn:Hx.
  - apply existsb_exists in Hx as (v & Hv & Heq). apply py_eq_str in Heq as ->. by apply list_elem_of_In.
  - apply not_true_iff_false in Hx. intros Hi. apply Hx, existsb_exists. exists (JStr i). split; [by apply list_elem_of_In|]. by apply py_eq_str.
Qed.

Lemma unsettled_given s xs l : Forall (fun e => given s (claim_id e)) l ->
  exists l', unsettled xs l = Ok l' /\ forall e, e ∈ l' <-> e ∈ l /\ claim_id e ∉ xs.
Proof.
  induction 1 as [|e l (t & _ & Hid) _ (l' & Hl' & Hin)]; [exists []; split; [done|]; intros e; rewrite elem_of_nil; tauto|].
  cbn [unsettled]. rewrite Hid, Hl'. destruct (in_text_set (uuid4_hex t) xs) as ([] & -> & Hi); cbn.
  - exists l'. split; [done|]. intros e'. rewrite elem_of_cons, Hin. split; [tauto|]. intros [[->|He'] Hn]; [by rewrite Hid in Hn|done].
  - exists (e :: l'). split; [done|]. intros e'. rewrite !elem_of_cons, Hin. split; [|tauto]. intros [->|[He' Hn]]; [rewrite Hid; tauto|tauto].
Qed.

Lemma hash_given s vs : Forall (given s) vs -> hash_all vs = Ok vs.
Proof. induction 1 as [|v vs (t & _ & ->) _ IH]; [done|]. cbn. by rewrite IH. Qed.

Lemma repeats_total seen l : Forall typed l -> exists l', drop_repeats seen l = Ok l'.
Proof.
  intros Hl. revert seen. induction Hl as [|e l Ht _ IH]; intros seen; [by eexists|]. cbn [drop_repeats]. fold (reappraises e). cbv zeta.
  destruct (reappraises e) eqn:Hr; [|destruct (IH seen) as [l' ->]; by eexists]. destruct (ty_id e Ht Hr) as [m ->]. destruct (in_text_set m seen) as ([] & -> & _); cbn; [apply IH|].
  destruct (IH (JStr m :: seen)) as [l' ->]. by eexists.
Qed.

Lemma settled_no_file s : pq_settled s = None -> settled_list s = [].
Proof. unfold settled_list. by intros ->. Qed.

Lemma ends_settled s0 s : (pq_time s0 <= pq_time s)%nat -> ok s ->
  ends settled_ids s (fun s' => faulty s0 /\ later s s') (fun xs s' => later s s' /\ xs = settled_list s).
Proof.
  intros Ht Hok. unfold settled_ids. apply ends_gets. case_bool_decide as Hx; cbn [negb].
  - eapply ends_bind; [apply (ends_read s0); [done|by intros s' []]|]. intros ls s' [Hl ->].
    unfold ends, of_res. change (map _ (recs _)) with (settled_list s). by rewrite (hash_given s _ (ok_settled s Hok)).
  - split; [done|]. symmetry. apply settled_no_file. by apply eq_None_not_Some.
Qed.

Lemma ends_left s0 s : (pq_time s0 <= pq_time s)%nat -> ok s ->
  ends left_over s (fun s' => faulty s0 /\ later s s')
    (fun l s' => later s s' /\ forall e, e ∈ l <-> e ∈ recs (pq_processing s) /\ claim_id e ∉ settled_list s).
Proof.
  intros Ht Hok. unfold left_over. apply ends_gets. case_bool_decide as Hx; cbn [negb].
  - eapply ends_bind; [by apply ends_settled|]. intros xs s1 [Hl1 ->]. pose proof (la_time _ _ Hl1). eapply ends_bind.
    { pose proof (ends_read_kept s0 s1 PROCESSING ltac:(lia)) as Hr. unfold ends in *. destruct (read_keeping_damaged _ _) as [[r|] s2].
      - instantiate (1 := fun r s2 => later s s2 /\ r.1 = recs (pq_processing s)). destruct Hr as [Hl2 Hr]. split; [by etrans|]. by rewrite Hr, <- (la_processing _ _ Hl1).
      - destruct Hr. split; [done|]. by etrans. }
    intros [kept d] s2 [Hl2 Hk]. cbn in Hk. subst kept. destruct (unsettled_given s (settled_list s) _ (ok_ids s Hok)) as (l' & Hl' & Hin).
    unfold ends, of_res. by rewrite Hl'.
  - split; [done|]. apply eq_None_not_Some in Hx. rewrite Hx. intros e. cbn. rewrite elem_of_nil. tauto.
Qed.

Lemma ends_queued s0 s : (pq_time s0 <= pq_time s)%nat ->
  ends queued_rows s (fun s' => faulty s0 /\ later s s') (fun r s' => later s s' /\ r.1 = recs (pq_queue s)).
Proof.
  intros Ht. unfold queued_rows. apply ends_gets. case_bool_decide as Hx; [by apply ends_read_kept|].
  split; [done|]. apply eq_None_not_Some in Hx. by rewrite Hx.
Qed.

Hypothesis uuid_inj : forall t t', uuid4_hex t = uuid4_hex t' -> t = t'.
Hypothesis uuid_text : forall t, uuid4_hex t <> [].

Definition stamped_in (a b : nat) (e : json) : Prop := exists t, (a <= t < b)%nat /\ claim_id e = JStr (uuid4_hex t).

Lemma stamped l s : Forall typed l -> exists l' s', stamp_all l s = (Ok l', s') /\ later s s' /\ map item l' = map item l /\
  Forall typed l' /\ Forall (stamped_in (pq_time s) (pq_time s')) l' /\ NoDup (map claim_id l').
Proof.
  intros Hl. revert s. induction Hl as [|e l Ht _ IH]; intros s; [exists [], s; repeat split; (constructor || done)|].
  destruct (IH (access s).2) as (l' & s' & Hr & Hs & Hi & Htl & Hst & Hnd). set (v := JStr (uuid4_hex (pq_time s))). exists (with_key "_claim_id" v e :: l'), s'.
  pose proof (la_time _ _ Hs) as Hlt. cbn in Hlt. assert (stamp_all (e :: l) s = (Ok (with_key "_claim_id" v e :: l'), s')) as ->.
  { transitivity (match stamp_all l (access s).2 with (Ok r, s'') => (Ok (with_key "_claim_id" v e :: r), s'') | (Err x, s'') => (Err x, s'') end); [done|].
    by rewrite Hr. }
  pose proof (marked_id v e (ty_obj e Ht)) as Hid. split_and!; [done| |cbn; by rewrite item_marked, Hi|constructor; [by apply typed_marked|done]|constructor|].
  - etrans; [apply later_access|exact Hs].
  - exists (pq_time s). split; [lia|done].
  - eapply Forall_impl; [exact Hst|]. intros e' (t & Hb & He'). exists t. split; [cbn in Hb; lia|done].
  - cbn. rewrite Hid. constructor; [|done]. intros (e' & He' & Hin)%list_elem_of_fmap. rewrite Forall_forall in Hst.
    destruct (Hst e' Hin) as (t & Hb & Hc). rewrite Hc in He'. injection He' as He'. apply uuid_inj in He'. cbn in Hb. lia.
Qed.

(** The files while a claim of these entries is being written. *)
Record writing (es : list json) (s : pending) : Prop := {
  wr_processing : recs (pq_processing s) = map nulled es;
  wr_typed : Forall typed es;
  wr_given : Forall (fun e => given s (claim_id e)) es;
  wr_open : Forall (fun e => claim_id e ∉ settled_list s) es;
  wr_queue : Forall typed (recs (pq_queue s));
  wr_settled : Forall (given s) (settled_list s);
}.

Lemma writing_later es s s' : later s s' -> writing es s -> writing es s'.
Proof.
  intros [Hq Hp Hs Ht] [W1 W2 W3 W4 W5 W6]. split; unfold settled_list in *; rewrite ?Hq, ?Hp, ?Hs; try done.
  - eapply Forall_impl; [exact W3|]. intros e. by apply given_later.
  - eapply Forall_impl; [exact W6|]. intros e. by apply given_later.
Qed.

Lemma writing_ok es s : writing es s -> ok s.
Proof.
  intros [W1 W2 W3 W4 W5 W6]. split; [done|..|done]; rewrite W1; apply Forall_map; [by eapply Forall_impl; [exact W2|]; intros; apply typed_nulled|].
  eapply Forall_impl; [exact W3|]. cbn. intros e He. by rewrite (nulled_id s e He).
Qed.

Lemma writing_waits es s x : writing es s -> x ∈ map item es -> waits s x.
Proof.
  intros [W1 W2 W3 W4 W5 W6] (e & -> & He)%list_elem_of_fmap. right. exists (nulled e). rewrite Forall_forall in W3, W4. split_and!.
  - rewrite W1. by apply list_elem_of_fmap_2.
  - apply item_nulled.
  - rewrite (nulled_id s e (W3 e He)). by apply W4.
Qed.

Lemma writing_reset es s : writing es s -> writing es (set_settled (put (Some [])) s).
Proof. intros [W1 W2 W3 W4 W5 W6]. split; try done. eapply Forall_impl; [exact W4|]. intros e _ He. by apply not_elem_of_nil in He. Qed.

Lemma writing_emptied es s : writing es s -> writing es (set_queue (put (Some [])) s).
Proof. intros [W1 W2 W3 W4 W5 W6]. by split. Qed.

(** What a claim that returns leaves. *)
Record taken (s : pending) (b : batch) (s' : pending) : Prop := {
  tk_ok : ok s';
  tk_held : held b s';
  tk_none : b_settled b = [];
  tk_items : forall x, waits s x <-> x ∈ map item (b_entries b);
  tk_open : Forall (fun e => claim_id e ∉ settled_list s') (b_entries b);
  tk_queue : recs (pq_queue s') = [];
  tk_typed : Forall typed (b_entries b);
  tk_time : (pq_time s <= pq_time s')%nat;
}.

Definition kept (s s' : pending) : Prop := ok s' /\ forall x, waits s x -> waits s' x.

Lemma kept_later s s' : ok s -> later s s' -> kept s s'.
Proof. intros Hok Hl. split; [by eapply later_ok|]. intros x. by apply (later_waits _ _ _ Hl). Qed.

Lemma kept_writing s es s' : (forall x, waits s x <-> x ∈ map item es) -> writing es s' -> kept s s'.
Proof. intros Hx Hw. split; [by eapply writing_ok|]. intros x Hin. eapply writing_waits; [done|]. by apply Hx. Qed.

(** An access that may fail, where what may be left is acceptable either way. *)
Lemma step_replace {A} (k : unit -> Q A) s0 s set ls `{!FileSetter set} E R : (pq_time s0 <= pq_time s)%nat ->
  (forall s', faulty s0 -> later s s' -> E s') -> (forall s', faulty s0 -> later (set (put ls) s) s' -> E s') ->
  (forall s', later (set (put ls) s) s' -> ends (k tt) s' E R) -> ends (replacing set ls ≫= k) s E R.
Proof.
  intros Ht H1 H2 H3. eapply ends_bind.
  - pose proof (ends_replace s0 s set ls Ht) as Hr. unfold ends in *. destruct (replacing _ _ s) as [[[]|] s'].
    + instantiate (1 := fun _ s' => later (set (put ls) s) s'). exact Hr.
    + destruct Hr as [Hf [Hl|Hl]]; auto.
  - intros [] s' Hl. by apply H3.
Qed.

Lemma ends_weaken {A} (m : Q A) s (E E' : pending -> Prop) (R R' : A -> pending -> Prop) :
  ends m s E R -> (forall s', E s' -> E' s') -> (forall a s', R a s' -> R' a s') -> ends m s E' R'.
Proof. unfold ends. destruct (m s) as [[a|] s']; auto. Qed.

Lemma write_some s s1 es b c : (pq_time s <= pq_time s1)%nat -> es <> [] -> kept s s1 ->
  (forall x, waits s x <-> x ∈ map item es) -> NoDup (map claim_id es) -> (b = [] -> c = false -> recs (pq_queue s1) = []) ->
  (forall s2, later (set_processing (put (Some (map (fun e => Rec (nulled e)) es))) s1) s2 -> writing es s2) ->
  forall had, ends (write_claim had b c es) s1 (fun s' => faulty s /\ kept s s') (fun r s' => taken s r s' /\ b_entries r = es).
Proof.
  intros Ht Hne Hk Hx Hnd Hq Hw had. destruct es as [|e es]; [done|]. set (l := e :: es) in *. cbn [write_claim].
  assert (forall s1 s2, later s1 s2 -> kept s s1 -> kept s s2) as Hkl.
  { intros ? ? Hl [Ho Hi]. split; [by eapply later_ok|]. intros x Hin. apply (later_waits _ _ _ Hl). by apply Hi. }
  assert (forall s', writing l s' -> kept s s') as Hkw by (intros; by eapply kept_writing).
  apply (step_replace _ s); [apply _|lia|by cbv beta; eauto|by cbv beta; eauto|]. intros s2 H2. pose proof (Hw s2 H2) as W2. pose proof (la_time _ _ H2) as T2. cbn in T2.
  apply (step_replace _ s); [apply _|lia|by cbv beta; eauto using writing_later|by cbv beta; eauto using writing_later, writing_reset|]. intros s3 H3.
  assert (writing l s3) as W3 by (eauto using writing_later, writing_reset). pose proof (la_time _ _ H3) as T3. cbn in T3.
  assert (forall s', writing l s' -> settled_list s' = [] -> recs (pq_queue s') = [] -> (pq_time s <= pq_time s')%nat ->
    taken s {| b_entries := l; b_settled := [] |} s' /\ b_entries {| b_entries := l; b_settled := [] |} = l) as Hdone.
  { intros s' W' Hs' Hq' T'. split; [|done]. destruct (W') as [W1 Wt Wg Wo _ _]. split; try done; [by eapply writing_ok|]. split; try done. intros v Hv. by apply not_elem_of_nil in Hv. }
  assert (settled_list s3 = []) as S3 by (unfold settled_list; by rewrite (la_settled _ _ H3)).
  destruct (match b with [] => c | _ => true end) eqn:Hb.
  - apply (step_replace _ s); [apply _|lia|by cbv beta; eauto using writing_later|by cbv beta; eauto using writing_later, writing_emptied|]. intros s4 H4. apply Hdone.
    + eauto using writing_later, writing_emptied.
    + unfold settled_list in *. by rewrite (la_settled _ _ H4).
    + by rewrite (la_queue _ _ H4).
    + pose proof (la_time _ _ H4) as T4. cbn in T4. lia.
  - apply Hdone; [done|done| |lia]. rewrite (la_queue _ _ H3). cbn. rewrite (la_queue _ _ H2). cbn. destruct b; [by apply Hq|done].
Qed.

Lemma ok_gone s set : ok s -> (set = set_queue \/ set = set_processing \/ set = set_settled) -> forall ls, ls = None \/ ls = Some [] -> ok (set (put ls) s).
Proof. intros [O1 O2 O3 O4] Hset ls Hls. destruct Hset as [->|[->| ->]], Hls as [->| ->]; split; cbn; done || constructor. Qed.

Lemma write_none s s1 b c (had : bool) : (pq_time s <= pq_time s1)%nat -> ok s1 -> (forall x, ~ waits s x) -> recs (pq_queue s1) = [] ->
  (had = false -> pq_processing s1 = None /\ pq_settled s1 = None) ->
  ends (write_claim had b c []) s1 (fun s' => faulty s /\ kept s s') (fun r s' => taken s r s' /\ b_entries r = []).
Proof.
  intros Ht Hok Hno Hq Hh. cbn [write_claim]. assert (forall s', ok s' -> kept s s') as Hk by (intros s' Ho; split; [done|]; intros x Hx; by destruct (Hno x)).
  assert (forall s1 s2, later s1 s2 -> ok s1 -> ok s2) as Hl by (intros; by eapply later_ok).
  assert (forall s1 s2 set ls, (set = set_queue \/ set = set_processing \/ set = set_settled) -> ls = None \/ ls = Some [] ->
    later (set (put ls) s1) s2 -> ok s1 -> ok s2) as Hg by (intros ????? Hls ? Ho; eapply Hl; [done|by apply ok_gone]).
  eapply (ends_bind _ _ _ _ (fun _ s2 => ok s2 /\ (pq_time s <= pq_time s2)%nat /\ recs (pq_queue s2) = [] /\ pq_processing s2 = None /\ pq_settled s2 = None)).
  - destruct had; [|destruct (Hh eq_refl); by split_and!]. apply (step_replace _ s); [apply _|lia|by cbv beta; eauto|by cbv beta; eauto 10|]. intros s2 H2. pose proof (la_time _ _ H2) as T2. cbn in T2.
    assert (ok s2) as O2 by eauto 10. eapply ends_weaken; [apply (ends_replace s); [apply _|lia]|..]; cbn beta; [intros s' [? [?|?]]; eauto 10|].
    intros _ s3 H3. pose proof (la_time _ _ H3) as T3. cbn in T3. split_and!; [by eauto 10|lia|..];
      rewrite ?(la_queue _ _ H3), ?(la_processing _ _ H3), ?(la_settled _ _ H3); cbn; rewrite ?(la_queue _ _ H2), ?(la_processing _ _ H2); done.
  - intros [] s2 (O2 & T2 & Q2 & P2 & S2).
    assert (forall s', ok s' -> recs (pq_queue s') = [] -> pq_processing s' = None -> (pq_time s <= pq_time s')%nat -> taken s {| b_entries := []; b_settled := [] |} s') as Hd.
    { intros s' Ho Hq' Hp' T'. split; [done| |done| |by constructor|done|by constructor|done].
      - split; cbn; [by rewrite Hp'|by constructor|by constructor|]. intros v Hv. by apply not_elem_of_nil in Hv.
      - intros x. split; intros Hx; [by destruct (Hno x)|by apply not_elem_of_nil in Hx]. }
    destruct c; [|split; [by apply Hd|done]]. apply (step_replace _ s); [apply _|lia|by cbv beta; eauto|by cbv beta; eauto 10|]. intros s3 H3. split; [|done].
    apply Hd; [by eauto 10|by rewrite (la_queue _ _ H3)|by rewrite (la_processing _ _ H3)|]. pose proof (la_time _ _ H3) as T3. cbn in T3. lia.
Qed.

(** The memories that items ask to be re-appraised. *)
Definition memories (xs : list (json + pystr)) : list pystr := omap (fun x => match x with inr m => Some m | inl _ => None end) xs.

Lemma repeats_once l seen l' : drop_repeats seen l = Ok l' -> Forall typed l ->
  NoDup (memories (map item l')) /\ forall m, m ∈ memories (map item l') -> JStr m ∉ seen.
Proof.
  revert seen l'. induction l as [|e l IH]; intros seen l' Hl Ht; [injection Hl as <-; split; [constructor|intros m Hm; by apply not_elem_of_nil in Hm]|].
  apply Forall_cons in Ht as [Hte Ht]. cbn [drop_repeats] in Hl. cbv zeta in Hl. fold (reappraises e) in Hl. destruct (reappraises e) eqn:Hr.
  - destruct (ty_id e Hte Hr) as [m Hm]. assert (item e = inr m) as Hi by (unfold item; by rewrite Hr, Hm). rewrite Hm in Hl.
    destruct (in_text_set m seen) as (b & Hb & Hin). rewrite Hb in Hl. destruct b; cbn in Hl; [by apply IH|].
    destruct (drop_repeats (JStr m :: seen) l) as [rest|] eqn:Hrest; [|done]. cbn in Hl. injection Hl as <-. destruct (IH _ _ Hrest Ht) as [Hnd Hout].
    cbn. rewrite Hi. cbn. split; [constructor; [|done]|].
    + intros Hm'. apply (Hout m Hm'). by left.
    + intros m' [->|Hm']%elem_of_cons; [done|]. intros Hs. apply (Hout m' Hm'). by right.
  - destruct (drop_repeats seen l) as [rest|] eqn:Hrest; [|done]. cbn in Hl. injection Hl as <-. destruct (IH _ _ Hrest Ht) as [Hnd Hout].
    cbn. assert (exists c, item e = inl c) as [c ->] by (unfold item; rewrite Hr; by eexists). by split.
Qed.

Lemma waits_rows s l x : (forall e, e ∈ l <-> e ∈ recs (pq_processing s) /\ claim_id e ∉ settled_list s) ->
  waits s x <-> x ∈ map item (l ++ recs (pq_queue s)).
Proof.
  intros Hl. unfold waits. rewrite map_app, elem_of_app, (list_elem_of_fmap item l). split.
  - intros [Hq|(e & He & <- & Hn)]; [by right|]. left. exists e. split; [done|]. by apply Hl.
  - intros [(e & -> & He)|Hq]; [|by left]. right. exists e. apply Hl in He as [He Hn]. done.
Qed.

Lemma kept_faulty s s' : ok s -> faulty s /\ later s s' -> faulty s /\ kept s s'.
Proof. intros Hok [Hf Hl]. split; [done|]. by apply kept_later. Qed.

Lemma write_first s s1 es s2 : ok s -> later s s1 -> Forall typed es -> Forall (stamped_in (pq_time s) (pq_time s1)) es ->
  later (set_processing (put (Some (map (fun e => Rec (nulled e)) es))) s1) s2 -> writing es s2.
Proof.
  intros Hok H1 Ht Hst H2. pose proof (la_time _ _ H1). pose proof (la_time _ _ H2) as T2. cbn in T2.
  assert (settled_list s2 = settled_list s) as Hs by (unfold settled_list; by rewrite (la_settled _ _ H2), <- (la_settled _ _ H1)).
  split; rewrite ?Hs, ?(la_processing _ _ H2), ?(la_queue _ _ H2); cbn [put set_processing pq_processing pq_queue].
  - rewrite <- (recs_rec (map nulled es)). by rewrite map_map.
  - done.
  - eapply Forall_impl; [exact Hst|]. intros e (t & Hb & He). exists t. split; [lia|done].
  - eapply Forall_impl; [exact Hst|]. intros e (t & Hb & He) Hin. pose proof (ok_settled s Hok) as Hg. rewrite Forall_forall in Hg.
    destruct (Hg _ Hin) as (t' & Hlt & He'). rewrite He in He'. injection He' as He'. apply uuid_inj in He'. lia.
  - rewrite (la_queue _ _ H1). apply Hok.
  - eapply Forall_impl; [apply Hok|]. intros v. apply given_later. lia.
Qed.

Lemma write_ends s s1 es c had : ok s -> later s s1 -> (forall x, waits s x <-> x ∈ map item es) -> Forall typed es ->
  Forall (stamped_in (pq_time s) (pq_time s1)) es -> NoDup (map claim_id es) -> (had = false -> pq_processing s = None /\ pq_settled s = None) ->
  ends (write_claim had (recs (pq_queue s)) c es) s1 (fun s' => faulty s /\ kept s s') (fun b s' => taken s b s' /\ b_entries b = es).
Proof.
  intros Hok H1 Hx Ht Hst Hnd Hh. destruct H1 as [Hq Hp Hs T1] eqn:HH. clear HH.
  destruct es as [|e l] eqn:Hes.
  - apply write_none; [done|by eapply later_ok| | |intros Hf; by rewrite Hp, Hs; apply Hh]; [intros x; rewrite Hx; apply not_elem_of_nil|].
    rewrite Hq. destruct (recs (pq_queue s)) as [|e l] eqn:Hr; [done|]. exfalso. apply (not_elem_of_nil (item e)). apply Hx. left. rewrite Hr. by left.
  - rewrite <- Hes in *. apply write_some; try done; [by subst|by apply kept_later|intros Hn _; by rewrite Hq|]. intros s2. by apply (write_first s).
Qed.

(** A claim that fails, or where the process dies, keeps all that waits; one that
    returns has taken all of it. *)
Lemma claim_ends s : ok s ->
  ends claim s (fun s' => faulty s /\ kept s s') (fun b s' => taken s b s' /\ NoDup (memories (map item (b_entries b)))).
Proof.
  intros Hok. unfold claim.
  assert (forall A (m : Q A) s1 (R R' : A -> pending -> Prop), later s s1 ->
    ends m s1 (fun s' => faulty s /\ later s1 s') R -> (forall a s', R a s' -> R' a s') -> ends m s1 (fun s' => faulty s /\ kept s s') R') as Hread.
  { intros A m s1 R R' Hl Hm HR. eapply ends_weaken; [exact Hm| |done]. intros s' [Hf Hl']. split; [done|]. apply kept_later; [done|by etrans]. }
  eapply ends_bind; [by eapply Hread; [|by apply ends_check|]|]. intros [] s1 H1. cbn beta in H1. apply ends_gets.
  pose proof (la_time _ _ H1) as T1. eapply ends_bind; [eapply Hread; [done|apply (ends_left s); [done|by eapply later_ok]|done]|].
  intros l s2 [H2 Hl]. cbn beta. assert (later s s2) as H2' by (by etrans). pose proof (la_time _ _ H2') as T2.
  eapply ends_bind; [by eapply Hread; [done|by apply (ends_queued s)|]|]. intros [q c] s3 [H3 Hq]. cbn [fst] in Hq.
  assert (later s s3) as H3' by (by etrans). rewrite (la_queue _ _ H2') in Hq. unfold settled_list in Hl. rewrite (la_processing _ _ H1), (la_settled _ _ H1) in Hl.
  fold (settled_list s) in Hl. clear H3 H2. assert (Forall typed (l ++ q)) as Ht.
  { apply Forall_app. split; [|rewrite Hq; apply Hok]. apply Forall_forall. intros e He. apply Hl in He as [He _]. pose proof (ok_processing s Hok) as Hp.
    rewrite Forall_forall in Hp. by apply Hp. }
  destruct (repeats_total [] _ Ht) as [cs Hcs]. apply ends_res. rewrite Hcs. destruct (repeats_kept [] _ _ Hcs Ht) as [Hsub Hin].
  destruct (repeats_once _ _ _ Hcs Ht) as [Hone _].
  assert (Forall typed cs) as Htc by (rewrite Forall_forall in Ht |- *; auto).
  destruct (stamped cs s3 Htc) as (es & s4 & Hst & H4 & Hi & Hte & Hfr & Hnd). rewrite <- Hi in Hone.
  assert (forall x, waits s x <-> x ∈ map item es) as Hx.
  { intros x. rewrite (waits_rows s l x Hl), <- Hq, Hi. split; intros (e & -> & He)%list_elem_of_fmap.
    - destruct (Hin e He) as [|(m & _ & Hm)]; [done|]. by apply not_elem_of_nil in Hm.
    - apply list_elem_of_fmap_2. by apply Hsub. }
  eapply (ends_bind _ _ _ _ (fun es' s' => es' = es /\ s' = s4)); [by unfold ends; rewrite Hst|]. intros ? ? [-> ->].
  assert (later s s4) as H4' by (by etrans). pose proof (la_time _ _ H4') as T4.
  rewrite Hq. eapply ends_weaken; [apply (write_ends s s4 es); try done| done |].
  - eapply Forall_impl; [exact Hfr|]. intros e (t & Hb & He). pose proof (la_time _ _ H3'). exists t. split; [lia|done].
  - intros (Hp & Hs)%orb_false_iff. rewrite (la_processing _ _ H1) in Hp. rewrite (la_settled _ _ H1) in Hs.
    apply bool_decide_eq_false in Hp, Hs. by rewrite <- !eq_None_not_Some in *.
  - intros b s' [Htk ->]. done.
Qed.

(** ** Settling and closing *)
Definition settled_line (v : json) : json := JObj [(u "id", v)].

Lemma settled_more s ls : settled_list (set_settled (more ls) s) = settled_list s ++ map (jget_none (u "id")) (recs (Some ls)).
Proof. unfold settled_list. cbn [pq_settled set_settled]. by rewrite recs_more, map_app. Qed.

(** The settled file grew by the id of this entry, or not at all. *)
Lemma waits_settled s b e ls x : held b s -> e ∈ b_entries b -> recs (Some ls) ⊆ [settled_line (claim_id e)] ->
  waits s x -> waits (set_settled (more ls) s) x \/ x = item e.
Proof.
  intros [H1 H2 H3 H4] He Hls [Hq|(e' & He' & Hi & Hn)]; [left; by left|]. rewrite H1 in He'. apply list_elem_of_fmap in He' as (e0 & -> & He0).
  rewrite item_nulled in Hi. pose proof (proj1 (Forall_forall _ _) H3 e0 He0) as Hg0. cbn in Hg0. rewrite (nulled_id s e0 Hg0) in Hn.
  assert (claim_id e0 = claim_id e \/ claim_id e0 <> claim_id e) as [Heq|Hne].
  { pose proof (proj1 (Forall_forall _ _) H3 e He) as (t & _ & Ht). destruct Hg0 as (t0 & _ & Ht0). rewrite Ht, Ht0.
    destruct (decide (uuid4_hex t0 = uuid4_hex t)); [left; congruence|right; congruence]. }
  - right. rewrite <- Hi. f_equal. apply list_elem_of_lookup in He as [i Hei], He0 as [j Hj].
    assert (j = i) as -> by (eapply (NoDup_lookup _ _ _ _ H2); rewrite list_lookup_fmap; [rewrite Hj|rewrite Hei]; cbn; by rewrite ?Heq). congruence.
  - left. right. exists (nulled e0). split_and!; [cbn [pq_processing set_settled]; rewrite H1; by apply list_elem_of_fmap_2|by rewrite item_nulled|].
    rewrite (nulled_id s e0 Hg0), settled_more, elem_of_app. intros [Hin|(r & Hr & Hin)%list_elem_of_fmap]; [done|].
    apply Hls, list_elem_of_singleton in Hin as ->. done.
Qed.

Lemma ok_more_settled s e ls : ok s -> given s (claim_id e) -> recs (Some ls) ⊆ [settled_line (claim_id e)] -> ok (set_settled (more ls) s).
Proof.
  intros [O1 O2 O3 O4] Hg Hls. split; try done. rewrite settled_more. apply Forall_app. split; [done|]. apply Forall_map, Forall_forall. intros r Hr.
  apply Hls, list_elem_of_singleton in Hr as ->. done.
Qed.

Lemma held_more_settled s b ls : held b s -> held b (set_settled (more ls) s).
Proof. intros [H1 H2 H3 H4]. split; try done. intros v Hv. rewrite settled_more. apply elem_of_app. left. by apply H4. Qed.

(** What is left after settling this entry: everything else still waits. *)
Record settled_one (s : pending) (e : json) (s' : pending) : Prop := {
  so_ok : ok s';
  so_waits : forall x, waits s x -> waits s' x \/ x = item e;
}.

Record noted (s : pending) (b : batch) (e : json) (b' : batch) (s' : pending) : Prop := {
  nt_one : settled_one s e s';
  nt_held : held b' s';
  nt_entries : b_entries b' = b_entries b;
  nt_more : forall v, v ∈ b_settled b -> v ∈ b_settled b';
  nt_quiet : quiet_from (pq_time s) -> claim_id e ∈ b_settled b';
  nt_time : (pq_time s <= pq_time s')%nat;
  nt_queue : pq_queue s' = pq_queue s;
}.

Lemma settle_ends s b e : ok s -> held b s -> e ∈ b_entries b ->
  ends (settle b e) s (fun s' => faulty s /\ settled_one s e s' /\ held b s') (fun b' s' => noted s b e b' s').
Proof.
  intros Hok Hb He. pose proof (proj1 (Forall_forall _ _) (he_given b s Hb) e He) as Hg. cbn in Hg. pose proof Hg as (t & _ & Ht).
  unfold settle. cbv zeta. rewrite Ht. assert (jtruthy (JStr (uuid4_hex t)) = true) as -> by (cbn; pose proof (uuid_text t); by destruct (uuid4_hex t)). cbn [negb].
  assert (settled_one s e s) as Hsame by (split; [done|by left]). destruct (in_text_set (uuid4_hex t) (b_settled b)) as (d & Hd & Hin).
  apply ends_res. rewrite Hd. destruct d; [split; done || by intros _; rewrite Ht|].
  assert (forall ls s', recs (Some ls) ⊆ [settled_line (claim_id e)] -> later (set_settled (more ls) s) s' -> settled_one s e s' /\ held b s') as Hw.
  { intros ls s' Hls Hl. split; [split|].
    - eapply later_ok; [done|]. by apply (ok_more_settled _ e).
    - intros x Hx. destruct (waits_settled s b e ls x Hb He Hls Hx) as [Hx'|]; [left|by right]. by apply (later_waits _ _ _ Hl).
    - eapply later_held; [done|]. by apply held_more_settled. }
  pose proof (ends_add s s set_settled [settled_line (claim_id e)] ltac:(lia)) as Ha. rewrite Ht in Ha, Hw. fold (settled_line (JStr (uuid4_hex t))).
  unfold ends in *. rewrite bind_run. unfold catch. rewrite bind_run. destruct (adding _ _ s) as [[[]|x] s'] eqn:Hadd.
  - cbn. destruct (Hw _ _ ltac:(rewrite recs_rec; done) Ha) as [Hone Hh].
    split; cbn; [done| |done|intros v Hv; by right|intros _; rewrite Ht; by left|exact (la_time _ _ Ha)|exact (la_queue _ _ Ha)].
    destruct Hh as [B1 B2 B3 B4]. split; try done. cbn. intros v [->|Hv]%elem_of_cons; [|by apply B4].
    unfold settled_list. rewrite (la_settled _ _ Ha). change (JStr (uuid4_hex t) ∈ settled_list (set_settled (more (map Rec [settled_line (JStr (uuid4_hex t))])) s)).
    rewrite settled_more, recs_rec. apply elem_of_app. right. by left.
  - destruct Ha as (Hf & ls & Hls & Hl). destruct (Hw _ _ Hls Hl) as [Hone Hh].
    destruct x; cbn; try done. split; [done|done|done|done|by intros Hq|exact (la_time _ _ Hl)|exact (la_queue _ _ Hl)].
Qed.

Lemma all_settled_iff s b : Forall (fun e => given s (claim_id e)) (b_entries b) ->
  exists d : bool, all_settled b = Ok d /\ (d = true <-> forall e, e ∈ b_entries b -> claim_id e ∈ b_settled b).
Proof.
  intros Hg. destruct (unsettled_given s (b_settled b) _ Hg) as (l & Hl & Hin). exists (no_rows l). unfold all_settled. rewrite Hl. split; [done|].
  assert (forall e, e ∈ b_entries b -> claim_id e ∈ b_settled b \/ claim_id e ∉ b_settled b) as Hdec.
  { intros e He. rewrite Forall_forall in Hg. destruct (Hg e He) as (t & _ & ->). destruct (in_text_set (uuid4_hex t) (b_settled b)) as ([] & _ & ?); auto. }
  split.
  - intros Hn e He. destruct (Hdec e He) as [|Hno]; [done|]. assert (e ∈ l) as Hel by (by apply Hin). destruct l; [by apply not_elem_of_nil in Hel|done].
  - intros Ha. destruct l as [|e l]; [done|]. destruct (proj1 (Hin e) ltac:(by left)) as [He Hn]. destruct Hn. by apply Ha.
Qed.

Lemma close_ends s b : ok s -> held b s ->
  ends (close b) s (fun s' => faulty s /\ kept s s')
    (fun _ s' => kept s s' /\ (pq_time s <= pq_time s')%nat /\
      ((forall e, e ∈ b_entries b -> claim_id e ∈ b_settled b) -> pq_processing s' = None /\ pq_settled s' = None /\ pq_queue s' = pq_queue s)).
Proof.
  intros Hok Hb. destruct (all_settled_iff s b (he_given b s Hb)) as (d & Hd & Hiff). unfold close. apply ends_res. rewrite Hd.
  assert (kept s s) as Hself by done. destruct d; cbn [negb]; [|split; [done|split; [done|]]; intros Ha; by apply Hiff in Ha].
  pose proof (proj1 Hiff eq_refl) as Ha. assert (forall x, waits s x -> x ∈ map item (recs (pq_queue s))) as Honly.
  { intros x [Hq|(e' & He' & Hi & Hn)]; [done|]. rewrite (he_entries b s Hb) in He'. apply list_elem_of_fmap in He' as (e & -> & He). destruct Hn.
    rewrite (nulled_id s e) by (pose proof (he_given b s Hb) as Hg; rewrite Forall_forall in Hg; by apply Hg). by apply (he_settled b s Hb), Ha. }
  assert (forall s', ok s' -> pq_queue s' = pq_queue s -> kept s s') as Hk by (intros s' Ho Hq; split; [done|]; intros x Hx; left; rewrite Hq; by apply Honly).
  apply (step_replace _ s); [apply _|lia|..].
  - intros s' Hf Hl. split; [done|]. by apply kept_later.
  - intros s' Hf Hl. split; [done|]. apply Hk; [|exact (la_queue _ _ Hl)]. eapply later_ok; [done|]. apply ok_gone; auto.
  - intros s1 H1. pose proof (la_time _ _ H1) as T1. cbn in T1. assert (ok s1) as O1 by (eapply later_ok; [done|]; apply ok_gone; auto).
    pose proof (la_queue _ _ H1) as Q1. cbn in Q1. eapply ends_weaken; [apply (ends_replace s); [apply _|lia]|..]; cbn beta.
    + intros s' [Hf [Hl|Hl]]; (split; [done|]); (apply Hk; [|by rewrite (la_queue _ _ Hl)]); (eapply later_ok; [done|]); [done|apply ok_gone; auto].
    + intros _ s' Hl. pose proof (la_time _ _ Hl) as T2. cbn in T2. split_and!; [|lia|..].
      * apply Hk; [|by rewrite (la_queue _ _ Hl)]. eapply later_ok; [done|]. apply ok_gone; auto.
      * intros _. rewrite (la_processing _ _ Hl), (la_settled _ _ Hl), (la_queue _ _ Hl). cbn. by rewrite (la_processing _ _ H1).
Qed.

(** ** Enqueueing *)
Record grown (s s' : pending) : Prop := { gr_kept : kept s s'; gr_held : forall b, held b s -> held b s' }.

Lemma grown_later s s' : ok s -> later s s' -> grown s s'.
Proof. intros Hok Hl. split; [by apply kept_later|]. intros b. by apply later_held. Qed.

Lemma grown_more s s1 s' ls : ok s -> later s s1 -> Forall typed (recs (Some ls)) -> later (set_queue (more ls) s1) s' ->
  grown s s' /\ forall x, x ∈ map item (recs (Some ls)) -> waits s' x.
Proof.
  intros Hok H1 Ht H2. split; [split; [split|]|].
  - eapply later_ok; [exact H2|]. apply ok_more_queue; [by eapply later_ok|done].
  - intros x Hx. apply (later_waits _ _ _ H2), waits_more_queue. left. by apply (later_waits _ _ _ H1).
  - intros b Hb. eapply later_held; [exact H2|]. apply held_more_queue. by eapply later_held.
  - intros x Hx. apply (later_waits _ _ _ H2), waits_more_queue. by right.
Qed.

Lemma add_queue_ends s s1 rs : ok s -> later s s1 -> Forall typed rs ->
  ends (adding set_queue rs) s1 (grown s) (fun _ s' => grown s s' /\ forall x, x ∈ map item rs -> waits s' x).
Proof.
  intros Hok H1 Ht. eapply ends_weaken; [apply (ends_add s); [apply _|exact (la_time _ _ H1)]|..]; cbn beta.
  - intros s' (_ & ls & Hls & Hl). eapply grown_more; [done|done| |done]. apply Forall_forall. intros e He. rewrite Forall_forall in Ht. by apply Ht, Hls.
  - intros _ s' Hl. pose proof (recs_rec rs) as Hr. destruct (grown_more s s1 s' (map Rec rs) Hok H1) as [Hg Hx]; [by rewrite Hr|done|]. by rewrite Hr in Hx.
Qed.

Lemma get_clamped k e : jget_none k (clamp_nonfinite e) = clamp_nonfinite (jget_none k e).
Proof.
  unfold jget_none, jget. destruct e as [| | |f| | |kvs]; try done; cbn [clamp_nonfinite]; [by destruct (is_finite f)|].
  induction kvs as [|[k' v] kvs IH]; [done|]. cbn. by case_bool_decide.
Qed.

Lemma get_with k k' v e : u k <> u k' -> jget_none (u k) (with_key k' v e) = jget_none (u k) e.
Proof. intros Hk. unfold jget_none, jget, with_key. destruct e; try done. by rewrite dict_get_set_ne. Qed.

(** A candidate as the store's [to_dict()] gives it. *)
Definition candidate (mem : json) : Prop := is_obj mem = true /\ reappraises mem = false.

Lemma candidate_typed mem source n : candidate mem -> typed (queue_entry mem source n).
Proof.
  intros [Ho Hr]. assert (reappraises (queue_entry mem source n) = false) as Hf.
  { unfold reappraises, queue_entry in *. rewrite get_clamped, !get_with by done. destruct (jget_none (u "_route") mem) as [| | |f| | |]; try done.
    cbn [clamp_nonfinite]. by destruct (is_finite f). }
  split; [by destruct mem|]. by rewrite Hf.
Qed.

Lemma enqueue_ends s mem source : ok s -> candidate mem ->
  ends (enqueue mem source) s (grown s) (fun _ s' => grown s s' /\ waits s' (item (queue_entry mem source (isoformat (pd_clock (pq_time s)))))).
Proof.
  intros Hok Hc. unfold enqueue, now_iso. eapply (ends_bind _ _ _ _ (fun n s' => later s s' /\ n = isoformat (pd_clock (pq_time s)))).
  { split; [apply later_access|done]. }
  intros n s1 [H1 ->]. cbv zeta. apply ends_res. destruct (encode_jsonl _ _); [|by apply grown_later].
  eapply ends_weaken; [apply (add_queue_ends s); [done|done|]|done|].
  - constructor; [by apply candidate_typed|constructor].
  - intros _ s' [Hg Hx]. split; [done|]. apply Hx. by left.
Qed.

Lemma reappraise_ends s ids source : ok s ->
  ends (enqueue_reappraisals ids source) s (grown s) (fun _ s' => grown s s' /\ forall m, m ∈ ids -> waits s' (inr m)).
Proof.
  intros Hok. unfold enqueue_reappraisals. destruct ids as [|i ids]; [split; [by apply grown_later|intros m Hm; by apply not_elem_of_nil in Hm]|].
  set (l := i :: ids) in *. unfold now_iso. eapply (ends_bind _ _ _ _ (fun n s' => later s s')); [apply later_access|].
  intros n s1 H1. cbv zeta. apply ends_res. destruct (encode_jsonl _ _); [|by apply grown_later]. eapply ends_bind.
  - apply (add_queue_ends s); [done|done|]. apply Forall_map, Forall_forall. intros m _. split; [done|]. intros _. by exists m.
  - intros [] s' [Hg Hx]. split; [done|]. intros m Hm. apply Hx. rewrite map_map. by apply (list_elem_of_fmap_2 (fun m => item (reappraisal_item source n m))).
Qed.

(** ** The gate at work *)
Definition inv (g : gate) : Prop := ok (g_files g) /\ forall b, g_batch g = Some b -> held b (g_files g).

Definition op_typed (o : op) : Prop := match o with OpEnqueue mem _ => candidate mem | _ => True end.

(** What an operation tells its caller it has queued. *)
Definition accepted (o : op) (g : gate) : list (json + pystr) :=
  let s := g_files g in
  match o with
  | OpEnqueue mem source => match (enqueue mem source s).1 with Ok _ => [item (queue_entry mem source (isoformat (pd_clock (pq_time s))))] | Err _ => [] end
  | OpReappraise ids source => match (enqueue_reappraisals ids source s).1 with Ok _ => map inr ids | Err _ => [] end
  | _ => []
  end.

(** The item that the gate says it has dealt with. *)
Definition settles (o : op) (g : gate) : option (json + pystr) :=
  match o, g_batch g with OpSettle n, Some b => item <$> b_entries b !! n | _, _ => None end.

Fixpoint settled_during (x : json + pystr) (ops : list op) (g : gate) : Prop :=
  match ops with [] => False | o :: ops => settles o g = Some x \/ settled_during x ops (step o g) end.

Definition stepped (o : op) (g g' : gate) : Prop :=
  inv g' /\ (forall x, waits (g_files g) x -> waits (g_files g') x \/ settles o g = Some x) /\ forall x, x ∈ accepted o g -> waits (g_files g') x.

Lemma inv_kept s s' (b : option batch) : kept s s' -> (forall b', b = Some b' -> held b' s') ->
  inv {| g_files := s'; g_batch := b |} /\ forall x y, waits s x -> waits s' x \/ y.
Proof. intros [Hok Hw] Hb. split; [by split|]. intros x y Hx. left. by apply Hw. Qed.

Lemma step_enqueue mem source g : inv g -> candidate mem -> stepped (OpEnqueue mem source) g (step (OpEnqueue mem source) g).
Proof.
  intros [Hok Hb] Hc. pose proof (enqueue_ends (g_files g) mem source Hok Hc) as He. unfold stepped, accepted, ends, step, during, settles in *.
  destruct (enqueue mem source (g_files g)) as [[[]|e] s']; cbn [fst g_files].
  - destruct He as [[Hk Hh] Hx]. destruct (inv_kept _ s' (g_batch g) Hk) as [Hi Hw]; [auto|]. split_and!; [done|auto|]. intros x ->%list_elem_of_singleton. done.
  - destruct He as [Hk Hh]. destruct (inv_kept _ s' (survives (g_batch g) e) Hk) as [Hi Hw]; [intros b' He; apply Hh, Hb; by destruct e|].
    split_and!; [done|auto|]. intros x Hx. by apply not_elem_of_nil in Hx.
Qed.

Lemma step_reappraise ids source g : inv g -> stepped (OpReappraise ids source) g (step (OpReappraise ids source) g).
Proof.
  intros [Hok Hb]. pose proof (reappraise_ends (g_files g) ids source Hok) as He. unfold stepped, accepted, ends, step, during, settles in *.
  destruct (enqueue_reappraisals ids source (g_files g)) as [[n|e] s']; cbn [fst g_files].
  - destruct He as [[Hk Hh] Hx]. destruct (inv_kept _ s' (g_batch g) Hk) as [Hi Hw]; [auto|]. split_and!; [done|auto|].
    intros x (m & -> & Hm)%list_elem_of_fmap. by apply Hx.
  - destruct He as [Hk Hh]. destruct (inv_kept _ s' (survives (g_batch g) e) Hk) as [Hi Hw]; [intros b' He; apply Hh, Hb; by destruct e|].
    split_and!; [done|auto|]. intros x Hx. by apply not_elem_of_nil in Hx.
Qed.

Lemma stepped_quietly o g g' : accepted o g = [] -> inv g' -> (forall x, waits (g_files g) x -> waits (g_files g') x) -> stepped o g g'.
Proof. intros Ha Hi Hw. split_and!; [done|auto|]. rewrite Ha. intros x Hx. by apply not_elem_of_nil in Hx. Qed.

Lemma taken_waits s b s' x : taken s b s' -> waits s x -> waits s' x.
Proof.
  intros [K1 K2 K3 K4 K5 K6 K7 K8] Hx. apply K4, list_elem_of_fmap in Hx as (e & -> & He). right. exists (nulled e).
  rewrite Forall_forall in K5. split_and!; [rewrite (he_entries b s' K2); by apply list_elem_of_fmap_2|apply item_nulled|].
  rewrite (nulled_id s' e) by (pose proof (he_given b s' K2) as Hg; rewrite Forall_forall in Hg; by apply Hg). by apply K5.
Qed.

Lemma step_inv o g : inv g -> op_typed o -> stepped o g (step o g).
Proof.
  intros Hi Ho. destruct o as [mem source|ids source| |n| |]; [by apply step_enqueue|by apply step_reappraise|..]; pose proof Hi as [Hok Hb]; cbn [step].
  - pose proof (claim_ends (g_files g) Hok) as Hc. unfold ends, during in *. destruct (claim (g_files g)) as [[b|e] s'].
    + destruct Hc as [Hc _]. apply stepped_quietly; [done| |intros x; by apply (taken_waits _ b)]. split; [apply Hc|]. intros b' [= <-]. apply Hc.
    + destruct Hc as [_ [Ho' Hw]]. apply stepped_quietly; [done|by split|done].
  - destruct (g_batch g) as [b|] eqn:Hgb; [|by apply stepped_quietly]. destruct (b_entries b !! n) as [e|] eqn:Hn; [|by apply stepped_quietly].
    pose proof (settle_ends (g_files g) b e Hok (Hb b eq_refl) ltac:(by eapply list_elem_of_lookup_2)) as Hs. unfold ends, during, stepped, settles, accepted in *.
    rewrite Hgb, Hn. destruct (settle b e (g_files g)) as [[b'|x] s'].
    + destruct Hs as [[Ho' Hw] Hh]. split_and!; [split; [done|]; by intros b2 [= <-]| |intros x Hx; by apply not_elem_of_nil in Hx].
      intros x Hx. destruct (Hw x Hx) as [| ->]; [by left|by right].
    + destruct Hs as [_ [[Ho' Hw] _]]. split_and!; [by split| |intros y Hy; by apply not_elem_of_nil in Hy]. intros y Hy. destruct (Hw y Hy) as [| ->]; [by left|by right].
  - destruct (g_batch g) as [b|] eqn:Hgb; [|by apply stepped_quietly]. pose proof (close_ends (g_files g) b Hok (Hb b eq_refl)) as Hc. unfold ends, during in *.
    destruct (close b (g_files g)) as [[[]|e] s']; [destruct Hc as [[Ho' Hw] _]|destruct Hc as [_ [Ho' Hw]]]; (apply stepped_quietly; [done|by split|done]).
  - apply stepped_quietly; [done|by split|done].
Qed.

Lemma run_inv ops g : inv g -> Forall op_typed ops -> inv (run ops g).
Proof. intros Hi Ho. revert g Hi. induction Ho as [|o ops Ho _ IH]; intros g Hi; [done|]. cbn. apply IH. by apply step_inv. Qed.

Lemma run_waits ops g x : inv g -> Forall op_typed ops -> ~ settled_during x ops g -> waits (g_files g) x -> waits (g_files (run ops g)) x.
Proof.
  intros Hi Ho. revert g Hi. induction Ho as [|o ops Ho _ IH]; intros g Hi Hn Hx; [done|]. cbn in *. destruct (step_inv o g Hi Ho) as (Hi' & Hw & _).
  apply IH; [done|tauto|]. destruct (Hw x Hx); tauto.
Qed.

Lemma no_files_inv : inv no_files.
Proof. split; [|done]. split; constructor. Qed.

Lemma settle_each_ends es b s : ok s -> held b s -> es ⊆ b_entries b -> quiet_from (pq_time s) ->
  exists b' s', fold_each es b settle s = (Ok b', s') /\ ok s' /\ held b' s' /\ b_entries b' = b_entries b /\ (pq_time s <= pq_time s')%nat /\
    pq_queue s' = pq_queue s /\ (forall v, v ∈ b_settled b -> v ∈ b_settled b') /\ forall e, e ∈ es -> claim_id e ∈ b_settled b'.
Proof.
  revert b s. induction es as [|e es IH]; intros b s Hok Hb Hsub Hq; [exists b, s; split_and!; try done; intros e He; by apply not_elem_of_nil in He|].
  pose proof (settle_ends s b e Hok Hb ltac:(apply Hsub; by left)) as Hs. cbn [fold_each]. rewrite bind_run. unfold ends in Hs.
  destruct (settle b e s) as [[b1|x] s1]; [|by destruct Hs as [Hf _]; destruct Hf]. destruct Hs as [[Ho1 _] Hh1 He1 Hm1 Hq1 Ht1 Hqu1].
  destruct (IH b1 s1) as (b' & s' & Hr & Ho' & Hh' & He' & Ht' & Hqu' & Hm' & Ha'); [done|done|intros y Hy; rewrite He1; apply Hsub; by right|intros t Ht; apply Hq; lia|].
  exists b', s'. split_and!; try done; [congruence|lia|congruence|auto|]. intros y [->|Hy]%elem_of_cons; auto.
Qed.
End facts.

(** ** Properties *)


(** C22: a claim takes exactly what waits.  After any history, a claim that returns gives out
    the items that waited and no others, at most one re-appraisal for a memory, each
    entry under an id of its own; it leaves the queue without records, and everything
    it took still waits, in the processing file. *)
Theorem claim_exact `{PendingDisk} ops b s'
    (Hdistinct : forall t t', uuid4_hex t = uuid4_hex t' -> t = t') (Htext : forall t, uuid4_hex t <> []) (Htyped : Forall op_typed ops) :
  let s := g_files (run ops no_files) in
  claim s = (Ok b, s') ->
  (forall x, waits s x <-> x ∈ map item (b_entries b)) /\ NoDup (memories (map item (b_entries b))) /\
  NoDup (map claim_id (b_entries b)) /\ recs (pq_queue s') = [] /\ (forall x, waits s x -> waits s' x).
Proof.
  intros s Hc. destruct (run_inv Hdistinct Htext ops no_files no_files_inv Htyped) as [Hok _]. pose proof (claim_ends Hdistinct s Hok) as He.
  unfold ends in He. rewrite Hc in He. destruct He as [Ht Hone]. pose proof (fun x => taken_waits s b s' x Ht) as Hw. destruct Ht as [K1 K2 K3 K4 K5 K6 K7 K8].
  split_and!; try done. apply K2.
Qed.

(** C15: an undisturbed round clears the queue.  After any history of faults and kills, when
    the disk works from now on, the claim returns, its batch holds everything that
    waited, every entry can be settled, and closing leaves neither a processing file nor
    a settled file nor anything that waits. *)
Theorem quiet_round `{PendingDisk} ops
    (Hdistinct : forall t t', uuid4_hex t = uuid4_hex t' -> t = t') (Htext : forall t, uuid4_hex t <> []) (Htyped : Forall op_typed ops) :
  let s := g_files (run ops no_files) in
  quiet_from (pq_time s) ->
  exists b s1 b' s2 s3, claim s = (Ok b, s1) /\ settle_all b s1 = (Ok b', s2) /\ close b' s2 = (Ok tt, s3) /\
    (forall x, waits s x <-> x ∈ map item (b_entries b)) /\
    pq_processing s3 = None /\ pq_settled s3 = None /\ forall x, ~ waits s3 x.
Proof.
  intros s Hq. destruct (run_inv Hdistinct Htext ops no_files no_files_inv Htyped) as [Hok _]. pose proof (claim_ends Hdistinct s Hok) as He.
  unfold ends in He. destruct (claim s) as [[b|x] s1] eqn:Hc; [|by destruct He as [Hf _]; destruct Hf]. destruct He as [[K1 K2 K3 K4 K5 K6 K7 K8] _].
  destruct (settle_each_ends Htext (b_entries b) b s1 K1 K2) as (b' & s2 & Hs & Ho2 & Hh2 & He2 & T2 & Q2 & _ & Hall); [done|intros t Ht; apply Hq; lia|].
  pose proof (close_ends s2 b' Ho2 Hh2) as Hcl. unfold ends in Hcl. destruct (close b' s2) as [[[]|x] s3] eqn:Hcl'; [|destruct Hcl as [Hf _]; destruct Hf; intros t Ht; apply Hq; lia].
  destruct Hcl as (_ & _ & Hend). rewrite He2 in Hend. destruct (Hend Hall) as (P3 & S3 & Q3). exists b, s1, b', s2, s3. split_and!; try done.
  intros x [Hx|(e & He & _)]; [rewrite Q3, Q2, K6 in Hx; by apply not_elem_of_nil in Hx|rewrite P3 in He; by apply not_elem_of_nil in He].
Qed.

(** ** Concrete runs *)

(** A disk on which the process dies at one access. *)
Definition dies_at (n : nat) : PendingDisk := {|
  pd_disk t := if (t =? n)%nat then Dies else Works; pd_cut _ := 5%nat; pd_landed _ := false; pd_clock _ := 0%Z; uuid4_hex t := repeat 97%N (S t) |}.

Lemma dies_at_distinct n t t' : @uuid4_hex (dies_at n) t = @uuid4_hex (dies_at n) t' -> t = t'.
Proof. intros He. apply (f_equal (@length N)) in He. unfold uuid4_hex, dies_at in He. rewrite !repeat_length in He. lia. Qed.

Lemma dies_at_text n t : @uuid4_hex (dies_at n) t <> [].
Proof. done. Qed.

Definition a_dream : json := JObj [(u "id", JStr (u "m1")); (u "memory_type", JStr (u "dream")); (u "content", JStr (u "rain"))].
Definition a_round : list op := [OpEnqueue a_dream (JStr (u "dream")); OpReappraise [u "m9"; u "m9"] (JStr (u "recall")); OpClaim; OpSettle 1; OpDie].

Lemma a_round_typed : Forall op_typed a_round.
Proof. repeat constructor. Qed.


Definition claimed : batch * pending :=
  match @claim (dies_at 40) (g_files (@run (dies_at 40) a_round no_files)) with (Ok b, s) => (b, s) | (Err _, s) => ({| b_entries := []; b_settled := [] |}, s) end.

Lemma claim_exact_witness : length (b_entries claimed.1) = 1%nat /\ recs (pq_queue claimed.2) = [] /\
  forall x, waits (g_files (@run (dies_at 40) a_round no_files)) x <-> x ∈ map item (b_entries claimed.1).
Proof.
  destruct (@claim_exact (dies_at 40) a_round claimed.1 claimed.2) as (H1 & _ & _ & H2 & _).
  - apply dies_at_distinct.
  - apply dies_at_text.
  - apply a_round_typed.
  - vm_compute. reflexivity.
  - split; [vm_compute; reflexivity|]. split; [exact H2|exact H1].
Defined.

Lemma quiet_round_witness : exists b s1 b' s2 s3, @claim (dies_at 3) (g_files (@run (dies_at 3) a_round no_files)) = (Ok b, s1) /\
  @settle_all (dies_at 3) b s1 = (Ok b', s2) /\ @close (dies_at 3) b' s2 = (Ok tt, s3) /\ forall x, ~ waits s3 x.
Proof.
  destruct (@quiet_round (dies_at 3) a_round) as (b & s1 & b' & s2 & s3 & H1 & H2 & H3 & _ & _ & _ & H4).
  - apply dies_at_distinct.
  - apply dies_at_text.
  - apply a_round_typed.
  - intros t Ht. vm_compute in Ht. unfold dies_at. cbn. destruct (Nat.eqb_spec t 3); [lia|done].
  - exists b, s1, b', s2, s3. exact (conj H1 (conj H2 (conj H3 H4))).
Defined.
