(* ===== verification/Writes.v ===== *)
(** [brain/files/pending.py], [brain/files/commit.py], [brain/files/audit.py] and
    [brain/tools/impls/propose_write.py]: proposed file writes, their approval,
    and the repair of interrupted commits.  The processes that work on the
    records (bridge, supervisor, tool server) are threads; what runs under the
    store's lock, and every single access to a file, is one step, and a thread
    may stop for ever after any step (a crash).  The theorems are in [Commits]. *)
From S2P Require Import Prelude PyFloat PyTime Json Crypto Protocol PyVal WriteGuard.

(** ** The disk *)

(** The error a result or an audit row carries. *)
Inductive write_error :=
| GuardErr (e : guard_error) | SizeCheckFailed | NotPending | WriteExpired | ClaimFailed | IoError | MarkLost
| Why (reason : pystr).

Record audit_row := {
  ar_event : pystr; ar_id : json; ar_op : json; ar_path : json; ar_sha : json; ar_outcome : pystr;
  ar_error : option write_error }.

Record disk := {
  records : gmap pystr json;           (* pending_writes/<id>.json, decoded *)
  files : tree;
  audit_rows : list audit_row;         (* write_audit.jsonl, newest first *)
  wired : list (json * pystr);         (* file_write memories: path and outcome, newest first *)
}.

Definition set_records x (d : disk) : disk :=
  {| records := x; files := files d; audit_rows := audit_rows d; wired := wired d |}.
Definition set_files x (d : disk) : disk :=
  {| records := records d; files := x; audit_rows := audit_rows d; wired := wired d |}.
Definition set_audit x (d : disk) : disk :=
  {| records := records d; files := files d; audit_rows := x; wired := wired d |}.
Definition set_wired x (d : disk) : disk :=
  {| records := records d; files := files d; audit_rows := audit_rows d; wired := x |}.

(** What one step reads from outside, and which of its accesses fail. *)
Record readings := {
  now : Z;                       (* datetime.now(UTC) *)
  view : fsview;
  read_fault : bool;             (* a record cannot be read just now *)
  save_fault : bool;             (* a record cannot be replaced: OSError *)
  io_fault : bool;               (* an access to the target file fails: OSError *)
  audit_fault : bool;            (* the audit row is lost *)
  memory_fault : bool;           (* the memory store fails *)
  accepts : nat;                 (* how many bytes the file takes at once *)
  notes_folder : option pystr;   (* the notes folder the user authorised, if any *)
}.

Abbreviation D := (M disk).

(** ** [audit.py] *)
Definition audit (r : readings) (row : audit_row) : D bool :=
  if audit_fault r then mret false else
  modify (fun d => set_audit (row :: audit_rows d) d);;
  mret true.

Definition TTL : Z := 24 * hour.
Definition MAX_PENDING : Z := 10.

Section files.
Context `{PyLib}.

(** ** [pending.py] *)

(** [lenient_utc] of a stored value. *)
Definition stamp (v : json) : option Z := match v with JStr s => lenient_utc s | _ => None end.

Definition new_id (resolved_path content : pystr) (now_ : Z) : res pystr :=
  b ← encode (resolved_path ++ isoformat now_ ++ take 64 content);
  mret (take 12 (to_hex (sha256 b))).

Definition is_expired (rec : json) (now_ : Z) : bool :=
  match stamp (jget_none (u "proposed_at") rec) with
  | Some proposed => (TTL <? now_ - proposed)%Z
  | None => false
  end.

(** [_read]: a record file holds a dict or counts as absent. *)
Definition get (r : readings) (rid : pystr) : D (option json) :=
  if read_fault r then mret None else
  gets (fun d => match records d !! rid with Some (JObj kvs) => Some (JObj kvs) | _ => None end).

Definition all_ : D (list json) :=
  gets (fun d => omap (fun kv => match kv.2 with JObj kvs => Some (JObj kvs) | _ => None end)
                   (map_to_list (records d))).

Definition age (rec : json) (now_ : Z) : option Z :=
  proposed ← stamp (jget_none (u "proposed_at") rec); Some (now_ - proposed)%Z.

Definition has_status (status : pystr) (rec : json) : bool := jis_str status (jget_none (u "status") rec).

Definition fresh (now_ : Z) (rec : json) : bool :=
  has_status (u "pending") rec && match age rec now_ with Some a => (a <=? TTL)%Z | None => false end.

(** [sorted(..., key=lambda r: r["proposed_at"], reverse=True)]: newest first, equal
    stamps in their order. *)
Definition proposed_text (rec : json) : pystr :=
  match jget_none (u "proposed_at") rec with JStr s => s | _ => [] end.

Fixpoint insert_newest (rec : json) (l : list json) : list json :=
  match l with
  | [] => [rec]
  | x :: l' => if str_ltb (proposed_text x) (proposed_text rec) then rec :: l else x :: insert_newest rec l'
  end.

Definition list_pending (now_ : Z) : D (list json) :=
  rs ← all_;
  mret (fold_left (fun l rec => insert_newest rec l) (List.filter (fresh now_) rs) []).

Definition count_pending (now_ : Z) : D Z :=
  rs ← list_pending now_; mret (Z.of_nat (length rs)).

Definition create (r : readings) (op resolved_path content : pystr) (making_id : json) : D pystr :=
  rid ← of_res (new_id resolved_path content (now r));
  b ← of_res (encode content);
  let rec := JObj [(u "id", JStr rid); (u "op", JStr op); (u "resolved_path", JStr resolved_path);
    (u "content", JStr content); (u "content_sha", JStr (to_hex (sha256 b)));
    (u "proposed_at", JStr (isoformat (now r))); (u "status", JStr (u "pending")); (u "making_id", making_id)] in
  if save_fault r then raise OSError else
  modify (fun d => set_records (<[rid := rec]> (records d)) d);;
  mret rid.

Definition find_duplicate (op resolved_path content_sha : pystr) (now_ : Z) : D (option json) :=
  rs ← list_pending now_;
  match List.filter (fun rec => jis_str op (jget_none (u "op") rec)
                     && jis_str resolved_path (jget_none (u "resolved_path") rec)
                     && jis_str content_sha (jget_none (u "content_sha") rec)) rs with
  | rec :: _ => i ← of_res (jindex (u "id") rec); mret (Some i)
  | [] => mret None
  end.

Definition list_by_status (status : pystr) : D (list json) :=
  rs ← all_; mret (List.filter (has_status status) rs).

(** [mark]: one step under the store's lock. *)
Definition mark (r : readings) (rid status : pystr) (expect : option pystr) (extra : list (pystr * json)) : D bool :=
  rec ← get r rid;
  match rec with
  | Some (JObj kvs) =>
      if match expect with Some s => negb (has_status s (JObj kvs)) | None => false end then mret false else
      let kvs' := fold_left (fun d kv => dict_set kv.1 kv.2 d) ((u "status", JStr status) :: extra) kvs in
      if save_fault r then raise OSError else
      modify (fun d => set_records (<[rid := JObj kvs']> (records d)) d);;
      mret true
  | _ => mret false
  end.

(** ** Text of a target *)
Definition is_linebreak (c : N) : bool :=
  existsb (fun x => (c =? x)%N) [10; 11; 12; 13; 28; 29; 30; 133; 8232; 8233]%N.

(** [str.splitlines()]; [cur] is the current line, reversed. *)
Fixpoint splitlines_from (cur s : pystr) : list pystr :=
  match s with
  | [] => match cur with [] => [] | _ => [rev cur] end
  | c :: s' =>
      if is_linebreak c then
        match s' with
        | d :: s'' => if (c =? 13)%N && (d =? 10)%N then rev cur :: splitlines_from [] s''
                      else rev cur :: splitlines_from [] s'
        | [] => [rev cur]
        end
      else splitlines_from (c :: cur) s'
  end.
Definition splitlines : pystr -> list pystr := splitlines_from [].

(** Whether [needle] is [hay[i:i+len(needle)]] for some [i]. *)
Fixpoint is_prefix (needle hay : list pystr) : bool :=
  match needle, hay with
  | [], _ => true
  | x :: n, y :: h => bool_decide (x = y) && is_prefix n h
  | _ :: _, [] => false
  end.
Fixpoint contiguous (needle hay : list pystr) : bool :=
  is_prefix needle hay || match hay with [] => false | _ :: h => contiguous needle h end.

Definition block_present (existing content : pystr) : bool := contiguous (splitlines content) (splitlines existing).

(** [data.decode("utf-8", errors="replace")]: on damaged bytes, the interpreter's
    replacement text. *)
Variable utf8_damaged : pybytes -> pystr.
Definition decode_replace (data : pybytes) : pystr := default (utf8_damaged data) (utf8_decode data).

(** Universal newlines: [read_text] turns [\r\n] and [\r] into [\n]. *)
Fixpoint universal (s : pystr) : pystr :=
  match s with
  | [] => []
  | c :: s' => if (c =? 13)%N then
                 match s' with
                 | d :: s'' => if (d =? 10)%N then 10%N :: universal s'' else 10%N :: universal s'
                 | [] => [10%N]
                 end
               else c :: universal s'
  end.

(** ** Paths of the target *)

(** The directories above a path: its proper prefixes that end before a slash. *)
Fixpoint parents_from (seen rest : pystr) : list pystr :=
  match rest with
  | [] => []
  | c :: rest' =>
      (if (c =? 47)%N && bool_decide (seen <> []) then [rev seen] else []) ++ parents_from (c :: seen) rest'
  end.
Definition parents (p : pystr) : list pystr := parents_from [] p.
Definition parent (p : pystr) : pystr := default (u "/") (last (parents p)).

Definition is_dir (t : tree) (p : pystr) : bool :=
  bool_decide (p = u "/") || match t !! p with Some NDir => true | _ => false end.

(** [mkdir(parents=True, exist_ok=True)] of the directory of [p]; a file in the way
    raises. *)
Fixpoint make_dirs (dirs : list pystr) (t : tree) : res tree :=
  match dirs with
  | [] => Ok t
  | p :: dirs => match t !! p with
                 | None => make_dirs dirs (<[p := NDir]> t)
                 | Some NDir => make_dirs dirs t
                 | Some _ => Err OSError
                 end
  end.

(** ** Outcomes and places of a thread *)
Inductive outcome :=
| Committed (path : pystr) | Failed (e : write_error) | Declined | Raised (e : exn)
| ProposeRefused (e : guard_error) | AlreadyPresent | AlreadyProposed (rid : json) | TooMany | Proposed (rid : pystr)
| Swept (n : Z) | Reconciled (n : Z).

(** A stale record [reconcile] has judged: id, op, path, status, event, reason and
    memory outcome. *)
Record judged := {
  j_rid : json; j_op : json; j_path : json; j_sha : json;
  j_status : pystr; j_event : pystr; j_why : pystr; j_wire : pystr }.

Inductive place :=
(* commit_write *)
| CmStart (rid : pystr)
| CmCheck (rid : pystr) (rec : json)
| CmExpire (rid : pystr)
| CmGuard (rid : pystr) (rec : json)
| CmRefuse (rid : pystr) (rec : json) (e : write_error)
| CmRefused (rid : pystr) (rec : json) (e : write_error)
| CmClaim (rid : pystr) (rec : json) (p : pystr)
| CmUnclaimed (rid : pystr) (rec : json)
| CmMkdir (rid : pystr) (rec : json) (p : pystr)
| CmProbe (rid : pystr) (rec : json) (p : pystr)
| CmOpen (rid : pystr) (rec : json) (p : pystr) (sep : bool)
| CmWrite (rid : pystr) (rec : json) (p : pystr) (off : option nat) (rest : pybytes)
| CmFault (rid : pystr) (rec : json) (p : pystr)
| CmFaulted (rid : pystr) (rec : json) (p : pystr)
| CmPrior (rid : pystr) (rec : json) (p : pystr)
| CmFinal (rid : pystr) (rec : json) (p : pystr) (lost : bool) (tries : nat)
| CmReport (rid : pystr) (rec : json) (p : pystr) (lost marked : bool)
(* decline_write *)
| DcStart (rid : pystr)
| DcMark (rid : pystr) (rec : json)
| DcReport (rid : pystr) (rec : json)
(* sweep_expired *)
| SwStart
| SwMark (ids : list json) (n : Z)
(* reconcile_stale_commits *)
| RcStart
| RcNext (since : Z) (recs : list json) (n : Z)
| RcMark (since : Z) (j : judged) (recs : list json) (n : Z)
| RcReport (since : Z) (j : judged) (recs : list json) (n : Z)
(* propose_write *)
| PrStart (path content : pystr) (op : pystr) (making_id : json)
| PrPresent (p content : pystr) (op : pystr) (making_id : json)
| PrAuto (p content : pystr) (op : pystr) (making_id : json)
| PrDup (p content : pystr) (op : pystr) (making_id : json) (since : Z)
| PrCount (p content : pystr) (op : pystr) (making_id : json) (since : Z)
| PrCreate (p content : pystr) (op : pystr) (making_id : json) (since : Z)
| PrReport (rid p content : pystr) (op : pystr)
| Done (o : outcome).

Variable persona_dir : pystr.

(** ** [commit.py] *)

Definition wire_memory (r : readings) (path : json) (outcome_ : pystr) : D unit :=
  if memory_fault r then mret tt else modify (fun d => set_wired ((path, outcome_) :: wired d) d).

(** The guard and the size check of [commit_write]: the path, or the error. *)
Definition commit_guard (r : readings) (rec : json) : D (pystr + write_error) :=
  op ← of_res (jindex (u "op") rec);
  content ← of_res (jindex (u "content") rec);
  raw ← of_res (jindex (u "resolved_path") rec);
  d ← Prelude.get;
  g ← of_res (match raw with JStr s => check_write_target (view r) (files d) persona_dir s op | _ => Err TypeError end);
  match g with
  | Refused e => mret (inr (GuardErr e))
  | Accepted p =>
      z ← of_res (check_size (files d) content op p);
      mret (match z with Accepted _ => inl p | Refused _ => inr SizeCheckFailed end)
  end.

(** [needs_separator]: a non-empty file without a final newline. *)
Definition needs_separator (t : tree) (p : pystr) : bool :=
  match t !! p with
  | Some (NFile data) => match last data with Some b => negb (b =? 10)%N | None => false end
  | _ => false
  end.

(** One write to an open file: at its own offset, or at the end. *)
Definition write_at (data : pybytes) (off : nat) (chunk : pybytes) : pybytes :=
  take off data ++ replicate (off - length data) 0%N ++ chunk ++ drop (off + length chunk) data.

Definition put (t : tree) (p : pystr) (off : option nat) (chunk : pybytes) : tree :=
  match t !! p with
  | Some (NFile data) =>
      <[p := NFile (match off with Some o => write_at data o chunk | None => data ++ chunk end)]> t
  | _ => t
  end.

(** [open(mode)]: truncated for "w", created when absent, refused for a directory. *)
Definition open_file (t : tree) (p : pystr) (truncate : bool) : res tree :=
  match t !! p with
  | Some (NFile data) => Ok (if truncate then <[p := NFile []]> t else t)
  | None => if is_dir t (parent p) then Ok (<[p := NFile []]> t) else Err OSError
  | Some _ => Err OSError
  end.

Definition is_create (rec : json) : bool := jis_str (u "create") (jget_none (u "op") rec).

(** The bytes of the content; the size check has encoded it. *)
Definition content_bytes (rec : json) : pybytes :=
  match jget_none (u "content") rec with JStr s => default [] (utf8_encode s) | _ => [] end.

Definition commit_audit (r : readings) (event : pystr) (rid : pystr) (rec path : json) (sha : json) (outcome_ : pystr)
    (e : option write_error) : D bool :=
  audit r {| ar_event := event; ar_id := JStr rid; ar_op := jget_none (u "op") rec; ar_path := path; ar_sha := sha;
             ar_outcome := outcome_; ar_error := e |}.

(** [prior.get("status") == "error" and prior.get("resolved_by") == "reconcile"]. *)
Definition reconciled_lost (prior : option json) : bool :=
  match prior with
  | Some rec => has_status (u "error") rec && jis_str (u "reconcile") (jget_none (u "resolved_by") rec)
  | None => false
  end.

(** ** [reconcile] *)
Inductive verdict_ := Landed | Absent | Unreadable.

Definition inspect_target (r : readings) (t : tree) (rec : json) : res verdict_ :=
  path ← jindex (u "resolved_path") rec;
  match path with
  | JStr p =>
      if io_fault r then Ok Unreadable else
      match t !! p with
      | None => Ok (if is_dir t (parent p) then Absent else Unreadable)
      | Some (NFile data) =>
          if (MAX_RESULT_FILE_BYTES <? Z.of_nat (length data))%Z then Ok Unreadable else
          content ← jindex (u "content") rec;
          match content with
          | JStr s =>
              op ← jindex (u "op") rec;
              if jis_str (u "create") op then
                b ← encode s; Ok (if substring_of b data then Landed else Absent)
              else Ok (if block_present (decode_replace data) s then Landed else Absent)
          | _ => Err AttributeError
          end
      | Some _ => Ok Unreadable
      end
  | _ => Err TypeError
  end.

Definition COMMIT_STALE : Z := 10 * minute.
Definition COMMIT_UNVERIFIABLE : Z := TTL.

(** [rec.get("claimed_at") or rec.get("proposed_at")], as an age. *)
Definition claim_age (rec : json) (now_ : Z) : option Z :=
  let c := jget_none (u "claimed_at") rec in
  t ← stamp (if jtruthy c then c else jget_none (u "proposed_at") rec); Some (now_ - t)%Z.

(** The judgement of one stale record; [None]: left alone this time. *)
Definition judge (r : readings) (since : Z) (rec : json) (t : tree) : res (option judged) :=
  rid ← jindex (u "id") rec;
  op ← jindex (u "op") rec;
  path ← jindex (u "resolved_path") rec;
  let a := claim_age rec since in
  if match a with Some a => (a <=? COMMIT_STALE)%Z | None => false end then mret None else
  v ← inspect_target r t rec;
  let verdict status event why wire :=
    Some {| j_rid := rid; j_op := op; j_path := path; j_sha := default (JStr []) (jget (u "content_sha") rec);
            j_status := status; j_event := event; j_why := why; j_wire := wire |} in
  match v with
  | Unreadable =>
      if match a with Some a => (a <=? COMMIT_UNVERIFIABLE)%Z | None => false end then mret None
      else mret (verdict (u "error") (u "commit_abandoned") (u "could not read target to verify") (u "unverified"))
  | Landed => mret (verdict (u "committed") (u "commit_reconciled")
                (u "block found in target; could not confirm this write placed it") (u "committed"))
  | Absent => mret (verdict (u "error") (u "commit_abandoned")
                (u "target missing or does not contain the full block (a partial write may exist)") (u "abandoned"))
  end.

(** ** One step of a thread *)

(** Run a section; an exception that no handler of the thread catches ends it. *)
Definition sect {A} (m : D A) (k : A -> place) (d : disk) : option (place * disk) :=
  match m d with
  | (Ok a, d') => Some (k a, d')
  | (Err e, d') => Some (Done (Raised e), d')
  end.

(** The same inside [except ...]: [h] is where the handler goes on. *)
Definition sect_or {A} (m : D A) (k : A -> place) (h : exn -> place) (d : disk) : option (place * disk) :=
  match m d with
  | (Ok a, d') => Some (k a, d')
  | (Err e, d') => Some (if is_Exception e then h e else Done (Raised e), d')
  end.

Definition oserror_or {A} (m : D A) (k : A -> place) (h : place) (d : disk) : option (place * disk) :=
  match m d with
  | (Ok a, d') => Some (k a, d')
  | (Err OSError, d') => Some (h, d')
  | (Err e, d') => Some (Done (Raised e), d')
  end.

(** An access to the target file. *)
Definition touch (r : readings) (m : tree -> res tree) : D unit :=
  if io_fault r then raise OSError else
  d ← Prelude.get;
  t ← of_res (m (files d));
  modify (set_files t).

Definition commit_step (p : place) (r : readings) (d : disk) : option (place * disk) :=
  match p with
  | CmStart rid =>
      sect (get r rid) (fun rec => match rec with
        | Some rec => if has_status (u "pending") rec then CmCheck rid rec else Done (Failed NotPending)
        | None => Done (Failed NotPending) end) d
  | CmCheck rid rec => Some (if is_expired rec (now r) then CmExpire rid else CmGuard rid rec, d)
  | CmExpire rid =>
      sect (mark r rid (u "expired") (Some (u "pending")) []) (fun _ => Done (Failed WriteExpired)) d
  | CmGuard rid rec =>
      sect (commit_guard r rec) (fun g => match g with inl p => CmClaim rid rec p | inr e => CmRefuse rid rec e end) d
  | CmRefuse rid rec e => sect (mark r rid (u "refused") None []) (fun _ => CmRefused rid rec e) d
  | CmRefused rid rec e =>
      sect (commit_audit r (u "commit_refused") rid rec (jget_none (u "resolved_path") rec) (JStr []) [] (Some e))
        (fun _ => Done (Failed e)) d
  | CmClaim rid rec p =>
      sect (mark r rid (u "committing") (Some (u "pending")) [(u "claimed_at", JStr (isoformat (now r)))])
        (fun won : bool => if won then CmMkdir rid rec p else CmUnclaimed rid rec) d
  | CmUnclaimed rid rec =>
      sect (commit_audit r (u "claim_failed") rid rec (jget_none (u "resolved_path") rec) (JStr []) []
              (Some (Why (u "could not record the committing status"))))
        (fun _ => Done (Failed ClaimFailed)) d
  | CmMkdir rid rec p =>
      oserror_or (touch r (make_dirs (parents p))) (fun _ => CmProbe rid rec p) (CmFault rid rec p) d
  | CmProbe rid rec p =>
      oserror_or (if io_fault r then raise OSError else gets (fun d => negb (is_create rec) && needs_separator (files d) p))
        (CmOpen rid rec p) (CmFault rid rec p) d
  | CmOpen rid rec p sep =>
      oserror_or (touch r (fun t => open_file t p (is_create rec)))
        (fun _ => CmWrite rid rec p (if is_create rec then Some 0%nat else None)
                    ((if sep then [10%N] else []) ++ content_bytes rec))
        (CmFault rid rec p) d
  | CmWrite rid rec p off [] => Some (CmPrior rid rec p, d)
  | CmWrite rid rec p off rest =>
      let k := Nat.min (Nat.max 1 (accepts r)) (length rest) in
      oserror_or (touch r (fun t => Ok (put t p off (take k rest))))
        (fun _ => CmWrite rid rec p (option_map (fun o => (o + k)%nat) off) (drop k rest)) (CmFault rid rec p) d
  | CmFault rid rec p => sect (mark r rid (u "error") None []) (fun _ => CmFaulted rid rec p) d
  | CmFaulted rid rec p =>
      sect (commit_audit r (u "error") rid rec (JStr p) (JStr []) [] (Some IoError)) (fun _ => Done (Failed IoError)) d
  | CmPrior rid rec p => sect (get r rid) (fun prior => CmFinal rid rec p (reconciled_lost prior) 2) d
  | CmFinal rid rec p lost 0 => Some (CmReport rid rec p lost false, d)
  | CmFinal rid rec p lost (S tries) =>
      oserror_or (mark r rid (u "committed") None [])
        (fun took : bool => if took then CmReport rid rec p lost true else CmFinal rid rec p lost tries)
        (CmFinal rid rec p lost tries) d
  | CmReport rid rec p lost marked =>
      sect (sha ← of_res (jindex (u "content_sha") rec);
            commit_audit r (u "commit") rid rec (JStr p) sha (u "committed") (if marked then None else Some MarkLost);;
            (if marked then wire_memory r (JStr p) (if lost then u "late" else u "committed") else mret tt))
        (fun _ => Done (Committed p)) d
  | _ => None
  end.

Definition decline_step (p : place) (r : readings) (d : disk) : option (place * disk) :=
  match p with
  | DcStart rid =>
      sect (get r rid) (fun rec => match rec with
        | Some rec => if has_status (u "pending") rec then DcMark rid rec else Done (Failed NotPending)
        | None => Done (Failed NotPending) end) d
  | DcMark rid rec =>
      sect (mark r rid (u "declined") (Some (u "pending")) [])
        (fun won : bool => if won then DcReport rid rec else Done (Failed NotPending)) d
  | DcReport rid rec =>
      sect (op ← of_res (jindex (u "op") rec);
            path ← of_res (jindex (u "resolved_path") rec);
            audit r {| ar_event := u "decline"; ar_id := JStr rid; ar_op := op; ar_path := path; ar_sha := JStr [];
                       ar_outcome := u "declined"; ar_error := None |};;
            wire_memory r path (u "declined"))
        (fun _ => Done Declined) d
  | _ => None
  end.

(** The ids a sweep is to expire: stale pending records. *)
Definition stale_pending (now_ : Z) (rec : json) : bool :=
  has_status (u "pending") rec && match age rec now_ with Some a => (TTL <? a)%Z | None => false end.

Definition sweep_step (p : place) (r : readings) (d : disk) : option (place * disk) :=
  match p with
  | SwStart =>
      sect (rs ← all_; mret (List.filter (stale_pending (now r)) rs)) (fun rs => SwMark rs 0) d
  | SwMark [] n => Some (Done (Swept n), d)
  | SwMark (rec :: recs) n =>
      sect (i ← of_res (jindex (u "id") rec);
            mark r (py_str i) (u "expired") (Some (u "pending")) [])
        (fun took : bool => SwMark recs (if took then n + 1 else n)) d
  | _ => None
  end.

Definition reconcile_step (p : place) (r : readings) (d : disk) : option (place * disk) :=
  match p with
  | RcStart => sect (list_by_status (u "committing")) (fun recs => RcNext (now r) recs 0) d
  | RcNext since [] n => Some (Done (Reconciled n), d)
  | RcNext since (rec :: recs) n =>
      sect_or (d ← Prelude.get;
               j ← of_res (judge r since rec (files d));
               match j with
               | Some _ => if memory_fault r then raise OSError else mret j   (* open_store() *)
               | None => mret j
               end)
        (fun j => match j with Some j => RcMark since j recs n | None => RcNext since recs n end)
        (fun _ => RcNext since recs n) d
  | RcMark since j recs n =>
      sect_or (mark r (py_str (j_rid j)) (j_status j) (Some (u "committing")) [(u "resolved_by", JStr (u "reconcile"))])
        (fun took : bool => if took then RcReport since j recs n else RcNext since recs n)
        (fun _ => RcNext since recs n) d
  | RcReport since j recs n =>
      sect_or (audit r {| ar_event := j_event j; ar_id := j_rid j; ar_op := j_op j; ar_path := j_path j;
                          ar_sha := j_sha j; ar_outcome := j_status j; ar_error := Some (Why (j_why j)) |};;
               wire_memory r (j_path j) (j_wire j))
        (fun _ => RcNext since recs (n + 1)) (fun _ => RcNext since recs n) d
  | _ => None
  end.

Definition read_text (r : readings) (t : tree) (p : pystr) : option pystr :=
  if io_fault r then None else
  match t !! p with
  | Some (NFile data) => option_map universal (utf8_decode data)
  | _ => None
  end.

Definition propose_audit (r : readings) (event : pystr) (rid : json) (op path : pystr) (sha : json)
    (e : option write_error) : D bool :=
  audit r {| ar_event := event; ar_id := rid; ar_op := JStr op; ar_path := JStr path; ar_sha := sha; ar_outcome := [];
             ar_error := e |}.

Definition sha_hex (content : pystr) : res pystr := b ← encode content; mret (to_hex (sha256 b)).

(** The guards of [propose_write]: where it goes on. *)
Definition propose_guard (r : readings) (path content op : pystr) (making_id : json) : D place :=
  d ← Prelude.get;
  g ← of_res (check_write_target (view r) (files d) persona_dir path (JStr op));
  match g with
  | Refused e =>
      propose_audit r (u "propose_refused") (JStr []) op path (JStr []) (Some (GuardErr e));;
      mret (Done (ProposeRefused e))
  | Accepted p =>
      s ← of_res (check_size (files d) (JStr content) (JStr op) p);
      match s with
      | Refused e =>
          propose_audit r (u "propose_refused") (JStr []) op p (JStr []) (Some (GuardErr e));;
          mret (Done (ProposeRefused e))
      | Accepted _ =>
          inside ← of_res (is_within_authorized (view r) p (notes_folder r));
          mret (if inside : bool then
                  if bool_decide (op = u "append") then PrPresent p content op making_id
                  else PrAuto p content op making_id
                else PrDup p content op making_id (now r))
      end
  end.

Definition propose_step (p : place) (r : readings) (d : disk) : option (place * disk) :=
  match p with
  | PrStart path content op making_id => sect (propose_guard r path content op making_id) (fun q => q) d
  | PrPresent p content op making_id =>
      sect (d ← Prelude.get;
            match read_text r (files d) p with
            | Some existing =>
                if block_present existing content then
                  sha ← of_res (sha_hex content);
                  propose_audit r (u "write_skipped_present") (JStr []) op p (JStr sha) None;;
                  mret (Done AlreadyPresent)
                else mret (PrAuto p content op making_id)
            | None => mret (PrAuto p content op making_id)
            end) (fun q => q) d
  | PrAuto p content op making_id => sect (create r op p content making_id) CmStart d
  | PrDup p content op making_id since =>
      sect (sha ← of_res (sha_hex content);
            i ← find_duplicate op p sha since;
            match i with
            | Some i => propose_audit r (u "propose_deduped") i op p (JStr sha) None;; mret (Done (AlreadyProposed i))
            | None => mret (PrCount p content op making_id since)
            end) (fun q => q) d
  | PrCount p content op making_id since =>
      sect (count_pending since)
        (fun n => if (MAX_PENDING <=? n)%Z then Done TooMany else PrCreate p content op making_id since) d
  | PrCreate p content op making_id since =>
      sect (create {| now := since; view := view r; read_fault := read_fault r; save_fault := save_fault r;
                      io_fault := io_fault r; audit_fault := audit_fault r; memory_fault := memory_fault r;
                      accepts := accepts r; notes_folder := notes_folder r |} op p content making_id)
        (fun rid => PrReport rid p content op) d
  | PrReport rid p content op =>
      sect (sha ← of_res (sha_hex content);
            propose_audit r (u "propose") (JStr rid) op p (JStr sha) None)
        (fun _ => Done (Proposed rid)) d
  | _ => None
  end.

Definition step (p : place) (r : readings) (d : disk) : option (place * disk) :=
  match p with
  | DcStart _ | DcMark _ _ | DcReport _ _ => decline_step p r d
  | SwStart | SwMark _ _ => sweep_step p r d
  | RcStart | RcNext _ _ _ | RcMark _ _ _ _ | RcReport _ _ _ _ => reconcile_step p r d
  | PrStart _ _ _ _ | PrPresent _ _ _ _ | PrAuto _ _ _ _ | PrDup _ _ _ _ _ | PrCount _ _ _ _ _
  | PrCreate _ _ _ _ _ | PrReport _ _ _ _ => propose_step p r d
  | _ => commit_step p r d
  end.

(** ** The system: threads on one disk *)
Record wsystem := { disk_ : disk; procs : list place }.

Inductive wmove :=
| Start (p : place)                   (* a call begins *)
| Turn (t : nat) (r : readings)       (* thread [t] runs its next step *)
| Outside (t : tree).                 (* somebody else changes the files *)

Definition entry (p : place) : bool :=
  match p with
  | CmStart _ | DcStart _ | SwStart | RcStart | PrStart _ _ _ _ => true
  | _ => false
  end.

Definition wstep (m : wmove) (sys : wsystem) : option wsystem :=
  match m with
  | Start p => if entry p then Some {| disk_ := disk_ sys; procs := procs sys ++ [p] |} else None
  | Turn t r =>
      p ← procs sys !! t;
      '(p', d') ← step p r (disk_ sys);
      Some {| disk_ := d'; procs := <[t := p']> (procs sys) |}
  | Outside t => Some {| disk_ := set_files t (disk_ sys); procs := procs sys |}
  end.

Fixpoint wrun (ms : list wmove) (sys : wsystem) : option wsystem :=
  match ms with
  | [] => Some sys
  | m :: ms => sys' ← wstep m sys; wrun ms sys'
  end.
End files.
