(* ===== verification/Commits.v ===== *)
(** Theorems on the guarded writes of [Writes]: in every interleaving a card's
    content is put in its file by one process only and the store stays typed; an
    undisturbed approval changes the file exactly as the card says; an
    interrupted commit is resolved by the repair pass; a proposal never stages a
    second card for the same write, nor more than the limit.  The last two state
    what the code gets wrong: statuses marked without an expected one. *)
From S2P Require Import Prelude PyFloat PyTime Json Crypto Protocol PyVal WriteGuard Writes.

(** A literal key is not among literal keys. *)
Ltac notkey := apply (bool_decide_unpack _); vm_compute; exact I.

Section facts.
Context `{PyLib} (utf8_damaged : pybytes -> pystr) (persona_dir : pystr).
#[local] Abbreviation step := (step utf8_damaged persona_dir).
#[local] Abbreviation wstep := (wstep utf8_damaged persona_dir).
#[local] Abbreviation wrun := (wrun utf8_damaged persona_dir).

(** ** Records *)
Lemma dict_get_set k k' v kvs :
  dict_get k (dict_set k' v kvs) = if bool_decide (k = k') then Some v else dict_get k kvs.
Proof.
  induction kvs as [|[j w] kvs IH]; simpl; [done|].
  repeat case_bool_decide; simplify_eq; simpl; rewrite ?IH; repeat case_bool_decide; simplify_eq; done.
Qed.

(** What [mark] does to a record. *)
Definition marked (status : pystr) (extra : list (pystr * json)) (kvs : list (pystr * json)) : json :=
  JObj (fold_left (fun d kv => dict_set kv.1 kv.2 d) ((u "status", JStr status) :: extra) kvs).

Lemma marked_get k status extra kvs :
  k ∉ map fst extra ->
  jget k (marked status extra kvs) = if bool_decide (k = u "status") then Some (JStr status) else dict_get k kvs.
Proof.
  unfold marked, jget. cbn [fold_left fst snd]. rewrite <-dict_get_set.
  generalize (dict_set (u "status") (JStr status) kvs). intros d Hk. revert d.
  induction extra as [|[j v] extra IH]; intros d; [done|]. cbn in *.
  apply not_elem_of_cons in Hk as [Hk Hx]. rewrite (IH Hx), dict_get_set.
  by rewrite bool_decide_eq_false_2.
Qed.

Lemma marked_status status extra kvs s :
  u "status" ∉ map fst extra -> has_status s (marked status extra kvs) = bool_decide (status = s).
Proof. intros Hx. unfold has_status, jget_none. rewrite (marked_get _ _ _ _ Hx). done. Qed.

(** [mark] either leaves the disk or replaces the one record, when its status is
    the expected one. *)
Lemma mark_spec r rid status expect extra d x d' :
  mark r rid status expect extra d = (x, d') ->
  d' = d /\ x <> Ok true \/
  x = Ok true /\ exists kvs, records d !! rid = Some (JObj kvs) /\
    (forall s, expect = Some s -> has_status s (JObj kvs) = true) /\
    d' = set_records (<[rid := marked status extra kvs]> (records d)) d.
Proof.
  unfold mark, Writes.get. destruct (read_fault r); [by munfold; intros; simplify_eq; left|].
  rewrite bind_run. cbn [gets]. destruct (records d !! rid) as [[| | | | | |kvs]|] eqn:Hr; try (munfold; intros; simplify_eq; by left).
  destruct (match expect with Some s => _ | None => _ end) eqn:He; [munfold; intros; simplify_eq; by left|].
  destruct (save_fault r); [munfold; intros; simplify_eq; by left|].
  munfold. intros; simplify_eq. right. split; [done|]. exists kvs. split; [done|]. split; [|done].
  intros s ->. by apply negb_false_iff in He.
Qed.

(** ** What a step may do to the records *)
Definition same_records (d d' : disk) : Prop := records d' = records d.
#[local] Instance same_records_preorder : PreOrder same_records.
Proof. split; [intros d; done|intros a b c H1 H2; unfold same_records in *; congruence]. Qed.

Lemma audit_records r row : pres same_records (audit r row).
Proof. unfold audit. destruct (audit_fault r); pres_auto. by apply pres_modify. Qed.
Lemma wire_records r path o : pres same_records (wire_memory r path o).
Proof. unfold wire_memory. destruct (memory_fault r); pres_auto. by apply pres_modify. Qed.
Lemma touch_records r m : pres same_records (touch r m).
Proof. unfold touch. destruct (io_fault r); pres_auto. by apply pres_modify. Qed.
Lemma get_records r rid : pres same_records (Writes.get r rid).
Proof. unfold Writes.get. destruct (read_fault r); pres_auto. Qed.

(** A card can still be claimed: it is pending, or not yet made. *)
Definition claimable (rid : pystr) (d : disk) : nat :=
  match records d !! rid with
  | None => 1
  | Some (JObj kvs) => if has_status (u "pending") (JObj kvs) then 1 else 0
  | Some _ => 0
  end.

Lemma same_records_claimable rid d d' : same_records d d' -> claimable rid d' = claimable rid d.
Proof. unfold same_records, claimable. by intros ->. Qed.

Lemma mark_claimable r rid' rid status expect extra d :
  status <> u "pending" -> u "status" ∉ map fst extra ->
  (claimable rid (mark r rid' status expect extra d).2 <= claimable rid d)%nat.
Proof.
  intros Hs Hx. destruct (mark r rid' status expect extra d) as [x d'] eqn:Hm. simpl.
  destruct (mark_spec _ _ _ _ _ _ _ _ Hm) as [[-> _]|[-> (kvs & Hk & He & ->)]]; [done|].
  unfold claimable. cbn [records set_records]. destruct (decide (rid = rid')) as [->|Hn].
  - rewrite lookup_insert_eq. unfold marked. cbv iota. fold (marked status extra kvs).
    rewrite marked_status by done. by rewrite bool_decide_eq_false_2; [destruct (records d !! rid') as [[]|]; lia|].
  - by rewrite lookup_insert_ne by done.
Qed.

(** ** Claims: who may open a card's file *)
Definition before_open (rid : pystr) (p : place) : bool :=
  match p with
  | CmMkdir i _ _ | CmProbe i _ _ | CmOpen i _ _ _ => bool_decide (i = rid)
  | _ => false
  end.

(** The step that opens the file of card [rid] for writing. *)
Definition opening (rid : pystr) (p p' : place) : bool :=
  match p, p' with
  | CmOpen i _ _ _, CmWrite _ _ _ _ _ => bool_decide (i = rid)
  | _, _ => false
  end.

Definition judged_ok (p : place) : Prop :=
  match p with RcMark _ j _ _ => j_status j <> u "pending" | _ => True end.

(** A card about to be made has an id no card has: ids are digests of path, time and
    content. *)
Definition new_card (i : res pystr) (d : disk) : Prop := match i with Ok i => records d !! i = None | Err _ => True end.
Definition fresh_step (p : place) (r : readings) (d : disk) : Prop :=
  match p with
  | PrAuto path content _ _ => new_card (new_id path content (now r)) d
  | PrCreate path content _ _ since => new_card (new_id path content since) d
  | _ => True
  end.

Lemma sect_out {A} (m : D A) k d p' d' :
  sect m k d = Some (p', d') ->
  d' = (m d).2 /\ ((exists a, (m d).1 = Ok a /\ p' = k a) \/ exists e, (m d).1 = Err e /\ p' = Done (Raised e)).
Proof. unfold sect. destruct (m d) as [[a|e] x]; intros; simplify_eq; split; eauto. Qed.

Lemma sect_or_out {A} (m : D A) k h d p' d' :
  sect_or m k h d = Some (p', d') ->
  d' = (m d).2 /\ ((exists a, (m d).1 = Ok a /\ p' = k a) \/
    exists e, (m d).1 = Err e /\ (p' = h e \/ p' = Done (Raised e))).
Proof. unfold sect_or. destruct (m d) as [[a|e] x]; intros; simplify_eq; split; eauto. destruct (is_Exception e); eauto. Qed.

Lemma oserror_or_out {A} (m : D A) k h d p' d' :
  oserror_or m k h d = Some (p', d') ->
  d' = (m d).2 /\ ((exists a, (m d).1 = Ok a /\ p' = k a) \/
    exists e, (m d).1 = Err e /\ (p' = h \/ p' = Done (Raised e))).
Proof.
  unfold oserror_or. destruct (m d) as [[a|e] x]; [intros; simplify_eq; eauto 6|].
  destruct e; intros; simplify_eq; (split; [done|]); right; eexists; (split; [done|]); auto.
Qed.

Definition weight (b : bool) : nat := if b then 1 else 0.

(** The credit of a step: it never grows, and opening the file spends one. *)
Definition spends (rid : pystr) (p p' : place) (d d' : disk) : Prop :=
  (weight (opening rid p p') + claimable rid d' + weight (before_open rid p')
   <= claimable rid d + weight (before_open rid p))%nat /\ judged_ok p'.

Lemma create_claimable r op path content mk d rid :
  new_card (new_id path content (now r)) d ->
  (claimable rid (create r op path content mk d).2 <= claimable rid d)%nat.
Proof.
  intros Hf. unfold create. rewrite bind_run. unfold of_res at 1.
  destruct (new_id path content (now r)) as [i|]; [|done]. rewrite bind_run. unfold of_res at 1. simpl in Hf.
  destruct (encode content); [|done]. destruct (save_fault r); [done|]. munfold. unfold claimable. cbn [records set_records].
  destruct (decide (rid = i)) as [->|Hn].
  - rewrite lookup_insert_eq, Hf. repeat case_match; lia.
  - by rewrite lookup_insert_ne by done.
Qed.


Ltac outs := repeat match goal with
  | H : sect _ _ _ = Some _ |- _ => apply sect_out in H as [-> H]
  | H : sect_or _ _ _ _ = Some _ |- _ => apply sect_or_out in H as [-> H]
  | H : oserror_or _ _ _ _ = Some _ |- _ => apply oserror_or_out in H as [-> H]
  end.

(** A step that leaves the records alone and does not move into the phase before
    the file is opened. *)
Lemma spends_quiet rid p p' d d' :
  same_records d d' -> (weight (opening rid p p') + weight (before_open rid p') <= weight (before_open rid p))%nat ->
  judged_ok p' -> spends rid p p' d d'.
Proof. intros Hr%(same_records_claimable rid) Hw Hj. split; [lia|done]. Qed.

Lemma spends_mark r rid' rid status expect extra p p' d :
  status <> u "pending" -> u "status" ∉ map fst extra ->
  weight (opening rid p p') = 0%nat -> weight (before_open rid p') = 0%nat ->
  judged_ok p' -> spends rid p p' d (mark r rid' status expect extra d).2.
Proof. intros Hs Hx Hp Hb Hj. split; [|done]. pose proof (mark_claimable r rid' rid status expect extra d Hs Hx). lia. Qed.


Lemma commit_guard_records r rec : pres same_records (commit_guard persona_dir r rec).
Proof. unfold commit_guard. pres_auto. Qed.
Lemma report_records r event rid rec path sha o e (m : bool) out :
  pres same_records (sha ← of_res (sha : res json);
    commit_audit r event rid rec path sha o e;; (if m then wire_memory r path out else mret tt)).
Proof. unfold commit_audit. pose proof audit_records. pose proof wire_records. pres_auto; eauto. Qed.

Lemma claim_spends rid rid' r rec p d t :
  spends rid (CmClaim rid' rec p)
    match (mark r rid' (u "committing") (Some (u "pending")) [(u "claimed_at", JStr t)] d).1 with
    | Ok true => CmMkdir rid' rec p | Ok false => CmUnclaimed rid' rec | Err e => Done (Raised e) end
    d (mark r rid' (u "committing") (Some (u "pending")) [(u "claimed_at", JStr t)] d).2.
Proof.
  destruct (mark _ _ _ _ _ d) as [x d'] eqn:Hm. simpl.
  destruct (mark_spec _ _ _ _ _ _ _ _ Hm) as [[-> Hx]|[-> (kvs & Hk & He & ->)]].
  - destruct x as [[]|]; [done|by split; [simpl; lia|]..].
  - split; [|done]. unfold claimable. cbn [records set_records opening before_open weight].
    destruct (decide (rid = rid')) as [->|Hn].
    + rewrite lookup_insert_eq, Hk, (He _ eq_refl). unfold marked. cbv iota. fold (marked (u "committing") [(u "claimed_at", JStr t)] kvs).
      rewrite marked_status by notkey.
      rewrite (bool_decide_eq_false_2 (u "committing" = _)) by done. by case_bool_decide.
    + rewrite lookup_insert_ne by done. rewrite (bool_decide_eq_false_2 (rid' = rid)) by done. simpl. lia.
Qed.

Ltac branches := repeat match goal with
  | H : _ \/ _ |- _ => destruct H as [H|H]
  | H : exists _, _ |- _ => destruct H as [? H]
  | H : _ /\ _ |- _ => destruct H as [? H]
  end; subst.

(** A step that only reads the records. *)
Ltac quiet := apply spends_quiet;
  [first [reflexivity | apply get_records | apply touch_records | apply commit_guard_records | apply report_records
         | match goal with |- same_records ?d (?m ?d).2 =>
             let H := fresh in assert (pres same_records m) as H by
               (unfold commit_audit, propose_audit; pose proof audit_records; pose proof wire_records; pres_auto; eauto); apply H end]
  | cbn [opening before_open weight]; repeat case_match; simpl; repeat case_bool_decide; simpl; lia
  | cbn [judged_ok]; repeat case_match; try done].

Ltac marks := apply spends_mark; [done | notkey | cbn [opening]; repeat case_match; done
  | cbn [before_open]; repeat case_match; done | repeat case_match; done].

Lemma commit_step_spends rid p r d p' d' :
  commit_step persona_dir p r d = Some (p', d') -> spends rid p p' d d'.
Proof.
  destruct p; cbn [commit_step]; intros Hs; try done; try destruct tries; try (destruct rest as [|b rest]).
  7: { apply sect_out in Hs as [-> Hs]. pose proof (claim_spends rid rid0 r rec p d (isoformat (now r))) as Hc.
       branches; match goal with E : (_ d).1 = _ |- _ => rewrite E in Hc end; [|done]. by repeat case_match. }
  all: outs; branches; simplify_eq; try (by marks).
  all: try quiet.
Qed.

Lemma judge_status r since rec t j : judge utf8_damaged r since rec t = Ok (Some j) -> j_status j <> u "pending".
Proof.
  unfold judge. destruct (jindex (u "id") rec); cbn [mbind res_bind]; [|done].
  destruct (jindex (u "op") rec); cbn [mbind res_bind]; [|done].
  destruct (jindex (u "resolved_path") rec); cbn [mbind res_bind]; [|done].
  destruct (match claim_age _ _ with Some _ => _ | None => _ end); [done|].
  destruct (inspect_target _ _ _ _) as [[]|]; cbn [mbind res_bind mret res_ret]; [..|done].
  3: destruct (match claim_age _ _ with Some _ => _ | None => _ end); [done|].
  all: intros Hj; injection Hj as <-; done.
Qed.

Lemma decline_step_spends rid p r d p' d' : decline_step p r d = Some (p', d') -> spends rid p p' d d'.
Proof.
  destruct p; cbn [decline_step]; intros Hs; try done.
  all: outs; branches; simplify_eq; try (by marks).
  all: quiet.
Qed.

Lemma sweep_step_spends rid p r d p' d' : sweep_step p r d = Some (p', d') -> spends rid p p' d d'.
Proof.
  destruct p; cbn [sweep_step]; intros Hs; try done; [|destruct ids as [|rec recs]].
  3: { apply sect_out in Hs as [-> Hs]. rewrite bind_run in *. unfold of_res at 1 in Hs. unfold of_res at 1.
       destruct (jindex (u "id") rec); branches; try (by marks); by quiet. }
  all: outs; branches; simplify_eq; quiet.
Qed.

Lemma reconcile_step_spends rid p r d p' d' :
  judged_ok p -> reconcile_step utf8_damaged p r d = Some (p', d') -> spends rid p p' d d'.
Proof.
  destruct p; cbn [reconcile_step]; intros Hj Hs; try done; [|destruct recs as [|rec recs]|..].
  3: { apply sect_or_out in Hs as [-> Hs]. rewrite bind_run in *. unfold Prelude.get at 1 in Hs. unfold Prelude.get at 1.
       rewrite bind_run in *. unfold of_res at 1 in Hs. unfold of_res at 1.
       destruct (judge utf8_damaged r since rec (files d)) as [[j|]|] eqn:Hg; [|by branches; simplify_eq; quiet..].
       destruct (memory_fault r); branches; simplify_eq; quiet.
       cbn in *. simplify_eq. by eapply judge_status. }
  all: outs; branches; simplify_eq; try (by marks).
  all: quiet.
Qed.

Lemma propose_guard_quiet r path content op mk :
  pres same_records (propose_guard persona_dir r path content op mk) /\
  forall rid d q, (propose_guard persona_dir r path content op mk d).1 = Ok q -> before_open rid q = false /\ judged_ok q.
Proof.
  unfold propose_guard. split.
  { unfold propose_audit. pose proof audit_records. pres_auto; eauto. }
  intros rid d q. rewrite bind_run. unfold Prelude.get at 1. rewrite bind_run. unfold of_res at 1.
  destruct (check_write_target _ _ _ _ _) as [[p|e]|]; [| |done].
  - rewrite bind_run. unfold of_res at 1. destruct (check_size _ _ _ _) as [[p'|e]|]; [| |done].
    + rewrite bind_run. unfold of_res at 1. destruct (is_within_authorized _ _ _) as [[]|]; [| |done].
      * case_bool_decide; intros [= <-]; done.
      * intros [= <-]; done.
    + rewrite bind_run. unfold propose_audit, audit. destruct (audit_fault r); intros [= <-]; done.
  - rewrite bind_run. unfold propose_audit, audit. destruct (audit_fault r); intros [= <-]; done.
Qed.

Lemma listing_records now_ : pres same_records (list_pending now_).
Proof. unfold list_pending, all_. pres_auto. Qed.
Lemma duplicate_records op p sha now_ : pres same_records (find_duplicate op p sha now_).
Proof. unfold find_duplicate. pose proof listing_records. pres_auto; eauto. Qed.
Lemma count_records now_ : pres same_records (count_pending now_).
Proof. unfold count_pending. pose proof listing_records. pres_auto; eauto. Qed.
#[local] Hint Resolve audit_records listing_records duplicate_records count_records : pres.

Lemma propose_step_spends rid p r d p' d' :
  fresh_step p r d -> propose_step persona_dir p r d = Some (p', d') -> spends rid p p' d d'.
Proof.
  destruct p; cbn [propose_step]; intros Hf Hs; try done; outs.
  - destruct (propose_guard_quiet r path content op making_id) as [Hq Ho].
    destruct Hs as [(q & Hk & ->)|(e & _ & ->)]; [destruct (Ho rid d q Hk) as [Hb Hj]|];
      apply spends_quiet; try apply Hq; try done; cbn [opening weight]; rewrite ?Hb; simpl; lia.
  - destruct Hs as [(q & Hk & ->)|(e & _ & ->)]; [|by quiet].
    rewrite bind_run in *. cbn [Prelude.get] in *. destruct (read_text r (files d) p) as [ex|]; [|injection Hk as <-; quiet].
    destruct (block_present ex content); [|injection Hk as <-; quiet]. rewrite bind_run in *. unfold of_res in *.
    destruct (sha_hex content); [|done]. rewrite bind_run in *. unfold propose_audit, audit in *.
    destruct (audit_fault r); injection Hk as <-; (apply spends_quiet; [done|simpl; lia|done]).
  - branches; by (split; [pose proof (create_claimable r op p content making_id d rid Hf); simpl; lia|]).
  - destruct Hs as [(q & Hk & ->)|(e & _ & ->)]; [|quiet]. rewrite !bind_run in *. unfold of_res in *.
    destruct (sha_hex content) as [sha|]; [|done]. rewrite bind_run in *.
    pose proof (duplicate_records op p sha since d) as Hd. destruct (find_duplicate op p sha since d) as [[[i|]|] d1]; [| |done].
    + rewrite bind_run in *. unfold propose_audit, audit in *.
      destruct (audit_fault r); injection Hk as <-; (apply spends_quiet; [exact Hd|simpl; lia|done]).
    + injection Hk as <-. apply spends_quiet; [exact Hd|simpl; lia|done].
  - branches; quiet.
  - set (r' := Build_readings _ _ _ _ _ _ _ _ _) in *.
    branches; by (split; [pose proof (create_claimable r' op p content making_id d rid Hf); simpl; lia|]).
  - branches; quiet.
Qed.

Lemma step_spends rid p r d p' d' :
  judged_ok p -> fresh_step p r d -> step p r d = Some (p', d') -> spends rid p p' d d'.
Proof.
  intros Hj Hf. destruct p; cbn [Writes.step]; intros Hs;
    first [ exact (commit_step_spends _ _ _ _ _ _ Hs) | exact (decline_step_spends _ _ _ _ _ _ Hs)
          | exact (sweep_step_spends _ _ _ _ _ _ Hs) | exact (reconcile_step_spends _ _ _ _ _ _ Hj Hs)
          | exact (propose_step_spends _ _ _ _ _ _ Hf Hs) ].
Qed.

(** ** A whole run *)
Definition credit (rid : pystr) (sys : wsystem) : nat :=
  claimable rid (disk_ sys) + length (List.filter (before_open rid) (procs sys)).

Definition opens (rid : pystr) (m : wmove) (sys : wsystem) : bool :=
  match m with
  | Turn t r =>
      match procs sys !! t with
      | Some p => match step p r (disk_ sys) with Some (p', _) => opening rid p p' | None => false end
      | None => false
      end
  | _ => false
  end.

(** How often a run opens the file of card [rid] for writing. *)
Fixpoint openings (rid : pystr) (ms : list wmove) (sys : wsystem) : nat :=
  match ms with
  | [] => 0
  | m :: ms => weight (opens rid m sys) + match wstep m sys with Some sys' => openings rid ms sys' | None => 0 end
  end.

Definition fresh_move (m : wmove) (sys : wsystem) : Prop :=
  match m with
  | Turn t r => match procs sys !! t with Some p => fresh_step p r (disk_ sys) | None => True end
  | _ => True
  end.

Fixpoint fresh_run (ms : list wmove) (sys : wsystem) : Prop :=
  match ms with
  | [] => True
  | m :: ms => fresh_move m sys /\ match wstep m sys with Some sys' => fresh_run ms sys' | None => True end
  end.

Lemma filter_weight_insert {A} (f : A -> bool) l t p q :
  l !! t = Some p ->
  (length (List.filter f (<[t := q]> l)) + weight (f p) = length (List.filter f l) + weight (f q))%nat.
Proof.
  revert t. induction l as [|x l IH]; intros [|t] Ht; try done; simpl in *.
  - injection Ht as ->. clear IH. destruct (f p), (f q); simpl; lia.
  - specialize (IH t Ht). destruct (f x); simpl; lia.
Qed.

Lemma wstep_credit rid m sys sys' :
  Forall judged_ok (procs sys) -> fresh_move m sys -> wstep m sys = Some sys' ->
  (weight (opens rid m sys) + credit rid sys' <= credit rid sys)%nat /\ Forall judged_ok (procs sys').
Proof.
  intros Hj Hf. destruct m as [p|t r|t]; cbn [Writes.wstep opens].
  - destruct (entry p) eqn:He; [|done]. intros [= <-]. unfold credit. cbn [disk_ procs].
    rewrite List.filter_app, length_app. split; [|apply Forall_app; split; [done|]; repeat constructor]; by destruct p; simpl; try lia.
  - destruct (procs sys !! t) as [p|] eqn:Hp; [|done]. cbn [mbind option_bind].
    destruct (step p r (disk_ sys)) as [[p' d']|] eqn:Hs; [|done]. intros [= <-].
    simpl in Hf. rewrite Hp in Hf.
    destruct (step_spends rid p r (disk_ sys) p' d') as [Hw Hj']; [by eapply Forall_lookup_1|done|done|].
    unfold credit. cbn [disk_ procs]. pose proof (filter_weight_insert (before_open rid) _ _ _ p' Hp).
    split; [lia|]. by apply Forall_insert.
  - intros [= <-]. split; [|done]. unfold credit, claimable. simpl. lia.
Qed.

Lemma openings_credit rid ms sys :
  Forall judged_ok (procs sys) -> fresh_run ms sys -> (openings rid ms sys <= credit rid sys)%nat.
Proof.
  revert sys. induction ms as [|m ms IH]; intros sys Hj Hf; simpl; [lia|]. destruct Hf as [Hm Hf].
  destruct (wstep m sys) as [sys'|] eqn:Hs.
  - destruct (wstep_credit rid m sys sys' Hj Hm Hs) as [Hc Hj']. specialize (IH sys' Hj' Hf). lia.
  - destruct (opens rid m sys) eqn:Ho; [|simpl; lia]. exfalso. destruct m as [|t r|]; try done. cbn [opens Writes.wstep] in *.
    destruct (procs sys !! t) as [p|]; [|done]. cbn [mbind option_bind] in Hs. by destruct (step p r (disk_ sys)) as [[]|].
Qed.

(** ** A commit that runs alone *)
Fixpoint solo (rs : list readings) (p : place) (d : disk) : place * disk :=
  match rs with
  | [] => (p, d)
  | r :: rs => match step p r d with Some (p', d') => solo rs p' d' | None => (p, d) end
  end.

(** Nothing fails. *)
Record calm (r : readings) : Prop := {
  cl_read : read_fault r = false; cl_save : save_fault r = false; cl_io : io_fault r = false;
  cl_audit : audit_fault r = false; cl_memory : memory_fault r = false }.

Lemma commit_solo_step r rs p d p' d' : step p r d = Some (p', d') -> solo (r :: rs) p d = solo rs p' d'.
Proof. intros Hs. cbn [solo]. by rewrite Hs. Qed.

Lemma commit_solo_done rs o d : solo rs (Done o) d = (Done o, d).
Proof. by destruct rs. Qed.

Lemma write_at_end data chunk : write_at data (length data) chunk = data ++ chunk.
Proof.
  unfold write_at. rewrite take_ge, drop_ge by lia. rewrite Nat.sub_diag. simpl. by rewrite app_nil_r.
Qed.

Lemma write_loop rid rec p off rest data d rs m :
  files d !! p = Some (NFile data) -> off = None \/ off = Some (length data) ->
  Forall calm rs -> (length rest + 1 + m <= length rs)%nat ->
  exists rs', (m <= length rs')%nat /\ rs' `suffix_of` rs /\
    solo rs (CmWrite rid rec p off rest) d
    = solo rs' (CmPrior rid rec p) (set_files (<[p := NFile (data ++ rest)]> (files d)) d).
Proof.
  revert rest off data d. induction rs as [|r rs IH]; intros rest off data d Hd Ho Hc Hl; [simpl in Hl; lia|].
  apply Forall_cons in Hc as [Hr Hc]. destruct rest as [|b rest].
  { exists rs. simpl in Hl. split; [lia|]. split; [by eexists [r]|]. cbn [solo Writes.step commit_step].
    rewrite app_nil_r, insert_id by done. by destruct d. }
  set (k := Nat.min (Nat.max 1 (accepts r)) (length (b :: rest))).
  assert (1 <= k <= length (b :: rest))%nat as Hk by (unfold k; simpl; lia).
  set (d1 := set_files (<[p := NFile (data ++ take k (b :: rest))]> (files d)) d).
  destruct (IH (drop k (b :: rest)) (option_map (fun o => (o + k)%nat) off) (data ++ take k (b :: rest)) d1) as (rs' & Hm & Hs & He).
  - unfold d1. cbn [files set_files]. by rewrite lookup_insert_eq.
  - destruct Ho as [->| ->]; [by left|right]. simpl. f_equal. rewrite length_app, length_take. lia.
  - done.
  - rewrite length_drop. simpl in *. lia.
  - exists rs'. split; [done|]. split; [by apply suffix_cons_r|].
    erewrite commit_solo_step; [rewrite He|].
    + f_equal. unfold d1. cbn [files set_files]. rewrite insert_insert_eq, <-app_assoc, take_drop. done.
    + cbn [Writes.step commit_step]. fold k. unfold touch. rewrite (cl_io _ Hr). unfold oserror_or. munfold.
      unfold put. rewrite Hd. unfold d1. repeat f_equal. destruct Ho as [->| ->]; [done|]. by rewrite write_at_end.
Qed.

Lemma parents_shorter seen rest q : q ∈ parents_from seen rest -> (length q < length seen + length rest)%nat.
Proof.
  revert seen. induction rest as [|c rest IH]; intros seen; simpl; [by intros ?%not_elem_of_nil|].
  intros [Hq|Hq]%elem_of_app; [|apply IH in Hq; simpl in Hq; lia].
  destruct (_ && _); [|by apply not_elem_of_nil in Hq]. apply list_elem_of_singleton in Hq as ->. rewrite length_rev. lia.
Qed.

Lemma own_parent p : p ∉ parents p.
Proof. intros Hp%parents_shorter. simpl in Hp. lia. Qed.

Lemma make_dirs_ok dirs t0 t :
  make_dirs dirs t0 = Ok t ->
  (forall q, q ∈ dirs -> t !! q = Some NDir) /\ (forall q, q ∉ dirs -> t !! q = t0 !! q) /\
  (forall q, t0 !! q = Some NDir -> t !! q = Some NDir).
Proof.
  revert t0. induction dirs as [|p dirs IH]; intros t0; cbn [make_dirs].
  { intros [= ->]. split; [by intros q ?%not_elem_of_nil|done]. }
  intros Hm. assert (exists t1, make_dirs dirs t1 = Ok t /\ t1 !! p = Some NDir /\ (forall q, q <> p -> t1 !! q = t0 !! q))
    as (t1 & Ht & Hp & Hq).
  { destruct (t0 !! p) as [[| |]|] eqn:Hp; try done; [by exists t0|].
    exists (<[p := NDir]> t0). split; [done|]. split; [by rewrite lookup_insert_eq|]. intros. by rewrite lookup_insert_ne. }
  destruct (IH t1 Ht) as (H1 & H2 & H3). split_and!.
  - intros q [->|Hin]%elem_of_cons; [by apply H3|by apply H1].
  - intros q [Hne Hin]%not_elem_of_cons. rewrite H2 by done. by apply Hq.
  - intros q Hd. apply H3. destruct (decide (q = p)) as [->|]; [done|]. by rewrite Hq.
Qed.

Lemma parent_is_dir p t0 t : make_dirs (parents p) t0 = Ok t -> is_dir t (parent p) = true.
Proof.
  intros (Hd & _)%make_dirs_ok. unfold is_dir, parent. destruct (last (parents p)) as [q|] eqn:Hl; simpl; [|done].
  rewrite Hd; [by rewrite orb_true_r|]. by apply last_Some_elem_of.
Qed.

Lemma mark_calm r rid status expect extra d kvs :
  calm r -> records d !! rid = Some (JObj kvs) ->
  (forall s, expect = Some s -> has_status s (JObj kvs) = true) ->
  mark r rid status expect extra d = (Ok true, set_records (<[rid := marked status extra kvs]> (records d)) d).
Proof.
  intros Hr Hk He. unfold mark, Writes.get. rewrite (cl_read _ Hr), bind_run. cbn [gets]. rewrite Hk.
  destruct expect as [s|]; [rewrite (He s eq_refl); cbn [negb]|]; by rewrite (cl_save _ Hr).
Qed.

Lemma get_calm r rid d kvs : calm r -> records d !! rid = Some (JObj kvs) -> Writes.get r rid d = (Ok (Some (JObj kvs)), d).
Proof. intros Hr Hk. unfold Writes.get. rewrite (cl_read _ Hr). unfold gets. by rewrite Hk. Qed.

Lemma touch_calm r m t d : calm r -> m (files d) = Ok t -> touch r m d = (Ok tt, set_files t d).
Proof. intros Hr Hm. unfold touch. rewrite (cl_io _ Hr). munfold. by rewrite Hm. Qed.

(** A card whose write the guard accepts: its fields, the resolved path [p], the
    bytes [b] of its content and the files [t] once its directory is there. *)
Record approved (v : fsview) (d : disk) (rid : pystr) (kvs : list (pystr * json)) (p : pystr) (b : pybytes) (t : tree) : Prop := {
  ap_record : records d !! rid = Some (JObj kvs);
  ap_pending : has_status (u "pending") (JObj kvs) = true;
  ap_fields : exists op text raw sha, jget (u "op") (JObj kvs) = Some op /\ jget (u "content") (JObj kvs) = Some (JStr text) /\
    jget (u "resolved_path") (JObj kvs) = Some (JStr raw) /\ jget (u "content_sha") (JObj kvs) = Some sha /\
    utf8_encode text = Some b /\
    check_write_target v (files d) persona_dir raw op = Ok (Accepted p) /\
    check_size (files d) (JStr text) op p = Ok (Accepted p);
  ap_dirs : make_dirs (parents p) (files d) = Ok t }.

Definition old_bytes (t : tree) (p : pystr) : pybytes := match t !! p with Some (NFile data) => data | _ => [] end.
Definition separator (t : tree) (p : pystr) : pybytes := if needs_separator t p then [10%N] else [].

Lemma approved_guard v d rid kvs p b t r :
  approved v d rid kvs p b t -> view r = v -> commit_guard persona_dir r (JObj kvs) d = (Ok (inl p), d).
Proof.
  intros [_ _ (op & text & raw & sha & Ho & Hc & Hp & _ & _ & Hg & Hz) _] Hv. unfold commit_guard, jindex.
  rewrite Ho, Hc, Hp, Hv. munfold. rewrite Hg. munfold. by rewrite Hz.
Qed.

(** The file as it is found when it is opened. *)
Lemma approved_target v d rid kvs p b t :
  approved v d rid kvs p b t ->
  content_bytes (JObj kvs) = b /\
  (is_create (JObj kvs) = true /\ files d !! p = None \/
   is_create (JObj kvs) = false /\ exists data, files d !! p = Some (NFile data)) /\
  t !! p = files d !! p.
Proof.
  intros [_ _ (op & text & raw & sha & Ho & Hc & _ & _ & Hb & Hg & _) Hd].
  unfold content_bytes, is_create, jget_none. rewrite Ho, Hc. simpl. rewrite Hb. split; [done|].
  split; [|by apply (make_dirs_ok _ _ _ Hd), own_parent].
  apply check_write_target_ok in Hg as [_ Ht]. destruct (tk_op _ _ _ _ _ Ht) as [[-> Hn]|[-> He]]; eauto.
Qed.

(** Readings without a fault, of one view, before the card expires. *)
Definition steady (v : fsview) (rec : json) (r : readings) : Prop :=
  calm r /\ view r = v /\ is_expired rec (now r) = false.

Lemma run_sect {A} (m : D A) k d a d' : m d = (Ok a, d') -> sect m k d = Some (k a, d').
Proof. unfold sect. by intros ->. Qed.
Lemma run_oserror {A} (m : D A) k h d a d' : m d = (Ok a, d') -> oserror_or m k h d = Some (k a, d').
Proof. unfold oserror_or. by intros ->. Qed.

Lemma open_calm v d rid kvs p b t d1 r :
  approved v d rid kvs p b t -> calm r -> files d1 = t ->
  exists t', touch r (fun t => open_file t p (is_create (JObj kvs))) d1 = (Ok tt, set_files t' d1) /\
    t' !! p = Some (NFile (old_bytes (files d) p)) /\
    (forall data, <[p := NFile data]> t' = <[p := NFile data]> t) /\
    (if is_create (JObj kvs) then old_bytes (files d) p = [] else True).
Proof.
  intros Ha Hr <-. destruct (approved_target _ _ _ _ _ _ _ Ha) as (_ & Hop & Ht). unfold old_bytes.
  destruct Hop as [[-> Hn]|[-> [data Hd]]]; rewrite ?Hn, ?Hd in *.
  - exists (<[p := NFile []]> (files d1)). split; [|split; [by rewrite lookup_insert_eq|split; [|done]]].
    + apply touch_calm; [done|]. unfold open_file. rewrite Ht. by rewrite (parent_is_dir _ _ _ (ap_dirs _ _ _ _ _ _ _ Ha)).
    + intros data. by rewrite insert_insert_eq.
  - exists (files d1). split; [|split; [done|split; [done|done]]]. apply touch_calm; [done|]. unfold open_file. by rewrite Ht.
Qed.

Lemma probe_calm v d rid kvs p b t d1 r :
  approved v d rid kvs p b t -> calm r -> files d1 = t ->
  (if io_fault r then raise OSError else gets (fun d => negb (is_create (JObj kvs)) && needs_separator (files d) p)) d1
  = (Ok (needs_separator (files d) p), d1).
Proof.
  intros Ha Hr <-. rewrite (cl_io _ Hr). destruct (approved_target _ _ _ _ _ _ _ Ha) as (_ & Hop & Ht).
  unfold gets, needs_separator. rewrite Ht. by destruct Hop as [[-> ->]|[-> _]].
Qed.

Ltac stp := erewrite commit_solo_step; [|cbn [Writes.step commit_step]].

Lemma commit_alone v d rid kvs p b t rs :
  approved v d rid kvs p b t ->
  Forall (steady v (JObj kvs)) rs -> (13 + length b <= length rs)%nat ->
  exists stamp_ sha d', solo rs (CmStart rid) d = (Done (Committed p), d') /\
    files d' = <[p := NFile (old_bytes (files d) p ++ separator (files d) p ++ b)]> t /\
    records d' = <[rid := marked (u "committed") [] (match marked (u "committing") [(u "claimed_at", JStr stamp_)] kvs with
                                                     JObj l => l | _ => [] end)]> (records d) /\
    wired d' = (JStr p, u "committed") :: wired d /\
    audit_rows d' = {| ar_event := u "commit"; ar_id := JStr rid; ar_op := jget_none (u "op") (JObj kvs); ar_path := JStr p;
                       ar_sha := sha; ar_outcome := u "committed"; ar_error := None |} :: audit_rows d.
Proof.
  intros Ha Hc Hl. destruct (approved_target _ _ _ _ _ _ _ Ha) as (Hb & _ & Ht).
  pose proof (ap_record _ _ _ _ _ _ _ Ha) as Hk. pose proof (ap_pending _ _ _ _ _ _ _ Ha) as Hpend.
  destruct (ap_fields _ _ _ _ _ _ _ Ha) as (op & text & raw & sha & Hop & _ & _ & Hsha & _).
  do 7 (destruct rs as [|? rs]; [simpl in Hl; lia|]).
  apply Forall_cons in Hc as [(C0 & _ & _) Hc]. apply Forall_cons in Hc as [(C1 & _ & E1) Hc].
  apply Forall_cons in Hc as [(C2 & V2 & _) Hc]. apply Forall_cons in Hc as [(C3 & _ & _) Hc].
  apply Forall_cons in Hc as [(C4 & _ & _) Hc]. apply Forall_cons in Hc as [(C5 & _ & _) Hc].
  apply Forall_cons in Hc as [(C6 & _ & _) Hc].
  exists (isoformat (now r2)), sha. remember (marked (u "committing") [(u "claimed_at", JStr (isoformat (now r2)))] kvs) as rec1 eqn:Hk1.
  destruct rec1 as [| | | | | |kvs1]; [done..|].
  set (d1 := set_records (<[rid := JObj kvs1]> (records d)) d).
  assert (records d1 !! rid = Some (JObj kvs1)) as Hk' by apply lookup_insert_eq.
  stp; [|by apply run_sect, (get_calm _ _ _ kvs)]. cbv beta iota. rewrite Hpend.
  stp; [|by rewrite E1].
  stp; [|by eapply run_sect, approved_guard].
  stp; [|eapply run_sect, (mark_calm _ _ _ _ _ _ kvs); [done..|by intros ? [= <-]]]. rewrite <-Hk1. fold d1.
  stp; [|by apply run_oserror, touch_calm; [|apply (ap_dirs _ _ _ _ _ _ _ Ha)]].
  stp; [|by eapply run_oserror, probe_calm].
  destruct (open_calm _ _ _ _ _ _ _ (set_files t d1) r5 Ha C6 eq_refl) as (t' & Hopen & Ht' & Hins & Hnew).
  stp; [|by apply run_oserror]. rewrite Hb.
  cbv beta. fold (separator (files d) p). set (d2 := set_files t' (set_files t d1)). simpl in Hl.
  destruct (write_loop rid (JObj kvs) p (if is_create (JObj kvs) then Some 0%nat else None) (separator (files d) p ++ b)
    (old_bytes (files d) p) d2 rs 3) as (rs' & Hl' & Hs & ->).
  { done. }
  { destruct (is_create (JObj kvs)); [right; by rewrite Hnew|by left]. }
  { eapply Forall_impl; [done|]. by intros ? []. }
  { unfold separator. rewrite length_app. destruct (needs_separator _ _); simpl; lia. }
  destruct Hs as [used ->]. apply Forall_app in Hc as [_ Hc].
  do 3 (destruct rs' as [|? rs']; [simpl in Hl'; lia|]). clear Hl Hl'.
  apply Forall_cons in Hc as [(C7 & _ & _) Hc]. apply Forall_cons in Hc as [(C8 & _ & _) Hc].
  apply Forall_cons in Hc as [(C9 & _ & _) Hc].
  set (d3 := set_files _ d2).
  stp; [|by apply run_sect, (get_calm _ _ _ kvs1)]. cbv beta iota.
  stp; [|eapply run_oserror, (mark_calm _ _ _ _ _ _ kvs1); done]. cbv beta iota.
  assert (reconciled_lost (Some (JObj kvs1)) = false) as ->.
  { unfold reconciled_lost. by rewrite Hk1, marked_status by notkey. }
  eexists. split; [|split_and!].
  { stp; [|eapply run_sect; unfold jindex; rewrite Hsha, bind_run; cbn [of_res or_raise];
      unfold commit_audit, audit, wire_memory; rewrite bind_run, (cl_audit _ C9), (cl_memory _ C9); reflexivity].
    apply commit_solo_done. }
  - apply Hins.
  - cbn. by rewrite insert_insert_eq.
  - done.
  - done.
Qed.

(** ** What the repair sees of a completed write *)
Lemma splitlines_app a cur s :
  splitlines_from cur (a ++ 10%N :: s) = splitlines_from cur (a ++ [10%N]) ++ splitlines_from [] s.
Proof.
  remember (length a) as n eqn:Hn. revert a cur Hn. induction n as [n IH] using lt_wf_ind. intros [|c a] cur ->.
  { simpl. destruct s; reflexivity. }
  cbn [app splitlines_from]. destruct (is_linebreak c) eqn:Hc; [|apply (IH (length a)); [simpl; lia|done]].
  destruct a as [|x a]; cbn [app].
  - destruct (_ && _); cbn [app]; [done|]. f_equal. simpl. by destruct s.
  - destruct (_ && _); cbn [app]; f_equal; [apply (IH (length a)); [simpl; lia|done]|].
    apply (IH (length (x :: a)) ltac:(simpl; lia) (x :: a) [] eq_refl).
Qed.

Lemma contiguous_suffix l needle : contiguous needle (l ++ needle) = true.
Proof.
  assert (forall n, is_prefix n n = true) as Hp.
  { induction n as [|x n IHn]; simpl; [done|]. by rewrite bool_decide_eq_true_2. }
  induction l as [|x l IH]; simpl; [|by rewrite IH, orb_true_r]. destruct needle; simpl; [done|].
  rewrite bool_decide_eq_true_2 by done. simpl. by rewrite Hp.
Qed.

Lemma block_present_end before s :
  before = [] \/ last before = Some 10%N -> block_present (before ++ s) s = true.
Proof.
  intros [->|Hl]; unfold block_present; [apply (contiguous_suffix [])|].
  apply last_Some in Hl as [a ->]. rewrite <-app_assoc. unfold splitlines. cbn [app]. rewrite splitlines_app.
  apply contiguous_suffix.
Qed.

Lemma utf8_encode_app s t b c :
  utf8_encode s = Some b -> utf8_encode t = Some c -> utf8_encode (s ++ t) = Some (b ++ c).
Proof.
  revert b. induction s as [|x s IH]; intros b; simpl; [by intros [= <-]|].
  destruct (utf8_char x) as [bx|]; [|done]. simpl. destruct (utf8_encode s) as [bs|]; [|done]. simpl. intros [= <-] Ht.
  by rewrite (IH bs), <-app_assoc.
Qed.

Lemma utf8_char_newline x b : utf8_char x = Some b -> last b = Some 10%N -> x = 10%N.
Proof. unfold utf8_char. intros Hx Hl. repeat case_match; simplify_eq; simpl in Hl; simplify_eq; lia. Qed.

Lemma utf8_char_nonempty x b : utf8_char x = Some b -> b <> [].
Proof. unfold utf8_char. intros. repeat case_match; by simplify_eq. Qed.

Lemma utf8_newline s b : utf8_encode s = Some b -> last b = Some 10%N -> last s = Some 10%N.
Proof.
  revert b. induction s as [|x s IH]; intros b; simpl; [by intros [= <-]|].
  destruct (utf8_char x) as [bx|] eqn:Hx; [|done]. simpl. destruct (utf8_encode s) as [bs|] eqn:Hs; [|done]. simpl. intros [= <-].
  destruct s as [|y s].
  - injection Hs as <-. rewrite app_nil_r. intros Hl. by rewrite (utf8_char_newline x bx).
  - intros Hl. destruct bs as [|z bs].
    { simpl in Hs. destruct (utf8_char y) as [by_|] eqn:Hy; [|done]. simpl in Hs. destruct (utf8_encode s); [|done]. simpl in Hs.
      apply utf8_char_nonempty in Hy. by destruct by_. }
    rewrite last_app in Hl. specialize (IH (z :: bs) eq_refl). rewrite last_cons_cons.
    apply IH. destruct (last (z :: bs)) eqn:E; [done|]. by apply last_None in E.
Qed.

(** What separates an append from the bytes before it. *)
Definition line_gap (old : pybytes) : pybytes :=
  match last old with Some c => if (c =? 10)%N then [] else [10%N] | None => [] end.

Lemma separator_gap t p : separator t p = line_gap (old_bytes t p).
Proof.
  unfold separator, needs_separator, line_gap, old_bytes. destruct (t !! p) as [[data| |]|]; [|done..].
  destruct (last data) as [c|]; [|done]. by destruct (c =? 10)%N.
Qed.

(** The bytes a completed write leaves are recognised. *)
Lemma landed_append r t rec p s0 old s b :
  jget (u "resolved_path") rec = Some (JStr p) -> jget (u "content") rec = Some (JStr s) ->
  jget (u "op") rec = Some (JStr (u "append")) ->
  utf8_encode s0 = Some old -> utf8_encode s = Some b -> io_fault r = false ->
  t !! p = Some (NFile (old ++ line_gap old ++ b)) ->
  (Z.of_nat (length (old_bytes t p)) <= MAX_RESULT_FILE_BYTES)%Z ->
  inspect_target utf8_damaged r t rec = Ok Landed.
Proof.
  intros Hp Hc Ho H0 Hs Hi Ht Hm. unfold inspect_target, jindex. rewrite Hp, Hc, Ho. cbn [or_raise mbind res_bind].
  unfold old_bytes in Hm. rewrite Hi, Ht in *.
  set (sep := line_gap old) in *.
  assert (utf8_encode sep = Some sep) as Hsep by (unfold sep, line_gap; by repeat case_match).
  assert ((MAX_RESULT_FILE_BYTES <? Z.of_nat (length (old ++ sep ++ b)))%Z = false) as -> by lia.
  pose proof (utf8_encode_app _ _ _ _ H0 (utf8_encode_app _ _ _ _ Hsep Hs)) as He.
  unfold decode_replace. rewrite (utf8_decode_encode _ _ He). cbn [default].
  change (jis_str (u "create") (JStr (u "append"))) with false. cbv iota beta. cbn [mbind res_bind].
  unfold id. rewrite app_assoc, block_present_end; [done|]. unfold sep, line_gap. destruct (last old) as [c|] eqn:Hl.
  - right. destruct (c =? 10)%N eqn:E; [|by rewrite last_snoc]. rewrite app_nil_r.
    apply N.eqb_eq in E as ->. by eapply utf8_newline.
  - left. apply last_None in Hl as ->. rewrite app_nil_r. destruct s0 as [|x s0]; [done|]. simpl in H0.
    destruct (utf8_char x) as [bx|] eqn:Hx; [|done]. simpl in H0. destruct (utf8_encode s0); [|done]. simpl in H0.
    apply utf8_char_nonempty in Hx. by destruct bx.
Qed.

Lemma landed_create r t rec p s b rest :
  jget (u "resolved_path") rec = Some (JStr p) -> jget (u "content") rec = Some (JStr s) ->
  jget (u "op") rec = Some (JStr (u "create")) ->
  utf8_encode s = Some b -> io_fault r = false -> t !! p = Some (NFile (b ++ rest)) ->
  (Z.of_nat (length (old_bytes t p)) <= MAX_RESULT_FILE_BYTES)%Z ->
  inspect_target utf8_damaged r t rec = Ok Landed.
Proof.
  intros Hp Hc Ho Hs Hi Ht Hm. unfold inspect_target, jindex. rewrite Hp, Hc, Ho. cbn [or_raise mbind res_bind].
  unfold old_bytes in Hm. rewrite Hi, Ht in *.
  assert ((MAX_RESULT_FILE_BYTES <? Z.of_nat (length (b ++ rest)))%Z = false) as -> by lia.
  change (jis_str (u "create") (JStr (u "create"))) with true. cbv iota. unfold encode. rewrite Hs. cbn [or_raise mbind res_bind].
  pose proof (substring_of_app [] b rest) as Hb. cbn [app] in Hb. by rewrite Hb.
Qed.

(** One stale record, readable target: the record ends as what the file shows, the
    files are left alone. *)
Lemma reconcile_one r1 r2 r3 rs since kvs recs n rid op p a (v : verdict_) d :
  calm r1 -> calm r2 -> calm r3 ->
  jget (u "id") (JObj kvs) = Some (JStr rid) -> jget (u "op") (JObj kvs) = Some op ->
  jget (u "resolved_path") (JObj kvs) = Some (JStr p) ->
  records d !! rid = Some (JObj kvs) -> has_status (u "committing") (JObj kvs) = true ->
  claim_age (JObj kvs) since = Some a -> (COMMIT_STALE < a)%Z ->
  inspect_target utf8_damaged r1 (files d) (JObj kvs) = Ok v -> v <> Unreadable ->
  let ok := match v with Landed => true | _ => false end in
  exists d', solo (r1 :: r2 :: r3 :: rs) (RcNext since (JObj kvs :: recs) n) d = solo rs (RcNext since recs (n + 1)) d' /\
    files d' = files d /\
    records d' = <[rid := marked (if ok then u "committed" else u "error") [(u "resolved_by", JStr (u "reconcile"))] kvs]> (records d) /\
    wired d' = (JStr p, if ok then u "committed" else u "abandoned") :: wired d.
Proof.
  intros C1 C2 C3 Hid Hop Hp Hk Hst Ha Hage Hv Hn ok.
  assert (exists j, judge utf8_damaged r1 since (JObj kvs) (files d) = Ok (Some j) /\ j_rid j = JStr rid /\ j_path j = JStr p /\
    j_status j = (if ok then u "committed" else u "error") /\ j_wire j = (if ok then u "committed" else u "abandoned"))
    as (j & Hj & Jr & Jp & Js & Jw).
  { unfold judge, jindex. rewrite Hid, Hop, Hp, Ha, Hv. cbn [or_raise mbind res_bind].
    assert ((a <=? COMMIT_STALE)%Z = false) as -> by lia. destruct v; [..|done]; eexists; (split; [reflexivity|done]). }
  eexists. split; [|split_and!].
  { erewrite commit_solo_step; [|cbn [Writes.step reconcile_step]; unfold sect_or; rewrite bind_run; cbn [Prelude.get];
      rewrite bind_run; unfold of_res; rewrite Hj, (cl_memory _ C1); reflexivity].
    erewrite commit_solo_step; [|cbn [Writes.step reconcile_step]; unfold sect_or; rewrite Jr; cbn [py_str];
      erewrite (mark_calm _ _ _ _ _ _ kvs) by (done || (intros ? [= <-]; done)); reflexivity]. cbv beta iota.
    erewrite commit_solo_step; [|cbn [Writes.step reconcile_step]; unfold sect_or, audit, wire_memory;
      rewrite bind_run, (cl_audit _ C3), (cl_memory _ C3); reflexivity]. reflexivity. }
  - done.
  - cbn. by rewrite Js.
  - cbn. by rewrite Jp, Jw.
Qed.

(** ** Proposals *)
Definition cards (d : disk) : list json :=
  omap (fun kv => match kv.2 with JObj kvs => Some (JObj kvs) | _ => None end) (map_to_list (records d)).

Lemma insert_newest_perm rec l : insert_newest rec l ≡ₚ rec :: l.
Proof.
  induction l as [|x l IH]; simpl; [done|]. destruct (str_ltb _ _); [done|]. rewrite IH. apply Permutation_swap.
Qed.

Lemma list_pending_spec now_ d :
  exists l, list_pending now_ d = (Ok l, d) /\ l ≡ₚ List.filter (fresh now_) (cards d).
Proof.
  exists (fold_left (fun l rec => insert_newest rec l) (List.filter (fresh now_) (cards d)) []).
  split; [reflexivity|]. generalize (List.filter (fresh now_) (cards d)). intros l.
  assert (forall acc, fold_left (fun l rec => insert_newest rec l) l acc ≡ₚ l ++ acc) as Hf.
  { induction l as [|x l IH]; intros acc; simpl; [done|]. rewrite IH, insert_newest_perm. by rewrite Permutation_middle. }
  pose proof (Hf []) as Hl. rewrite app_nil_r in Hl. exact Hl.
Qed.

(** The write a card proposes. *)
Definition proposes (op path sha : pystr) (rec : json) : bool :=
  jis_str op (jget_none (u "op") rec) && jis_str path (jget_none (u "resolved_path") rec)
  && jis_str sha (jget_none (u "content_sha") rec).

Lemma find_duplicate_none op path sha now_ d d' :
  find_duplicate op path sha now_ d = (Ok None, d') ->
  d' = d /\ forall rec, rec ∈ cards d -> fresh now_ rec = true -> proposes op path sha rec = false.
Proof.
  destruct (list_pending_spec now_ d) as (l & Hl & Hp). unfold find_duplicate. rewrite bind_run, Hl.
  fold (proposes op path sha). destruct (List.filter (proposes op path sha) l) as [|rec l'] eqn:He.
  - munfold. intros Hd. injection Hd as <-. split; [done|]. intros rec Hr Hf. apply not_true_iff_false. intros Ht.
    assert (rec ∈ List.filter (proposes op path sha) l) as Hin.
    { apply list_elem_of_In, filter_In. split; [|done]. apply list_elem_of_In. rewrite Hp.
      apply list_elem_of_In, filter_In. split; [|done]. by apply list_elem_of_In. }
    rewrite He in Hin. by apply not_elem_of_nil in Hin.
  - munfold. destruct (jindex (u "id") rec); [|done]. done.
Qed.

Lemma count_pending_spec now_ d :
  count_pending now_ d = (Ok (Z.of_nat (length (List.filter (fresh now_) (cards d)))), d).
Proof.
  destruct (list_pending_spec now_ d) as (l & Hl & Hp). unfold count_pending. rewrite bind_run, Hl. munfold. by rewrite Hp.
Qed.

Lemma create_ok r op path content mk d i d' :
  create r op path content mk d = (Ok i, d') ->
  new_id path content (now r) = Ok i /\ exists sha, sha_hex content = Ok sha /\
  d' = set_records (<[i := JObj [(u "id", JStr i); (u "op", JStr op); (u "resolved_path", JStr path);
    (u "content", JStr content); (u "content_sha", JStr sha);
    (u "proposed_at", JStr (isoformat (now r))); (u "status", JStr (u "pending")); (u "making_id", mk)]]> (records d)) d.
Proof.
  unfold create, sha_hex. rewrite bind_run. unfold of_res at 1. destruct (new_id path content (now r)) as [j|]; [|done].
  rewrite bind_run. unfold of_res at 1. destruct (encode content) as [b|]; [|done]. destruct (save_fault r); [done|].
  munfold. intros He. simplify_eq. split; [done|]. eauto.
Qed.

(** ** Types: the shape of a card *)
Definition STATUSES : list pystr :=
  map u ["pending"; "committing"; "committed"; "declined"; "expired"; "refused"; "error"]%string.
Definition CARD_KEYS : list pystr := map u ["id"; "op"; "resolved_path"; "content"; "content_sha"]%string.

Definition typed (rec : json) : Prop :=
  (exists kvs, rec = JObj kvs) /\ (forall k, k ∈ CARD_KEYS -> exists s, jget k rec = Some (JStr s)) /\
  exists s, jget (u "status") rec = Some (JStr s) /\ s ∈ STATUSES.

Definition cards_typed (d : disk) : Prop := map_Forall (fun _ rec => typed rec) (records d).

(** An exception that is not a missing key or a value of the wrong type. *)
Definition not_a_type_error (e : exn) : Prop := e <> KeyError /\ e <> TypeError /\ e <> AttributeError.

(** The operating system's answers raise no such exception. *)
Definition sane_view (v : fsview) : Prop :=
  (forall p e, v_resolve v p = Err e -> not_a_type_error e) /\ (forall p e, v_real v p = Err e -> not_a_type_error e).

Definition thread_typed (p : place) : Prop :=
  match p with
  | CmCheck _ rec | CmGuard _ rec | CmRefuse _ rec _ | CmRefused _ rec _ | CmClaim _ rec _ | CmUnclaimed _ rec
  | CmMkdir _ rec _ | CmProbe _ rec _ | CmOpen _ rec _ _ | CmWrite _ rec _ _ _ | CmFault _ rec _ | CmFaulted _ rec _
  | CmPrior _ rec _ | CmFinal _ rec _ _ _ | CmReport _ rec _ _ _ | DcMark _ rec | DcReport _ rec => typed rec
  | SwMark ids _ => Forall typed ids
  | RcNext _ recs _ | RcReport _ _ recs _ => Forall typed recs
  | RcMark _ j recs _ => Forall typed recs /\ j_status j ∈ STATUSES
  | Done (Raised e) => not_a_type_error e
  | _ => True
  end.

Lemma typed_field rec k : typed rec -> k ∈ CARD_KEYS -> exists s, jindex k rec = Ok (JStr s).
Proof. intros (_ & Hk & _) Hin. destruct (Hk k Hin) as [s Hs]. exists s. unfold jindex. by rewrite Hs. Qed.

Lemma marked_typed status extra kvs :
  typed (JObj kvs) -> status ∈ STATUSES -> Forall (fun k => k ∉ map fst extra) (u "status" :: CARD_KEYS) ->
  typed (marked status extra kvs).
Proof.
  intros (_ & Hk & _) Hs Hx. apply Forall_cons in Hx as [Hst Hx]. split; [by eexists|]. split.
  - intros k Hin. rewrite marked_get by (by eapply (proj1 (Forall_forall _ _) Hx)).
    rewrite bool_decide_eq_false_2; [by apply Hk|]. intros ->. revert Hin. notkey.
  - exists status. by rewrite marked_get.
Qed.

Lemma mark_types r rid status expect extra d x d' :
  cards_typed d -> status ∈ STATUSES -> Forall (fun k => k ∉ map fst extra) (u "status" :: CARD_KEYS) ->
  mark r rid status expect extra d = (x, d') -> cards_typed d' /\ forall e, x = Err e -> not_a_type_error e.
Proof.
  intros Hd Hs Hx Hm. split.
  - destruct (mark_spec _ _ _ _ _ _ _ _ Hm) as [[-> _]|[_ (kvs & Hk & _ & ->)]]; [done|].
    apply map_Forall_insert_2; [|done]. apply marked_typed; [by apply (Hd _ _ Hk)|done..].
  - intros e ->. unfold mark, Writes.get in Hm. destruct (read_fault r); [done|]. rewrite bind_run in Hm. cbn [gets] in Hm.
    destruct (records d !! rid) as [[]|]; try done. destruct (match expect with Some _ => _ | None => _ end); [done|].
    destruct (save_fault r); [|done]. by injection Hm as <- _.
Qed.

Lemma create_types r op path content mk d x d' :
  cards_typed d -> create r op path content mk d = (x, d') -> cards_typed d' /\ forall e, x = Err e -> not_a_type_error e.
Proof.
  intros Hd. unfold create. generalize (JStr (isoformat (now r))). intros st. rewrite bind_run. unfold of_res at 1.
  destruct (new_id path content (now r)) as [i|e] eqn:Hi.
  - rewrite bind_run. unfold of_res at 1. destruct (encode content) as [b|e] eqn:He.
    + generalize (to_hex (sha256 b)). intros sha.
      destruct (save_fault r); munfold; intros Hc; simplify_eq; [split; [done|]; intros ? [= <-]; by split_and!|]. split; [|done].
      apply map_Forall_insert_2; [|done]. split; [by eexists|]. split.
      * intros k Hk. unfold CARD_KEYS in Hk. cbn [map] in Hk.
        repeat (apply elem_of_cons in Hk as [->|Hk]; [eexists; vm_compute; reflexivity|]). by apply not_elem_of_nil in Hk.
      * exists (u "pending"). split; [vm_compute; reflexivity|]. apply (bool_decide_unpack _). vm_compute. exact I.
    + intros Hc. simplify_eq. split; [done|]. intros ? [= <-]. unfold encode in He. destruct (utf8_encode content); simplify_eq/=. by split_and!.
  - intros Hc. simplify_eq. split; [done|]. intros ? [= <-]. unfold new_id, encode in Hi.
    destruct (utf8_encode _); simplify_eq/=. by split_and!.
Qed.

Lemma get_typed r rid d x d' :
  cards_typed d -> Writes.get r rid d = (x, d') -> d' = d /\ exists o, x = Ok o /\ forall rec, o = Some rec -> typed rec.
Proof.
  intros Hd. unfold Writes.get. destruct (read_fault r); [munfold; intros; simplify_eq; split; [done|]; by exists None|].
  cbn [gets]. intros Hg. injection Hg as <- <-. split; [done|]. eexists. split; [reflexivity|].
  intros rec Hr. destruct (records d !! rid) as [v|] eqn:Hk; [|done]. apply Hd in Hk. by destruct v; simplify_eq.
Qed.

Lemma cards_all_typed d : cards_typed d -> Forall typed (cards d).
Proof.
  intros Hd. apply Forall_forall. intros rec Hr. unfold cards in Hr.
  apply list_elem_of_omap in Hr as ([k v] & Hin & Hv). apply elem_of_map_to_list in Hin. apply Hd in Hin. by destruct v; simplify_eq/=.
Qed.

Lemma filter_typed (f : json -> bool) l : Forall typed l -> Forall typed (List.filter f l).
Proof.
  rewrite !Forall_forall. intros Hl x Hx. apply list_elem_of_In, filter_In in Hx as [Hx _]. by apply Hl, list_elem_of_In.
Qed.

Lemma same_typed d d' : same_records d d' -> cards_typed d -> cards_typed d'.
Proof. unfold same_records, cards_typed. by intros ->. Qed.

(** What running a section as a step gives. *)
Definition types_out {A} (k : A -> place) (m : D A) (d : disk) : Prop :=
  cards_typed (m d).2 /\ (forall a, (m d).1 = Ok a -> thread_typed (k a)) /\ (forall e, (m d).1 = Err e -> not_a_type_error e).

Lemma sect_types {A} (m : D A) k d p' d' :
  types_out k m d -> sect m k d = Some (p', d') -> cards_typed d' /\ thread_typed p'.
Proof. intros (H1 & H2 & H3) Hs. apply sect_out in Hs as [-> [(a & Ha & ->)|(e & He & ->)]]; (split; [done|]); [by apply H2|by apply (H3 e)]. Qed.

Lemma sect_or_types {A} (m : D A) k h d p' d' :
  types_out k m d -> (forall e, thread_typed (h e)) -> sect_or m k h d = Some (p', d') -> cards_typed d' /\ thread_typed p'.
Proof.
  intros (H1 & H2 & H3) Hh Hs. apply sect_or_out in Hs as [-> [(a & Ha & ->)|(e & He & [->| ->])]]; (split; [done|]);
    [by apply H2|apply Hh|by apply (H3 e)].
Qed.

Lemma oserror_or_types {A} (m : D A) k h d p' d' :
  types_out k m d -> thread_typed h -> oserror_or m k h d = Some (p', d') -> cards_typed d' /\ thread_typed p'.
Proof.
  intros (H1 & H2 & H3) Hh Hs. apply oserror_or_out in Hs as [-> [(a & Ha & ->)|(e & He & [->| ->])]]; (split; [done|]);
    [by apply H2|apply Hh|by apply (H3 e)].
Qed.

Lemma mark_out r rid status expect extra d (k : bool -> place) :
  cards_typed d -> status ∈ STATUSES -> Forall (fun k => k ∉ map fst extra) (u "status" :: CARD_KEYS) ->
  (forall b, thread_typed (k b)) -> types_out k (mark r rid status expect extra) d.
Proof.
  intros Hd Hs Hx Hk. destruct (mark r rid status expect extra d) as [x d'] eqn:Hm.
  destruct (mark_types _ _ _ _ _ _ _ _ Hd Hs Hx Hm) as [Hd' He]. unfold types_out. rewrite Hm. auto.
Qed.

(** Sections that leave the records alone and do not raise. *)
Lemma calm_out {A} (m : D A) (k : A -> place) d :
  cards_typed d -> pres same_records m -> (forall a, (m d).1 = Ok a -> thread_typed (k a)) ->
  (forall e, (m d).1 = Err e -> not_a_type_error e) -> types_out k m d.
Proof. intros Hd Hm Hk He. split; [|done]. eapply same_typed; [apply Hm|done]. Qed.

Lemma os_error : not_a_type_error OSError.
Proof. by split_and!. Qed.
Lemma unicode_error : not_a_type_error UnicodeError.
Proof. by split_and!. Qed.

Lemma audit_ok r row d : exists b, (audit r row d).1 = Ok b.
Proof. unfold audit. destruct (audit_fault r); munfold; eauto. Qed.

Lemma touch_err r m d e : (touch r m d).1 = Err e -> e = OSError \/ m (files d) = Err e.
Proof. unfold touch. destruct (io_fault r); munfold; [intros [= <-]; auto|]. destruct (m (files d)); simpl; [done|]. intros [= <-]; auto. Qed.

Lemma make_dirs_err dirs t e : make_dirs dirs t = Err e -> e = OSError.
Proof.
  revert t. induction dirs as [|p dirs IH]; intros t; simpl; [done|].
  destruct (t !! p) as [[]|]; try (by intros [= <-]); apply IH.
Qed.

Lemma open_file_err t p b e : open_file t p b = Err e -> e = OSError.
Proof. unfold open_file. destruct (t !! p) as [[]|]; try (by intros [= <-]). destruct (is_dir t _); [done|by intros [= <-]]. Qed.

Lemma check_target_err v t raw op e :
  sane_view v -> check_write_target v t persona_dir raw op = Err e -> not_a_type_error e.
Proof.
  intros [Hr Hl]. unfold check_write_target. destruct (v_resolve v raw) as [p|e'] eqn:Hp.
  - destruct (denied v p persona_dir) as [[]|e'] eqn:Hd; cbn [mbind res_bind]; try (by repeat case_match).
    intros [= <-]. unfold denied in Hd. revert Hd. generalize (protected_roots v persona_dir). intros roots.
    induction roots as [|q roots IH]; simpl; [done|]. destruct (is_within v p q) as [[]|e''] eqn:Hw; simpl; try done.
    intros [= <-]. unfold is_within in Hw. destruct (v_real v p) as [c|e1] eqn:Hc; simpl in Hw.
    + destruct (v_real v q) as [c2|e1] eqn:Hc2; simpl in Hw; [done|]. destruct e1; simplify_eq; by eapply Hl.
    + destruct e1; simplify_eq; by eapply Hl.
  - destruct (_ || _); [done|]. intros [= <-]. by eapply Hr.
Qed.

Lemma check_size_err t s op p e : check_size t (JStr s) op p = Err e -> not_a_type_error e.
Proof.
  unfold check_size. destruct (utf8_encode s); cbn; [by repeat case_match|]. intros [= <-]. apply unicode_error.
Qed.

Lemma within_err v p folder e : sane_view v -> is_within_authorized v p folder = Err e -> not_a_type_error e.
Proof.
  intros [_ Hl]. unfold is_within_authorized. destruct folder as [q|]; [|done]. unfold is_within.
  destruct (v_real v p) as [c|e1] eqn:Hc; simpl.
  - destruct (v_real v q) as [c2|e1] eqn:Hc2; simpl; [done|]. destruct e1; intros; simplify_eq; by eapply Hl.
  - destruct e1; intros; simplify_eq; by eapply Hl.
Qed.

Ltac keys := repeat (apply Forall_cons; split; [notkey|]); apply Forall_nil; exact I.
Ltac isin := apply (bool_decide_unpack _); vm_compute; exact I.
Ltac marks_typed := apply mark_out; [done|isin|keys|intros []; try done].

Lemma get_out r rid (k : option json -> place) d :
  cards_typed d -> (forall o, (forall rec, o = Some rec -> typed rec) -> thread_typed (k o)) -> types_out k (Writes.get r rid) d.
Proof.
  intros Hd Hk. destruct (Writes.get r rid d) as [x d'] eqn:Hg. destruct (get_typed _ _ _ _ _ Hd Hg) as (-> & o & -> & Ho).
  unfold types_out. rewrite Hg. split; [done|]. split; [|done]. intros a [= <-]. by apply Hk.
Qed.

Lemma touch_out r m (k : unit -> place) d :
  cards_typed d -> (forall t e, m t = Err e -> e = OSError) -> thread_typed (k tt) -> types_out k (touch r m) d.
Proof.
  intros Hd Hm Hk. apply calm_out; [done|apply touch_records|by intros []|].
  intros e [->|He]%touch_err; [|apply Hm in He as ->]; apply os_error.
Qed.

Lemma audit_out r row (k : bool -> place) d : cards_typed d -> (forall b, thread_typed (k b)) -> types_out k (audit r row) d.
Proof.
  intros Hd Hk. apply calm_out; [done|apply audit_records|by intros a _|].
  intros e He. destruct (audit_ok r row d) as [b Hb]. congruence.
Qed.

Lemma commit_guard_err r rec d e :
  typed rec -> sane_view (view r) -> (commit_guard persona_dir r rec d).1 = Err e -> not_a_type_error e.
Proof.
  intros Ht Hv. destruct (typed_field rec (u "op") Ht) as [op Ho]; [isin|].
  destruct (typed_field rec (u "content") Ht) as [content Hc]; [isin|].
  destruct (typed_field rec (u "resolved_path") Ht) as [raw Hr]; [isin|].
  unfold commit_guard. rewrite Ho, Hc, Hr, !bind_run. cbn [of_res]. rewrite bind_run. cbn [of_res]. rewrite bind_run. cbn [of_res].
  rewrite bind_run. cbn [Prelude.get]. rewrite bind_run. cbn [of_res].
  destruct (check_write_target _ _ _ _ _) as [[p|g]|e'] eqn:Hg; [|done|].
  - rewrite bind_run. unfold of_res. destruct (check_size _ _ _ _) as [z|e'] eqn:Hz; [by destruct z|].
    cbn. intros [= <-]. by eapply check_size_err.
  - cbn. intros [= <-]. by eapply check_target_err.
Qed.

Lemma commit_step_types p r d p' d' :
  cards_typed d -> thread_typed p -> sane_view (view r) -> commit_step persona_dir p r d = Some (p', d') ->
  cards_typed d' /\ thread_typed p'.
Proof.
  intros Hd Hp Hv. destruct p; cbn [commit_step]; intros Hs; try done.
  - eapply sect_types; [|exact Hs]. apply get_out; [done|]. intros [rec|] Hr; [|done]. cbn. destruct (has_status _ rec); [|done].
    by apply Hr.
  - injection Hs as <- <-. by destruct (is_expired _ _).
  - eapply sect_types; [|exact Hs]. by marks_typed.
  - eapply sect_types; [|exact Hs]. apply calm_out; [done|apply commit_guard_records|by intros []|].
    intros e. by apply commit_guard_err.
  - eapply sect_types; [|exact Hs]. by marks_typed.
  - eapply sect_types; [|exact Hs]. by apply audit_out.
  - eapply sect_types; [|exact Hs]. by marks_typed.
  - eapply sect_types; [|exact Hs]. by apply audit_out.
  - refine (oserror_or_types _ _ _ _ _ _ _ _ Hs); [|done]. apply touch_out; [done|by intros t e ?%make_dirs_err|done].
  - refine (oserror_or_types _ _ _ _ _ _ _ _ Hs); [|done]. apply calm_out; [done|destruct (io_fault r); pres_auto|done|].
    intros e. destruct (io_fault r); [|done]. intros [= <-]. apply os_error.
  - refine (oserror_or_types _ _ _ _ _ _ _ _ Hs); [|done]. apply touch_out; [done|by intros t e ?%open_file_err|done].
  - destruct rest as [|b rest]; [by injection Hs as <- <-|].
    refine (oserror_or_types _ _ _ _ _ _ _ _ Hs); [|done]. by apply touch_out.
  - eapply sect_types; [|exact Hs]. by marks_typed.
  - eapply sect_types; [|exact Hs]. by apply audit_out.
  - eapply sect_types; [|exact Hs]. by apply get_out.
  - destruct tries; [by injection Hs as <- <-|]. refine (oserror_or_types _ _ _ _ _ _ _ _ Hs); [|done]. by marks_typed.
  - destruct (typed_field rec (u "content_sha") Hp) as [sha Hsha]; [isin|].
    eapply sect_types; [|exact Hs]. apply calm_out; [done|apply report_records|by intros a _|].
    intros e. rewrite Hsha, bind_run. cbn [of_res]. rewrite bind_run. unfold commit_audit, audit, wire_memory.
    by destruct (audit_fault r), marked0, (memory_fault r).
Qed.

Lemma decline_step_types p r d p' d' :
  cards_typed d -> thread_typed p -> decline_step p r d = Some (p', d') -> cards_typed d' /\ thread_typed p'.
Proof.
  intros Hd Hp. destruct p; cbn [decline_step]; intros Hs; try done.
  - eapply sect_types; [|exact Hs]. apply get_out; [done|]. intros [rec|] Hr; [|done]. cbn. destruct (has_status _ rec); [|done].
    by apply Hr.
  - eapply sect_types; [|exact Hs]. by marks_typed.
  - destruct (typed_field rec (u "op") Hp) as [op Ho]; [isin|]. destruct (typed_field rec (u "resolved_path") Hp) as [raw Hr]; [isin|].
    eapply sect_types; [|exact Hs]. rewrite Ho, Hr. apply calm_out; [done| |by intros a _|].
    + pose proof audit_records. pose proof wire_records. pres_auto; eauto.
    + intros e. rewrite !bind_run. cbn [of_res]. rewrite !bind_run. cbn [of_res]. rewrite bind_run.
      unfold audit, wire_memory. by destruct (audit_fault r), (memory_fault r).
Qed.

Lemma all_run d : all_ d = (Ok (cards d), d).
Proof. reflexivity. Qed.

Lemma sweep_step_types p r d p' d' :
  cards_typed d -> thread_typed p -> sweep_step p r d = Some (p', d') -> cards_typed d' /\ thread_typed p'.
Proof.
  intros Hd Hp. destruct p; cbn [sweep_step]; intros Hs; try done.
  - unfold sect in Hs. rewrite bind_run, all_run in Hs. injection Hs as <- <-. split; [done|]. by apply filter_typed, cards_all_typed.
  - destruct ids as [|rec ids]; [by injection Hs as <- <-|]. cbn in Hp. apply Forall_cons in Hp as [Hrec Hids].
    destruct (typed_field rec (u "id") Hrec) as [i Hi]; [isin|]. rewrite Hi in Hs.
    eapply (sect_types (mark r (py_str (JStr i)) (u "expired") (Some (u "pending")) [])); [|exact Hs]. by marks_typed.
Qed.

Lemma judge_status_in r since rec t j : judge utf8_damaged r since rec t = Ok (Some j) -> j_status j ∈ STATUSES.
Proof.
  unfold judge. destruct (jindex (u "id") rec); cbn [mbind res_bind]; [|done].
  destruct (jindex (u "op") rec); cbn [mbind res_bind]; [|done].
  destruct (jindex (u "resolved_path") rec); cbn [mbind res_bind]; [|done].
  destruct (match claim_age _ _ with Some _ => _ | None => _ end); [done|].
  destruct (inspect_target _ _ _ _) as [[]|]; cbn [mbind res_bind mret res_ret]; [..|done].
  3: destruct (match claim_age _ _ with Some _ => _ | None => _ end); [done|].
  all: intros Hj; injection Hj as <-; isin.
Qed.

Lemma judge_exception r since rec t e : judge utf8_damaged r since rec t = Err e -> is_Exception e = true.
Proof.
  assert (forall k e, jindex k rec = Err e -> is_Exception e = true) as Hj.
  { intros k e'. unfold jindex. destruct (jget k rec); [done|]. by intros [= <-]. }
  unfold judge. destruct (jindex (u "id") rec) eqn:H1; cbn [mbind res_bind]; [|intros [= <-]; by eapply Hj].
  destruct (jindex (u "op") rec) as [op|] eqn:H2; cbn [mbind res_bind]; [|intros [= <-]; by eapply Hj].
  destruct (jindex (u "resolved_path") rec) as [path|] eqn:H3; cbn [mbind res_bind]; [|intros [= <-]; by eapply Hj].
  destruct (match claim_age _ _ with Some _ => _ | None => _ end); [done|].
  destruct (inspect_target utf8_damaged r t rec) as [v|e'] eqn:Hv; cbn [mbind res_bind mret res_ret].
  { destruct v; [| |destruct (match claim_age _ _ with Some _ => _ | None => _ end)]; done. }
  intros [= <-]. unfold inspect_target in Hv. rewrite H3, H2 in Hv. cbn [mbind res_bind] in Hv.
  destruct path; try (by injection Hv as <-). destruct (io_fault r); [done|]. destruct (t !! s) as [[data| |]|]; try done.
  destruct (_ <? _)%Z; [done|]. destruct (jindex (u "content") rec) as [c|] eqn:H4; cbn [mbind res_bind] in Hv;
    [|injection Hv as <-; by eapply Hj].
  destruct c; try (by injection Hv as <-). destruct (jis_str _ op); [|done]. unfold encode in Hv.
  destruct (utf8_encode _); cbn in Hv; [done|by injection Hv as <-].
Qed.

Lemma reconcile_step_types p r d p' d' :
  cards_typed d -> thread_typed p -> reconcile_step utf8_damaged p r d = Some (p', d') -> cards_typed d' /\ thread_typed p'.
Proof.
  intros Hd Hp. destruct p; cbn [reconcile_step]; intros Hs; try done.
  - unfold sect, list_by_status in Hs. rewrite bind_run, all_run in Hs. injection Hs as <- <-. split; [done|].
    by apply filter_typed, cards_all_typed.
  - destruct recs as [|rec recs]; [by injection Hs as <- <-|]. cbn in Hp. apply Forall_cons in Hp as [Hrec Hrecs].
    unfold sect_or in Hs. rewrite bind_run in Hs. cbn [Prelude.get] in Hs. rewrite bind_run in Hs. unfold of_res in Hs.
    destruct (judge utf8_damaged r since rec (files d)) as [[j|]|e] eqn:Hj.
    + apply judge_status_in in Hj. by destruct (memory_fault r); injection Hs as <- <-.
    + by injection Hs as <- <-.
    + rewrite (judge_exception _ _ _ _ _ Hj) in Hs. by injection Hs as <- <-.
  - cbn in Hp. destruct Hp as [Hrecs Hj].
    refine (sect_or_types _ _ _ _ _ _ _ _ Hs); [|done]. by apply mark_out; [done|done|keys|intros []].
  - refine (sect_or_types _ _ _ _ _ _ _ _ Hs); [|done]. apply calm_out; [done| |by intros a _|].
    + pose proof audit_records. pose proof wire_records. pres_auto; eauto.
    + intros e. rewrite bind_run. unfold audit, wire_memory. by destruct (audit_fault r), (memory_fault r).
Qed.

Lemma sha_hex_err content e : sha_hex content = Err e -> not_a_type_error e.
Proof. unfold sha_hex, encode. destruct (utf8_encode content); cbn; [done|]. intros [= <-]. apply unicode_error. Qed.

Lemma present_out r d p content op mk :
  cards_typed d ->
  types_out (fun q => q) (d ← Prelude.get;
    match read_text r (files d) p with
    | Some existing =>
        if block_present existing content then
          sha ← of_res (sha_hex content);
          propose_audit r (u "write_skipped_present") (JStr []) op p (JStr sha) None;;
          mret (Done AlreadyPresent)
        else mret (PrAuto p content op mk)
    | None => mret (PrAuto p content op mk)
    end) d.
Proof.
  intros Hd. apply calm_out; [done| | |].
  - unfold propose_audit. pose proof audit_records. pres_auto; eauto.
  - intros q. rewrite bind_run. cbn [Prelude.get]. destruct (read_text _ _ _); [|by intros [= <-]].
    destruct (block_present _ _); [|by intros [= <-]]. rewrite bind_run. unfold of_res. destruct (sha_hex content); [|done].
    rewrite bind_run. unfold propose_audit, audit. by destruct (audit_fault r); intros [= <-].
  - intros e. rewrite bind_run. cbn [Prelude.get]. destruct (read_text _ _ _); [|done].
    destruct (block_present _ _); [|done]. rewrite bind_run. unfold of_res.
    destruct (sha_hex content) as [sha|e'] eqn:Hsha.
    + rewrite bind_run. unfold propose_audit, audit. by destruct (audit_fault r).
    + intros [= <-]. by eapply sha_hex_err.
Qed.

Lemma guard_err r path content op mk d e :
  sane_view (view r) -> (propose_guard persona_dir r path content op mk d).1 = Err e -> not_a_type_error e.
Proof.
  intros Hv. unfold propose_guard. rewrite bind_run. cbn [Prelude.get]. rewrite bind_run. unfold of_res at 1.
  destruct (check_write_target _ _ _ _ _) as [[p|g]|e'] eqn:Hg.
  - rewrite bind_run. unfold of_res at 1. destruct (check_size _ _ _ _) as [[z|z]|e'] eqn:Hz.
    + rewrite bind_run. unfold of_res at 1. destruct (is_within_authorized _ _ _) as [b|e'] eqn:Hw; [done|].
      intros [= <-]. by eapply within_err.
    + rewrite bind_run. unfold propose_audit, audit. by destruct (audit_fault r).
    + intros [= <-]. by eapply check_size_err.
  - rewrite bind_run. unfold propose_audit, audit. by destruct (audit_fault r).
  - intros [= <-]. by eapply check_target_err.
Qed.

Lemma guard_ok r path content op mk d q : (propose_guard persona_dir r path content op mk d).1 = Ok q -> thread_typed q.
Proof.
  unfold propose_guard. rewrite bind_run. cbn [Prelude.get]. rewrite bind_run. unfold of_res at 1.
  destruct (check_write_target _ _ _ _ _) as [[p|g]|e'] eqn:Hg; [| |done].
  - rewrite bind_run. unfold of_res at 1. destruct (check_size _ _ _ _) as [[z|z]|e'] eqn:Hz; [| |done].
    + rewrite bind_run. unfold of_res at 1. destruct (is_within_authorized _ _ _) as [[]|e'] eqn:Hw; [| |done]; intros [= <-]; [|done].
      by case_bool_decide.
    + rewrite bind_run. unfold propose_audit, audit. by destruct (audit_fault r); intros [= <-].
  - rewrite bind_run. unfold propose_audit, audit. by destruct (audit_fault r); intros [= <-].
Qed.

Lemma create_out r op path content mk d (k : pystr -> place) :
  cards_typed d -> (forall i, thread_typed (k i)) -> types_out k (create r op path content mk) d.
Proof.
  intros Hd Hk. destruct (create r op path content mk d) as [x d'] eqn:Hc.
  destruct (create_types _ _ _ _ _ _ _ _ Hd Hc) as [Hd' He]. unfold types_out. rewrite Hc. auto.
Qed.

Lemma find_duplicate_run op path sha now_ d :
  cards_typed d -> exists o, find_duplicate op path sha now_ d = (Ok o, d).
Proof.
  intros Hd. destruct (list_pending_spec now_ d) as (l & Hl & Hp). unfold find_duplicate. rewrite bind_run, Hl.
  destruct (List.filter _ l) as [|rec l'] eqn:He; [by eexists|].
  assert (typed rec) as Ht.
  { assert (Forall typed l) as Hf by (rewrite Hp; by apply filter_typed, cards_all_typed).
    assert (Forall typed (rec :: l')) as Hf' by (rewrite <-He; by apply filter_typed). by apply Forall_cons in Hf' as [? _]. }
  destruct (typed_field rec (u "id") Ht) as [i Hi]; [isin|]. rewrite Hi. by eexists.
Qed.

Lemma propose_step_types p r d p' d' :
  cards_typed d -> thread_typed p -> sane_view (view r) -> propose_step persona_dir p r d = Some (p', d') ->
  cards_typed d' /\ thread_typed p'.
Proof.
  intros Hd Hp Hv. destruct p; cbn [propose_step]; intros Hs; try done.
  - eapply sect_types; [|exact Hs]. apply calm_out; [done|apply propose_guard_quiet|intros q; apply guard_ok|intros e; by apply guard_err].
  - eapply sect_types; [|exact Hs]. by apply present_out.
  - eapply sect_types; [|exact Hs]. by apply create_out.
  - unfold sect in Hs. rewrite bind_run in Hs. unfold of_res in Hs. destruct (sha_hex content) as [sha|e] eqn:Hsha.
    + rewrite bind_run in Hs. destruct (find_duplicate_run op p sha since d Hd) as [o Ho]. rewrite Ho in Hs. destruct o as [i|].
      * rewrite bind_run in Hs. unfold propose_audit, audit in Hs. by destruct (audit_fault r); injection Hs as <- <-.
      * by injection Hs as <- <-.
    + injection Hs as <- <-. split; [done|]. by eapply sha_hex_err.
  - unfold sect in Hs. rewrite count_pending_spec in Hs. injection Hs as <- <-. split; [done|]. by destruct (_ <=? _)%Z.
  - eapply sect_types; [|exact Hs]. by apply create_out.
  - eapply sect_types; [|exact Hs]. apply calm_out; [done| |by intros a _|].
    + unfold propose_audit. pose proof audit_records. pres_auto; eauto.
    + intros e. rewrite bind_run. unfold of_res. destruct (sha_hex content) as [sha|e'] eqn:Hsha.
      * unfold propose_audit, audit. by destruct (audit_fault r).
      * intros [= <-]. by eapply sha_hex_err.
Qed.

Definition sane_move (m : wmove) : Prop := match m with Turn _ r => sane_view (view r) | _ => True end.

Lemma wrun_types ms sys sys' :
  Forall sane_move ms -> cards_typed (disk_ sys) -> Forall thread_typed (procs sys) -> wrun ms sys = Some sys' ->
  cards_typed (disk_ sys') /\ Forall thread_typed (procs sys').
Proof.
  revert sys. induction ms as [|m ms IH]; intros sys Hm Hd Hp Hr; [by injection Hr as <-|].
  apply Forall_cons in Hm as [Hm Hms]. cbn [Writes.wrun] in Hr.
  destruct (wstep m sys) as [sys1|] eqn:Hs; [|done]. cbn [mbind option_bind] in Hr.
  assert (cards_typed (disk_ sys1) /\ Forall thread_typed (procs sys1)) as [Hd1 Hp1]; [|by apply (IH sys1)].
  destruct m as [p|t r|t]; cbn [Writes.wstep] in Hs.
  - destruct (entry p) eqn:He; [|done]. injection Hs as <-. split; [done|]. apply Forall_app. split; [done|].
    repeat constructor. by destruct p.
  - destruct (procs sys !! t) as [p|] eqn:Ht; [|done]. cbn [mbind option_bind] in Hs.
    destruct (step p r (disk_ sys)) as [[p' d']|] eqn:Hstep; [|done]. injection Hs as <-.
    assert (thread_typed p) as Htp by by eapply Forall_lookup_1.
    assert (cards_typed d' /\ thread_typed p') as [Hd' Hp']; [|by split; [|apply Forall_insert]].
    destruct p; cbn [Writes.step] in Hstep;
      first [ exact (commit_step_types _ _ _ _ _ Hd Htp Hm Hstep) | exact (decline_step_types _ _ _ _ _ Hd Htp Hstep)
            | exact (sweep_step_types _ _ _ _ _ Hd Htp Hstep) | exact (reconcile_step_types _ _ _ _ _ Hd Htp Hstep)
            | exact (propose_step_types _ _ _ _ _ Hd Htp Hm Hstep) ].
  - injection Hs as <-. by split.
Qed.

(** ** Properties *)

(** C8: However the threads of approvals, refusals, sweeps, repairs and proposals
    interleave, whichever of them stop for ever at any step, whatever accesses fail
    and whatever others do to the files: the target of a card is opened for writing
    at most once, and not at all when the card is no longer pending, as long as new
    cards get new ids. *)
Theorem card_written_at_most_once (rid : pystr) (ms : list wmove) (d : disk) :
  let sys := {| disk_ := d; procs := [] |} in
  fresh_run ms sys ->
  (openings rid ms sys <= claimable rid d)%nat /\ (claimable rid d <= 1)%nat.
Proof.
  intros sys Hf. split.
  - pose proof (openings_credit rid ms sys ltac:(done) Hf) as Ho. unfold credit in Ho. simpl in Ho. lia.
  - unfold claimable. repeat case_match; lia.
Qed.


(** A commit that completed its write but died before recording it is repaired:
    once its claim is old enough, a pass over the stranded cards recognises the
    block at the end of the file (or the created file), marks the card committed,
    keeps the memory and leaves the file alone. *)
Theorem interrupted_commit_recovered (v : fsview) (d d1 : disk) (rid : pystr) (kvs : list (pystr * json)) (p : pystr)
    (b : pybytes) (t : tree) (s0 stamp_ : pystr) (r1 r2 r3 : readings) (rs : list readings) (since a n : Z)
    (recs : list json) :
  let claimed := marked (u "committing") [(u "claimed_at", JStr stamp_)] kvs in
  approved v d rid kvs p b t -> jget (u "id") (JObj kvs) = Some (JStr rid) ->
  jget (u "resolved_path") (JObj kvs) = Some (JStr p) ->
  utf8_encode s0 = Some (old_bytes (files d) p) ->
  records d1 !! rid = Some claimed ->
  files d1 !! p = Some (NFile (old_bytes (files d) p ++ line_gap (old_bytes (files d) p) ++ b)) ->
  (Z.of_nat (length (old_bytes (files d1) p)) <= MAX_RESULT_FILE_BYTES)%Z ->
  claim_age claimed since = Some a -> (COMMIT_STALE < a)%Z -> calm r1 -> calm r2 -> calm r3 ->
  exists rec' d', solo (r1 :: r2 :: r3 :: rs) (RcNext since (claimed :: recs) n) d1
                  = solo rs (RcNext since recs (n + 1)) d' /\
    files d' = files d1 /\ records d' = <[rid := rec']> (records d1) /\ has_status (u "committed") rec' = true /\
    wired d' = (JStr p, u "committed") :: wired d1.
Proof.
  intros claimed Ha Hid Hpath H0 Hk Hf Hm Hage Hst C1 C2 C3.
  destruct (ap_fields _ _ _ _ _ _ _ Ha) as (op & text & raw & sha & Hop & Hc & Hp & _ & He & Hg & _).
  assert (exists kvs1, claimed = JObj kvs1) as [kvs1 Hk1] by by eexists.
  assert (forall k w, k <> u "status" -> k <> u "claimed_at" -> jget k (JObj kvs) = Some w -> jget k claimed = Some w) as Hget.
  { intros k w N1 N2 Hw. unfold claimed. rewrite marked_get; [by rewrite bool_decide_eq_false_2|].
    simpl. by intros ->%list_elem_of_singleton. }
  assert (has_status (u "committing") claimed = true) as Hcm by (unfold claimed; by rewrite marked_status by notkey).
  assert (inspect_target utf8_damaged r1 (files d1) claimed = Ok Landed) as Hi.
  { apply check_write_target_ok in Hg as [_ Ht]. destruct (tk_op _ _ _ _ _ Ht) as [[-> Hn]|[-> _]].
    - unfold old_bytes in Hf. rewrite Hn in Hf. eapply (landed_create _ _ _ p text b []);
        [by apply Hget|by apply Hget|by apply Hget|done|apply (cl_io _ C1)|by rewrite Hf, app_nil_r|done].
    - eapply (landed_append _ _ _ p s0 _ text b); [by apply Hget|by apply Hget|by apply Hget|done|done|apply (cl_io _ C1)|done|done]. }
  assert (jget (u "id") claimed = Some (JStr rid)) as Hid' by by apply Hget.
  assert (jget (u "resolved_path") claimed = Some (JStr p)) as Hp' by by apply Hget.
  assert (jget (u "op") claimed = Some op) as Ho' by by apply Hget.
  rewrite Hk1 in *.
  destruct (reconcile_one r1 r2 r3 rs since kvs1 recs n rid op p a Landed d1) as (d' & Hs & Hd & Hr & Hw); try done.
  eexists _, d'. split; [exact Hs|]. split_and!; [done|exact Hr| |done]. by rewrite marked_status by notkey.
Qed.

(** C37: In every run of approvals, refusals, sweeps, repairs and proposals the cards
    keep their shape: objects with text fields and one of the seven statuses; and
    no thread ends in a missing key, a value of the wrong type or a missing
    attribute, as long as the operating system's path calls raise none. *)
Theorem cards_stay_typed (ms : list wmove) (d : disk) (sys : wsystem) :
  Forall sane_move ms -> cards_typed d -> wrun ms {| disk_ := d; procs := [] |} = Some sys ->
  cards_typed (disk_ sys) /\
  forall t e, procs sys !! t = Some (Done (Raised e)) -> not_a_type_error e.
Proof.
  intros Hm Hd Hr. destruct (wrun_types ms {| disk_ := d; procs := [] |} sys Hm Hd (Forall_nil_2 _) Hr) as [Hd' Hp]. split; [done|].
  intros t e Ht. by apply (Forall_lookup_1 _ _ _ _ Hp Ht).
Qed.

(** A proposal outside the notes folder that gets a card had fewer than ten
    fresh cards before it, none of them for the same write, and adds exactly one
    pending card; it touches no file. *)
Theorem proposal_is_new (p content op : pystr) (mk : json) (since : Z) (rs : list readings) (d d' : disk) (rid : pystr) :
  solo rs (PrDup p content op mk since) d = (Done (Proposed rid), d') ->
  exists sha rec, sha_hex content = Ok sha /\
    (Z.of_nat (length (List.filter (fresh since) (cards d))) < MAX_PENDING)%Z /\
    (forall c, c ∈ cards d -> fresh since c = true -> proposes op p sha c = false) /\
    records d' = <[rid := rec]> (records d) /\ has_status (u "pending") rec = true /\ proposes op p sha rec = true /\
    files d' = files d.
Proof.
  destruct rs as [|r0 rs]; [done|]. cbn [solo Writes.step propose_step]. unfold sect at 1. rewrite bind_run. unfold of_res at 1.
  destruct (sha_hex content) as [sha|] eqn:Hsha; [|by rewrite commit_solo_done]. rewrite bind_run.
  destruct (find_duplicate op p sha since d) as [[[i|]|e] d0] eqn:Hdup;
    [rewrite bind_run; unfold propose_audit, audit; destruct (audit_fault r0); munfold; by rewrite commit_solo_done| |by rewrite commit_solo_done].
  apply find_duplicate_none in Hdup as [-> Hnew]. cbn [mret M_ret].
  destruct rs as [|r1 rs]; [done|]. cbn [solo Writes.step propose_step]. unfold sect at 1. rewrite count_pending_spec.
  destruct (MAX_PENDING <=? _)%Z eqn:Hcap; [by rewrite commit_solo_done|].
  destruct rs as [|r2 rs]; [done|]. cbn [solo Writes.step propose_step]. set (rp := Build_readings _ _ _ _ _ _ _ _ _).
  unfold sect at 1. destruct (create rp op p content mk d) as [[i|e] d1] eqn:Hc; [|by rewrite commit_solo_done].
  apply create_ok in Hc as (_ & sha' & Hs' & ->). rewrite Hsha in Hs'. injection Hs' as <-.
  destruct rs as [|r3 rs]; [done|]. cbn [solo Writes.step propose_step]. unfold sect at 1. rewrite bind_run. unfold of_res at 1.
  rewrite Hsha. unfold propose_audit, audit.
  generalize (JStr (isoformat (now rp))). intros st. cbv beta iota.
  destruct (audit_fault r3); cbv beta iota delta [mbind M_bind mret M_ret modify]; rewrite commit_solo_done;
    intros He; injection He as <- <-; exists sha; eexists;
    (split; [done|]); (split; [lia|]); (split; [done|]); (split; [reflexivity|]); 
    (split; [vm_compute; reflexivity|]); (split; [|done]);
    change (jis_str op (JStr op) && jis_str p (JStr p) && jis_str sha (JStr sha) = true);
    unfold jis_str; by rewrite !bool_decide_eq_true_2 by done.
Qed.
End facts.

(** ** A demonstration disk: one proposed note *)
#[local] Existing Instance ascii_pylib.
Definition demo_now : Z := dt_of 2026 3 1 12 0 0 0.
Definition demo_kvs : list (pystr * json) :=
  [(u "id", JStr (u "c1")); (u "op", JStr (u "create")); (u "resolved_path", JStr (u "/home/ann/new.md"));
   (u "content", JStr (u "hi")); (u "content_sha", JStr (u "8f43")); (u "proposed_at", JStr (isoformat demo_now));
   (u "status", JStr (u "pending")); (u "making_id", JNull)].
Definition demo_disk : disk :=
  {| records := {[u "c1" := JObj demo_kvs]}; files := {[u "/home" := NDir; u "/home/ann" := NDir]};
     audit_rows := []; wired := [] |}.
Definition demo_reads (t : Z) : readings :=
  {| now := t; view := demo_view; read_fault := false; save_fault := false; io_fault := false; audit_fault := false;
     memory_fault := false; accepts := 1; notes_folder := None |}.
Definition demo_run : list wmove -> wsystem -> option wsystem := wrun (fun _ => []) (u "/home/ann/persona").
Definition demo_turns (t k : nat) (at_ : Z) : list wmove := replicate k (Turn t (demo_reads at_)).
Definition demo_start : wsystem := {| disk_ := demo_disk; procs := [] |}.
Definition demo_status (sys : option wsystem) : option json :=
  s ← sys; r ← records (disk_ s) !! u "c1"; jget (u "status") r.
Definition demo_file (sys : option wsystem) : option node := s ← sys; files (disk_ s) !! u "/home/ann/new.md".
Definition demo_wired (sys : option wsystem) : option (list (json * pystr)) := wired ∘ disk_ <$> sys.

(** Two approvals of one card: the second is past its status check when the first
    writes. *)
Definition two_approvals : list wmove :=
  [Start (CmStart (u "c1")); Start (CmStart (u "c1"))] ++ demo_turns 0 2 demo_now ++ demo_turns 1 2 demo_now
  ++ demo_turns 0 11 demo_now ++ demo_turns 1 3 demo_now.

(** The refusal is recorded without looking at the card's status: the approval
    that lost the race to create the file finds it there, and marks the committed
    card refused, although its content is on disk and its memory kept. *)
Theorem late_refusal_hides_commit :
  demo_status (demo_run two_approvals demo_start) = Some (JStr (u "refused")) /\
  demo_file (demo_run two_approvals demo_start) = Some (NFile [104; 105]%N) /\
  demo_wired (demo_run two_approvals demo_start) = Some [(JStr (u "/home/ann/new.md"), u "committed")].
Proof. split_and!; vm_compute; reflexivity. Qed.

(** A commit that pauses for eleven minutes between its write and its final mark,
    with a repair pass in between. *)
Definition slow_commit : list wmove :=
  [Start (CmStart (u "c1"))] ++ demo_turns 0 11 demo_now
  ++ [Start RcStart] ++ demo_turns 1 4 (demo_now + 11 * minute) ++ demo_turns 0 2 (demo_now + 12 * minute).

(** The final mark does not look at the status either: after a repair that
    already recognised the write, the slow commit keeps the memory a second time. *)
Theorem slow_commit_remembers_twice :
  demo_status (demo_run slow_commit demo_start) = Some (JStr (u "committed")) /\
  demo_wired (demo_run slow_commit demo_start)
  = Some [(JStr (u "/home/ann/new.md"), u "committed"); (JStr (u "/home/ann/new.md"), u "committed")].
Proof. split; vm_compute; reflexivity. Qed.

(** ** Witnesses *)
Lemma card_written_at_most_once_witness :
  (openings (fun _ => []) (u "/home/ann/persona") (u "c1") two_approvals demo_start <= claimable (u "c1") demo_disk)%nat.
Proof.
  apply (card_written_at_most_once (fun _ => []) (u "/home/ann/persona") (u "c1") two_approvals demo_disk).
  vm_compute. tauto.
Defined.

Lemma demo_approved :
  approved (u "/home/ann/persona") demo_view demo_disk (u "c1") demo_kvs (u "/home/ann/new.md") [104; 105]%N (files demo_disk).
Proof.
  split; [reflexivity|vm_compute; reflexivity| |vm_compute; reflexivity].
  exists (JStr (u "create")), (u "hi"), (u "/home/ann/new.md"), (JStr (u "8f43")).
  split_and!; vm_compute; reflexivity.
Qed.

Lemma demo_steady n : Forall (steady demo_view (JObj demo_kvs)) (replicate n (demo_reads demo_now)).
Proof. apply Forall_replicate. split; [by split|]. split; [done|]. vm_compute. reflexivity. Qed.


Definition demo_crashed : disk :=
  set_files (<[u "/home/ann/new.md" := NFile [104; 105]%N]> (files demo_disk))
    (set_records {[u "c1" := marked (u "committing") [(u "claimed_at", JStr (isoformat demo_now))] demo_kvs]} demo_disk).

Lemma interrupted_commit_recovered_witness :
  let r := demo_reads (demo_now + 11 * minute) in
  exists d', (solo (fun _ => []) (u "/home/ann/persona") [r; r; r]
    (RcNext (demo_now + 11 * minute) [marked (u "committing") [(u "claimed_at", JStr (isoformat demo_now))] demo_kvs] 0)
    demo_crashed).2 = d' /\
  wired d' = [(JStr (u "/home/ann/new.md"), u "committed")].
Proof.
  intros r.
  destruct (interrupted_commit_recovered (fun _ => []) (u "/home/ann/persona") demo_view demo_disk demo_crashed (u "c1") demo_kvs
    (u "/home/ann/new.md") [104; 105]%N (files demo_disk) [] (isoformat demo_now) r r r [] (demo_now + 11 * minute)
    (11 * minute) 0 []) as (rec' & d' & Hs & _ & _ & _ & Hw).
  - exact demo_approved.
  - reflexivity.
  - reflexivity.
  - vm_compute. reflexivity.
  - reflexivity.
  - vm_compute. reflexivity.
  - vm_compute. discriminate.
  - vm_compute. reflexivity.
  - vm_compute. reflexivity.
  - by split.
  - by split.
  - by split.
  - exists d'. rewrite Hs, Hw. split; [reflexivity|]. reflexivity.
Defined.

Lemma proposal_is_new_witness :
  let r := demo_reads demo_now in
  exists rid, (solo (fun _ => []) (u "/home/ann/persona") [r; r; r; r]
    (PrDup (u "/home/ann/other.md") (u "yes") (u "create") JNull demo_now) demo_disk).1 = Done (Proposed rid) /\
  exists sha, sha_hex (u "yes") = Ok sha.
Proof.
  intros r. set (res := solo (fun _ => []) (u "/home/ann/persona") [r; r; r; r]
    (PrDup (u "/home/ann/other.md") (u "yes") (u "create") JNull demo_now) demo_disk).
  assert (exists rid, res.1 = Done (Proposed rid)) as [rid Hr] by (eexists; vm_compute; reflexivity).
  exists rid. split; [exact Hr|].
  destruct (proposal_is_new (fun _ => []) (u "/home/ann/persona") (u "/home/ann/other.md") (u "yes") (u "create") JNull demo_now
    [r; r; r; r] demo_disk res.2 rid) as (sha & rec & Hs & _).
  - rewrite <-Hr. fold res. by destruct res.
  - by exists sha.
Defined.

Lemma demo_typed : cards_typed demo_disk.
Proof.
  apply map_Forall_singleton. split; [by eexists|]. split.
  - intros k Hk. unfold CARD_KEYS in Hk. cbn [map] in Hk.
    repeat (apply elem_of_cons in Hk as [->|Hk]; [eexists; vm_compute; reflexivity|]). by apply not_elem_of_nil in Hk.
  - exists (u "pending"). split; [vm_compute; reflexivity|]. apply (bool_decide_unpack _). vm_compute. exact I.
Qed.

Lemma cards_stay_typed_witness :
  exists sys, demo_run two_approvals demo_start = Some sys /\ cards_typed (disk_ sys).
Proof.
  destruct (demo_run two_approvals demo_start) as [sys|] eqn:Hr; [|vm_compute in Hr; discriminate].
  exists sys. split; [reflexivity|].
  apply (cards_stay_typed (fun _ => []) (u "/home/ann/persona") two_approvals demo_disk sys).
  - repeat (apply Forall_cons; split; [|]); try exact I; try (split; intros p e; discriminate). apply Forall_nil. exact I.
  - exact demo_typed.
  - exact Hr.
Defined.
