(* ===== verification/LinkStore.v ===== *)
(** [brain/kindled_link/store.py]: the SQLite tables of the peer link as finite
    maps, and every operation of [KindledLinkStore] as a transaction on them
    (each method runs its statements and commits on one connection).  Rows are
    keyed as the PRIMARY KEYs say; where SQL leaves an order open the model takes
    the map's.  The theorems: the consent machine, the monotone counters and
    their caps, the disclosure budget's range, the first write of a session key
    winning, and identity rotation moving every row of a peer. *)
From S2P Require Import Prelude PyFloat PyTime Json Protocol.

(** ** Constants ([brain/dev_constants.py]) *)
Definition MIN_OUTBOUND_GAP_SECONDS : Z := 60.
Definition SESSION_MSG_CAP : Z := 24.
Definition SESSION_COOLDOWN_HOURS : Z := 6.
Definition DAILY_OUTBOUND_CAP : Z := 20.
Definition DAILY_PROVIDER_CAP : Z := 60.
Definition BUDGET_MAX : float := f1.
Definition BUDGET_REFILL_PER_DAY : float := fdec 5 (-1).
Definition BUDGET_TIGHTEN_THRESHOLD : float := fdec 25 (-2).
Definition MIN_SEND_DEBIT : float := fdec 2 (-2).
Definition BUDGET_DEPLETED_THRESHOLD : float := MIN_SEND_DEBIT.
Definition PEER_EMOTION_WINDOW_CAP : float := fdec 6 (-1).
Definition PEER_EMOTION_WINDOW_HOURS : float := fofZ 24.
Definition INBOUND_FLOOD_CAP : nat := 20.

(** ** Rows *)
Record peer_row := {
  identity_pub : pystr; p_fingerprint : pystr; consent_state : pystr;
  relay_url : option pystr; relay_mailbox : option pystr;
  p_created_at : pystr; p_updated_at : pystr; previous_identity_pub : option pystr }.

Record session_row := {
  s_state : pystr; msg_count : Z; started_at : pystr; ended_at : option pystr;
  last_outbound_at : option pystr; cooldown_until : option pystr }.

Record counter_row := { reset_date : pystr; outbound_count : Z; provider_call_count : Z }.

Record draft_row := {
  d_id : Z; d_peer : pystr; d_session : pystr; payload_json : pystr;
  d_status : pystr; d_created_at : pystr }.

Record transcript_row := {
  t_peer : pystr; t_session : pystr; t_seq : Z; direction : pystr;
  t_text : pystr; provenance : pystr; t_ts : pystr }.

Record relationship_row := {
  r_stage : pystr; r_trust_score : float; affinity_tags_json : pystr;
  boundaries_json : pystr; repair_history_json : pystr; evidence_json : pystr;
  r_last_reflected_at : option pystr }.

Record handshake_row := {
  my_eph_priv_raw : pybytes; h_bootstrap_nonce : pybytes; h_my_role : Z; h_created_at : pystr }.

Record key_row := {
  session_key : pybytes; my_role : Z; peer_role : Z; established_at : pystr }.

Record notice_row := { envelope_json : pystr; queued_at : pystr }.

Abbreviation sess_id := (pystr * pystr)%type.

Record db := {
  peers : gmap pystr peer_row;
  consumed_invites : gmap pystr pystr;
  seq_high_water : gmap sess_id Z;
  sessions : gmap sess_id session_row;
  peer_counters : gmap pystr counter_row;
  outbound_drafts : list draft_row;      (* in id order *)
  next_draft_id : Z;                     (* sqlite_sequence of AUTOINCREMENT *)
  transcript : list transcript_row;
  disclosure_budget : gmap pystr (float * pystr);
  relationship_state : gmap pystr relationship_row;
  peer_emotion_window : gmap pystr (float * pystr);
  local_identity : gmap pystr pystr;
  outbound_seq : gmap sess_id Z;
  pending_handshakes : gmap sess_id handshake_row;
  session_keys : gmap sess_id key_row;
  pending_rotation_notices : gmap pystr notice_row }.

Definition empty_db : db := {|
  peers := ∅; consumed_invites := ∅; seq_high_water := ∅; sessions := ∅;
  peer_counters := ∅; outbound_drafts := []; next_draft_id := 1; transcript := [];
  disclosure_budget := ∅; relationship_state := ∅; peer_emotion_window := ∅;
  local_identity := ∅; outbound_seq := ∅; pending_handshakes := ∅; session_keys := ∅;
  pending_rotation_notices := ∅ |}.

(** ** Column updates *)
Definition upd_peers x (d : db) : db :=
  {|
     peers := x; consumed_invites := consumed_invites d; seq_high_water := seq_high_water d;
     sessions := sessions d; peer_counters := peer_counters d; outbound_drafts :=
     outbound_drafts d; next_draft_id := next_draft_id d; transcript := transcript d;
     disclosure_budget := disclosure_budget d; relationship_state := relationship_state d;
     peer_emotion_window := peer_emotion_window d; local_identity := local_identity d;
     outbound_seq := outbound_seq d; pending_handshakes := pending_handshakes d;
     session_keys := session_keys d; pending_rotation_notices := pending_rotation_notices d |}.
Definition upd_consumed_invites x (d : db) : db :=
  {|
     peers := peers d; consumed_invites := x; seq_high_water := seq_high_water d; sessions
     := sessions d; peer_counters := peer_counters d; outbound_drafts := outbound_drafts d;
     next_draft_id := next_draft_id d; transcript := transcript d; disclosure_budget :=
     disclosure_budget d; relationship_state := relationship_state d; peer_emotion_window :=
     peer_emotion_window d; local_identity := local_identity d; outbound_seq := outbound_seq
     d; pending_handshakes := pending_handshakes d; session_keys := session_keys d;
     pending_rotation_notices := pending_rotation_notices d |}.
Definition upd_seq_high_water x (d : db) : db :=
  {|
     peers := peers d; consumed_invites := consumed_invites d; seq_high_water := x; sessions
     := sessions d; peer_counters := peer_counters d; outbound_drafts := outbound_drafts d;
     next_draft_id := next_draft_id d; transcript := transcript d; disclosure_budget :=
     disclosure_budget d; relationship_state := relationship_state d; peer_emotion_window :=
     peer_emotion_window d; local_identity := local_identity d; outbound_seq := outbound_seq
     d; pending_handshakes := pending_handshakes d; session_keys := session_keys d;
     pending_rotation_notices := pending_rotation_notices d |}.
Definition upd_sessions x (d : db) : db :=
  {|
     peers := peers d; consumed_invites := consumed_invites d; seq_high_water :=
     seq_high_water d; sessions := x; peer_counters := peer_counters d; outbound_drafts :=
     outbound_drafts d; next_draft_id := next_draft_id d; transcript := transcript d;
     disclosure_budget := disclosure_budget d; relationship_state := relationship_state d;
     peer_emotion_window := peer_emotion_window d; local_identity := local_identity d;
     outbound_seq := outbound_seq d; pending_handshakes := pending_handshakes d;
     session_keys := session_keys d; pending_rotation_notices := pending_rotation_notices d |}.
Definition upd_peer_counters x (d : db) : db :=
  {|
     peers := peers d; consumed_invites := consumed_invites d; seq_high_water :=
     seq_high_water d; sessions := sessions d; peer_counters := x; outbound_drafts :=
     outbound_drafts d; next_draft_id := next_draft_id d; transcript := transcript d;
     disclosure_budget := disclosure_budget d; relationship_state := relationship_state d;
     peer_emotion_window := peer_emotion_window d; local_identity := local_identity d;
     outbound_seq := outbound_seq d; pending_handshakes := pending_handshakes d;
     session_keys := session_keys d; pending_rotation_notices := pending_rotation_notices d |}.
Definition upd_outbound_drafts x (d : db) : db :=
  {|
     peers := peers d; consumed_invites := consumed_invites d; seq_high_water :=
     seq_high_water d; sessions := sessions d; peer_counters := peer_counters d;
     outbound_drafts := x; next_draft_id := next_draft_id d; transcript := transcript d;
     disclosure_budget := disclosure_budget d; relationship_state := relationship_state d;
     peer_emotion_window := peer_emotion_window d; local_identity := local_identity d;
     outbound_seq := outbound_seq d; pending_handshakes := pending_handshakes d;
     session_keys := session_keys d; pending_rotation_notices := pending_rotation_notices d |}.
Definition upd_next_draft_id x (d : db) : db :=
  {|
     peers := peers d; consumed_invites := consumed_invites d; seq_high_water :=
     seq_high_water d; sessions := sessions d; peer_counters := peer_counters d;
     outbound_drafts := outbound_drafts d; next_draft_id := x; transcript := transcript d;
     disclosure_budget := disclosure_budget d; relationship_state := relationship_state d;
     peer_emotion_window := peer_emotion_window d; local_identity := local_identity d;
     outbound_seq := outbound_seq d; pending_handshakes := pending_handshakes d;
     session_keys := session_keys d; pending_rotation_notices := pending_rotation_notices d |}.
Definition upd_transcript x (d : db) : db :=
  {|
     peers := peers d; consumed_invites := consumed_invites d; seq_high_water :=
     seq_high_water d; sessions := sessions d; peer_counters := peer_counters d;
     outbound_drafts := outbound_drafts d; next_draft_id := next_draft_id d; transcript :=
     x; disclosure_budget := disclosure_budget d; relationship_state := relationship_state
     d; peer_emotion_window := peer_emotion_window d; local_identity := local_identity d;
     outbound_seq := outbound_seq d; pending_handshakes := pending_handshakes d;
     session_keys := session_keys d; pending_rotation_notices := pending_rotation_notices d |}.
Definition upd_disclosure_budget x (d : db) : db :=
  {|
     peers := peers d; consumed_invites := consumed_invites d; seq_high_water :=
     seq_high_water d; sessions := sessions d; peer_counters := peer_counters d;
     outbound_drafts := outbound_drafts d; next_draft_id := next_draft_id d; transcript :=
     transcript d; disclosure_budget := x; relationship_state := relationship_state d;
     peer_emotion_window := peer_emotion_window d; local_identity := local_identity d;
     outbound_seq := outbound_seq d; pending_handshakes := pending_handshakes d;
     session_keys := session_keys d; pending_rotation_notices := pending_rotation_notices d |}.
Definition upd_relationship_state x (d : db) : db :=
  {|
     peers := peers d; consumed_invites := consumed_invites d; seq_high_water :=
     seq_high_water d; sessions := sessions d; peer_counters := peer_counters d;
     outbound_drafts := outbound_drafts d; next_draft_id := next_draft_id d; transcript :=
     transcript d; disclosure_budget := disclosure_budget d; relationship_state := x;
     peer_emotion_window := peer_emotion_window d; local_identity := local_identity d;
     outbound_seq := outbound_seq d; pending_handshakes := pending_handshakes d;
     session_keys := session_keys d; pending_rotation_notices := pending_rotation_notices d |}.
Definition upd_peer_emotion_window x (d : db) : db :=
  {|
     peers := peers d; consumed_invites := consumed_invites d; seq_high_water :=
     seq_high_water d; sessions := sessions d; peer_counters := peer_counters d;
     outbound_drafts := outbound_drafts d; next_draft_id := next_draft_id d; transcript :=
     transcript d; disclosure_budget := disclosure_budget d; relationship_state :=
     relationship_state d; peer_emotion_window := x; local_identity := local_identity d;
     outbound_seq := outbound_seq d; pending_handshakes := pending_handshakes d;
     session_keys := session_keys d; pending_rotation_notices := pending_rotation_notices d |}.
Definition upd_local_identity x (d : db) : db :=
  {|
     peers := peers d; consumed_invites := consumed_invites d; seq_high_water :=
     seq_high_water d; sessions := sessions d; peer_counters := peer_counters d;
     outbound_drafts := outbound_drafts d; next_draft_id := next_draft_id d; transcript :=
     transcript d; disclosure_budget := disclosure_budget d; relationship_state :=
     relationship_state d; peer_emotion_window := peer_emotion_window d; local_identity :=
     x; outbound_seq := outbound_seq d; pending_handshakes := pending_handshakes d;
     session_keys := session_keys d; pending_rotation_notices := pending_rotation_notices d |}.
Definition upd_outbound_seq x (d : db) : db :=
  {|
     peers := peers d; consumed_invites := consumed_invites d; seq_high_water :=
     seq_high_water d; sessions := sessions d; peer_counters := peer_counters d;
     outbound_drafts := outbound_drafts d; next_draft_id := next_draft_id d; transcript :=
     transcript d; disclosure_budget := disclosure_budget d; relationship_state :=
     relationship_state d; peer_emotion_window := peer_emotion_window d; local_identity :=
     local_identity d; outbound_seq := x; pending_handshakes := pending_handshakes d;
     session_keys := session_keys d; pending_rotation_notices := pending_rotation_notices d |}.
Definition upd_pending_handshakes x (d : db) : db :=
  {|
     peers := peers d; consumed_invites := consumed_invites d; seq_high_water :=
     seq_high_water d; sessions := sessions d; peer_counters := peer_counters d;
     outbound_drafts := outbound_drafts d; next_draft_id := next_draft_id d; transcript :=
     transcript d; disclosure_budget := disclosure_budget d; relationship_state :=
     relationship_state d; peer_emotion_window := peer_emotion_window d; local_identity :=
     local_identity d; outbound_seq := outbound_seq d; pending_handshakes := x; session_keys
     := session_keys d; pending_rotation_notices := pending_rotation_notices d |}.
Definition upd_session_keys x (d : db) : db :=
  {|
     peers := peers d; consumed_invites := consumed_invites d; seq_high_water :=
     seq_high_water d; sessions := sessions d; peer_counters := peer_counters d;
     outbound_drafts := outbound_drafts d; next_draft_id := next_draft_id d; transcript :=
     transcript d; disclosure_budget := disclosure_budget d; relationship_state :=
     relationship_state d; peer_emotion_window := peer_emotion_window d; local_identity :=
     local_identity d; outbound_seq := outbound_seq d; pending_handshakes :=
     pending_handshakes d; session_keys := x; pending_rotation_notices :=
     pending_rotation_notices d |}.
Definition upd_pending_rotation_notices x (d : db) : db :=
  {|
     peers := peers d; consumed_invites := consumed_invites d; seq_high_water :=
     seq_high_water d; sessions := sessions d; peer_counters := peer_counters d;
     outbound_drafts := outbound_drafts d; next_draft_id := next_draft_id d; transcript :=
     transcript d; disclosure_budget := disclosure_budget d; relationship_state :=
     relationship_state d; peer_emotion_window := peer_emotion_window d; local_identity :=
     local_identity d; outbound_seq := outbound_seq d; pending_handshakes :=
     pending_handshakes d; session_keys := session_keys d; pending_rotation_notices := x |}.

(** ** Binding Python values to TEXT columns

    [sqlite3] rejects lists and dicts ([ProgrammingError]), integers beyond 64
    bits ([OverflowError]) and text that is not UTF-8; a number compared with or
    stored in a TEXT column becomes its decimal text.  [None] is NULL. *)
Class Sqlite := { sql_real_text : float -> pystr }.

(** For concrete runs, which store no float as text. *)
Definition toy_sqlite : Sqlite := {| sql_real_text _ := u "0.0" |}.

Definition int64_ok (z : Z) : bool := ((- 2 ^ 63 <=? z) && (z <? 2 ^ 63))%Z.

Definition bind_text `{Sqlite} (v : json) : res (option pystr) :=
  match v with
  | JNull => Ok None
  | JBool b => Ok (Some (if b then u "1" else u "0"))
  | JInt z => if int64_ok z then Ok (Some (dec_Z z)) else Err OverflowError
  | JFloat f => match f with
                | SpecFloat.S754_nan => Ok None
                | _ => Ok (Some (sql_real_text f))
                end
  | JStr s => match utf8_encode s with Some _ => Ok (Some s) | None => Err UnicodeError end
  | JArr _ | JObj _ => Err ProgrammingError
  end.

(** A comparison with NULL is never true. *)
Definition key2 (p s : option pystr) : option sess_id :=
  match p, s with Some p, Some s => Some (p, s) | _, _ => None end.

(** ** Peers and consent *)
Definition CONSENT_STATES : list pystr :=
  [u "pending_local"; u "pending_remote"; u "paired"; u "paused"; u "revoked"; u "blocked"].

Definition mem (x : pystr) (l : list pystr) : bool := existsb (fun y => bool_decide (x = y)) l.

(** [_ALLOWED_TRANSITIONS[current]]: [None] is the [KeyError]. *)
Definition ALLOWED_TRANSITIONS (current : pystr) : option (list pystr) :=
  if bool_decide (current = u "pending_local")
  then Some [u "pending_remote"; u "paired"; u "revoked"; u "blocked"]
  else if bool_decide (current = u "pending_remote") then Some [u "paired"; u "revoked"; u "blocked"]
  else if bool_decide (current = u "paired") then Some [u "paused"; u "revoked"; u "blocked"]
  else if bool_decide (current = u "paused") then Some [u "paired"; u "revoked"; u "blocked"]
  else if bool_decide (current = u "revoked") then Some [u "blocked"]
  else if bool_decide (current = u "blocked") then Some []
  else None.

Definition get_peer (peer_id : option pystr) : M db (option peer_row) :=
  gets (fun d => k ← peer_id; peers d !! k).

Definition upsert_peer (peer_id identity_pub_hex fingerprint_ state : pystr)
    (relay_url_ relay_mailbox_ : option pystr) (now : Z) : M db unit :=
  if negb (mem state CONSENT_STATES)
  then raise (ConsentTransitionError (u "unknown consent state")) else
  let ts := isoformat now in
  modify (fun d =>
    let row := match peers d !! peer_id with
      | None =>
          {| identity_pub := identity_pub_hex; p_fingerprint := fingerprint_;
             consent_state := state;
             relay_url := relay_url_; relay_mailbox := relay_mailbox_;
             p_created_at := ts; p_updated_at := ts; previous_identity_pub := None |}
      | Some r =>
          {| identity_pub := identity_pub_hex; p_fingerprint := fingerprint_;
             consent_state := state;
             relay_url := relay_url_;
             relay_mailbox := match relay_mailbox_ with Some m => Some m | None => relay_mailbox r end;
             p_created_at := p_created_at r; p_updated_at := ts;
             previous_identity_pub := previous_identity_pub r |}
      end in
    upd_peers (<[peer_id := row]> (peers d)) d).

Definition with_consent (state ts : pystr) (r : peer_row) : peer_row :=
  {| identity_pub := identity_pub r; p_fingerprint := p_fingerprint r;
     consent_state := state; relay_url := relay_url r; relay_mailbox := relay_mailbox r;
     p_created_at := p_created_at r; p_updated_at := ts;
     previous_identity_pub := previous_identity_pub r |}.

Definition set_consent (peer_id new_state : pystr) (now : Z) : M db unit :=
  if negb (mem new_state CONSENT_STATES)
  then raise (ConsentTransitionError (u "unknown consent state")) else
  peer ← get_peer (Some peer_id);
  match peer with
  | None => raise (ConsentTransitionError (u "no such peer"))
  | Some peer =>
      let current := consent_state peer in
      allowed ← of_option KeyError (ALLOWED_TRANSITIONS current);
      if negb (mem new_state allowed)
      then raise (ConsentTransitionError (current ++ u " -> " ++ new_state ++ u " not allowed"))
      else modify (fun d => upd_peers (alter (with_consent new_state (isoformat now)) peer_id (peers d)) d)
  end.

(** ** Invites *)
Definition is_invite_consumed (invite_id : option pystr) : M db bool :=
  gets (fun d => match invite_id with
                 | Some i => bool_decide (is_Some (consumed_invites d !! i))
                 | None => false end).

(** A NULL id is stored without a conflict and never found again. *)
Definition mark_invite_consumed (invite_id : option pystr) (now : Z) : M db unit :=
  match invite_id with
  | None => mret tt
  | Some i =>
      d ← get;
      match consumed_invites d !! i with
      | Some _ => raise (ConsentTransitionError (u "invite already consumed"))
      | None => modify (fun d => upd_consumed_invites (<[i := isoformat now]> (consumed_invites d)) d)
      end
  end.

(** ** Sequence high water *)
Definition get_seq_high_water (k : option sess_id) : M db Z :=
  gets (fun d => default 0%Z (k ← k; seq_high_water d !! k)).

(** INSERT ... ON CONFLICT; NULL keys and integers beyond 64 bits raise. *)
Definition set_seq_high_water (k : option sess_id) (value : Z) : M db unit :=
  if negb (int64_ok value) then raise OverflowError else
  match k with
  | None => raise IntegrityError
  | Some k => modify (fun d => upd_seq_high_water (<[k := value]> (seq_high_water d)) d)
  end.

(** ** Sessions *)

(** INSERT OR IGNORE also skips a row that violates NOT NULL. *)
Definition create_session (k : option sess_id) (now : Z) : M db unit :=
  match k with
  | None => mret tt
  | Some k =>
      modify (fun d => match sessions d !! k with
        | Some _ => d
        | None => upd_sessions (<[k :=
            {| s_state := u "open"; msg_count := 0; started_at := isoformat now;
               ended_at := None; last_outbound_at := None; cooldown_until := None |}]>
            (sessions d)) d
        end)
  end.

Definition get_session (peer_id session_id : pystr) : M db (option session_row) :=
  gets (fun d => sessions d !! (peer_id, session_id)).

(** The row of [l] with the greatest key, the first one among equals. *)
Definition max_by {A} (key : A -> pystr) (l : list A) : option A :=
  foldr (fun x acc => match acc with
    | Some y => if str_ltb (key x) (key y) then Some y else Some x
    | None => Some x end) None l.

Definition peer_sessions (peer_id : pystr) (st : pystr) (d : db) : list (sess_id * session_row) :=
  filter (fun kv => kv.1.1 = peer_id /\ s_state kv.2 = st) (map_to_list (sessions d)).

(** The session id and row. *)
Definition get_active_session (peer_id : pystr) : M db (option (pystr * session_row)) :=
  gets (fun d => kv ← max_by (fun kv => started_at kv.2) (peer_sessions peer_id (u "open") d);
                 Some (kv.1.2, kv.2)).

Definition bump_session_outbound (peer_id session_id : pystr) (now : Z) : M db unit :=
  modify (fun d => upd_sessions (alter (fun r =>
    {| s_state := s_state r; msg_count := msg_count r + 1; started_at := started_at r;
       ended_at := ended_at r; last_outbound_at := Some (isoformat now);
       cooldown_until := cooldown_until r |}) (peer_id, session_id) (sessions d)) d).

Definition end_session (peer_id session_id : pystr) (now cooldown_until_ : Z) : M db unit :=
  modify (fun d => upd_sessions (alter (fun r =>
    {| s_state := u "ended"; msg_count := msg_count r; started_at := started_at r;
       ended_at := Some (isoformat now); last_outbound_at := last_outbound_at r;
       cooldown_until := Some (isoformat cooldown_until_) |}) (peer_id, session_id) (sessions d)) d).

(** MAX over text; an empty stamp counts as none. *)
Definition latest_cooldown_until (peer_id : pystr) : M db (option pystr) :=
  gets (fun d =>
    match max_by id (omap (fun kv => cooldown_until kv.2) (peer_sessions peer_id (u "ended") d)) with
    | Some [] | None => None
    | Some s => Some s
    end).

(** ** Daily counters *)
Definition get_counters (peer_id today : pystr) : M db (Z * Z) :=
  gets (fun d => match peer_counters d !! peer_id with
    | Some r => if bool_decide (reset_date r = today)
                then (outbound_count r, provider_call_count r) else (0, 0)%Z
    | None => (0, 0)%Z
    end).

Definition fresh_counter (today : pystr) : counter_row :=
  {| reset_date := today; outbound_count := 0; provider_call_count := 0 |}.

Definition ensure_counter_row (peer_id today : pystr) : M db unit :=
  modify (fun d => match peer_counters d !! peer_id with
    | Some r => if bool_decide (reset_date r = today) then d
                else upd_peer_counters (<[peer_id := fresh_counter today]> (peer_counters d)) d
    | None => upd_peer_counters (<[peer_id := fresh_counter today]> (peer_counters d)) d
    end).

Definition add_counts (o p : Z) (r : counter_row) : counter_row :=
  {| reset_date := reset_date r; outbound_count := outbound_count r + o;
     provider_call_count := provider_call_count r + p |}.

Definition incr_outbound_count (peer_id today : pystr) : M db unit :=
  ensure_counter_row peer_id today;;
  modify (fun d => upd_peer_counters (alter (add_counts 1 0) peer_id (peer_counters d)) d).

Definition incr_provider_count (peer_id today : pystr) : M db unit :=
  ensure_counter_row peer_id today;;
  modify (fun d => upd_peer_counters (alter (add_counts 0 1) peer_id (peer_counters d)) d).

(** UPDATE ... WHERE outbound_count < cap RETURNING: check and increment in one
    statement. *)
Definition try_reserve_outbound (peer_id today : pystr) (cap : Z) : M db bool :=
  ensure_counter_row peer_id today;;
  d ← get;
  match peer_counters d !! peer_id with
  | Some r =>
      if (outbound_count r <? cap)%Z then
        modify (fun d => upd_peer_counters (<[peer_id := add_counts 1 0 r]> (peer_counters d)) d);;
        mret true
      else mret false
  | None => mret false
  end.

Definition try_reserve_provider (peer_id today : pystr) (cap : Z) : M db bool :=
  ensure_counter_row peer_id today;;
  d ← get;
  match peer_counters d !! peer_id with
  | Some r =>
      if (provider_call_count r <? cap)%Z then
        modify (fun d => upd_peer_counters (<[peer_id := add_counts 0 1 r]> (peer_counters d)) d);;
        mret true
      else mret false
  | None => mret false
  end.

Definition release_provider_slot (peer_id today : pystr) : M db unit :=
  ensure_counter_row peer_id today;;
  modify (fun d => upd_peer_counters (alter (fun r =>
    {| reset_date := reset_date r; outbound_count := outbound_count r;
       provider_call_count := Z.max 0 (provider_call_count r - 1) |}) peer_id (peer_counters d)) d).

(** ** Outbound drafts *)
Definition save_draft (peer_id session_id payload : pystr) (now : Z) : M db Z :=
  d ← get;
  let i := next_draft_id d in
  modify (fun d => upd_next_draft_id (i + 1)%Z
    (upd_outbound_drafts (outbound_drafts d ++
      [{| d_id := i; d_peer := peer_id; d_session := session_id; payload_json := payload;
          d_status := u "pending"; d_created_at := isoformat now |}]) d));;
  mret i.

Definition get_pending_drafts : M db (list draft_row) :=
  gets (fun d => filter (fun r => d_status r = u "pending") (outbound_drafts d)).

Definition with_status (status : pystr) (r : draft_row) : draft_row :=
  {| d_id := d_id r; d_peer := d_peer r; d_session := d_session r;
     payload_json := payload_json r; d_status := status; d_created_at := d_created_at r |}.

Definition set_draft_status (draft_id : Z) (status : pystr) : M db unit :=
  modify (fun d => upd_outbound_drafts
    (map (fun r => if (d_id r =? draft_id)%Z then with_status status r else r)
      (outbound_drafts d)) d).

Definition count_holds_for_peer (peer_id : pystr) : M db Z :=
  gets (fun d => Z.of_nat (length
    (filter (fun r => d_peer r = peer_id /\ d_status r = u "hold") (outbound_drafts d)))).

(** ** Transcript *)
Definition same_key (p s : pystr) (seq : Z) (r : transcript_row) : bool :=
  bool_decide (t_peer r = p) && bool_decide (t_session r = s) && (t_seq r =? seq)%Z.

Definition append_transcript (peer_id session_id : option pystr) (seq : Z)
    (direction_ : pystr) (text : option pystr) (now : Z) (provenance_ : pystr) : M db unit :=
  if negb (int64_ok seq) then raise OverflowError else
  match peer_id, session_id, text with
  | Some p, Some s, Some t =>
      d ← get;
      if existsb (same_key p s seq) (transcript d) then raise IntegrityError
      else modify (fun d => upd_transcript (transcript d ++
        [{| t_peer := p; t_session := s; t_seq := seq; direction := direction_;
            t_text := t; provenance := provenance_; t_ts := isoformat now |}]) d)
  | _, _, _ => raise IntegrityError
  end.

(** ORDER BY seq DESC. *)
Fixpoint insert_desc (r : transcript_row) (l : list transcript_row) : list transcript_row :=
  match l with
  | [] => [r]
  | r' :: l' => if (t_seq r <=? t_seq r')%Z then r' :: insert_desc r l' else r :: l
  end.

Definition recent_transcript (peer_id : pystr) (limit : nat) : M db (list transcript_row) :=
  gets (fun d => take limit
    (foldl (fun acc r => insert_desc r acc) []
      (filter (fun r => t_peer r = peer_id) (transcript d)))).

(** ** Disclosure budget *)
Section budget.
Context `{PyLib}.

(** [_refilled]: an unreadable or naive stamp counts as no time passed. *)
Definition refilled (stored : float) (updated_at : pystr) (now : Z) : float :=
  let elapsed_days :=
    match (d ← fromisoformat updated_at; instant d) with
    | Ok t => fdiv (total_seconds (now - t)) (fofZ 86400)
    | Err _ => f0
    end in
  let refilled := fadd stored (fmul (pymax f0 elapsed_days) BUDGET_REFILL_PER_DAY) in
  pymin BUDGET_MAX (pymax f0 refilled).

Definition get_disclosure_budget (peer_id : pystr) (now : Z) : M db float :=
  gets (fun d => match disclosure_budget d !! peer_id with
    | None => BUDGET_MAX
    | Some (b, ts) => refilled b ts now
    end).

(** A REAL NOT NULL column: NaN is stored as NULL and refused. *)
Definition bind_real (f : float) : M db float :=
  match f with SpecFloat.S754_nan => raise IntegrityError | _ => mret f end.

Definition debit_disclosure_budget (peer_id : pystr) (amount : float) (now : Z) : M db unit :=
  current ← get_disclosure_budget peer_id now;
  new_budget ← bind_real (pymax f0 (fsub current amount));
  modify (fun d => upd_disclosure_budget
    (<[peer_id := (new_budget, isoformat now)]> (disclosure_budget d)) d).

(** ** Relationship rows *)
Definition get_relationship_row (peer_id : pystr) : M db (option relationship_row) :=
  gets (fun d => relationship_state d !! peer_id).

Definition upsert_relationship_row (peer_id stage : pystr) (trust_score : float)
    (affinity boundaries repair evidence : pystr) (now : Z) : M db unit :=
  ts ← bind_real trust_score;
  modify (fun d => upd_relationship_state (<[peer_id :=
    {| r_stage := stage; r_trust_score := ts; affinity_tags_json := affinity;
       boundaries_json := boundaries; repair_history_json := repair;
       evidence_json := evidence; r_last_reflected_at := Some (isoformat now) |}]>
    (relationship_state d)) d).

(** ** Peer emotion window *)

(** [_decayed_window]: linear to zero over the window. *)
Definition decayed_window (stored : float) (updated_at : pystr) (now : Z) : float :=
  match (d ← fromisoformat updated_at; instant d) with
  | Err _ => stored
  | Ok t =>
      let elapsed_h := fdiv (total_seconds (now - t)) (fofZ 3600) in
      if fle elapsed_h f0 then stored
      else fmul stored (pymax f0 (fsub f1 (fdiv elapsed_h PEER_EMOTION_WINDOW_HOURS)))
  end.

Definition get_peer_emotion_accumulated (peer_id : pystr) (now : Z) : M db float :=
  gets (fun d => match peer_emotion_window d !! peer_id with
    | None => f0
    | Some (a, ts) => decayed_window a ts now
    end).

Definition add_peer_emotion (peer_id : pystr) (magnitude : float) (now : Z) : M db float :=
  let magnitude := if is_finite magnitude then magnitude else f0 in
  current ← get_peer_emotion_accumulated peer_id now;
  new_total ← bind_real (fadd current (pymax f0 magnitude));
  modify (fun d => upd_peer_emotion_window
    (<[peer_id := (new_total, isoformat now)]> (peer_emotion_window d)) d);;
  mret new_total.
End budget.

(** ** Handshakes and session keys *)
Definition save_pending_handshake (k : sess_id) (eph nonce : pybytes) (role : Z) (now : Z)
    : M db unit :=
  modify (fun d => upd_pending_handshakes (<[k :=
    {| my_eph_priv_raw := eph; h_bootstrap_nonce := nonce; h_my_role := role;
       h_created_at := isoformat now |}]> (pending_handshakes d)) d).

Definition get_pending_handshake (k : option sess_id) : M db (option handshake_row) :=
  gets (fun d => k ← k; pending_handshakes d !! k).

Definition clear_pending_handshake (k : option sess_id) : M db unit :=
  match k with
  | None => mret tt
  | Some k => modify (fun d => upd_pending_handshakes (delete k (pending_handshakes d)) d)
  end.

(** INSERT OR IGNORE: an existing key stays. *)
Definition save_session_key (k : option sess_id) (key : pybytes) (my_role_ peer_role_ : Z) (now : Z)
    : M db unit :=
  match k with
  | None => mret tt
  | Some k =>
      modify (fun d => match session_keys d !! k with
        | Some _ => d
        | None => upd_session_keys (<[k :=
            {| session_key := key; my_role := my_role_; peer_role := peer_role_;
               established_at := isoformat now |}]> (session_keys d)) d
        end)
  end.

Definition get_session_key (k : option sess_id) : M db (option key_row) :=
  gets (fun d => k ← k; session_keys d !! k).

(** One upsert with RETURNING: the first sequence of a session is 1. *)
Definition next_outbound_sequence (peer_id session_id : pystr) : M db Z :=
  d ← get;
  let n := match outbound_seq d !! (peer_id, session_id) with Some n => (n + 1)%Z | None => 1%Z end in
  modify (fun d => upd_outbound_seq (<[(peer_id, session_id) := n]> (outbound_seq d)) d);;
  mret n.

Definition list_paired_peers : M db (list (pystr * peer_row)) :=
  gets (fun d => filter (fun kv => consent_state kv.2 = u "paired") (map_to_list (peers d))).

(** ** Key rotation *)
Definition queue_rotation_notice (peer_id envelope : pystr) (now : Z) : M db unit :=
  modify (fun d => upd_pending_rotation_notices (<[peer_id :=
    {| envelope_json := envelope; queued_at := isoformat now |}]> (pending_rotation_notices d)) d).

Definition pop_pending_rotation_notices : M db (list (pystr * notice_row)) :=
  gets (fun d => map_to_list (pending_rotation_notices d)).

Definition clear_rotation_notice (peer_id : pystr) : M db unit :=
  modify (fun d => upd_pending_rotation_notices (delete peer_id (pending_rotation_notices d)) d).

(** UPDATE table SET peer_id = new WHERE peer_id = old: a statement that breaks
    the PRIMARY KEY is undone and raises. *)
Definition rekey1 {A} (old new : pystr) (m : gmap pystr A) : option (gmap pystr A) :=
  match m !! old with
  | None => Some m
  | Some r => if bool_decide (old = new) then Some m else match m !! new with
              | Some _ => None
              | None => Some (<[new := r]> (delete old m))
              end
  end.

Definition rename (old new p : pystr) : pystr := if bool_decide (p = old) then new else p.

Definition rekey2 {A} (old new : pystr) (m : gmap sess_id A) : option (gmap sess_id A) :=
  if bool_decide (Exists (fun kv => kv.1.1 = old /\ is_Some (m !! (new, kv.1.2))) (map_to_list m))
  then None
  else Some (list_to_map (map (fun kv => ((rename old new kv.1.1, kv.1.2), kv.2)) (map_to_list m))).

Definition rename_draft (old new : pystr) (r : draft_row) : draft_row :=
  {| d_id := d_id r; d_peer := rename old new (d_peer r); d_session := d_session r;
     payload_json := payload_json r; d_status := d_status r; d_created_at := d_created_at r |}.

Definition rename_row (old new : pystr) (r : transcript_row) : transcript_row :=
  {| t_peer := rename old new (t_peer r); t_session := t_session r; t_seq := t_seq r;
     direction := direction r; t_text := t_text r; provenance := provenance r; t_ts := t_ts r |}.

Definition rekey_transcript (old new : pystr) (l : list transcript_row) : option (list transcript_row) :=
  if existsb (fun r => bool_decide (t_peer r = old)
      && existsb (same_key new (t_session r) (t_seq r)) l) l
  then None else Some (map (rename_row old new) l).

Definition rekey_step {A} (proj : db -> A) (upd : A -> db -> db) (f : A -> option A) : M db unit :=
  d ← get;
  match f (proj d) with
  | None => raise IntegrityError
  | Some x => modify (upd x)
  end.

Definition rotated (new_pub new_fp ts : pystr) (r : peer_row) : peer_row :=
  {| identity_pub := new_pub; p_fingerprint := new_fp; consent_state := consent_state r;
     relay_url := relay_url r; relay_mailbox := relay_mailbox r;
     p_created_at := p_created_at r; p_updated_at := ts;
     previous_identity_pub := Some (identity_pub r) |}.

(** [update_peer_identity]: the peers row first, then every child table in
    [_PEER_ID_CHILD_TABLES] order. *)
Definition update_peer_identity (peer_id new_pub_hex new_fingerprint : pystr) (now : Z) : M db unit :=
  rekey_step peers upd_peers
    (fun m => rekey1 peer_id new_fingerprint (alter (rotated new_pub_hex new_fingerprint (isoformat now)) peer_id m));;
  if bool_decide (new_fingerprint = peer_id) then mret tt else
  rekey_step seq_high_water upd_seq_high_water (rekey2 peer_id new_fingerprint);;
  rekey_step sessions upd_sessions (rekey2 peer_id new_fingerprint);;
  rekey_step peer_counters upd_peer_counters (rekey1 peer_id new_fingerprint);;
  rekey_step outbound_drafts upd_outbound_drafts
    (fun l => Some (map (rename_draft peer_id new_fingerprint) l));;
  rekey_step transcript upd_transcript (rekey_transcript peer_id new_fingerprint);;
  rekey_step disclosure_budget upd_disclosure_budget (rekey1 peer_id new_fingerprint);;
  rekey_step relationship_state upd_relationship_state (rekey1 peer_id new_fingerprint);;
  rekey_step peer_emotion_window upd_peer_emotion_window (rekey1 peer_id new_fingerprint);;
  rekey_step outbound_seq upd_outbound_seq (rekey2 peer_id new_fingerprint);;
  rekey_step pending_handshakes upd_pending_handshakes (rekey2 peer_id new_fingerprint);;
  rekey_step session_keys upd_session_keys (rekey2 peer_id new_fingerprint);;
  rekey_step pending_rotation_notices upd_pending_rotation_notices (rekey1 peer_id new_fingerprint).

(** ** Consent *)

#[export] Instance str_mem_dec x l : Decision (mem x l = true) := _.

Lemma mem_spec x l : mem x l = true <-> x ∈ l.
Proof.
  unfold mem. rewrite existsb_exists. split.
  - intros (y & Hy & ->%bool_decide_eq_true). by apply list_elem_of_In.
  - intros Hx. exists x. split; [by apply list_elem_of_In|]. by apply bool_decide_eq_true.
Qed.

(** One legal step, and any number of them. *)
Definition consent_step (a b : pystr) : Prop :=
  exists l, ALLOWED_TRANSITIONS a = Some l /\ b ∈ l.
Definition consent_path : pystr -> pystr -> Prop := rtc consent_step.

Definition consent_of (d : db) (p : pystr) : option pystr := consent_state <$> peers d !! p.

Lemma set_consent_spec p st now d :
  (exists r, peers d !! p = Some r /\ consent_step (consent_state r) st /\ st ∈ CONSENT_STATES /\
     set_consent p st now d =
       (Ok tt, upd_peers (<[p := with_consent st (isoformat now) r]> (peers d)) d))
  \/ (exists e, set_consent p st now d = (Err e, d)).
Proof.
  unfold set_consent. destruct (mem st CONSENT_STATES) eqn:Hst; [|right; eexists; done].
  cbn [negb]. unfold get_peer. munfold. destruct (peers d !! p) as [r|] eqn:Hp; [|right; eexists; done].
  destruct (ALLOWED_TRANSITIONS (consent_state r)) as [l|] eqn:Ha; [|right; eexists; done].
  simpl. destruct (mem st l) eqn:Hm; [|right; eexists; done]. simpl.
  left. exists r. split_and!; [done| |by apply mem_spec|].
  - exists l. split; [done|]. by apply mem_spec.
  - do 2 f_equal. apply map_eq. intros q. destruct (decide (q = p)) as [->|].
    + by rewrite lookup_alter_eq, lookup_insert_eq, Hp.
    + by rewrite lookup_alter_ne, lookup_insert_ne.
Qed.

(** A peer's consent after any sequence of [set_consent] calls, failed ones
    included, was reached by legal transitions. *)
Definition set_consents (calls : list (pystr * pystr * Z)) : M db unit :=
  for_each calls (fun c => catch (set_consent c.1.1 c.1.2 c.2) (fun _ => Some (mret tt))).

Lemma set_consents_path calls d p :
  match consent_of d p, consent_of (set_consents calls d).2 p with
  | Some a, Some b => consent_path a b
  | None, None => True
  | _, _ => False
  end.
Proof.
  revert d. induction calls as [|[[q st] now] calls IH]; intros d.
  - cbn. destruct (consent_of d p); [|done]. apply rtc_refl.
  - unfold set_consents in *. erewrite for_each_step by apply catch_all_unit.
    cbn [fst snd].
    destruct (set_consent_spec q st now d) as [(r & Hr & Hs & _ & ->)|(e & ->)]; [|exact (IH d)].
    cbn [snd].
    specialize (IH (upd_peers (<[q := with_consent st (isoformat now) r]> (peers d)) d)).
    unfold consent_of at 1 in IH. cbn [peers upd_peers] in IH. unfold consent_of at 1.
    destruct (decide (p = q)) as [->|Hne].
    + rewrite lookup_insert_eq in IH. rewrite Hr. simpl in *.
      destruct (consent_of _ _); [|done]. eapply rtc_l; eauto.
    + rewrite lookup_insert_ne in IH by done. done.
Qed.

Lemma consent_path_blocked b : consent_path (u "blocked") b -> b = u "blocked".
Proof.
  intros H. inversion H as [|? ? ? (l & Hl & Hin)]; subst; [done|].
  vm_compute in Hl. simplify_eq. by apply not_elem_of_nil in Hin.
Qed.

Lemma consent_path_revoked b :
  consent_path (u "revoked") b -> b = u "revoked" \/ b = u "blocked".
Proof.
  intros H. inversion H as [|? y ? (l & Hl & Hin) Hr]; subst; [by left|].
  vm_compute in Hl. simplify_eq. apply list_elem_of_singleton in Hin as ->.
  right. by apply consent_path_blocked.
Qed.

(** ** Daily caps *)
Definition counts (d : db) (p today : pystr) : Z * Z :=
  match peer_counters d !! p with
  | Some r => if bool_decide (reset_date r = today)
              then (outbound_count r, provider_call_count r) else (0, 0)%Z
  | None => (0, 0)%Z
  end.

Lemma get_counters_counts p today d : get_counters p today d = (Ok (counts d p today), d).
Proof. done. Qed.

(** What [_ensure_counter_row] leaves: today's row, with the counts kept. *)
Lemma ensure_counter_row_spec p today d :
  exists r, (ensure_counter_row p today d).1 = Ok tt /\
    let d' := (ensure_counter_row p today d).2 in
    peer_counters d' !! p = Some r /\ reset_date r = today /\
    (outbound_count r, provider_call_count r) = counts d p today /\
    (forall q, q <> p -> peer_counters d' !! q = peer_counters d !! q) /\
    d' = upd_peer_counters (peer_counters d') d.
Proof.
  unfold ensure_counter_row, counts. munfold.
  destruct (peer_counters d !! p) as [r|] eqn:Hp.
  - case_bool_decide as Hd; [|exists (fresh_counter today)]; [exists r|]; simpl.
    + split_and!; try done. by destruct d.
    + split_and!; try done; [by rewrite lookup_insert_eq|].
      intros. by rewrite lookup_insert_ne.
  - exists (fresh_counter today). simpl. split_and!; try done; [by rewrite lookup_insert_eq|].
    intros. by rewrite lookup_insert_ne.
Qed.

Lemma counts_row d p today r :
  peer_counters d !! p = Some r -> reset_date r = today ->
  counts d p today = (outbound_count r, provider_call_count r).
Proof. intros H1 H2. unfold counts. rewrite H1. by rewrite bool_decide_eq_true_2. Qed.

(** The change of a counter operation: today's counts of [p] become [c]; no
    other peer's row and no other table changes. *)
Definition counted (p today : pystr) (c : Z * Z) (d d' : db) : Prop :=
  counts d' p today = c /\
  (forall q, q <> p -> peer_counters d' !! q = peer_counters d !! q) /\
  d' = upd_peer_counters (peer_counters d') d.

Lemma counted_alter p today (f : counter_row -> counter_row) d :
  (forall r, reset_date (f r) = reset_date r) ->
  let d1 := (ensure_counter_row p today d).2 in
  forall r, peer_counters d1 !! p = Some r ->
  counted p today (outbound_count (f r), provider_call_count (f r)) d
    (upd_peer_counters (<[p := f r]> (peer_counters d1)) d1).
Proof.
  intros Hf d1 r Hr. destruct (ensure_counter_row_spec p today d) as (r' & _ & Hr' & Hd & _ & Hq & Heq).
  fold d1 in Hr', Hq, Heq. clearbody d1. rewrite Hr in Hr'. injection Hr' as <-.
  split_and!.
  - apply (counts_row _ _ _ (f r)); [by cbn; rewrite lookup_insert_eq|by rewrite Hf].
  - intros q Hne. cbn. rewrite lookup_insert_ne by done. by apply Hq.
  - rewrite Heq at 2. done.
Qed.

Lemma counted_ensure p today d :
  counted p today (counts d p today) d (ensure_counter_row p today d).2.
Proof.
  destruct (ensure_counter_row_spec p today d) as (r & _ & Hr & Hd & <- & Hq & Heq).
  split_and!; [|done|done]. by apply counts_row.
Qed.

(** A slot is reserved exactly when the count is below the cap, and then the
    count is one more. *)
Lemma try_reserve_outbound_spec p today cap d :
  let '(o, n) := counts d p today in
  exists d', try_reserve_outbound p today cap d = (Ok (o <? cap)%Z, d') /\
    counted p today ((if (o <? cap)%Z then o + 1 else o)%Z, n) d d'.
Proof.
  pose proof (ensure_counter_row_spec p today d) as (r & Hok & Hr & Hd & Hc & Hq & Heq).
  pose proof (counted_alter p today (add_counts 1 0) d (fun r => eq_refl) r Hr) as Ha.
  pose proof (counted_ensure p today d) as He.
  destruct (counts d p today) as [o n] eqn:Hcd. injection Hc as Ho Hn.
  unfold try_reserve_outbound. unfold mbind at 1, M_bind at 1.
  destruct (ensure_counter_row p today d) as [res d1]. cbn [fst snd] in *. subst res.
  munfold. rewrite Hr. destruct (Z.ltb_spec (outbound_count r) cap).
  - rewrite (proj2 (Z.ltb_lt _ _)) by lia. eexists. split; [done|].
    cbn in Ha. by rewrite Ho, Hn, Z.add_0_r in Ha.
  - rewrite (proj2 (Z.ltb_ge _ _)) by lia. eexists. split; [done|]. done.
Qed.

Lemma try_reserve_provider_spec p today cap d :
  let '(o, n) := counts d p today in
  exists d', try_reserve_provider p today cap d = (Ok (n <? cap)%Z, d') /\
    counted p today (o, (if (n <? cap)%Z then n + 1 else n)%Z) d d'.
Proof.
  pose proof (ensure_counter_row_spec p today d) as (r & Hok & Hr & Hd & Hc & Hq & Heq).
  pose proof (counted_alter p today (add_counts 0 1) d (fun r => eq_refl) r Hr) as Ha.
  pose proof (counted_ensure p today d) as He.
  destruct (counts d p today) as [o n] eqn:Hcd. injection Hc as Ho Hn.
  unfold try_reserve_provider. unfold mbind at 1, M_bind at 1.
  destruct (ensure_counter_row p today d) as [res d1]. cbn [fst snd] in *. subst res.
  munfold. rewrite Hr. destruct (Z.ltb_spec (provider_call_count r) cap).
  - rewrite (proj2 (Z.ltb_lt _ _)) by lia. eexists. split; [done|].
    cbn in Ha. by rewrite Ho, Hn, Z.add_0_r in Ha.
  - rewrite (proj2 (Z.ltb_ge _ _)) by lia. eexists. split; [done|]. done.
Qed.

Lemma release_provider_slot_spec p today d :
  let '(o, n) := counts d p today in
  exists d', release_provider_slot p today d = (Ok tt, d') /\
    counted p today (o, Z.max 0 (n - 1)) d d'.
Proof.
  pose proof (ensure_counter_row_spec p today d) as (r & Hok & Hr & Hd & Hc & Hq & Heq).
  pose proof (counted_alter p today (fun r =>
    {| reset_date := reset_date r; outbound_count := outbound_count r;
       provider_call_count := Z.max 0 (provider_call_count r - 1) |}) d (fun r => eq_refl) r Hr) as Ha.
  destruct (counts d p today) as [o n] eqn:Hcd. injection Hc as Ho Hn.
  unfold release_provider_slot. unfold mbind at 1, M_bind at 1.
  destruct (ensure_counter_row p today d) as [res d1]. cbn [fst snd] in *. subst res.
  munfold. eexists. split; [done|]. cbn in Ha. rewrite Ho, Hn in Ha.
  match type of Ha with context [<[p := ?x]> _] =>
    assert (forall f, f r = x -> alter f p (peer_counters d1) = <[p := x]> (peer_counters d1)) as Hal
  end.
  { intros f <-. apply map_eq. intros q. destruct (decide (q = p)) as [->|].
    - by rewrite lookup_alter_eq, lookup_insert_eq, Hr.
    - by rewrite lookup_alter_ne, lookup_insert_ne. }
  rewrite Hal; [exact Ha|]. cbn. by rewrite Ho, Hn.
Qed.

(** ** Disclosure budget *)
Lemma BUDGET_MAX_f1 : BUDGET_MAX = f1. Proof. done. Qed.

Lemma refilled_range `{PyLib} stored ts now :
  fle f0 (refilled stored ts now) = true /\ fle (refilled stored ts now) f1 = true.
Proof. by apply pymin_max_range. Qed.

(** Whatever the row holds, the budget read is in [0, 1]. *)
Lemma get_disclosure_budget_range `{PyLib} p now d :
  exists b, get_disclosure_budget p now d = (Ok b, d) /\ fle f0 b = true /\ fle b f1 = true.
Proof.
  unfold get_disclosure_budget, gets. eexists. split; [done|].
  destruct (disclosure_budget d !! p) as [[b ts]|]; [apply refilled_range|done].
Qed.

(** ** Session keys and sequences *)

(** The first key saved for a session stays. *)
Definition keys_kept (d d' : db) : Prop :=
  forall k r, session_keys d !! k = Some r -> session_keys d' !! k = Some r.

#[export] Instance keys_kept_preorder : PreOrder keys_kept.
Proof. split; [by intros d k r|]. intros d1 d2 d3 H1 H2 k r Hk. by apply H2, H1. Qed.

Lemma save_session_key_kept k key mr pr now : pres keys_kept (save_session_key k key mr pr now).
Proof.
  intros d k' r Hk'. destruct k as [k|]; [|done]. munfold.
  destruct (session_keys d !! k) eqn:E; [done|]. cbn.
  rewrite lookup_insert_ne; [done|]. congruence.
Qed.

Lemma save_session_key_new k key mr pr now d :
  session_keys d !! k = None ->
  exists d', save_session_key (Some k) key mr pr now d = (Ok tt, d') /\
    d' = upd_session_keys (<[k := {| session_key := key; my_role := mr; peer_role := pr;
               established_at := isoformat now |}]> (session_keys d)) d.
Proof. intros H. unfold save_session_key. munfold. rewrite H. eauto. Qed.

(** Every sequence handed out is larger than all before it in the session. *)
Definition seq_of (d : db) (k : sess_id) : Z := default 0%Z (outbound_seq d !! k).

Lemma next_outbound_sequence_spec p s d :
  (0 <= seq_of d (p, s))%Z ->
  exists d', next_outbound_sequence p s d = (Ok (seq_of d (p, s) + 1)%Z, d') /\
    d' = upd_outbound_seq (<[(p, s) := (seq_of d (p, s) + 1)%Z]> (outbound_seq d)) d.
Proof.
  intros Hs. unfold next_outbound_sequence, seq_of in *. munfold.
  destruct (outbound_seq d !! (p, s)) as [n|]; eexists; split; done.
Qed.

(** ** Sorting and picking *)
Lemma max_by_in {A} (key : A -> pystr) l x : max_by key l = Some x -> x ∈ l.
Proof.
  revert x. induction l as [|y l IH]; intros x; simpl; [done|].
  destruct (max_by key l) as [z|]; [|intros [= ->]; by left].
  destruct (str_ltb (key y) (key z)); intros [= ->]; [right; auto|by left].
Qed.

Lemma str_ltb_trans_le a b c : str_ltb a b = true -> str_ltb c b = false -> str_ltb a c = true.
Proof.
  intros H1 H2. destruct (str_ltb b c) eqn:E; [by eapply str_ltb_trans|].
  by rewrite <- (str_ltb_total b c).
Qed.

(** [max_by] picks an element no other beats. *)
Lemma max_by_max {A} (key : A -> pystr) l x y :
  max_by key l = Some x -> y ∈ l -> str_ltb (key x) (key y) = false.
Proof.
  revert x y. induction l as [|z l IH]; intros x y; simpl; [done|].
  rewrite elem_of_cons. destruct (max_by key l) as [w|] eqn:Hm.
  - destruct (str_ltb (key z) (key w)) eqn:E; intros [= <-] [->|Hy]; auto.
    + destruct (str_ltb (key w) (key z)) eqn:E'; [|done].
      pose proof (str_ltb_trans _ _ _ E E'). by rewrite str_ltb_irrefl in *.
    + apply str_ltb_irrefl.
    + specialize (IH w y eq_refl Hy). destruct (str_ltb (key z) (key y)) eqn:E'; [|done].
      pose proof (str_ltb_trans_le _ _ _ E' IH). congruence.
  - intros [= <-] [->|Hy]; [apply str_ltb_irrefl|].
    destruct l as [|w l]; [by apply not_elem_of_nil in Hy|]. simpl in Hm. by repeat case_match.
Qed.

Lemma insert_desc_perm r l : insert_desc r l ≡ₚ r :: l.
Proof.
  induction l as [|r' l IH]; simpl; [done|]. case_match; [|done].
  rewrite IH. apply Permutation_swap.
Qed.

Lemma insert_desc_sorted r l :
  Sorted (fun a b => t_seq b <= t_seq a)%Z l -> Sorted (fun a b => t_seq b <= t_seq a)%Z (insert_desc r l).
Proof.
  induction 1 as [|r' l Hs IH Hd]; simpl; [by repeat constructor|].
  destruct (Z.leb_spec (t_seq r) (t_seq r')).
  - constructor; [done|]. destruct Hd; simpl; [by constructor|]. case_match; by constructor.
  - constructor; [by constructor|]. constructor. lia.
Qed.

(** The rows of a peer, newest sequence first. *)
Lemma sorted_rows l :
  let r := foldl (fun acc x => insert_desc x acc) [] l in
  r ≡ₚ l /\ Sorted (fun a b => t_seq b <= t_seq a)%Z r.
Proof.
  cbv zeta. assert (forall acc, Sorted (fun a b => t_seq b <= t_seq a)%Z acc ->
    foldl (fun acc x => insert_desc x acc) acc l ≡ₚ acc ++ l /\
    Sorted (fun a b => t_seq b <= t_seq a)%Z (foldl (fun acc x => insert_desc x acc) acc l)) as H.
  { induction l as [|x l IH]; intros acc Hacc; simpl; [by rewrite app_nil_r|].
    destruct (IH (insert_desc x acc)) as [Hp Hs]; [by apply insert_desc_sorted|].
    split; [|done]. rewrite Hp, insert_desc_perm. apply Permutation_middle. }
  by apply (H []).
Qed.

(** ** Key rotation *)
Lemma rename_eq old new : rename old new old = new.
Proof. unfold rename. by rewrite bool_decide_eq_true_2. Qed.

Lemma rename_ne old new p : p <> old -> rename old new p = p.
Proof. intros. unfold rename. by rewrite bool_decide_eq_false_2. Qed.

Lemma rekey1_spec {A} (old new : pystr) (m : gmap pystr A) :
  old <> new -> m !! new = None ->
  exists m', rekey1 old new m = Some m' /\
    m' !! new = m !! old /\ m' !! old = None /\
    forall p, p <> old -> p <> new -> m' !! p = m !! p.
Proof.
  intros Hne Hn. unfold rekey1. destruct (m !! old) as [r|] eqn:Ho.
  - rewrite bool_decide_eq_false_2, Hn by done. eexists. split; [done|]. split_and!.
    + by rewrite lookup_insert_eq.
    + rewrite lookup_insert_ne by done. by rewrite lookup_delete_eq.
    + intros. by rewrite lookup_insert_ne, lookup_delete_ne.
  - exists m. split_and!; congruence.
Qed.

Lemma rekey2_spec {A} (old new : pystr) (m : gmap sess_id A) :
  old <> new -> (forall s, m !! (new, s) = None) ->
  exists m', rekey2 old new m = Some m' /\
    forall p s, m' !! (p, s) = if decide (p = new) then m !! (old, s)
                               else if decide (p = old) then None else m !! (p, s).
Proof.
  intros Hne Hn. unfold rekey2. rewrite bool_decide_eq_false_2.
  2: { intros ([[q s] x] & _ & _ & [y Hy])%Exists_exists. cbn in Hy. by rewrite Hn in Hy. }
  eexists. split; [done|]. intros p s. apply option_eq. intros x.
  rewrite <- elem_of_list_to_map.
  2: { rewrite map_map. cbn.
       apply (NoDup_fmap_2_strong (fun kv : sess_id * A => (rename old new kv.1.1, kv.1.2)));
         [|apply NoDup_map_to_list].
       intros [[p1 s1] x1] [[p2 s2] x2] H1%elem_of_map_to_list H2%elem_of_map_to_list. cbn.
       assert (p1 <> new /\ p2 <> new) as [? ?] by (split; intros ->; by rewrite Hn in *).
       unfold rename. repeat case_bool_decide; intros; simplify_eq; done. }
  rewrite list_elem_of_In, in_map_iff. setoid_rewrite <- list_elem_of_In.
  split.
  - intros ([[q s'] x'] & Heq & Hin%elem_of_map_to_list). cbn in Heq. simplify_eq.
    assert (q <> new) by (intros ->; by rewrite Hn in *).
    destruct (decide (q = old)) as [->|].
    + rewrite rename_eq. by rewrite decide_True.
    + rewrite rename_ne by done. by rewrite !decide_False.
  - destruct (decide (p = new)) as [->|]; [|destruct (decide (p = old)) as [|]; [done|]]; intros Hx.
    + exists (old, s, x). rewrite elem_of_map_to_list. cbn. by rewrite rename_eq.
    + exists (p, s, x). rewrite elem_of_map_to_list. cbn. by rewrite rename_ne.
Qed.

Lemma rekey_transcript_spec old new l :
  Forall (fun r => t_peer r <> new) l ->
  rekey_transcript old new l = Some (map (rename_row old new) l).
Proof.
  intros Hl. unfold rekey_transcript.
  assert (existsb (fun r => bool_decide (t_peer r = old)
      && existsb (same_key new (t_session r) (t_seq r)) l) l = false) as ->; [|done].
  apply not_true_iff_false. rewrite existsb_exists. intros (r & _ & Hr).
  apply andb_true_iff in Hr as [_ Hr]. apply existsb_exists in Hr as (r' & Hin & Hk).
  unfold same_key in Hk. rewrite !andb_true_iff, bool_decide_eq_true in Hk.
  rewrite Forall_forall in Hl. apply (Hl r'); [by apply list_elem_of_In|]. tauto.
Qed.

(** Every row of the database belongs to a known peer; a transcript row is not
    above its session's high water, and no two have the same key. *)
Definition known (d : db) (p : pystr) : Prop := is_Some (peers d !! p).

Record link_wf (d : db) : Prop := {
  wf_consent : forall p r, peers d !! p = Some r -> consent_state r ∈ CONSENT_STATES;
  wf_hw_known : forall k, is_Some (seq_high_water d !! k) -> known d k.1;
  wf_sessions_known : forall k, is_Some (sessions d !! k) -> known d k.1;
  wf_counters_known : forall p, is_Some (peer_counters d !! p) -> known d p;
  wf_drafts_known : Forall (fun r => known d (d_peer r)) (outbound_drafts d);
  wf_transcript_known : Forall (fun r => known d (t_peer r)) (transcript d);
  wf_budget_known : forall p, is_Some (disclosure_budget d !! p) -> known d p;
  wf_relationship_known : forall p, is_Some (relationship_state d !! p) -> known d p;
  wf_emotion_known : forall p, is_Some (peer_emotion_window d !! p) -> known d p;
  wf_outbound_known : forall k, is_Some (outbound_seq d !! k) -> known d k.1;
  wf_pending_known : forall k, is_Some (pending_handshakes d !! k) -> known d k.1;
  wf_keys_known : forall k, is_Some (session_keys d !! k) -> known d k.1;
  wf_notices_known : forall p, is_Some (pending_rotation_notices d !! p) -> known d p;
  wf_high_water : Forall (fun r => exists h,
    seq_high_water d !! (t_peer r, t_session r) = Some h /\ (t_seq r <= h)%Z) (transcript d);
  wf_unique : NoDup (map (fun r => (t_peer r, t_session r, t_seq r)) (transcript d));
}.

Lemma not_known_none {A} (o : option A) (K : Prop) :
  (is_Some o -> K) -> ~ K -> o = None.
Proof. intros H HK. destruct o; [exfalso; eauto|done]. Qed.

Lemma rekey_step_ok {A} (proj : db -> A) upd f d x :
  f (proj d) = Some x -> rekey_step proj upd f d = (Ok tt, upd x d).
Proof. intros Hf. unfold rekey_step. munfold. by rewrite Hf. Qed.

(** The database after a rotation: the peer's row and all its child rows under
    the new id, nothing under the old one, everybody else untouched. *)
Record rotation_done (old new pub ts : pystr) (r : peer_row) (d d' : db) : Prop := {
  rd_peer : peers d' !! new = Some (rotated pub new ts r);
  rd_gone : peers d' !! old = None;
  rd_others : forall p, p <> old -> p <> new -> peers d' !! p = peers d !! p;
  rd_hw : forall p s, seq_high_water d' !! (p, s) = if decide (p = new) then seq_high_water d !! (old, s)
    else if decide (p = old) then None else seq_high_water d !! (p, s);
  rd_sessions : forall p s, sessions d' !! (p, s) = if decide (p = new) then sessions d !! (old, s)
    else if decide (p = old) then None else sessions d !! (p, s);
  rd_outbound : forall p s, outbound_seq d' !! (p, s) = if decide (p = new) then outbound_seq d !! (old, s)
    else if decide (p = old) then None else outbound_seq d !! (p, s);
  rd_pending : forall p s, pending_handshakes d' !! (p, s) = if decide (p = new) then pending_handshakes d !! (old, s)
    else if decide (p = old) then None else pending_handshakes d !! (p, s);
  rd_keys : forall p s, session_keys d' !! (p, s) = if decide (p = new) then session_keys d !! (old, s)
    else if decide (p = old) then None else session_keys d !! (p, s);
  rd_counters : peer_counters d' !! new = peer_counters d !! old /\ peer_counters d' !! old = None /\
    forall p, p <> old -> p <> new -> peer_counters d' !! p = peer_counters d !! p;
  rd_budget : disclosure_budget d' !! new = disclosure_budget d !! old /\ disclosure_budget d' !! old = None /\
    forall p, p <> old -> p <> new -> disclosure_budget d' !! p = disclosure_budget d !! p;
  rd_relationship : relationship_state d' !! new = relationship_state d !! old /\ relationship_state d' !! old = None /\
    forall p, p <> old -> p <> new -> relationship_state d' !! p = relationship_state d !! p;
  rd_emotion : peer_emotion_window d' !! new = peer_emotion_window d !! old /\ peer_emotion_window d' !! old = None /\
    forall p, p <> old -> p <> new -> peer_emotion_window d' !! p = peer_emotion_window d !! p;
  rd_notices : pending_rotation_notices d' !! new = pending_rotation_notices d !! old /\
    pending_rotation_notices d' !! old = None /\
    forall p, p <> old -> p <> new -> pending_rotation_notices d' !! p = pending_rotation_notices d !! p;
  rd_drafts : outbound_drafts d' = map (rename_draft old new) (outbound_drafts d);
  rd_transcript : transcript d' = map (rename_row old new) (transcript d);
  rd_rest : consumed_invites d' = consumed_invites d /\ local_identity d' = local_identity d /\
    next_draft_id d' = next_draft_id d;
}.

Lemma alter_new_none {A} (f : A -> A) (old new : pystr) (m : gmap pystr A) :
  old <> new -> m !! new = None -> alter f old m !! new = None.
Proof. intros. by rewrite lookup_alter_ne. Qed.

(** Rotating a known peer to an unused id moves every row of the peer. *)
Lemma update_peer_identity_ok old new pub now d r :
  link_wf d -> peers d !! old = Some r -> peers d !! new = None ->
  exists d', update_peer_identity old pub new now d = (Ok tt, d') /\
    rotation_done old new pub (isoformat now) r d d'.
Proof.
  intros Hwf Ho Hn. assert (old <> new) as Hne by congruence.
  assert (~ known d new) as Hk by (intros [x Hx]; congruence).
  destruct (rekey1_spec old new (alter (rotated pub new (isoformat now)) old (peers d)) Hne)
    as (mp & Ep & Ep1 & Ep2 & Ep3); [by apply alter_new_none|].
  destruct (rekey2_spec old new (seq_high_water d) Hne) as (m1 & E1 & F1);
    [intros s; exact (not_known_none _ _ (wf_hw_known d Hwf (new, s)) Hk)|].
  destruct (rekey2_spec old new (sessions d) Hne) as (m2 & E2 & F2);
    [intros s; exact (not_known_none _ _ (wf_sessions_known d Hwf (new, s)) Hk)|].
  destruct (rekey1_spec old new (peer_counters d) Hne) as (m3 & E3 & F3);
    [exact (not_known_none _ _ (wf_counters_known d Hwf new) Hk)|].
  assert (rekey_transcript old new (transcript d) = Some (map (rename_row old new) (transcript d))) as E4.
  { apply rekey_transcript_spec. eapply Forall_impl; [exact (wf_transcript_known d Hwf)|].
    intros x Hx Heq. apply Hk. by rewrite <- Heq. }
  destruct (rekey1_spec old new (disclosure_budget d) Hne) as (m5 & E5 & F5);
    [exact (not_known_none _ _ (wf_budget_known d Hwf new) Hk)|].
  destruct (rekey1_spec old new (relationship_state d) Hne) as (m6 & E6 & F6);
    [exact (not_known_none _ _ (wf_relationship_known d Hwf new) Hk)|].
  destruct (rekey1_spec old new (peer_emotion_window d) Hne) as (m7 & E7 & F7);
    [exact (not_known_none _ _ (wf_emotion_known d Hwf new) Hk)|].
  destruct (rekey2_spec old new (outbound_seq d) Hne) as (m8 & E8 & F8);
    [intros s; exact (not_known_none _ _ (wf_outbound_known d Hwf (new, s)) Hk)|].
  destruct (rekey2_spec old new (pending_handshakes d) Hne) as (m9 & E9 & F9);
    [intros s; exact (not_known_none _ _ (wf_pending_known d Hwf (new, s)) Hk)|].
  destruct (rekey2_spec old new (session_keys d) Hne) as (m10 & E10 & F10);
    [intros s; exact (not_known_none _ _ (wf_keys_known d Hwf (new, s)) Hk)|].
  destruct (rekey1_spec old new (pending_rotation_notices d) Hne) as (m11 & E11 & F11);
    [exact (not_known_none _ _ (wf_notices_known d Hwf new) Hk)|].
  eexists. split.
  - unfold update_peer_identity. rewrite bool_decide_eq_false_2 by done.
    unfold mbind, M_bind.
    repeat (erewrite rekey_step_ok by (cbn; eassumption || reflexivity)). reflexivity.
  - split; cbn; try done.
    rewrite Ep1, lookup_alter_eq, Ho. done. intros. rewrite Ep3 by done. by rewrite lookup_alter_ne.
Qed.

(** ** Never backwards

    What every inbound operation but a key rotation guarantees: consent is not
    touched, no session key is replaced, no high water falls, no transcript row
    is lost. *)
Record forward (d d' : db) : Prop := {
  fw_consent : forall p, consent_of d' p = consent_of d p;
  fw_keys : keys_kept d d';
  fw_high_water : forall k h, seq_high_water d !! k = Some h ->
    exists h', seq_high_water d' !! k = Some h' /\ (h <= h')%Z;
  fw_transcript : transcript d `prefix_of` transcript d';
}.

#[export] Instance forward_preorder : PreOrder forward.
Proof.
  split.
  - intros d. split; [done|by intros k r| |done]. intros k h Hk. exists h. split; [done|lia].
  - intros a b c [A1 A2 A3 A4] [B1 B2 B3 B4]. split.
    + intros p. by rewrite B1.
    + by etrans.
    + intros k h Hk. destruct (A3 k h Hk) as (h1 & K1 & L1). destruct (B3 k h1 K1) as (h2 & K2 & L2).
      exists h2. split; [done|lia].
    + by etrans.
Qed.

Lemma forward_known d d' p : forward d d' -> known d p -> known d' p.
Proof.
  intros Hf [r Hr]. pose proof (fw_consent d d' Hf p) as E. unfold consent_of in E. rewrite Hr in E.
  unfold known. destruct (peers d' !! p); [eauto|done].
Qed.

(** Changes to the tables the relation does not speak of. *)
Lemma forward_frame d d' :
  peers d' = peers d -> session_keys d' = session_keys d -> seq_high_water d' = seq_high_water d ->
  transcript d' = transcript d -> forward d d'.
Proof.
  intros E1 E2 E3 E4. split.
  - intros p. unfold consent_of. by rewrite E1.
  - intros k r. by rewrite E2.
  - intros k h. rewrite E3. intros ->. exists h. split; [done|lia].
  - by rewrite E4.
Qed.

Lemma forward_modify f :
  (forall d, peers (f d) = peers d /\ session_keys (f d) = session_keys d /\
     seq_high_water (f d) = seq_high_water d /\ transcript (f d) = transcript d) ->
  pres forward (modify f).
Proof. intros Hf. apply pres_modify. intros d. destruct (Hf d) as (?&?&?&?). by apply forward_frame. Qed.

Lemma forward_save_key k key mr pr now : pres forward (save_session_key k key mr pr now).
Proof.
  intros d. destruct k as [k|]; [|by apply forward_frame]. munfold.
  destruct (session_keys d !! k) eqn:E; [by apply forward_frame|]. split; cbn; [done| |intros; eexists; split; [done|lia]|done].
  intros k' r Hk'. cbn. rewrite lookup_insert_ne; [done|congruence].
Qed.

Lemma forward_create_session k now : pres forward (create_session k now).
Proof.
  unfold create_session. destruct k; pres_auto. apply forward_modify. intros d. by destruct (sessions d !! _).
Qed.

Lemma forward_save_pending k a b r now : pres forward (save_pending_handshake k a b r now).
Proof. by apply forward_modify. Qed.

Lemma forward_clear_pending k : pres forward (clear_pending_handshake k).
Proof. unfold clear_pending_handshake. pres_auto. by apply forward_modify. Qed.

(** Writing a mailbox back onto a peer keeps its consent. *)
Lemma forward_upsert d p r ip fp ru mb now :
  peers d !! p = Some r -> forward d (upsert_peer p ip fp (consent_state r) ru mb now d).2.
Proof.
  intros Hr. unfold upsert_peer. destruct (mem _ _); [|done]. cbn [negb]. munfold. rewrite Hr. split; cbn.
  - intros q. unfold consent_of. cbn. destruct (decide (q = p)) as [->|].
    + by rewrite lookup_insert_eq, Hr.
    + by rewrite lookup_insert_ne.
  - by intros k s.
  - intros k h Hk. exists h. split; [done|lia].
  - done.
Qed.

(** ** Well-formedness, operation by operation *)

(** Inserting a row for a known peer, and changing the tables [link_wf] does not
    speak of. *)
Lemma wf_insert_known {A} (d : db) (m : gmap sess_id A) k x :
  (forall k', is_Some (m !! k') -> known d k'.1) -> known d k.1 ->
  forall k', is_Some (<[k := x]> m !! k') -> known d k'.1.
Proof.
  intros Hm Hk k' Hk'. destruct (decide (k' = k)) as [->|]; [done|].
  rewrite lookup_insert_ne in Hk' by done. by apply Hm.
Qed.

Lemma wf_delete_known {A} (d : db) (m : gmap sess_id A) k :
  (forall k', is_Some (m !! k') -> known d k'.1) ->
  forall k', is_Some (delete k m !! k') -> known d k'.1.
Proof.
  intros Hm k' [x Hx]. apply lookup_delete_Some in Hx as [_ Hx]. apply Hm. eauto.
Qed.

Lemma wf_save_key d k key mr pr now :
  link_wf d -> known d k.1 -> link_wf (save_session_key (Some k) key mr pr now d).2.
Proof.
  intros Hd Hk. unfold save_session_key, modify. cbn [snd].
  destruct (session_keys d !! k); [done|]. destruct Hd. split; cbn; try done.
  by apply (wf_insert_known d).
Qed.

Lemma wf_create_session d k now :
  link_wf d -> known d k.1 -> link_wf (create_session (Some k) now d).2.
Proof.
  intros Hd Hk. unfold create_session, modify. cbn [snd].
  destruct (sessions d !! k); [done|]. destruct Hd. split; cbn; try done.
  by apply (wf_insert_known d).
Qed.

Lemma wf_save_pending d k a b r now :
  link_wf d -> known d k.1 -> link_wf (save_pending_handshake k a b r now d).2.
Proof.
  intros Hd Hk. unfold save_pending_handshake, modify. cbn [snd]. destruct Hd. split; cbn; try done.
  by apply (wf_insert_known d).
Qed.

Lemma wf_clear_pending d k : link_wf d -> link_wf (clear_pending_handshake (Some k) d).2.
Proof.
  intros Hd. unfold clear_pending_handshake, modify. cbn [snd]. destruct Hd. split; cbn; try done.
  by apply (wf_delete_known d).
Qed.

Lemma known_insert d p q r : known d q -> known (upd_peers (<[p := r]> (peers d)) d) q.
Proof.
  unfold known. cbn. destruct (decide (q = p)) as [->|]; [by rewrite lookup_insert_eq|].
  by rewrite lookup_insert_ne.
Qed.

(** A database whose peers only grew. *)
Lemma wf_insert_peer d p r :
  link_wf d -> consent_state r ∈ CONSENT_STATES -> link_wf (upd_peers (<[p := r]> (peers d)) d).
Proof.
  intros [] Hr. pose proof (fun q => known_insert d p q r) as Hk. split; cbn; try solve [intros; apply Hk; eauto].
  - intros q r'. destruct (decide (q = p)) as [->|].
    + rewrite lookup_insert_eq. by intros [= <-].
    + rewrite lookup_insert_ne by done. eauto.
  - eapply Forall_impl; [exact wf_drafts_known0|]. cbn. intros ? ?. by apply Hk.
  - eapply Forall_impl; [exact wf_transcript_known0|]. cbn. intros ? ?. by apply Hk.
  - done.
  - done.
Qed.

Lemma wf_upsert d p ip fp st ru mb now :
  link_wf d -> link_wf (upsert_peer p ip fp st ru mb now d).2.
Proof.
  intros Hd. unfold upsert_peer. destruct (mem st CONSENT_STATES) eqn:E; [|done]. cbn [negb].
  unfold modify. cbn [snd]. apply wf_insert_peer; [done|]. apply mem_spec. by case_match.
Qed.

(** The row of an accepted message, with the high water raised to it. *)
Definition accept_row (row : transcript_row) (d : db) : db :=
  upd_seq_high_water (<[(t_peer row, t_session row) := t_seq row]> (seq_high_water d))
    (upd_transcript (transcript d ++ [row]) d).

Lemma forward_accept row d :
  (default 0%Z (seq_high_water d !! (t_peer row, t_session row)) < t_seq row)%Z ->
  forward d (accept_row row d).
Proof.
  intros Hlt. split; cbn; [done|by intros k r| |by eexists].
  intros k h Hk. destruct (decide (k = (t_peer row, t_session row))) as [->|].
  - rewrite lookup_insert_eq. eexists. split; [done|]. rewrite Hk in Hlt. simpl in Hlt. lia.
  - rewrite lookup_insert_ne by done. exists h. split; [done|lia].
Qed.

Lemma wf_accept row d :
  link_wf d -> known d (t_peer row) ->
  (default 0%Z (seq_high_water d !! (t_peer row, t_session row)) < t_seq row)%Z ->
  link_wf (accept_row row d).
Proof.
  intros Hd Hk Hlt. destruct Hd. split; cbn; try done.
  - by apply (wf_insert_known d).
  - apply Forall_app. split; [done|]. by repeat constructor.
  - apply Forall_app. split.
    + eapply Forall_impl; [exact wf_high_water0|]. cbn. intros r (h & Hh & Hle).
      destruct (decide ((t_peer r, t_session r) = (t_peer row, t_session row))) as [E|].
      * rewrite E, lookup_insert_eq. eexists. split; [done|]. rewrite E in Hh. rewrite Hh in Hlt. simpl in Hlt. lia.
      * rewrite lookup_insert_ne by done. eauto.
    + constructor; [|constructor]. rewrite lookup_insert_eq. eexists. split; [done|lia].
  - rewrite map_app. apply NoDup_app. split_and!; [done| |apply NoDup_singleton].
    intros x Hx ->%list_elem_of_singleton. apply list_elem_of_In, in_map_iff in Hx as (r & Heq & Hr).
    rewrite Forall_forall in wf_high_water0. destruct (wf_high_water0 r) as (h & Hh & Hle); [by apply list_elem_of_In|].
    injection Heq as E1 E2 E3. rewrite E1, E2 in Hh. rewrite Hh in Hlt. simpl in Hlt. lia.
Qed.

(** ** Rotation keeps the database well-formed *)
Section rotation_wf.
Context (old new pub ts : pystr) (r : peer_row) (d d' : db).
Context (Hne : old <> new) (Hnew : peers d !! new = None) (Hold : peers d !! old = Some r).
Context (Hwf : link_wf d) (Hrot : rotation_done old new pub ts r d d').

Lemma rot_known q : q <> old -> known d q \/ q = new -> known d' q.
Proof.
  intros Hq Hk. unfold known. destruct (decide (q = new)) as [->|Hqn].
  - rewrite (rd_peer _ _ _ _ _ _ _ Hrot). eauto.
  - rewrite (rd_others _ _ _ _ _ _ _ Hrot) by done. by destruct Hk.
Qed.

Lemma not_known_new : ~ known d new.
Proof. intros [x Hx]. congruence. Qed.

Lemma rot_known1 {A} (m m' : gmap pystr A) :
  (m' !! new = m !! old /\ m' !! old = None /\ forall p, p <> old -> p <> new -> m' !! p = m !! p) ->
  (forall p, is_Some (m !! p) -> known d p) -> forall p, is_Some (m' !! p) -> known d' p.
Proof.
  intros (E1 & E2 & E3) Hm p [x Hx]. destruct (decide (p = old)) as [->|]; [congruence|].
  apply rot_known; [done|]. destruct (decide (p = new)) as [->|]; [by right|left].
  apply Hm. rewrite <- E3; eauto.
Qed.

Lemma rot_known2 {A} (m m' : gmap sess_id A) :
  (forall p s, m' !! (p, s) = if decide (p = new) then m !! (old, s)
     else if decide (p = old) then None else m !! (p, s)) ->
  (forall k, is_Some (m !! k) -> known d k.1) -> forall k, is_Some (m' !! k) -> known d' k.1.
Proof.
  intros E Hm [p s] [x Hx]. rewrite E in Hx. cbn. apply rot_known.
  - intros ->. rewrite decide_False in Hx by done. by rewrite decide_True in Hx.
  - destruct (decide (p = new)) as [->|]; [by right|left].
    destruct (decide (p = old)); [done|]. apply (Hm (p, s)). eauto.
Qed.

Lemma rename_known q : known d q -> known d' (rename old new q).
Proof.
  intros Hq. destruct (decide (q = old)) as [->|Hqo].
  - rewrite rename_eq. apply rot_known; [done|by right].
  - rewrite rename_ne by done. apply rot_known; [done|by left].
Qed.

Lemma rename_inj a b : known d a -> known d b -> rename old new a = rename old new b -> a = b.
Proof.
  intros Ha Hb. pose proof not_known_new. unfold rename.
  repeat case_bool_decide; intros; subst; try done; by exfalso.
Qed.

Lemma rotation_wf : link_wf d'.
Proof.
  destruct Hwf. destruct Hrot. split.
  - intros p r'. destruct (decide (p = new)) as [->|].
    { rewrite rd_peer0. intros [= <-]. cbn. eauto. }
    destruct (decide (p = old)) as [->|]; [by rewrite rd_gone0|]. rewrite rd_others0 by done. eauto.
  - eapply rot_known2; eauto.
  - eapply rot_known2; eauto.
  - eapply rot_known1; eauto.
  - rewrite rd_drafts0. apply Forall_map. eapply Forall_impl; [exact wf_drafts_known0|].
    intros x. apply rename_known.
  - rewrite rd_transcript0. apply Forall_map. eapply Forall_impl; [exact wf_transcript_known0|].
    intros x. apply rename_known.
  - eapply rot_known1; eauto.
  - eapply rot_known1; eauto.
  - eapply rot_known1; eauto.
  - eapply rot_known2; eauto.
  - eapply rot_known2; eauto.
  - eapply rot_known2; eauto.
  - eapply rot_known1; eauto.
  - rewrite rd_transcript0. apply Forall_map. rewrite Forall_forall in *.
    intros x Hx. cbn. destruct (wf_high_water0 x Hx) as (h & Hh & Hle). exists h. split; [|done].
    rewrite rd_hw0. pose proof (wf_transcript_known0 x Hx) as Hkx.
    destruct (decide (t_peer x = old)) as [E|E].
    + rewrite E, rename_eq, decide_True by done. by rewrite <- E.
    + rewrite rename_ne by done. rewrite !decide_False; [done..|]. intros E'. apply not_known_new. by rewrite <- E'.
  - rewrite rd_transcript0, map_map. cbn.
    rewrite <- (map_map (fun x => (t_peer x, t_session x, t_seq x))
      (fun k : pystr * pystr * Z => (rename old new k.1.1, k.1.2, k.2))).
    apply (NoDup_fmap_2_strong (fun k : pystr * pystr * Z => (rename old new k.1.1, k.1.2, k.2)));
      [|done].
    intros k1 k2 (x1 & <- & Hx1)%list_elem_of_In%in_map_iff (x2 & <- & Hx2)%list_elem_of_In%in_map_iff.
    cbn. rewrite Forall_forall in wf_transcript_known0.
    intros [= E1 E2 E3]. apply rename_inj in E1; [congruence| |];
      apply wf_transcript_known0; by apply list_elem_of_In.
Qed.
End rotation_wf.

(** A rotation that is refused changes nothing; one that is not keeps the
    database well-formed. *)
Lemma update_peer_identity_wf d p r pub new now :
  link_wf d -> peers d !! p = Some r ->
  link_wf (update_peer_identity p pub new now d).2.
Proof.
  intros Hwf Hr. destruct (decide (new = p)) as [->|Hne].
  - unfold update_peer_identity. rewrite bool_decide_eq_true_2 by done. unfold mbind, M_bind.
    unfold rekey_step, mbind, M_bind, get. unfold rekey1. rewrite lookup_alter_eq, Hr. cbn.
    rewrite bool_decide_eq_true_2 by done. cbn.
    replace (alter _ p (peers d)) with (<[p := rotated pub p (isoformat now) r]> (peers d)).
    + apply wf_insert_peer; [done|]. cbn. by eapply wf_consent.
    + apply map_eq. intros q. destruct (decide (q = p)) as [->|].
      * by rewrite lookup_insert_eq, lookup_alter_eq, Hr.
      * by rewrite lookup_insert_ne, lookup_alter_ne.
  - destruct (peers d !! new) as [x|] eqn:Hx.
    + unfold update_peer_identity. unfold mbind, M_bind, rekey_step at 1, mbind, M_bind, get.
      unfold rekey1 at 1. rewrite lookup_alter_eq, Hr. cbn [fmap option_fmap option_map].
      rewrite bool_decide_eq_false_2 by done. rewrite lookup_alter_ne by done. by rewrite Hx.
    + destruct (update_peer_identity_ok p new pub now d r Hwf Hr Hx) as (d' & -> & Hd').
      cbn. by eapply (rotation_wf p new pub (isoformat now) r d d').
Qed.

(** ** Single operations, run *)
Lemma append_transcript_run p s seq dir t now prov d :
  int64_ok seq = true ->
  append_transcript (Some p) (Some s) seq dir (Some t) now prov d =
    if existsb (same_key p s seq) (transcript d) then (Err IntegrityError, d)
    else (Ok tt, upd_transcript (transcript d ++
        [{| t_peer := p; t_session := s; t_seq := seq; direction := dir;
            t_text := t; provenance := prov; t_ts := isoformat now |}]) d).
Proof.
  intros Hi. unfold append_transcript. rewrite Hi. cbn [negb]. unfold mbind, M_bind, get.
  by destruct (existsb _ _).
Qed.

Lemma set_seq_high_water_run k v d :
  int64_ok v = true ->
  set_seq_high_water (Some k) v d = (Ok tt, upd_seq_high_water (<[k := v]> (seq_high_water d)) d).
Proof. intros Hi. unfold set_seq_high_water. by rewrite Hi. Qed.

(** ** The daily caps as an invariant *)
Definition caps_ok (d : db) : Prop := forall p r, peer_counters d !! p = Some r ->
  (0 <= outbound_count r <= DAILY_OUTBOUND_CAP)%Z /\ (0 <= provider_call_count r <= DAILY_PROVIDER_CAP)%Z.

Definition caps : db -> db -> Prop := keeps caps_ok.

#[export] Instance caps_preorder : PreOrder caps := keeps_preorder caps_ok.

Lemma caps_counts d p today : caps_ok d ->
  (0 <= (counts d p today).1 <= DAILY_OUTBOUND_CAP)%Z /\ (0 <= (counts d p today).2 <= DAILY_PROVIDER_CAP)%Z.
Proof.
  intros Hd. unfold counts, DAILY_OUTBOUND_CAP, DAILY_PROVIDER_CAP in *.
  destruct (peer_counters d !! p) as [r|] eqn:E; [|simpl; lia].
  destruct (Hd p r E). case_bool_decide; simpl; unfold DAILY_OUTBOUND_CAP, DAILY_PROVIDER_CAP in *; lia.
Qed.

Lemma caps_frame f : (forall d, peer_counters (f d) = peer_counters d) -> pres caps (modify f).
Proof. intros Hf. apply pres_modify. intros d Hd p r. rewrite Hf. apply Hd. Qed.

Lemma caps_same d d' : peer_counters d' = peer_counters d -> caps d d'.
Proof. intros E Hd p r. rewrite E. apply Hd. Qed.

Lemma caps_ensure p today : pres caps (ensure_counter_row p today).
Proof.
  intros d Hd. destruct (ensure_counter_row_spec p today d) as (r & _ & Hr & _ & Hc & Hq & _).
  intros q r' Hr'. destruct (decide (q = p)) as [->|Hne].
  - rewrite Hr in Hr'. injection Hr' as <-. pose proof (caps_counts d p today Hd) as Hb. by rewrite <- Hc in Hb.
  - rewrite Hq in Hr' by done. by apply (Hd q).
Qed.

(** A counted change that stays within the caps. *)
Lemma caps_counted p today o n d d' :
  caps_ok d -> counted p today (o, n) d d' -> is_Some (peer_counters d' !! p) ->
  (forall r, peer_counters d' !! p = Some r -> reset_date r = today) ->
  (0 <= o <= DAILY_OUTBOUND_CAP)%Z -> (0 <= n <= DAILY_PROVIDER_CAP)%Z -> caps_ok d'.
Proof.
  intros Hd (Hc & Hq & _) [r0 Hr0] Hdate Ho Hn q r Hr. destruct (decide (q = p)) as [->|Hne].
  - unfold counts in Hc. rewrite Hr, bool_decide_eq_true_2 in Hc by eauto. by simplify_eq.
  - rewrite Hq in Hr by done. by apply (Hd q).
Qed.

Lemma counter_insert_caps p f d r :
  caps_ok d -> peer_counters d !! p = Some r ->
  (0 <= outbound_count (f r) <= DAILY_OUTBOUND_CAP)%Z -> (0 <= provider_call_count (f r) <= DAILY_PROVIDER_CAP)%Z ->
  caps_ok (upd_peer_counters (<[p := f r]> (peer_counters d)) d).
Proof.
  intros Hd Hr Ho Hn q r'. cbn. destruct (decide (q = p)) as [->|].
  - rewrite lookup_insert_eq. by intros [= <-].
  - rewrite lookup_insert_ne by done. apply Hd.
Qed.

Lemma caps_reserve_outbound p today : pres caps (try_reserve_outbound p today DAILY_OUTBOUND_CAP).
Proof.
  unfold try_reserve_outbound. apply pres_bind; [typeclasses eauto|apply caps_ensure|intros _].
  intros d Hd. rewrite bind_run. cbn [get]. destruct (peer_counters d !! p) as [r|] eqn:Hr; [|done].
  destruct (Z.ltb_spec (outbound_count r) DAILY_OUTBOUND_CAP); [|done].
  apply counter_insert_caps; [done|done| |]; destruct (Hd p r Hr); cbn; lia.
Qed.

Lemma caps_reserve_provider p today : pres caps (try_reserve_provider p today DAILY_PROVIDER_CAP).
Proof.
  unfold try_reserve_provider. apply pres_bind; [typeclasses eauto|apply caps_ensure|intros _].
  intros d Hd. rewrite bind_run. cbn [get]. destruct (peer_counters d !! p) as [r|] eqn:Hr; [|done].
  destruct (Z.ltb_spec (provider_call_count r) DAILY_PROVIDER_CAP); [|done].
  apply counter_insert_caps; [done|done| |]; destruct (Hd p r Hr); cbn; lia.
Qed.

Lemma caps_release p today : pres caps (release_provider_slot p today).
Proof.
  unfold release_provider_slot. apply pres_bind; [typeclasses eauto|apply caps_ensure|intros _].
  intros d Hd q r. cbn. destruct (decide (q = p)) as [->|].
  - rewrite lookup_alter_eq. destruct (peer_counters d !! p) as [r0|] eqn:Hr; [|done]. cbn.
    intros [= <-]. destruct (Hd p r0 Hr). cbn. lia.
  - rewrite lookup_alter_ne by done. apply Hd.
Qed.

(** Moving a peer's rows moves its counters unchanged. *)
Lemma caps_rekey_step {A} (proj : db -> A) upd f :
  (forall d x, peer_counters (upd x d) = peer_counters d) -> pres caps (rekey_step proj upd f).
Proof.
  intros Hu d Hd. unfold rekey_step. rewrite bind_run. cbn [get]. destruct (f (proj d)); [|done].
  intros p r. cbn. rewrite Hu. apply Hd.
Qed.

Lemma caps_rekey_counters old new : pres caps (rekey_step peer_counters upd_peer_counters (rekey1 old new)).
Proof.
  intros d Hd. unfold rekey_step. rewrite bind_run. cbn [get]. unfold rekey1.
  destruct (peer_counters d !! old) as [r|] eqn:Hr; [|done]. case_bool_decide; [done|].
  destruct (peer_counters d !! new); [done|]. intros q r'. cbn.
  destruct (decide (q = new)) as [->|].
  - rewrite lookup_insert_eq. intros [= <-]. by apply (Hd old).
  - rewrite lookup_insert_ne, lookup_delete_Some by done. intros [_ Hq]. by apply (Hd q).
Qed.

Lemma caps_update_peer_identity p pub new now : pres caps (update_peer_identity p pub new now).
Proof.
  unfold update_peer_identity.
  repeat (apply pres_bind; [typeclasses eauto|first [by apply caps_rekey_step|apply caps_rekey_counters]|intros _]).
  case_bool_decide; [pres_auto|].
  repeat (apply pres_bind; [typeclasses eauto|first [by apply caps_rekey_step|apply caps_rekey_counters]|intros _]).
  by apply caps_rekey_step.
Qed.

(** ** Properties *)

(** Consent only moves along the legal transitions: after any sequence of
    [set_consent] calls, refused ones included, a peer's state was reached by
    legal steps from where it was; a blocked peer stays blocked, a revoked one can
    only become blocked, and no peer appears or disappears. *)
Theorem consent_machine (calls : list (pystr * pystr * Z)) (d : db) (p : pystr) :
  match consent_of d p, consent_of (set_consents calls d).2 p with
  | Some a, Some b => consent_path a b /\ (a = u "blocked" -> b = u "blocked") /\
      (a = u "revoked" -> b = u "revoked" \/ b = u "blocked")
  | None, None => True
  | _, _ => False
  end.
Proof.
  pose proof (set_consents_path calls d p) as Hp.
  destruct (consent_of d p) as [a|], (consent_of _ p) as [b|]; try done.
  split_and!; [done| |]; intros ->; [by apply consent_path_blocked|by apply consent_path_revoked].
Qed.

(** [k] attempts in a row: how many were granted. *)
Fixpoint reservations (k : nat) (p today : pystr) (cap : Z) (d : db) : Z * db :=
  match k with
  | O => (0%Z, d)
  | S k' =>
      let '(r, d') := try_reserve_outbound p today cap d in
      let '(n, d'') := reservations k' p today cap d' in
      ((match r with Ok true => n + 1 | _ => n end)%Z, d'')
  end.

(** The daily send cap is exact: of any number of attempts on a day exactly as
    many are granted as slots were left, none after, and the day's count ends at
    what was granted on top of what it was. *)
Theorem reservations_exact (k : nat) (p today : pystr) (cap : Z) (d : db) :
  let '(o, n) := counts d p today in
  let '(granted, d') := reservations k p today cap d in
  granted = Z.min (Z.of_nat k) (Z.max 0 (cap - o)) /\ counts d' p today = (o + granted, n)%Z /\
  (forall q, q <> p -> peer_counters d' !! q = peer_counters d !! q).
Proof.
  revert d. induction k as [|k IH]; intros d; cbn [reservations].
  - destruct (counts d p today) as [o n]. split_and!; [lia|f_equal; lia|done].
  - pose proof (try_reserve_outbound_spec p today cap d) as Hs. destruct (counts d p today) as [o n] eqn:Ec.
    destruct Hs as (d1 & -> & Hc1 & Hq1 & _). specialize (IH d1). rewrite Hc1 in IH.
    destruct (reservations k p today cap d1) as [g d2]. destruct IH as (Hg & Hc2 & Hq2).
    destruct (Z.ltb_spec o cap); (split_and!; [lia|rewrite Hc2; f_equal; lia|]);
      intros q Hne; by rewrite Hq2, Hq1.
Qed.

(** Rotating a known peer's key to an unused id succeeds and moves every row of
    the peer in every table to the new id, keeping its consent; nothing stays
    under the old id and nobody else's rows change. *)
Theorem rotation_moves_everything (old new pub : pystr) (now : Z) (d : db) (r : peer_row) :
  link_wf d -> peers d !! old = Some r -> peers d !! new = None ->
  exists d', update_peer_identity old pub new now d = (Ok tt, d') /\
    rotation_done old new pub (isoformat now) r d d' /\ consent_of d' new = consent_of d old.
Proof.
  intros Hwf Hr Hn. destruct (update_peer_identity_ok old new pub now d r Hwf Hr Hn) as (d' & E & Hd).
  exists d'. split_and!; [done|done|]. unfold consent_of. by rewrite (rd_peer _ _ _ _ _ _ _ Hd), Hr.
Qed.

(** Rotating onto another known peer is refused and changes nothing. *)
Theorem rotation_onto_known_refused (old new pub : pystr) (now : Z) (d : db) (r r' : peer_row) :
  old <> new -> peers d !! old = Some r -> peers d !! new = Some r' ->
  update_peer_identity old pub new now d = (Err IntegrityError, d).
Proof.
  intros Hne Hr Hr'. unfold update_peer_identity. rewrite bind_run. unfold rekey_step at 1.
  rewrite bind_run. unfold get. unfold rekey1 at 1. rewrite lookup_alter_eq, Hr. cbn [fmap option_fmap option_map].
  rewrite bool_decide_eq_false_2 by done. rewrite lookup_alter_ne by done. by rewrite Hr'.
Qed.

(** The disclosure budget read is in [0, 1] whatever the row holds (damaged
    stamps, stamps from the future, any number), and it still is after a debit of
    any amount. *)
Theorem budget_in_range `{PyLib} (p : pystr) (amount : float) (now now' : Z) (d : db) :
  let d' := (debit_disclosure_budget p amount now d).2 in
  exists b b', get_disclosure_budget p now d = (Ok b, d) /\ get_disclosure_budget p now' d' = (Ok b', d') /\
    (fle f0 b = true /\ fle b f1 = true) /\ (fle f0 b' = true /\ fle b' f1 = true).
Proof.
  cbv zeta. destruct (get_disclosure_budget_range p now d) as (b & E & Hb).
  destruct (get_disclosure_budget_range p now' (debit_disclosure_budget p amount now d).2) as (b' & E' & Hb').
  by exists b, b'.
Qed.

(** The recent transcript of a peer is rows of that peer only, newest sequence
    number first, at most as many as asked for, and all of them when they fit. *)
Theorem recent_transcript_sorted (p : pystr) (limit : nat) (d : db) :
  exists rows, recent_transcript p limit d = (Ok rows, d) /\ (length rows <= limit)%nat /\
    Forall (fun r => t_peer r = p /\ r ∈ transcript d) rows /\
    Sorted (fun a b => t_seq b <= t_seq a)%Z rows /\
    ((length (filter (fun r => t_peer r = p) (transcript d)) <= limit)%nat ->
       rows ≡ₚ filter (fun r => t_peer r = p) (transcript d)).
Proof.
  unfold recent_transcript, gets. destruct (sorted_rows (filter (fun r => t_peer r = p) (transcript d))) as [Hp Hs].
  set (l := foldl _ _ _) in *. exists (take limit l). split_and!; [done|rewrite length_take; lia| | |].
  - apply Forall_take, Forall_forall. intros r Hr. rewrite Hp in Hr. by apply list_elem_of_filter in Hr.
  - rewrite <- (take_drop limit l) in Hs. clear -Hs. induction (take limit l) as [|x t IH]; [constructor|].
    inversion Hs as [|? ? Hs' Hh]; subst. constructor; [by apply IH|]. destruct t; [constructor|]. by inversion Hh; constructor.
  - intros Hle. rewrite take_ge; [done|]. by rewrite Hp.
Qed.

(** ** Witnesses *)
Definition a_peer (state : pystr) : peer_row :=
  {| identity_pub := u "aa"; p_fingerprint := []; consent_state := state; relay_url := None;
     relay_mailbox := None; p_created_at := []; p_updated_at := []; previous_identity_pub := None |}.
Definition one_peer : db := upd_peers {[ u "kid_a" := a_peer (u "paired") ]} empty_db.

Lemma one_peer_wf : link_wf one_peer.
Proof.
  split; try (intros k [x Hx]; cbn in Hx; by rewrite lookup_empty in Hx); try by constructor.
  intros p r Hp. cbn in Hp. apply lookup_singleton_Some in Hp as [_ <-]. apply mem_spec. reflexivity.
Qed.

Lemma rotation_moves_everything_witness :
  exists d', update_peer_identity (u "kid_a") (u "bb") (u "kid_b") day one_peer = (Ok tt, d') /\
    rotation_done (u "kid_a") (u "kid_b") (u "bb") (isoformat day) (a_peer (u "paired")) one_peer d' /\
    consent_of d' (u "kid_b") = Some (u "paired").
Proof. apply rotation_moves_everything; [exact one_peer_wf|reflexivity|reflexivity]. Defined.

Definition two_peers : db :=
  upd_peers (<[ u "kid_b" := a_peer (u "paused") ]> (peers one_peer)) one_peer.

Lemma rotation_onto_known_refused_witness :
  update_peer_identity (u "kid_a") (u "bb") (u "kid_b") day two_peers = (Err IntegrityError, two_peers).
Proof.
  apply (rotation_onto_known_refused _ _ _ _ _ (a_peer (u "paired")) (a_peer (u "paused")));
    [done|reflexivity|reflexivity].
Defined.
