(* ===== verification/DevRelay.v ===== *)
(** [relay/dev_relay.py]: the store-and-forward relay, as a state machine over
    requests.  A request is what FastAPI hands the endpoint (its typed fields); a
    refusal is [HTTPException].  Theorems: no sequence of requests exceeds the
    caps, an owner once set never changes, deposited mail leaves a mailbox only
    by an acknowledgement its owner signed over a live nonce, and a nonce
    authorises one request. *)
From S2P Require Import Prelude PyFloat PyTime Json Crypto Protocol PyVal LinkStore.

Definition NONCE_TTL_SECONDS : float := fofZ 120.

(** The parameters of [create_app], with its defaults. *)
Record limits := {
  require_auth : bool; max_envelope_bytes : nat; max_queue_depth : nat;
  max_registered_mailboxes : nat; max_unregistered_mailboxes : nat;
  rate_max : Z; rate_window : float }.

Definition default_limits (auth : bool) : limits :=
  {| require_auth := auth; max_envelope_bytes := N.to_nat 65536; max_queue_depth := 256;
     max_registered_mailboxes := N.to_nat 1024; max_unregistered_mailboxes := 256;
     rate_max := 60; rate_window := fofZ 60 |}.

(** A stored envelope with its tracking id. *)
Abbreviation entry := (pystr * json)%type.

(** [_Store] and [_RateLimiter]; [reads] counts the readings of the clock. *)
Record relay := {
  mailboxes : list (json * list entry);
  next_id : Z;
  owners : gmap pystr pystr;
  unregistered : list json;
  nonces : gmap pystr (gmap pystr float);
  buckets : gmap pystr (float * Z);
  reads : nat }.

Definition fresh_relay : relay :=
  {| mailboxes := []; next_id := 1; owners := ∅; unregistered := []; nonces := ∅;
     buckets := ∅; reads := 0 |}.

Definition set_mailboxes x (r : relay) : relay :=
  {| mailboxes := x; next_id := next_id r; owners := owners r; unregistered := unregistered r;
     nonces := nonces r; buckets := buckets r; reads := reads r |}.
Definition set_next_id x (r : relay) : relay :=
  {| mailboxes := mailboxes r; next_id := x; owners := owners r; unregistered := unregistered r;
     nonces := nonces r; buckets := buckets r; reads := reads r |}.
Definition set_owners x (r : relay) : relay :=
  {| mailboxes := mailboxes r; next_id := next_id r; owners := x; unregistered := unregistered r;
     nonces := nonces r; buckets := buckets r; reads := reads r |}.
Definition set_unregistered x (r : relay) : relay :=
  {| mailboxes := mailboxes r; next_id := next_id r; owners := owners r; unregistered := x;
     nonces := nonces r; buckets := buckets r; reads := reads r |}.
Definition set_nonces x (r : relay) : relay :=
  {| mailboxes := mailboxes r; next_id := next_id r; owners := owners r;
     unregistered := unregistered r; nonces := x; buckets := buckets r; reads := reads r |}.
Definition set_buckets x (r : relay) : relay :=
  {| mailboxes := mailboxes r; next_id := next_id r; owners := owners r;
     unregistered := unregistered r; nonces := nonces r; buckets := x; reads := reads r |}.
Definition set_reads x (r : relay) : relay :=
  {| mailboxes := mailboxes r; next_id := next_id r; owners := owners r;
     unregistered := unregistered r; nonces := nonces r; buckets := buckets r; reads := x |}.

Abbreviation R := (M relay).

(** ** Dicts keyed by a JSON value

    A key taken from the dict itself is found by identity, which for NaN is more
    than equality finds. *)
Definition is_nan (v : json) : bool :=
  match v with JFloat f => negb (feq f f) | _ => false end.

Definition same_obj (a b : json) : bool := key_eq a b || (is_nan a && is_nan b).

Definition queue_by (eqb : json -> json -> bool) (k : json) (boxes : list (json * list entry)) : list entry :=
  match List.find (fun kv => eqb k kv.1) boxes with Some kv => kv.2 | None => [] end.

(** [self.mailboxes.get(k, [])]. *)
Definition queue (k : json) (r : relay) : list entry := queue_by key_eq k (mailboxes r).

Definition is_owned (k : json) (r : relay) : bool :=
  match k with JStr s => bool_decide (is_Some (owners r !! s)) | _ => false end.

(** [_is_known]. *)
Definition is_known (k : json) (r : relay) : bool :=
  is_owned k r || existsb (key_eq k) (unregistered r).

Section relay.
Context `{PyLib, Crypto}.
(** The readings of [time.monotonic]. *)
Context (clock : nat -> float).
Context (L : limits).

Definition read_clock : R float :=
  r ← get; modify (set_reads (S (reads r)));; mret (clock (reads r)).

(** ** [_RateLimiter.allow] *)
Definition allow (key : option pystr) (now : float) : R bool :=
  match key with
  | None => mret true
  | Some key =>
      r ← get;
      let live := filter (fun kv => fle (rate_window L) (fsub now kv.2.1) = false) (buckets r) in
      match live !! key with
      | None =>
          modify (set_buckets (<[key := (now, 1%Z)]> live));;
          mret (1 <=? rate_max L)%Z
      | Some (start, n) =>
          modify (set_buckets (<[key := (start, (n + 1)%Z)]> live));;
          mret (n + 1 <=? rate_max L)%Z
      end
  end.

(** [_rate]. *)
Definition rate (host : option pystr) : R unit :=
  now ← read_clock;
  ok ← allow host now;
  if (ok : bool) then mret tt else raise (HTTPException 429).

(** ** Nonces *)
Definition put_live (mailbox_id : pystr) (live : gmap pystr float) (r : relay) : relay :=
  set_nonces (if bool_decide (live = ∅) then delete mailbox_id (nonces r)
              else <[mailbox_id := live]> (nonces r)) r.

Definition prune_nonces (mailbox_id : pystr) : R unit :=
  r ← get;
  match nonces r !! mailbox_id with
  | None => mret tt
  | Some live =>
      if bool_decide (live = ∅) then mret tt else
      now ← read_clock;
      modify (put_live mailbox_id (filter (fun kv => fle kv.2 now = false) live))
  end.

Definition issue_nonce (mailbox_id nonce : pystr) : R unit :=
  prune_nonces mailbox_id;;
  now ← read_clock;
  modify (fun r => set_nonces (<[mailbox_id :=
    <[nonce := fadd now NONCE_TTL_SECONDS]> (default ∅ (nonces r !! mailbox_id))]> (nonces r)) r).

Definition nonce_live (mailbox_id nonce : pystr) : R bool :=
  prune_nonces mailbox_id;;
  gets (fun r => bool_decide (is_Some (default ∅ (nonces r !! mailbox_id) !! nonce))).

Definition discard_nonce (mailbox_id nonce : pystr) : R unit :=
  r ← get;
  match nonces r !! mailbox_id with
  | None => mret tt
  | Some live => modify (put_live mailbox_id (delete nonce live))
  end.

(** ** Mailbox pools *)
Definition store_register (mailbox_id identity_pub : pystr) : R pystr :=
  r ← get;
  match owners r !! mailbox_id with
  | Some owner => mret owner
  | None =>
      if (max_registered_mailboxes L <=? size (owners r))%nat then raise (HTTPException 429) else
      modify (fun r => set_owners (<[mailbox_id := identity_pub]> (owners r))
        (set_unregistered (List.filter (fun k => negb (key_eq k (JStr mailbox_id))) (unregistered r)) r));;
      mret identity_pub
  end.

(** The first unregistered key with no mail, and the keys without it. *)
Fixpoint pick_empty (boxes : list (json * list entry)) (keys : list json) : option (json * list json) :=
  match keys with
  | [] => None
  | k :: keys' =>
      match queue_by same_obj k boxes with
      | [] => Some (k, keys')
      | _ => option_map (fun p => (p.1, k :: p.2)) (pick_empty boxes keys')
      end
  end.

Definition evict_oldest_empty_unregistered : R bool :=
  r ← get;
  match pick_empty (mailboxes r) (unregistered r) with
  | None => mret false
  | Some (k, rest) =>
      modify (fun r => set_nonces
          (match k with JStr s => delete s (nonces r) | _ => nonces r end)
        (set_mailboxes (List.filter (fun kv => negb (same_obj k kv.1)) (mailboxes r))
        (set_unregistered rest r)));;
      mret true
  end.

(** Room for a new unregistered key. *)
Definition make_room : R unit :=
  r ← get;
  if (max_unregistered_mailboxes L <=? length (unregistered r))%nat then
    ok ← evict_oldest_empty_unregistered;
    if (ok : bool) then mret tt else raise (HTTPException 429)
  else mret tt.

Definition store_push (envelope : json) : R pystr :=
  b ← of_res (canonical envelope);
  if (max_envelope_bytes L <? length b)%nat then raise (HTTPException 413) else
  mbx ← of_res (jindex (u "relay_mailbox") envelope);
  if negb (hashable mbx) then raise TypeError else
  r ← get;
  (if is_known mbx r then mret tt else
   make_room;; modify (fun r => set_unregistered (unregistered r ++ [mbx]) r));;
  r ← get;
  if (max_queue_depth L <=? length (queue mbx r))%nat then raise (HTTPException 429) else
  let env_id := u "env_" ++ dec_Z (next_id r) in
  modify (fun r => set_next_id (next_id r + 1)%Z
    (set_mailboxes (dict_update mbx [] (fun q => q ++ [(env_id, envelope)]) (mailboxes r)) r));;
  mret env_id.

Definition store_fetch (mailbox_id : pystr) : R (list entry) := gets (queue (JStr mailbox_id)).

Definition store_ack (mailbox_id : pystr) (env_ids : list pystr) : R unit :=
  modify (fun r => set_mailboxes
    (dict_update (JStr mailbox_id) []
      (List.filter (fun e : entry => negb (mem e.1 env_ids))) (mailboxes r)) r).

(** ** Authentication *)
Record auth_fields := {
  au_nonce : option pystr; au_signature : option pystr; au_identity_pub : option pystr }.

Definition auth_body (mailbox_id nonce : pystr) : json :=
  JObj [(u "purpose", JStr (u "kindled-relay-auth/1")); (u "mailbox", JStr mailbox_id);
        (u "nonce", JStr nonce)].

(** [except ValueError: ok = False]: hex that does not parse. *)
Definition signature_ok (identity_pub signature : pystr) (body : pybytes) : bool :=
  match from_hex identity_pub, from_hex signature with
  | Some pk, Some sg => verify pk sg body
  | _, _ => false
  end.

Definition check_auth (mailbox_id : pystr) (a : auth_fields) : R unit :=
  r ← get;
  match owners r !! mailbox_id, au_nonce a, au_signature a, au_identity_pub a with
  | Some owner, Some nonce, Some signature, Some identity_pub =>
      if negb (bool_decide (identity_pub = owner)) then raise (HTTPException 401) else
      live ← nonce_live mailbox_id nonce;
      if negb live then raise (HTTPException 401) else
      body ← of_res (canonical (auth_body mailbox_id nonce));
      if negb (signature_ok identity_pub signature body) then raise (HTTPException 401) else
      discard_nonce mailbox_id nonce
  | _, _, _, _ => raise (HTTPException 401)
  end.

(** ** The endpoints; [nonce] is the challenge [secrets.token_hex] drew *)
Inductive request :=
| PRegister (mailbox_id identity_pub : pystr)
| PChallenge (mailbox_id nonce : pystr)
| PEnvelope (envelope : json)
| PFetch (mailbox_id : pystr) (a : auth_fields)
| PAck (mailbox_id : pystr) (envelope_ids : list pystr) (a : auth_fields).

Definition entry_json (e : entry) : json := JObj [(u "id", JStr e.1); (u "envelope", e.2)].

Definition endpoint (q : request) : R json :=
  match q with
  | PRegister m pub =>
      owner ← store_register m pub;
      mret (JObj [(u "ok", JBool true); (u "owner", JStr owner)])
  | PChallenge m nonce =>
      r ← get;
      if negb (bool_decide (is_Some (owners r !! m))) then raise (HTTPException 404) else
      issue_nonce m nonce;;
      mret (JObj [(u "nonce", JStr nonce)])
  | PEnvelope env =>
      env_id ← store_push env;
      mret (JObj [(u "id", JStr env_id)])
  | PFetch m a =>
      (if require_auth L then check_auth m a else mret tt);;
      l ← store_fetch m;
      mret (JObj [(u "envelopes", JArr (map entry_json l))])
  | PAck m ids a =>
      (if require_auth L then check_auth m a else mret tt);;
      store_ack m ids;;
      mret (JObj [(u "ok", JBool true)])
  end.

(** Every endpoint is rate-limited by client host first. *)
Definition handle (host : option pystr) (q : request) : R json := rate host;; endpoint q.

(** A run of requests: what a refused or failing one did before it stopped
    stays. *)
Definition serve (qs : list (option pystr * request)) (r : relay) : relay :=
  foldl (fun r q => (handle q.1 q.2 r).2) r qs.
End relay.

(** ** Lemmas *)
Lemma key_eq_str s v : key_eq (JStr s) v = true <-> v = JStr s.
Proof.
  destruct v; simpl; try done.
  rewrite bool_decide_eq_true. split; congruence.
Qed.

Lemma key_eq_str_r s v : key_eq v (JStr s) = true <-> v = JStr s.
Proof.
  destruct v; simpl; try done.
  rewrite bool_decide_eq_true. split; congruence.
Qed.

Lemma SFcompare_eq_sym x y :
  SpecFloat.SFcompare x y = Some Eq -> SpecFloat.SFcompare y x = Some Eq.
Proof.
  assert (forall m m' : positive, Pos.compare_cont Eq m m' = Eq -> Pos.compare_cont Eq m' m = Eq) as Hc.
  { intros m m' H. apply Pos.compare_eq in H as ->. apply Pos.compare_refl. }
  destruct x as [[]|[]| |[] m e], y as [[]|[]| |[] m' e']; simpl; try done.
  all: rewrite (Z.compare_antisym e e'); destruct (Z.compare e e') eqn:E; simpl; try done.
  all: intros [= H].
  all: destruct (Pos.compare_cont Eq m m') eqn:E'; try done; by rewrite (Hc _ _ E').
Qed.

Lemma feq_sym x y : feq x y = feq y x.
Proof.
  apply eq_bool_prop_intro. unfold feq, SpecFloat.SFeqb.
  split; intros H; destruct (SpecFloat.SFcompare _ _) as [[]|] eqn:E in H; try done;
    by rewrite (SFcompare_eq_sym _ _ E).
Qed.

Lemma key_eq_sym a b : key_eq a b = key_eq b a.
Proof.
  destruct a, b; simpl; try reflexivity; try apply Z.eqb_sym; try apply feq_sym.
  apply bool_decide_ext. split; congruence.
Qed.

Lemma same_obj_sym a b : same_obj a b = same_obj b a.
Proof. unfold same_obj. by rewrite key_eq_sym, andb_comm. Qed.

Lemma same_obj_refl v : hashable v = true -> same_obj v v = true.
Proof.
  destruct v; simpl; intros H; try done; unfold same_obj; simpl.
  - by destruct b.
  - by rewrite Z.eqb_refl.
  - destruct (feq f f); done.
  - by rewrite bool_decide_eq_true_2.
Qed.

Lemma same_obj_str s v : same_obj v (JStr s) = true <-> v = JStr s.
Proof. unfold same_obj. simpl. by rewrite andb_false_r, orb_false_r, key_eq_str_r. Qed.

(** *** A dict after an update of one key *)
Lemma dict_update_Forall {A} (P : json * A -> Prop) k zero f (d : list (json * A)) :
  Forall P d -> P (k, f zero) ->
  (forall k' a, List.find (fun kv => key_eq k kv.1) d = Some (k', a) -> P (k', a) -> P (k', f a)) ->
  Forall P (dict_update k zero f d).
Proof.
  induction 1 as [|[k' a] d Hp Hd IH]; intros Hz Hf; cbn -[key_eq] in *.
  - by repeat constructor.
  - destruct (key_eq k k') eqn:E.
    + constructor; [|done]. by apply Hf.
    + constructor; [done|]. by apply IH.
Qed.

Lemma find_none {A} (p : A -> bool) l : Forall (fun x => p x = false) l -> List.find p l = None.
Proof. induction 1 as [|x l Hx Hl IH]; simpl; [done|]. by rewrite Hx. Qed.

Lemma queue_update_eq m f boxes :
  queue_by key_eq (JStr m) (dict_update (JStr m) [] f boxes) =
    f (queue_by key_eq (JStr m) boxes).
Proof.
  unfold queue_by. induction boxes as [|[k a] d IH]; cbn -[key_eq].
  - by rewrite (proj2 (key_eq_str m (JStr m))).
  - destruct (key_eq (JStr m) k) eqn:E; cbn -[key_eq]; rewrite E; [done|]. exact IH.
Qed.

Lemma queue_update_ne m k f boxes :
  k <> JStr m ->
  queue_by key_eq (JStr m) (dict_update k [] f boxes) = queue_by key_eq (JStr m) boxes.
Proof.
  intros Hk. unfold queue_by.
  assert (key_eq (JStr m) k = false) as Hf.
  { apply not_true_iff_false. rewrite key_eq_str. congruence. }
  induction boxes as [|[k' a] d IH]; cbn -[key_eq].
  - by rewrite Hf.
  - destruct (key_eq k k') eqn:E; cbn -[key_eq]; destruct (key_eq (JStr m) k') eqn:E'; try done.
    apply key_eq_str in E' as ->. apply key_eq_str_r in E. done.
Qed.

Lemma queue_filter m (p : json -> bool) boxes :
  p (JStr m) = true ->
  queue_by key_eq (JStr m) (List.filter (fun kv => p kv.1) boxes) = queue_by key_eq (JStr m) boxes.
Proof.
  intros Hp. unfold queue_by. induction boxes as [|[k a] d IH]; cbn -[key_eq]; [done|].
  destruct (p k) eqn:E; cbn -[key_eq]; destruct (key_eq (JStr m) k) eqn:E'; try done.
  apply key_eq_str in E' as ->. congruence.
Qed.

Lemma queue_filter_out m (p : json -> bool) (boxes : list (json * list entry)) :
  p (JStr m) = false -> queue_by key_eq (JStr m) (List.filter (fun kv => p kv.1) boxes) = [].
Proof.
  intros Hp. unfold queue_by. rewrite find_none; [done|].
  apply Forall_forall. intros [k a] Hin%list_elem_of_In%filter_In. destruct Hin as [_ Hk]. cbn -[key_eq] in *.
  apply not_true_iff_false. intros ->%key_eq_str. congruence.
Qed.

Lemma queue_by_in k boxes q :
  queue_by key_eq k boxes = q -> q <> [] -> exists k', (k', q) ∈ boxes.
Proof.
  unfold queue_by. intros Hq Hne. destruct (List.find _ _) as [[k' q']|] eqn:E; [|congruence].
  simpl in *. subst. apply find_some in E as [E _]. exists k'. by apply list_elem_of_In.
Qed.

(** *** Picking a key to evict *)
Lemma pick_empty_spec boxes keys k rest :
  pick_empty boxes keys = Some (k, rest) ->
  queue_by same_obj k boxes = [] /\ k ∈ keys /\ length keys = S (length rest) /\
  (forall x, x ∈ keys -> x = k \/ x ∈ rest) /\ (forall x, x ∈ rest -> x ∈ keys).
Proof.
  revert k rest. induction keys as [|x keys IH]; intros k rest; simpl; [done|].
  destruct (queue_by same_obj x boxes) eqn:Eq.
  - intros [= -> ->]. split_and!; [done|by left|done| |].
    + intros y Hy. by apply elem_of_cons in Hy.
    + intros y Hy. by right.
  - destruct (pick_empty boxes keys) as [[k' r']|] eqn:E; [|done]. simpl. intros [= -> <-].
    destruct (IH _ _ eq_refl) as (H1 & H2 & H3 & H4 & H5). split_and!; [done|by right|simpl; lia| |].
    + intros y [->|Hy]%elem_of_cons; [right; by left|]. destruct (H4 y Hy); [by left|right; by right].
    + intros y [->|Hy]%elem_of_cons; [by left|right; auto].
Qed.

(** *** Operations that leave the mail and the pools alone *)
Definition same_mail (r r' : relay) : Prop :=
  mailboxes r' = mailboxes r /\ owners r' = owners r /\ unregistered r' = unregistered r.

#[export] Instance same_mail_preorder : PreOrder same_mail.
Proof.
  split; [by intros r; split_and!|].
  intros a b c (?&?&?) (?&?&?). split_and!; congruence.
Qed.

Create HintDb relay discriminated.

Section relay_lemmas.
Context `{PyLib, Crypto}.
Context (clock : nat -> float) (L : limits).

Lemma mail_modify f : (forall r, same_mail r (f r)) -> pres same_mail (modify f).
Proof. by apply pres_modify. Qed.

Lemma mail_read_clock : pres same_mail (read_clock clock).
Proof. unfold read_clock. pres_auto. by apply mail_modify. Qed.

Lemma mail_rate host : pres same_mail (rate clock L host).
Proof.
  unfold rate, allow. apply pres_bind; [typeclasses eauto|apply mail_read_clock|intros now].
  destruct host; pres_auto; by apply mail_modify.
Qed.

Lemma mail_put_live m live : pres same_mail (modify (put_live m live)).
Proof. by apply mail_modify. Qed.

Lemma mail_prune m : pres same_mail (prune_nonces clock m).
Proof.
  unfold prune_nonces. pres_auto; [apply mail_read_clock|apply mail_put_live].
Qed.

Lemma mail_issue m n : pres same_mail (issue_nonce clock m n).
Proof.
  unfold issue_nonce. pres_auto; [apply mail_prune|apply mail_read_clock|by apply mail_modify].
Qed.

Lemma mail_check_auth m a : pres same_mail (check_auth clock m a).
Proof.
  unfold check_auth, nonce_live, discard_nonce.
  pres_auto; [apply mail_prune|apply mail_put_live].
Qed.

(** Leaving a mailbox's live nonces behind. *)
Lemma put_live_lookup m m' live r :
  default ∅ (nonces (put_live m live r) !! m') =
    if decide (m' = m) then live else default ∅ (nonces r !! m').
Proof.
  unfold put_live. cbn. case_bool_decide as E; destruct (decide (m' = m)) as [->|Hne]; subst.
  - by rewrite lookup_delete_eq.
  - by rewrite lookup_delete_ne.
  - by rewrite lookup_insert_eq.
  - by rewrite lookup_insert_ne.
Qed.

Definition live_nonce (m n : pystr) (r : relay) : option float :=
  default ∅ (nonces r !! m) !! n.

Lemma prune_nonces_spec m r :
  exists r', prune_nonces clock m r = (Ok tt, r') /\
    (forall m' n, m' <> m -> live_nonce m' n r' = live_nonce m' n r) /\
    (forall n, live_nonce m n r' =
       x ← live_nonce m n r; if fle x (clock (reads r)) then None else Some x).
Proof.
  unfold prune_nonces, live_nonce. munfold.
  destruct (nonces r !! m) as [live|] eqn:E; [case_bool_decide as Hl|].
  - subst live. eexists. split; [done|]. split; [done|]. intros n. rewrite E. simpl. by rewrite !lookup_empty.
  - unfold read_clock. munfold. eexists. split; [done|]. split.
    + intros m' n Hne. rewrite put_live_lookup. by rewrite decide_False.
    + intros n. rewrite put_live_lookup. rewrite decide_True by done. simpl.
      apply option_eq. intros x. rewrite map_lookup_filter_Some.
      destruct (live !! n) as [y|]; simpl; [|by split; [intros [? _]|]].
      destruct (fle y (clock (reads r))) eqn:Ey; split;
        [intros [[= ->] ?]; congruence|done|by intros [[= ->] ?]|by intros [= ->]].
  - eexists. split; [done|]. split; [done|]. intros n. rewrite E. simpl. by rewrite !lookup_empty.
Qed.

(** What a request that passed authentication proves. *)
Record authorised (m : pystr) (a : auth_fields) (r : relay) : Prop := {
  az_fields : exists owner nonce signature body,
    owners r !! m = Some owner /\ au_identity_pub a = Some owner /\
    au_nonce a = Some nonce /\ au_signature a = Some signature /\
    (exists exp, live_nonce m nonce r = Some exp /\ fle exp (clock (reads r)) = false) /\
    canonical (auth_body m nonce) = Ok body /\ signature_ok owner signature body = true
}.

Lemma check_auth_ok m a r r' :
  check_auth clock m a r = (Ok tt, r') ->
  authorised m a r /\ same_mail r r' /\
  (forall n, au_nonce a = Some n -> live_nonce m n r' = None) /\
  (forall m' n, live_nonce m' n r = None -> live_nonce m' n r' = None).
Proof.
  intros Hc. assert (same_mail r r') as Hm by (pose proof (mail_check_auth m a r) as X; by rewrite Hc in X).
  revert Hc. unfold check_auth. cbn -[nonce_live].
  unfold mbind, M_bind, get. destruct (owners r !! m) as [owner|] eqn:Ho; [|done].
  destruct (au_nonce a) as [n|] eqn:Hn; [|done]. destruct (au_signature a) as [sg|] eqn:Hs; [|done].
  destruct (au_identity_pub a) as [ip|] eqn:Hi; [|done].
  case_bool_decide as Hip; [subst ip|done]. cbn [negb].
  unfold nonce_live. unfold mbind, M_bind, gets.
  destruct (prune_nonces_spec m r) as (r1 & -> & Hne & Heq). unfold of_res.
  pose proof (Heq n) as Heqn. unfold live_nonce in Heqn at 1.
  destruct (default ∅ (nonces r1 !! m) !! n) as [x|] eqn:E; [|by rewrite bool_decide_eq_false_2 by (intros [? ?]; done)].
  rewrite bool_decide_eq_true_2 by eauto. cbn [negb].
  destruct (canonical (auth_body m n)) as [body|e] eqn:Hb; [|done].
  destruct (signature_ok owner sg body) eqn:Hok; [|done]. cbn [negb]. intros Hd.
  assert (live_nonce m n r = Some x /\ fle x (clock (reads r)) = false) as [Hx1 Hx2].
  { destruct (live_nonce m n r) as [y|]; simpl in Heqn; [|done].
    destruct (fle y _) eqn:Ey; [done|]. by simplify_eq. }
  assert (forall m' n', (m' = m /\ n' = n) \/ live_nonce m' n' r1 = None -> live_nonce m' n' r' = None) as Hgone.
  { unfold discard_nonce, mbind, M_bind, get, modify in Hd. destruct (nonces r1 !! m) as [live|] eqn:El.
    - injection Hd as <-. intros m' n' Hor. unfold live_nonce. rewrite put_live_lookup.
      destruct (decide (m' = m)) as [->|Hm'].
      + destruct (decide (n' = n)) as [->|Hn']; [apply lookup_delete_eq|].
        rewrite lookup_delete_ne by done. destruct Hor as [[_ ?]|Hor]; [done|].
        unfold live_nonce in Hor. by rewrite El in Hor.
      + destruct Hor as [[? _]|Hor]; done.
    - simpl in E. by rewrite lookup_empty in E. }
  split_and!; [|done| |].
  - split. exists owner, n, sg, body. split_and!; eauto.
  - intros n' [= <-]. apply Hgone. by left.
  - intros m' n' Hnone. apply Hgone. right. destruct (decide (m' = m)) as [->|Hm'].
    + by rewrite Heq, Hnone.
    + by rewrite Hne.
Qed.

(** *** The caps *)
Definition small (env : json) : Prop :=
  exists b, canonical env = Ok b /\ (length b <= max_envelope_bytes L)%nat.

Definition box_ok (b : json * list entry) : Prop :=
  (length b.2 <= max_queue_depth L)%nat /\ Forall (fun e : entry => small e.2) b.2.

(** With authentication on, a mailbox is in one of the two bounded pools. *)
Definition pooled (r : relay) (k : json) : Prop :=
  is_owned k r = true \/ exists k', k' ∈ unregistered r /\ same_obj k k' = true.

Record relay_ok (r : relay) : Prop := {
  ok_boxes : Forall box_ok (mailboxes r);
  ok_owners : (size (owners r) <= max_registered_mailboxes L)%nat;
  ok_unregistered : (length (unregistered r) <= max_unregistered_mailboxes L)%nat;
  ok_pooled : require_auth L = true -> Forall (fun kv => pooled r kv.1) (mailboxes r);
}.

Lemma relay_ok_same r r' : same_mail r r' -> relay_ok r -> relay_ok r'.
Proof.
  intros (Hm & Ho & Hu) [K1 K2 K3 K4]. split; [by rewrite Hm|by rewrite Ho|by rewrite Hu|].
  intros Ha. rewrite Hm. eapply Forall_impl; [by apply K4|].
  intros kv. unfold pooled, is_owned. by rewrite Ho, Hu.
Qed.

Lemma keeps_ok_same {A} (m : M relay A) : pres same_mail m -> pres (keeps relay_ok) m.
Proof. intros Hm r Hr. eapply relay_ok_same; [apply Hm|done]. Qed.

Lemma queue_box_ok k r :
  relay_ok r -> hashable k = true -> Forall (fun e : entry => small e.2) (queue k r).
Proof.
  intros Hr _. unfold queue, queue_by. destruct (List.find _ _) as [[k' q]|] eqn:E; [|done].
  apply find_some in E as [E%list_elem_of_In _].
  pose proof (proj1 (Forall_forall _ _) (ok_boxes r Hr) _ E) as [_ Hq]. exact Hq.
Qed.

Lemma register_ok m pub : pres (keeps relay_ok) (store_register L m pub).
Proof.
  unfold store_register. intros r Hr. unfold mbind, M_bind, get.
  destruct (owners r !! m) eqn:Ho; [done|].
  destruct (Nat.leb_spec (max_registered_mailboxes L) (size (owners r))); [done|].
  destruct Hr as [K1 K2 K3 K4]. split; cbn.
  - done.
  - rewrite map_size_insert_None by done. lia.
  - etrans; [|exact K3]. apply filter_length_le.
  - intros Ha. eapply Forall_impl; [by apply K4|]. intros [k q]. cbn. unfold pooled, is_owned. cbn.
    intros [Hk|(k' & Hin & Hs)].
    + left. destruct k; try done. destruct (decide (s = m)) as [->|].
      * by rewrite lookup_insert_eq.
      * by rewrite lookup_insert_ne.
    + destruct (key_eq k' (JStr m)) eqn:E.
      * apply key_eq_str_r in E as ->. apply same_obj_str in Hs as ->. left.
        by rewrite lookup_insert_eq.
      * right. exists k'. split; [|done]. apply list_elem_of_In, filter_In.
        split; [by apply list_elem_of_In|]. by rewrite E.
Qed.

Lemma queue_same_obj m boxes : queue_by same_obj (JStr m) boxes = queue_by key_eq (JStr m) boxes.
Proof.
  unfold queue_by. induction boxes as [|[k q] d IH]; cbn -[key_eq same_obj]; [done|].
  unfold same_obj at 1. cbn -[key_eq same_obj]. rewrite orb_false_r. by destruct (key_eq (JStr m) k).
Qed.

(** What making room may cost: an unregistered mailbox with no mail. *)
Lemma make_room_spec r :
  relay_ok r ->
  (exists r', make_room L r = (Ok tt, r') /\ relay_ok r' /\ owners r' = owners r /\
     (length (unregistered r') < max_unregistered_mailboxes L)%nat /\
     forall m, queue (JStr m) r' = queue (JStr m) r)
  \/ make_room L r = (Err (HTTPException 429), r).
Proof.
  intros Hr. unfold make_room, evict_oldest_empty_unregistered. unfold mbind, M_bind, get, modify.
  destruct (Nat.leb_spec (max_unregistered_mailboxes L) (length (unregistered r))) as [Hle|Hlt].
  2: { left. exists r. by split_and!. }
  destruct (pick_empty (mailboxes r) (unregistered r)) as [[k rest]|] eqn:E; [left|by right].
  destruct (pick_empty_spec _ _ _ _ E) as (Hq & Hin & Hlen & Hor & Hsub).
  destruct Hr as [K1 K2 K3 K4]. eexists. split; [reflexivity|]. split_and!; [split| | |]; cbn.
  - apply Forall_forall. intros kv [Hkv _]%list_elem_of_In%filter_In.
    by apply (proj1 (Forall_forall _ _) K1), list_elem_of_In.
  - done.
  - lia.
  - intros Ha. apply Forall_forall. intros kv [Hkv Hs]%list_elem_of_In%filter_In.
    apply negb_true_iff in Hs. specialize (K4 Ha). rewrite Forall_forall in K4.
    destruct (K4 kv) as [Ho|(k' & Hk' & Hsame)]; [by apply list_elem_of_In|by left|].
    right. exists k'. split; [|done]. destruct (Hor k' Hk') as [->|]; [|done].
    rewrite same_obj_sym in Hsame. congruence.
  - done.
  - lia.
  - intros m. unfold queue. cbn. destruct (same_obj k (JStr m)) eqn:Es.
    + rewrite (queue_filter_out m (fun x => negb (same_obj k x))) by (by rewrite Es).
      apply same_obj_str in Es as ->. by rewrite queue_same_obj in Hq.
    + apply (queue_filter m (fun x => negb (same_obj k x))). by rewrite Es.
Qed.

(** A push that succeeds appends to its mailbox and touches no other. *)
Local Ltac solve_same :=
  eexists _, _; split; [reflexivity|]; split; [assumption|intros ?; left; reflexivity].

Lemma store_push_spec env r :
  relay_ok r ->
  exists out r', store_push L env r = (out, r') /\ relay_ok r' /\
  (forall m, queue (JStr m) r' = queue (JStr m) r \/
    exists i, out = Ok i /\ jget (u "relay_mailbox") env = Some (JStr m) /\
      queue (JStr m) r' = queue (JStr m) r ++ [(i, env)]).
Proof.
  intros Hr. unfold store_push. unfold mbind at 1, M_bind at 1, of_res.
  destruct (canonical env) as [b|e] eqn:Hb; [|solve_same].
  destruct (Nat.ltb_spec (max_envelope_bytes L) (length b)) as [|Hsz]; [solve_same|].
  unfold mbind at 1, M_bind at 1. destruct (jindex (u "relay_mailbox") env) as [mbx|e] eqn:Hm; [|solve_same].
  destruct (hashable mbx) eqn:Hh; [cbn [negb]|solve_same].
  unfold mbind at 1, M_bind at 1, get at 1.
  set (place := if is_known mbx r then mret tt else _).
  assert (exists res r1, place r = (res, r1) /\ relay_ok r1 /\ (forall m, queue (JStr m) r1 = queue (JStr m) r) /\
    (res = Ok tt -> pooled r1 mbx)) as (res & r1 & Hpl & Hr1 & Hq1 & Hp1).
  { unfold place. destruct (is_known mbx r) eqn:Hk.
    - eexists _, r. split; [reflexivity|]. split_and!; [done|done|]. intros _.
      unfold is_known in Hk. apply orb_true_iff in Hk as [Hk|Hk]; [by left|right].
      apply existsb_exists in Hk as (k' & Hin & He). exists k'. split; [by apply list_elem_of_In|].
      unfold same_obj. by rewrite He.
    - destruct (make_room_spec r Hr) as [(r1 & Hmr & Hr1 & Ho & Hlt & Hq)|Hmr];
        unfold mbind, M_bind, modify; rewrite Hmr.
      + eexists _, _. split; [reflexivity|]. split_and!.
        * destruct Hr1 as [K1 K2 K3 K4]. split; cbn; [done|done|rewrite length_app; simpl; lia|].
          intros Ha. eapply Forall_impl; [by apply K4|]. intros kv [|(k' & ? & ?)]; [by left|right].
          exists k'. cbn. by rewrite elem_of_app; eauto.
        * exact Hq.
        * intros _. right. exists mbx. cbn. rewrite elem_of_app, list_elem_of_singleton.
          split; [by right|]. by apply same_obj_refl.
      + eexists _, _. split; [reflexivity|]. by split_and!. }
  clearbody place. unfold mbind at 1, M_bind at 1. rewrite Hpl. destruct res as [[]|e].
  2: { eexists _, r1. split; [reflexivity|]. split; [done|]. intros m. left. apply Hq1. }
  unfold mbind at 1, M_bind at 1, get.
  destruct (Nat.leb_spec (max_queue_depth L) (length (queue mbx r1))) as [|Hd].
  { eexists _, r1. split; [reflexivity|]. split; [done|]. intros m. left. apply Hq1. }
  unfold mbind, M_bind, modify. eexists _, _. split; [reflexivity|]. split.
  - destruct Hr1 as [K1 K2 K3 K4]. split; cbn -[key_eq]; [|done|done|].
    + apply dict_update_Forall; [done| |].
      * split; simpl; [|constructor; [by exists b|constructor]]. unfold queue in Hd. lia.
      * intros k' a Hf [H1 H2]. unfold queue, queue_by in Hd. rewrite Hf in Hd. cbn in *.
        split; cbn; [rewrite length_app; simpl; lia|]. apply Forall_app. split; [done|].
        constructor; [by exists b|constructor].
    + intros Ha. apply dict_update_Forall; [by apply K4|by apply Hp1|done].
  - intros m. destruct (key_eq mbx (JStr m)) eqn:Ek; [apply key_eq_str_r in Ek as ->|].
    + right. eexists. split; [done|]. split.
      * unfold jindex in Hm. destruct (jget _ _); simpl in Hm; congruence.
      * unfold queue. cbn -[key_eq]. rewrite queue_update_eq. fold (queue (JStr m) r1). by rewrite Hq1.
    + left. unfold queue. cbn -[key_eq]. rewrite queue_update_ne; [apply Hq1|].
      intros ->. by rewrite (proj2 (key_eq_str m _)) in Ek.
Qed.

Lemma store_ack_ok m ids r :
  relay_ok r -> (require_auth L = true -> is_Some (owners r !! m)) -> relay_ok (store_ack m ids r).2.
Proof.
  intros [K1 K2 K3 K4] Ho. split; cbn -[key_eq]; [|done|done|].
  - apply dict_update_Forall; [done| |].
    + split; simpl; [lia|done].
    + intros k q _ [Hd Hs]. cbn in *. split; cbn.
      * etrans; [apply filter_length_le|done].
      * apply Forall_forall. intros e [He _]%list_elem_of_In%filter_In.
        rewrite Forall_forall in Hs. by apply Hs, list_elem_of_In.
  - intros Ha. apply dict_update_Forall; [by apply K4| |done].
    left. cbn. rewrite bool_decide_eq_true. by apply Ho.
Qed.

(** The owner of a mailbox passed the check, or no check was asked for. *)
Lemma guard_spec m a r :
  exists out r', (if require_auth L then check_auth clock m a else mret tt) r = (out, r') /\
    same_mail r r' /\ (out = Ok tt -> require_auth L = true -> authorised m a r).
Proof.
  destruct (require_auth L).
  - destruct (check_auth clock m a r) as [out r'] eqn:E. exists out, r'. split; [done|]. split.
    + pose proof (mail_check_auth m a r) as X. by rewrite E in X.
    + intros -> _. by apply check_auth_ok in E as [? _].
  - eexists _, r. split; [reflexivity|]. by split.
Qed.

Lemma authorised_owner m a r : authorised m a r -> is_Some (owners r !! m).
Proof. intros [(o & _ & _ & _ & Ho & _)]. eauto. Qed.

(** What an endpoint does to the mail of [m]. *)
Definition mail_step (m : pystr) (q : request) (r r' : relay) : Prop :=
  queue (JStr m) r `prefix_of` queue (JStr m) r' \/
  exists ids a, q = PAck m ids a /\ (require_auth L = true -> authorised m a r) /\
    queue (JStr m) r' = List.filter (fun e : entry => negb (mem e.1 ids)) (queue (JStr m) r).

Lemma mail_step_same m q r r' : same_mail r r' -> mail_step m q r r'.
Proof. intros (Hb & _). left. unfold queue. by rewrite Hb. Qed.

Lemma endpoint_spec q r :
  relay_ok r -> relay_ok (endpoint clock L q r).2 /\ forall m, mail_step m q r (endpoint clock L q r).2.
Proof.
  intros Hr. destruct q as [m' pub|m' nonce|env|m' a|m' ids a].
  - pose proof (register_ok m' pub r Hr) as Hk.
    assert (mailboxes (store_register L m' pub r).2 = mailboxes r) as Hb.
    { unfold store_register. munfold. destruct (owners r !! m'); [done|]. by case_match. }
    unfold endpoint. unfold mbind, M_bind. destruct (store_register L m' pub r) as [[o|e] r1]; cbn in *;
      (split; [done|]); intros m; left; unfold queue; by rewrite Hb.
  - assert (pres same_mail (endpoint clock L (PChallenge m' nonce))) as Hs.
    { unfold endpoint. pres_auto. apply mail_issue. }
    split; [|intros m; apply mail_step_same, Hs]. eapply relay_ok_same; [apply Hs|done].
  - destruct (store_push_spec env r Hr) as (out & r1 & E & Hr1 & Hq).
    unfold endpoint. unfold mbind, M_bind. rewrite E.
    assert (forall m, mail_step m (PEnvelope env) r r1) as Hms.
    { intros m. left. destruct (Hq m) as [->|(i & _ & _ & ->)]; [done|by eexists]. }
    destruct out; cbn; by split.
  - destruct (guard_spec m' a r) as (out & r1 & E & Hs & _).
    assert ((endpoint clock L (PFetch m' a) r).2 = r1) as ->.
    { unfold endpoint. unfold mbind, M_bind. rewrite E. by destruct out. }
    split; [by apply (relay_ok_same r)|intros m; by apply mail_step_same].
  - destruct (guard_spec m' a r) as (out & r1 & E & Hs & Haz).
    unfold endpoint. unfold mbind, M_bind. rewrite E. destruct out as [[]|e].
    2: { split; [by apply (relay_ok_same r)|intros m; by apply mail_step_same]. }
    cbn [fst snd]. specialize (Haz eq_refl). pose proof Hs as (Hb & Ho & _). split.
    + apply store_ack_ok; [by apply (relay_ok_same r)|]. intros Ha. rewrite Ho.
      eapply authorised_owner. by apply Haz.
    + intros m. destruct (decide (m = m')) as [->|Hne].
      * right. exists ids, a. split; [done|]. split; [done|].
        unfold queue. cbn -[key_eq]. by rewrite queue_update_eq, Hb.
      * left. unfold queue. cbn -[key_eq]. rewrite queue_update_ne by congruence. by rewrite Hb.
Qed.

(** One request: the caps hold after it, and each text mailbox keeps its mail in
    order unless an authorised acknowledgement removed it. *)
Lemma handle_spec host q r :
  relay_ok r ->
  relay_ok (handle clock L host q r).2 /\
  forall m, exists r0, same_mail r r0 /\ mail_step m q r0 (handle clock L host q r).2.
Proof.
  intros Hr. pose proof (mail_rate host r) as Hm. unfold handle. unfold mbind, M_bind.
  destruct (rate clock L host r) as [[[]|e] r0]; cbn [fst snd] in *.
  - destruct (endpoint_spec q r0) as [Hk Hq]; [by apply (relay_ok_same r)|].
    split; [done|]. intros m. by exists r0.
  - split; [by apply (relay_ok_same r)|]. intros m. exists r0. split; [done|]. by apply mail_step_same.
Qed.

Lemma serve_ok qs r : relay_ok r -> relay_ok (serve clock L qs r).
Proof.
  revert r. induction qs as [|q qs IH]; intros r Hr; [done|]. apply IH, (handle_spec q.1 q.2 r Hr).
Qed.

Lemma fresh_relay_ok : relay_ok fresh_relay.
Proof. split; cbn; [constructor|rewrite map_size_empty; lia|lia|constructor]. Qed.

(** *** Owners and nonces through a run *)
Definition owner_kept (r r' : relay) : Prop :=
  forall m o, owners r !! m = Some o -> owners r' !! m = Some o.

#[export] Instance owner_kept_preorder : PreOrder owner_kept.
Proof. split; [by intros r m o|]. intros a b c K1 K2 m o Ho. by apply K2, K1. Qed.

Lemma same_owner_kept {A} (m : M relay A) : pres same_mail m -> pres owner_kept m.
Proof. intros Hm r k o Ho. destruct (Hm r) as (_ & E & _). by rewrite E. Qed.

Lemma register_owner_kept m pub : pres owner_kept (store_register L m pub).
Proof.
  intros r k o Ho. unfold store_register. munfold. destruct (owners r !! m) eqn:E; [done|].
  case_match; [done|]. cbn. rewrite lookup_insert_ne; [done|congruence].
Qed.

Lemma push_owner_kept env : pres owner_kept (store_push L env).
Proof.
  unfold store_push, make_room, evict_oldest_empty_unregistered.
  pres_auto; apply pres_modify; by intros r k o.
Qed.

Lemma handle_owner_kept host q : pres owner_kept (handle clock L host q).
Proof.
  unfold handle. pres_auto; [apply same_owner_kept, mail_rate|].
  destruct q; unfold endpoint; pres_auto;
    try (apply same_owner_kept; first [apply mail_issue|apply mail_check_auth]).
  - apply register_owner_kept.
  - apply push_owner_kept.
  - apply pres_modify. by intros r k o.
Qed.

(** A nonce that is spent stays spent until it is issued again. *)
Definition spent (m n : pystr) : relay -> relay -> Prop := keeps (fun r => live_nonce m n r = None).

Lemma same_nonces_spent m n f : (forall r, nonces (f r) = nonces r) -> pres (spent m n) (modify f).
Proof. intros Hf. apply pres_modify. intros r Hr. unfold live_nonce in *. by rewrite Hf. Qed.

Lemma rate_spent m n host : pres (spent m n) (rate clock L host).
Proof.
  unfold rate, allow, read_clock. pres_auto; by apply same_nonces_spent.
Qed.

Lemma prune_spent m n m' : pres (spent m n) (prune_nonces clock m').
Proof.
  intros r Hr. destruct (prune_nonces_spec m' r) as (r1 & E & K1 & K2). rewrite E. cbn.
  destruct (decide (m = m')) as [->|]; [by rewrite K2, Hr|by rewrite K1].
Qed.

Lemma issue_spent m n m' n' : (m', n') <> (m, n) -> pres (spent m n) (issue_nonce clock m' n').
Proof.
  intros Hne. unfold issue_nonce, read_clock. pres_auto; [apply prune_spent|by apply same_nonces_spent|].
  apply pres_modify. intros r Hr. unfold live_nonce in *. cbn -[lookup].
  destruct (decide (m' = m)) as [->|].
  - rewrite lookup_insert_eq. simpl. by rewrite lookup_insert_ne by congruence.
  - by rewrite lookup_insert_ne.
Qed.

Lemma check_auth_spent m n m' a : pres (spent m n) (check_auth clock m' a).
Proof.
  unfold check_auth, nonce_live. pres_auto; [apply prune_spent|].
  intros r Hr. unfold discard_nonce. munfold. destruct (nonces r !! m') as [live|] eqn:E; [|done].
  unfold live_nonce in *. cbn -[put_live]. rewrite put_live_lookup. case_decide; subst; [|done].
  rewrite E in Hr. simpl in Hr. apply lookup_delete_None. by right.
Qed.

Lemma push_spent m n env : pres (spent m n) (store_push L env).
Proof.
  unfold store_push, make_room, evict_oldest_empty_unregistered. pres_auto; try by apply same_nonces_spent.
  apply pres_modify. intros r Hr. destruct j; try done. unfold live_nonce in *. cbn -[lookup].
  destruct (decide (m = s)) as [->|]; [by rewrite lookup_delete_eq|by rewrite lookup_delete_ne].
Qed.

Lemma handle_spent m n host q :
  q <> PChallenge m n -> pres (spent m n) (handle clock L host q).
Proof.
  intros Hq. unfold handle. pres_auto; [apply rate_spent|].
  destruct q; unfold endpoint; pres_auto; try apply check_auth_spent.
  - unfold store_register. pres_auto. by apply same_nonces_spent.
  - apply issue_spent. congruence.
  - apply push_spent.
  - by apply same_nonces_spent.
Qed.

Lemma serve_pres (R : relay -> relay -> Prop) `{!PreOrder R} (P : request -> Prop) qs r :
  (forall host q, P q -> pres R (handle clock L host q)) -> Forall (fun q => P q.2) qs ->
  R r (serve clock L qs r).
Proof.
  intros Hh Hqs. revert r. induction Hqs as [|q qs Hq _ IH]; intros r; [done|].
  etrans; [|apply IH]. by apply Hh.
Qed.
End relay_lemmas.

(** ** Properties *)
Section relay_properties.
Context `{PyLib, Crypto}.

(** Whatever requests arrive, in whatever order and with whatever clock, the
    relay never exceeds its caps: queue depth, envelope size, registered and
    unregistered mailboxes; and with authentication on no mailbox exists outside
    the two bounded pools. *)
Theorem relay_caps_hold (clock : nat -> float) (L : limits) (qs : list (option pystr * request)) :
  relay_ok L (serve clock L qs fresh_relay).
Proof. apply serve_ok, fresh_relay_ok. Qed.

(** Deposited mail is never lost or reordered: after any history, one more
    request leaves every mailbox's queue a prefix of the new one, unless it is an
    acknowledgement that named the removed ids and (with authentication on) was
    signed by the mailbox's registered owner over a live nonce. *)
Theorem relay_mail_kept (clock : nat -> float) (L : limits) qs host q (m : pystr) :
  require_auth L = true ->
  let r := serve clock L qs fresh_relay in
  let r' := (handle clock L host q r).2 in
  (queue (JStr m) r `prefix_of` queue (JStr m) r') \/
  exists ids a r0, q = PAck m ids a /\ same_mail r r0 /\ authorised clock m a r0 /\
    queue (JStr m) r' = List.filter (fun e : entry => negb (mem e.1 ids)) (queue (JStr m) r).
Proof.
  intros Ha. cbv zeta. pose proof (serve_ok clock L qs _ (fresh_relay_ok L)) as Hr.
  destruct (handle_spec clock L host q _ Hr) as [_ Hq]. destruct (Hq m) as (r0 & Hs & Hm).
  pose proof Hs as (Hb & _). unfold mail_step, queue in *. rewrite Hb in Hm.
  destruct Hm as [|(ids & a & -> & Haz & E)]; [by left|right].
  exists ids, a, r0. split_and!; auto.
Qed.

(** The first registration of a mailbox wins for ever: no later request
    changes its owner. *)
Theorem relay_owner_fixed (clock : nat -> float) (L : limits) qs r (m owner : pystr) :
  owners r !! m = Some owner -> owners (serve clock L qs r) !! m = Some owner.
Proof.
  intros Ho. apply (serve_pres clock L owner_kept (fun _ => True) qs r); [|by apply Forall_true|done].
  intros host q _. apply handle_owner_kept.
Qed.

(** A nonce authorises one request: once a check passed with it, no later
    request that carries it for that mailbox passes, whatever happened in
    between, unless the relay issues it anew. *)
Theorem relay_nonce_single_use (clock : nat -> float) (L : limits) (m n : pystr) a a' r r1 qs :
  check_auth clock m a r = (Ok tt, r1) -> au_nonce a = Some n -> au_nonce a' = Some n ->
  Forall (fun q => q.2 <> PChallenge m n) qs ->
  (check_auth clock m a' (serve clock L qs r1)).1 <> Ok tt.
Proof.
  intros Hc Hn Hn' Hqs. destruct (check_auth_ok clock m a r r1 Hc) as (_ & _ & Hgone & _).
  specialize (Hgone n Hn).
  assert (spent m n r1 (serve clock L qs r1)) as Hsp.
  { apply (serve_pres clock L (spent m n) (fun q => q <> PChallenge m n)); [|done].
    intros host q. apply handle_spent. }
  specialize (Hsp Hgone). intros Hok.
  destruct (check_auth clock m a' (serve clock L qs r1)) as [out r2] eqn:E. cbn in Hok. subst.
  apply check_auth_ok in E as [[(o & n' & sg & b & _ & _ & Hn2 & _ & (exp & Hl & _) & _)] _].
  rewrite Hn' in Hn2. injection Hn2 as <-. congruence.
Qed.
End relay_properties.


(** ** Witnesses *)
Section relay_witnesses.
#[local] Existing Instance ascii_pylib.
#[local] Existing Instance toy_crypto.

Definition demo_clock : nat -> float := fun _ => f1.
Definition demo_limits : limits := default_limits true.
Definition demo_pub : pystr := to_hex [7%N].
Definition demo_sig (body : pybytes) : pystr := to_hex (ed_sign [7%N] body).
Definition demo_body (n : pystr) : pybytes :=
  match canonical (auth_body (u "m") n) with Ok b => b | Err _ => [] end.
Definition demo_auth (n : pystr) : auth_fields :=
  {| au_nonce := Some n; au_signature := Some (demo_sig (demo_body n)); au_identity_pub := Some demo_pub |}.

(** A mailbox with an owner, one envelope and a challenge outstanding. *)
Definition demo_mail : json := JObj [(u "relay_mailbox", JStr (u "m")); (u "ciphertext", JStr (u "00"))].
Definition demo_requests : list (option pystr * request) :=
  [(None, PRegister (u "m") demo_pub); (Some (u "h"), PEnvelope demo_mail); (None, PChallenge (u "m") (u "n1"))].
Definition demo_relay : relay := serve demo_clock demo_limits demo_requests fresh_relay.

Example demo_ack_removes :
  queue (JStr (u "m")) demo_relay = [(u "env_1", demo_mail)] /\
  queue (JStr (u "m")) (handle demo_clock demo_limits None (PAck (u "m") [u "env_1"] (demo_auth (u "n1"))) demo_relay).2 = [].
Proof. split; vm_compute; reflexivity. Qed.

Lemma relay_mail_kept_witness :
  let r := serve demo_clock demo_limits demo_requests fresh_relay in
  let q := PFetch (u "m") (demo_auth (u "n1")) in
  let r' := (handle demo_clock demo_limits None q r).2 in
  (queue (JStr (u "m")) r `prefix_of` queue (JStr (u "m")) r') \/
  exists ids a r0, q = PAck (u "m") ids a /\ same_mail r r0 /\ authorised demo_clock (u "m") a r0 /\
    queue (JStr (u "m")) r' = List.filter (fun e : entry => negb (mem e.1 ids)) (queue (JStr (u "m")) r).
Proof. exact (relay_mail_kept demo_clock demo_limits demo_requests None _ (u "m") eq_refl). Defined.

Lemma relay_owner_fixed_witness :
  owners (serve demo_clock demo_limits [(None, PRegister (u "m") (u "aa"))] demo_relay) !! u "m" = Some demo_pub.
Proof. apply relay_owner_fixed. vm_compute. reflexivity. Defined.

Lemma relay_nonce_single_use_witness :
  (check_auth demo_clock (u "m") (demo_auth (u "n1"))
    (serve demo_clock demo_limits [(None, PFetch (u "m") (demo_auth (u "n1")))]
      (check_auth demo_clock (u "m") (demo_auth (u "n1")) demo_relay).2)).1 <> Ok tt.
Proof.
  apply (relay_nonce_single_use demo_clock demo_limits (u "m") (u "n1") (demo_auth (u "n1"))
    (demo_auth (u "n1")) demo_relay); [vm_compute; reflexivity|reflexivity|reflexivity|].
  repeat constructor; discriminate.
Defined.
End relay_witnesses.
