(* ===== verification/World.v ===== *)
(** What the peer link runs in: its database, the persona's JSON files, and the
    outside world.  An effect on the outside is an event of the trace; what the
    outside answers is a function of everything that happened before, so a
    theorem over all environments covers every relay, model and scheduler, and
    the death of the process ([Crash]) at any call.  Also holds
    [brain/kindled_link/audit.py], [brain/kindled_link/relay_client.py], the JSON
    file helpers and the random identifiers. *)
From S2P Require Import Prelude PyFloat PyTime Json Crypto Protocol LinkStore.

(** ** Events, newest first *)
Inductive event :=
| EvPost (path : pystr) (payload : json)           (* an HTTP POST to the relay *)
| EvSleep (ms : Z)                                 (* time.sleep *)
| EvComplete (prompt : pystr)                      (* provider.complete *)
| EvSlot                                           (* throttle.background_slot *)
| EvYield                                          (* throttle.should_yield *)
| EvRandom (n : nat)                               (* secrets.token_bytes *)
| EvAudit (row : json)                             (* one transport.jsonl row *)
| EvReject (peer quote : pystr)                    (* one reflection_rejections.jsonl row *)
| EvParseFailure (site raw : pystr)                (* record_parse_failure *)
| EvWrite (path text : pystr)                      (* an atomic file write *)
| EvMemory (content peer stage : pystr) (emotions : list (pystr * float)).

Abbreviation trace := (list event).

Inductive http_reply :=
| HTransportError (msg : pystr)      (* str(exc) or the type's name *)
| HRequestError (msg : pystr)
| HResponse (status : Z) (body : option json).   (* None: the body is not JSON *)

(** The environment: relay, model provider, throttle, randomness, disk, the
    memory store and the emotion vocabulary. *)
Class Env := {
  http_post : trace -> pystr -> json -> res http_reply;
  complete : trace -> pystr -> res pystr;
  slot_granted : trace -> res bool;
  yields : trace -> res bool;
  urandom : trace -> nat -> pybytes;
  write_file : trace -> pystr -> pystr -> res unit;
  mem_create : trace -> res unit;
  registered : pystr -> bool;
}.

(** An environment for concrete runs: the relay answers from a script, the model
    always with one text, and nothing fails. *)
Definition demo_env (reply : trace -> pystr -> json -> res http_reply) (answer : pystr) : Env := {|
  http_post := reply; complete _ _ := Ok answer; slot_granted _ := Ok true; yields _ := Ok false;
  urandom t n := repeat (N.of_nat (length t) mod 256)%N n;
  write_file _ _ _ := Ok tt; mem_create _ := Ok tt; registered _ := true |}.

Definition silent_relay (t : trace) (path : pystr) (payload : json) : res http_reply :=
  Ok (HResponse 200 (Some (JObj []))).

Record world := { w_db : db; w_files : gmap pystr pystr; w_key : option pybytes; w_trace : trace }.

Definition upd_db (d : db) (w : world) : world :=
  {| w_db := d; w_files := w_files w; w_key := w_key w; w_trace := w_trace w |}.
Definition upd_files (f : gmap pystr pystr) (w : world) : world :=
  {| w_db := w_db w; w_files := f; w_key := w_key w; w_trace := w_trace w |}.
Definition upd_key (k : option pybytes) (w : world) : world :=
  {| w_db := w_db w; w_files := w_files w; w_key := k; w_trace := w_trace w |}.
Definition upd_trace (t : trace) (w : world) : world :=
  {| w_db := w_db w; w_files := w_files w; w_key := w_key w; w_trace := t |}.

Abbreviation W := (M world).

(** A store operation. *)
Definition on_db {A} (m : M db A) : W A := zoom w_db upd_db m.

Definition emit (e : event) : W unit := modify (fun w => upd_trace (e :: w_trace w) w).

(** An effect: it is in the trace whatever the answer is. *)
Definition ask {A} (e : event) (answer : trace -> res A) : W A :=
  t ← gets w_trace;
  emit e;;
  of_res (answer t).

(** [try: m  except Exception: h]. *)
Definition try_except {A} (m : W A) (h : W A) : W A :=
  catch m (fun e => if is_Exception e then Some h else None).

Definition is_relay_error (e : exn) : option pystr :=
  match e with RelayUnavailableError msg => Some msg | _ => None end.

(** [try: m  except RelayUnavailableError as exc: h exc]. *)
Definition except_relay {A} (m : W A) (h : pystr -> W A) : W A :=
  catch m (fun e => option_map h (is_relay_error e)).

Section world.
Context `{PyLib, Crypto, Env}.

Definition provider_complete (prompt : pystr) : W pystr := ask (EvComplete prompt) (fun t => complete t prompt).
Definition background_slot : W bool := ask EvSlot slot_granted.
Definition should_yield : W bool := ask EvYield yields.
Definition token_bytes (n : nat) : W pybytes := ask (EvRandom n) (fun t => Ok (urandom t n)).
Definition token_hex (n : nat) : W pystr := b ← token_bytes n; mret (to_hex b).

(** ** JSON files ([brain/health/json_io.py], default policy) *)

(** [raw[len(_BOM):]] when the file starts with a byte-order mark. *)
Definition drop_bom (t : pystr) : pystr :=
  match t with c :: t' => if (c =? 65279)%N then t' else t | [] => [] end.

(** [read_json(p, default=..., expect=dict)]: an absent, unreadable or non-dict
    file is the default. *)
Definition read_json_dict (path : pystr) (default_ : json) : W json :=
  gets (fun w => match (t ← w_files w !! path; loads (drop_bom t)) with
                 | Some (JObj kvs) => JObj kvs
                 | _ => default_
                 end).

(** What [allow_nan=False] accepts. *)
Fixpoint all_finite (v : json) : bool :=
  match v with
  | JFloat f => is_finite f
  | JArr l => forallb all_finite l
  | JObj kvs => forallb (fun kv => all_finite kv.2) kvs
  | _ => true
  end.

(** [write_json(path, v, indent=None)]: serialised strictly first, then written
    atomically, all or nothing. *)
Definition write_json (path : pystr) (v : json) : W unit :=
  if negb (all_finite v) then raise ValueError else
  let text := dumps_default v ++ [10%N] in
  ask (EvWrite path text) (fun t => write_file t path text);;
  modify (fun w => upd_files (<[path := text]> (w_files w)) w).

(** ** [audit.py] *)
Definition opt_field (k : pystr) (v : option json) : list (pystr * json) :=
  match v with Some v => [(k, v)] | None => [] end.

(** JSON [null] is Python's [None]: the field is left out. *)
Definition non_none (v : json) : option json :=
  match v with JNull => None | _ => Some v end.

Record audit_fields := {
  a_peer : option json; a_session : option json; a_seq : option Z;
  a_reason : option pystr; a_count : option nat; a_ok : option bool; a_error : option pystr }.

Definition no_fields : audit_fields :=
  {| a_peer := None; a_session := None; a_seq := None; a_reason := None; a_count := None;
     a_ok := None; a_error := None |}.

Definition for_peer (p : json) : audit_fields :=
  {| a_peer := Some p; a_session := None; a_seq := None; a_reason := None; a_count := None;
     a_ok := None; a_error := None |}.

Definition for_session (p s : json) : audit_fields :=
  {| a_peer := Some p; a_session := Some s; a_seq := None; a_reason := None; a_count := None;
     a_ok := None; a_error := None |}.

Definition and_seq (n : Z) (f : audit_fields) : audit_fields :=
  {| a_peer := a_peer f; a_session := a_session f; a_seq := Some n; a_reason := a_reason f;
     a_count := a_count f; a_ok := a_ok f; a_error := a_error f |}.
Definition and_reason (r : pystr) (f : audit_fields) : audit_fields :=
  {| a_peer := a_peer f; a_session := a_session f; a_seq := a_seq f; a_reason := Some r;
     a_count := a_count f; a_ok := a_ok f; a_error := a_error f |}.
Definition and_count (n : nat) (f : audit_fields) : audit_fields :=
  {| a_peer := a_peer f; a_session := a_session f; a_seq := a_seq f; a_reason := a_reason f;
     a_count := Some n; a_ok := a_ok f; a_error := a_error f |}.
Definition and_ok (b : bool) (f : audit_fields) : audit_fields :=
  {| a_peer := a_peer f; a_session := a_session f; a_seq := a_seq f; a_reason := a_reason f;
     a_count := a_count f; a_ok := Some b; a_error := a_error f |}.
Definition and_error (e : pystr) (f : audit_fields) : audit_fields :=
  {| a_peer := a_peer f; a_session := a_session f; a_seq := a_seq f; a_reason := a_reason f;
     a_count := a_count f; a_ok := a_ok f; a_error := Some e |}.

(** The row's fields in the code's order; the error is cut to 200 characters. *)
Definition audit_row (event : pystr) (now : Z) (f : audit_fields) : json :=
  JObj ([(u "ts", JStr (isoformat now)); (u "event", JStr event)]
    ++ opt_field (u "peer_id") (p ← a_peer f; non_none p)
    ++ opt_field (u "session_id") (s ← a_session f; non_none s)
    ++ opt_field (u "seq") (option_map JInt (a_seq f))
    ++ opt_field (u "reject_reason") (option_map JStr (a_reason f))
    ++ opt_field (u "count") (option_map (fun n => JInt (Z.of_nat n)) (a_count f))
    ++ opt_field (u "relay_ok") (option_map JBool (a_ok f))
    ++ opt_field (u "error") (option_map (fun e => JStr (take 200 e)) (a_error f))).

(** [log_transport]: the append is fail-soft, so it never raises. *)
Definition log_transport (event : pystr) (now : Z) (f : audit_fields) : W unit :=
  emit (EvAudit (audit_row event now f)).

(** ** [relay_client.py] *)
Definition MAX_RETRIES : nat := 3.
Definition BACKOFF_BASE_MS : Z := 500.

Record RelayClient := { rc_identity : KindledIdentity; rc_mailbox : pystr }.

(** The attempts left, with the number of the next one: only network errors are
    retried, with a doubling sleep before every attempt but the first. *)
Fixpoint post_loop (left : nat) (attempt : Z) (last_exc : pystr) (path : pystr) (payload : json)
    : W (Z * option json) :=
  match left with
  | O => raise (RelayUnavailableError last_exc)
  | S left' =>
      r ← ask (EvPost path payload) (fun t => http_post t path payload);
      match r with
      | HTransportError msg =>
          (match left' with
           | O => mret tt
           | S _ => emit (EvSleep (BACKOFF_BASE_MS * 2 ^ attempt))
           end);;
          post_loop left' (attempt + 1) msg path payload
      | HRequestError msg => raise (RelayUnavailableError (u "relay " ++ path ++ u ": " ++ msg))
      | HResponse status body =>
          if (400 <=? status)%Z
          then raise (RelayUnavailableError (u "relay " ++ path ++ u " -> " ++ dec_Z status))
          else mret (status, body)
      end
  end.

Definition post (path : pystr) (payload : json) : W (Z * option json) :=
  post_loop MAX_RETRIES 0 [] path payload.

(** [_field]: [kind] is the isinstance test. *)
Definition field_ (path : pystr) (payload : json) (key : pystr) (kind : json -> bool) : W json :=
  resp ← post path payload;
  match resp.2 with
  | None => raise (RelayUnavailableError (u "relay " ++ path ++ u ": malformed reply (not JSON)"))
  | Some body =>
      match jget key body with
      | None => raise (RelayUnavailableError (u "relay " ++ path ++ u ": malformed reply (no key)"))
      | Some v =>
          if kind v then mret v
          else raise (RelayUnavailableError (u "relay " ++ path ++ u ": malformed reply (kind)"))
      end
  end.

Definition is_str (v : json) : bool := match v with JStr _ => true | _ => false end.
Definition is_list (v : json) : bool := match v with JArr _ => true | _ => false end.

Definition register (c : RelayClient) : W unit :=
  post (u "/mailbox/register")
    (JObj [(u "mailbox_id", JStr (rc_mailbox c));
           (u "identity_pub", JStr (to_hex (public_bytes (rc_identity c))))]);;
  mret tt.

Definition push (envelope : json) : W unit := post (u "/envelope") envelope;; mret tt.

(** [_auth]: a fresh challenge, signed with the identity key. *)
Definition auth (c : RelayClient) : W (list (pystr * json)) :=
  nonce ← field_ (u "/mailbox/challenge") (JObj [(u "mailbox_id", JStr (rc_mailbox c))])
            (u "nonce") is_str;
  body ← of_res (canonical (JObj [(u "purpose", JStr (u "kindled-relay-auth/1"));
                                  (u "mailbox", JStr (rc_mailbox c)); (u "nonce", nonce)]));
  mret [(u "mailbox_id", JStr (rc_mailbox c)); (u "nonce", nonce);
        (u "signature", JStr (to_hex (sign (rc_identity c) body)));
        (u "identity_pub", JStr (to_hex (public_bytes (rc_identity c))))].

Definition fetch (c : RelayClient) : W (list json) :=
  a ← auth c;
  v ← field_ (u "/mailbox/fetch") (JObj a) (u "envelopes") is_list;
  match v with JArr l => mret l | _ => mret [] end.

Definition ack (c : RelayClient) (envelope_ids : list pystr) : W unit :=
  a ← auth c;
  post (u "/mailbox/ack") (JObj (a ++ [(u "envelope_ids", JArr (map JStr envelope_ids))]));;
  mret tt.

(** ** The local mailbox ([store.py]) and the identity file ([identity.py]) *)
Definition get_or_create_local_mailbox : W pystr :=
  v ← on_db (gets (fun d => local_identity d !! u "relay_mailbox"));
  match v with
  | Some m => mret m
  | None =>
      h ← token_hex 8;
      let mbx := u "mbx_" ++ h in
      on_db (modify (fun d => upd_local_identity (<[u "relay_mailbox" := mbx]> (local_identity d)) d));;
      mret mbx
  end.

Definition KEY_PATH : pystr := u "kindled_link/identity_ed25519.key".

(** [_create_locked] and [_rotate_locked]: a new key, written atomically. *)
Definition new_identity : W KindledIdentity :=
  raw ← token_bytes 32;
  ask (EvWrite KEY_PATH []) (fun t => write_file t KEY_PATH []);;
  modify (upd_key (Some raw));;
  mret {| priv := raw |}.

(** [load_or_create]; a key file that is not 32 bytes is a [ValueError]. *)
Definition load_or_create : W KindledIdentity :=
  k ← gets w_key;
  match k with
  | Some raw => if bool_decide (length raw = 32%nat) then mret {| priv := raw |} else raise ValueError
  | None => new_identity
  end.

(** [rotate]: the new identity and the old one. *)
Definition rotate : W (KindledIdentity * KindledIdentity) :=
  old ← load_or_create;
  new ← new_identity;
  mret (new, old).
End world.

(** ** Lemmas *)

(** A relation on databases, read on worlds. *)
Definition on_dbs (R : db -> db -> Prop) (w w' : world) : Prop := R (w_db w) (w_db w').

#[export] Instance on_dbs_preorder (R : db -> db -> Prop) `{!PreOrder R} : PreOrder (on_dbs R).
Proof.
  split; [intros w; unfold on_dbs; reflexivity|].
  intros a b c K1 K2. unfold on_dbs in *. by etrans.
Qed.

(** The database is left alone. *)
Definition db_same : world -> world -> Prop := on_dbs eq.

#[export] Instance eq_preorder {A} : PreOrder (@eq A).
Proof. split; [by intros x|]. by intros x y z -> ->. Qed.

#[export] Instance db_same_preorder : PreOrder db_same.
Proof. unfold db_same. typeclasses eauto. Qed.

Lemma db_same_lift (R : db -> db -> Prop) `{!PreOrder R} {A} (m : W A) :
  pres db_same m -> pres (on_dbs R) m.
Proof. intros Hm w. specialize (Hm w). unfold db_same, on_dbs in *. by rewrite Hm. Qed.

Lemma pres_on_db (R : db -> db -> Prop) {A} (m : M db A) : pres R m -> pres (on_dbs R) (on_db m).
Proof. intros Hm w. unfold on_db, zoom. specialize (Hm (w_db w)). by destruct (m (w_db w)). Qed.

Lemma on_db_run {A} (m : M db A) w : on_db m w = ((m (w_db w)).1, upd_db (m (w_db w)).2 w).
Proof. unfold on_db, zoom. by destruct (m (w_db w)). Qed.

(** A store operation that only reads. *)
Lemma on_db_gets {A} (f : db -> A) w : on_db (gets f) w = (Ok (f (w_db w)), w).
Proof. unfold on_db, zoom, gets. by destruct w. Qed.

Create HintDb world discriminated.

Section world_lemmas.
Context `{PyLib, Crypto, Env}.

Lemma same_emit e : pres db_same (emit e).
Proof. by apply pres_modify. Qed.

Lemma same_ask {A} e (f : trace -> res A) : pres db_same (ask e f).
Proof. unfold ask. pres_auto. apply same_emit. Qed.

Lemma same_log ev now f : pres db_same (log_transport ev now f).
Proof. apply same_emit. Qed.

Lemma same_post_loop left attempt exc path payload :
  pres db_same (post_loop left attempt exc path payload).
Proof.
  revert attempt exc. induction left as [|left IH]; intros attempt exc; simpl; [pres_auto|].
  apply pres_bind; [typeclasses eauto|apply same_ask|intros r].
  destruct r; pres_auto; apply same_emit.
Qed.

Lemma same_post path payload : pres db_same (post path payload).
Proof. apply same_post_loop. Qed.

Lemma same_field path payload key kind : pres db_same (field_ path payload key kind).
Proof. unfold field_. pres_auto; try apply same_post. Qed.

Lemma same_push env : pres db_same (push env).
Proof. unfold push. pres_auto. apply same_post. Qed.

Lemma same_auth c : pres db_same (auth c).
Proof. unfold auth. pres_auto; apply same_field. Qed.

Lemma same_fetch c : pres db_same (fetch c).
Proof. unfold fetch. pres_auto; [apply same_auth|apply same_field]. Qed.

Lemma same_ack c ids : pres db_same (ack c ids).
Proof. unfold ack. pres_auto; [apply same_auth|apply same_post]. Qed.

Lemma same_complete prompt : pres db_same (provider_complete prompt).
Proof. apply same_ask. Qed.

Lemma same_slot : pres db_same background_slot.
Proof. apply same_ask. Qed.

Lemma same_yield : pres db_same should_yield.
Proof. apply same_ask. Qed.

Lemma same_token_bytes n : pres db_same (token_bytes n).
Proof. apply same_ask. Qed.

Lemma same_token_hex n : pres db_same (token_hex n).
Proof. unfold token_hex. pres_auto. apply same_token_bytes. Qed.

Lemma same_read_json path d : pres db_same (read_json_dict path d).
Proof. unfold read_json_dict. pres_auto. Qed.

Lemma same_write_json path v : pres db_same (write_json path v).
Proof. unfold write_json. pres_auto; first [apply same_ask|by apply pres_modify]. Qed.

Lemma same_load_or_create : pres db_same load_or_create.
Proof.
  unfold load_or_create, new_identity. pres_auto; [apply same_token_bytes|apply same_ask|].
  by apply pres_modify.
Qed.
End world_lemmas.

#[export] Hint Resolve same_emit same_ask same_log same_post same_field same_push same_auth same_fetch
  same_ack same_complete same_slot same_yield same_token_bytes same_token_hex same_read_json
  same_write_json same_load_or_create : world.

Lemma pres_try_except (R : world -> world -> Prop) `{!PreOrder R} {A} (m h : W A) :
  pres R m -> pres R h -> pres R (try_except m h).
Proof.
  intros Hm Hh. unfold try_except. apply pres_catch; [done|done|].
  intros e k. destruct (is_Exception e); [|done]. by intros [= <-].
Qed.

Lemma pres_except_relay (R : world -> world -> Prop) `{!PreOrder R} {A} (m : W A) h :
  pres R m -> (forall msg, pres R (h msg)) -> pres R (except_relay m h).
Proof.
  intros Hm Hh. unfold except_relay. apply pres_catch; [done|done|].
  intros e k. destruct (is_relay_error e); [|done]. by intros [= <-].
Qed.

(** Close the goals about a relation on databases that only concern the outside
    world. *)
Ltac world_auto :=
  repeat first
    [ progress simplify_eq
    | solve [ eauto 2 with world ]
    | solve [ apply db_same_lift; [typeclasses eauto | eauto 2 with world] ]
    | apply pres_try_except; [typeclasses eauto| |]
    | apply pres_except_relay; [typeclasses eauto| |intros ?]
    | pres_step ].

(** ** Properties *)
Section relay_client_properties.
Context `{PyLib, Crypto, Env}.

Definition is_post (e : event) : bool := match e with EvPost _ _ => true | _ => false end.

Definition sleeps (evs : trace) : list Z :=
  omap (fun e => match e with EvSleep ms => Some ms | _ => None end) (rev evs).

(** What a call to the relay may do: only posts and sleeps, the posts to that
    path; at most [n] posts; a doubling backoff from the first wait on. *)
Record call_shape (n : nat) (first : Z) (path : pystr) (payload : json) (w w' : world) : Prop := {
  cs_frame : w_db w' = w_db w /\ w_files w' = w_files w /\ w_key w' = w_key w;
  cs_trace : exists evs, w_trace w' = evs ++ w_trace w /\
    Forall (fun e => match e with EvPost p v => p = path /\ v = payload | EvSleep _ => True | _ => False end) evs /\
    (length (List.filter is_post evs) <= n)%nat /\
    sleeps evs `prefix_of` map (fun i => BACKOFF_BASE_MS * 2 ^ (first + Z.of_nat i))%Z (seq 0 (n - 1)) }.

(** One attempt after another: the first event of the new part is the oldest. *)
Lemma call_shape_S n k path payload w w1 w' :
  w1 = upd_trace (EvSleep (BACKOFF_BASE_MS * 2 ^ k) :: EvPost path payload :: w_trace w) w ->
  call_shape n (k + 1) path payload w1 w' -> (0 < n)%nat -> call_shape (S n) k path payload w w'.
Proof.
  intros -> [Hf (evs & Ht & Hall & Hn & Hs)] Hpos. split; [exact Hf|].
  exists (evs ++ [EvSleep (BACKOFF_BASE_MS * 2 ^ k); EvPost path payload]). split_and!.
  - by rewrite Ht, <- app_assoc.
  - apply Forall_app. split; [done|]. by repeat constructor.
  - rewrite List.filter_app, length_app. simpl. lia.
  - unfold sleeps in *. rewrite rev_app_distr. cbn [rev app omap list_omap].
    replace (S n - 1)%nat with (S (n - 1)) by lia. cbn [seq map].
    rewrite Z.add_0_r. apply prefix_cons. rewrite <- seq_shift, map_map.
    erewrite map_ext; [exact Hs|]. intros i. cbn. do 2 f_equal. lia.
Qed.

Lemma call_shape_1 n k path payload w w' :
  w' = upd_trace (EvPost path payload :: w_trace w) w -> call_shape (S n) k path payload w w'.
Proof.
  intros ->. split; [done|]. exists [EvPost path payload]. split_and!; [done|by repeat constructor|simpl; lia|].
  apply prefix_nil.
Qed.

Lemma post_loop_shape n k exc path payload w :
  let '(out, w') := post_loop n k exc path payload w in
  call_shape n k path payload w w' /\
  (forall e, out = Err e -> (exists msg, e = RelayUnavailableError msg) \/ exists t, http_post t path payload = Err e).
Proof.
  revert k exc w. induction n as [|n IH]; intros k exc w; cbn [post_loop].
  - split; [|intros e [= <-]; eauto]. split; [done|]. exists []. by split_and!.
  - unfold ask, emit, mbind, M_bind, gets, modify, of_res, raise, mret, M_ret.
    cbn -[Z.leb Z.mul Z.pow post_loop]. destruct (http_post (w_trace w) path payload) as [[msg|msg|st bd]|e] eqn:Hp.
    + destruct n as [|n].
      * split; [by apply call_shape_1|]. intros e [= <-]. eauto.
      * specialize (IH (k + 1)%Z msg
          (upd_trace (EvSleep (BACKOFF_BASE_MS * 2 ^ k) :: EvPost path payload :: w_trace w) w)).
        cbn -[post_loop] in *. unfold upd_trace in *. cbn -[post_loop Z.mul] in *.
        destruct (post_loop (S n) _ _ _ _ _) as [out w']. destruct IH as [Hc He]. split; [|exact He].
        eapply call_shape_S; [reflexivity|exact Hc|lia].
    + split; [by apply call_shape_1|]. intros e [= <-]. eauto.
    + destruct (400 <=? st)%Z; (split; [by apply call_shape_1|]); intros e Heq; simplify_eq; eauto.
    + split; [by apply call_shape_1|]. intros e' [= <-]. eauto.
Qed.

(** A relay call makes at most three posts, all of that one payload to that
    path, waiting 500 ms and 1000 ms between them and never after the last; it
    touches nothing else, always returns, and an HTTP stack that answers makes
    it fail only with [RelayUnavailableError]. *)
Theorem post_bounded (path : pystr) (payload : json) (w : world) :
  let '(out, w') := post path payload w in
  w_db w' = w_db w /\
  (exists evs, w_trace w' = evs ++ w_trace w /\
    Forall (fun e => match e with EvPost p v => p = path /\ v = payload | EvSleep _ => True | _ => False end) evs /\
    (length (List.filter is_post evs) <= 3)%nat /\ sleeps evs `prefix_of` [500; 1000]%Z) /\
  ((forall t, exists r, http_post t path payload = Ok r) ->
   forall e, out = Err e -> exists msg, e = RelayUnavailableError msg).
Proof.
  pose proof (post_loop_shape MAX_RETRIES 0 [] path payload w) as Hl. unfold post.
  destruct (post_loop _ _ _ _ _ _) as [out w']. destruct Hl as [[[Hd _] Ht] He]. split_and!; [done|exact Ht|].
  intros Hok e Heq. destruct (He e Heq) as [|[t Hp]]; [done|]. destruct (Hok t). congruence.
Qed.
End relay_client_properties.

(** ** Witnesses *)
Definition world_of (d : db) : world := {| w_db := d; w_files := ∅; w_key := None; w_trace := [] |}.

Section world_witnesses.
#[local] Existing Instance ascii_pylib.
#[local] Existing Instance toy_crypto.

Definition dead_relay (t : trace) (path : pystr) (payload : json) : res http_reply :=
  Ok (HTransportError (u "refused")).

#[local] Instance dead_env : Env := demo_env dead_relay [].

Lemma post_bounded_witness :
  let '(out, w') := post (u "/envelope") JNull (world_of empty_db) in
  (length (w_trace w') = 5%nat) /\ forall e, out = Err e -> exists msg, e = RelayUnavailableError msg.
Proof.
  pose proof (post_bounded (u "/envelope") JNull (world_of empty_db)) as P.
  split; [vm_compute; reflexivity|]. apply P. intros t. eexists. reflexivity.
Defined.
End world_witnesses.
