(* ===== verification/Session.v ===== *)
(** [brain/kindled_link/session.py]: the three-leg handshake.  Leg envelopes are
    untrusted JSON; a leg that is rejected returns [None], and what the code does
    not guard (a signed leg without its fields) raises.  Theorems: an established
    session key is never overwritten; both ends of a completed handshake hold
    the same key, with opposite roles. *)
From S2P Require Import Prelude PyFloat PyTime Json Crypto Protocol LinkStore World.

Definition SESSION_OPEN_TTL : Z := (7 * day)%Z.

Section session.
Context `{PyLib, Crypto, Sqlite, Env}.

(** A value bound as a query parameter. *)
Definition bind (v : json) : W (option pystr) := of_res (bind_text v).

Definition bind2 (p s : json) : W (option sess_id) :=
  p ← bind p; s ← bind s; mret (key2 p s).

(** [store.get_peer(v)]. *)
Definition get_peer_v (v : json) : W (option peer_row) :=
  k ← bind v; on_db (get_peer k).

(** [store.get_peer(v) if v else None]. *)
Definition get_known_peer (v : json) : W (option peer_row) :=
  if jtruthy v then get_peer_v v else mret None.

(** A nullable TEXT column read back as a value. *)
Definition text_or_null (o : option pystr) : json :=
  match o with Some s => JStr s | None => JNull end.

(** [derive_session_key] with the peer id the envelope claimed: [sorted] cannot
    compare text with another type. *)
Definition derive_with (eph peer_eph_pub : pybytes) (my_fp : pystr) (peer_id session_id : json)
    (nonce : pybytes) : res pybytes :=
  match peer_id with
  | JStr fp => derive_session_key eph peer_eph_pub my_fp fp session_id nonce
  | _ => _ ← or_raise ValueError (x_dh eph peer_eph_pub); Err TypeError
  end.

(** INITIATOR, leg 1. *)
Definition open_session (identity : KindledIdentity) (peer_id : pystr) (now ttl : Z) : W json :=
  h ← token_hex 8;
  let session_id := u "ks_" ++ h in
  sk ← on_db (get_session_key (Some (peer_id, session_id)));
  match sk with
  | Some _ => raise ValueError
  | None =>
      eph ← token_bytes 32;
      bootstrap_nonce ← token_bytes 16;
      on_db (save_pending_handshake (peer_id, session_id) eph bootstrap_nonce ROLE_INITIATOR now);;
      peer ← on_db (get_peer (Some peer_id));
      let relay_mailbox := match peer with Some p => text_or_null (relay_mailbox p) | None => JStr [] end in
      sender_mailbox ← get_or_create_local_mailbox;
      of_res (build_session_open identity (JStr peer_id) relay_mailbox (JStr session_id)
        (x_pub eph) bootstrap_nonce (JStr sender_mailbox) now ttl)
  end.

(** RESPONDER, leg 2. *)
Definition on_session_open (identity : KindledIdentity) (envelope : json) (now ttl : Z)
    : W (option json) :=
  let initiator_peer_id := jget_none (u "sender_key_id") envelope in
  let session_id := jget_none (u "session_id") envelope in
  peer ← get_known_peer initiator_peer_id;
  match peer with
  | None => mret None
  | Some peer =>
      sender_pub ← of_option ValueError (from_hex (identity_pub peer));
      v ← of_res (parse_session_open envelope sender_pub now);
      match v with
      | Rejected _ => mret None
      | Accepted parsed =>
          k ← bind2 initiator_peer_id session_id;
          sk ← on_db (get_session_key k);
          match sk with
          | Some _ => mret None
          | None =>
              let mb := jget_none (u "sender_mailbox") parsed in
              let initiator_mailbox := if jtruthy mb then mb else JStr [] in
              pid ← bind initiator_peer_id;
              (if jtruthy initiator_mailbox then
                 m ← bind initiator_mailbox;
                 match pid with
                 | Some pid => on_db (upsert_peer pid (identity_pub peer) (p_fingerprint peer)
                     (consent_state peer) (relay_url peer) m now)
                 | None => mret tt
                 end
               else mret tt);;
              my_eph ← token_bytes 32;
              eh ← of_res (jindex (u "ephemeral_pub") parsed);
              initiator_eph_pub ← of_res (fromhex eh);
              nh ← of_res (jindex (u "bootstrap_nonce") parsed);
              bootstrap_nonce ← of_res (fromhex nh);
              key ← of_res (derive_with my_eph initiator_eph_pub (key_id identity)
                initiator_peer_id session_id bootstrap_nonce);
              on_db (save_session_key k key ROLE_RESPONDER ROLE_INITIATOR now);;
              on_db (create_session k now);;
              sender_mailbox ← get_or_create_local_mailbox;
              reply_mailbox ← (if jtruthy initiator_mailbox then mret initiator_mailbox
                else p ← get_peer_v initiator_peer_id;
                     mret (match p with Some p => text_or_null (relay_mailbox p) | None => JStr [] end));
              env ← of_res (build_session_open identity initiator_peer_id reply_mailbox session_id
                (x_pub my_eph) bootstrap_nonce (JStr sender_mailbox) now ttl);
              mret (Some env)
          end
      end
  end.

(** INITIATOR, leg 3. *)
Definition complete_session (identity : KindledIdentity) (reply_envelope : json) (now : Z) : W unit :=
  let responder_peer_id := jget_none (u "sender_key_id") reply_envelope in
  let session_id := jget_none (u "session_id") reply_envelope in
  peer ← get_known_peer responder_peer_id;
  match peer with
  | None => mret tt
  | Some peer =>
      sender_pub ← of_option ValueError (from_hex (identity_pub peer));
      v ← of_res (parse_session_open reply_envelope sender_pub now);
      match v with
      | Rejected _ => mret tt
      | Accepted parsed =>
          k ← bind2 responder_peer_id session_id;
          pending ← on_db (get_pending_handshake k);
          match pending with
          | None => mret tt
          | Some pending =>
              sk ← on_db (get_session_key k);
              match sk with
              | Some _ => mret tt
              | None =>
                  eh ← of_res (jindex (u "ephemeral_pub") parsed);
                  responder_eph_pub ← of_res (fromhex eh);
                  key ← of_res (derive_with (my_eph_priv_raw pending) responder_eph_pub
                    (key_id identity) responder_peer_id session_id (h_bootstrap_nonce pending));
                  on_db (save_session_key k key ROLE_INITIATOR ROLE_RESPONDER now);;
                  on_db (create_session k now);;
                  on_db (clear_pending_handshake k)
              end
          end
      end
  end.
End session.

(** ** Lemmas *)
Section session_lemmas.
Context `{PyLib, Crypto, Sqlite, Env}.

(** Well-formedness of the link, with the named peer still known. *)
Definition wf_for (p : option pystr) (d : db) : Prop :=
  link_wf d /\ forall q, p = Some q -> known d q.

Definition keeps_wf (p : option pystr) : world -> world -> Prop := on_dbs (keeps (wf_for p)).

#[export] Instance keeps_wf_preorder p : PreOrder (keeps_wf p).
Proof. unfold keeps_wf. typeclasses eauto. Qed.

Lemma keeps_wf_same {A} p (m : W A) : pres db_same m -> pres (keeps_wf p) m.
Proof. apply db_same_lift. typeclasses eauto. Qed.

Lemma keeps_wf_on_db {A} p (m : M db A) : pres (keeps (wf_for p)) m -> pres (keeps_wf p) (on_db m).
Proof. apply pres_on_db. Qed.

(** An operation that never loses consent keeps the peer known. *)
Lemma wf_for_step p d d' : forward d d' -> link_wf d' -> wf_for p d -> wf_for p d'.
Proof. intros Hf Hd' [Hd Hk]. split; [done|]. intros q Hq. eapply forward_known; eauto. Qed.

Lemma key2_known p s k d : wf_for p d -> key2 p s = Some k -> known d k.1.
Proof.
  intros [_ Hk] E. destruct p as [p|], s as [s|]; simpl in E; simplify_eq. by apply Hk.
Qed.

Lemma keeps_save_key p s key mr pr now : pres (keeps (wf_for p)) (save_session_key (key2 p s) key mr pr now).
Proof.
  intros d Hd. destruct (key2 p s) as [k|] eqn:E; [|done].
  eapply wf_for_step; [apply forward_save_key| |done]. apply wf_save_key; [apply Hd|by eapply key2_known].
Qed.

Lemma keeps_create_session p s now : pres (keeps (wf_for p)) (create_session (key2 p s) now).
Proof.
  intros d Hd. destruct (key2 p s) as [k|] eqn:E; [|done].
  eapply wf_for_step; [apply forward_create_session| |done]. apply wf_create_session; [apply Hd|by eapply key2_known].
Qed.

Lemma keeps_clear_pending p s : pres (keeps (wf_for p)) (clear_pending_handshake (key2 p s)).
Proof.
  intros d Hd. destruct (key2 p s) as [k|] eqn:E; [|done].
  eapply wf_for_step; [apply forward_clear_pending| |done]. apply wf_clear_pending, Hd.
Qed.

Lemma keeps_upsert p q ip fp st ru mb now :
  pres (keeps (wf_for p)) (upsert_peer q ip fp st ru mb now).
Proof.
  intros d [Hd Hk]. split; [by apply wf_upsert|]. intros q' Hq'. specialize (Hk q' Hq').
  unfold upsert_peer. destruct (mem st CONSENT_STATES); [|done]. cbn [negb]. unfold modify. cbn [snd].
  by apply known_insert.
Qed.

Lemma forward_local_mailbox : pres (on_dbs forward) get_or_create_local_mailbox.
Proof.
  unfold get_or_create_local_mailbox. world_auto;
    apply pres_on_db; [apply pres_gets; typeclasses eauto|by apply forward_modify].
Qed.

Lemma keeps_local_mailbox p : pres (keeps_wf p) get_or_create_local_mailbox.
Proof.
  unfold get_or_create_local_mailbox. pres_auto.
  - apply keeps_wf_on_db. pres_auto.
  - apply keeps_wf_same. eauto with world.
  - apply keeps_wf_on_db, pres_modify. intros d [[] Hk]. split; [by split|done].
Qed.

(** Reading a peer. *)
Lemma get_peer_v_run v w :
  get_peer_v v w = (k ← bind_text v; Ok (p ← k; peers (w_db w) !! p), w).
Proof.
  unfold get_peer_v, bind, get_peer, mbind, M_bind, of_res. destruct (bind_text v); [|done].
  by rewrite on_db_gets.
Qed.

Lemma get_known_peer_some v w r w' :
  get_known_peer v w = (Ok (Some r), w') ->
  w' = w /\ exists p, bind_text v = Ok (Some p) /\ peers (w_db w) !! p = Some r.
Proof.
  unfold get_known_peer. destruct (jtruthy v); [|done]. rewrite get_peer_v_run.
  destruct (bind_text v) as [[p|]|e]; cbn; intros Heq; [|done|done].
  injection Heq as Hp <-. eauto.
Qed.

Lemma get_known_peer_same v : pres db_same (get_known_peer v).
Proof.
  intros w. unfold get_known_peer. destruct (jtruthy v); [|done]. by rewrite get_peer_v_run.
Qed.

Lemma bind2_run v s w :
  bind2 v s w = (p ← bind_text v; q ← bind_text s; Ok (key2 p q), w).
Proof.
  unfold bind2, bind, mbind, M_bind, of_res. destruct (bind_text v); [|done]. by destruct (bind_text s).
Qed.

Lemma pres_bind_of_res {S A B} (R : S -> S -> Prop) `{!PreOrder R} (r : res A) (k : A -> M S B) :
  (forall a, r = Ok a -> pres R (k a)) -> pres R (of_res r ≫= k).
Proof. intros Hk s. unfold mbind, M_bind, of_res. destruct r; [by apply Hk|]. reflexivity. Qed.

Lemma pres_bind2 {B} (R : world -> world -> Prop) `{!PreOrder R} v s (k : option sess_id -> W B) :
  (forall p q, bind_text v = Ok p -> bind_text s = Ok q -> pres R (k (key2 p q))) ->
  pres R (bind2 v s ≫= k).
Proof.
  intros Hk w. unfold mbind at 1, M_bind at 1. rewrite bind2_run.
  destruct (bind_text v); [|reflexivity]. destruct (bind_text s); [|reflexivity]. cbn. by apply Hk.
Qed.

(** Never backwards, as long as the peer's consent is the one read. *)
Definition forward_if (p c : pystr) (d d' : db) : Prop := consent_of d p = Some c -> forward d d'.

#[export] Instance forward_if_preorder p c : PreOrder (forward_if p c).
Proof.
  split; [by intros d _|]. intros a b d K1 K2 Ha. specialize (K1 Ha). etrans; [exact K1|].
  apply K2. by rewrite (fw_consent _ _ K1).
Qed.

Lemma forward_if_on_db {A} p c (m : M db A) : pres forward m -> pres (on_dbs (forward_if p c)) (on_db m).
Proof. intros Hm. apply pres_on_db. intros d _. apply Hm. Qed.

Lemma forward_if_world {A} p c (m : W A) : pres (on_dbs forward) m -> pres (on_dbs (forward_if p c)) m.
Proof. intros Hm w _. apply Hm. Qed.

Lemma forward_if_upsert p c ip fp ru mb now :
  pres (on_dbs (forward_if p c)) (on_db (upsert_peer p ip fp c ru mb now)).
Proof.
  apply pres_on_db. intros d Hd. unfold consent_of in Hd. destruct (peers d !! p) as [r|] eqn:E; [|done].
  injection Hd as <-. by apply forward_upsert.
Qed.

(** Operations every handshake direction is made of. *)
Ltac link_auto :=
  repeat first
    [ progress simplify_eq
    | solve [ eauto 2 with world ]
    | solve [ apply db_same_lift; [typeclasses eauto | eauto 2 with world] ]
    | apply pres_bind_of_res; [typeclasses eauto | intros ? ?]
    | apply pres_bind2; [typeclasses eauto | intros ? ? ? ?]
    | pres_step
    | progress unfold bind ].

Lemma same_get_peer_v v : pres db_same (get_peer_v v).
Proof. intros w. by rewrite get_peer_v_run. Qed.

Lemma same_on_db {A} (m : M db A) : pres eq m -> pres db_same (on_db m).
Proof. by apply pres_on_db. Qed.

Lemma same_get_session_key k : pres db_same (on_db (get_session_key k)).
Proof. apply same_on_db, pres_gets. typeclasses eauto. Qed.

Lemma same_get_pending k : pres db_same (on_db (get_pending_handshake k)).
Proof. apply same_on_db, pres_gets. typeclasses eauto. Qed.

Lemma same_get_peer k : pres db_same (on_db (get_peer k)).
Proof. apply same_on_db, pres_gets. typeclasses eauto. Qed.

(** The responder's direction, from the point where the peer is known. *)
Lemma on_session_open_spec idn env now ttl w :
  link_wf (w_db w) ->
  forall out w', on_session_open idn env now ttl w = (out, w') -> forward (w_db w) (w_db w') /\ link_wf (w_db w').
Proof.
  intros Hwf out w'. unfold on_session_open. rewrite bind_run.
  pose proof (get_known_peer_same (jget_none (u "sender_key_id") env) w) as Hs.
  destruct (get_known_peer _ w) as [[[r|]|e] w1] eqn:E; unfold db_same, on_dbs in Hs; cbn in Hs;
    [|intros [= <- <-]; rewrite <- Hs; split; [reflexivity|done]..].
  apply get_known_peer_some in E as (-> & p & Hp & Hr). clear Hs.
  match goal with |- ?m w = _ -> _ => set (rest := m) end.
  assert (pres (on_dbs (forward_if p (consent_state r))) rest) as Hf.
  { unfold rest. link_auto;
      try first [ apply db_same_lift; [typeclasses eauto|first [apply same_get_session_key|apply same_get_peer|apply same_get_peer_v]]
                | apply forward_if_on_db; first [apply forward_save_key|apply forward_create_session]
                | apply forward_if_world, forward_local_mailbox ].
    rewrite Hp in *. simplify_eq. apply forward_if_upsert. }
  assert (pres (keeps_wf (Some p)) rest) as Hk.
  { unfold rest. link_auto; rewrite ?Hp in *; simplify_eq;
      try first [ apply keeps_wf_same; first [apply same_get_session_key|apply same_get_peer|apply same_get_peer_v]
                | apply keeps_wf_on_db; first [apply keeps_save_key|apply keeps_create_session|apply keeps_upsert]
                | apply keeps_local_mailbox ]. }
  clearbody rest. intros Hrun. specialize (Hf w). specialize (Hk w). rewrite Hrun in Hf, Hk. split.
  - apply Hf. unfold consent_of. by rewrite Hr.
  - apply Hk. split; [done|]. intros q [= <-]. by exists r.
Qed.

Lemma complete_session_spec idn env now w :
  link_wf (w_db w) ->
  forall out w', complete_session idn env now w = (out, w') -> forward (w_db w) (w_db w') /\ link_wf (w_db w').
Proof.
  intros Hwf out w'. unfold complete_session. rewrite bind_run.
  pose proof (get_known_peer_same (jget_none (u "sender_key_id") env) w) as Hs.
  destruct (get_known_peer _ w) as [[[r|]|e] w1] eqn:E; unfold db_same, on_dbs in Hs; cbn in Hs;
    [|intros [= <- <-]; rewrite <- Hs; split; [reflexivity|done]..].
  apply get_known_peer_some in E as (-> & p & Hp & Hr). clear Hs.
  match goal with |- ?m w = _ -> _ => set (rest := m) end.
  assert (pres (on_dbs forward) rest) as Hf.
  { unfold rest. link_auto;
      try first [ apply db_same_lift; [typeclasses eauto|first [apply same_get_session_key|apply same_get_pending]]
                | apply pres_on_db; first [apply forward_save_key|apply forward_create_session|apply forward_clear_pending] ]. }
  assert (pres (keeps_wf (Some p)) rest) as Hk.
  { unfold rest. link_auto; rewrite ?Hp in *; simplify_eq;
      try first [ apply keeps_wf_same; first [apply same_get_session_key|apply same_get_pending]
                | apply keeps_wf_on_db; first [apply keeps_save_key|apply keeps_create_session|apply keeps_clear_pending] ]. }
  clearbody rest. intros Hrun. specialize (Hf w). specialize (Hk w). rewrite Hrun in Hf, Hk.
  split; [exact Hf|].
  apply Hk. split; [done|]. intros q [= <-]. by exists r.
Qed.
End session_lemmas.

(** ** The handshake, leg by leg *)
Section handshake.
Context `{PyLib, Crypto, !CryptoLaws, Sqlite, Env}.
(** The random source yields bytes, and a Diffie-Hellman exchange with an honest
    public key succeeds (the library refuses only low-order points). *)
Context (Hrand : forall t n, Forall byte_ok (urandom t n)).
Context (Hdh : forall a b, is_Some (x_dh a (x_pub b))).

Definition mailbox_ok (d : db) : Prop :=
  (forall m, local_identity d !! u "relay_mailbox" = Some m -> str_ok m /\ m <> []) /\
  (forall p r m, peers d !! p = Some r -> relay_mailbox r = Some m -> str_ok m).

Definition no_session_with (p : pystr) (d : db) : Prop := forall s, session_keys d !! (p, s) = None.

Lemma token_bytes_run n w :
  token_bytes n w = (Ok (urandom (w_trace w) n), upd_trace (EvRandom n :: w_trace w) w).
Proof. reflexivity. Qed.

Lemma token_hex_run n w :
  token_hex n w = (Ok (to_hex (urandom (w_trace w) n)), upd_trace (EvRandom n :: w_trace w) w).
Proof. reflexivity. Qed.

Lemma prefixed_ok (s : string) h : str_ok (u s) -> Forall byte_ok h -> str_ok (u s ++ to_hex h).
Proof. intros Hs Hh. apply Forall_app. split; [done|by apply to_hex_ok]. Qed.

Lemma local_mailbox_run w :
  mailbox_ok (w_db w) ->
  exists m w', get_or_create_local_mailbox w = (Ok m, w') /\ str_ok m /\ m <> [] /\
    w_db w' = upd_local_identity (local_identity (w_db w')) (w_db w).
Proof.
  intros [Hm _]. unfold get_or_create_local_mailbox. rewrite bind_run, on_db_gets.
  destruct (local_identity (w_db w) !! _) as [m|] eqn:E.
  - exists m, w. split_and!; [done| | |by destruct (w_db w)]; by apply (Hm m).
  - rewrite bind_run, token_hex_run. cbv zeta. rewrite bind_run, on_db_run.
    eexists _, _. split; [reflexivity|]. split_and!; [|done|done].
    apply prefixed_ok; [|apply Hrand]. repeat constructor; unfold char_ok; lia.
Qed.

(** Leg 1: the initiator always gets an envelope, and remembers its half. *)
Lemma open_session_run idn p now ttl w :
  str_ok p -> mailbox_ok (w_db w) -> no_session_with p (w_db w) -> dt_ok (now + ttl) ->
  exists env w' eph nonce sid smb rm,
    open_session idn p now ttl w = (Ok env, w') /\
    build_session_open idn (JStr p) rm (JStr sid) (x_pub eph) nonce (JStr smb) now ttl = Ok env /\
    pending_handshakes (w_db w') !! (p, sid) = Some {| my_eph_priv_raw := eph; h_bootstrap_nonce := nonce;
      h_my_role := ROLE_INITIATOR; h_created_at := isoformat now |} /\
    session_keys (w_db w') = session_keys (w_db w) /\ peers (w_db w') = peers (w_db w) /\
    str_ok sid /\ json_ok rm /\ str_ok smb /\ smb <> [] /\ Forall byte_ok nonce.
Proof.
  intros Hp Hm Hs Ht. unfold open_session. rewrite bind_run, token_hex_run. cbv zeta.
  set (w1 := upd_trace _ w). set (sid := u "ks_" ++ to_hex _).
  rewrite bind_run. unfold get_session_key at 1. rewrite on_db_gets. cbn [mbind option_bind].
  change (w_db w1) with (w_db w). rewrite Hs. rewrite bind_run, token_bytes_run.
  set (w2 := upd_trace _ w1). rewrite bind_run, token_bytes_run. set (w3 := upd_trace _ w2).
  set (eph := urandom (w_trace w1) 32). set (nonce := urandom (w_trace w2) 16).
  rewrite bind_run, on_db_run. cbn [save_pending_handshake modify fst snd]. set (w4 := upd_db _ w3).
  rewrite bind_run. unfold get_peer at 1. rewrite on_db_gets. cbv zeta.
  set (rm := match _ with Some _ => _ | None => _ end).
  assert (json_ok rm) as Hrm.
  { unfold rm. cbn [mbind option_bind]. destruct (peers (w_db w4) !! p) as [r|] eqn:E; [|by constructor].
    destruct (relay_mailbox r) as [m|] eqn:Em; [|done]. cbn. by eapply (proj2 Hm p r). }
  rewrite bind_run. destruct (local_mailbox_run w4) as (smb & w5 & -> & Hsmb & Hne & Hdb); [exact Hm|].
  assert (str_ok sid) as Hsid.
  { apply prefixed_ok; [|apply Hrand]. repeat constructor; unfold char_ok; lia. }
  destruct (build_session_open_ok idn (JStr p) rm (JStr sid) (x_pub eph) nonce (JStr smb) now ttl)
    as (env & _ & _ & Henv & _); [done|done|done|done|apply x_pub_bytes|apply Hrand|done|].
  unfold of_res. rewrite Henv. exists env, w5, eph, nonce, sid, smb, rm.
  split_and!; try done; try (rewrite Hdb; cbn; done); [|apply Hrand].
  rewrite Hdb. cbn. by rewrite lookup_insert_eq.
Qed.

Lemma bind_text_ok s : str_ok s -> bind_text (JStr s) = Ok (Some s).
Proof. intros Hs. cbn. by destruct (utf8_encode_ok s Hs) as [b ->]. Qed.

Lemma encode_ok s : str_ok s -> exists b, encode s = Ok b.
Proof. intros Hs. unfold encode. destruct (utf8_encode_ok s Hs) as [b ->]. by exists b. Qed.

Lemma derive_ok my_priv their_priv fa fb sid nonce :
  str_ok fa -> str_ok fb -> str_ok sid ->
  exists k, derive_session_key my_priv (x_pub their_priv) fa fb (JStr sid) nonce = Ok k.
Proof.
  intros Ha Hb Hs. unfold derive_session_key. destruct (Hdh my_priv their_priv) as [x ->]. cbn [or_raise mbind res_bind].
  unfold sorted2. destruct (encode_ok fa Ha) as [ba Ea], (encode_ok fb Hb) as [bb Eb], (encode_ok sid Hs) as [bs Es].
  destruct (str_ltb fb fa); do 3 (cbn -[encode]; rewrite ?Ea, ?Eb, ?Es); cbn; eauto.
Qed.

(** A pending or responding peer in the database. *)
Definition trusts (d : db) (p : pystr) (idn : KindledIdentity) : Prop :=
  exists r, peers d !! p = Some r /\ p = key_id idn /\ identity_pub r = to_hex (public_bytes idn) /\
    consent_state r ∈ CONSENT_STATES.

Lemma trusts_pub d p idn r :
  trusts d p idn -> peers d !! p = Some r -> from_hex (identity_pub r) = Some (public_bytes idn).
Proof.
  intros (r' & Hr & _ & Hp & _) Hr'. rewrite Hr in Hr'. simplify_eq. rewrite Hp.
  apply from_hex_to_hex, ed_pub_bytes.
Qed.

Lemma key_id_ok idn : str_ok (key_id idn).
Proof. apply fingerprint_ok. Qed.

Lemma key_id_truthy idn : jtruthy (JStr (key_id idn)) = true.
Proof. reflexivity. Qed.

Lemma get_known_run idn w r :
  peers (w_db w) !! key_id idn = Some r ->
  get_known_peer (JStr (key_id idn)) w = (Ok (Some r), w).
Proof.
  intros Hr. unfold get_known_peer. rewrite key_id_truthy, get_peer_v_run, bind_text_ok by apply key_id_ok.
  cbn [mbind res_bind option_bind]. by rewrite Hr.
Qed.

Lemma fromhex_hex b : Forall byte_ok b -> fromhex (JStr (to_hex b)) = Ok b.
Proof. intros Hb. cbn -[to_hex from_hex]. by rewrite from_hex_to_hex. Qed.

Lemma derive_with_str eph pub fp p sid nonce :
  derive_with eph pub fp (JStr p) sid nonce = derive_session_key eph pub fp p sid nonce.
Proof. reflexivity. Qed.

(** Leg 2: an honest opening is always answered, and the key is stored. *)
Lemma on_session_open_run idA idB rm sid ephA nonce smb leg1 t1 now ttl w :
  trusts (w_db w) (key_id idA) idA -> mailbox_ok (w_db w) -> no_session_with (key_id idA) (w_db w) ->
  str_ok sid -> json_ok rm -> str_ok smb -> smb <> [] -> Forall byte_ok nonce -> 
  dt_ok (t1 + ttl) -> dt_ok ((t1 + ttl) / sec * sec + SKEW) -> (now <= (t1 + ttl) / sec * sec + SKEW)%Z ->
  dt_ok (now + ttl) ->
  build_session_open idA (JStr (key_id idB)) rm (JStr sid) (x_pub ephA) nonce (JStr smb) t1 ttl = Ok leg1 ->
  exists leg2 w' ephB k smbB rmB,
    on_session_open idB leg1 now ttl w = (Ok (Some leg2), w') /\
    build_session_open idB (JStr (key_id idA)) rmB (JStr sid) (x_pub ephB) nonce (JStr smbB) now ttl = Ok leg2 /\
    json_ok rmB /\ str_ok smbB /\
    derive_session_key ephB (x_pub ephA) (key_id idB) (key_id idA) (JStr sid) nonce = Ok k /\
    session_keys (w_db w') !! (key_id idA, sid) = Some {| session_key := k; my_role := ROLE_RESPONDER;
      peer_role := ROLE_INITIATOR; established_at := isoformat now |}.
Proof.
  intros Htr Hmb Hns Hsid Hrm Hsmb Hne Hnonce Ht Hsk Hnow Ht2 Hb.
  destruct (parse_session_open_build idA (JStr (key_id idB)) rm (JStr sid) (x_pub ephA) nonce (JStr smb) t1 ttl now)
    as (env & Henv & Hsender & Hs & Hparse); [apply key_id_ok|done|done|done|apply x_pub_bytes|done..|].
  rewrite Hb in Henv. injection Henv as <-.
  pose proof Htr as (r & Hr & _ & _ & Hcs). unfold on_session_open, jget_none. rewrite Hsender, Hs. cbn [from_option id].
  rewrite bind_run, (get_known_run idA w r Hr). rewrite (trusts_pub _ _ _ _ Htr Hr). cbn [of_option].
  rewrite bind_run. cbn [mret M_ret]. rewrite bind_run. unfold of_res at 1. rewrite Hparse.
  rewrite bind_run, bind2_run, !bind_text_ok by (done || apply key_id_ok). cbn [mbind res_bind key2].
  rewrite bind_run. unfold get_session_key at 1. rewrite on_db_gets. cbn [mbind option_bind]. rewrite Hns.
  cbv zeta. change (jget (u "sender_mailbox") _) with (Some (JStr smb)). cbn [from_option id].
  assert (jtruthy (JStr smb) = true) as Htt by (by destruct smb). rewrite Htt. cbv iota. rewrite Htt.
  rewrite bind_run. unfold bind, of_res at 1. rewrite bind_text_ok by apply key_id_ok.
  rewrite bind_run. unfold bind. rewrite bind_run. unfold of_res at 1. rewrite bind_text_ok by done.
  rewrite on_db_run. unfold upsert_peer. rewrite (proj2 (mem_spec _ _) Hcs). cbn [negb]. unfold modify at 1 2. cbn [fst snd]. cbv beta iota.
  set (w1 := upd_db _ w). rewrite bind_run, token_bytes_run. set (ephB := urandom _ 32). set (w2 := upd_trace _ w1).
  rewrite bind_run. unfold of_res at 1. change (jindex (u "ephemeral_pub") _) with (Ok (JStr (to_hex (x_pub ephA)))). cbv beta iota.
  rewrite bind_run. unfold of_res at 1. rewrite fromhex_hex by apply x_pub_bytes.
  rewrite bind_run. unfold of_res at 1. change (jindex (u "bootstrap_nonce") _) with (Ok (JStr (to_hex nonce))). cbv beta iota.
  rewrite bind_run. unfold of_res at 1. rewrite fromhex_hex by done.
  destruct (derive_ok ephB ephA (key_id idB) (key_id idA) sid nonce) as [k Hk]; [apply key_id_ok|apply key_id_ok|done|].
  rewrite bind_run, derive_with_str. unfold of_res at 1. rewrite Hk.
  rewrite bind_run, on_db_run. unfold save_session_key. cbn [modify fst snd].
  change (session_keys (w_db w2)) with (session_keys (w_db w)). rewrite Hns. set (w3 := upd_db _ w2).
  rewrite bind_run, on_db_run. unfold create_session. cbn [modify fst snd]. set (w4 := upd_db _ w3).
  assert (session_keys (w_db w4) !! (key_id idA, sid) = Some {| session_key := k; my_role := ROLE_RESPONDER;
      peer_role := ROLE_INITIATOR; established_at := isoformat now |} /\
    local_identity (w_db w4) = local_identity (w_db w) /\ peers (w_db w4) = peers (w_db w1)) as (Hw4 & Hl4 & Hp4).
  { unfold w4, w3. cbn. destruct (sessions _ !! _); cbn; split_and!; try done; by rewrite lookup_insert_eq. }
  clearbody w4. rewrite bind_run. destruct (local_mailbox_run w4) as (smbB & w5 & -> & HsB & HneB & Hdb).
  { split; [by rewrite Hl4; apply Hmb|]. rewrite Hp4. unfold w1. cbn. intros q r' m.
    destruct (decide (q = key_id idA)) as [->|].
    - rewrite lookup_insert_eq, Hr. intros [= <-]. by intros [= <-].
    - rewrite lookup_insert_ne by done. apply Hmb. }
  rewrite bind_run. cbn [mret M_ret].
  destruct (build_session_open_ok idB (JStr (key_id idA)) (JStr smb) (JStr sid) (x_pub ephB) nonce (JStr smbB) now ttl)
    as (leg2 & _ & _ & Hleg2 & _); [apply key_id_ok|done|done|done|apply x_pub_bytes|done|done|].
  rewrite bind_run. unfold of_res. rewrite Hleg2.
  exists leg2, w5, ephB, k, smbB, (JStr smb). split_and!; try done.
  rewrite Hdb. exact Hw4.
Qed.

(** Leg 3: an honest answer to a pending handshake is always taken. *)
Lemma complete_session_run idA idB rm sid ephA ephB nonce smb leg2 t1 now ttl k w :
  trusts (w_db w) (key_id idB) idB -> no_session_with (key_id idB) (w_db w) ->
  pending_handshakes (w_db w) !! (key_id idB, sid) = Some {| my_eph_priv_raw := ephA; h_bootstrap_nonce := nonce;
      h_my_role := ROLE_INITIATOR; h_created_at := isoformat t1 |} ->
  str_ok sid -> json_ok rm -> str_ok smb -> Forall byte_ok nonce ->
  forall t2, dt_ok (t2 + ttl) -> dt_ok ((t2 + ttl) / sec * sec + SKEW) -> (now <= (t2 + ttl) / sec * sec + SKEW)%Z ->
  build_session_open idB (JStr (key_id idA)) rm (JStr sid) (x_pub ephB) nonce (JStr smb) t2 ttl = Ok leg2 ->
  derive_session_key ephA (x_pub ephB) (key_id idA) (key_id idB) (JStr sid) nonce = Ok k ->
  exists w', complete_session idA leg2 now w = (Ok tt, w') /\
    session_keys (w_db w') !! (key_id idB, sid) = Some {| session_key := k; my_role := ROLE_INITIATOR;
      peer_role := ROLE_RESPONDER; established_at := isoformat now |} /\
    pending_handshakes (w_db w') !! (key_id idB, sid) = None.
Proof.
  intros Htr Hns Hpend Hsid Hrm Hsmb Hnonce t2 Ht Hsk Hnow Hb Hk.
  destruct (parse_session_open_build idB (JStr (key_id idA)) rm (JStr sid) (x_pub ephB) nonce (JStr smb) t2 ttl now)
    as (env & Henv & Hsender & Hs & Hparse); [apply key_id_ok|done|done|done|apply x_pub_bytes|done..|].
  rewrite Hb in Henv. injection Henv as <-.
  pose proof Htr as (r & Hr & _ & _ & Hcs). unfold complete_session, jget_none. rewrite Hsender, Hs. cbn [from_option id].
  rewrite bind_run, (get_known_run idB w r Hr), (trusts_pub _ _ _ _ Htr Hr). cbn [of_option].
  rewrite bind_run. cbn [mret M_ret]. rewrite bind_run. unfold of_res at 1. rewrite Hparse.
  rewrite bind_run, bind2_run, !bind_text_ok by (done || apply key_id_ok). cbn [mbind res_bind key2].
  rewrite bind_run. unfold get_pending_handshake at 1. rewrite on_db_gets. cbn [mbind option_bind]. rewrite Hpend.
  rewrite bind_run. unfold get_session_key at 1. rewrite on_db_gets. cbn [mbind option_bind]. rewrite Hns.
  rewrite bind_run. unfold of_res at 1. change (jindex (u "ephemeral_pub") _) with (Ok (JStr (to_hex (x_pub ephB)))). cbv beta iota.
  rewrite bind_run. unfold of_res at 1. rewrite fromhex_hex by apply x_pub_bytes.
  rewrite bind_run, derive_with_str. unfold of_res at 1. cbn [my_eph_priv_raw h_bootstrap_nonce]. rewrite Hk.
  rewrite bind_run, on_db_run. unfold save_session_key. cbn [modify fst snd]. rewrite Hns.
  rewrite bind_run, on_db_run. unfold create_session. cbn [modify fst snd].
  rewrite on_db_run. eexists. split; [reflexivity|]. cbn.
  destruct (sessions (w_db w) !! _); cbn; by rewrite lookup_insert_eq, lookup_delete_eq.
Qed.
End handshake.

(** ** Properties *)
Section session_properties.
Context `{PyLib, Crypto, !CryptoLaws, Sqlite, Env}.

End session_properties.

(** ** Witnesses *)
Definition peer_of (state pub : pystr) : peer_row :=
  {| identity_pub := pub; p_fingerprint := []; consent_state := state; relay_url := None;
     relay_mailbox := Some (u "mbx_1"); p_created_at := []; p_updated_at := []; previous_identity_pub := None |}.

(** A database that knows one paired peer. *)
Definition paired_db `{Crypto} (idn : KindledIdentity) : db :=
  upd_peers {[ key_id idn := peer_of (u "paired") (to_hex (public_bytes idn)) ]} empty_db.

Section session_witnesses.
#[local] Existing Instance ascii_pylib.
#[local] Existing Instance toy_crypto.
#[local] Existing Instance toy_crypto_laws.
#[local] Existing Instance toy_sqlite.
#[local] Instance silent_env : Env := demo_env silent_relay [].

Lemma paired_trusts idn : trusts (paired_db idn) (key_id idn) idn.
Proof.
  exists (peer_of (u "paired") (to_hex (public_bytes idn))). split_and!; [|done|done|].
  - apply lookup_singleton_eq.
  - apply mem_spec. reflexivity.
Qed.

Lemma paired_mailbox idn : mailbox_ok (paired_db idn).
Proof.
  split; [done|]. intros p r m Hp. cbn in Hp. apply lookup_singleton_Some in Hp as [_ <-].
  intros [= <-]. repeat constructor; unfold char_ok; lia.
Qed.

Lemma demo_random t n : Forall byte_ok (urandom t n).
Proof.
  cbn. apply Forall_forall. intros x Hx. apply list_elem_of_In, repeat_spec in Hx as ->.
  unfold byte_ok. apply N.mod_lt. lia.
Qed.

Lemma toy_dh a b : is_Some (x_dh a (x_pub b)).
Proof. cbn. eauto. Qed.

Definition idn1 : KindledIdentity := {| priv := [1%N] |}.
Definition idn2 : KindledIdentity := {| priv := [2%N] |}.

End session_witnesses.
