(* ===== verification/Pairing.v ===== *)
(** [brain/kindled_link/pairing.py]: signed single-use invites and the consent
    steps.  The invite comes from outside, so it is an arbitrary JSON value. *)
From S2P Require Import Prelude PyFloat PyTime Json Crypto Protocol LinkStore World Session.

Definition PROTOCOL : pystr := u "kindled-link/1".
Definition INVITE_TTL : Z := (7 * day)%Z.

Section pairing.
Context `{PyLib, Crypto, Sqlite, Env}.

Definition create_invite (idn : KindledIdentity) (relay_url_ : json) (mailbox_id : option pystr)
    (now : Z) : W json :=
  h ← token_hex 8;
  exp ← of_res (dt_add now INVITE_TTL);
  let body := JObj ([(u "protocol", JStr PROTOCOL); (u "invite_id", JStr (u "inv_" ++ h));
      (u "relay_url", relay_url_); (u "identity_pub", JStr (to_hex (public_bytes idn)));
      (u "fingerprint", JStr (key_id idn)); (u "expires_at", JStr (isoformat exp))]
    ++ match mailbox_id with Some m => [(u "mailbox_id", JStr m)] | None => [] end) in
  b ← of_res (canonical body);
  mret (JObj [(u "body", body); (u "signature", JStr (to_hex (sign idn b)))]).

(** [x[k]] on a value of any type: a list or text indexed by a name raises
    [TypeError]. *)
Definition jsubscript (k : pystr) (v : json) : res json :=
  match v with JObj _ => jindex k v | _ => Err TypeError end.

(** [body.get(k)]. *)
Definition jattr_get (k : pystr) (v : json) : res json :=
  match v with JObj _ => Ok (jget_none k v) | _ => Err AttributeError end.

(** The guarded part: what the packet says, once verified.  The result is the
    body and the public key. *)
Definition check_invite (invite : json) (now : Z) : W (json * pybytes) :=
  body ← of_res (jsubscript (u "body") invite);
  sh ← of_res (jsubscript (u "signature") invite);
  sig ← of_res (fromhex sh);
  ph ← of_res (jsubscript (u "identity_pub") body);
  pub ← of_res (fromhex ph);
  proto ← of_res (jattr_get (u "protocol") body);
  if negb (jis_str PROTOCOL proto) then raise (InviteError (u "protocol_mismatch")) else
  b ← of_res (canonical body);
  if negb (verify pub sig b) then raise (InviteError (u "bad_signature")) else
  fp ← of_res (jsubscript (u "fingerprint") body);
  if negb (jis_str (fingerprint pub) fp) then raise (InviteError (u "fingerprint_mismatch")) else
  ea ← of_res (jsubscript (u "expires_at") body);
  exp ← of_res (match ea with
                | JStr s => d ← fromisoformat s; instant d
                | _ => Err TypeError end);
  if (exp <? now)%Z then raise (InviteError (u "expired")) else
  iid ← of_res (jsubscript (u "invite_id") body);
  i ← bind iid;
  used ← on_db (is_invite_consumed i);
  if (used : bool) then raise (InviteError (u "invite_consumed")) else
  mret (body, pub).

(** [except InviteError: raise; except (KeyError, ValueError, TypeError,
    AttributeError): raise InviteError]. *)
Definition malformed {A} (e : exn) : option (W A) :=
  match e with
  | InviteError _ => None
  | KeyError | TypeError | AttributeError => Some (raise (InviteError (u "malformed_invite")))
  | _ => if is_ValueError e then Some (raise (InviteError (u "malformed_invite"))) else None
  end.

(** The peer id and its fingerprint phrase. *)
Definition import_invite (invite : json) (now : Z) : W (pystr * pystr) :=
  bp ← catch (check_invite invite now) malformed;
  let '(body, pub) := bp in
  iid ← of_res (jsubscript (u "invite_id") body);
  i ← bind iid;
  on_db (mark_invite_consumed i now);;
  let fp := fingerprint pub in
  ru ← of_res (jsubscript (u "relay_url") body);
  mb ← of_res (jattr_get (u "mailbox_id") body);
  ru ← bind ru;
  mb ← bind mb;
  on_db (upsert_peer fp (to_hex pub) fp (u "pending_local") ru mb now);;
  mret (fp, fingerprint_phrase pub).

Definition confirm_local_fingerprint (peer_id : pystr) (now : Z) : W unit :=
  on_db (set_consent peer_id (u "pending_remote") now).

Definition mark_remote_paired (peer_id : pystr) (now : Z) : W unit :=
  on_db (set_consent peer_id (u "paired") now).
End pairing.

(** ** Lemmas *)
Section pairing_lemmas.
Context `{PyLib, Crypto, Sqlite, Env}.

(** What a packet that passed the checks says. *)
Record valid_invite (invite : json) (now : Z) (body : json) (pub : pybytes) (i : option pystr) : Prop := {
  vi_body : jsubscript (u "body") invite = Ok body;
  vi_pub : (p ← jsubscript (u "identity_pub") body; fromhex p) = Ok pub;
  vi_signed : exists sig b, (s ← jsubscript (u "signature") invite; fromhex s) = Ok sig /\
    canonical body = Ok b /\ verify pub sig b = true;
  vi_fingerprint : jsubscript (u "fingerprint") body = Ok (JStr (fingerprint pub));
  vi_protocol : jattr_get (u "protocol") body = Ok (JStr PROTOCOL);
  vi_unexpired : exists ea t, jsubscript (u "expires_at") body = Ok (JStr ea) /\
    (d ← fromisoformat ea; instant d) = Ok t /\ (now <= t)%Z;
  vi_id : (v ← jsubscript (u "invite_id") body; bind_text v) = Ok i }.

Lemma jis_str_spec s v : jis_str s v = true -> v = JStr s.
Proof. destruct v; simpl; try done. intros Hb. apply bool_decide_eq_true in Hb. congruence. Qed.

Lemma check_invite_spec invite now w out w' :
  check_invite invite now w = (out, w') ->
  w_db w' = w_db w /\
  forall body pub, out = Ok (body, pub) ->
    exists i, valid_invite invite now body pub i /\ (is_invite_consumed i (w_db w)).1 = Ok false.
Proof.
  unfold check_invite.
  rewrite bind_run; unfold of_res at 1; destruct (jsubscript (u "body") invite) as [body|] eqn:Eb; [|by intros [= <- <-]].
  rewrite bind_run; unfold of_res at 1; destruct (jsubscript (u "signature") invite) as [sh|] eqn:Es; [|by intros [= <- <-]].
  rewrite bind_run; unfold of_res at 1; destruct (fromhex sh) as [sig|] eqn:Esig; [|by intros [= <- <-]].
  rewrite bind_run; unfold of_res at 1; destruct (jsubscript (u "identity_pub") body) as [ph|] eqn:Ep; [|by intros [= <- <-]].
  rewrite bind_run; unfold of_res at 1; destruct (fromhex ph) as [pub|] eqn:Epub; [|by intros [= <- <-]].
  rewrite bind_run; unfold of_res at 1; destruct (jattr_get (u "protocol") body) as [proto|] eqn:Eproto; [|by intros [= <- <-]].
  destruct (jis_str PROTOCOL proto) eqn:Ejp; [|by intros [= <- <-]]. cbn [negb].
  rewrite bind_run; unfold of_res at 1; destruct (canonical body) as [b|] eqn:Ecb; [|by intros [= <- <-]].
  destruct (verify pub sig b) eqn:Ev; [|by intros [= <- <-]]. cbn [negb].
  rewrite bind_run; unfold of_res at 1; destruct (jsubscript (u "fingerprint") body) as [fp|] eqn:Efp; [|by intros [= <- <-]].
  destruct (jis_str (fingerprint pub) fp) eqn:Ejf; [|by intros [= <- <-]]. cbn [negb].
  rewrite bind_run; unfold of_res at 1; destruct (jsubscript (u "expires_at") body) as [ea|] eqn:Eea; [|by intros [= <- <-]].
  rewrite bind_run; unfold of_res at 1.
  destruct (match ea with JStr s => d ← fromisoformat s; instant d | _ => Err TypeError end) as [t|] eqn:Et; [|by intros [= <- <-]].
  destruct (Z.ltb_spec t now); [by intros [= <- <-]|].
  rewrite bind_run; unfold of_res at 1; destruct (jsubscript (u "invite_id") body) as [iid|] eqn:Eid; [|by intros [= <- <-]].
  rewrite bind_run; unfold bind, of_res at 1; destruct (bind_text iid) as [i|] eqn:Ei; [|by intros [= <- <-]].
  rewrite bind_run. unfold is_invite_consumed at 1. rewrite on_db_gets.
  match goal with |- (if ?c then _ else _) w = _ -> _ => destruct c eqn:Eu end; [by intros [= <- <-]|].
  intros [= <- <-]. split; [done|]. intros body' pub' [= <- <-]. exists i. split; [|by unfold is_invite_consumed, gets; rewrite Eu].
  apply jis_str_spec in Ejp as ->. apply jis_str_spec in Ejf as ->. split; try done.
  - by rewrite Ep.
  - exists sig, b. by rewrite Es.
  - destruct ea; try done. exists s, t. by split_and!.
  - by rewrite Eid.
Qed.

Lemma malformed_run {A} e (w : world) :
  exists e', match malformed (A := A) e with Some k => k w = (Err e', w) | None => e' = e end.
Proof.
  unfold malformed. destruct e; cbn; eauto; try (eexists; reflexivity).
Qed.

(** An import that came back: the packet was valid, its id is now consumed, and
    the peer is stored as pending. *)
Lemma import_invite_spec invite now w r w' :
  import_invite invite now w = (Ok r, w') ->
  exists body pub i, valid_invite invite now body pub i /\
    (is_invite_consumed i (w_db w)).1 = Ok false /\
    r = (fingerprint pub, fingerprint_phrase pub) /\
    (exists ru mb, (u "pending_local") ∈ CONSENT_STATES /\
       w_db w' = (upsert_peer (fingerprint pub) (to_hex pub) (fingerprint pub) (u "pending_local") ru mb now
                   (mark_invite_consumed i now (w_db w)).2).2).
Proof.
  unfold import_invite. rewrite bind_run. unfold catch.
  destruct (check_invite invite now w) as [[[body pub]|e] w1] eqn:Ec.
  2: { destruct (@malformed_run (json * pybytes) e w1) as [e' He]. destruct (malformed e); [by rewrite He|done]. }
  apply check_invite_spec in Ec as [Hd Hv]. destruct (Hv body pub eq_refl) as (i & Hvi & Hu).
  pose proof (vi_id _ _ _ _ _ Hvi) as Hid. rewrite bind_run. unfold of_res at 1.
  destruct (jsubscript (u "invite_id") body) as [iid|]; [|done]. cbn [mbind res_bind] in Hid.
  rewrite bind_run. unfold bind, of_res at 1. rewrite Hid. rewrite bind_run, on_db_run, Hd.
  destruct (mark_invite_consumed i now (w_db w)) as [[[]|e] d1] eqn:Em; [|done]. cbn [fst snd].
  cbv zeta. rewrite bind_run. unfold of_res at 1. destruct (jsubscript (u "relay_url") body) as [ru|]; [|done].
  rewrite bind_run. unfold of_res at 1. destruct (jattr_get (u "mailbox_id") body) as [mb|]; [|done].
  rewrite bind_run. unfold of_res at 1. destruct (bind_text ru) as [rt|]; [|done].
  rewrite bind_run. unfold of_res at 1. destruct (bind_text mb) as [mt|]; [|done].
  rewrite bind_run, on_db_run. change (w_db (upd_db d1 w1)) with d1.
  assert (mem (u "pending_local") CONSENT_STATES = true) as Hm by reflexivity.
  assert (exists d2, upsert_peer (fingerprint pub) (to_hex pub) (fingerprint pub) (u "pending_local") rt mt now d1 = (Ok tt, d2)) as [d2 E2].
  { unfold upsert_peer. rewrite Hm. by eexists. }
  rewrite E2. cbn [fst snd mret M_ret]. intros [= <- <-].
  exists body, pub, i. split_and!; [done|done|done|]. exists rt, mt. split; [by apply mem_spec|]. rewrite Em. cbn [snd]. by rewrite E2.
Qed.
End pairing_lemmas.

(** ** Properties *)
Section pairing_properties.
Context `{PyLib, Crypto, Sqlite, Env}.

(** An invite is imported only if it is signed by the very key it introduces,
    its fingerprint is that key's, it speaks the protocol and has not expired;
    then its peer is stored as pending under that fingerprint, and nothing else
    about any other peer changes. *)
Theorem import_invite_sound (invite : json) (now : Z) (w w' : world) (fp phrase : pystr) :
  import_invite invite now w = (Ok (fp, phrase), w') ->
  exists body pub i, valid_invite invite now body pub i /\
    fp = fingerprint pub /\ phrase = fingerprint_phrase pub /\
    (exists r, peers (w_db w') !! fp = Some r /\ identity_pub r = to_hex pub /\ consent_state r = u "pending_local") /\
    (forall q, q <> fp -> peers (w_db w') !! q = peers (w_db w) !! q).
Proof.
  intros E. apply import_invite_spec in E as (body & pub & i & Hv & _ & Hr & ru & mb & Hm & Hd).
  injection Hr as -> ->. exists body, pub, i. split_and!; [done|done|done| |].
  all: assert (peers (mark_invite_consumed i now (w_db w)).2 = peers (w_db w)) as Hp
    by (unfold mark_invite_consumed; destruct i as [i|]; [|done]; rewrite bind_run; unfold get; by case_match).
  all: rewrite Hd; unfold upsert_peer; rewrite (proj2 (mem_spec _ _) Hm); cbn [negb modify snd upd_peers peers];
    unfold modify; cbn [snd upd_peers peers].
  - rewrite lookup_insert_eq. eexists. split; [done|]. by case_match.
  - intros q Hq. by rewrite lookup_insert_ne, Hp.
Qed.

(** An invite is single-use: once a packet was imported, no packet with the same
    (non-null) invite id is ever imported again, whoever signed it. *)
Theorem invite_single_use (invite invite' : json) (now now' : Z) (w w1 w2 : world) r (body body' : json) (i : pystr) :
  import_invite invite now w = (Ok r, w1) -> jsubscript (u "body") invite = Ok body ->
  jsubscript (u "body") invite' = Ok body' ->
  (v ← jsubscript (u "invite_id") body; bind_text v) = Ok (Some i) ->
  (v ← jsubscript (u "invite_id") body'; bind_text v) = Ok (Some i) ->
  (forall k t, consumed_invites (w_db w1) !! k = Some t -> is_Some (consumed_invites (w_db w2) !! k)) ->
  forall r', (import_invite invite' now' w2).1 <> Ok r'.
Proof.
  intros E Hb Hb' Hi Hi' Hmono r' E'.
  apply import_invite_spec in E as (b0 & pub & i0 & Hv & _ & _ & ru & mb & Hm & Hd).
  pose proof (vi_body _ _ _ _ _ Hv) as H3. rewrite Hb in H3. injection H3 as <-.
  pose proof (vi_id _ _ _ _ _ Hv) as H3. rewrite Hi in H3. injection H3 as <-.
  assert (is_Some (consumed_invites (w_db w1) !! i)) as [t Ht].
  { rewrite Hd. unfold upsert_peer. rewrite (proj2 (mem_spec _ _) Hm). cbn [negb]. unfold modify. cbn [snd upd_peers consumed_invites].
    unfold mark_invite_consumed. rewrite bind_run. unfold get.
    destruct (consumed_invites (w_db w) !! i) eqn:Ec; cbn; [by rewrite Ec|]. rewrite lookup_insert_eq. eauto. }
  destruct (import_invite invite' now' w2) as [out w3] eqn:E2. cbn in E'. subst out.
  apply import_invite_spec in E2 as (b1 & pub1 & i1 & Hv1 & Hu1 & _).
  pose proof (vi_body _ _ _ _ _ Hv1) as H3. rewrite Hb' in H3. injection H3 as <-.
  pose proof (vi_id _ _ _ _ _ Hv1) as H3. rewrite Hi' in H3. injection H3 as <-.
  unfold is_invite_consumed, gets in Hu1. cbn [fst] in Hu1. injection Hu1 as Hu1.
  apply bool_decide_eq_false in Hu1. apply Hu1. eauto.
Qed.
End pairing_properties.

(** ** Witnesses *)
Section pairing_witnesses.
#[local] Existing Instance ascii_pylib.
#[local] Existing Instance toy_crypto.
#[local] Existing Instance toy_sqlite.
#[local] Instance pairing_env : Env := demo_env silent_relay [].

Definition demo_invite : json :=
  match (create_invite idn1 (JStr (u "http://relay")) None day (world_of empty_db)).1 with
  | Ok v => v | Err _ => JNull end.
Definition demo_import : res (pystr * pystr) * world := import_invite demo_invite day (world_of empty_db).

Lemma import_invite_sound_witness :
  exists fp w', demo_import.1 = Ok fp /\ w' = demo_import.2 /\
    exists r, peers (w_db w') !! fp.1 = Some r /\ consent_state r = u "pending_local".
Proof.
  destruct demo_import as [[[fp phrase]|e] w'] eqn:E; [|vm_compute in E; discriminate E].
  exists (fp, phrase), w'. split; [done|]. split; [done|]. unfold demo_import in E.
  destruct (import_invite_sound _ _ _ _ _ _ E)
    as (body & pub & i & _ & _ & _ & (r & Hr & _ & Hc) & _). exists r. by split.
Defined.

Lemma invite_single_use_witness :
  (exists r, demo_import.1 = Ok r) /\ (import_invite demo_invite day demo_import.2).1 <> demo_import.1.
Proof.
  destruct demo_import as [[r|e] w1] eqn:E; [|vm_compute in E; discriminate E]. cbn [fst snd]. unfold demo_import in E.
  split; [by exists r|].
  eapply (invite_single_use _ _ _ _ _ _ _ _ _ _ _ E);
    [vm_compute; reflexivity..|eauto].
Defined.
End pairing_witnesses.
