(* ===== verification/Transport.v ===== *)
(** [brain/kindled_link/transport.py]: sending one message, and polling the
    mailbox.  The relay is untrusted: a fetched item is an arbitrary JSON value. *)
From S2P Require Import Prelude PyFloat PyTime Json Crypto Protocol PyVal LinkStore World Session.

Definition MESSAGE_TTL : Z := (7 * day)%Z.

Definition INBOUND_BLOCKED_CONSENT : list pystr := [u "blocked"; u "revoked"; u "paused"].

(** A well-formed item of the mailbox: its id and envelope. *)
Abbreviation item := (pystr * json)%type.

Definition parse_item (v : json) : option item :=
  match jget (u "envelope") v, jget (u "id") v with
  | Some (JObj kvs), Some (JStr i) => Some (i, JObj kvs)
  | _, _ => None
  end.

Definition envelope_of (it : item) : json := it.2.
Definition is_open (it : item) : bool := bool_decide (is_Some (jget (u "session_open") it.2)).

(** [sorted(items, key=...)]: handshakes first, arrival order otherwise. *)
Definition handshakes_first (items : list item) : list item :=
  List.filter is_open items ++ List.filter (fun it => negb (is_open it)) items.

Record summary := { accepted : list (json * nat); degraded : list json; relay_error : bool }.

(** The locals of the loop over the peer groups. *)
Record poll_acc := { to_ack : list pystr; acc_degraded : list json; acc_accepted : list (json * nat) }.

Section transport.
Context `{PyLib, Crypto, Sqlite, Env}.

Definition send_message (identity : KindledIdentity) (peer_id session_id : pystr) (payload : json)
    (now ttl : Z) : W bool :=
  sk ← on_db (get_session_key (Some (peer_id, session_id)));
  match sk with
  | None =>
      log_transport (u "push") now (and_ok false (for_session (JStr peer_id) (JStr session_id)));;
      mret false
  | Some sk =>
      seq ← on_db (next_outbound_sequence peer_id session_id);
      peer ← on_db (get_peer (Some peer_id));
      let mailbox := match peer with Some p => text_or_null (relay_mailbox p) | None => JStr [] end in
      env ← of_res (build_envelope payload identity (JStr peer_id) mailbox (JStr session_id) seq
        (my_role sk) (session_key sk) now ttl);
      except_relay
        (push env;;
         log_transport (u "push") now
           (and_ok true (and_seq seq (for_session (JStr peer_id) (JStr session_id))));;
         mret true)
        (fun exc =>
         log_transport (u "relay_unavailable") now
           (and_error exc (and_ok false (for_session (JStr peer_id) (JStr session_id))));;
         mret false)
  end.

Definition handle_key_rotation_notice (envelope sender_id : json) (now : Z) : W unit :=
  peer ← get_peer_v sender_id;
  match peer with
  | None => log_transport (u "rotation_unknown_peer") now (for_peer sender_id)
  | Some peer =>
      sender_old_pub ← of_option ValueError (from_hex (identity_pub peer));
      v ← of_res (parse_key_rotation_notice envelope sender_old_pub now);
      match v with
      | Rejected reason =>
          log_transport (u "rotation_rejected") now (and_reason (reject_name reason) (for_peer sender_id))
      | Accepted (new_pub_hex, new_key_id) =>
          if bool_decide (new_pub_hex = identity_pub peer) then mret tt
          else if bool_decide (new_pub_hex = default [] (previous_identity_pub peer))
          then log_transport (u "rotation_rollback_rejected") now (for_peer sender_id)
          else
            k ← bind sender_id;
            match k with
            | Some k => on_db (update_peer_identity k new_pub_hex new_key_id now)
            | None => mret tt
            end;;
            log_transport (u "peer_key_rotated") now (for_peer sender_id)
      end
  end.

(** A handshake envelope: leg 3 when a handshake is pending, else leg 2, whose
    reply is pushed. *)
Definition process_open (identity : KindledIdentity) (sender_id session_id env : json) (now : Z) : W unit :=
  k ← bind2 sender_id session_id;
  pending ← on_db (get_pending_handshake k);
  match pending with
  | None =>
      reply ← on_session_open identity env now SESSION_OPEN_TTL;
      match reply with
      | None => mret tt
      | Some reply =>
          except_relay (push reply)
            (fun exc => log_transport (u "relay_unavailable") now
               (and_error exc (for_session sender_id session_id)))
      end
  | Some _ => complete_session identity env now
  end.

(** [payload.get("text", "")]. *)
Definition payload_text (payload : json) : res json :=
  match payload with
  | JObj _ => Ok (default (JStr []) (jget (u "text") payload))
  | _ => Err AttributeError
  end.

(** A regular message: [true] when it was accepted. *)
Definition process_message (identity : KindledIdentity) (sender_id session_id env : json) (now : Z)
    : W bool :=
  k ← bind2 sender_id session_id;
  sk ← on_db (get_session_key k);
  match sk with
  | None =>
      log_transport (u "inbound_no_session") now (for_session sender_id session_id);;
      mret false
  | Some sk =>
      peer ← get_peer_v sender_id;
      sender_pub ← (match peer with
                    | Some p => of_option ValueError (from_hex (identity_pub p))
                    | None => mret [] end);
      hw ← on_db (get_seq_high_water k);
      v ← of_res (verify_and_open env identity sender_pub (session_key sk) (peer_role sk) hw now);
      match v with
      | Rejected reason =>
          log_transport (u "inbound_rejected") now
            (and_reason (reject_name reason) (for_session sender_id session_id));;
          mret false
      | Accepted payload =>
          sv ← of_res (jindex (u "sequence") env);
          seq ← of_res (py_int sv);
          text ← of_res (payload_text payload);
          _ ← (if int64_ok seq then mret tt else raise OverflowError);
          text ← bind text;
          on_db (append_transcript (fst <$> k) (snd <$> k) seq (u "inbound") text now (u "peer"));;
          on_db (set_seq_high_water k seq);;
          log_transport (u "inbound_accepted") now (and_seq seq (for_session sender_id session_id));;
          mret true
      end
  end.

(** One envelope; it is always acknowledged unless something raised. *)
Definition process_item (identity : KindledIdentity) (sender_id : json) (now : Z) (it : item) : W bool :=
  let env := it.2 in
  let session_id := default (JStr []) (jget (u "session_id") env) in
  if is_open it then process_open identity sender_id session_id env now;; mret false
  else if jis_str (u "key_rotation_notice") (jget_none (u "message_type") env)
  then handle_key_rotation_notice env sender_id now;; mret false
  else process_message identity sender_id session_id env now.

Definition ack_item (sender_id : json) (it : item) (was_accepted : bool) (a : poll_acc) : poll_acc :=
  {| to_ack := to_ack a ++ [it.1]; acc_degraded := acc_degraded a;
     acc_accepted := if was_accepted then dict_update sender_id 0%nat S (acc_accepted a)
                     else acc_accepted a |}.

(** The group of one sender. *)
Definition process_group (identity : KindledIdentity) (now : Z) (a : poll_acc)
    (group : json * list item) : W poll_acc :=
  let '(sender_id, items) := group in
  peer ← get_peer_v sender_id;
  if match peer with Some p => mem (consent_state p) INBOUND_BLOCKED_CONSENT | None => false end then
    log_transport (u "inbound_consent_blocked") now (and_count (length items) (for_peer sender_id));;
    mret {| to_ack := to_ack a ++ map fst items; acc_degraded := acc_degraded a;
            acc_accepted := acc_accepted a |}
  else
    a ← (if (INBOUND_FLOOD_CAP <? length items)%nat then
           log_transport (u "flood_clamped") now
             (and_count (length items - INBOUND_FLOOD_CAP) (for_peer sender_id));;
           mret {| to_ack := to_ack a; acc_degraded := acc_degraded a ++ [sender_id];
                   acc_accepted := acc_accepted a |}
         else mret a);
    fold_each (handshakes_first (take INBOUND_FLOOD_CAP items)) a
      (fun a it => b ← process_item identity sender_id now it; mret (ack_item sender_id it b a)).

(** Group the well-formed items by sender; an unhashable sender id raises. *)
Definition group_items (now : Z) (fetched : list json) : W (list (json * list item)) :=
  fold_each fetched [] (fun groups v =>
    match parse_item v with
    | None => log_transport (u "malformed_item") now no_fields;; mret groups
    | Some it =>
        let sender := default (JStr []) (jget (u "sender_key_id") it.2) in
        if hashable sender then mret (dict_update sender [] (fun l => l ++ [it]) groups)
        else raise TypeError
    end).

Definition poll_and_ingest (identity : KindledIdentity) (c : RelayClient) (now : Z) : W summary :=
  fetched ← except_relay (l ← fetch c; mret (Some l))
    (fun exc => log_transport (u "poll_relay_unavailable") now (and_error exc (and_count 0 no_fields));;
                mret None);
  match fetched with
  | None => mret {| accepted := []; degraded := []; relay_error := true |}
  | Some fetched =>
      log_transport (u "poll") now (and_count (length fetched) no_fields);;
      groups ← group_items now fetched;
      a ← fold_each groups {| to_ack := []; acc_degraded := []; acc_accepted := [] |}
            (process_group identity now);
      (if bool_decide (length (to_ack a) = 0%nat) then mret tt else ack c (to_ack a));;
      mret {| accepted := acc_accepted a; degraded := acc_degraded a; relay_error := false |}
  end.
End transport.

(** ** Lemmas *)
Section transport_lemmas.
Context `{PyLib, Crypto, Sqlite, Env}.

(** Everything an accepted message went through, in the database it was read
    against: the keys, the checks, and the row it left. *)
Record accepted_message (idn : KindledIdentity) (sender session env : json) (now : Z) (d : db)
    (row : transcript_row) : Prop := {
  am_sender : bind_text sender = Ok (Some (t_peer row));
  am_session : bind_text session = Ok (Some (t_session row));
  am_row : direction row = u "inbound" /\ provenance row = u "peer" /\ t_ts row = isoformat now;
  am_fresh : (default 0%Z (seq_high_water d !! (t_peer row, t_session row)) < t_seq row)%Z;
  am_sequence : (v ← jindex (u "sequence") env; py_int v) = Ok (t_seq row);
  am_int64 : int64_ok (t_seq row) = true;
  am_unexpired : expired env now = Ok false;
  am_to_us : jget (u "recipient_key_id") env = Some (JStr (key_id idn));
  am_key : exists sk, session_keys d !! (t_peer row, t_session row) = Some sk /\
    exists pub sig sigb b, 
      (forall r, peers d !! t_peer row = Some r -> from_hex (identity_pub r) = Some pub) /\
      jget (u "signature") env = Some (JStr sig) /\ from_hex sig = Some sigb /\
      sig_input_bytes env = Ok b /\ verify pub sigb b = true /\
      exists aad n ct pt payload,
        aad_bytes env = Ok aad /\ aead_nonce (peer_role sk) (t_seq row) = Ok n /\
        (v ← jindex (u "ciphertext") env; fromhex v) = Ok ct /\
        aead_dec (session_key sk) n ct aad = Some pt /\
        (s ← utf8_decode pt; loads s) = Some payload /\
        (t ← payload_text payload; bind_text t) = Ok (Some (t_text row)) }.

(** A message is accepted, leaving exactly its row and its sequence as the new
    high water, or it changes nothing. *)
Lemma process_message_spec idn sender session env now w out w' :
  process_message idn sender session env now w = (out, w') ->
  (w_db w' = w_db w /\ out <> Ok true) \/
  (out = Ok true /\ exists row, accepted_message idn sender session env now (w_db w) row /\
     w_db w' = accept_row row (w_db w)).
Proof.
  unfold process_message. rewrite bind_run, bind2_run.
  destruct (bind_text sender) as [p|e] eqn:Hp; [|by intros [= <- <-]; left].
  destruct (bind_text session) as [s|e] eqn:Hs; [|by intros [= <- <-]; left]. cbn [mbind res_bind].
  rewrite bind_run. unfold get_session_key at 1. rewrite on_db_gets.
  destruct (k ← key2 p s; session_keys (w_db w) !! k) as [sk|] eqn:Hsk.
  2: { rewrite bind_run. intros [= <- <-]. by left. }
  destruct p as [p|], s as [s|]; try done. cbn [key2 mbind option_bind] in Hsk |- *.
  rewrite bind_run, get_peer_v_run, Hp. cbn [mbind res_bind option_bind].
  rewrite bind_run.
  destruct (match peers (w_db w) !! p with Some r => of_option ValueError (from_hex (identity_pub r)) | None => mret [] end w)
    as [[pub|e] w1] eqn:Hpub.
  2: { intros [= <- <-]. left. destruct (peers (w_db w) !! p) as [r|]; [|done].
       destruct (from_hex (identity_pub r)); cbn in Hpub; [done|]. injection Hpub as _ <-. done. }
  assert (w1 = w /\ forall r, peers (w_db w) !! p = Some r -> from_hex (identity_pub r) = Some pub) as [-> Hpk].
  { destruct (peers (w_db w) !! p) as [r|]; [|by injection Hpub as _ <-].
    destruct (from_hex (identity_pub r)) eqn:Ef; cbn in Hpub; [|done]. injection Hpub as <- <-.
    split; [done|]. by intros ? [= <-]. }
  rewrite bind_run. unfold get_seq_high_water at 1. rewrite on_db_gets. cbn [mbind option_bind].
  rewrite bind_run. unfold of_res at 1.
  destruct (verify_and_open env idn pub (session_key sk) (peer_role sk) _ now) as [[payload|reason]|e] eqn:Hv;
    [|by rewrite bind_run; intros [= <- <-]; left|by intros [= <- <-]; left].
  apply verify_and_open_accepted in Hv as
    (sig & sigb & b & seq & aad & ct & n & pt & K1 & K2 & K3 & K4 & K5 & K6 & K7 & K8 & K9 & K10 & K11 & K12 & K13).
  rewrite bind_run. unfold of_res at 1.
  destruct (jindex (u "sequence") env) as [sv|e] eqn:Hsv; [|by intros [= <- <-]; left].
  cbn [mbind res_bind] in K6. rewrite bind_run. unfold of_res at 1. rewrite K6.
  rewrite bind_run. unfold of_res at 1. destruct (payload_text payload) as [tv|e] eqn:Htv; [|by intros [= <- <-]; left].
  rewrite bind_run. destruct (int64_ok seq) eqn:Hi; [|by intros [= <- <-]; left]. cbn [mret M_ret].
  rewrite bind_run. unfold bind, of_res at 1.
  destruct (bind_text tv) as [[t|]|e] eqn:Ht; [| |by intros [= <- <-]; left].
  2: { rewrite bind_run, on_db_run. unfold append_transcript. rewrite Hi. cbn. intros [= <- <-]. by left. }
  rewrite bind_run, on_db_run. cbn [fmap option_fmap option_map fst snd].
  rewrite append_transcript_run by done.
  destruct (existsb (same_key p s seq) (transcript (w_db w))) eqn:Hdup; cbn [fst snd].
  { intros [= <- <-]. by left. }
  rewrite bind_run, on_db_run, set_seq_high_water_run by done. cbn [fst snd].
  rewrite bind_run. intros [= <- <-]. right. split; [done|].
  exists {| t_peer := p; t_session := s; t_seq := seq; direction := u "inbound"; t_text := t;
            provenance := u "peer"; t_ts := isoformat now |}. split; [|done].
  split; try done; [by cbn; rewrite Hsv|]. exists sk. split; [done|]. exists pub, sig, sigb, b. split_and!; try done.
  exists aad, n, ct, pt, payload. split_and!; try done. cbn. by rewrite Htv.
Qed.

(** From a well-formed database: never backwards, and well-formed again. *)
Definition fwd (d d' : db) : Prop := link_wf d -> forward d d' /\ link_wf d'.

#[export] Instance fwd_preorder : PreOrder fwd.
Proof.
  split; [by intros d Hd|]. intros a b c K1 K2 Ha. destruct (K1 Ha) as [F1 Hb].
  destruct (K2 Hb) as [F2 Hc]. split; [by etrans|done].
Qed.

Lemma fwd_same {A} (m : W A) : pres db_same m -> pres (on_dbs fwd) m.
Proof. apply db_same_lift. typeclasses eauto. Qed.

Lemma fwd_on_session_open idn env now ttl : pres (on_dbs fwd) (on_session_open idn env now ttl).
Proof.
  intros w Hw. destruct (on_session_open idn env now ttl w) as [out w'] eqn:E.
  exact (on_session_open_spec idn env now ttl w Hw out w' E).
Qed.

Lemma fwd_complete_session idn env now : pres (on_dbs fwd) (complete_session idn env now).
Proof.
  intros w Hw. destruct (complete_session idn env now w) as [out w'] eqn:E.
  exact (complete_session_spec idn env now w Hw out w' E).
Qed.

Lemma fwd_process_message idn sender session env now :
  pres (on_dbs fwd) (process_message idn sender session env now).
Proof.
  intros w Hw. destruct (process_message idn sender session env now w) as [out w'] eqn:E.
  apply process_message_spec in E as [[Hd _]|(_ & row & Ha & Hd)].
  - cbn. rewrite Hd. by split.
  - cbn. rewrite Hd. pose proof (am_fresh _ _ _ _ _ _ _ Ha) as Hf. split; [by apply forward_accept|].
    apply wf_accept; [done| |done]. destruct (am_key _ _ _ _ _ _ _ Ha) as (sk & Hsk & _).
    apply (wf_keys_known _ Hw (t_peer row, t_session row)). eauto.
Qed.

Lemma same_bind v : pres db_same (bind v).
Proof. intros w. unfold bind, of_res. done. Qed.

Lemma same_bind2 v s : pres db_same (bind2 v s).
Proof. intros w. by rewrite bind2_run. Qed.

Lemma fwd_process_open idn sender session env now :
  pres (on_dbs fwd) (process_open idn sender session env now).
Proof.
  unfold process_open. apply pres_bind; [typeclasses eauto|apply fwd_same, same_bind2|intros k].
  apply pres_bind; [typeclasses eauto|apply fwd_same, same_get_pending|intros [pending|]].
  - apply fwd_complete_session.
  - apply pres_bind; [typeclasses eauto|apply fwd_on_session_open|intros [reply|]]; world_auto.
Qed.

Definition is_rotation (it : item) : bool :=
  negb (is_open it) && jis_str (u "key_rotation_notice") (jget_none (u "message_type") it.2).

(** Every envelope but a rotation notice only moves the link forward. *)
Lemma fwd_process_item idn sender now it :
  is_rotation it = false -> pres (on_dbs fwd) (process_item idn sender now it).
Proof.
  unfold is_rotation, process_item. destruct (is_open it); cbn [negb andb].
  - intros _. apply pres_bind; [typeclasses eauto|apply fwd_process_open|intros _; pres_auto].
  - intros ->. apply fwd_process_message.
Qed.

Lemma wf_rotation env sender now :
  pres (on_dbs (keeps link_wf)) (handle_key_rotation_notice env sender now).
Proof.
  intros w Hw. unfold handle_key_rotation_notice. rewrite bind_run, get_peer_v_run.
  destruct (bind_text sender) as [[p|]|e] eqn:Hp; cbn [mbind res_bind option_bind]; [|done|done].
  destruct (peers (w_db w) !! p) as [r|] eqn:Hr; [|done].
  destruct (from_hex (identity_pub r)) as [pub|]; [|done]. cbn [of_option]. rewrite bind_run. cbn [mret M_ret].
  rewrite bind_run. unfold of_res at 1.
  destruct (parse_key_rotation_notice env pub now) as [[[hex kid]|reason]|e]; [|done|done].
  case_bool_decide; [done|]. case_bool_decide; [done|].
  rewrite bind_run. unfold bind, of_res at 1. rewrite Hp. rewrite bind_run, on_db_run.
  pose proof (update_peer_identity_wf (w_db w) p r hex kid now Hw Hr) as Hwf.
  destruct (update_peer_identity p hex kid now (w_db w)) as [[[]|e] d']; exact Hwf.
Qed.

Lemma wf_process_item idn sender now it :
  pres (on_dbs (keeps link_wf)) (process_item idn sender now it).
Proof.
  destruct (is_rotation it) eqn:E.
  - unfold is_rotation, process_item in *. destruct (is_open it); [done|]. cbn [negb andb] in E. rewrite E.
    apply pres_bind; [typeclasses eauto|apply wf_rotation|intros _; pres_auto].
  - intros w Hw. by apply (fwd_process_item idn sender now it E w).
Qed.

Lemma wf_process_group idn now a g : pres (on_dbs (keeps link_wf)) (process_group idn now a g).
Proof.
  unfold process_group. destruct g as [sender items].
  apply pres_bind; [typeclasses eauto|apply db_same_lift; [typeclasses eauto|apply same_get_peer_v]|intros pr].
  world_auto; apply wf_process_item.
Qed.

Lemma same_group_items now fetched : pres db_same (group_items now fetched).
Proof. unfold group_items. world_auto. Qed.

Lemma wf_poll idn c now : pres (on_dbs (keeps link_wf)) (poll_and_ingest idn c now).
Proof.
  unfold poll_and_ingest. world_auto;
    first [ apply db_same_lift; [typeclasses eauto|apply same_group_items] | apply wf_process_group ].
Qed.
End transport_lemmas.

(** ** Properties *)
Section transport_properties.
Context `{PyLib, Crypto, Sqlite, Env}.

(** C1: A message is accepted only from a known peer over an established session:
    it is addressed to us, unexpired, signed with the peer's current identity
    key, decrypts under the session key with the nonce of its sequence number,
    and that number is above every accepted one.  It then leaves exactly one
    transcript row and raises the high water to its sequence; nothing else
    changes. *)
Theorem message_accepted (idn : KindledIdentity) (sender session env : json) (now : Z) (w w' : world) :
  link_wf (w_db w) -> process_message idn sender session env now w = (Ok true, w') ->
  exists row peer pub,
    accepted_message idn sender session env now (w_db w) row /\
    peers (w_db w) !! t_peer row = Some peer /\ from_hex (identity_pub peer) = Some pub /\
    (exists sigb b, sig_input_bytes env = Ok b /\ verify pub sigb b = true) /\
    w_db w' = accept_row row (w_db w).
Proof.
  intros Hw E. apply process_message_spec in E as [[_ []]|(_ & row & Ha & Hd)]; [done|].
  destruct (am_key _ _ _ _ _ _ _ Ha) as (sk & Hsk & pub & sig & sigb & b & Hpub & _ & _ & Hb & Hv & _).
  destruct (wf_keys_known _ Hw (t_peer row, t_session row)) as [peer Hpeer]; [eauto|]. cbn in Hpeer.
  exists row, peer, pub. split_and!; [done|done|by apply Hpub|by exists sigb, b|done].
Qed.

(** Later traffic: envelopes of any kind but rotation notices, each processed
    whatever happened to the one before. *)
Definition run_items (idn : KindledIdentity) (now : Z) (items : list (json * item)) (w : world) : world :=
  foldl (fun w q => (process_item idn q.1 now q.2 w).2) w items.

Lemma run_items_forward idn now items w :
  Forall (fun q => is_rotation q.2 = false) items -> on_dbs fwd w (run_items idn now items w).
Proof.
  intros Hi. revert w. induction Hi as [|q items Hq _ IH]; intros w; [by intros Hw|].
  unfold run_items. cbn [foldl]. intros Hw. destruct (fwd_process_item idn q.1 now q.2 Hq w Hw) as [F1 W1].
  destruct (IH _ W1) as [F2 W2]. split; [by etrans|done].
Qed.

(** C14: No replay: once a message was accepted, the same envelope is refused for
    ever, whatever other handshakes and messages arrive in between. *)
Theorem replay_refused (idn : KindledIdentity) (sender session env : json) (now now' now'' : Z)
    (w w1 : world) (later : list (json * item)) :
  link_wf (w_db w) -> process_message idn sender session env now w = (Ok true, w1) ->
  Forall (fun q => is_rotation q.2 = false) later ->
  (process_message idn sender session env now'' (run_items idn now' later w1)).1 <> Ok true.
Proof.
  intros Hw E Hl. pose proof (fwd_process_message idn sender session env now w Hw) as [_ Hw1].
  rewrite E in Hw1. apply process_message_spec in E as [[_ []]|(_ & row & Ha & Hd)]; [done|].
  destruct (run_items_forward idn now' later w1 Hl Hw1) as [Hf _].
  set (w2 := run_items idn now' later w1) in *.
  destruct (process_message idn sender session env now'' w2) as [out w3] eqn:E2. cbn. intros ->.
  apply process_message_spec in E2 as [[_ []]|(_ & row' & Ha' & _)]; [done|].
  pose proof (am_sender _ _ _ _ _ _ _ Ha) as S1. rewrite (am_sender _ _ _ _ _ _ _ Ha') in S1.
  pose proof (am_session _ _ _ _ _ _ _ Ha) as S2. rewrite (am_session _ _ _ _ _ _ _ Ha') in S2.
  pose proof (am_sequence _ _ _ _ _ _ _ Ha) as S3. rewrite (am_sequence _ _ _ _ _ _ _ Ha') in S3.
  injection S1 as S1. injection S2 as S2. injection S3 as S3.
  pose proof (am_fresh _ _ _ _ _ _ _ Ha') as Hf'. rewrite S1, S2, S3 in Hf'.
  destruct (fw_high_water _ _ Hf (t_peer row, t_session row) (t_seq row)) as (h & Hh & Hle).
  { rewrite Hd. cbn. by rewrite lookup_insert_eq. }
  rewrite Hh in Hf'. cbn in Hf'. lia.
Qed.

(** C31: Polling the untrusted mailbox keeps the database well-formed whatever the
    relay returned and wherever it stopped: consent states stay legal, every row
    belongs to a known peer (also after a key rotation moved it), no transcript
    row is above its session's high water and none is there twice. *)
Theorem poll_keeps_wf (idn : KindledIdentity) (c : RelayClient) (now : Z) (w : world) :
  link_wf (w_db w) -> link_wf (w_db (poll_and_ingest idn c now w).2).
Proof. apply wf_poll. Qed.

(** Inbound handshakes and messages never touch consent, never replace a
    session key, never lower a high water and never lose a transcript row. *)
Theorem inbound_forward (idn : KindledIdentity) (now : Z) (items : list (json * item)) (w : world) :
  link_wf (w_db w) -> Forall (fun q => is_rotation q.2 = false) items ->
  forward (w_db w) (w_db (run_items idn now items w)).
Proof. intros Hw Hi. by apply (run_items_forward idn now items w Hi Hw). Qed.

(** The envelopes of a paused, revoked or blocked peer are acknowledged unread:
    no envelope is opened, the database is untouched, nothing goes to the relay,
    one audit row is written. *)
Theorem blocked_group_unread (idn : KindledIdentity) (now : Z) (a : poll_acc) (sender : json)
    (items : list item) (p : pystr) (r : peer_row) (w : world) :
  bind_text sender = Ok (Some p) -> peers (w_db w) !! p = Some r ->
  mem (consent_state r) INBOUND_BLOCKED_CONSENT = true ->
  exists row w',
    process_group idn now a (sender, items) w =
      (Ok {| to_ack := to_ack a ++ map fst items; acc_degraded := acc_degraded a;
             acc_accepted := acc_accepted a |}, w') /\
    w' = upd_trace (EvAudit row :: w_trace w) w.
Proof.
  intros Hp Hr Hm. unfold process_group. rewrite bind_run, get_peer_v_run, Hp. cbn [mbind res_bind option_bind].
  rewrite Hr, Hm. rewrite bind_run. eexists _, _. split; [reflexivity|]. reflexivity.
Qed.

Lemma process_items_acks idn now sender items a w a' w' :
  fold_each items a (fun a it => b ← process_item idn sender now it; mret (ack_item sender it b a)) w = (Ok a', w') ->
  to_ack a' = to_ack a ++ map fst items /\ acc_degraded a' = acc_degraded a.
Proof.
  revert a w. induction items as [|it items IH]; intros a w; cbn [fold_each].
  - intros [= <- <-]. by rewrite app_nil_r.
  - rewrite bind_run, bind_run. destruct (process_item idn sender now it w) as [[b|e] w1]; [|done].
    cbn [mret M_ret]. intros E. apply IH in E as [-> ->]. cbn. by rewrite <- app_assoc.
Qed.

Lemma handshakes_first_perm items : handshakes_first items ≡ₚ items.
Proof.
  unfold handshakes_first. induction items as [|it items IH]; [done|]. cbn.
  destruct (is_open it); cbn [negb]; [by apply Permutation_skip|].
  rewrite <- Permutation_middle. by apply Permutation_skip.
Qed.

(** Flood clamp: of one sender's group at most the first twenty envelopes are
    processed (handshakes before messages) and acknowledged; the rest stays on
    the relay, and the sender is reported degraded exactly when something was
    left behind. *)
Theorem flood_clamped (idn : KindledIdentity) (now : Z) (a a' : poll_acc) (sender : json)
    (items : list item) (w w' : world) :
  process_group idn now a (sender, items) w = (Ok a', w') ->
  (forall p r, bind_text sender = Ok (Some p) -> peers (w_db w) !! p = Some r ->
     mem (consent_state r) INBOUND_BLOCKED_CONSENT = false) ->
  exists done_items, done_items ≡ₚ take 20 items /\
    to_ack a' = to_ack a ++ map fst done_items /\
    acc_degraded a' = acc_degraded a ++ (if (20 <? length items)%nat then [sender] else []).
Proof.
  intros E Hnb. exists (handshakes_first (take INBOUND_FLOOD_CAP items)). split; [apply handshakes_first_perm|].
  unfold process_group in E. rewrite bind_run, get_peer_v_run in E.
  destruct (bind_text sender) as [p|e]; [|done]. cbn [mbind res_bind] in E.
  assert (match p ← p; peers (w_db w) !! p with
          | Some p => mem (consent_state p) INBOUND_BLOCKED_CONSENT | None => false end = false) as Hf.
  { destruct p as [p|]; [|done]. cbn. destruct (peers (w_db w) !! p) as [r|] eqn:Er; [|done]. by eapply Hnb. }
  rewrite Hf, bind_run in E. change INBOUND_FLOOD_CAP with 20%nat in *.
  destruct (20 <? length items)%nat.
  - rewrite bind_run in E. cbn -[fold_each take] in E. apply process_items_acks in E. exact E.
  - cbn -[fold_each take] in E. apply process_items_acks in E as [-> ->]. by rewrite app_nil_r.
Qed.

(** A relay that cannot be reached ends the poll with its error reported, an
    audit row and an untouched database. *)
Theorem poll_relay_down (idn : KindledIdentity) (c : RelayClient) (now : Z) (w w1 : world) (msg : pystr) :
  fetch c w = (Err (RelayUnavailableError msg), w1) ->
  exists w', poll_and_ingest idn c now w =
      (Ok {| accepted := []; degraded := []; relay_error := true |}, w') /\
    w_db w' = w_db w /\ exists row, w_trace w' = EvAudit row :: w_trace w1.
Proof.
  intros E. pose proof (same_fetch c w) as Hs. rewrite E in Hs. unfold db_same, on_dbs in Hs. cbn in Hs.
  unfold poll_and_ingest, except_relay, catch. rewrite bind_run, bind_run, E. cbn [is_relay_error option_map].
  rewrite bind_run. eexists. split; [reflexivity|]. cbn. split; [done|]. by eexists.
Qed.

(** Sending over an established session consumes the next sequence number
    whatever happens after (a failed build, a dead relay): nothing else of the
    database changes, and every envelope put on the wire carries that number, so
    no number, and with it no AEAD nonce, is ever used for two envelopes. *)
Theorem send_consumes_sequence (idn : KindledIdentity) (p s : pystr) (payload : json) (now ttl : Z)
    (w : world) (sk : key_row) :
  session_keys (w_db w) !! (p, s) = Some sk -> (0 <= seq_of (w_db w) (p, s))%Z ->
  let n := (seq_of (w_db w) (p, s) + 1)%Z in
  let w' := (send_message idn p s payload now ttl w).2 in
  w_db w' = upd_outbound_seq (<[(p, s) := n]> (outbound_seq (w_db w))) (w_db w) /\
  exists evs, w_trace w' = evs ++ w_trace w /\
    Forall (fun e => match e with EvPost _ env => jget (u "sequence") env = Some (JInt n) | _ => True end) evs.
Proof.
  intros Hsk Hn. cbv zeta. destruct (send_message idn p s payload now ttl w) as [out w'] eqn:E.
  cbn [snd]. unfold send_message in E. rewrite bind_run in E. unfold get_session_key in E at 1.
  rewrite on_db_gets in E. cbn [mbind option_bind] in E. rewrite Hsk, bind_run, on_db_run in E.
  destruct (next_outbound_sequence_spec p s (w_db w) Hn) as (d1 & E1 & Hd1). rewrite E1 in E. cbn [fst snd] in E.
  rewrite bind_run in E. unfold get_peer in E at 1. rewrite on_db_gets in E. cbv zeta in E.
  rewrite bind_run in E. unfold of_res in E at 1. rewrite <- Hd1.
  destruct (build_envelope _ _ _ _ _ _ _ _ _ _) as [env|e] eqn:Hb.
  2: { injection E as _ <-. split; [done|]. by exists []. }
  apply build_envelope_sequence in Hb.
  unfold except_relay, catch in E. unfold push in E. rewrite !bind_run in E.
  pose proof (post_loop_shape MAX_RETRIES 0 [] (u "/envelope") env (upd_db d1 w)) as Hl.
  unfold post in E. destruct (post_loop _ _ _ _ _ _) as [res w2]. destruct Hl as [[(Hd & _ & _) (evs & Ht & Hall & _)] _].
  cbn in Hd, Ht.
  assert (Forall (fun e => match e with EvPost _ env => jget (u "sequence") env = Some (JInt (seq_of (w_db w) (p, s) + 1)%Z) | _ => True end) evs) as Hev.
  { eapply Forall_impl; [exact Hall|]. intros [] He; try done. by destruct He as [_ ->]. }
  assert (forall row, w_db (upd_trace (EvAudit row :: w_trace w2) w2) = d1 /\
    exists evs', w_trace (upd_trace (EvAudit row :: w_trace w2) w2) = evs' ++ w_trace w /\
    Forall (fun e => match e with EvPost _ env => jget (u "sequence") env = Some (JInt (seq_of (w_db w) (p, s) + 1)%Z) | _ => True end) evs') as Hrow.
  { intros row. split; [done|]. exists (EvAudit row :: evs). cbn. rewrite Ht. split; [done|]. by constructor. }
  destruct res as [x|e]; cbn in E.
  - injection E as _ <-. apply Hrow.
  - destruct (is_relay_error e); cbn in E; injection E as _ <-; [apply Hrow|].
    split; [done|]. by exists evs.
Qed.
End transport_properties.

(** ** Witnesses *)
Section transport_witnesses.
#[local] Existing Instance ascii_pylib.
#[local] Existing Instance toy_crypto.
#[local] Existing Instance toy_sqlite.
#[local] Instance transport_env : Env := demo_env silent_relay [].

Definition demo_key : key_row :=
  {| session_key := [9%N]; my_role := ROLE_INITIATOR; peer_role := ROLE_RESPONDER; established_at := [] |}.

(** The peer [idn1] under a short id, with an established session. *)
Definition demo_db : db :=
  upd_session_keys {[ (u "kid_a", u "s1") := demo_key ]}
    (upd_peers {[ u "kid_a" := peer_of (u "paired") (to_hex (public_bytes idn1)) ]} empty_db).
Definition demo_world : world := world_of demo_db.

Definition demo_envelope : json :=
  match build_envelope (JObj [(u "text", JStr (u "hi"))]) idn1 (JStr (key_id idn2)) (JStr (u "mbx_2"))
          (JStr (u "s1")) 1 ROLE_RESPONDER [9%N] day MESSAGE_TTL with
  | Ok env => env | Err _ => JNull end.

Definition demo_run : res bool * world :=
  process_message idn2 (JStr (u "kid_a")) (JStr (u "s1")) demo_envelope day demo_world.


Lemma demo_wf : link_wf demo_db.
Proof.
  assert (known demo_db (u "kid_a")) as Hk by (eexists; reflexivity).
  split; try (intros k [x Hx]; cbn in Hx; by rewrite lookup_empty in Hx); try by constructor.
  - intros p r Hp. cbn in Hp. apply lookup_singleton_Some in Hp as [_ <-]. apply mem_spec. reflexivity.
  - intros k [x Hx]. cbn in Hx. apply lookup_singleton_Some in Hx as [<- _]. exact Hk.
Qed.

Lemma message_accepted_witness :
  exists row peer pub,
    accepted_message idn2 (JStr (u "kid_a")) (JStr (u "s1")) demo_envelope day demo_db row /\
    peers demo_db !! t_peer row = Some peer /\ from_hex (identity_pub peer) = Some pub /\
    (exists sigb b, sig_input_bytes demo_envelope = Ok b /\ verify pub sigb b = true) /\
    w_db demo_run.2 = accept_row row demo_db.
Proof.
  apply (message_accepted idn2 (JStr (u "kid_a")) (JStr (u "s1")) demo_envelope day demo_world demo_run.2).
  - exact demo_wf.
  - vm_compute. reflexivity.
Defined.

Lemma replay_refused_witness :
  (process_message idn2 (JStr (u "kid_a")) (JStr (u "s1")) demo_envelope day
    (run_items idn2 day [(JStr (u "kid_a"), (u "env_1", JObj []))] demo_run.2)).1 <> Ok true.
Proof.
  apply (replay_refused idn2 (JStr (u "kid_a")) (JStr (u "s1")) demo_envelope day day day demo_world).
  - exact demo_wf.
  - vm_compute. reflexivity.
  - repeat constructor.
Defined.

Definition demo_client : RelayClient := {| rc_identity := idn2; rc_mailbox := u "mbx_2" |}.

Lemma poll_keeps_wf_witness : link_wf (w_db (poll_and_ingest idn2 demo_client day demo_world).2).
Proof. apply poll_keeps_wf. exact demo_wf. Defined.

Lemma inbound_forward_witness :
  forward demo_db (w_db (run_items idn2 day [(JStr (u "kid_a"), (u "env_1", demo_envelope))] demo_world)).
Proof. apply (inbound_forward idn2 day _ demo_world); [exact demo_wf|]. vm_compute. by repeat constructor. Defined.

(** The same peer, blocked. *)
Definition blocked_world : world :=
  world_of (upd_peers {[ u "kid_a" := peer_of (u "blocked") [] ]} empty_db).
Definition no_acc : poll_acc := {| to_ack := []; acc_degraded := []; acc_accepted := [] |}.

Lemma blocked_group_unread_witness :
  exists row w',
    process_group idn2 day no_acc (JStr (u "kid_a"), [(u "env_1", demo_envelope)]) blocked_world =
      (Ok {| to_ack := [u "env_1"]; acc_degraded := []; acc_accepted := [] |}, w') /\
    w' = upd_trace (EvAudit row :: w_trace blocked_world) blocked_world.
Proof.
  apply (blocked_group_unread idn2 day no_acc (JStr (u "kid_a")) [(u "env_1", demo_envelope)] (u "kid_a")
    (peer_of (u "blocked") []) blocked_world); reflexivity.
Defined.

(** Twenty-one envelopes that are no messages at all. *)
Definition many_items : list item := repeat (u "env_1", JObj []) 21.

Lemma flood_clamped_witness :
  let run := process_group idn2 day no_acc (JStr (u "kid_a"), many_items) demo_world in
  exists a' w', run = (Ok a', w') /\
    exists done_items, done_items ≡ₚ take 20 many_items /\
      to_ack a' = [] ++ map fst done_items /\ acc_degraded a' = [] ++ [JStr (u "kid_a")].
Proof.
  cbv zeta. destruct (process_group idn2 day no_acc (JStr (u "kid_a"), many_items) demo_world) as [[a'|e] w'] eqn:E.
  - exists a', w'. split; [done|].
    apply (flood_clamped idn2 day no_acc a' (JStr (u "kid_a")) many_items demo_world w' E).
    intros p r [= <-]. cbn. intros Hr. apply lookup_singleton_Some in Hr as [_ <-]. reflexivity.
  - exfalso. vm_compute in E. discriminate E.
Defined.

Definition dead_transport : Env := demo_env dead_relay [].

Lemma poll_relay_down_witness :
  exists w', poll_and_ingest (H2 := dead_transport) idn2 demo_client day demo_world =
      (Ok {| accepted := []; degraded := []; relay_error := true |}, w') /\
    w_db w' = demo_db /\
    exists row, w_trace w' = EvAudit row :: w_trace (fetch (H1 := dead_transport) demo_client demo_world).2.
Proof.
  apply (poll_relay_down (H2 := dead_transport) idn2 demo_client day demo_world _ (u "refused")).
  vm_compute. reflexivity.
Defined.

Lemma send_consumes_sequence_witness :
  w_db (send_message idn2 (u "kid_a") (u "s1") JNull day MESSAGE_TTL demo_world).2 =
    upd_outbound_seq (<[(u "kid_a", u "s1") := 1%Z]> ∅) demo_db.
Proof.
  apply (send_consumes_sequence idn2 (u "kid_a") (u "s1") JNull day MESSAGE_TTL demo_world demo_key);
    [reflexivity|vm_compute; discriminate].
Defined.
End transport_witnesses.
