(* ===== verification/Relationship.v ===== *)
(** [brain/kindled_link/relationship.py]: the per-peer relationship state, the
    reflection pass and what it feeds back (capped emotion, one memory).  The
    model's answer is arbitrary text.  Theorems: a pass moves the stage up
    by at most one, never without a grounded quote, and down by at most two; a
    hard breach resets it; the trust score stays in [0, 1]; the slot taken from
    the daily cap is refunded unless the model answered. *)
From S2P Require Import Prelude PyFloat PyTime Json Crypto Protocol PyVal LinkStore World Gate.

(** ** Stages *)
Definition STAGES : list pystr :=
  [u "stranger"; u "acquaintance"; u "familiar"; u "friend"; u "close"].

(** [STAGES.index(s)]: [None] is the [ValueError]. *)
Fixpoint index_in (s : pystr) (l : list pystr) : option nat :=
  match l with
  | [] => None
  | x :: l' => if bool_decide (s = x) then Some 0%nat else S <$> index_in s l'
  end.

Definition stage_index (s : pystr) : option nat := index_in s STAGES.

(** [_bounded_stage]: [None] is the [ValueError] of an unknown current stage. *)
Definition bounded_stage (current proposed : pystr) : option pystr :=
  match stage_index proposed with
  | None => Some current
  | Some pi =>
      ci ← stage_index current;
      Some (if (ci <? pi)%nat then nth (Nat.min (ci + 1) (length STAGES - 1)) STAGES []
            else if (pi <? ci)%nat then nth (ci - 1) STAGES []
            else current)
  end.

(** ** Grounding *)
Section grounding.
Context `{PyLib}.

(** [re.sub(r"\s+", " ", text)]: [prev] says the last character was a space. *)
Fixpoint collapse_spaces (s : pystr) (prev : bool) : pystr :=
  match s with
  | [] => []
  | c :: s' => if is_space c
               then if prev then collapse_spaces s' true else 32%N :: collapse_spaces s' true
               else c :: collapse_spaces s' false
  end.

Definition normalise (text : pystr) : pystr :=
  casefold (strip (collapse_spaces (nfc text) false)).

Definition MIN_GROUNDED_QUOTE_CHARS : nat := 12.

Definition is_grounded (quote transcript : pystr) : bool :=
  let q := normalise quote in
  if (length q <? MIN_GROUNDED_QUOTE_CHARS)%nat then false
  else substring_of q (normalise transcript).
End grounding.

(** ** State *)
Record Evidence := { quote_ : pystr; turn_id : pystr; supports : pystr }.

Record PeerRelationshipState := {
  rs_peer : pystr; stage : pystr; trust_score : float;
  affinity_tags : list pystr; boundaries_seen : list pystr; repair_history : list pystr;
  evidence : list Evidence; last_reflected_at : option pystr }.

Definition fresh_state (peer_id : pystr) : PeerRelationshipState :=
  {| rs_peer := peer_id; stage := u "stranger"; trust_score := f0; affinity_tags := [];
     boundaries_seen := []; repair_history := []; evidence := []; last_reflected_at := None |}.

(** The JSON columns, as [persist_relationship_state] writes them. *)
Definition strings_json (l : list pystr) : pystr := dumps_default (JArr (map JStr l)).

Definition vars_evidence (e : Evidence) : json :=
  JObj [(u "quote", JStr (quote_ e)); (u "turn_id", JStr (turn_id e)); (u "supports", JStr (supports e))].

Definition as_str (v : json) : res pystr := match v with JStr s => Ok s | _ => Err TypeError end.

Fixpoint map_res {A B} (f : A -> res B) (l : list A) : res (list B) :=
  match l with [] => Ok [] | x :: l' => y ← f x; ys ← map_res f l'; Ok (y :: ys) end.

Definition read_strings (t : pystr) : res (list pystr) :=
  v ← loads_res t; match v with JArr l => map_res as_str l | _ => Err TypeError end.

(** [from_known_fields(Evidence, e)]: unknown fields dropped, [supports]
    defaults. *)
Definition read_evidence1 (v : json) : res Evidence :=
  match v with
  | JObj _ =>
      q ← or_raise TypeError (jget (u "quote") v);
      t ← or_raise TypeError (jget (u "turn_id") v);
      q ← as_str q; t ← as_str t;
      s ← as_str (default (JStr []) (jget (u "supports") v));
      mret {| quote_ := q; turn_id := t; supports := s |}
  | _ => Err TypeError
  end.

Definition read_evidence (t : pystr) : res (list Evidence) :=
  v ← loads_res t; match v with JArr l => map_res read_evidence1 l | _ => Err TypeError end.

Definition get_relationship_state (peer_id : pystr) : M db PeerRelationshipState :=
  row ← get_relationship_row peer_id;
  match row with
  | None => mret (fresh_state peer_id)
  | Some row =>
      tags ← of_res (read_strings (affinity_tags_json row));
      bounds ← of_res (read_strings (boundaries_json row));
      repair ← of_res (read_strings (repair_history_json row));
      ev ← of_res (read_evidence (evidence_json row));
      mret {| rs_peer := peer_id; stage := r_stage row; trust_score := r_trust_score row;
              affinity_tags := tags; boundaries_seen := bounds; repair_history := repair;
              evidence := ev; last_reflected_at := r_last_reflected_at row |}
  end.

Definition persist_relationship_state (s : PeerRelationshipState) (now : Z) : M db unit :=
  upsert_relationship_row (rs_peer s) (stage s) (trust_score s)
    (strings_json (affinity_tags s)) (strings_json (boundaries_seen s))
    (strings_json (repair_history s)) (dumps_default (JArr (map vars_evidence (evidence s)))) now.

(** [get_stage]: an unknown peer is a stranger. *)
Definition get_stage (peer_id : pystr) : M db pystr :=
  row ← get_relationship_row peer_id;
  mret (match row with Some r => r_stage r | None => u "stranger" end).

Definition HARD_BREACH_RESET : pystr := u "stranger".
Definition HOLD_REGRESS_THRESHOLD : Z := 3.

(** ** Emotions *)
Abbreviation emotions := (list (pystr * float)).

(** [sum(floats)] of CPython 3.12: Neumaier's compensated summation. *)
Fixpoint sum_loop (l : list float) (t c : float) : float :=
  match l with
  | [] => if negb (feq c f0) && is_finite c then fadd t c else t
  | x :: l' =>
      let t' := fadd t x in
      let c' := if fle (fabs x) (fabs t) then fadd c (fadd (fsub t t') x)
                else fadd c (fadd (fsub x t') t) in
      sum_loop l' t' c'
  end.

Definition py_sum (l : list float) : float :=
  match l with [] => f0 | x :: l' => sum_loop l' (fadd f0 x) f0 end.

Section emotion.
Context `{PyLib, Crypto, Env}.

(** [_filter_to_registered]. *)
Definition filter_to_registered (e : emotions) : emotions :=
  List.filter (fun kv => registered kv.1) e.

(** [apply_peer_emotion]: scaled into the headroom of the window. *)
Definition apply_peer_emotion (peer_id : pystr) (delta : emotions) (now : Z) : W emotions :=
  let magnitude := py_sum (map (fun kv => fabs kv.2) delta) in
  if negb (is_finite magnitude) || fle magnitude f0 then mret [] else
  current ← on_db (get_peer_emotion_accumulated peer_id now);
  let headroom := pymax f0 (fsub PEER_EMOTION_WINDOW_CAP current) in
  if fle headroom f0 then mret [] else
  let scale := pymin f1 (fdiv headroom magnitude) in
  on_db (add_peer_emotion peer_id (fmul magnitude scale) now);;
  mret (map (fun kv => (kv.1, fmul kv.2 scale)) delta).

(** [write_kindled_peer_memory]: fail-soft. *)
Definition write_kindled_peer_memory (peer_id stage_ content : pystr) (e : emotions) : W unit :=
  try_except (ask (EvMemory content peer_id stage_ (filter_to_registered e)) mem_create) (mret tt).

Definition EMOTION_BASE : emotions := [(u "tenderness", fdec 8 (-2))].
Definition EMOTION_ACCENT (source : pystr) : emotions :=
  if bool_decide (source = u "warmth") then [(u "tenderness", fdec 6 (-2))]
  else if bool_decide (source = u "repair") then [(u "relief", fdec 6 (-2))]
  else if bool_decide (source = u "delight") then [(u "joy", fdec 6 (-2))]
  else [].

Fixpoint add_to (k : pystr) (v : float) (e : emotions) : emotions :=
  match e with
  | [] => [(k, fadd f0 v)]
  | (k', v') :: e' => if bool_decide (k = k') then (k', fadd v' v) :: e' else (k', v') :: add_to k v e'
  end.

Definition relationship_emotion_delta (dominant_source : pystr) : emotions :=
  let raw := fold_left (fun e kv => add_to kv.1 kv.2 e) (EMOTION_ACCENT dominant_source) EMOTION_BASE in
  filter_to_registered (List.filter (fun kv => is_finite kv.2) raw).
End emotion.

(** ** The reflection pass *)

(** The instruction text of the prompt, externalised by the source. *)
Class Prompts := {
  reflection_segments : pystr * pystr * pystr;
  regenerate_segments : pystr * pystr * pystr;
  SURFACE : pystr;
  TOOL_PROHIBITION : pystr;
  PRIVACY_GUIDANCE : pystr;
  STAGE_GUIDANCE : pystr -> option pystr;
  stranger_guidance : pystr;
}.

Definition with_stage (st : pystr) (s : PeerRelationshipState) : PeerRelationshipState :=
  {| rs_peer := rs_peer s; stage := st; trust_score := trust_score s;
     affinity_tags := affinity_tags s; boundaries_seen := boundaries_seen s;
     repair_history := repair_history s; evidence := evidence s;
     last_reflected_at := last_reflected_at s |}.

(** [x or default]. *)
Definition jor (v d : json) : json := if jtruthy v then v else d.

(** [v[0]] for a truthy [v]. *)
Definition first_of (v : json) : res json :=
  match v with
  | JArr (x :: _) => Ok x
  | JStr (c :: _) => Ok (JStr [c])
  | JArr [] | JStr [] => Err IndexError
  | JObj _ => Err KeyError
  | _ => Err TypeError
  end.

(** The values a [for] loop over [v] sees. *)
Definition iter_of (v : json) : res (list json) :=
  match v with
  | JArr l => Ok l
  | JStr s => Ok (map (fun c => JStr [c]) s)
  | JObj kvs => Ok (map (fun kv => JStr kv.1) kvs)
  | _ => Err TypeError
  end.

(** The last [n] of a list: [l[-n:]]. *)
Definition take_last {A} (n : nat) (l : list A) : list A := drop (length l - n) l.

Section reflection.
Context `{PyLib, Crypto, Env, Prompts}.

Definition build_reflection_prompt (current_stage transcript : pystr) : pystr :=
  let '(a, b, c) := reflection_segments in a ++ current_stage ++ b ++ transcript ++ c.

(** [_log_rejection]: audit tier, fail-soft. *)
Definition log_rejection (peer_id quote : pystr) : W unit := emit (EvReject peer_id (take 500 quote)).

(** [raw[raw.index("{") : raw.rindex("}") + 1]], parsed. *)
Definition read_reflection (raw : pystr) : res json := t ← braces raw; loads_res t.

(** The hard-breach branch: back to the first stage. *)
Definition breach (data : json) (now : Z) (s : PeerRelationshipState) : res PeerRelationshipState :=
  b ← get_or (u "boundaries_seen") JNull data;
  note ← first_of (jor b (JArr [JStr (u "hard breach")]));
  mret {| rs_peer := rs_peer s; stage := HARD_BREACH_RESET; trust_score := f0;
          affinity_tags := affinity_tags s;
          boundaries_seen := take_last 20 (boundaries_seen s ++ [py_str note]);
          repair_history := repair_history s; evidence := evidence s;
          last_reflected_at := Some (isoformat now) |}.

(** The grounded quotes, in order; each ungrounded one is logged. *)
Definition ground_evidence (peer_id transcript : pystr) (items : list json) : W (list Evidence) :=
  fold_each items [] (fun acc e =>
    q ← of_res (get_or (u "quote") (JStr []) e);
    let quote := py_str q in
    if is_grounded quote transcript then
      t ← of_res (get_or (u "turn_id") (JStr (u "unknown")) e);
      s ← of_res (get_or (u "supports") (JStr []) e);
      mret (acc ++ [{| quote_ := quote; turn_id := py_str t; supports := py_str s |}])
    else log_rejection peer_id quote;; mret acc).

(** [[str(t) for t in data[k]][:n]] when it is a list, else the old value. *)
Definition tags_of (k : pystr) (n : nat) (old : list pystr) (data : json) : list pystr :=
  match jget k data with Some (JArr l) => take n (map py_str l) | _ => old end.

(** The verdict applied to the state. *)
Definition apply_verdict (data : json) (grounded : list Evidence) (s : PeerRelationshipState)
    : res PeerRelationshipState :=
  p ← get_or (u "proposed_stage") (JStr (stage s)) data;
  let proposed := py_str p in
  ci ← or_raise ValueError (stage_index (stage s));
  let up := match stage_index proposed with Some pi => (ci <? pi)%nat | None => false end in
  let proposed := if up && bool_decide (length grounded = 0%nat) then stage s else proposed in
  st ← or_raise ValueError (bounded_stage (stage s) proposed);
  ts ← get_or (u "trust_score") (JFloat (trust_score s)) data;
  ts ← (match py_float ts with
        | Ok f => mret (clamp01 f)
        | Err e => if bool_decide (e = TypeError) || is_ValueError e then mret (trust_score s) else Err e
        end);
  mret {| rs_peer := rs_peer s; stage := st; trust_score := ts;
          affinity_tags := tags_of (u "affinity_tags") 12 (affinity_tags s) data;
          boundaries_seen := tags_of (u "boundaries_seen") 20 (boundaries_seen s) data;
          repair_history := repair_history s;
          evidence := match grounded with [] => evidence s | _ => take 10 grounded end;
          last_reflected_at := last_reflected_at s |}.

(** The external signal can only regress, by one. *)
Definition apply_signal (hold_count : option Z) (s : PeerRelationshipState) : PeerRelationshipState :=
  match hold_count with
  | Some n =>
      if (HOLD_REGRESS_THRESHOLD <=? n)%Z then
        match stage_index (stage s) with
        | Some (S i) => with_stage (nth i STAGES []) s
        | _ => s
        end
      else s
  | None => s
  end.

Definition stamp_reflected (now : Z) (s : PeerRelationshipState) : PeerRelationshipState :=
  {| rs_peer := rs_peer s; stage := stage s; trust_score := trust_score s;
     affinity_tags := affinity_tags s; boundaries_seen := boundaries_seen s;
     repair_history := repair_history s; evidence := evidence s;
     last_reflected_at := Some (isoformat now) |}.

(** [{str(k): float(v) for k, v in emotion_raw.items()}]. *)
Definition emotion_of (v : json) : res emotions :=
  match v with
  | JObj kvs => map_res (fun kv => f ← py_float kv.2; mret (kv.1, f)) kvs
  | _ => Ok []
  end.

(** The write-back into the felt state, fail-soft. *)
Definition write_back (data : json) (peer_id stage_ : pystr) (now : Z) : W unit :=
  try_except
    (m ← of_res (get_or (u "memory_summary") (JStr []) data);
     let memory_summary := strip (py_str m) in
     if bool_decide (length memory_summary = 0%nat) then mret tt else
     er ← of_res (get_or (u "emotion") JNull data);
     delta ← of_res (emotion_of er);
     applied ← apply_peer_emotion peer_id (filter_to_registered delta) now;
     write_kindled_peer_memory peer_id stage_ memory_summary applied)
    (mret tt).

(** The guarded call: the answer, or [None] when the throttle deferred. *)
Definition ask_reflection (peer_id current_stage transcript today : pystr) : W (option pystr) :=
  let prompt := build_reflection_prompt current_stage transcript in
  granted ← background_slot;
  if negb granted then on_db (release_provider_slot peer_id today);; mret None
  else raw ← provider_complete prompt; mret (Some raw).

(** What follows a parsed answer. *)
Definition reflect_on (data : json) (peer_id transcript : pystr) (now : Z) (hold_count : option Z)
    (mem_store : bool) (s : PeerRelationshipState) : W PeerRelationshipState :=
  hb ← of_res (get_or (u "hard_breach") JNull data);
  if jtruthy hb then
    s' ← of_res (breach data now s);
    on_db (persist_relationship_state s' now);;
    mret s'
  else
    ev ← of_res (get_or (u "evidence") JNull data);
    items ← of_res (iter_of (jor ev (JArr [])));
    grounded ← ground_evidence peer_id transcript items;
    s' ← of_res (apply_verdict data grounded s);
    let s' := stamp_reflected now (apply_signal hold_count s') in
    on_db (persist_relationship_state s' now);;
    (if mem_store then write_back data peer_id (stage s') now else mret tt);;
    mret s'.

Definition run_relationship_reflection (peer_id transcript : pystr) (now : Z) (today : pystr)
    (hold_count : option Z) (mem_store : bool) : W PeerRelationshipState :=
  if negb (bool_decide (today = date_str now)) then on_db (get_relationship_state peer_id) else
  state ← on_db (get_relationship_state peer_id);
  reserved ← on_db (try_reserve_provider peer_id today DAILY_PROVIDER_CAP);
  if negb reserved then mret state else
  raw ← try_except (ask_reflection peer_id (stage state) transcript today)
          (on_db (release_provider_slot peer_id today);; mret None);
  match raw with
  | None => mret state
  | Some raw =>
      match read_reflection raw with
      | Ok data => reflect_on data peer_id transcript now hold_count mem_store state
      | Err _ => emit (EvParseFailure (u "kindled_relationship") raw);; mret state
      end
  end.

(** ** Cadence files ([relationship.py] and [cadence.py]) *)
Definition RELATIONSHIP_CADENCE : pystr := u "kindled_link/relationship_cadence.json".
Definition TICK_CADENCE : pystr := u "kindled_link/tick_cadence.json".

Definition never_run : json := JObj [(u "last_run", JNull)].

(** Due when there is no usable last run, or at least [interval] [unit]s of
    [unit_s] seconds have passed. *)
Definition cadence_due (last : json) (now unit_s : Z) (interval : float) : bool :=
  if negb (jtruthy last) then true else
  match (match last with JStr s => d ← fromisoformat s; instant d | _ => Err TypeError end) with
  | Ok t => fle interval (fdiv (total_seconds (now - t)) (fofZ unit_s))
  | Err _ => true
  end.

Definition load_reflection_cadence : W json := read_json_dict RELATIONSHIP_CADENCE never_run.

Definition reflection_is_due (now : Z) : W bool :=
  c ← load_reflection_cadence;
  mret (cadence_due (jget_none (u "last_run") c) now 3600 (fofZ 24)).

Definition save_reflection_cadence (now : Z) : W unit :=
  write_json RELATIONSHIP_CADENCE (JObj [(u "last_run", JStr (isoformat now))]).

Definition load_tick_cadence : W json := read_json_dict TICK_CADENCE never_run.

Definition tick_is_due (now : Z) : W bool :=
  c ← load_tick_cadence;
  mret (cadence_due (jget_none (u "last_run") c) now 60 (fofZ 5)).

Definition save_tick_cadence (now : Z) : W unit :=
  write_json TICK_CADENCE (JObj [(u "last_run", JStr (isoformat now))]).
End reflection.

(** ** Lemmas *)
Lemma index_in_nth s l i : index_in s l = Some i -> (i < length l)%nat /\ nth i l [] = s.
Proof.
  revert i. induction l as [|x l IH]; intros i; simpl; [done|].
  case_bool_decide as E; [intros [= <-]; subst; split; [lia|done]|].
  destruct (index_in s l) as [j|]; [|done]. intros [= <-]. destruct (IH j eq_refl). split; [lia|done].
Qed.

Lemma stage_index_nth i : (i < 5)%nat -> stage_index (nth i STAGES []) = Some i.
Proof. intros Hi. do 5 (destruct i as [|i]; [reflexivity|]). lia. Qed.

Lemma stage_index_lt s i : stage_index s = Some i -> (i < 5)%nat.
Proof. intros E. by apply index_in_nth in E as [? _]. Qed.

(** A proposal moves the stage by at most one, towards the proposal; an unknown
    one not at all. *)
Lemma bounded_stage_spec cur prop ci :
  stage_index cur = Some ci ->
  exists s i, bounded_stage cur prop = Some s /\ stage_index s = Some i /\ (i <= ci + 1 /\ ci <= i + 1)%nat /\
    ((ci < i)%nat -> exists pi, stage_index prop = Some pi /\ (ci < pi)%nat).
Proof.
  intros Hc. unfold bounded_stage. pose proof (stage_index_lt _ _ Hc).
  destruct (stage_index prop) as [pi|] eqn:Hp.
  2: { exists cur, ci. split_and!; [done|done|lia|lia|lia]. }
  pose proof (stage_index_lt _ _ Hp). rewrite Hc. cbn [mbind option_bind length STAGES].
  destruct (Nat.ltb_spec ci pi); [|destruct (Nat.ltb_spec pi ci)]; eexists _, _; (split; [reflexivity|]).
  - split; [apply stage_index_nth; lia|]. split; [lia|]. intros _. by exists pi.
  - split; [apply stage_index_nth; lia|]. split; [lia|]. lia.
  - split; [exact Hc|]. split; [lia|]. lia.
Qed.

Section reflection_lemmas.
Context `{PyLib, Crypto, Env, Prompts}.

Definition in_range (f : float) : Prop := fle f0 f = true /\ fle f f1 = true.

(** Every quote kept was found in the transcript. *)
Definition all_grounded (transcript : pystr) (l : list Evidence) : Prop :=
  Forall (fun e => is_grounded (quote_ e) transcript = true) l.

Lemma ground_evidence_spec p transcript items w l w' :
  ground_evidence p transcript items w = (Ok l, w') -> all_grounded transcript l /\ w_db w' = w_db w.
Proof.
  unfold ground_evidence. match goal with |- fold_each _ _ ?f _ = _ -> _ => set (step := f) end.
  enough (forall acc w, all_grounded transcript acc -> fold_each items acc step w = (Ok l, w') ->
    all_grounded transcript l /\ w_db w' = w_db w) as Hen
    by (intros E; apply (Hen [] w); [constructor|done]).
  clear w. induction items as [|e items IH]; intros acc w Hacc; cbn [fold_each].
  - by intros [= <- <-].
  - rewrite bind_run. unfold step at 1. rewrite bind_run. unfold of_res at 1.
    destruct (get_or (u "quote") (JStr []) e) as [q|]; [|done]. cbv zeta.
    destruct (is_grounded (py_str q) transcript) eqn:Hg.
    + rewrite bind_run. unfold of_res at 1. destruct (get_or (u "turn_id") _ e) as [t|]; [|done].
      rewrite bind_run. unfold of_res at 1. destruct (get_or (u "supports") _ e) as [s|]; [|done].
      cbn [mret M_ret]. apply IH. apply Forall_app. split; [done|]. by repeat constructor.
    + rewrite bind_run. cbn [log_rejection emit modify mret M_ret]. intros E. by apply IH in E as [? ->].
Qed.

Lemma apply_verdict_spec data grounded s s' ci :
  stage_index (stage s) = Some ci -> in_range (trust_score s) ->
  apply_verdict data grounded s = Ok s' ->
  in_range (trust_score s') /\
  exists i, stage_index (stage s') = Some i /\ (i <= ci + 1 /\ ci <= i + 1)%nat /\
    ((ci < i)%nat -> grounded <> []) /\ (grounded <> [] -> evidence s' = take 10 grounded).
Proof.
  intros Hci Htr. unfold apply_verdict. destruct (get_or (u "proposed_stage") _ data) as [pv|]; [|done].
  cbn [mbind res_bind]. rewrite Hci. cbn [or_raise mbind res_bind].
  set (prop := if _ && _ then stage s else _).
  destruct (bounded_stage_spec (stage s) prop ci Hci) as (st & i & -> & Hi & Hb & Hup). cbn [or_raise mbind res_bind].
  destruct (get_or (u "trust_score") _ data) as [tv|]; [|done]. cbn [mbind res_bind].
  set (ts := match py_float tv with Ok f => _ | Err e => _ end).
  destruct ts as [t|e] eqn:Ets; [|done]. cbn [mbind res_bind]. intros E.
  unfold mret, res_ret in E. injection E as <-. cbn [trust_score stage evidence]. split.
  - unfold ts in Ets. destruct (py_float tv) as [f|e]; [|destruct (_ || _); [|done]].
    + unfold mret, res_ret in Ets. injection Ets as <-. apply clamp01_range.
    + unfold mret, res_ret in Ets. by injection Ets as <-.
  - exists i. split_and!; [done|lia|lia| |by destruct grounded].
    intros Hlt. destruct (Hup Hlt) as (pi & Hpi & Hcp). intros ->. unfold prop in Hpi.
    rewrite (bool_decide_eq_true_2 (length (@nil Evidence) = 0%nat)), andb_true_r in Hpi by done.
    destruct (stage_index (py_str pv)) as [pj|] eqn:Epj; [|congruence].
    destruct (Nat.ltb_spec ci pj); [rewrite Hci in Hpi|rewrite Epj in Hpi]; simplify_eq; lia.
Qed.

Lemma apply_signal_spec hc s i :
  stage_index (stage s) = Some i ->
  exists j, stage_index (stage (apply_signal hc s)) = Some j /\ (j <= i <= j + 1)%nat /\
    (forall n, hc = Some n -> (n < HOLD_REGRESS_THRESHOLD)%Z -> j = i).
Proof.
  intros Hi. unfold apply_signal. pose proof (stage_index_lt _ _ Hi).
  destruct hc as [n|]; [|exists i; split_and!; [done|lia|lia|done]].
  destruct (Z.leb_spec HOLD_REGRESS_THRESHOLD n); [|exists i; split_and!; [done|lia|lia|done]].
  rewrite Hi. destruct i as [|i]; [exists 0%nat; split_and!; [done|lia|lia|done]|].
  exists i. cbn -[STAGES nth]. split_and!; [apply stage_index_nth; lia|lia|lia|].
  intros m [= <-]. lia.
Qed.

(** The write-back touches neither the relationship rows nor the counters. *)
Definition rel_same (d d' : db) : Prop :=
  relationship_state d' = relationship_state d /\ peer_counters d' = peer_counters d.

#[export] Instance rel_same_preorder : PreOrder rel_same.
Proof. split; [by intros d|]. intros a b c [A1 A2] [B1 B2]. split; congruence. Qed.

Lemma rel_same_emotion p delta now : pres (on_dbs rel_same) (apply_peer_emotion p delta now).
Proof.
  unfold apply_peer_emotion. cbv zeta. world_auto.
  - apply pres_on_db. unfold get_peer_emotion_accumulated. pres_auto.
  - apply pres_on_db. unfold add_peer_emotion, get_peer_emotion_accumulated, bind_real. cbv zeta. pres_auto.
    by apply pres_modify.
Qed.

Lemma rel_same_write_back data p st now : pres (on_dbs rel_same) (write_back data p st now).
Proof.
  unfold write_back, write_kindled_peer_memory. world_auto. apply rel_same_emotion.
Qed.

Lemma persist_spec s now d out d' :
  persist_relationship_state s now d = (out, d') ->
  (out = Ok tt /\ exists row, d' = upd_relationship_state (<[rs_peer s := row]> (relationship_state d)) d /\
     r_stage row = stage s) \/ (d' = d /\ exists e, out = Err e).
Proof.
  unfold persist_relationship_state, upsert_relationship_row, bind_real. rewrite bind_run.
  destruct (trust_score s) eqn:E; cbn; intros [= <- <-]; [left|left|by right; eauto|left];
    (split; [done|]); eexists; by split.
Qed.

(** The stored stage. *)
Definition stored_stage (d : db) (p st : pystr) : Prop := (get_stage p d).1 = Ok st.

Lemma stored_after p s row d d' :
  rs_peer s = p -> relationship_state d' = <[rs_peer s := row]> (relationship_state d) -> r_stage row = stage s ->
  stored_stage d' p (stage s).
Proof.
  intros <- E Hs. unfold stored_stage, get_stage, get_relationship_row. rewrite bind_run. unfold gets.
  cbn. by rewrite E, lookup_insert_eq, Hs.
Qed.

(** What one pass may do to the state it read. *)
Record pass_bounded (transcript : pystr) (hc : option Z) (ci : nat) (s' : PeerRelationshipState) : Prop := {
  pb_trust : in_range (trust_score s');
  pb_stage : exists i, stage_index (stage s') = Some i /\ (i <= ci + 1 /\ ci <= i + 2)%nat /\
    ((ci < i)%nat -> evidence s' <> [] /\ all_grounded transcript (evidence s')) /\
    ((forall n, hc = Some n -> (n < HOLD_REGRESS_THRESHOLD)%Z) -> (ci <= i + 1)%nat) }.

Lemma in_range_0 : in_range f0.
Proof. by vm_compute. Qed.

Lemma reflect_on_spec data p transcript now hc ms s ci w s' w' :
  stage_index (stage s) = Some ci -> in_range (trust_score s) -> rs_peer s = p ->
  reflect_on data p transcript now hc ms s w = (Ok s', w') ->
  ((stage s' = HARD_BREACH_RESET /\ trust_score s' = f0) \/ pass_bounded transcript hc ci s') /\
  stored_stage (w_db w') p (stage s') /\ peer_counters (w_db w') = peer_counters (w_db w).
Proof.
  intros Hci Htr Hp. unfold reflect_on. rewrite bind_run. unfold of_res at 1.
  destruct (get_or (u "hard_breach") JNull data) as [hb|]; [|done]. destruct (jtruthy hb).
  - rewrite bind_run. unfold of_res at 1. destruct (breach data now s) as [sb|] eqn:Hb; [|done].
    assert (stage sb = HARD_BREACH_RESET /\ trust_score sb = f0 /\ rs_peer sb = p) as (H3 & H4 & H5).
    { unfold breach in Hb. destruct (get_or _ _ data); [|done]. cbn [mbind res_bind] in Hb.
      destruct (first_of _); [|done]. cbn [mbind res_bind] in Hb. unfold mret, res_ret in Hb. by injection Hb as <-. }
    rewrite bind_run, on_db_run. destruct (persist_relationship_state sb now (w_db w)) as [out d'] eqn:E.
    apply persist_spec in E as [(-> & row & -> & Hrow)|(-> & e & ->)]; [|done]. cbn [fst snd mret M_ret].
    intros [= <- <-]. split; [by left|]. split; [|done]. eapply stored_after; done.
  - rewrite bind_run. unfold of_res at 1. destruct (get_or (u "evidence") JNull data) as [ev|]; [|done].
    rewrite bind_run. unfold of_res at 1. destruct (iter_of _) as [items|]; [|done].
    rewrite bind_run. destruct (ground_evidence p transcript items w) as [[g|e] w1] eqn:Eg; [|done].
    apply ground_evidence_spec in Eg as [Hg Hw1].
    rewrite bind_run. unfold of_res at 1. destruct (apply_verdict data g s) as [sv|] eqn:Ev; [|done].
    pose proof (apply_verdict_spec data g s sv ci Hci Htr Ev) as (Ht & i & Hi & Hb & Hup & Hev).
    assert (rs_peer sv = p) as Hpv.
    { unfold apply_verdict in Ev. destruct (get_or (u "proposed_stage") _ data); [|done]. cbn [mbind res_bind] in Ev.
      destruct (or_raise _ (stage_index _)); [|done]. cbn [mbind res_bind] in Ev.
      destruct (or_raise _ (bounded_stage _ _)); [|done]. cbn [mbind res_bind] in Ev.
      destruct (get_or (u "trust_score") _ data) as [tv|]; [|done]. cbn [mbind res_bind] in Ev.
      set (ts := match py_float tv with Ok f => _ | Err e => _ end) in Ev. destruct ts; [|done].
      cbn [mbind res_bind] in Ev.
      unfold mret, res_ret in Ev. by injection Ev as <-. }
    destruct (apply_signal_spec hc sv i Hi) as (j & Hj & Hji & Hsig). cbv zeta.
    set (sf := stamp_reflected now (apply_signal hc sv)).
    assert (trust_score sf = trust_score sv /\ evidence sf = evidence sv /\ rs_peer sf = p /\
            stage sf = stage (apply_signal hc sv)) as (F1 & F2 & F3 & F4).
    { unfold sf, apply_signal. destruct hc as [n|]; [|by split_and!].
      destruct (HOLD_REGRESS_THRESHOLD <=? n)%Z; [|by split_and!].
      destruct (stage_index (stage sv)) as [[|k]|]; by split_and!. }
    assert (pass_bounded transcript hc ci sf) as Hpb.
    { split; [by rewrite F1|]. exists j. rewrite F4, F2. split_and!; [done|lia|lia| |].
      - intros Hlt. specialize (Hup ltac:(lia)). rewrite Hev by done. split; [by destruct g|].
        by apply Forall_take.
      - intros Hn. destruct hc as [n|]; [rewrite (Hsig n eq_refl (Hn n eq_refl)); lia|].
        change (apply_signal None sv) with sv in Hj. rewrite Hi in Hj. injection Hj as <-. lia. }
    clearbody sf. rewrite bind_run, on_db_run.
    destruct (persist_relationship_state sf now (w_db w1)) as [out d'] eqn:E.
    apply persist_spec in E as [(-> & row & -> & Hrow)|(-> & e & ->)]; [|done]. cbn [fst snd].
    rewrite bind_run. set (w2 := upd_db _ w1).
    set (wb := if ms then write_back data p (stage sf) now else mret tt).
    assert (pres (on_dbs rel_same) wb) as Hwb.
    { unfold wb. destruct ms; [apply rel_same_write_back|pres_auto]. }
    specialize (Hwb w2). destruct (wb w2) as [[x|e] w3]; [|done].
    destruct Hwb as [Hr Hc]. cbn in Hr, Hc. intros [= <- <-]. split; [by right|]. split.
    + eapply (stored_after p sf row (w_db w1)); [done| |done]. by rewrite Hr.
    + by rewrite Hc, Hw1.
Qed.
End reflection_lemmas.

(** ** Properties *)
Section reflection_properties.
Context `{PyLib, Crypto, Env, Prompts}.

Lemma ask_reflection_spec p st transcript today w out w' :
  ask_reflection p st transcript today w = (out, w') ->
  match out with
  | Ok (Some raw) => w_db w' = w_db w /\ exists t prompt, complete t prompt = Ok raw /\ EvComplete prompt ∈ w_trace w'
  | Ok None => w_db w' = (release_provider_slot p today (w_db w)).2
  | Err _ => w_db w' = w_db w
  end.
Proof.
  unfold ask_reflection. cbv zeta. set (prompt := build_reflection_prompt st transcript).
  rewrite bind_run. unfold background_slot, ask. rewrite !bind_run. unfold gets at 1, emit at 1, modify at 1, of_res at 1.
  rewrite bind_run. destruct (slot_granted (w_trace w)) as [[]|e]; [| |by intros [= <- <-]]; cbn [negb].
  - rewrite bind_run. unfold provider_complete, ask. rewrite !bind_run. unfold gets at 1, emit at 1, modify at 1, of_res at 1.
    rewrite bind_run. cbn -[prompt].
    match goal with |- context [complete ?t prompt] => destruct (complete t prompt) as [raw|e] eqn:Ec end; [|by intros [= <- <-]].
    intros [= <- <-]. split; [done|]. eexists _, _. split; [exact Ec|]. left.
  - rewrite bind_run, on_db_run.
    match goal with |- context [release_provider_slot p today ?d] => change d with (w_db w) end.
    pose proof (release_provider_slot_spec p today (w_db w)) as Hr. destruct (counts _ _ _).
    destruct Hr as (d2 & E2 & _). rewrite E2. intros E. cbn in E. by injection E as <- <-.
Qed.

Lemma get_relationship_state_reads p d :
  (get_relationship_state p d).2 = d /\
  forall s, (get_relationship_state p d).1 = Ok s -> rs_peer s = p /\ stored_stage d p (stage s).
Proof.
  unfold get_relationship_state, stored_stage, get_stage, get_relationship_row, mbind, M_bind, gets, of_res, mret, M_ret.
  destruct (relationship_state d !! p) as [row|]; [|split; [done|by intros s [= <-]]].
  destruct (read_strings (affinity_tags_json row)); [|done].
  destruct (read_strings (boundaries_json row)); [|done].
  destruct (read_strings (repair_history_json row)); [|done].
  destruct (read_evidence (evidence_json row)); [|done].
  split; [done|by intros s [= <-]].
Qed.

(** The model was asked and answered. *)
Definition answered : Prop := exists raw t prompt, complete t prompt = Ok raw.

(** One pass: either the state read comes back, its row untouched and the slot
    given back; or the model answered, one slot is spent, and the state comes
    back or the parsed answer was applied. *)
Lemma reflection_run p transcript now today hc ms w s' w' :
  caps_ok (w_db w) ->
  run_relationship_reflection p transcript now today hc ms w = (Ok s', w') ->
  exists s, (get_relationship_state p (w_db w)).1 = Ok s /\
    ((s' = s /\ relationship_state (w_db w') = relationship_state (w_db w) /\ slots (w_db w) (w_db w') p today 0)
     \/ (answered /\ ((counts (w_db w) p today).2 < DAILY_PROVIDER_CAP)%Z /\
         exists w1, slots (w_db w) (w_db w1) p today 1 /\
         ((s' = s /\ w_db w' = w_db w1) \/
          exists data, reflect_on data p transcript now hc ms s w1 = (Ok s', w')))).
Proof.
  intros Hcaps. unfold run_relationship_reflection.
  destruct (get_relationship_state_reads p (w_db w)) as [Hro _].
  destruct (get_relationship_state p (w_db w)) as [rs d0] eqn:Eg. cbn in Hro. subst d0.
  destruct (negb _).
  { rewrite on_db_run, Eg. cbn. intros [= -> <-]. exists s'. split; [done|]. left.
    split_and!; [done|done|apply slots_0]. }
  rewrite bind_run, on_db_run, Eg. cbn [fst snd]. destruct rs as [s|e]; [|done].
  cbv beta iota. intros E. exists s. split; [done|]. revert E. rewrite bind_run, on_db_run.
  change (w_db (upd_db (w_db w) w)) with (w_db w).
  destruct (reserve_slots (w_db w) p today) as (b & d1 & E1 & Hb & Hs1). rewrite E1 in *. cbn [fst snd] in *.
  destruct b; cbn [negb] in *.
  2: { injection 1 as <- <-. left. split_and!; [done| |exact Hs1]. destruct Hs1 as (_ & _ & ->). done. }
  symmetry in Hb. apply Z.ltb_lt in Hb. destruct (slots_count _ _ _ _ _ Hs1) as [Hc1 _].
  pose proof (proj1 (proj2 (caps_counts _ p today Hcaps))) as Hpos.
  destruct (release_slots d1 p today) as (d2 & Erel & Hs2); [lia|].
  assert (slots (w_db w) d2 p today 0) as Hs02 by (by apply (slots_trans _ d1 _ _ _ 1 (-1))).
  assert (relationship_state d2 = relationship_state (w_db w)) as Hr2.
  { destruct Hs02 as (_ & _ & ->). done. }
  rewrite bind_run. unfold try_except, catch.
  set (w1 := upd_db d1 _). destruct (ask_reflection p (stage s) transcript today w1) as [out w2] eqn:Ea.
  apply ask_reflection_spec in Ea. destruct out as [[raw|]|e].
  - destruct Ea as (Hd2 & t & prompt & Hcomp & _). intros E. right.
    split; [by exists raw, t, prompt|]. split; [done|]. exists w2. split; [by rewrite Hd2|].
    destruct (read_reflection raw) as [data|e]; [right; by exists data|left].
    rewrite bind_run in E. cbn in E. by injection E as <- <-.
  - injection 1 as <- <-. left. rewrite Ea. cbn. rewrite Erel. by split_and!.
  - destruct (is_Exception e); [|done]. rewrite bind_run, on_db_run. rewrite Ea. cbn. rewrite Erel.
    injection 1 as <- <-. left. by split_and!.
Qed.

(** One reflection pass moves a known stage up by at most one, and up only with
    at least one quote that is really in the transcript; down by at most two (the
    proposal's step and the hold signal's), by one without the hold signal; or
    resets it to stranger with zero trust on a hard breach.  Trust stays in
    [0, 1], and the stage returned is the stage stored. *)
Theorem reflection_bounded (p transcript : pystr) (now : Z) (today : pystr) (hc : option Z) (ms : bool)
    (w w' : world) (s s' : PeerRelationshipState) (ci : nat) :
  caps_ok (w_db w) -> (get_relationship_state p (w_db w)).1 = Ok s ->
  stage_index (stage s) = Some ci -> in_range (trust_score s) ->
  run_relationship_reflection p transcript now today hc ms w = (Ok s', w') ->
  (s' = s \/ (stage s' = HARD_BREACH_RESET /\ trust_score s' = f0) \/ pass_bounded transcript hc ci s') /\
  stored_stage (w_db w') p (stage s').
Proof.
  intros Hcaps Hs Hci Htr E. destruct (reflection_run _ _ _ _ _ _ _ _ _ Hcaps E) as (s0 & Hs0 & Hrun).
  rewrite Hs in Hs0. injection Hs0 as <-.
  destruct (get_relationship_state_reads p (w_db w)) as [_ Hrd]. destruct (Hrd s Hs) as [Hp Hst].
  assert (forall d', relationship_state d' = relationship_state (w_db w) -> stored_stage d' p (stage s)) as Hkeep.
  { intros d' Hd'. unfold stored_stage, get_stage, get_relationship_row in *. rewrite bind_run in *. unfold gets in *.
    by rewrite Hd'. }
  destruct Hrun as [(-> & Hr & _)|(_ & _ & w1 & Hsl & [[-> Hw]|[data Hro]])].
  - split; [by left|by apply Hkeep].
  - split; [by left|]. apply Hkeep. rewrite Hw. by destruct Hsl as (_ & _ & ->).
  - destruct (reflect_on_spec _ _ _ _ _ _ _ _ _ _ _ Hci Htr Hp Hro) as (Hb & Hst' & _). split; [by right|done].
Qed.

(** The slot of the daily provider cap taken for a reflection is spent exactly
    when the model answered, is refunded on a deferred or failed call, and is
    never taken from a spent cap. *)
Theorem reflection_slot_exact (p transcript : pystr) (now : Z) (today : pystr) (hc : option Z) (ms : bool)
    (w w' : world) (s s' : PeerRelationshipState) (ci : nat) :
  caps_ok (w_db w) -> (get_relationship_state p (w_db w)).1 = Ok s ->
  stage_index (stage s) = Some ci -> in_range (trust_score s) ->
  run_relationship_reflection p transcript now today hc ms w = (Ok s', w') ->
  let n := (counts (w_db w) p today).2 in let n' := (counts (w_db w') p today).2 in
  (n' = n /\ s' = s \/ n' = n + 1 /\ n < DAILY_PROVIDER_CAP /\ answered)%Z.
Proof.
  intros Hcaps Hs Hci Htr E. cbv zeta. destruct (reflection_run _ _ _ _ _ _ _ _ _ Hcaps E) as (s0 & Hs0 & Hrun).
  rewrite Hs in Hs0. injection Hs0 as <-.
  destruct (get_relationship_state_reads p (w_db w)) as [_ Hrd]. destruct (Hrd s Hs) as [Hp _].
  destruct Hrun as [(-> & _ & Hsl)|(Han & Hlt & w1 & Hsl & Hcase)]; apply slots_count in Hsl as [Hn _].
  - left. split; [lia|done].
  - right. split_and!; [|done|done]. rewrite <- Hn. destruct Hcase as [[_ ->]|[data Hro]]; [done|].
    destruct (reflect_on_spec _ _ _ _ _ _ _ _ _ _ _ Hci Htr Hp Hro) as (_ & _ & Hc). unfold counts. by rewrite Hc.
Qed.

(** The love-bomb guard: an emotion delta whose magnitude is not a positive
    finite number, or any delta once the window is at its cap, is not applied and
    charges nothing. *)
Theorem emotion_guarded (p : pystr) (delta : emotions) (now : Z) (w : world) (cur : float) :
  (get_peer_emotion_accumulated p now (w_db w)).1 = Ok cur ->
  is_finite (py_sum (map (fun kv => fabs kv.2) delta)) = false \/
  fle (py_sum (map (fun kv => fabs kv.2) delta)) f0 = true \/
  fle (pymax f0 (fsub PEER_EMOTION_WINDOW_CAP cur)) f0 = true ->
  exists w', apply_peer_emotion p delta now w = (Ok [], w') /\ w_db w' = w_db w.
Proof.
  intros Hcur Hc. unfold apply_peer_emotion. cbv zeta.
  destruct (negb (is_finite _) || fle _ f0) eqn:E; [by exists w|].
  apply orb_false_iff in E as [E1%negb_false_iff E2]. destruct Hc as [Hc|[Hc|Hc]]; [congruence|congruence|].
  rewrite bind_run, on_db_run.
  assert (get_peer_emotion_accumulated p now (w_db w) = (Ok cur, w_db w)) as ->.
  { unfold get_peer_emotion_accumulated, gets in *. cbn [fst] in Hcur. by rewrite Hcur. }
  cbn [fst snd]. rewrite Hc. by eexists.
Qed.
End reflection_properties.

(** ** Concrete runs and witnesses *)
Definition demo_prompts : Prompts := {|
  reflection_segments := ([], [], []); regenerate_segments := ([], [], []); SURFACE := [];
  TOOL_PROHIBITION := []; PRIVACY_GUIDANCE := []; STAGE_GUIDANCE _ := None; stranger_guidance := [] |}.

Section reflection_witnesses.
#[local] Existing Instance ascii_pylib.
#[local] Existing Instance toy_crypto.
#[local] Existing Instance demo_prompts.

(** The model proposes to go back to stranger. *)
Definition regress_text : pystr := u "{" ++ qq "proposed_stage" ++ u ":" ++ qq "stranger" ++ u "}".
#[local] Instance reflection_env : Env := demo_env silent_relay regress_text.

Definition friend_row : relationship_row :=
  {| r_stage := u "friend"; r_trust_score := fdec 5 (-1); affinity_tags_json := u "[]"; boundaries_json := u "[]";
     repair_history_json := u "[]"; evidence_json := u "[]"; r_last_reflected_at := None |}.
Definition friend_world : world := world_of (upd_relationship_state {[ u "kid_a" := friend_row ]} empty_db).

Definition regress_run (hc : option Z) : res PeerRelationshipState * world :=
  run_relationship_reflection (u "kid_a") (u "hello there") day (date_str day) hc false friend_world.

(** A pass without a breach can move two stages down: the model's demotion and
    the hold signal each take one step (friend to acquaintance), although the
    source calls the hard breach the only multi-stage move. *)
Theorem reflection_can_drop_two :
  exists s', (regress_run (Some 3%Z)).1 = Ok s' /\ stage s' = u "acquaintance" /\
    (get_relationship_state (u "kid_a") (w_db friend_world)).1 = Ok (with_stage (u "friend")
      {| rs_peer := u "kid_a"; stage := []; trust_score := fdec 5 (-1); affinity_tags := []; boundaries_seen := [];
         repair_history := []; evidence := []; last_reflected_at := None |}).
Proof. eexists. split; [vm_compute; reflexivity|]. split; vm_compute; reflexivity. Qed.

Definition friend_state : PeerRelationshipState :=
  {| rs_peer := u "kid_a"; stage := u "friend"; trust_score := fdec 5 (-1); affinity_tags := [];
     boundaries_seen := []; repair_history := []; evidence := []; last_reflected_at := None |}.

Lemma friend_caps : caps_ok (w_db friend_world).
Proof. intros p r Hr. cbn in Hr. by rewrite lookup_empty in Hr. Qed.

Lemma friend_read : (get_relationship_state (u "kid_a") (w_db friend_world)).1 = Ok friend_state.
Proof. vm_compute. reflexivity. Qed.

Lemma friend_range : in_range (trust_score friend_state).
Proof. by vm_compute. Qed.

Lemma reflection_bounded_witness :
  exists s' w', regress_run None = (Ok s', w') /\
    (s' = friend_state \/ (stage s' = HARD_BREACH_RESET /\ trust_score s' = f0) \/
     pass_bounded (u "hello there") None 3 s') /\ stored_stage (w_db w') (u "kid_a") (stage s').
Proof.
  destruct (regress_run None) as [[s'|e] w'] eqn:E; [|vm_compute in E; discriminate E].
  exists s', w'. split; [done|]. unfold regress_run in E.
  exact (reflection_bounded _ _ _ _ _ _ _ _ _ _ 3 friend_caps friend_read eq_refl friend_range E).
Defined.

Lemma reflection_slot_exact_witness :
  exists s' w', regress_run None = (Ok s', w') /\
    ((counts (w_db w') (u "kid_a") (date_str day)).2 = 0 /\ s' = friend_state \/
     (counts (w_db w') (u "kid_a") (date_str day)).2 = 0 + 1 /\ 0 < DAILY_PROVIDER_CAP /\ answered)%Z.
Proof.
  destruct (regress_run None) as [[s'|e] w'] eqn:E; [|vm_compute in E; discriminate E].
  exists s', w'. split; [done|]. unfold regress_run in E.
  exact (reflection_slot_exact _ _ _ _ _ _ _ _ _ _ 3 friend_caps friend_read eq_refl friend_range E).
Defined.

(** A window 0.07 full, charged with 0.66. *)
Definition window_world (full : float) : world :=
  world_of (upd_peer_emotion_window {[ u "kid_a" := (full, isoformat day) ]} empty_db).

(** The cap on a peer's accumulated emotion holds up to rounding only: scaling
    into the headroom and adding back can end one unit in the last place above
    the cap. *)
Theorem emotion_cap_rounds_over :
  exists acc, (get_peer_emotion_accumulated (u "kid_a") day
      (w_db (apply_peer_emotion (u "kid_a") [(u "joy", fdec 66 (-2))] day (window_world (fdec 7 (-2)))).2)).1 = Ok acc /\
    flt PEER_EMOTION_WINDOW_CAP acc = true.
Proof. eexists. split; [vm_compute; reflexivity|]. vm_compute. reflexivity. Qed.

Lemma emotion_guarded_witness :
  exists w', apply_peer_emotion (u "kid_a") [(u "joy", f1)] day (window_world (fdec 6 (-1))) = (Ok [], w') /\
    w_db w' = w_db (window_world (fdec 6 (-1))).
Proof.
  apply (emotion_guarded (u "kid_a") [(u "joy", f1)] day (window_world (fdec 6 (-1))) (fdec 6 (-1))).
  - vm_compute. reflexivity.
  - right. right. vm_compute. reflexivity.
Defined.
End reflection_witnesses.
