(* ===== verification/Consolidate.v ===== *)
(** [brain/engines/consolidation.py]: the consolidation gate.  A run claims the queue of
    [Pending] and decides each entry: a re-appraisal rewrites the importance of a stored
    memory; a candidate is dropped as a repeat or as faint, or judged by the classifier
    and then discarded, merged into a stored memory, or stored.  An entry whose work
    fails is quarantined, queued again, or left for the next run.  Every decision ends
    in [claim.settle].

    The store, the classifier, the re-appraiser and the files of names, archive and
    quarantine answer each access from the trace of all accesses before it, and may be
    where the process dies; producers may queue more at every access.  The queue's own
    files fail as in [Pending].  The theorems are in [ConsolidateFacts]. *)
From S2P Require Import Prelude PyFloat PyTime Json Crypto Protocol PyVal StateFile Jsonl Buffer Compaction Pipeline Relationship Pending.

(** ** The outside *)

(** [Decision]: the fields as the model's JSON gave them. *)
Record decision := { d_verdict : pystr; d_target_id : json; d_merged_content : json; d_names : json }.

Record reappraisal := { ra_importance : float; ra_names : json; ra_not_names : json }.

(** The accesses with their answers, oldest first.  A memory is its [to_dict()]; a row
    of the store also has its state and snapshot. *)
Inductive gate_event :=
| GvSearch (snippet : pystr) (answer : res (list json))             (* store.search_text *)
| GvEmbed (content : json) (answer : res unit)                      (* the embedding provider *)
| GvRelated (cand : json) (embedded : bool) (answer : res (list json))   (* _related_existing *)
| GvClassify (cand : json) (context : list json) (answer : res decision)
| GvAdmit (names : list pystr) (answer : res unit)                  (* admit_names *)
| GvGet (id : json) (answer : res (option json))                    (* store.get *)
| GvArchive (record : json) (answer : res unit)
| GvLive (answer : res bool)                                        (* engine_for(...).is_live() *)
| GvUpdate (id : json) (fields : list (pystr * json)) (answer : res unit)   (* store.update *)
| GvFelt (cand : json) (answer : res unit)                          (* on_memory_committed *)
| GvCreate (m : json) (answer : res unit)                           (* store.create *)
| GvVector (id : json) (embedded : bool) (answer : res unit)        (* write_embedding, embed_row *)
| GvEdge (id target : json) (answer : res unit)                     (* hebbian.set_edge_weight *)
| GvReappraise (m : json) (answer : res reappraisal)
| GvRefresh (id : json) (answer : res unit)                         (* refresh_faded_emotions *)
| GvUnname (names not_names : json) (answer : res unit)             (* _remove_not_names *)
| GvQuarantine (record : json) (answer : res unit)
| GvQueued (what : json + pystr)                                    (* pending.enqueue or enqueue_reappraisal returned *)
| GvSettle (entry : json).                                          (* claim.settle *)

Abbreviation gate_trace := (list gate_event).

Class GateWorld := {
  from_dict : json -> res json;                 (* Memory.from_dict *)
  search_store : gate_trace -> pystr -> res (list json);
  embed : gate_trace -> json -> res unit;
  related_existing : gate_trace -> json -> bool -> res (list json);
  classify : gate_trace -> json -> list json -> res decision;
  admit_names : gate_trace -> list pystr -> res unit;
  get_row : gate_trace -> json -> res (option json);
  append_archive : gate_trace -> json -> res unit;
  is_live : gate_trace -> res bool;
  update_row : gate_trace -> json -> list (pystr * json) -> res unit;
  on_memory_committed : gate_trace -> json -> res unit;
  create_row : gate_trace -> json -> res unit;
  write_vector : gate_trace -> json -> bool -> res unit;
  set_edge_weight : gate_trace -> json -> json -> res unit;
  reappraiser : gate_trace -> json -> res reappraisal;
  refresh_faded : gate_trace -> json -> res unit;
  remove_not_names : gate_trace -> json -> json -> res unit;
  append_quarantine : gate_trace -> json -> res unit;
  gate_clock : gate_trace -> Z;
  error_text : exn -> pystr;                    (* f"{type(exc).__name__}: {str(exc)[:500]}" *)
  resolve_emotions : json -> res (list (pystr * float));
  carry_date_prefix : json -> json -> res json;
  arrivals : gate_trace -> list (json * json);  (* candidates that producers queue meanwhile, with their sources *)
}.

(** ** State *)
Inductive tally := EXACT_DROPPED | SALIENCE_DROPPED | DUPLICATES | PROMOTED | MERGED | CORRECTIONS | CONTINUATIONS | PUT_OFF | REAPPRAISED | FAILED | QUARANTINED.

#[export] Instance tally_eq_dec : EqDecision tally.
Proof. solve_decision. Defined.

(** The queue's files, the claimed batch, the counters of [ConsolidationResult], the trace. *)
Record gate_run := { cr_queue : pending; cr_batch : batch; cr_result : tally -> Z; cr_trace : gate_trace }.

Abbreviation G := (M gate_run).

Definition log_gate (e : gate_event) : G unit := modify (fun s =>
  {| cr_queue := cr_queue s; cr_batch := cr_batch s; cr_result := cr_result s; cr_trace := cr_trace s ++ [e] |}).
Definition count_one (c : tally) : G unit := modify (fun s =>
  {| cr_queue := cr_queue s; cr_batch := cr_batch s; cr_result d := if decide (c = d) then (cr_result s d + 1)%Z else cr_result s d; cr_trace := cr_trace s |}).
Definition hold_batch (b : batch) : G unit := modify (fun s =>
  {| cr_queue := cr_queue s; cr_batch := b; cr_result := cr_result s; cr_trace := cr_trace s |}).

(** An operation on the queue. *)
Definition on_pending {A} (m : Q A) : G A :=
  zoom cr_queue (fun q s => {| cr_queue := q; cr_batch := cr_batch s; cr_result := cr_result s; cr_trace := cr_trace s |}) m.

(** [try: m  except Exception: h]. *)
Definition or_else {A} (m : G A) (h : exn -> G A) : G A := catch m (fun e => if is_Exception e then Some (h e) else None).

Section gate.
Context `{PyLib, PendingDisk, GateWorld}.

(** Producers get a turn; one that fails tells its own caller. *)
Definition meanwhile : G unit :=
  t ← gets cr_trace;
  for_each (arrivals t) (fun a => or_else (on_pending (enqueue a.1 a.2)) (fun _ => mret tt)).

Definition consult {A} (mk : res A -> gate_event) (answer : gate_trace -> res A) : G A :=
  meanwhile;;
  t ← gets cr_trace;
  log_gate (mk (answer t));;
  of_res (answer t).

(** [claim.settle(entry)]. *)
Definition settle_entry (entry : json) : G unit :=
  log_gate (GvSettle entry);;
  b ← gets cr_batch;
  b' ← on_pending (settle b entry);
  hold_batch b'.

(** ** Text *)
Definition normalize (text : json) : res pystr :=
  if negb (jtruthy text) then Ok [] else
  match text with JStr s => Ok (casefold (strip (collapse_spaces s false))) | _ => Err TypeError end.

Definition m_content (m : json) : json := jget_none (u "content") m.
Definition m_id (m : json) : json := jget_none (u "id") m.

(** [any(_normalize(h.content) == norm for h in hits)]. *)
Fixpoint any_same (norm : pystr) (rows : list json) : res bool :=
  match rows with [] => Ok false | r :: rows => n ← normalize (m_content r); if bool_decide (n = norm) then Ok true else any_same norm rows end.

Definition has_exact_existing (content norm : pystr) : G bool :=
  let snippet := take 200 (strip content) in
  match snippet with
  | [] => mret false
  | _ =>
      hits ← catch (rows ← consult (GvSearch snippet) (fun t => search_store t snippet); mret (Some rows)) (fun e => if is_ValueError e then Some (mret None) else None);
      match hits with Some rows => of_res (any_same norm rows) | None => mret false end
  end.

Definition fold_text (existing addition : json) : res pystr :=
  a ← normalize addition;
  b ← normalize existing;
  match existing, addition with
  | JStr x, JStr y => Ok (if substring_of a b then x else Jsonl.rstrip_by is_space x ++ [10%N] ++ strip y)
  | JStr x, _ => if substring_of a b then Ok x else Err AttributeError
  | _, _ => Err AttributeError
  end.

(** [_parse_names]. *)
Definition parse_names (value : json) : list pystr :=
  match value with
  | JArr l => omap (fun v => match v with JStr s => if bool_decide (strip s = []) then None else Some (strip s) | _ => None end) l
  | _ => []
  end.

Definition admit_extracted_names (names : json) : G unit :=
  match parse_names names with
  | [] => mret tt
  | cleaned => or_else (consult (GvAdmit cleaned) (fun t => admit_names t cleaned)) (fun _ => mret tt)
  end.

(** ** Decisions *)
Definition VERDICTS : list pystr := map u ["duplicate"; "merge"; "distinct"; "correction"; "continuation"; "new"]%string.

Definition clean_decision (d : decision) : decision :=
  {| d_verdict := d_verdict d;
     d_target_id := match d_target_id d with JStr (c :: s) => JStr (c :: s) | _ => JNull end;
     d_merged_content := match d_merged_content d with JStr s => JStr s | _ => JNull end;
     d_names := d_names d |}.

(** [_merge_emotions]. *)
Definition merge_one (merged : list (pystr * float)) (nv : pystr * float) : list (pystr * float) :=
  if existsb (fun kv => bool_decide (kv.1 = nv.1)) merged
  then map (fun kv => if bool_decide (kv.1 = nv.1) then (kv.1, fdiv (fadd kv.2 nv.2) (fofZ 2)) else kv) merged
  else merged ++ [nv].

Definition merge_emotions (target cand : json) : res json :=
  a ← resolve_emotions target;
  b ← resolve_emotions cand;
  mret (JObj (map (fun kv => (kv.1, JFloat kv.2)) (foldl merge_one a b))).

Definition put_off (cand : json) : G unit :=
  on_pending (enqueue cand (JStr (u "gate-deferred")));;
  log_gate (GvQueued (inl cand));;
  count_one PUT_OFF.

Definition get_memory (id : json) : G (option json) := consult (GvGet id) (fun t => get_row t id).

Definition archive_record (target cand : json) (now : Z) : json :=
  JObj [(u "archived_at", JStr (isoformat now)); (u "reason", JStr (u "consolidation_merge")); (u "target", target); (u "merged_from_candidate", m_id cand)].

(** The merge branch of [_dispatch]. *)
Definition merge_into (target cand : json) (d : decision) : G unit :=
  t ← gets cr_trace;
  let rec_ := archive_record target cand (gate_clock t) in
  consult (GvArchive rec_) (fun t => append_archive t rec_);;
  merged ← of_res (if jtruthy (d_merged_content d) then Ok (d_merged_content d) else s ← fold_text (m_content target) (m_content cand); mret (JStr s));
  merged ← of_res (carry_date_prefix (m_content target) merged);
  live ← consult GvLive is_live;
  fields ← (if (live : bool) then
              e ← of_res (merge_emotions (jget_none (u "emotions") target) (jget_none (u "emotions") cand));
              mret [(u "content", merged); (u "emotions", e); (u "fold", JBool false)]
            else mret [(u "content", merged)]);
  updated ← catch (consult (GvUpdate (m_id target) fields) (fun t => update_row t (m_id target) fields);; mret true)
                  (fun e => match e with KeyError => Some (mret false) | _ => None end);
  if negb updated then put_off cand else
  (if (live : bool) then consult (GvFelt cand) (fun t => on_memory_committed t cand) else mret tt);;
  count_one MERGED.

(** The promote branch. *)
Definition promote (has_hebbian : bool) (verdict : pystr) (cand : json) (d : decision) (embedded : bool) : G unit :=
  let is_ v := bool_decide (verdict = u v) in
  cand ← of_res (if is_ "correction"%string && jtruthy (d_target_id d)
                 then match jget_none (u "metadata") cand with
                      | JObj md => Ok (with_key "metadata" (JObj (dict_set (u "correction_of") (d_target_id d) md)) cand)
                      | _ => Err TypeError
                      end
                 else Ok cand);
  consult (GvCreate cand) (fun t => create_row t cand);;
  or_else (consult (GvVector (m_id cand) embedded) (fun t => write_vector t (m_id cand) embedded)) (fun _ => mret tt);;
  (if (is_ "correction"%string || is_ "continuation"%string) && jtruthy (d_target_id d) && has_hebbian
   then consult (GvEdge (m_id cand) (d_target_id d)) (fun t => set_edge_weight t (m_id cand) (d_target_id d)) else mret tt);;
  count_one (if is_ "correction"%string then CORRECTIONS else if is_ "continuation"%string then CONTINUATIONS else PROMOTED).

(** [_dispatch]. *)
Definition dispatch (has_hebbian : bool) (cand : json) (d : decision) (embedded : bool) : G unit :=
  let verdict := if existsb (fun v => bool_decide (v = d_verdict d)) VERDICTS then d_verdict d else u "new" in
  if bool_decide (verdict = u "duplicate") then count_one DUPLICATES else
  admit_extracted_names (d_names d);;
  if bool_decide (verdict = u "merge") then
    target ← (if jtruthy (d_target_id d) then get_memory (d_target_id d) else mret None);
    match target with
    | None => put_off cand
    | Some target => if jis_str (u "fading") (jget_none (u "state") target) then put_off cand else merge_into target cand d
    end
  else promote has_hebbian verdict cand d embedded.

(** ** Items whose work failed *)
Inductive saved := NotSaved | SavedRow (row : json) | Conflict (row : json).

(** [_saved_state]. *)
Definition same_text (cand row : json) : res bool :=
  c ← normalize (m_content cand);
  r ← normalize (m_content row);
  s ← normalize (jget_none (u "content_snapshot") row);
  mret (bool_decide (c = r) || (negb (bool_decide (s = [])) && bool_decide (c = s)) || (negb (bool_decide (c = [])) && substring_of c r)).

Definition saved_state (cand : json) : G saved :=
  row ← or_else (get_memory (m_id cand)) (fun _ => mret None);
  match row with
  | None => mret NotSaved
  | Some row => same ← of_res (same_text cand row); mret (if (same : bool) then SavedRow row else Conflict row)
  end.

(** [failure_scope], [settle_scope] of [brain/utils/failure_scope.py]. *)
Inductive scope := ENVIRONMENT | ITEM.

Definition failure_scope (e : exn) : scope :=
  match e with ThrottleDeferred | ShutdownDeferred | ServiceCallFailed | OSError | OperationalError => ENVIRONMENT | _ => ITEM end.

Definition settle_scope (e : exn) : G scope :=
  match failure_scope e with
  | ENVIRONMENT => mret ENVIRONMENT
  | ITEM => or_else (get_memory (JStr []);; mret ITEM) (fun _ => mret ENVIRONMENT)
  end.

Definition quarantine_record (now : Z) (entry : json) (stage : pystr) (e : exn) (existing : option json) : json :=
  JObj ([(u "quarantined_at", JStr (isoformat now)); (u "stage", JStr stage); (u "error", JStr (error_text e));
         (u "entry", match entry with JObj kvs => JObj (List.filter (fun kv => negb (bool_decide (kv.1 = u "_claim_id"))) kvs) | _ => entry end)]
        ++ match existing with Some row => [(u "existing_content", m_content row)] | None => [] end
        ++ match e with UnusableClassifierReply reply => [(u "reply", JStr reply)] | _ => [] end).

(** [_quarantine]. *)
Definition quarantine (entry : json) (stage : pystr) (e : exn) (existing : option json) : G unit :=
  t ← gets cr_trace;
  let rec_ := quarantine_record (gate_clock t) entry stage e existing in
  consult (GvQuarantine rec_) (fun t => append_quarantine t rec_).

Definition requeue (entry : json) (cand : option json) : G unit :=
  let source := if jtruthy (jget_none (u "_source") entry) then jget_none (u "_source") entry else JStr (u "gate-retry") in
  match cand with
  | Some _ =>
      again ← of_res (from_dict entry);
      on_pending (enqueue again source);;
      log_gate (GvQueued (inl again))
  | None =>
      let id := py_str (jget_none (u "memory_id") entry) in
      on_pending (enqueue_reappraisal id source);;
      log_gate (GvQueued (inr id))
  end.

(** A failure that is not a refusal. *)
Definition settle_failure (entry : json) (cand : option json) (stage : pystr) (e : exn) : G bool :=
  count_one FAILED;;
  probe ← match cand with Some c => saved_state c | None => mret NotSaved end;
  match probe with
  | SavedRow _ => settle_entry entry;; mret false
  | _ =>
      let existing := match probe with Conflict row => Some row | _ => None end in
      scope ← match existing with Some _ => mret ITEM | None => settle_scope e end;
      match scope with
      | ITEM =>
          quarantine entry stage e existing;;
          count_one QUARANTINED;;
          settle_entry entry;;
          mret false
      | ENVIRONMENT =>
          requeue entry cand;;
          settle_entry entry;;
          mret true
      end
  end.

(** [_settle_failed_item_inner]; the answer says whether the pass ends. *)
Definition settle_failed_item_inner (entry : json) (cand : option json) (stage : pystr) (e : exn) : G bool :=
  match e with ThrottleDeferred | ShutdownDeferred => mret true | _ => settle_failure entry cand stage e end.

(** [_settle_failed_item]. *)
Definition settle_failed_item (entry : json) (cand : option json) (stage : pystr) (e : exn) : G bool :=
  or_else (settle_failed_item_inner entry cand stage e) (fun _ => mret true).

(** One item in a [try] of its own: [Some] answer, or the failure settled; [None] ends
    the pass. *)
Definition per_item {A} (entry : json) (cand : option json) (stage : pystr) (failed : A) (m : G A) : G (option A) :=
  or_else (a ← m; mret (Some a)) (fun e => end_ ← settle_failed_item entry cand stage e; mret (if (end_ : bool) then None else Some failed)).

(** ** Re-appraisals *)
Definition clamp_importance (x : float) : float := pymin (fofZ 10) (pymax f0 x).

Definition write_back_faded_emotions (memory : json) : G unit :=
  or_else (live ← consult GvLive is_live;
           if negb live then mret tt else
           fresh ← get_memory (m_id memory);
           match fresh with None => mret tt | Some _ => consult (GvRefresh (m_id memory)) (fun t => refresh_faded t (m_id memory)) end)
          (fun _ => mret tt).

Definition reappraise_entry (entry : json) : G unit :=
  let id := jget_none (u "memory_id") entry in
  if negb (jtruthy id) || match id with JStr _ => false | _ => true end then settle_entry entry else
  memory ← get_memory id;
  match memory with
  | None => settle_entry entry
  | Some memory =>
      judged ← catch (a ← consult (GvReappraise memory) (fun t => reappraiser t memory); mret (Some a))
                     (fun e => match e with ThrottleDeferred | ShutdownDeferred | Crash => None | _ => Some (mret None) end);
      match judged with
      | None => settle_entry entry
      | Some a =>
          let fields := [(u "importance", JFloat (clamp_importance (ra_importance a)))] in
          updated ← catch (consult (GvUpdate id fields) (fun t => update_row t id fields);; mret true)
                          (fun e => match e with KeyError => Some (mret false) | _ => None end);
          if negb updated then settle_entry entry else
          count_one REAPPRAISED;;
          write_back_faded_emotions memory;;
          or_else (consult (GvUnname (ra_names a) (ra_not_names a)) (fun t => remove_not_names t (ra_names a) (ra_not_names a))) (fun _ => mret tt);;
          admit_extracted_names (ra_names a);;
          settle_entry entry
      end
  end.

(** [_handle_reappraisals]: whether the pass ends. *)
Fixpoint handle_reappraisals (entries : list json) : G bool :=
  match entries with
  | [] => mret false
  | e :: entries =>
      r ← per_item e None (u "reappraise") tt (reappraise_entry e);
      match r with Some _ => handle_reappraisals entries | None => mret true end
  end.

(** ** The two passes *)
Definition SALIENCE_ELIGIBLE_TYPES : list pystr := map u ["monologue"; "monologue_emotion"; "monologue_soul_candidate"]%string.

Definition unparseable (e : exn) : bool := bool_decide (e = KeyError) || is_ValueError e || bool_decide (e = TypeError).

(** The candidates; entries that make none are dropped. *)
Fixpoint parse_candidates (entries : list json) : G (list (json * json)) :=
  match entries with
  | [] => mret []
  | e :: entries =>
      c ← match from_dict e with
          | Ok c => mret (Some c)
          | Err x => if unparseable x then settle_entry e;; mret None else raise x
          end;
      rest ← parse_candidates entries;
      mret (match c with Some c => (e, c) :: rest | None => rest end)
  end.

Definition below_floor (floor : option float) (cand : json) : res bool :=
  match floor with
  | None => Ok false
  | Some f =>
      eligible ← in_set (jget_none (u "memory_type") cand) (map JStr SALIENCE_ELIGIBLE_TYPES);
      if (eligible : bool) then i ← py_float (jget_none (u "importance") cand); mret (flt i f) else Ok false
  end.

(** One candidate of the first pass: whether it survives, and the texts seen. *)
Definition first_look (floor : option float) (seen : list pystr) (entry cand : json) : G (bool * list pystr) :=
  norm ← of_res (normalize (m_content cand));
  if negb (bool_decide (norm = [])) && existsb (fun n => bool_decide (n = norm)) seen then
    count_one EXACT_DROPPED;; settle_entry entry;; mret (false, seen)
  else
  known ← match norm, m_content cand with [], _ => mret false | _, JStr content => has_exact_existing content norm | _, _ => mret false end;
  if (known : bool) then count_one EXACT_DROPPED;; settle_entry entry;; mret (false, norm :: seen) else
  faint ← of_res (below_floor floor cand);
  if (faint : bool) then count_one SALIENCE_DROPPED;; settle_entry entry;; mret (false, seen) else
  mret (true, match norm with [] => seen | _ => norm :: seen end).

(** The survivors of the first pass, and whether it ended early. *)
Fixpoint pass1 (floor : option float) (seen : list pystr) (cands : list (json * json)) : G (list (json * json) * bool) :=
  match cands with
  | [] => mret ([], false)
  | (e, c) :: cands =>
      r ← per_item e (Some c) (u "pass1") (false, seen) (first_look floor seen e c);
      match r with
      | None => mret ([], true)
      | Some (survives, seen) => '(rest, ended) ← pass1 floor seen cands; mret (if (survives : bool) then (e, c) :: rest else rest, ended)
      end
  end.

Definition embed_candidate (content : json) : G bool :=
  or_else (consult (GvEmbed content) (fun t => embed t content);; mret true) (fun _ => mret false).

(** The classifier's call: a refusal and an unusable reply stay what they are, any other
    failure is the service's. *)
Definition ask_classifier (cand : json) (context : list json) : G decision :=
  catch (consult (GvClassify cand context) (fun t => classify t cand context))
        (fun e => match e with ThrottleDeferred | ShutdownDeferred | UnusableClassifierReply _ | Crash => None | _ => Some (raise ServiceCallFailed) end).

Definition decide_candidate (has_hebbian : bool) (entry cand : json) : G unit :=
  embedded ← embed_candidate (m_content cand);
  context ← consult (GvRelated cand embedded) (fun t => related_existing t cand embedded);
  d ← ask_classifier cand context;
  dispatch has_hebbian cand (clean_decision d) embedded;;
  settle_entry entry.

Fixpoint pass2 (has_hebbian : bool) (survivors : list (json * json)) : G unit :=
  match survivors with
  | [] => mret tt
  | (e, c) :: survivors =>
      r ← per_item e (Some c) (u "pass2") tt (decide_candidate has_hebbian e c);
      match r with Some _ => pass2 has_hebbian survivors | None => mret tt end
  end.

(** ** The run *)
Definition is_reappraise_item (e : json) : bool := is_obj e && jis_str REAPPRAISE (jget_none (u "_route") e).

Definition close_batch : G unit := b ← gets cr_batch; on_pending (close b).

(** [_run_locked]: the batch's entries, and the whole; the answer is the number of
    candidates. *)
Definition work_through (has_hebbian : bool) (floor : option float) (es : list json) : G Z :=
  let candidate_entries := List.filter (fun e => negb (is_reappraise_item e)) es in
  let size := Z.of_nat (length candidate_entries) in
  ended ← handle_reappraisals (List.filter is_reappraise_item es);
  if (ended : bool) then close_batch;; mret size else
  match candidate_entries with
  | [] => close_batch;; mret size
  | _ =>
      cands ← parse_candidates candidate_entries;
      '(survivors, ended) ← pass1 floor [] cands;
      (if (ended : bool) then mret tt else pass2 has_hebbian survivors);;
      close_batch;;
      mret size
  end.

Definition run_locked (has_hebbian : bool) (floor : option float) : G Z :=
  b ← on_pending claim;
  hold_batch b;;
  work_through has_hebbian floor (b_entries b).

End gate.
