(* ===== verification/ConsolidateFacts.v ===== *)
(** Theorems about [Consolidate]: the gate settles an entry only for a reason that the
    trace shows, loses nothing else, and ends. *)
From S2P Require Import Prelude PyFloat PyTime Json Crypto Protocol PyVal StateFile Jsonl Buffer Compaction Pipeline Relationship WriteGuard RolloverFacts Pending PendingFacts Consolidate.

(** ** Reasons *)
Section facts.
Context `{PyLib, PendingDisk, GateWorld}.
Variables (es : list json) (floor : option float).

(** Why an entry of the batch [es] may be settled after these accesses. *)
Inductive why (t : gate_trace) (e : json) : Prop :=
| WhyUnparseable x : from_dict e = Err x -> unparseable x = true -> why t e
| WhyRepeat c n e' c' :
    from_dict e = Ok c -> normalize (m_content c) = Ok n -> n <> [] ->
    [e'; e] `sublist_of` es -> from_dict e' = Ok c' -> normalize (m_content c') = Ok n -> why t e
| WhyKnown c n snippet rows r :
    from_dict e = Ok c -> normalize (m_content c) = Ok n -> n <> [] ->
    GvSearch snippet (Ok rows) ∈ t -> r ∈ rows -> normalize (m_content r) = Ok n -> why t e
| WhyFaint c : from_dict e = Ok c -> below_floor floor c = Ok true -> why t e
| WhyDuplicate c context d :
    from_dict e = Ok c -> GvClassify c context (Ok d) ∈ t -> d_verdict d = u "duplicate" -> why t e
| WhyStored c context d m :
    from_dict e = Ok c -> GvClassify c context (Ok d) ∈ t -> GvCreate m (Ok tt) ∈ t -> m_id m = m_id c -> m_content m = m_content c -> why t e
| WhyMerged c context d target now fields :
    from_dict e = Ok c -> GvClassify c context (Ok d) ∈ t -> d_verdict d = u "merge" -> GvGet (d_target_id d) (Ok (Some target)) ∈ t ->
    GvArchive (archive_record target c now) (Ok tt) ∈ t -> GvUpdate (m_id target) fields (Ok tt) ∈ t -> why t e
| WhyQueued c : from_dict e = Ok c -> GvQueued (inl c) ∈ t -> why t e
| WhySaved c row :
    from_dict e = Ok c -> GvGet (m_id c) (Ok (Some row)) ∈ t -> same_text c row = Ok true -> why t e
| WhyQuarantined now stage x existing : GvQuarantine (quarantine_record now e stage x existing) (Ok tt) ∈ t -> why t e
| WhyNoMemory : reappraises e = true -> (forall c m, jget_none (u "memory_id") e <> JStr (c :: m)) -> why t e
| WhyGone : reappraises e = true -> GvGet (jget_none (u "memory_id") e) (Ok None) ∈ t -> why t e
| WhyUnjudged m x : reappraises e = true -> GvGet (jget_none (u "memory_id") e) (Ok (Some m)) ∈ t -> GvReappraise m (Err x) ∈ t -> why t e
| WhyRated m a r :
    reappraises e = true -> GvGet (jget_none (u "memory_id") e) (Ok (Some m)) ∈ t -> GvReappraise m (Ok a) ∈ t ->
    GvUpdate (jget_none (u "memory_id") e) [(u "importance", JFloat (clamp_importance (ra_importance a)))] r ∈ t -> r = Ok tt \/ r = Err KeyError -> why t e
| WhyQueuedAgain : reappraises e = true -> GvQueued (inr (py_str (jget_none (u "memory_id") e))) ∈ t -> why t e.

Lemma why_mono t t' e : t ⊆ t' -> why t e -> why t' e.
Proof.
  intros Hsub [].
  - by eapply WhyUnparseable.
  - by eapply WhyRepeat.
  - eapply WhyKnown; eauto.
  - by eapply WhyFaint.
  - eapply WhyDuplicate; eauto.
  - eapply WhyStored; eauto.
  - eapply WhyMerged; eauto.
  - eapply WhyQueued; eauto.
  - eapply WhySaved; eauto.
  - eapply WhyQuarantined; eauto.
  - by eapply WhyNoMemory.
  - eapply WhyGone; eauto.
  - eapply WhyUnjudged; eauto.
  - eapply WhyRated; eauto.
  - eapply WhyQueuedAgain; eauto.
Qed.

(** Every settling in the trace had a reason at its time. *)
Inductive explained : gate_trace -> Prop :=
| explained_nil : explained []
| explained_settle t e : explained t -> e ∈ es -> why t e -> explained (t ++ [GvSettle e])
| explained_other t v : explained t -> (forall e, v <> GvSettle e) -> explained (t ++ [v]).

Lemma explained_at t : explained t -> forall t1 e t2, t = t1 ++ GvSettle e :: t2 -> e ∈ es /\ why t1 e.
Proof.
  induction 1 as [|t e Ht IH He Hw|t v Ht IH Hv]; intros t1 e' t2 Heq.
  - by destruct t1.
  - destruct t2 as [|v2 t2 _] using rev_ind.
    + apply app_inj_tail in Heq as [-> [= ->]]. done.
    + rewrite app_comm_cons, (assoc_L (++)) in Heq. apply app_inj_tail in Heq as [-> _]. by eapply IH.
  - destruct t2 as [|v2 t2 _] using rev_ind.
    + apply app_inj_tail in Heq as [-> ->]. by destruct (Hv e').
    + rewrite app_comm_cons, (assoc_L (++)) in Heq. apply app_inj_tail in Heq as [-> _]. by eapply IH.
Qed.

(** ** States of a run *)

(** What stands in the queue for something that was queued. *)
Definition stands_for (w x : json + pystr) : Prop :=
  match w with inl c => exists source now, x = item (queue_entry c source now) | inr id => x = inr id end.

Definition accounted (s : gate_run) (x : json + pystr) : Prop :=
  waits (cr_queue s) x \/ exists e, GvSettle e ∈ cr_trace s /\ item e = x.

Record fair (s : gate_run) : Prop := {
  fa_ok : ok (cr_queue s);
  fa_explained : explained (cr_trace s);
  fa_queued : forall w, GvQueued w ∈ cr_trace s -> exists x, stands_for w x /\ accounted s x;
}.

Record good (s : gate_run) : Prop := {
  go_fair : fair s;
  go_held : held (cr_batch s) (cr_queue s);
  go_entries : b_entries (cr_batch s) = es;
}.

Record since (s s' : gate_run) : Prop := {
  si_good : good s';
  si_trace : cr_trace s `prefix_of` cr_trace s';
  si_accounted : forall x, accounted s x -> accounted s' x;
}.

Lemma since_refl s : good s -> since s s.
Proof. by split. Qed.

Lemma since_trans s1 s2 s3 : since s1 s2 -> since s2 s3 -> since s1 s3.
Proof. intros [A1 A2 A3] [B1 B2 B3]. split; [done|by etrans|auto]. Qed.

Lemma since_elem s s' v : since s s' -> v ∈ cr_trace s -> v ∈ cr_trace s'.
Proof. intros [_ [k ->] _] Hv. apply elem_of_app. by left. Qed.

Lemma since_why s s' e : since s s' -> why (cr_trace s) e -> why (cr_trace s') e.
Proof. intros Hs. apply why_mono. intros v. by apply since_elem. Qed.

(** ** What an operation leaves *)
Definition gends {A} (m : G A) (s : gate_run) (E : exn -> gate_run -> Prop) (R : A -> gate_run -> Prop) : Prop :=
  match m s with (Ok a, s') => since s s' /\ R a s' | (Err x, s') => since s s' /\ E x s' end.

Lemma gends_ret {A} (a : A) s E (R : A -> gate_run -> Prop) : good s -> R a s -> gends (mret a) s E R.
Proof. intros Hg HR. split; [by apply since_refl|done]. Qed.

Lemma gends_raise {A} x s (E : exn -> gate_run -> Prop) (R : A -> gate_run -> Prop) : good s -> E x s -> gends (raise x) s E R.
Proof. intros Hg HE. split; [by apply since_refl|done]. Qed.

Lemma gends_bind {A B} (m : G A) (k : A -> G B) s E R1 R :
  gends m s E R1 -> (forall a s1, since s s1 -> good s1 -> R1 a s1 -> gends (k a) s1 E R) -> gends (m ≫= k) s E R.
Proof.
  unfold gends. rewrite bind_run. destruct (m s) as [[a|x] s1]; [|done]. intros [Hs HR] Hk. specialize (Hk a s1 Hs (si_good _ _ Hs) HR).
  destruct (k a s1) as [[b|x] s2]; destruct Hk; (split; [by eapply since_trans|done]).
Qed.

Lemma gends_gets {A B} (f : gate_run -> A) (k : A -> G B) s E R : gends (k (f s)) s E R -> gends (gets f ≫= k) s E R.
Proof. done. Qed.

Lemma gends_res {A B} (r : res A) (k : A -> G B) s (E : exn -> gate_run -> Prop) R : good s ->
  match r with Ok a => gends (k a) s E R | Err x => E x s end -> gends (of_res r ≫= k) s E R.
Proof. intros Hg. destruct r; [done|]. intros HE. split; [by apply since_refl|done]. Qed.

Lemma gends_weaken {A} (m : G A) s (E E' : exn -> gate_run -> Prop) (R R' : A -> gate_run -> Prop) :
  gends m s E R -> (forall x s', since s s' -> E x s' -> E' x s') -> (forall a s', since s s' -> R a s' -> R' a s') -> gends m s E' R'.
Proof. unfold gends. destruct (m s) as [[a|x] s']; intros [Hs Hr] HE HR; eauto. Qed.

Lemma gends_catch {A} (m : G A) h s (E1 E : exn -> gate_run -> Prop) (R : A -> gate_run -> Prop) :
  gends m s E1 R ->
  (forall x s1, since s s1 -> good s1 -> E1 x s1 -> match h x with Some k => gends k s1 E R | None => E x s1 end) -> gends (catch m h) s E R.
Proof.
  unfold gends, catch. destruct (m s) as [[a|x] s1]; [done|]. intros [Hs HE] Hh. specialize (Hh x s1 Hs (si_good _ _ Hs) HE).
  destruct (h x) as [k|]; [|done]. destruct (k s1) as [[b|y] s2]; destruct Hh; (split; [by eapply since_trans|done]).
Qed.

(** ** Primitive steps *)
Hypothesis uuid_inj : forall t t', uuid4_hex t = uuid4_hex t' -> t = t'.
Hypothesis uuid_text : forall t, uuid4_hex t <> [].
Hypothesis arrivals_ok : forall t a, a ∈ arrivals t -> candidate a.1.
Hypothesis from_dict_ok : forall e m, from_dict e = Ok m -> candidate m.

Lemma since_same_queue s s' : good s -> cr_queue s' = cr_queue s -> cr_batch s' = cr_batch s -> cr_trace s' = cr_trace s -> since s s'.
Proof.
  intros [[F1 F2 F3] Hh He] Hq Hb Ht. assert (forall x, accounted s x -> accounted s' x) as Ha by (intros x; unfold accounted; by rewrite Hq, Ht).
  split; [split; [split|..]|..]; rewrite ?Hq, ?Hb, ?Ht; try done. intros w Hw. destruct (F3 w Hw) as (x & Hx & Hacc). eauto.
Qed.

Lemma gends_count c s E : good s -> gends (count_one c) s E (fun _ _ => True).
Proof. intros Hg. split; [by apply since_same_queue|done]. Qed.

Lemma accounted_more s s' x t : cr_queue s' = cr_queue s -> cr_trace s' = cr_trace s ++ t -> accounted s x -> accounted s' x.
Proof. intros Hq Ht [Hw|(e & He & Hi)]; [left; by rewrite Hq|right]. exists e. split; [|done]. rewrite Ht. apply elem_of_app. by left. Qed.

(** An event that neither settles nor queues. *)
Lemma log_since v s : good s -> (forall e, v <> GvSettle e) -> (forall w, v <> GvQueued w) -> since s (log_gate v s).2.
Proof.
  intros [[F1 F2 F3] Hh He] Hs Hq. pose proof (fun x => accounted_more s (log_gate v s).2 x [v] eq_refl eq_refl) as Ha. split; [split; [split|..]|..]; try done.
  - by apply explained_other.
  - intros w [Hw|Hw%list_elem_of_singleton]%elem_of_app; [|by destruct (Hq w)]. destruct (F3 w Hw) as (x & Hx & Hacc). eauto.
  - by apply prefix_app_r.
Qed.

(** The queue grew, and perhaps something was queued that now waits. *)
Lemma grown_since s q : good s -> grown (cr_queue s) q ->
  since s {| cr_queue := q; cr_batch := cr_batch s; cr_result := cr_result s; cr_trace := cr_trace s |}.
Proof.
  intros [[F1 F2 F3] Hh He] [[Hok Hw] Hb].
  assert (forall x, accounted s x -> accounted {| cr_queue := q; cr_batch := cr_batch s; cr_result := cr_result s; cr_trace := cr_trace s |} x) as Ha
    by (intros x [Hx|Hx]; [left; by apply Hw|by right]).
  split; [split; [split|..]|..]; cbn; try done; [|by apply Hb]. intros w Hq. destruct (F3 w Hq) as (x & Hx & Hacc). eauto.
Qed.

Lemma gends_pending {A} (m : Q A) s (R : A -> pending -> Prop) : good s ->
  ends m (cr_queue s) (grown (cr_queue s)) (fun a q => grown (cr_queue s) q /\ R a q) ->
  gends (on_pending m) s (fun _ _ => True) (fun a s' => R a (cr_queue s')).
Proof.
  intros Hg. unfold ends, gends, on_pending, zoom. destruct (m (cr_queue s)) as [[a|x] q]; intros Hm.
  - destruct Hm as [Hm HR]. split; [by apply grown_since|done].
  - split; [by apply grown_since|done].
Qed.

Definition only_crash : exn -> gate_run -> Prop := fun x _ => x = Crash.
Definition any : exn -> gate_run -> Prop := fun _ _ => True.

Lemma gends_log_queued w x s : good s -> stands_for w x -> waits (cr_queue s) x ->
  gends (log_gate (GvQueued w)) s any (fun _ s' => GvQueued w ∈ cr_trace s').
Proof.
  intros [[F1 F2 F3] Hh He] Hx Hw. pose proof (fun y => accounted_more s (log_gate (GvQueued w) s).2 y [GvQueued w] eq_refl eq_refl) as Ha. split.
  - split; [split; [split|..]|..]; try done; [by apply explained_other| |by apply prefix_app_r].
    intros w' [Hw'|[= ->]%list_elem_of_singleton]%elem_of_app; [destruct (F3 w' Hw') as (y & Hy & Hacc); eauto|]. exists x. split; [done|]. apply Ha. by left.
  - apply elem_of_app. right. by left.
Qed.

Lemma gends_or_else {A} (m : G A) h s (E : exn -> gate_run -> Prop) (R : A -> gate_run -> Prop) :
  gends m s any R -> (forall s1, E Crash s1) -> (forall x s1, since s s1 -> good s1 -> gends (h x) s1 E R) -> gends (or_else m h) s E R.
Proof.
  intros Hm HE Hh. eapply gends_catch; [exact Hm|]. intros x s1 Hs Hg _. destruct (is_Exception x) eqn:Hx; [by apply Hh|]. by destruct x.
Qed.

Lemma gends_meanwhile s (E : exn -> gate_run -> Prop) : good s -> (forall s1, E Crash s1) -> gends meanwhile s E (fun _ _ => True).
Proof.
  intros Hg HE. unfold meanwhile. apply gends_gets. pose proof (arrivals_ok (cr_trace s)) as Ha. revert Ha. generalize (arrivals (cr_trace s)). intros l. revert s Hg.
  induction l as [|a l IH]; intros s Hg Ha; [by apply gends_ret|].
  cbn [for_each]. eapply (gends_bind _ _ _ _ (fun _ _ => True)).
  - apply gends_or_else; [|done|intros; by apply gends_ret]. eapply gends_weaken; [eapply (gends_pending _ s (fun _ _ => True)); [done|]|done|done].
    eapply ends_weaken; [apply enqueue_ends; [apply Hg|apply Ha; by left]|done|]. by intros [] q [Hq _].
  - intros _ s1 _ Hg1 _. apply IH; [done|]. intros b Hb. apply Ha. by right.
Qed.

(** An access: the trace has its answer. *)
Lemma gends_consult {A} (mk : res A -> gate_event) (answer : gate_trace -> res A) s : good s ->
  (forall r e, mk r <> GvSettle e) -> (forall r w, mk r <> GvQueued w) ->
  gends (consult mk answer) s (fun x s' => x = Crash \/ mk (Err x) ∈ cr_trace s') (fun a s' => mk (Ok a) ∈ cr_trace s').
Proof.
  intros Hg Hs Hq. unfold consult. eapply gends_bind; [apply gends_meanwhile; [done|by left]|]. intros _ s1 _ Hg1 _. apply gends_gets.
  eapply (gends_bind _ _ _ _ (fun _ s' => mk (answer (cr_trace s1)) ∈ cr_trace s')).
  - split; [by apply log_since|]. apply elem_of_app. right. by left.
  - intros _ s2 _ Hg2 Hin. destruct (answer (cr_trace s1)) as [a|x] eqn:Ha; (split; [by apply since_refl|]); [done|by right].
Qed.

Lemma gends_ask {A} (mk : res A -> gate_event) (answer : gate_trace -> res A) s : good s ->
  (forall r e, mk r <> GvSettle e) -> (forall r w, mk r <> GvQueued w) ->
  gends (consult mk answer) s any (fun a s' => mk (Ok a) ∈ cr_trace s').
Proof. intros Hg Hs Hq. eapply gends_weaken; [by apply gends_consult|done|done]. Qed.

Lemma adding_raises set rs q x q' : adding set rs q = (Err x, q') -> x = OSError \/ x = Crash.
Proof. unfold adding. rewrite bind_run. cbn. destruct (pd_disk (pq_time q)); cbn; intros [= <- <-]; auto. Qed.

Lemma settle_dies q b e x q' : held b q -> e ∈ b_entries b -> settle b e q = (Err x, q') -> x = Crash.
Proof.
  intros Hb He. pose proof (proj1 (Forall_forall _ _) (he_given b q Hb) e He) as (t & _ & Ht). cbn in Ht. unfold settle. cbv zeta. rewrite Ht.
  destruct (negb _); [done|]. destruct (in_text_set (uuid4_hex t) (b_settled b)) as (d & Hd & _). rewrite bind_run. unfold of_res. rewrite Hd.
  destruct d; [done|]. rewrite bind_run. unfold catch. rewrite bind_run. destruct (adding _ _ q) as [[[]|y] q1] eqn:Ha; [done|].
  apply adding_raises in Ha as [-> | ->]; [discriminate|by intros [= <- _]].
Qed.

Lemma settled_since s e q b s' : good s -> e ∈ es -> why (cr_trace s) e -> settled_one (cr_queue s) e q -> held b q -> b_entries b = es ->
  cr_queue s' = q -> cr_batch s' = b -> cr_trace s' = cr_trace s ++ [GvSettle e] -> since s s'.
Proof.
  intros [[F1 F2 F3] Hh Hes] He Hw [Hok Hx] Hb Hbe Hq' Hb' Ht'.
  assert (forall x, accounted s x -> accounted s' x) as Ha.
  { intros x [Hx'|(e' & He' & Hi)].
    - destruct (Hx x Hx') as [|Hi]; [left; by rewrite Hq'|right]. exists e. split; [rewrite Ht'; apply elem_of_app; right; by left|done].
    - right. exists e'. split; [rewrite Ht'; apply elem_of_app; by left|done]. }
  split; [split; [split|..]|..]; rewrite ?Hq', ?Hb', ?Ht'; try done; [by apply explained_settle| |by apply prefix_app_r].
  intros w [Hin|Hin%list_elem_of_singleton]%elem_of_app; [|done]. destruct (F3 w Hin) as (x & Hs & Hacc). eauto.
Qed.

Lemma gends_settle s e : good s -> e ∈ es -> why (cr_trace s) e -> gends (settle_entry e) s only_crash (fun _ _ => True).
Proof.
  intros Hg He Hw. pose proof Hg as [[F1 _ _] Hh Hes]. assert (e ∈ b_entries (cr_batch s)) as He' by (by rewrite Hes).
  pose proof (settle_ends uuid_text (cr_queue s) (cr_batch s) e F1 Hh He') as Hse. unfold ends in Hse.
  unfold gends, settle_entry. rewrite bind_run. cbn [log_gate modify]. rewrite bind_run. cbn [gets]. rewrite bind_run. unfold on_pending, zoom. cbn [cr_queue cr_batch].
  destruct (settle (cr_batch s) e (cr_queue s)) as [[b'|x] q] eqn:Hsettle; cbn.
  - destruct Hse as [Hone Hh' Hb' _ _ _ _]. split; [|done]. eapply (settled_since s e q b'); try done. congruence.
  - destruct Hse as (_ & Hone & Hh'). split; [by eapply (settled_since s e q)|]. by apply (settle_dies (cr_queue s) (cr_batch s) e x q).
Qed.

Lemma gends_done s e (E : exn -> gate_run -> Prop) : good s -> e ∈ es -> why (cr_trace s) e -> (forall s1, E Crash s1) -> gends (settle_entry e) s E (fun _ _ => True).
Proof. intros Hg He Hw HE. eapply gends_weaken; [by apply gends_settle| |done]. intros x s' _ ->. apply HE. Qed.

(** ** Re-appraisals and failed items *)
Lemma gends_admit names s (E : exn -> gate_run -> Prop) : good s -> (forall s1, E Crash s1) -> gends (admit_extracted_names names) s E (fun _ _ => True).
Proof.
  intros Hg HE. unfold admit_extracted_names. destruct (parse_names names) as [|n ns]; [by apply gends_ret|].
  apply gends_or_else; [|done|intros; by apply gends_ret]. eapply gends_weaken; [by apply gends_ask|done|done].
Qed.

Lemma gends_get id s : good s -> gends (get_memory id) s any (fun r s' => GvGet id (Ok r) ∈ cr_trace s').
Proof. intros Hg. by apply gends_ask. Qed.

Lemma gends_enqueue m src s : good s -> candidate m ->
  gends (on_pending (enqueue m src)) s any (fun _ s' => exists x, stands_for (inl m) x /\ waits (cr_queue s') x).
Proof.
  intros Hg Hc. apply (gends_pending (enqueue m src) s (fun _ q => exists x, stands_for (inl m) x /\ waits q x)); [done|].
  eapply ends_weaken; [apply enqueue_ends; [apply Hg|done]|done|]. intros [] q [Hq Hw]. split; [done|]. eexists. split; [|exact Hw]. by exists src, (isoformat (pd_clock (pq_time (cr_queue s)))).
Qed.

Lemma gends_request id src s : good s ->
  gends (on_pending (enqueue_reappraisal id src)) s any (fun _ s' => waits (cr_queue s') (inr id)).
Proof.
  intros Hg. apply (gends_pending (enqueue_reappraisal id src) s (fun _ q => waits q (inr id))); [done|].
  unfold enqueue_reappraisal. eapply ends_bind; [apply reappraise_ends; apply Hg|]. intros n q [Hq Hw]. split; [done|]. apply Hw. by left.
Qed.

(** What kind of entry it is. *)
Definition kind (e : json) (c : option json) : Prop := match c with Some c' => from_dict e = Ok c' | None => reappraises e = true end.

Lemma gends_requeue s e c : good s -> kind e c -> gends (requeue e c) s any (fun _ s' => why (cr_trace s') e).
Proof.
  intros Hg Hc. unfold requeue. set (src := if jtruthy _ then _ else _). destruct c as [c|]; cbn in Hc.
  - rewrite Hc. apply gends_res; [done|]. eapply gends_bind; [apply gends_enqueue; [done|by eapply from_dict_ok]|].
    intros [] s1 _ Hg1 (x & Hx & Hw). eapply gends_weaken; [by eapply gends_log_queued|done|]. intros [] s2 _ Hin. by eapply WhyQueued.
  - eapply gends_bind; [by apply gends_request|]. intros [] s1 _ Hg1 Hw.
    eapply gends_weaken; [by eapply (gends_log_queued (inr _))|done|]. intros [] s2 _ Hin. by apply WhyQueuedAgain.
Qed.

Lemma gends_put_off c s e : good s -> from_dict e = Ok c -> gends (put_off c) s any (fun _ s' => why (cr_trace s') e).
Proof.
  intros Hg Hc. unfold put_off. eapply gends_bind; [apply gends_enqueue; [done|by eapply from_dict_ok]|].
  intros [] s1 _ Hg1 (x & Hx & Hw). eapply gends_bind; [by eapply gends_log_queued|]. intros [] s2 Hs Hg2 Hin.
  eapply gends_weaken; [by apply (gends_count _ _ any)|done|]. intros [] s3 Hs3 _. eapply WhyQueued; [done|]. by eapply since_elem.
Qed.

Lemma gends_saved c s : good s ->
  gends (saved_state c) s any (fun r s' => forall row, r = SavedRow row -> GvGet (m_id c) (Ok (Some row)) ∈ cr_trace s' /\ same_text c row = Ok true).
Proof.
  intros Hg. unfold saved_state. eapply (gends_bind _ _ _ _ (fun r s' => forall row, r = Some row -> GvGet (m_id c) (Ok (Some row)) ∈ cr_trace s')).
  - apply gends_or_else; [|done|by intros; apply gends_ret]. eapply gends_weaken; [by apply gends_get|done|]. intros r s' _ Hin row ->. done.
  - intros [row|] s1 _ Hg1 Hr; [|by apply gends_ret]. apply gends_res; [done|]. destruct (same_text c row) as [b|] eqn:Hsame; [|done].
    apply gends_ret; [done|]. destruct b; [|done]. intros row' [= <-]. split; [by apply Hr|done].
Qed.

Lemma gends_scope x s : good s -> gends (settle_scope x) s any (fun _ _ => True).
Proof.
  intros Hg. unfold settle_scope. destruct (failure_scope x); [by apply gends_ret|]. apply gends_or_else; [|done|by intros; apply gends_ret].
  eapply gends_bind; [by apply gends_get|]. intros r s1 _ Hg1 _. by apply gends_ret.
Qed.

Lemma gends_settled e k s : good s -> e ∈ es -> why (cr_trace s) e -> gends (settle_entry e;; mret k) s any (fun (_ : bool) _ => True).
Proof. intros Hg He Hw. eapply gends_bind; [by apply gends_done|]. intros _ s1 _ Hg1 _. by apply gends_ret. Qed.

Lemma gends_scoped s e c stage x existing sc : good s -> e ∈ es -> kind e c ->
  gends (match sc with
         | ITEM => quarantine e stage x existing;; count_one QUARANTINED;; settle_entry e;; mret false
         | ENVIRONMENT => requeue e c;; settle_entry e;; mret true
         end) s any (fun _ _ => True).
Proof.
  intros Hg He Hc. destruct sc.
  - eapply gends_bind; [by apply gends_requeue|]. intros [] s1 _ Hg1 Hw. by apply gends_settled.
  - eapply (gends_bind _ _ _ _ (fun _ s' => why (cr_trace s') e)).
    + unfold quarantine. apply gends_gets. cbv zeta. eapply gends_weaken; [by apply gends_ask|done|]. intros [] s' _ Hin. by eapply WhyQuarantined.
    + intros [] s1 _ Hg1 Hw. eapply gends_bind; [by apply gends_count|]. intros [] s2 Hs Hg2 _. apply gends_settled; [done|done|]. by eapply since_why.
Qed.

Lemma gends_inner s e c stage x : good s -> e ∈ es -> kind e c -> gends (settle_failed_item_inner e c stage x) s any (fun _ _ => True).
Proof.
  intros Hg He Hc. assert (gends (settle_failure e c stage x) s any (fun _ _ => True)) as Hmain; [|unfold settle_failed_item_inner; destruct x; first [exact Hmain|by apply gends_ret]].
  unfold settle_failure. eapply gends_bind; [by apply gends_count|]. intros [] s1 _ Hg1 _.
  eapply (gends_bind _ _ _ _ (fun r s' => forall row, r = SavedRow row -> why (cr_trace s') e)).
  { destruct c as [c|]; [|by apply gends_ret]. eapply gends_weaken; [by apply gends_saved|done|]. intros r s' _ Hr row Hrow.
    destruct (Hr row Hrow). by eapply WhySaved. }
  intros [|row|row] s2 _ Hg2 Hp; cbv zeta.
  - eapply gends_bind; [by apply gends_scope|]. intros sc s3 _ Hg3 _. by apply gends_scoped.
  - apply gends_settled; [done|done|by eapply Hp].
  - eapply (gends_bind _ _ _ _ (fun _ _ => True)); [by apply gends_ret|]. intros sc s3 _ Hg3 _. by apply gends_scoped.
Qed.

Lemma gends_failed s e c stage x : good s -> e ∈ es -> kind e c -> gends (settle_failed_item e c stage x) s only_crash (fun _ _ => True).
Proof. intros Hg He Hc. apply gends_or_else; [by apply gends_inner|done|by intros; apply gends_ret]. Qed.

(** An item in its own [try] leaves a good state, and only dies. *)
Lemma gends_per_item {A} e c stage (failed : A) m s (R : A -> gate_run -> Prop) : good s -> e ∈ es -> kind e c ->
  gends m s any R -> (forall s1, since s s1 -> R failed s1) ->
  gends (per_item e c stage failed m) s only_crash (fun r s' => forall a, r = Some a -> R a s').
Proof.
  intros Hg He Hc Hm HR. apply gends_or_else; [|done|].
  - eapply gends_bind; [exact Hm|]. intros a s1 _ Hg1 Ha. apply gends_ret; [done|]. by intros b [= <-].
  - intros x s1 Hs Hg1. eapply (gends_bind _ _ _ _ (fun _ _ => True)); [by apply gends_failed|]. intros b s2 Hs2 Hg2 _. apply gends_ret; [done|]. destruct b; [done|]. intros a [= <-]. apply HR.
    by eapply since_trans.
Qed.

(** An access whose [KeyError] is an answer. *)
Lemma gends_update id fields s : good s ->
  gends (catch (consult (GvUpdate id fields) (fun t => update_row t id fields);; mret true) (fun e => match e with KeyError => Some (mret false) | _ => None end))
    s any (fun b s' => GvUpdate id fields (if (b : bool) then Ok tt else Err KeyError) ∈ cr_trace s').
Proof.
  intros Hg. eapply (gends_catch _ _ _ (fun x s' => x = Crash \/ GvUpdate id fields (Err x) ∈ cr_trace s')).
  - eapply gends_bind; [by apply gends_consult|]. intros [] s1 _ Hg1 Hin. by apply gends_ret.
  - intros x s1 _ Hg1 Hx. destruct x; try done. apply gends_ret; [done|]. by destruct Hx.
Qed.

Lemma gends_write_back m s : good s -> gends (write_back_faded_emotions m) s any (fun _ _ => True).
Proof.
  intros Hg. apply gends_or_else; [|done|by intros; apply gends_ret]. eapply gends_bind; [by apply gends_ask|].
  intros [] s1 _ Hg1 _; cbn [negb]; [|by apply gends_ret]. eapply gends_bind; [by apply gends_get|]. intros [r|] s2 _ Hg2 _; [|by apply gends_ret].
  eapply gends_weaken; [by apply gends_ask|done|done].
Qed.

Lemma gends_reappraise s e : good s -> e ∈ es -> reappraises e = true -> gends (reappraise_entry e) s any (fun _ _ => True).
Proof.
  intros Hg He Hr. unfold reappraise_entry. cbv zeta. set (id := jget_none (u "memory_id") e).
  destruct (negb (jtruthy id) || _) eqn:Hid.
  { apply gends_done; [done|done| |done]. apply WhyNoMemory; [done|]. intros c m Hm. fold id in Hm. by rewrite Hm in Hid. }
  eapply gends_bind; [by apply gends_get|]. intros [m|] s1 _ Hg1 Hrow; [|by apply gends_done; [..|apply WhyGone|]].
  eapply (gends_bind _ _ _ _ (fun r s' => match r with Some a => GvReappraise m (Ok a) ∈ cr_trace s' | None => exists x, GvReappraise m (Err x) ∈ cr_trace s' end)).
  { eapply (gends_catch _ _ _ (fun x s' => x = Crash \/ GvReappraise m (Err x) ∈ cr_trace s')).
    - eapply gends_bind; [by apply gends_consult|]. intros a s2 _ Hg2 Ha. by apply gends_ret.
    - intros x s2 _ Hg2 Hx. destruct x; try done; (apply gends_ret; [done|]; destruct Hx as [|Hx]; [done|by eexists]). }
  intros [a|] s2 Hs2 Hg2 Ha; [|destruct Ha as [x Hx]; by apply gends_done; [..|eapply WhyUnjudged; [|by eapply since_elem|]|]].
  eapply gends_bind; [by apply gends_update|]. intros b s3 Hs3 Hg3 Hup.
  assert (why (cr_trace s3) e) as Hw.
  { eapply WhyRated; [done|eapply since_elem; [exact Hs3|by eapply since_elem]|by eapply since_elem|exact Hup|]. destruct b; auto. }
  destruct b; cbn [negb]; [|by apply gends_done].
  eapply gends_bind; [by apply gends_count|]. intros [] s4 Hs4 Hg4 _. eapply gends_bind; [by apply gends_write_back|]. intros [] s5 Hs5 Hg5 _.
  eapply (gends_bind _ _ _ _ (fun _ _ => True)).
  { apply gends_or_else; [|done|by intros; apply gends_ret]. eapply gends_weaken; [by apply gends_ask|done|done]. }
  intros [] s6 Hs6 Hg6 _. eapply gends_bind; [by apply gends_admit|]. intros [] s7 Hs7 Hg7 _. apply gends_done; [done|done| |done].
  eapply since_why; [exact Hs7|]. eapply since_why; [exact Hs6|]. eapply since_why; [exact Hs5|]. by eapply since_why.
Qed.

(** ** Decisions *)
Lemma cleaned_target d c : d_target_id (clean_decision d) = JStr c -> d_target_id d = JStr c.
Proof. cbn. by destruct (d_target_id d) as [| | | |[|]| |]. Qed.

Lemma gends_merge s e c ctx d target : good s -> from_dict e = Ok c -> GvClassify c ctx (Ok d) ∈ cr_trace s -> d_verdict d = u "merge" ->
  GvGet (d_target_id d) (Ok (Some target)) ∈ cr_trace s ->
  gends (merge_into target c (clean_decision d)) s any (fun _ s' => why (cr_trace s') e).
Proof.
  intros Hg Hc Hcl Hv Hget. unfold merge_into. apply gends_gets. cbv zeta. set (rec_ := archive_record target c _).
  eapply gends_bind; [by apply gends_ask|]. intros [] s1 Hs1 Hg1 Harch. apply gends_res; [done|].
  destruct (if jtruthy _ then _ else _) as [merged|]; [|done]. apply gends_res; [done|]. destruct (carry_date_prefix _ _) as [text|]; [|done].
  eapply gends_bind; [by apply gends_ask|]. intros live s2 Hs2 Hg2 _. eapply (gends_bind _ _ _ _ (fun _ _ => True)).
  { destruct live; [|by apply gends_ret]. apply gends_res; [done|]. destruct (merge_emotions _ _); [|done]. by apply gends_ret. }
  intros fields s3 Hs3 Hg3 _. eapply gends_bind; [by apply gends_update|]. intros b s4 Hs4 Hg4 Hup. destruct b; cbn [negb]; [|by eapply gends_put_off].
  assert (why (cr_trace s4) e) as Hw.
  { assert (forall v, v ∈ cr_trace s1 -> v ∈ cr_trace s4) as H14 by (intros v Hv1; eapply since_elem; [exact Hs4|]; eapply since_elem; [exact Hs3|]; by eapply since_elem).
    eapply (WhyMerged _ _ c ctx d target); [done|apply H14; by eapply since_elem|done|apply H14; by eapply since_elem|apply H14; exact Harch|exact Hup]. }
  eapply (gends_bind _ _ _ _ (fun _ _ => True)).
  { destruct live; [|by apply gends_ret]. eapply gends_weaken; [by apply gends_ask|done|done]. }
  intros [] s5 Hs5 Hg5 _. eapply gends_weaken; [by apply (gends_count _ _ any)|done|]. intros [] s6 Hs6 _. eapply since_why; [exact Hs6|]. by eapply since_why.
Qed.

Lemma gends_promote h v s e c ctx d emb : good s -> from_dict e = Ok c -> GvClassify c ctx (Ok d) ∈ cr_trace s ->
  gends (promote h v c (clean_decision d) emb) s any (fun _ s' => why (cr_trace s') e).
Proof.
  intros Hg Hc Hcl. unfold promote. cbv zeta. apply gends_res; [done|]. destruct (if _ && jtruthy _ then _ else _) as [c'|] eqn:Hc'; [|done].
  assert (m_id c' = m_id c /\ m_content c' = m_content c) as [Hid Hct].
  { destruct (_ && _) in Hc'; [|by injection Hc' as <-]. destruct (jget_none (u "metadata") c) in Hc'; try done. injection Hc' as <-. unfold m_id, m_content.
    by rewrite !get_with by done. }
  eapply gends_bind; [by apply gends_ask|]. intros [] s1 Hs1 Hg1 Hcr.
  assert (why (cr_trace s1) e) as Hw by (eapply WhyStored; [done|by eapply since_elem|exact Hcr|done|done]).
  eapply (gends_bind _ _ _ _ (fun _ _ => True)).
  { apply gends_or_else; [|done|by intros; apply gends_ret]. eapply gends_weaken; [by apply gends_ask|done|done]. }
  intros [] s2 Hs2 Hg2 _. eapply (gends_bind _ _ _ _ (fun _ _ => True)).
  { destruct (_ && h); [|by apply gends_ret]. eapply gends_weaken; [by apply gends_ask|done|done]. }
  intros [] s3 Hs3 Hg3 _. eapply gends_weaken; [by apply (gends_count _ _ any)|done|]. intros [] s4 Hs4 _. eapply since_why; [exact Hs4|]. eapply since_why; [exact Hs3|]. by eapply since_why.
Qed.

Lemma gends_dispatch h s e c ctx d emb : good s -> from_dict e = Ok c -> GvClassify c ctx (Ok d) ∈ cr_trace s ->
  gends (dispatch h c (clean_decision d) emb) s any (fun _ s' => why (cr_trace s') e).
Proof.
  intros Hg Hc Hcl. unfold dispatch. cbv zeta. set (v := if existsb _ VERDICTS then _ else _). case_bool_decide as Hdup.
  { eapply gends_weaken; [by apply (gends_count _ _ any)|done|]. intros [] s1 Hs1 _. eapply WhyDuplicate; [done|by eapply since_elem|].
    unfold v in Hdup. cbn [clean_decision d_verdict] in Hdup. by destruct (existsb _ VERDICTS) in Hdup. }
  eapply gends_bind; [by apply gends_admit|]. intros [] s1 Hs1 Hg1 _. pose proof (since_elem _ _ _ Hs1 Hcl) as Hcl1. case_bool_decide as Hm; [|by eapply gends_promote].
  eapply (gends_bind _ _ _ _ (fun r s' => forall row, r = Some row -> GvGet (d_target_id d) (Ok (Some row)) ∈ cr_trace s')).
  { destruct (jtruthy _) eqn:Ht; [|by apply gends_ret]. eapply gends_weaken; [by apply gends_get|done|]. intros r s2 _ Hr row ->.
    cbn [clean_decision d_target_id] in Hr, Ht. destruct (d_target_id d) as [| | | |[|]| |]; try done. }
  intros [target|] s2 Hs2 Hg2 Hrow; [|by eapply gends_put_off]. destruct (jis_str _ _); [by eapply gends_put_off|].
  eapply gends_merge; [done|done|by eapply since_elem| |by apply Hrow]. unfold v in Hm. cbn [clean_decision d_verdict] in Hm. by destruct (existsb _ VERDICTS) in Hm.
Qed.

Lemma gends_decide h s e c : good s -> e ∈ es -> from_dict e = Ok c -> gends (decide_candidate h e c) s any (fun _ _ => True).
Proof.
  intros Hg He Hc. unfold decide_candidate. eapply (gends_bind _ _ _ _ (fun _ _ => True)).
  { apply gends_or_else; [|done|by intros; apply gends_ret]. eapply gends_bind; [by apply gends_ask|]. intros [] s1 _ Hg1 _. by apply gends_ret. }
  intros emb s1 _ Hg1 _. eapply gends_bind; [by apply gends_ask|]. intros ctx s2 _ Hg2 _. eapply (gends_bind _ _ _ _ (fun d s' => GvClassify c ctx (Ok d) ∈ cr_trace s')).
  { unfold ask_classifier. eapply gends_catch; [by apply gends_ask|]. intros x s3 _ Hg3 _. destruct x; try done; by apply gends_raise. }
  intros d s3 _ Hg3 Hcl. eapply gends_bind; [by eapply gends_dispatch|]. intros [] s4 _ Hg4 Hw. by apply gends_done.
Qed.

(** ** The passes *)
Lemma any_same_true n rows : any_same n rows = Ok true -> exists r, r ∈ rows /\ normalize (m_content r) = Ok n.
Proof.
  induction rows as [|r rows IH]; [done|]. cbn [any_same]. destruct (normalize (m_content r)) as [x|] eqn:Hr; [|done]. cbn [mbind res_bind].
  case_bool_decide as Hx; [intros _; subst; exists r; split; [by left|done]|]. intros Hrows. destruct (IH Hrows) as (r' & Hin & Hn). exists r'. split; [by right|done].
Qed.

Lemma gends_existing content n s : good s ->
  gends (has_exact_existing content n) s any
    (fun b s' => b = true -> exists snippet rows r, GvSearch snippet (Ok rows) ∈ cr_trace s' /\ r ∈ rows /\ normalize (m_content r) = Ok n).
Proof.
  intros Hg. unfold has_exact_existing. cbv zeta. set (sn := take 200 (strip content)). destruct sn as [|c l] eqn:Hsn; [by apply gends_ret|]. rewrite <- Hsn. clear Hsn.
  eapply (gends_bind _ _ _ _ (fun r s' => forall rows, r = Some rows -> GvSearch sn (Ok rows) ∈ cr_trace s')).
  - eapply gends_catch; [eapply gends_bind; [by apply gends_ask|]|].
    + intros rows s1 _ Hg1 Hin. apply gends_ret; [done|]. by intros rows' [= <-].
    + intros x s1 _ Hg1 _. destruct (is_ValueError x); [by apply gends_ret|done].
  - intros [rows|] s1 Hs1 Hg1 Hr; [|by apply gends_ret]. unfold gends, of_res. destruct (any_same n rows) as [b|x] eqn:Hb; (split; [by apply since_refl|]); [|done].
    intros ->. destruct (any_same_true n rows Hb) as (r & Hin & Hrn). exists sn, rows, r. split; [by apply Hr|done].
Qed.

Lemma gends_first e c seen s : good s -> e ∈ es -> from_dict e = Ok c ->
  (forall n, n ∈ seen -> exists e' c', [e'; e] `sublist_of` es /\ from_dict e' = Ok c' /\ normalize (m_content c') = Ok n) ->
  gends (first_look floor seen e c) s any (fun r _ => forall n, n ∈ r.2 -> n ∈ seen \/ normalize (m_content c) = Ok n).
Proof.
  intros Hg He Hc Hseen. assert (forall (k : list pystr) s1, good s1 -> why (cr_trace s1) e -> (forall n, n ∈ k -> n ∈ seen \/ normalize (m_content c) = Ok n) -> forall t,
    gends (count_one t;; settle_entry e;; mret (false, k)) s1 any (fun (r : bool * list pystr) _ => forall n, n ∈ r.2 -> n ∈ seen \/ normalize (m_content c) = Ok n)) as Hdrop.
  { intros k s1 Hg1 Hw Hk t. eapply gends_bind; [by apply gends_count|]. intros [] s2 Hs2 Hg2 _. eapply gends_bind; [apply gends_done; [done|done|by eapply since_why|done]|].
    intros [] s3 _ Hg3 _. by apply gends_ret. }
  unfold first_look. apply gends_res; [done|]. destruct (normalize (m_content c)) as [n|] eqn:Hn; [|done].
  destruct (negb (bool_decide (n = [])) && _) eqn:Hrep.
  { apply Hdrop; [done| |by left]. apply andb_true_iff in Hrep as [Hne (n' & Hin & Heq)%existsb_exists]. apply bool_decide_eq_true in Heq as ->.
    apply negb_true_iff, bool_decide_eq_false in Hne. apply list_elem_of_In in Hin. destruct (Hseen n Hin) as (e' & c' & Hsub & Hc' & Hn'). by eapply WhyRepeat. }
  eapply (gends_bind _ _ _ _ (fun b s' => b = true -> n <> [] /\ exists snippet rows r, GvSearch snippet (Ok rows) ∈ cr_trace s' /\ r ∈ rows /\ normalize (m_content r) = Ok n)).
  { destruct n as [|x n]; [by apply gends_ret|]. destruct (m_content c); try (by apply gends_ret). eapply gends_weaken; [by apply gends_existing|done|].
    intros b s1 _ Hb Ht. split; [done|by apply Hb]. }
  intros b s1 _ Hg1 Hb. destruct b.
  { apply Hdrop; [done| |]. 
    - destruct (Hb eq_refl) as (Hne & sn & rows & r & Hs & Hr & Hrn). by eapply WhyKnown.
    - intros n' [->|Hin]%elem_of_cons; [by right|by left]. }
  apply gends_res; [done|]. destruct (below_floor floor c) as [f|] eqn:Hf; [|done]. destruct f.
  { apply Hdrop; [done|by eapply WhyFaint|by left]. }
  apply gends_ret; [done|]. intros n' Hin. cbn in Hin. destruct n as [|x n]; [by left|]. apply elem_of_cons in Hin as [->|Hin]; [by right|by left].
Qed.

Definition parsed (p : json * json) : Prop := p.1 ∈ es /\ from_dict p.1 = Ok p.2.

Lemma gends_pass1 cands : forall pre seen s, good s -> (pre ++ map fst cands) `sublist_of` es -> Forall parsed cands ->
  (forall n, n ∈ seen -> exists e' c', e' ∈ pre /\ from_dict e' = Ok c' /\ normalize (m_content c') = Ok n) ->
  gends (pass1 floor seen cands) s only_crash (fun r _ => Forall parsed r.1).
Proof.
  induction cands as [|[e c] cands IH]; intros pre seen s Hg Hsub Hp Hseen; [apply gends_ret; [done|by constructor]|].
  apply Forall_cons in Hp as [[He Hc] Hp]. cbn in He, Hc. cbn [pass1].
  eapply gends_bind.
  - apply (gends_per_item e (Some c) _ _ _ s (fun r _ => forall n, n ∈ r.2 -> n ∈ seen \/ normalize (m_content c) = Ok n)); [done|done|done| |by left].
    apply gends_first; [done|done|done|]. intros n Hin. destruct (Hseen n Hin) as (e' & c' & He' & Hc' & Hn). exists e', c'. split; [|done].
    etrans; [|exact Hsub]. cbn [map fst]. apply list_elem_of_split in He' as (a & b & ->). rewrite <- (assoc_L (++)).
    apply sublist_inserts_l. cbn. apply sublist_skip, sublist_inserts_l, sublist_skip, sublist_nil_l.
  - intros [[surv seen']|] s1 _ Hg1 Hr; [|apply gends_ret; [done|by constructor]]. specialize (Hr _ eq_refl). cbn in Hr.
    eapply gends_bind; [apply (IH (pre ++ [e]) seen' s1); [done|by rewrite <- (assoc_L (++))|done|]|].
    + intros n Hin. destruct (Hr n Hin) as [Hin'|Hn]; [destruct (Hseen n Hin') as (e' & c' & He' & ?); exists e', c'; split; [apply elem_of_app; by left|done]|].
      exists e, c. split; [apply elem_of_app; right; by left|done].
    + intros [rest ended] s2 _ Hg2 Hrest. apply gends_ret; [done|]. cbn in *. destruct surv; [by constructor|done].
Qed.

Lemma gends_pass2 h survs s : good s -> Forall parsed survs -> gends (pass2 h survs) s only_crash (fun _ _ => True).
Proof.
  intros Hg Hp. revert s Hg. induction Hp as [|[e c] survs [He Hc] _ IH]; intros s Hg; [by apply gends_ret|]. cbn [pass2].
  eapply gends_bind; [apply (gends_per_item e (Some c) _ _ _ s (fun _ _ => True)); [done|done|done|by apply gends_decide|done]|].
  intros [[]|] s1 _ Hg1 _; [by apply IH|by apply gends_ret].
Qed.

Lemma gends_reappraisals l s : good s -> (forall e, e ∈ l -> e ∈ es /\ reappraises e = true) -> gends (handle_reappraisals l) s only_crash (fun _ _ => True).
Proof.
  revert s. induction l as [|e l IH]; intros s Hg Hl; [by apply gends_ret|]. cbn [handle_reappraisals]. destruct (Hl e) as [He Hr]; [by left|].
  eapply gends_bind; [apply (gends_per_item e None _ _ _ s (fun _ _ => True)); [done|done|done|by apply gends_reappraise|done]|].
  intros [[]|] s1 _ Hg1 _; [apply IH; [done|]; intros e' He'; apply Hl; by right|by apply gends_ret].
Qed.

(** An exception of [from_dict] that the parse does not catch. *)
Definition breaks (x : exn) : Prop := exists e, e ∈ es /\ from_dict e = Err x /\ unparseable x = false.

Lemma gends_parse l s : good s -> l `sublist_of` es ->
  gends (parse_candidates l) s (fun x _ => x = Crash \/ breaks x) (fun r _ => map fst r `sublist_of` l /\ Forall parsed r).
Proof.
  revert s. induction l as [|e l IH]; intros s Hg Hl; [apply gends_ret; [done|by split]|]. cbn [parse_candidates].
  assert (e ∈ es) as He by (eapply elem_of_submseteq; [|by apply sublist_submseteq]; by left). assert (l `sublist_of` es) as Hl' by (etrans; [by apply sublist_cons|exact Hl]).
  eapply (gends_bind _ _ _ _ (fun r _ => forall c, r = Some c -> from_dict e = Ok c)).
  - destruct (from_dict e) as [c|x] eqn:Hc; [apply gends_ret; [done|]; by intros c' [= <-]|]. destruct (unparseable x) eqn:Hu.
    + eapply (gends_bind _ _ _ _ (fun _ _ => True)); [apply gends_done; [done|done|by eapply WhyUnparseable|by left]|]. intros [] s1 _ Hg1 _. by apply gends_ret.
    + apply gends_raise; [done|]. right. by exists e.
  - intros r s1 _ Hg1 Hr. eapply gends_bind; [by apply IH|]. intros rest s2 _ Hg2 [Hsub Hp]. apply gends_ret; [done|].
    destruct r as [c|]; [|by split; [apply sublist_cons|]]. cbn. split; [by apply sublist_skip|]. constructor; [|done]. split; [done|]. by apply Hr.
Qed.

(** ** The run *)
Record finished (s s' : gate_run) : Prop := {
  fi_fair : fair s';
  fi_accounted : forall x, accounted s x -> accounted s' x;
  fi_entries : b_entries (cr_batch s') = es;
}.

Definition fends {A} (m : G A) (s : gate_run) : Prop :=
  match m s with (r, s') => finished s s' /\ forall x, r = Err x -> x = Crash \/ x = OSError \/ breaks x end.

Lemma fends_bind {A B} (m : G A) (k : A -> G B) s E R :
  gends m s E R -> (forall x s1, E x s1 -> x = Crash \/ x = OSError \/ breaks x) -> (forall a s1, good s1 -> R a s1 -> fends (k a) s1) -> fends (m ≫= k) s.
Proof.
  unfold gends, fends. rewrite bind_run. destruct (m s) as [[a|x] s1]; intros [Hs HR] HE Hk.
  - specialize (Hk a s1 (si_good _ _ Hs) HR). destruct (k a s1) as [r s2]. destruct Hk as [[F1 F2 F3] Hr]. split; [|done]. split; [done| |done].
    intros x Hx. by apply F2, (si_accounted _ _ Hs).
  - split; [|intros y [= <-]; by eapply HE]. destruct Hs as [[G1 G2 G3] _ Ha]. by split.
Qed.

Lemma replacing_raises set ls q x q' : replacing set ls q = (Err x, q') -> x = OSError \/ x = Crash.
Proof.
  unfold replacing. rewrite bind_run. cbn. destruct (pd_disk (pq_time q)); cbn; [done|intros [= <- <-]; auto|].
  destruct (pd_landed _); cbn; intros [= <- <-]; auto.
Qed.

Lemma close_raises q b x q' : held b q -> close b q = (Err x, q') -> x = OSError \/ x = Crash.
Proof.
  intros Hb. destruct (all_settled_iff q b (he_given b q Hb)) as (d & Hd & _). unfold close. rewrite bind_run. unfold of_res. rewrite Hd.
  destruct d; cbn [negb]; [|done]. rewrite bind_run. destruct (replacing set_processing None q) as [[[]|y] q1] eqn:H1'.
  - apply replacing_raises.
  - intros [= <- <-]. by eapply replacing_raises.
Qed.

Lemma close_fends (n : Z) s : good s -> fends (close_batch;; mret n) s.
Proof.
  intros [[F1 F2 F3] Hh He]. pose proof (close_ends (cr_queue s) (cr_batch s) F1 Hh) as Hc. unfold fends, close_batch. rewrite !bind_run. cbn [gets]. unfold on_pending, zoom.
  unfold ends in Hc. destruct (close (cr_batch s) (cr_queue s)) as [r q] eqn:Hr. assert (kept (cr_queue s) q) as [Hok Hw] by (destruct r; apply Hc).
  assert (forall s', cr_queue s' = q -> cr_batch s' = cr_batch s -> cr_trace s' = cr_trace s -> finished s s') as Hfin.
  { intros s' Hq Hb Ht. assert (forall x, accounted s x -> accounted s' x) as Ha by (intros x; unfold accounted; rewrite Hq, Ht; intros [|]; auto).
    split; [split| |]; rewrite ?Hq, ?Hb, ?Ht; try done. intros w Hin. destruct (F3 w Hin) as (x & Hx & Hacc). eauto. }
  destruct r as [[]|x]; cbn; (split; [by apply Hfin|]); [done|]. intros y [= <-]. destruct (close_raises _ _ _ _ Hh Hr); auto.
Qed.

Lemma reappraise_item_iff e : is_reappraise_item e = true -> reappraises e = true.
Proof. unfold is_reappraise_item, reappraises. intros Hr. by apply andb_true_iff in Hr as [_ ?]. Qed.

Lemma filter_sub {A} (f : A -> bool) l : List.filter f l `sublist_of` l.
Proof. induction l as [|a l IH]; [done|]. cbn. destruct (f a); [by apply sublist_skip|by apply sublist_cons]. Qed.
End facts.

Section runs.
Context `{PyLib, PendingDisk, GateWorld}.
Hypothesis uuid_inj : forall t t', uuid4_hex t = uuid4_hex t' -> t = t'.
Hypothesis uuid_text : forall t, uuid4_hex t <> [].
Hypothesis arrivals_ok : forall t a, a ∈ arrivals t -> candidate a.1.
Hypothesis from_dict_ok : forall e m, from_dict e = Ok m -> candidate m.

Lemma work_through_fends h floor es s : good es floor s -> fends es floor (work_through h floor es) s.
Proof.
  intros Hg. unfold work_through. cbv zeta. set (cs := List.filter (fun e => negb _) es). set (n := Z.of_nat _).
  eapply fends_bind; [eapply gends_reappraisals; try done| |].
  { intros e He. apply list_elem_of_In, filter_In in He as [He Hr]. split; [by apply list_elem_of_In|by apply reappraise_item_iff]. }
  { intros x s1 ->. by left. }
  intros ended s1 Hg1 _. destruct ended; [by apply close_fends|]. destruct cs as [|e l] eqn:Hcs; [by apply close_fends|]. rewrite <- Hcs in *.
  eapply fends_bind; [eapply gends_parse; try done; apply filter_sub|intros x s2 [->|Hb]; auto|]. intros cands s2 Hg2 [Hsub Hp].
  eapply fends_bind; [eapply (gends_pass1 _ _ uuid_text arrivals_ok from_dict_ok cands []); [done|cbn; etrans; [exact Hsub|apply filter_sub]|done|]| |].
  { intros m Hm. by apply not_elem_of_nil in Hm. }
  { intros x s3 ->. by left. }
  intros [survs ended] s3 Hg3 Hsurv. cbn in Hsurv. eapply (fends_bind _ _ _ _ _ only_crash (fun _ _ => True)); [|intros x s4 ->; by left|intros [] s4 Hg4 _; by apply close_fends].
  destruct ended; [by apply gends_ret|]. eapply gends_pass2; done.
Qed.

Definition start (q : pending) : gate_run := {| cr_queue := q; cr_batch := {| b_entries := []; b_settled := [] |}; cr_result _ := 0%Z; cr_trace := [] |}.

(** Everything about a run. *)
Lemma run_locked_ends h floor q : ok q ->
  match run_locked h floor (start q) with
  | (r, s') =>
      fair (b_entries (cr_batch s')) floor s' /\ (forall x, waits q x -> accounted s' x) /\
      forall x, r = Err x -> (claim q).1 = Err x \/ x = Crash \/ x = OSError \/ breaks (b_entries (cr_batch s')) x
  end.
Proof.
  intros Hok. unfold run_locked. rewrite bind_run. unfold on_pending at 1, zoom. cbn [start cr_queue]. pose proof (claim_ends uuid_inj q Hok) as Hc. unfold ends in Hc.
  destruct (claim q) as [[b|x] q1] eqn:Hclaim; cbn [start cr_batch cr_result cr_trace].
  - destruct Hc as [Ht _]. rewrite bind_run. cbn [start hold_batch modify cr_queue cr_batch cr_result cr_trace]. set (s := {| cr_queue := q1; cr_batch := b; cr_result := fun _ => 0%Z; cr_trace := [] |}).
    assert (good (b_entries b) floor s) as Hg.
    { split; [split|..]; [apply Ht|constructor|intros w Hw; by apply not_elem_of_nil in Hw|apply Ht|done]. }
    pose proof (work_through_fends h floor (b_entries b) s Hg) as Hf. unfold fends in Hf. destruct (work_through h floor (b_entries b) s) as [r s'].
    destruct Hf as [[F1 F2 F3] Hr]. cbv beta iota. rewrite F3. split; [done|]. split; [|intros x Hx; right; by apply Hr]. intros x Hx. apply F2. left. by eapply taken_waits.
  - destruct Hc as [_ [Hok' Hw]]. split; [split; [done|constructor|intros w Hin; by apply not_elem_of_nil in Hin]|]. split; [intros y Hy; left; by apply Hw|].
    intros y [= <-]. by left.
Qed.
End runs.

(** ** Properties *)



(** ** Concrete runs *)

(** A store whose [create] meets a locked database, once in a while. *)
Definition busy_store (locked : bool) : GateWorld := {|
  from_dict e := if is_obj e && negb (reappraises e) then Ok e else Err TypeError;
  search_store _ _ := Ok []; embed _ _ := Err ProviderError; related_existing _ _ _ := Ok [];
  classify _ _ _ := Ok {| d_verdict := u "new"; d_target_id := JNull; d_merged_content := JNull; d_names := JNull |};
  admit_names _ _ := Ok tt; get_row _ _ := Ok None; append_archive _ _ := Ok tt; is_live _ := Ok false; update_row _ _ _ := Ok tt;
  on_memory_committed _ _ := Ok tt; create_row _ _ := if locked then Err OperationalError else Ok tt; write_vector _ _ _ := Ok tt; set_edge_weight _ _ _ := Ok tt;
  reappraiser _ _ := Err ThrottleDeferred; refresh_faded _ _ := Ok tt; remove_not_names _ _ _ := Ok tt; append_quarantine _ _ := Ok tt; gate_clock _ := 0%Z;
  error_text _ := []; resolve_emotions _ := Ok []; carry_date_prefix _ v := Ok v; arrivals _ := [] |}.

Lemma busy_from_dict locked e m : @from_dict (busy_store locked) e = Ok m -> candidate m.
Proof. cbn. destruct (is_obj e) eqn:Ho, (reappraises e) eqn:Hr; try done. intros [= <-]. by split. Qed.

Definition the_dream : json + pystr := item (queue_entry a_dream (JStr (u "dream")) (isoformat 0)).
Definition one_dream : list op := [OpEnqueue a_dream (JStr (u "dream"))].

(** The database is locked: the candidate is queued again. *)
Definition locked_run : gate_run := (@run_locked ascii_pylib (dies_at 40) (busy_store true) false None (start (g_files (@run (dies_at 40) one_dream no_files)))).2.


(** The disk refuses the claim's lock. *)
Definition refused : PendingDisk := {| pd_disk t := if (t =? 2)%nat then Fails else Works; pd_cut _ := 0%nat; pd_landed _ := false; pd_clock _ := 0%Z; uuid4_hex t := repeat 97%N (S t) |}.

