(* ===== verification/Tick.v ===== *)
(** [brain/kindled_link/tick.py] (with [cadence.py]): one supervised tick of the
    peer link: cadence gate, inbound poll, rotation notices, recovery and the
    per-peer outbound loop, which is fault-isolated. *)
From S2P Require Import Prelude PyFloat PyTime Json Crypto Protocol PyVal LinkStore World Session.
From S2P Require Import Transport Gate Relationship SessionEngine.

Inductive tick_result :=
| Skipped
| Ticked (peers_processed : nat) (inbound : summary) (recovered : bool) (tick_degraded : list pystr).

Definition RECOVERED_FLAG : pystr := u "kindled_link/recovered.flag".

Section tick.
Context `{PyLib, Crypto, Sqlite, Env, Prompts, GateI}.

(** ** Rotation notices *)

(** [datetime.strptime(env.get("expires_at", ""), ...)]: an envelope that is not
    a dict raises [AttributeError], which the drain does not catch. *)
Definition notice_expiry (env : json) : res (option Z) :=
  e ← get_or (u "expires_at") (JStr []) env;
  mret (match e with JStr s => strptime_z s | _ => None end).

Definition drain_notice (now : Z) (row : pystr * notice_row) : W unit :=
  let peer_id := row.1 in
  match loads (envelope_json row.2) with
  | None => on_db (clear_rotation_notice peer_id)
  | Some env =>
      exp ← of_res (notice_expiry env);
      match exp with
      | None => on_db (clear_rotation_notice peer_id)
      | Some exp =>
          if (exp <? now)%Z then
            on_db (clear_rotation_notice peer_id);;
            log_transport (u "rotation_notice_expired") now (for_peer (JStr peer_id))
          else
            catch
              (push env;;
               on_db (clear_rotation_notice peer_id);;
               log_transport (u "rotation_notice_sent") now (for_peer (JStr peer_id)))
              (fun e => match is_relay_error e with
                | Some msg => Some (log_transport (u "rotation_notice_queued") now
                                      (and_error msg (for_peer (JStr peer_id))))
                | None => if is_Exception e then Some (mret tt) else None
                end)
      end
  end.

Definition drain_pending_rotation_notices (now : Z) : W unit :=
  notices ← on_db pop_pending_rotation_notices;
  for_each notices (drain_notice now).

(** ** One peer *)

(** [_make_send_fn]: the result of [send_message] is dropped. *)
Definition make_send_fn (identity : KindledIdentity) (now : Z) (peer_id session_id : pystr)
    (payload : OutboundPayload) : W unit :=
  send_message identity peer_id session_id (JObj [(u "text", body payload)]) now MESSAGE_TTL;;
  mret tt.

Definition already_sent (peer_id session_id : pystr) : W bool :=
  on_db (gets (fun d => existsb (fun r => bool_decide (d_peer r = peer_id)
    && bool_decide (d_session r = session_id) && bool_decide (d_status r = u "send"))
    (outbound_drafts d))).

Definition should_open_first_content (peer_id session_id : pystr) : W bool :=
  sk ← on_db (get_session_key (Some (peer_id, session_id)));
  match sk with
  | Some sk => if (my_role sk =? ROLE_INITIATOR)%Z
               then s ← already_sent peer_id session_id; mret (negb s) else mret false
  | None => mret false
  end.

(** Generate, persist as pending, gate and maybe send, record the outcome. *)
Definition draft_and_send (identity : KindledIdentity) (peer_id session_id transcript_summary reason_ : pystr)
    (now : Z) (today : pystr) : W unit :=
  rel_row ← on_db (get_relationship_row peer_id);
  draft ← generate_draft peer_id [] [] (match rel_row with Some r => r_stage r | None => u "stranger" end)
            transcript_summary today;
  match draft with
  | None => mret tt
  | Some draft =>
      draft_id ← on_db (save_draft peer_id session_id (dumps_default (JObj [(u "body", JStr draft)])) now);
      act ← process_outbound peer_id session_id {| body := JStr draft; relationship_hint := JNull |}
              reason_ now today (make_send_fn identity now peer_id session_id) transcript_summary;
      on_db (set_draft_status draft_id (action_name act))
  end.

(** [" | ".join(row["text"] for row in reversed(rows))]. *)
Definition join_transcript (rows : list transcript_row) : pystr :=
  py_join (u " | ") (map t_text (rev rows)).

Definition reflect_peer (peer_id : pystr) (now : Z) (today : pystr) (mem_store : bool) : W unit :=
  try_except
    (rows ← on_db (recent_transcript peer_id 10);
     hold_count ← try_except (on_db (count_holds_for_peer peer_id)) (mret 0%Z);
     run_relationship_reflection peer_id (join_transcript rows) now today (Some hold_count) mem_store;;
     save_reflection_cadence now)
    (mret tt).

Definition tick_peer (identity : KindledIdentity) (peer_id : pystr) (now : Z) (today : pystr)
    (mem_store : bool) : W unit :=
  active ← on_db (get_active_session peer_id);
  match active with
  | Some (session_id, _) =>
      rows ← on_db (recent_transcript peer_id 10);
      if existsb (fun r => bool_decide (direction r = u "inbound")) rows then
        draft_and_send identity peer_id session_id (join_transcript rows) (u "peer-response") now today
      else
        op ← should_open_first_content peer_id session_id;
        if (op : bool) then draft_and_send identity peer_id session_id [] (u "autonomous-open") now today
        else mret tt
  | None =>
      start ← can_start_session peer_id now;
      (if (start : bool) then
         try_except (leg1 ← open_session identity peer_id now SESSION_OPEN_TTL; push leg1) (mret tt)
       else mret tt);;
      due ← reflection_is_due now;
      if (due : bool) then reflect_peer peer_id now today mem_store else mret tt
  end.

(** ** The tick *)
Definition peer_loop (identity : KindledIdentity) (now : Z) (today : pystr) (mem_store : bool)
    (acc : nat * list pystr) (peer : pystr * peer_row) : W (nat * list pystr) :=
  let '(processed, degraded_) := acc in
  let peer_id := peer.1 in
  if mem (consent_state peer.2) INBOUND_BLOCKED_CONSENT then mret acc else
  try_except
    (tick_peer identity peer_id now today mem_store;; mret (S processed, degraded_))
    (mret (processed, degraded_ ++ [peer_id])).

Definition outbound_pass (identity : KindledIdentity) (now : Z) (today : pystr) (mem_store : bool)
    : W (bool * (nat * list pystr)) :=
  recovered_actions ← recover now today (fun p s => make_send_fn identity now p s);
  peers_ ← on_db list_paired_peers;
  r ← fold_each peers_ (0%nat, []) (peer_loop identity now today mem_store);
  mret (existsb (fun a => bool_decide (is_Some a)) recovered_actions, r).

Definition write_recovered_flag (now : Z) : W unit :=
  try_except
    (ask (EvWrite RECOVERED_FLAG (isoformat now)) (fun t => write_file t RECOVERED_FLAG (isoformat now)))
    (mret tt).

Definition run_kindled_link_tick (identity : KindledIdentity) (c : RelayClient)
    (kindled_link_enabled mem_store : bool) (now : Z) : W tick_result :=
  due ← tick_is_due now;
  if negb due then mret Skipped else
  let today := date_str now in
  inbound ← poll_and_ingest identity c now;
  try_except (drain_pending_rotation_notices now) (mret tt);;
  r ← (if kindled_link_enabled then outbound_pass identity now today mem_store
       else mret (false, (0%nat, [])));
  let '(any_recovered, (peers_processed, degraded_)) := r in
  (if (any_recovered : bool) then write_recovered_flag now else mret tt);;
  save_tick_cadence now;;
  mret (Ticked peers_processed inbound any_recovered degraded_).

(** ** The supervisor's call ([brain/bridge/supervisor.py]); [mem_store] is
    whether the memory store opened *)
Definition supervised_tick (relay_url_set kindled_link_enabled mem_store : bool) (now : Z) : W unit :=
  if negb relay_url_set then mret tt else
  idn ← load_or_create;
  mailbox ← get_or_create_local_mailbox;
  let c := {| rc_identity := idn; rc_mailbox := mailbox |} in
  registered_ ← try_except (register c;; mret true) (mret false);
  if negb registered_ then mret tt else
  run_kindled_link_tick idn c kindled_link_enabled mem_store now;;
  mret tt.

(** [_maybe_run_kindled_link_tick]. *)
Definition maybe_run_tick (relay_url_set kindled_link_enabled mem_store : bool) (now : Z) : W unit :=
  try_except (supervised_tick relay_url_set kindled_link_enabled mem_store now) (mret tt).
End tick.

(** ** Lemmas *)

(** *** Caps through every step of the tick *)
Definition wcaps : world -> world -> Prop := on_dbs caps.

#[export] Instance wcaps_preorder : PreOrder wcaps.
Proof. unfold wcaps. typeclasses eauto. Qed.

Lemma wcaps_on_db {A} (m : M db A) : pres caps m -> pres wcaps (on_db m).
Proof. apply pres_on_db. Qed.

Lemma wcaps_same {A} (m : W A) : pres db_same m -> pres wcaps m.
Proof. apply db_same_lift. typeclasses eauto. Qed.

(** A database step that leaves the counters alone, or is one of the capped
    ones. *)
Ltac caps_db :=
  apply wcaps_on_db;
  solve [ apply caps_reserve_provider | apply caps_reserve_outbound | apply caps_release
        | apply caps_update_peer_identity
        | repeat first [ apply caps_ensure | pres_step | apply caps_frame; intros ?; repeat case_match; reflexivity ] ].

Ltac caps_auto :=
  repeat first
    [ progress simplify_eq
    | solve [ eauto 2 with caps ]
    | solve [ apply wcaps_same; eauto 2 with world ]
    | apply pres_try_except; [typeclasses eauto| |]
    | apply pres_except_relay; [typeclasses eauto| |intros ?]
    | lazymatch goal with |- pres _ (on_db ?m) =>
        let m' := eval unfold get_peer, get_session_key, get_pending_handshake, upsert_peer, save_session_key,
          create_session, clear_pending_handshake, save_pending_handshake, get_seq_high_water, set_seq_high_water,
          append_transcript, next_outbound_sequence, get_session, get_counters, get_stage, get_relationship_row,
          bump_session_outbound, debit_disclosure_budget, get_disclosure_budget, end_session,
          get_relationship_state, save_draft, set_draft_status, get_pending_drafts, get_active_session,
          latest_cooldown_until, recent_transcript, count_holds_for_peer, list_paired_peers,
          pop_pending_rotation_notices, clear_rotation_notice, persist_relationship_state, upsert_relationship_row,
          add_peer_emotion, get_peer_emotion_accumulated, bind_real in m in
        change m with m'; caps_db end
    | pres_step ].

Create HintDb caps discriminated.

Section tick_caps.
Context `{PyLib, Crypto, Sqlite, Env, Prompts}.

Lemma wcaps_bind v : pres wcaps (bind v).
Proof. apply wcaps_same. intros w. reflexivity. Qed.

Lemma wcaps_bind2 v s : pres wcaps (bind2 v s).
Proof. apply wcaps_same, same_bind2. Qed.

Lemma wcaps_get_peer_v v : pres wcaps (get_peer_v v).
Proof. apply wcaps_same, same_get_peer_v. Qed.

Lemma wcaps_get_known_peer v : pres wcaps (get_known_peer v).
Proof. apply wcaps_same, get_known_peer_same. Qed.

#[local] Hint Resolve wcaps_bind wcaps_bind2 wcaps_get_peer_v wcaps_get_known_peer : caps.

Lemma wcaps_local_mailbox : pres wcaps get_or_create_local_mailbox.
Proof. unfold get_or_create_local_mailbox. caps_auto. Qed.
#[local] Hint Resolve wcaps_local_mailbox : caps.

Lemma wcaps_open_session idn p now ttl : pres wcaps (open_session idn p now ttl).
Proof. unfold open_session. caps_auto. Qed.

Lemma wcaps_on_session_open idn env now ttl : pres wcaps (on_session_open idn env now ttl).
Proof. unfold on_session_open. caps_auto. Qed.

Lemma wcaps_complete_session idn env now : pres wcaps (complete_session idn env now).
Proof. unfold complete_session. caps_auto. Qed.

Lemma wcaps_rotation env sender now : pres wcaps (handle_key_rotation_notice env sender now).
Proof. unfold handle_key_rotation_notice. caps_auto. Qed.
#[local] Hint Resolve wcaps_open_session wcaps_on_session_open wcaps_complete_session wcaps_rotation : caps.

Lemma wcaps_process_open idn sender session env now : pres wcaps (process_open idn sender session env now).
Proof. unfold process_open. caps_auto. Qed.

Lemma wcaps_process_message idn sender session env now : pres wcaps (process_message idn sender session env now).
Proof. unfold process_message. caps_auto. Qed.
#[local] Hint Resolve wcaps_process_open wcaps_process_message : caps.

Lemma wcaps_process_item idn sender now it : pres wcaps (process_item idn sender now it).
Proof. unfold process_item. caps_auto. Qed.
#[local] Hint Resolve wcaps_process_item : caps.

Lemma wcaps_poll idn c now : pres wcaps (poll_and_ingest idn c now).
Proof. unfold poll_and_ingest, group_items, process_group. caps_auto. Qed.

Lemma wcaps_drain now : pres wcaps (drain_pending_rotation_notices now).
Proof.
  unfold drain_pending_rotation_notices, drain_notice. caps_auto.
  all: match goal with E : match is_relay_error ?e with _ => _ end = Some _ |- _ =>
         destruct (is_relay_error e); [|destruct (is_Exception e)] end; caps_auto.
Qed.

Lemma wcaps_send_message idn p s payload now ttl : pres wcaps (send_message idn p s payload now ttl).
Proof. unfold send_message. caps_auto. Qed.

Lemma wcaps_send_fn idn now p s payload : pres wcaps (make_send_fn idn now p s payload).
Proof. unfold make_send_fn. apply pres_bind; [typeclasses eauto|apply wcaps_send_message|intros; pres_auto]. Qed.
#[local] Hint Resolve wcaps_poll wcaps_drain wcaps_send_message wcaps_send_fn : caps.

Lemma wcaps_review payload p st summary rs now today : pres wcaps (review payload p st summary rs now today).
Proof.
  unfold review, ask_gate, parse_verdict. caps_auto.
Qed.
#[local] Hint Resolve wcaps_review : caps.
#[local] Existing Instance privacy_gate.

Lemma wcaps_gate payload p st summary rs now today : pres wcaps (gate_review payload p st summary rs now today).
Proof. apply wcaps_review. Qed.
#[local] Hint Resolve wcaps_gate : caps.

Lemma wcaps_act_terminal d p s payload now today f :
  (forall pl, pres wcaps (f pl)) -> pres wcaps (act_terminal d p s payload now today f).
Proof. intros Hf. unfold act_terminal. caps_auto. Qed.

Lemma wcaps_regenerate payload c p today : pres wcaps (regenerate payload c p today).
Proof. unfold regenerate. caps_auto. Qed.
#[local] Hint Resolve wcaps_regenerate : caps.

Lemma wcaps_process_outbound p s payload rs now today f summary :
  (forall pl, pres wcaps (f pl)) -> pres wcaps (process_outbound p s payload rs now today f summary).
Proof.
  intros Hf. unfold process_outbound, guarded_review, act_on_decision, send_allowed, can_send_now,
    under_session_cap, under_daily_caps, check_day.
  caps_auto; by apply wcaps_act_terminal.
Qed.

Lemma wcaps_reflection p transcript now today hc ms :
  pres wcaps (run_relationship_reflection p transcript now today hc ms).
Proof.
  unfold run_relationship_reflection, ask_reflection, reflect_on, ground_evidence, log_rejection, write_back,
    write_kindled_peer_memory, apply_peer_emotion. caps_auto.
Qed.
#[local] Hint Resolve wcaps_reflection : caps.

Lemma wcaps_generate p a b st summary today : pres wcaps (generate_draft p a b st summary today).
Proof. unfold generate_draft. caps_auto. Qed.

Lemma wcaps_can_start p now : pres wcaps (can_start_session p now).
Proof. unfold can_start_session. caps_auto. Qed.
#[local] Hint Resolve wcaps_generate wcaps_can_start : caps.

Lemma wcaps_draft_and_send idn p s summary rs now today : pres wcaps (draft_and_send idn p s summary rs now today).
Proof.
  unfold draft_and_send. caps_auto. apply wcaps_process_outbound. intros. apply wcaps_send_fn.
Qed.
#[local] Hint Resolve wcaps_draft_and_send : caps.

Lemma wcaps_tick_peer idn p now today ms : pres wcaps (tick_peer idn p now today ms).
Proof.
  unfold tick_peer, should_open_first_content, already_sent, reflect_peer, reflection_is_due,
    load_reflection_cadence, save_reflection_cadence. caps_auto.
Qed.
#[local] Hint Resolve wcaps_tick_peer : caps.

Lemma wcaps_outbound_pass idn now today ms : pres wcaps (outbound_pass idn now today ms).
Proof.
  unfold outbound_pass, recover, recover_one, send_allowed, can_send_now, under_session_cap, under_daily_caps,
    peer_loop. caps_auto; try (apply wcaps_process_outbound; intros; apply wcaps_send_fn).
Qed.
#[local] Hint Resolve wcaps_outbound_pass : caps.

Lemma wcaps_tick idn c enabled ms now : pres wcaps (run_kindled_link_tick idn c enabled ms now).
Proof.
  unfold run_kindled_link_tick, tick_is_due, load_tick_cadence, save_tick_cadence, write_recovered_flag. caps_auto.
Qed.
End tick_caps.

(** *** What the inbound half may do to the outside *)

(** Only events of this kind are added. *)
Definition adds (P : event -> Prop) (w w' : world) : Prop :=
  exists evs, w_trace w' = evs ++ w_trace w /\ Forall P evs.

#[export] Instance adds_preorder P : PreOrder (adds P).
Proof.
  split; [intros w; by exists []|]. intros a b c (e1 & E1 & F1) (e2 & E2 & F2).
  exists (e2 ++ e1). split; [by rewrite E2, E1, app_assoc|by apply Forall_app].
Qed.

(** No model call, and not even a throttle slot for one. *)
Definition no_model (e : event) : Prop :=
  match e with EvComplete _ | EvSlot => False | _ => True end.
Definition silent : world -> world -> Prop := adds no_model.

#[export] Instance silent_preorder : PreOrder silent := adds_preorder no_model.

Lemma silent_on_db {A} (m : M db A) : pres silent (on_db m).
Proof. intros w. rewrite on_db_run. by exists []. Qed.

Lemma silent_emit e : no_model e -> pres silent (emit e).
Proof. intros He w. exists [e]. split; [done|by constructor]. Qed.

Lemma silent_ask {A} e (f : trace -> res A) : no_model e -> pres silent (ask e f).
Proof. intros He w. exists [e]. split; [done|by constructor]. Qed.

Lemma silent_gets {A} (f : world -> A) : pres silent (gets f).
Proof. apply pres_gets. typeclasses eauto. Qed.

Lemma silent_modify_files f : pres silent (modify (fun w => upd_files (f w) w)).
Proof. intros w. by exists []. Qed.

Create HintDb silent discriminated.
#[export] Hint Resolve silent_on_db : silent.
#[export] Hint Extern 1 (pres silent (emit _)) => apply silent_emit; exact I : silent.
#[export] Hint Extern 1 (pres silent (ask _ _)) => apply silent_ask; exact I : silent.
#[export] Hint Extern 1 (pres silent (log_transport _ _ _)) => apply silent_emit; exact I : silent.
#[export] Hint Extern 1 (pres silent (token_bytes _)) => apply silent_ask; exact I : silent.
#[export] Hint Extern 1 (pres silent (bind _)) => (intros ?; exists []; done) : silent.

Ltac silent_auto :=
  repeat first
    [ progress simplify_eq
    | solve [ eauto 2 with silent ]
    | apply pres_try_except; [typeclasses eauto| |]
    | apply pres_except_relay; [typeclasses eauto| |intros ?]
    | pres_step ].

Section tick_silent.
Context `{PyLib, Crypto, Sqlite, Env, Prompts, GateI}.

Lemma silent_post_loop n k exc path payload : pres silent (post_loop n k exc path payload).
Proof.
  intros w. pose proof (post_loop_shape n k exc path payload w) as Hs.
  destruct (post_loop n k exc path payload w) as [out w']. destruct Hs as [[_ (evs & E & Hall & _)] _].
  exists evs. split; [done|]. eapply Forall_impl; [exact Hall|]. by intros [].
Qed.

Lemma silent_post path payload : pres silent (post path payload).
Proof. apply silent_post_loop. Qed.
#[local] Hint Resolve silent_post : silent.

Lemma silent_push env : pres silent (push env).
Proof. unfold push. silent_auto. Qed.

Lemma silent_auth c : pres silent (auth c).
Proof. unfold auth, field_. silent_auto. Qed.
#[local] Hint Resolve silent_push silent_auth : silent.

Lemma silent_fetch c : pres silent (fetch c).
Proof. unfold fetch, field_. silent_auto. Qed.

Lemma silent_ack c ids : pres silent (ack c ids).
Proof. unfold ack. silent_auto. Qed.

Lemma silent_local_mailbox : pres silent get_or_create_local_mailbox.
Proof. unfold get_or_create_local_mailbox, token_hex. silent_auto. Qed.
#[local] Hint Resolve silent_fetch silent_ack silent_local_mailbox : silent.

Lemma silent_on_session_open idn env now ttl : pres silent (on_session_open idn env now ttl).
Proof. unfold on_session_open, get_known_peer, get_peer_v, bind2. silent_auto. Qed.

Lemma silent_complete_session idn env now : pres silent (complete_session idn env now).
Proof. unfold complete_session, get_known_peer, get_peer_v, bind2. silent_auto. Qed.

Lemma silent_process_message idn sender session env now :
  pres silent (process_message idn sender session env now).
Proof. unfold process_message, get_peer_v, bind2. silent_auto. Qed.
#[local] Hint Resolve silent_on_session_open silent_complete_session silent_process_message : silent.

Lemma silent_process_item idn sender now it : pres silent (process_item idn sender now it).
Proof. unfold process_item, process_open, handle_key_rotation_notice, get_peer_v, bind2. silent_auto. Qed.
#[local] Hint Resolve silent_process_item : silent.

Lemma silent_poll idn c now : pres silent (poll_and_ingest idn c now).
Proof. unfold poll_and_ingest, group_items, process_group, get_peer_v. silent_auto. Qed.

Lemma silent_drain now : pres silent (drain_pending_rotation_notices now).
Proof.
  unfold drain_pending_rotation_notices, drain_notice. silent_auto.
  all: match goal with E : match is_relay_error ?e with _ => _ end = Some _ |- _ =>
         destruct (is_relay_error e); [|destruct (is_Exception e)] end; silent_auto.
Qed.
#[local] Hint Resolve silent_poll silent_drain : silent.

(** With the feature disabled only the inbound half and the cadence run. *)
Lemma silent_disabled_tick idn c ms now : pres silent (run_kindled_link_tick idn c false ms now).
Proof.
  unfold run_kindled_link_tick, tick_is_due, load_tick_cadence, read_json_dict, save_tick_cadence,
    write_json, write_recovered_flag. silent_auto; apply silent_modify_files.
Qed.

(** *** The per-peer loop *)
Lemma peer_loop_run idn now today ms acc peer w out w' :
  peer_loop idn now today ms acc peer w = (out, w') ->
  match out with
  | Ok acc' =>
      if mem (consent_state peer.2) INBOUND_BLOCKED_CONSENT then acc' = acc /\ w' = w
      else acc' = (S acc.1, acc.2) \/ acc' = (acc.1, acc.2 ++ [peer.1])
  | Err e => is_Exception e = false
  end.
Proof.
  unfold peer_loop. destruct acc as [n deg]. destruct (mem _ _); [by intros [= <- <-]|].
  unfold try_except, catch. rewrite bind_run.
  destruct (tick_peer idn peer.1 now today ms w) as [[[]|e] w1].
  - intros [= <- <-]. by left.
  - destruct (is_Exception e) eqn:E; intros [= <- <-]; [by right|done].
Qed.

Lemma tick_is_due_reads now w : exists b, tick_is_due now w = (Ok b, w).
Proof. eexists. reflexivity. Qed.

Definition ready (peer : pystr * peer_row) : bool := negb (mem (consent_state peer.2) INBOUND_BLOCKED_CONSENT).

Lemma peers_loop_run idn now today ms peers_ acc w out w' :
  fold_each peers_ acc (peer_loop idn now today ms) w = (out, w') ->
  match out with
  | Ok acc' => (acc'.1 + length acc'.2 = acc.1 + length acc.2 + length (List.filter ready peers_))%nat /\
      exists deg, acc'.2 = acc.2 ++ deg /\ deg ⊆ map fst (List.filter ready peers_)
  | Err e => is_Exception e = false
  end.
Proof.
  revert acc w. induction peers_ as [|peer peers_ IH]; intros acc w; cbn [fold_each].
  - intros [= <- <-]. split; [simpl; lia|]. exists []. split; [by rewrite app_nil_r|set_solver].
  - rewrite bind_run. destruct (peer_loop idn now today ms acc peer w) as [[acc1|e] w1] eqn:E;
      apply peer_loop_run in E; [|by intros [= <- <-]].
    intros E2. specialize (IH acc1 w1 E2). destruct out as [acc'|e]; [|done].
    destruct IH as (Hn & deg & Hd & Hs). cbn [List.filter].
    change (ready peer) with (negb (mem (consent_state peer.2) INBOUND_BLOCKED_CONSENT)).
    destruct (mem (consent_state peer.2) INBOUND_BLOCKED_CONSENT); cbn [negb].
    + destruct E as [-> _]. split; [done|]. exists deg. by split.
    + destruct E as [-> | ->]; cbn [fst snd length map] in *.
      * split; [lia|]. exists deg. split; [done|set_solver].
      * rewrite length_app in Hn. cbn in Hn. split; [lia|]. exists (peer.1 :: deg).
        split; [by rewrite Hd, <- app_assoc|set_solver].
Qed.
End tick_silent.

(** ** Properties *)
Section tick_properties.
Context `{PyLib, Crypto, Sqlite, Env, Prompts}.

(** C26: The daily caps are an invariant of the whole tick behind the privacy gate:
    whatever the relay, the model and the stored rows are, and wherever the tick
    stops, no peer's counters for a day exceed 20 sends or 60 model calls. *)
Theorem daily_caps_hold (idn : KindledIdentity) (c : RelayClient) (enabled ms : bool) (now : Z) (w : world) :
  caps_ok (w_db w) ->
  caps_ok (w_db (run_kindled_link_tick (H4 := privacy_gate) idn c enabled ms now w).2).
Proof. apply wcaps_tick. Qed.

(** With the feature disabled a tick still receives, but asks the model
    nothing: no model call is made and no background slot is even requested. *)
Theorem disabled_tick_no_model `{GateI} (idn : KindledIdentity) (c : RelayClient) (ms : bool) (now : Z) (w : world) :
  exists evs, w_trace (run_kindled_link_tick idn c false ms now w).2 = evs ++ w_trace w /\ Forall no_model evs.
Proof. apply silent_disabled_tick. Qed.

(** Before its cadence is due a tick does nothing at all. *)
Theorem tick_not_due `{GateI} (idn : KindledIdentity) (c : RelayClient) (enabled ms : bool) (now : Z) (w : world) :
  (tick_is_due now w).1 = Ok false -> run_kindled_link_tick idn c enabled ms now w = (Ok Skipped, w).
Proof.
  intros Hd. destruct (tick_is_due_reads now w) as [b E]. rewrite E in Hd. cbn [fst] in Hd.
  injection Hd as ->. unfold run_kindled_link_tick. by rewrite bind_run, E.
Qed.

(** Peers are isolated from each other: the outbound loop over the paired peers
    fails only when the process dies; otherwise each peer that may be contacted is
    counted exactly once, as processed or as degraded. *)
Theorem peers_isolated `{GateI} (idn : KindledIdentity) (now : Z) (today : pystr) (ms : bool)
    (peers_ : list (pystr * peer_row)) (w : world) :
  match (fold_each peers_ (0%nat, []) (peer_loop idn now today ms) w).1 with
  | Ok (processed, degraded_) =>
      (processed + length degraded_ = length (List.filter ready peers_))%nat /\
      degraded_ ⊆ map fst (List.filter ready peers_)
  | Err e => is_Exception e = false
  end.
Proof.
  destruct (fold_each peers_ _ _ w) as [out w'] eqn:E. apply peers_loop_run in E. cbn.
  destruct out as [[n deg]|e]; [|done]. cbn in E. destruct E as (Hn & d & -> & Hs). cbn in *. split; [lia|done].
Qed.

(** The supervisor's call never raises, short of the process dying, and does
    nothing while no relay is configured. *)
Theorem supervisor_total `{GateI} (url enabled ms : bool) (now : Z) (w : world) :
  (forall e, (maybe_run_tick url enabled ms now w).1 = Err e -> is_Exception e = false) /\
  (url = false -> maybe_run_tick url enabled ms now w = (Ok tt, w)).
Proof.
  unfold maybe_run_tick, try_except, catch. split.
  - intros e. destruct (supervised_tick url enabled ms now w) as [[[]|e'] w1]; [done|].
    destruct (is_Exception e') eqn:E; [done|]. by intros [= <-].
  - by intros ->.
Qed.
End tick_properties.

(** ** Witnesses *)
Section tick_witnesses.
#[local] Existing Instance ascii_pylib.
#[local] Existing Instance toy_crypto.
#[local] Existing Instance toy_sqlite.
#[local] Existing Instance demo_prompts.
#[local] Existing Instance deny_all.
#[local] Instance tick_env : Env := demo_env silent_relay [].

Definition tick_client : RelayClient := {| rc_identity := idn2; rc_mailbox := u "mbx_2" |}.

Lemma daily_caps_hold_witness :
  caps_ok (w_db (run_kindled_link_tick (H4 := privacy_gate) idn2 tick_client true false day demo_world).2).
Proof.
  apply daily_caps_hold. intros p r Hr. cbn in Hr. by rewrite lookup_empty in Hr.
Defined.

(** A persona whose last tick was just now. *)
Definition recent_world : world :=
  upd_files {[ TICK_CADENCE := dumps_default (JObj [(u "last_run", JStr (isoformat day))]) ]} demo_world.

Lemma tick_not_due_witness :
  run_kindled_link_tick idn2 tick_client true false day recent_world = (Ok Skipped, recent_world).
Proof. apply tick_not_due. vm_compute. reflexivity. Defined.

Lemma supervisor_total_witness : maybe_run_tick false true false day demo_world = (Ok tt, demo_world).
Proof. exact (proj2 (supervisor_total false true false day demo_world) eq_refl). Defined.
End tick_witnesses.
