(* ===== verification/Views.v ===== *)
(** [brain/kindled_link/views.py]: what the UI may read.  Theorem: the status of
    held drafts is a function of the rows without their bodies. *)
From S2P Require Import Prelude PyFloat PyTime Json Crypto Protocol LinkStore World Gate Relationship.

Section views.
Context `{PyLib}.

(** ORDER BY on a text column. *)
Fixpoint insert_by {A} (before : A -> A -> bool) (x : A) (l : list A) : list A :=
  match l with
  | [] => [x]
  | y :: l' => if before x y then x :: l else y :: insert_by before x l'
  end.

Definition sort_by {A} (before : A -> A -> bool) (l : list A) : list A :=
  foldr (insert_by before) [] l.

Record peer_view := {
  v_peer : pystr; v_fingerprint : pystr; v_relay_url : option pystr; v_consent : pystr;
  v_stage : pystr; v_tags : list pystr; has_active_session : bool }.

Definition list_peers : M db (list peer_view) :=
  rows ← gets (fun d => sort_by (fun a b => negb (str_ltb (p_created_at b.2) (p_created_at a.2)))
                          (map_to_list (peers d)));
  fold_each rows [] (fun out r =>
    rel ← get_relationship_state r.1;
    active ← get_active_session r.1;
    mret (out ++ [{| v_peer := r.1; v_fingerprint := p_fingerprint r.2; v_relay_url := relay_url r.2;
                     v_consent := consent_state r.2; v_stage := stage rel;
                     v_tags := affinity_tags rel; has_active_session := bool_decide (is_Some active) |}])).

Record transcript_view := {
  tv_seq : Z; tv_direction : pystr; tv_text : pystr; tv_provenance : pystr; tv_ts : pystr }.

Definition peer_transcript (peer_id : pystr) (limit : nat) : M db (list transcript_view) :=
  rows ← recent_transcript peer_id limit;
  mret (map (fun r => {| tv_seq := t_seq r; tv_direction := direction r; tv_text := t_text r;
                         tv_provenance := provenance r; tv_ts := t_ts r |}) rows).

(** The held drafts' sessions and times, newest first. *)
Definition holds_status : M db (nat * list (pystr * pystr)) :=
  gets (fun d =>
    let rows := sort_by (fun a b => negb (str_ltb a.2 b.2))
      (map (fun r => (d_session r, d_created_at r))
        (filter (fun r => d_status r = u "hold") (outbound_drafts d))) in
    (length rows, rows)).
End views.

(** ** Theorems *)
Lemma insert_by_perm {A} before (x : A) l : insert_by before x l ≡ₚ x :: l.
Proof.
  induction l as [|y l IH]; simpl; [done|]. case_match; [done|]. rewrite IH. apply Permutation_swap.
Qed.

Lemma sort_by_perm {A} before (l : list A) : sort_by before l ≡ₚ l.
Proof.
  induction l as [|x l IH]; simpl; [done|]. by rewrite insert_by_perm, IH.
Qed.

(** The draft with another body. *)
Definition with_payload (f : pystr -> pystr) (r : draft_row) : draft_row :=
  {| d_id := d_id r; d_peer := d_peer r; d_session := d_session r; payload_json := f (payload_json r);
     d_status := d_status r; d_created_at := d_created_at r |}.

Lemma with_payload_holds f l :
  map (fun r => (d_session r, d_created_at r)) (filter (fun r => d_status r = u "hold") (map (with_payload f) l)) =
  map (fun r => (d_session r, d_created_at r)) (filter (fun r => d_status r = u "hold") l).
Proof.
  induction l as [|r l IH]; [done|]. cbn [map]. rewrite !filter_cons. cbn [with_payload d_status].
  destruct (decide (d_status r = u "hold")); cbn; by rewrite IH.
Qed.

(** What the UI reads of held drafts cannot depend on a draft's body:
    rewriting every body changes nothing; the read itself changes nothing, and it
    lists exactly the held drafts, as many as it says. *)
Theorem holds_status_no_body (f : pystr -> pystr) (d : db) :
  (holds_status (upd_outbound_drafts (map (with_payload f) (outbound_drafts d)) d)).1 = (holds_status d).1 /\
  (holds_status d).2 = d /\
  exists rows, (holds_status d).1 = Ok (length rows, rows) /\
    rows ≡ₚ map (fun r => (d_session r, d_created_at r))
              (filter (fun r => d_status r = u "hold") (outbound_drafts d)).
Proof.
  unfold holds_status, gets. cbn [fst snd]. split_and!; [|done|].
  - cbn [outbound_drafts upd_outbound_drafts]. by rewrite with_payload_holds.
  - eexists. split; [done|]. apply sort_by_perm.
Qed.
